(* ===== verification/_CoqProject ===== *)
-Q . S2P
Prelude.v
Upgrades.v
AuthState.v
AuthStores.v
Crypto.v
Validators.v
AuthEnforcement.v
AuthSim.v
AuthSpec.v
AuthRefine.v
AuthInvariants.v
AuthAtomic.v
AuthTheorems.v
AuthAgreement.v
Encoding.v
Rendezvous.v
Registration.v
RegistrationProps.v
Mempool.v
PoS.v
PoSProps.v
Proposal.v
BlockDb.v
Blocks.v
BlocksProps.v
Rollups.v
Slash.v
Distribution.v
DistributionProps.v
NodeTxs.v
Restore.v
RestoreProps.v
Snapshots.v
SnapshotsProps.v
Rewards.v
RewardsProps.v
Claims.v
Ledger.v
Admission.v
AdmissionProps.v
Crudr.v
CoreOps.v
CoreOpsProps.v
EtlBase.v
EtlDb.v
EtlAccounts.v
EtlSocial.v
EtlComments.v
EtlEvents.v
EtlRoutes.v
EtlTracks.v
EtlPlaylists.v
EtlRegistry.v
EtlSteps.v
EtlRejections.v
EtlProps.v
EtlSigners.v
EtlIndexer.v
EtlIndexerProps.v
EtlExamples.v
EtlSocialProps.v
EtlRoutesProps.v
EtlCatalogProps.v
EtlWalletProps.v
MediaStore.v
MediaPresence.v
MediaRepair.v
MediaProps.v
MediaCycle.v
MediaLoss.v
MediaPrune.v
MediaFetch.v
MediaPull.v
MediaReplicate.v
MediaNetwork.v
MediaExamples.v
MediaAccess.v
MediaAccessProps.v
MediaAttest.v
MediaWaveform.v
