(* ===== verification/Prelude.v ===== *)
(** * A verification library for the core of an OpenAudio node

    OpenAudio is a CometBFT chain for music metadata with a storage network
    attached.  A node runs the ABCI application of pkg/core/server: clients submit
    signed transactions to a mempool, a proposer builds a block from it, the
    validators vote on the block, and every node applies it to a Postgres database.
    This library models the deterministic part of that application, translated from
    the Go sources, and proves what makes it correct.  It also records, as theorems
    about the same definitions, the places where the code does not do what its
    comments say.

    ** Parts of the system and the files that model them

    - Upgrades.v: the baked-in upgrade schedules and the ruleset at a height
      (config/upgrades.go), forwarding policy (config/forwarding.go).
    - Authorization.  AuthState.v: the transition of a ManageEntity transaction on
      users, grants, developer apps, entities and content claims
      (server/auth_state.go, content_auth_state.go), against the store interface
      [AuthReader]/[AuthWriter].  AuthStores.v: its two implementations, the block
      store over the core_auth_* tables (auth_store_db.go) and the copy-on-write
      overlay proposals are validated on (auth_store_overlay.go).
      AuthEnforcement.v: admission (auth_enforcement.go), finalization
      (manage_entity.go) and content attestations (content_attestation.go).
      AuthSpec.v: a declarative guard and effect per operation, and that the
      transition decides them.  AuthSim.v: a relational logic for two stores and
      the simulation of the transition against it.  AuthRefine.v: the overlay and
      the faulty store as instances.  AuthInvariants.v: well-formed tables.
      AuthAtomic.v: a rejected transaction leaves the store alone.
      AuthTheorems.v, AuthAgreement.v: the properties.
    - Crypto.v: hex, signatures over sha256 and keccak (common/crypto.go), EIP-712
      ManageEntity signatures (server/eip712.go), the 32-byte string encoding.
      Encoding.v: base64, big-endian integers, decimal parsing.
    - Validators.v: core_validators and its queries (pkg/core/db).
      Rendezvous.v: attestor selection, host ranking (common/rendezvous.go) and
      object addresses (common/address.go).  Registration.v, RegistrationProps.v:
      attestations, registration and deregistration of validators
      (server/attestation.go, registration.go, registration_legacy.go) and the
      validator updates FinalizeBlock reports.
    - Mempool.v: the transaction queue (server/mempool.go).
    - PoS.v, PoSProps.v: proof of storage (server/pos.go).
    - Rewards.v, RewardsProps.v: reward pools and rewards (server/reward_pools.go,
      rewards.go, rewards_legacy.go, reward_state.go, pkg/rewards/reward_pool.go).
      Claims.v: claims, attestations and the sender gate
      (pkg/rewards, config/rewards.go, server/connect.go).
    - Proposal.v: PrepareProposal, ProcessProposal and the block
      transaction checks (server/abci.go), against the interfaces [TxChecks] (the checks
      of each kind of transaction) and [ProposerTxs] (the rollups and deregistrations a
      proposer creates itself).
    - BlockDb.v, Blocks.v, BlocksProps.v: FinalizeBlock and Commit
      (server/abci.go, transaction_v2.go, data_companion.go) on Postgres
      transactions with savepoints, against the interface [TxHandlers].
    - Rollups.v: SLA rollups and the purge of idle validators
      (server/auditor.go).  Slash.v: slash recommendations
      (server/slash.go), with their amount in binary64 arithmetic.
    - Distribution.v, DistributionProps.v: file uploads and the ERN, MEAD and PIE
      messages of version 2 transactions (server/files.go, ern.go, mead.go, pie.go).
    - NodeTxs.v: plays and storage operations (server/plays.go,
      mediorum_operation.go, release.go, mediorum/opvalidation).
    - Snapshots.v, SnapshotsProps.v: state sync snapshots, created and served by one
      node and collected by another (server/state_sync.go, abci.go), on directories
      of files.  Restore.v, RestoreProps.v: restoring the database from a dump
      (RestoreDatabase of state_sync.go, restore_persistence.go, restore_tuning.go);
      the parameter [restore] of the former stands for it.
    - Ledger.v instantiates [TxChecks] and [ProposerTxs] with the components above, on
      one committed state.  Admission.v, AdmissionProps.v: CheckTx, validateV1Transaction and the
      endpoints that fill the mempool (server/abci.go, connect.go).
    - Crudr.v, CoreOps.v, CoreOpsProps.v: the operation log of the storage service and
      its replication over the chain (mediorum/crudr, mediorum/server/core_ops.go).
    - The indexer (pkg/etl).  EtlBase.v: parameters, metadata, checks and the
      dispatcher (entity_manager/handler.go, validate.go).  EtlDb.v: its tables and the
      transaction a handler runs in.  The handlers of entity_manager: EtlAccounts.v (users,
      grants, developer apps, mutes), EtlSocial.v (follows, saves, reposts, subscriptions,
      shares), EtlComments.v, EtlEvents.v (events, wallets, emails, notifications, counts),
      EtlRoutes.v (slugs, genres, dates), EtlTracks.v, EtlPlaylists.v; EtlRegistry.v: their
      registration by data type, and for replays.  EtlIndexer.v: blocks (indexer.go,
      processors).  EtlSteps.v: what a step of a handler may do, with the tactics that
      peel a handler; EtlRejections.v, EtlProps.v, EtlSigners.v, EtlIndexerProps.v,
      EtlSocialProps.v, EtlRoutesProps.v, EtlCatalogProps.v, EtlWalletProps.v: the
      properties, EtlExamples.v: concrete runs.
    - The blobs of a storage node (pkg/mediorum).  MediaStore.v: keys of content
      identifiers (cidutil), placement, the two buckets, writing, dropping and moving
      blobs (server/placement.go, bucket_select.go, replicate.go) and the records kept of
      them (blob_presence_store.go).  MediaPresence.v: the index of what a node holds
      (repair_presence_index.go) and the peers to fall back to (peer_health.go).
      MediaRepair.v: repair and declared data loss (repair.go, repair_retention.go,
      repair_data_loss.go).  MediaPrune.v: deletion of unpublished uploads and orphaned
      files (prune.go, persistence), over the indexer's tables of EtlDb.  MediaProps.v,
      MediaCycle.v, MediaLoss.v: the properties of repair.  MediaFetch.v: reading a blob from a peer in ranges (blob_fetch.go).
      MediaPull.v: receiving blobs, with the queue of transfers
      (blob_pull_async.go, store_all_intake.go, serve_blob.go, local_disk.go).
      MediaReplicate.v: handing them out (replicate_worker.go,
      replicate.go, upload_row.go), against the interface [PeerNet]; MediaNetwork.v
      implements it with receiving nodes.  MediaAccess.v: who is served what, with
      signatures, delisting and the gating of tracks over the tables the block
      finalizer writes (serve_blob.go, serve_image.go, signature.go, delist_statuses.go);
      MediaAccessProps.v: its runs, beside a core that commits and invalidates.
      MediaAttest.v: uploads and previews and the claims they earn in the core
      (upload_auth.go, preview_auth.go), plays (play_event_queue.go).
      MediaWaveform.v: the analysis of audio, its queue and its sweeps
      (waveform_worker.go).
      MediaExamples.v: concrete runs.  The disk, the
      database, the peers and the clock are a [world]; a cycle runs over a sequence of them,
      so each step may meet another one.
    - Prelude.v (this file): results, state-and-error programs, Go strings and
      machine integers, shared lemmas and tactics.

    ** How code becomes definitions

    A function that returns [(T, error)] is a function into [res].  Code that
    writes to a store is a [proc]: a function of the store that returns the store it
    leaves behind together with the result, so writes before an error are visible.
    Errors are the error values or the messages without their arguments; logging is
    dropped.  Tables are finite maps or lists of rows with the constraints of the
    migrations.  A statement that can fail for other reasons consults a fault
    oracle, an arbitrary predicate on queries.  Integers are [Z]; arithmetic that
    can leave int64 is wrapped with [wrap64].  Go strings are byte strings; case
    folding and trimming are the ASCII part of package strings.  Orders the language
    or the database leaves open (rows of a query, ranges over maps) are parameters
    with a permutation law.

    Code outside the repository is a parameter: elliptic curve operations and
    hashes ([EthCrypto], with the documented laws in [EthCryptoLaws]), protobuf
    encodings, JSON decoding, URL parsing, base58, ed25519, the conversion of
    out-of-range floats (which differs between processors).  [Toy.crypto] is an
    instance of the signature laws; witnesses run on it.

    ** What is proved

    - Authorization: the transition meets its specification; only signers with
      authority change rows; live tables stay well formed; ownership is permanent;
      a failing store never flips a verdict; the overlay and the block store agree,
      so that what is accepted in a proposal is applied, on tables without
      shared wallets and with the exact exception.
    - Validators: an attestation has enough signers exactly when the distinct eligible
      attestors among them reach the quorum; domain separation of attestation bytes; uniqueness of
      eth addresses; what a valid registration guarantees; selection is independent
      of order and stable under removal.
    - Blocks: the mempool implements a bounded queue; batches are the oldest live
      transactions; proposals use the byte budget in full; a node accepts the proposals
      it builds, its own rollups and deregistrations included, but for evidence against
      a jailed validator; a committed block is stored completely, failing version 2
      transactions leave no trace, Commit empties the mempool of the block and the
      retain height only advances.
    - Admission: the endpoints pool only validated transactions under the hash of
      their encoding; for the kinds it validates in full, admission predicts the verdict of
      the next block; replay-only
      transactions enter nowhere; verdicts do not depend on jailing.
    - Service levels: rollups cover the chain without gaps and count its blocks,
      storing them never fails, validators accept exactly their own; a node signs
      only slash recommendations its own rollups support.
    - Distribution: a valid release is stored whole; its recordings are files whose
      upload the declared sender signed.
    - Storage proofs: the effect of a verification is a function of the table,
      whatever the order of rows; a challenge is resolved once.
    - Rewards: only authorities change pools and rewards, but for the legacy format of
      old blocks, whose creates may add authorities; authority sets stay
      canonical and non-empty; attested claims are within bounds and authorized;
      claim bytes are unambiguous.
    - State sync: a node that has begun no other sync restores a snapshot from its chunks
      in any order of arrival; a successful restore leaves no table unlogged and every restore puts the server
      settings back; converting tables terminates and, without cycles of references,
      succeeds; pruning keeps the newest snapshots.
    - Storage operations: a node that logs every valid operation replays those of the chain
      in order whatever fails in between; what a node submits, the chain accepts.
    - Indexer: a block is the effect of its accepted transactions and its two paths
      agree; rejected transactions write nothing, but for the handlers that check late, and
      accepted ones are authorized, by the same rule as on the chain; wallets and handles
      name one account; the search for a title's route ends with
      a free slug but for odd routes of migrations; a playlist's rows are its
      contents; an edit keeps what a track is; a linked wallet has one owner.
    - Storage nodes: a repair whose presence check and body are right never removes the
      last good copy of a blob the node has to keep; when its own storage works and every
      wanted blob is served a scan ends and leaves nothing missing; a loss is declared only
      on five failed repairs over a week, the last of them after asking every host the blob
      is expected on; a prune of audio deletes only old uploads none of whose files a track
      references; a blob read in ranges is the blob; a blob has one transfer at a time
      and the answers about it are true; a recorded mirror holds the blob, and two rounds
      of requests bring it to every host it is due at.  Five minutes after a recording is gated only
      its access authorities open its streams; every claim comes from an upload or from a
      preview of a claimed source, and an upload earns its claims; a tagged stream is the
      tag followed by the blob; the walk that analyses uploads passes none over
      whose analysis ends in time.
    - Divergences, as theorems on concrete or general inputs: stale wallet lookups
      in the overlay, the case-sensitive content check, processor-dependent
      verdicts, grants anyone may decide, colliding comet addresses, addresses that
      ignore large heights, GetAll of the mempool, dropped transactions that break
      proposals, repeated votes in challenges, unprefixed authorities, replayed
      rotations and the delete gate, rollups that fail on shared comet addresses,
      deadlines admission judges one block early, damaged chunks that block state
      sync, snapshot offers that are rejected after room was made for them, operations
      that stop replication, local updates that diverge, deleted apps that keep their
      authority, shadowed grants, blocks the indexer passes over, rejected tracks that are
      half written, remixes that are lost, proofs of wallets that anyone can use, listings
      that fail and hide every blob, pictures that are pruned while in use, identifiers
      that are too short to be sharded, blobs that are served as images whatever their
      status, names with a suffix that slip past delisting, gatings the cache misses, retries beyond their cap, analyses that run out of time unrecorded, migrated routes
      that block a title, evidence against a jailed validator that breaks proposals, previews
      no sweep finds, and archives read with their flag off.

    ** Bounds and fuel

    Recursion is structural except in seven loops and the printing of integers (twenty
    digits, enough for int64), which take fuel.
    [Mempool.GetAll] may not end, and its theorem is that it is still running after
    any amount of fuel.  [Restore.persistence_loop] gets one pass more than there are
    tables, which is enough since a pass that converts nothing is the last, and
    [Snapshots.chunk_loop] one round more than the dump has bytes; both are proved to
    return.  [EtlRoutes.slug_search] tries one number more than there are routes, which is
    proved to end the search.  [MediaRepair.scroll] is proved to end within one batch more
    than there are uploads; the scan theorem takes the tables as constant while it runs, and keys
    as compared byte by byte.  [MediaFetch.Read] takes two rounds and [MediaFetch.copy_reader] one
    read more than the blob has bytes, which is proved to be enough for peers that serve it.  Chunk files are named with six digits, so the round trip is stated for up
    to a million chunks.

    ** Not modelled

    Network and process code (peers, RPC handlers other than the sender gate and
    the submission endpoints, the schedule of snapshots, the registry bridge, caches,
    the console), the storage service other than its operation log, repair,
    prune, replication, serving and attestation (receiving uploads, transcoding and
    analysing files, the envelope of a waveform, the concurrent walk of a directory, the progress rows of
    prunes, polling for delist statuses, headers and byte ranges of responses), the processes around
    the indexer (prefetching, validator sync, scheduled releases), the explorer and the
    genesis writer. *)

From stdpp Require Import base gmap strings list fin_maps.
From Stdlib Require Import ZArith Lia Ascii.

Declare Scope oap_scope.
Delimit Scope oap_scope with oap.
Open Scope Z_scope.

(** ** Results

    A Go function that returns [(T, error)] is a function into [res E T]:
    [Ok v] when the error is nil, [Err e] otherwise. *)
Inductive res (E A : Type) : Type :=
| Ok (a : A)
| Err (e : E).
Arguments Ok {E A} a.
Arguments Err {E A} e.

Definition rbind {E A B} (r : res E A) (k : A -> res E B) : res E B :=
  match r with
  | Ok a => k a
  | Err e => Err e
  end.

Notation "'let?' x ':=' r 'in' k" := (rbind r (fun x => k))
  (at level 10, x binder, r at level 100, k at level 200) : oap_scope.

(** [if cond { return err }]. *)
Definition guard_err {E} (cond : bool) (e : E) : res E unit :=
  if cond then Err e else Ok tt.

(** ** State and errors

    Code that mutates a store and may fail is a function of the store that
    returns the store it leaves behind *and* the result: an error does not undo
    the writes made before it. *)
Definition proc (S E A : Type) : Type := S -> S * res E A.

Definition pret {S E A} (a : A) : proc S E A := fun s => (s, Ok a).
Definition pfail {S E A} (e : E) : proc S E A := fun s => (s, Err e).
Definition pbind {S E A B} (m : proc S E A) (k : A -> proc S E B) : proc S E B :=
  fun s => match m s with
           | (s', Ok a) => k a s'
           | (s', Err e) => (s', Err e)
           end.

(** A query reads the store and leaves it alone. *)
Definition query {S E A} (f : S -> res E A) : proc S E A := fun s => (s, f s).

Notation "'let!' x ':=' m 'in' k" := (pbind m (fun x => k))
  (at level 10, x binder, m at level 100, k at level 200) : oap_scope.
Notation "m ';;!' k" := (pbind m (fun _ : unit => k))
  (at level 100, right associativity) : oap_scope.
Open Scope oap_scope.

(** [for_each f l] is the loop [for _, x := range l { if err := f(x); err != nil { return err } }]. *)
Fixpoint for_each {S E A} (f : A -> proc S E unit) (l : list A) : proc S E unit :=
  match l with
  | [] => pret tt
  | x :: l' => f x ;;! for_each f l'
  end.

(** ** Go strings

    A Go string is a byte string.  [ToLower], [EqualFold] and [TrimSpace] are the
    ASCII part of the functions of package strings: a byte outside ASCII is left
    alone. *)
Definition ascii_lower (c : ascii) : ascii :=
  let n := N_of_ascii c in
  if ((65 <=? n) && (n <=? 90))%N then ascii_of_N (n + 32) else c.

Fixpoint ToLower (s : string) : string :=
  match s with
  | EmptyString => EmptyString
  | String c s' => String (ascii_lower c) (ToLower s')
  end.

Definition EqualFold (s t : string) : bool := String.eqb (ToLower s) (ToLower t).

Definition ascii_space (c : ascii) : bool :=
  let n := N_of_ascii c in
  ((n =? 32) || ((9 <=? n) && (n <=? 13)))%N.

Fixpoint trim_left (s : string) : string :=
  match s with
  | EmptyString => EmptyString
  | String c s' => if ascii_space c then trim_left s' else s
  end.

Fixpoint trim_right (s : string) : string :=
  match s with
  | EmptyString => EmptyString
  | String c s' =>
      match trim_right s' with
      | EmptyString => if ascii_space c then EmptyString else String c EmptyString
      | t => String c t
      end
  end.

Definition TrimSpace (s : string) : string := trim_right (trim_left s).

(** ** Machine integers *)
Definition int64_min : Z := - 2 ^ 63.
Definition int64_max : Z := 2 ^ 63 - 1.
Definition uint64_max : Z := 2 ^ 64 - 1.

(** The value of an int64 expression whose mathematical value is [z]. *)
Definition wrap64 (z : Z) : Z := (z + 2 ^ 63) mod 2 ^ 64 - 2 ^ 63.
(** The value of a uint64 expression whose mathematical value is [z]. *)
Definition uwrap64 (z : Z) : Z := z mod 2 ^ 64.

Definition is_int64 (z : Z) : Prop := int64_min <= z <= int64_max.

(** ** Lemmas *)

Create HintDb oap.

Lemma ascii_lower_idem c : ascii_lower (ascii_lower c) = ascii_lower c.
Proof. destruct c as [[] [] [] [] [] [] [] []]; vm_compute; reflexivity. Qed.

Lemma ToLower_idem s : ToLower (ToLower s) = ToLower s.
Proof. induction s; simpl; [done|]. by rewrite ascii_lower_idem, IHs. Qed.

Lemma ToLower_empty s : ToLower s = "" <-> s = "".
Proof. by destruct s. Qed.

Lemma EqualFold_spec s t : EqualFold s t = true <-> ToLower s = ToLower t.
Proof. apply String.eqb_eq. Qed.

Lemma EqualFold_refl s : EqualFold s s = true.
Proof. by apply EqualFold_spec. Qed.

Lemma EqualFold_ToLower_l s t : EqualFold (ToLower s) t = EqualFold s t.
Proof. unfold EqualFold. by rewrite ToLower_idem. Qed.

Lemma EqualFold_sym s t : EqualFold s t = EqualFold t s.
Proof. apply String.eqb_sym. Qed.

Lemma wrap64_id z : is_int64 z -> wrap64 z = z.
Proof.
  unfold is_int64, int64_min, int64_max, wrap64. intros.
  rewrite Z.mod_small; lia.
Qed.

Lemma wrap64_range z : is_int64 (wrap64 z).
Proof.
  unfold is_int64, int64_min, int64_max, wrap64.
  pose proof (Z.mod_pos_bound (z + 2 ^ 63) (2 ^ 64)). lia.
Qed.

Lemma rbind_ok {E A B} (r : res E A) (k : A -> res E B) b :
  rbind r k = Ok b -> exists a, r = Ok a /\ k a = Ok b.
Proof. destruct r as [a|]; simpl; [eauto|done]. Qed.

Lemma guard_err_ok {E} c (e : E) u : guard_err c e = Ok u -> c = false.
Proof. by destruct c. Qed.

#[export] Hint Resolve wrap64_range : oap.
#[global] Hint Rewrite ToLower_idem EqualFold_ToLower_l EqualFold_refl : oap.

(** ** Tactics *)

(** Case analysis on the scrutinee of the outermost [match] of the goal or of a
    hypothesis, keeping the equation. *)
Ltac case_goal :=
  match goal with
  | |- context [match ?x with _ => _ end] =>
      lazymatch x with
      | context [match _ with _ => _ end] => fail
      | _ => destruct x eqn:?
      end
  end.

Ltac case_hyp H :=
  match type of H with
  | context [match ?x with _ => _ end] =>
      lazymatch x with
      | context [match _ with _ => _ end] => fail
      | _ => destruct x eqn:?
      end
  end.

(** Run a [proc] that is the subject of [H] and drop the branches its result
    rules out. *)
Ltac step_proc H :=
  unfold pbind, pret, pfail, query in H;
  repeat (case_hyp H; simplify_eq).

(** Peel the checks of a validation function off [H : ... = Ok _]. *)
Ltac peel_checks H :=
  repeat match type of H with
  | rbind (guard_err _ _) _ = Ok _ =>
      let Hc := fresh "Hc" in
      apply rbind_ok in H as (? & Hc & H); apply guard_err_ok in Hc
  end.
