(* ===== verification/Upgrades.v ===== *)
(** * Height-gated rules and forwarding policy

    Models pkg/core/config/upgrades.go (the consensus ruleset as a function of
    the block height) and pkg/core/config/forwarding.go together with
    checkForwardChainID of pkg/core/server/mempool.go (which forwarded
    transactions a node admits). *)

From stdpp Require Import base gmap strings list.
From Stdlib Require Import ZArith Lia.
From S2P Require Import Prelude.

Record UpgradeSchedule := mkUpgradeSchedule {
  AttestationDomainHeight : Z;
  AuthEnforcementHeight : Z;
  ContentAuthEnforcementHeight : Z;
  ContentAuthStrictHeight : Z;
  LegacyRegistrationClosedHeight : Z
}.

Record Rules := mkRules {
  AttestationDomainEnforced : bool;
  AuthEnforced : bool;
  ContentAuthEnforced : bool;
  ContentAuthStrict : bool;
  LegacyRegistrationClosed : bool
}.

(** [Rules{}]: no upgrade is active. *)
Definition no_rules : Rules := mkRules false false false false false.

Definition activeAt (activation height : Z) : bool :=
  negb (activation =? 0) && (activation <=? height).

(** [RulesetAt] on a possibly nil schedule. *)
Definition RulesetAt (u : option UpgradeSchedule) (height : Z) : Rules :=
  match u with
  | None => no_rules
  | Some u =>
      {| AttestationDomainEnforced := activeAt (AttestationDomainHeight u) height;
         AuthEnforced := activeAt (AuthEnforcementHeight u) height;
         ContentAuthEnforced := activeAt (ContentAuthEnforcementHeight u) height;
         ContentAuthStrict := activeAt (ContentAuthStrictHeight u) height;
         LegacyRegistrationClosed := activeAt (LegacyRegistrationClosedHeight u) height |}
  end.

(** The empty schedule [UpgradeSchedule{}]. *)
Definition empty_schedule : UpgradeSchedule := mkUpgradeSchedule 0 0 0 0 0.

Definition upgradeSchedules : gmap string UpgradeSchedule :=
  list_to_map
    [ ("openaudio-devnet", mkUpgradeSchedule 1 1 1 1 1);
      ("audius-devnet", mkUpgradeSchedule 1 1 1 1 1);
      ("audius-testnet-alpha", empty_schedule);
      ("audius-mainnet-alpha-beta", mkUpgradeSchedule 0 0 0 0 35005210);
      ("audius-mainnet-beta", mkUpgradeSchedule 0 1 1 0 1) ]%string.

Definition ScheduleForChainID (chainID : string) : UpgradeSchedule :=
  default empty_schedule (upgradeSchedules !! chainID).

(** ** Forwarded transactions *)

Definition forwardChainIDRequired : gmap string bool :=
  list_to_map
    [ ("openaudio-devnet", true); ("audius-devnet", true);
      ("audius-mainnet-beta", true) ]%string.

Definition ForwardChainIDRequired (chainID : string) : bool :=
  default false (forwardChainIDRequired !! chainID).

Inductive forward_error := ForwardNamesNoChain | ForwardFromOtherChain.

Definition checkForwardChainID (ownChainID forwardedChainID : string) : res forward_error unit :=
  if String.eqb forwardedChainID "" then
    if ForwardChainIDRequired ownChainID then Err ForwardNamesNoChain else Ok tt
  else if negb (String.eqb ownChainID "") && negb (String.eqb forwardedChainID ownChainID)
  then Err ForwardFromOtherChain
  else Ok tt.

(** ** Lemmas *)

Lemma activeAt_spec a h : activeAt a h = true <-> a <> 0 /\ a <= h.
Proof. unfold activeAt. rewrite andb_true_iff, negb_true_iff, Z.eqb_neq, Z.leb_le. done. Qed.

Lemma activeAt_mono a h h' : h <= h' -> activeAt a h = true -> activeAt a h' = true.
Proof. rewrite !activeAt_spec. lia. Qed.

(** Pointwise order on rulesets: every rule active in [r] is active in [r']. *)
Definition rules_le (r r' : Rules) : Prop :=
  (AttestationDomainEnforced r = true -> AttestationDomainEnforced r' = true) /\
  (AuthEnforced r = true -> AuthEnforced r' = true) /\
  (ContentAuthEnforced r = true -> ContentAuthEnforced r' = true) /\
  (ContentAuthStrict r = true -> ContentAuthStrict r' = true) /\
  (LegacyRegistrationClosed r = true -> LegacyRegistrationClosed r' = true).

Lemma ScheduleForChainID_cases (P : UpgradeSchedule -> Prop) :
  P empty_schedule -> P (mkUpgradeSchedule 1 1 1 1 1) ->
  P (mkUpgradeSchedule 0 0 0 0 35005210) -> P (mkUpgradeSchedule 0 1 1 0 1) ->
  forall c, P (ScheduleForChainID c).
Proof.
  intros. unfold ScheduleForChainID.
  destruct (upgradeSchedules !! c) as [u|] eqn:E; [|done]. simpl.
  apply elem_of_list_to_map_2 in E.
  repeat (apply elem_of_cons in E as [E|E]; [by simplify_eq|]).
  by apply elem_of_nil in E.
Qed.

(** ** Properties *)

(** the gates of a baked schedule are coherent on every network and at
    every height: strict content authorization is only ever active together with
    content authorization, and content authorization only together with
    authorization enforcement (validateBlockTx consults the content rules only
    under AuthEnforced, so a schedule without this would leave a gap). *)
Theorem baked_schedules_coherent chainID height :
  let r := RulesetAt (Some (ScheduleForChainID chainID)) height in
  (ContentAuthStrict r = true -> ContentAuthEnforced r = true) /\
  (ContentAuthEnforced r = true -> AuthEnforced r = true).
Proof.
  revert chainID.
  apply (ScheduleForChainID_cases (fun u =>
    let r := RulesetAt (Some u) height in
    (ContentAuthStrict r = true -> ContentAuthEnforced r = true) /\
    (ContentAuthEnforced r = true -> AuthEnforced r = true)));
    simpl; rewrite ?activeAt_spec; lia.
Qed.

(** Rules are never switched off by a greater height. *)
Lemma RulesetAt_mono u h h' : h <= h' -> rules_le (RulesetAt u h) (RulesetAt u h').
Proof.
  intros. destruct u; [|by vm_compute]. repeat split; simpl; eauto using activeAt_mono.
Qed.
