(* ===== verification/AuthState.v ===== *)
(** * The authorization projection

    Models pkg/core/server/auth_state.go and pkg/core/server/content_auth_state.go:
    the authorization-relevant effects of ManageEntity transactions, written once
    against the store interface [AuthStore] (the Go interfaces authReader,
    authWriter and authStore) so that the block store and the proposal overlay
    run the same code. *)

From stdpp Require Import base gmap strings list.
From Stdlib Require Import ZArith Lia.
From S2P Require Import Prelude Upgrades.

Open Scope string_scope.
Open Scope Z_scope.

(** ** Metadata

    What encoding/json decodes a document to when the target is [any].  An
    object keeps its members in document order; a float64 is [m * 2^e]. *)
Inductive float64 := F64 (m e : Z).

Inductive json :=
| JNull
| JBool (b : bool)
| JNum (f : float64)
| JStr (s : string)
| JArr (l : list json)
| JObj (l : list (string * json)).

(** A decoded object as a Go map: the last member with a key wins. *)
Fixpoint jlookup (k : string) (l : list (string * json)) : option json :=
  match l with
  | [] => None
  | (k', v) :: l' =>
      match jlookup k l' with
      | Some w => Some w
      | None => if String.eqb k k' then Some v else None
      end
  end.

(** Go leaves the conversion of an out-of-range float64 to int64 to the
    implementation; these are the two architectures the node is built for. *)
Inductive arch := Amd64 | Arm64.

Definition float64_trunc (f : float64) : Z :=
  match f with
  | F64 m e => if 0 <=? e then m * 2 ^ e else Z.quot m (2 ^ (- e))
  end.

Definition float64_to_int64 (cpu : arch) (f : float64) : Z :=
  let z := float64_trunc f in
  if (int64_min <=? z) && (z <=? int64_max) then z
  else match cpu with
       | Amd64 => int64_min
       | Arm64 => if 0 <? z then int64_max else int64_min
       end.

(** ** Transactions *)

Record ManageEntityLegacy := mkManageEntityLegacy {
  me_UserId : Z;
  me_EntityType : string;
  me_EntityId : Z;
  me_Action : string;
  me_Metadata : string;
  me_Signature : string;
  me_Nonce : string;
  me_Signer : string
}.

Record ManageEntityLegacyMigration := mkManageEntityLegacyMigration {
  mm_UserId : Z;
  mm_EntityType : string;
  mm_EntityId : Z;
  mm_Action : string;
  mm_Metadata : string;
  mm_Signer : string
}.

Record authTx := mkAuthTx {
  UserID : Z;
  EntityType : string;
  EntityID : Z;
  Action : string;
  Signer : string;
  Migration : bool;
  meta : list (string * json)
}.

Record ContentAttestation := mkContentAttestation {
  ca_UserId : Z;
  ca_Cids : list string;
  ca_ValidatorAddress : string;
  ca_ValidatorSignature : string
}.

(** [json.Unmarshal] into a [map[string]any], over a document already decoded. *)
Definition unmarshal_map (j : json) : option (list (string * json)) :=
  match j with
  | JObj l => Some l
  | JNull => Some []
  | _ => None
  end.

Section Decoding.
(** The JSON decoder: [None] on a syntax error. *)
Context (json_decode : string -> option json).

Definition parseAuthMetadata (raw : string) : list (string * json) :=
  if String.eqb raw "" then []
  else match json_decode raw ≫= unmarshal_map with
       | None => []
       | Some m =>
           match jlookup "data" m with
           | Some (JObj data) => data
           | _ => m
           end
       end.

Definition authTxFromManageEntity (em : ManageEntityLegacy) : authTx :=
  {| UserID := me_UserId em;
     EntityType := me_EntityType em;
     EntityID := me_EntityId em;
     Action := me_Action em;
     Signer := me_Signer em;
     Migration := false;
     meta := parseAuthMetadata (me_Metadata em) |}.

Definition authTxFromManageEntityMigration (em : ManageEntityLegacyMigration) : authTx :=
  {| UserID := mm_UserId em;
     EntityType := mm_EntityType em;
     EntityID := mm_EntityId em;
     Action := mm_Action em;
     Signer := mm_Signer em;
     Migration := true;
     meta := parseAuthMetadata (mm_Metadata em) |}.
End Decoding.

Definition metaString (t : authTx) (key : string) : string :=
  match jlookup key (meta t) with
  | Some (JStr s) => s
  | _ => ""
  end.

(** The decoder produces float64 for every number, so the int and int64 cases of
    the Go switch are never taken. *)
Definition metaInt64 (cpu : arch) (t : authTx) (key : string) : option Z :=
  match jlookup key (meta t) with
  | Some (JNum f) => Some (float64_to_int64 cpu f)
  | _ => None
  end.

Definition metaBool (t : authTx) (key : string) : option bool :=
  match jlookup key (meta t) with
  | Some (JBool b) => Some b
  | _ => None
  end.

Definition metaBoolOr (t : authTx) (key : string) (def : bool) : bool :=
  default def (metaBool t key).

(** ** Rows *)

Record authUserRow := mkAuthUserRow {
  Wallet : string;
  HandleLC : string;
  Deactivated : bool
}.

Record authGrantRow := mkAuthGrantRow {
  Approved : option bool;
  Revoked : bool
}.

Record authAppRow := mkAuthAppRow {
  AppOwnerID : Z;
  AppDeleted : bool
}.

Record authEntityRow := mkAuthEntityRow {
  EntOwnerID : Z;
  EntDeleted : bool
}.

(** ** Errors

    A rule rejection ([authValidationError]) and a store failure are never
    conflated.  The constructors of [reject_reason] are the messages. *)
Inductive reject_reason :=
| UserDoesNotExist (uid : Z)
| NoSignerForUser (uid : Z)
| SignerNotAuthorized (signer : string) (uid : Z)
| SignerNoLongerValid (signer : string)
| SignerGrantNotApproved (signer : string) (uid : Z)
| UserAlreadyExists (uid : Z)
| UserCreateHasNoSigner (uid : Z)
| WalletInUse (wallet : string)
| AppCannotCreateUser (wallet : string)
| HandleAlreadyExists (handle : string)
| IdBelowOffset (entityType : string) (id offset : Z)
| OwnerMissingOrMismatched (id : Z)
| EntityAlreadyExists (entityType : string) (id : Z)
| EntityDoesNotExist (entityType : string) (id : Z)
| EntityNotOwned (entityType : string) (id uid : Z)
| GranteeRequired
| GranteeNotAppOrUser (grantee : string)
| ActiveGrantExists (grantee : string) (uid : Z)
| NoActiveGrant (grantee : string) (uid : Z)
| NotAuthorizedToRevoke (signer grantee : string) (uid : Z)
| GrantorRequired
| GrantNotFound (grantee : string) (uid : Z)
| GrantAlreadyRevoked
| GrantAlreadyApproved
| AppAddressRequired
| AppAlreadyExists (address : string)
| AddressIsUserWallet (address : string)
| AppDoesNotExist (address : string)
| AppNotOwned (address : string) (uid : Z)
| AttestationHasNoUser
| CidNotUploadedFor (key cid : string) (uid : Z)
| CidNotAttested (key cid : string).

Inductive auth_error :=
| ValidationError (r : reject_reason)
| StoreError.

Definition isAuthValidationError (e : auth_error) : bool :=
  match e with
  | ValidationError _ => true
  | StoreError => false
  end.

(** ** The store interface *)

Class AuthReader (S : Type) := {
  GetUser : S -> Z -> res auth_error (option authUserRow);
  GetUserIDByWallet : S -> string -> res auth_error (option Z);
  WalletExists : S -> string -> res auth_error bool;
  ActiveWalletExists : S -> string -> res auth_error bool;
  HandleExists : S -> string -> res auth_error bool;
  GetGrant : S -> string -> Z -> res auth_error (option authGrantRow);
  GetApp : S -> string -> res auth_error (option authAppRow);
  GetEntity : S -> string -> Z -> res auth_error (option authEntityRow);
  IsCidClaimedByUser : S -> string -> Z -> res auth_error bool;
  CidIsClaimed : S -> string -> res auth_error bool
}.

Class AuthWriter (S : Type) := {
  InsertUser : Z -> string -> string -> bool -> proc S auth_error unit;
  SetUserHandle : Z -> string -> proc S auth_error unit;
  SetUserDeactivated : Z -> bool -> proc S auth_error unit;
  UpsertGrant : string -> Z -> option bool -> bool -> proc S auth_error unit;
  UpsertApp : string -> Z -> proc S auth_error unit;
  SetAppDeleted : string -> proc S auth_error unit;
  InsertEntity : string -> Z -> Z -> bool -> proc S auth_error unit;
  SetEntityDeleted : string -> Z -> proc S auth_error unit;
  InsertCid : string -> Z -> string -> proc S auth_error unit
}.

Class AuthStore (S : Type) := {
  authStore_reader :: AuthReader S;
  authStore_writer :: AuthWriter S
}.

(** ** Entity types, actions and offsets *)

Definition authEntityTypeUser : string := "User".
Definition authEntityTypeTrack : string := "Track".
Definition authEntityTypePlaylist : string := "Playlist".
Definition authEntityTypeGrant : string := "Grant".
Definition authEntityTypeDeveloperApp : string := "DeveloperApp".
Definition authActionCreate : string := "Create".
Definition authActionUpdate : string := "Update".
Definition authActionDelete : string := "Delete".
Definition authActionApprove : string := "Approve".
Definition authActionReject : string := "Reject".

Definition authPlaylistIDOffset : Z := 400000.
Definition authTrackIDOffset : Z := 2000000.

(** First canonical name that folds to [s]. *)
Definition canonical (names : list string) (s : string) : option string :=
  List.find (fun t => EqualFold s t) names.

Definition canonicalAuthEntityType (s : string) : option string :=
  canonical [authEntityTypeUser; authEntityTypeTrack; authEntityTypePlaylist;
             authEntityTypeGrant; authEntityTypeDeveloperApp] s.

Definition canonicalAuthAction (s : string) : option string :=
  canonical [authActionCreate; authActionUpdate; authActionDelete;
             authActionApprove; authActionReject] s.

Definition trackCidMetadataKeys : list string := ["track_cid"; "preview_cid"; "orig_file_cid"].

(** [return authValidationErrorf(...)] when [cond] holds. *)
Definition reject_if {S} (cond : bool) (r : reject_reason) : proc S auth_error unit :=
  if cond then pfail (ValidationError r) else pret tt.

Section Projection.
Context (cpu : arch).
Context {S : Type} {reader : AuthReader S} {writer : AuthWriter S}.

(** ** Signers *)

Definition validateAuthSigner (st : S) (userID : Z) (signer : string) : res auth_error unit :=
  let? u := GetUser st userID in
  match u with
  | None => Err (ValidationError (UserDoesNotExist userID))
  | Some u =>
      if String.eqb (Wallet u) "" then Err (ValidationError (UserDoesNotExist userID))
      else if EqualFold (Wallet u) signer then Ok tt
      else
        let grantee := ToLower signer in
        if String.eqb grantee "" then Err (ValidationError (NoSignerForUser userID))
        else
          let? g := GetGrant st grantee userID in
          match g with
          | None => Err (ValidationError (SignerNotAuthorized signer userID))
          | Some g =>
              if Revoked g then Err (ValidationError (SignerNotAuthorized signer userID))
              else
                let? app := GetApp st grantee in
                let isApp := match app with Some a => negb (AppDeleted a) | None => false end in
                let? isUser := ActiveWalletExists st grantee in
                if negb isApp && negb isUser then
                  Err (ValidationError (SignerNoLongerValid signer))
                else if negb isApp && negb (default false (Approved g)) then
                  Err (ValidationError (SignerGrantNotApproved signer userID))
                else Ok tt
          end
  end.

(** The signer check as the first step of a projection. *)
Definition check_signer (userID : Z) (signer : string) : proc S auth_error unit :=
  query (fun st => validateAuthSigner st userID signer).

(** ** Users *)

Definition projectUserCreate (tx : authTx) : proc S auth_error unit :=
  let! existing := query (fun st => GetUser st (UserID tx)) in
  reject_if (bool_decide (is_Some existing)) (UserAlreadyExists (UserID tx)) ;;!
  let wallet := ToLower (Signer tx) in
  reject_if (String.eqb wallet "") (UserCreateHasNoSigner (UserID tx)) ;;!
  let handleLC := ToLower (metaString tx "handle") in
  (if Migration tx then pret tt
   else
     let! used := query (fun st => WalletExists st wallet) in
     reject_if used (WalletInUse wallet) ;;!
     let! app := query (fun st => GetApp st wallet) in
     reject_if (match app with Some a => negb (AppDeleted a) | None => false end)
       (AppCannotCreateUser wallet) ;;!
     if String.eqb handleLC "" then pret tt
     else
       let! taken := query (fun st => HandleExists st handleLC) in
       reject_if taken (HandleAlreadyExists handleLC)) ;;!
  InsertUser (UserID tx) wallet handleLC (metaBoolOr tx "is_deactivated" false).

Definition projectUserUpdate (tx : authTx) : proc S auth_error unit :=
  check_signer (UserID tx) (Signer tx) ;;!
  (let handle := metaString tx "handle" in
   if String.eqb handle "" then pret tt
   else SetUserHandle (UserID tx) (ToLower handle)) ;;!
  match metaBool tx "is_deactivated" with
  | Some deactivated => SetUserDeactivated (UserID tx) deactivated
  | None => pret tt
  end.

(** ** Tracks and playlists *)

Definition projectEntityCreate (tx : authTx) (entityType : string) : proc S auth_error unit :=
  (if Migration tx then pret tt
   else
     let offset := if String.eqb entityType authEntityTypeTrack
                   then authTrackIDOffset else authPlaylistIDOffset in
     reject_if (EntityID tx <? offset) (IdBelowOffset entityType (EntityID tx) offset)) ;;!
  (if String.eqb entityType authEntityTypeTrack then
     reject_if (negb (bool_decide (metaInt64 cpu tx "owner_id" = Some (UserID tx))))
       (OwnerMissingOrMismatched (EntityID tx))
   else pret tt) ;;!
  check_signer (UserID tx) (Signer tx) ;;!
  let! existing := query (fun st => GetEntity st entityType (EntityID tx)) in
  reject_if (bool_decide (is_Some existing)) (EntityAlreadyExists entityType (EntityID tx)) ;;!
  let deleted := Migration tx && metaBoolOr tx "is_delete" false in
  InsertEntity entityType (EntityID tx) (UserID tx) deleted.

Definition projectEntityDelete (tx : authTx) (entityType : string) : proc S auth_error unit :=
  check_signer (UserID tx) (Signer tx) ;;!
  let! existing := query (fun st => GetEntity st entityType (EntityID tx)) in
  match existing with
  | None => pfail (ValidationError (EntityDoesNotExist entityType (EntityID tx)))
  | Some e =>
      reject_if (negb (EntOwnerID e =? UserID tx))
        (EntityNotOwned entityType (EntityID tx) (UserID tx)) ;;!
      SetEntityDeleted entityType (EntityID tx)
  end.

(** ** Grants *)

Definition projectMigratedGrantCreate (tx : authTx) (grantee : string) (isApp : bool) :
    proc S auth_error unit :=
  let approved := match metaBool tx "is_approved" with
                  | Some v => Some v
                  | None => if isApp then Some true else None
                  end in
  UpsertGrant grantee (UserID tx) approved (metaBoolOr tx "is_revoked" false).

Definition projectGrantCreate (tx : authTx) : proc S auth_error unit :=
  let grantee := ToLower (metaString tx "grantee_address") in
  reject_if (String.eqb grantee "") GranteeRequired ;;!
  check_signer (UserID tx) (Signer tx) ;;!
  let! app := query (fun st => GetApp st grantee) in
  let isApp := match app with Some a => negb (AppDeleted a) | None => false end in
  if Migration tx then projectMigratedGrantCreate tx grantee isApp
  else
    let! isUser := query (fun st => WalletExists st grantee) in
    reject_if (negb isApp && negb isUser) (GranteeNotAppOrUser grantee) ;;!
    let! existing := query (fun st => GetGrant st grantee (UserID tx)) in
    reject_if (match existing with Some g => negb (Revoked g) | None => false end)
      (ActiveGrantExists grantee (UserID tx)) ;;!
    UpsertGrant grantee (UserID tx) (if isApp then Some true else None) false.

(** The grantor revokes, or the grantee of a user-to-user grant revokes its own
    management relationship. *)
Definition revokeAuthorized (st : S) (tx : authTx) (grantee : string) : res auth_error unit :=
  match validateAuthSigner st (UserID tx) (Signer tx) with
  | Ok _ => Ok tt
  | Err StoreError => Err StoreError
  | Err (ValidationError _) =>
      let? granteeUserID := GetUserIDByWallet st grantee in
      let? authorized :=
        match granteeUserID with
        | None => Ok false
        | Some uid =>
            match validateAuthSigner st uid (Signer tx) with
            | Ok _ => Ok true
            | Err (ValidationError _) => Ok false
            | Err StoreError => Err StoreError
            end
        end in
      guard_err (negb authorized)
        (ValidationError (NotAuthorizedToRevoke (Signer tx) grantee (UserID tx)))
  end.

Definition projectGrantDelete (tx : authTx) : proc S auth_error unit :=
  let grantee := ToLower (metaString tx "grantee_address") in
  reject_if (String.eqb grantee "") GranteeRequired ;;!
  let! existing := query (fun st => GetGrant st grantee (UserID tx)) in
  match existing with
  | None => pfail (ValidationError (NoActiveGrant grantee (UserID tx)))
  | Some g =>
      reject_if (Revoked g) (NoActiveGrant grantee (UserID tx)) ;;!
      query (fun st => revokeAuthorized st tx grantee) ;;!
      UpsertGrant grantee (UserID tx) (Approved g) true
  end.

Definition projectGrantApproveReject (tx : authTx) (approve : bool) : proc S auth_error unit :=
  let grantee := ToLower (metaString tx "grantee_address") in
  reject_if (String.eqb grantee "") GranteeRequired ;;!
  check_signer (UserID tx) (Signer tx) ;;!
  match metaInt64 cpu tx "grantor_user_id" with
  | None => pfail (ValidationError GrantorRequired)
  | Some grantor =>
      let! existing := query (fun st => GetGrant st grantee grantor) in
      match existing with
      | None => pfail (ValidationError (GrantNotFound grantee grantor))
      | Some g =>
          reject_if (Revoked g) GrantAlreadyRevoked ;;!
          reject_if (default false (Approved g)) GrantAlreadyApproved ;;!
          UpsertGrant grantee grantor (Some approve) (negb approve)
      end
  end.

(** ** Developer apps *)

Definition projectAppCreate (tx : authTx) : proc S auth_error unit :=
  check_signer (UserID tx) (Signer tx) ;;!
  let address := ToLower (metaString tx "address") in
  reject_if (String.eqb address "") AppAddressRequired ;;!
  let! existing := query (fun st => GetApp st address) in
  reject_if (match existing with Some a => negb (AppDeleted a) | None => false end)
    (AppAlreadyExists address) ;;!
  let! walletUsed := query (fun st => WalletExists st address) in
  reject_if walletUsed (AddressIsUserWallet address) ;;!
  UpsertApp address (UserID tx) ;;!
  if Migration tx && metaBoolOr tx "is_delete" false then SetAppDeleted address else pret tt.

Definition projectAppDelete (tx : authTx) : proc S auth_error unit :=
  check_signer (UserID tx) (Signer tx) ;;!
  let address := ToLower (metaString tx "address") in
  reject_if (String.eqb address "") AppAddressRequired ;;!
  let! existing := query (fun st => GetApp st address) in
  match existing with
  | None => pfail (ValidationError (AppDoesNotExist address))
  | Some a =>
      reject_if (AppDeleted a) (AppDoesNotExist address) ;;!
      reject_if (negb (AppOwnerID a =? UserID tx)) (AppNotOwned address (UserID tx)) ;;!
      SetAppDeleted address
  end.

(** ** Content claims *)

Definition projectContentAttestationCids (ca : option ContentAttestation) (txHash : string) :
    proc S auth_error unit :=
  match ca with
  | None => pret tt
  | Some ca =>
      let userID := ca_UserId ca in
      reject_if (userID =? 0) AttestationHasNoUser ;;!
      for_each (fun cid => if String.eqb cid "" then pret tt else InsertCid cid userID txHash)
        (ca_Cids ca)
  end.

Definition projectMigratedTrackCids (tx : authTx) : proc S auth_error unit :=
  if negb (Migration tx) || negb (String.eqb (EntityType tx) authEntityTypeTrack) then pret tt
  else if String.eqb (ToLower (Signer tx)) "" then pret tt
  else for_each (fun key =>
         let cid := metaString tx key in
         if String.eqb cid "" then pret tt else InsertCid cid (UserID tx) "")
       trackCidMetadataKeys.

Definition projectAssertedTrackCids (tx : authTx) (rules : Rules) : proc S auth_error unit :=
  if Migration tx || negb (ContentAuthEnforced rules) || ContentAuthStrict rules
     || negb (String.eqb (EntityType tx) authEntityTypeTrack) then pret tt
  else for_each (fun key =>
         let cid := metaString tx key in
         if String.eqb cid "" then pret tt
         else
           let! known := query (fun st => CidIsClaimed st cid) in
           if known then pret tt else InsertCid cid (UserID tx) "")
       trackCidMetadataKeys.

(** One iteration of the enforcement loop over the metadata keys. *)
Definition check_track_cid (st : S) (tx : authTx) (rules : Rules) (key : string) :
    res auth_error unit :=
  let cid := metaString tx key in
  if String.eqb cid "" then Ok tt
  else
    let? claimed := IsCidClaimedByUser st cid (UserID tx) in
    if claimed then Ok tt
    else
      let? known := CidIsClaimed st cid in
      if known then Err (ValidationError (CidNotUploadedFor key cid (UserID tx)))
      else guard_err (ContentAuthStrict rules) (ValidationError (CidNotAttested key cid)).

Fixpoint check_track_cids (st : S) (tx : authTx) (rules : Rules) (keys : list string) :
    res auth_error unit :=
  match keys with
  | [] => Ok tt
  | key :: keys' => let? _ := check_track_cid st tx rules key in check_track_cids st tx rules keys'
  end.

Definition validateTrackContentAuth (st : S) (tx : authTx) (rules : Rules) : res auth_error unit :=
  if Migration tx || negb (String.eqb (EntityType tx) authEntityTypeTrack) then Ok tt
  else if String.eqb (Action tx) authActionCreate || String.eqb (Action tx) authActionUpdate
  then check_track_cids st tx rules trackCidMetadataKeys
  else Ok tt.

(** ** The transition *)

Definition applyAuthProjection (tx : authTx) (rules : Rules) : proc S auth_error unit :=
  match canonicalAuthEntityType (EntityType tx), canonicalAuthAction (Action tx) with
  | Some entityType, Some action =>
      let is_type := String.eqb entityType in
      let is_action := String.eqb action in
      let is_entity := is_type authEntityTypeTrack || is_type authEntityTypePlaylist in
      if is_type authEntityTypeUser && is_action authActionCreate then projectUserCreate tx
      else if is_type authEntityTypeUser && is_action authActionUpdate then projectUserUpdate tx
      else if is_entity && is_action authActionCreate then
        projectEntityCreate tx entityType ;;!
        projectMigratedTrackCids tx ;;!
        projectAssertedTrackCids tx rules
      else if is_type authEntityTypeTrack && is_action authActionUpdate then
        if Migration tx || negb (ContentAuthEnforced rules) || ContentAuthStrict rules then pret tt
        else
          check_signer (UserID tx) (Signer tx) ;;!
          projectAssertedTrackCids tx rules
      else if is_entity && is_action authActionDelete then projectEntityDelete tx entityType
      else if is_type authEntityTypeGrant && is_action authActionCreate then projectGrantCreate tx
      else if is_type authEntityTypeGrant && is_action authActionDelete then projectGrantDelete tx
      else if is_type authEntityTypeGrant && (is_action authActionApprove || is_action authActionReject)
      then projectGrantApproveReject tx (is_action authActionApprove)
      else if is_type authEntityTypeDeveloperApp && is_action authActionCreate then projectAppCreate tx
      else if is_type authEntityTypeDeveloperApp && is_action authActionDelete then projectAppDelete tx
      else pret tt
  | _, _ => pret tt
  end.

(** What genesis-writer learns of a migration row: applied, skipped with a
    reason, or a store failure. *)
Inductive migration_outcome := MigrationApplied | MigrationSkipped (r : reject_reason) | MigrationFailed.

Definition ProjectMigrationAuthState (json_decode : string -> option json)
    (me : ManageEntityLegacyMigration) (st : S) : S * migration_outcome :=
  match applyAuthProjection (authTxFromManageEntityMigration json_decode me) no_rules st with
  | (st', Ok _) => (st', MigrationApplied)
  | (st', Err (ValidationError r)) => (st', MigrationSkipped r)
  | (st', Err StoreError) => (st', MigrationFailed)
  end.
End Projection.
