(* ===== verification/AuthStores.v ===== *)
(** * The two authorization stores

    [dbAuthStore] models pkg/core/server/auth_store_db.go over the core_auth_*
    tables (the queries are those of pkg/core/db); [overlayAuthStore] models
    pkg/core/server/auth_store_overlay.go over an arbitrary base store.  Both are
    instances of the interface of [AuthState]. *)

From stdpp Require Import base gmap strings list fin_maps.
From Stdlib Require Import ZArith Lia.
From S2P Require Import Prelude Upgrades AuthState.

Open Scope string_scope.
Open Scope Z_scope.

(** ** Loops over rows

    Go ranges over a map in an unspecified order; the loops below take the rows
    as a list and are shown not to depend on its order. *)

(** The least key whose row satisfies [p]. *)
Fixpoint scan_min {V} (p : V -> bool) (l : list (Z * V)) (acc : option Z) : option Z :=
  match l with
  | [] => acc
  | (k, v) :: l' =>
      scan_min p l'
        (if p v && match acc with None => true | Some id => k <? id end then Some k else acc)
  end.

(** Whether some row satisfies [p]. *)
Fixpoint scan_any {K V} (p : K -> V -> bool) (l : list (K * V)) : bool :=
  match l with
  | [] => false
  | (k, v) :: l' => if p k v then true else scan_any p l'
  end.

(** The loop of overlayAuthStore.ActiveWalletExists: [Some b] when the overlay
    decides, [None] when it has no row for the wallet. *)
Fixpoint scan_active (wallet : string) (l : list (Z * authUserRow)) (hasWallet : bool) : option bool :=
  match l with
  | [] => if hasWallet then Some false else None
  | (_, u) :: l' =>
      if String.eqb (Wallet u) wallet then
        if negb (Deactivated u) then Some true else scan_active wallet l' true
      else scan_active wallet l' hasWallet
  end.

(** ** The block store *)

Record db_user := mkDbUser {
  dbu_wallet : string;
  dbu_handle_lc : option string;
  dbu_is_deactivated : bool
}.

Record db_grant := mkDbGrant {
  dbg_is_approved : option bool;
  dbg_is_revoked : bool
}.

Inductive auth_query :=
| QGetAuthUser (uid : Z)
| QGetAuthUserIDByWallet (wallet : string)
| QAuthWalletExists (wallet : string)
| QAuthActiveWalletExists (wallet : string)
| QAuthHandleExists (handle : string)
| QGetAuthGrant (grantee : string) (uid : Z)
| QGetAuthDeveloperApp (address : string)
| QGetAuthEntity (entityType : string) (id : Z)
| QIsCidClaimedByUser (cid : string) (uid : Z)
| QCidIsClaimed (cid : string)
| QInsertAuthUser (uid : Z)
| QSetAuthUserHandle (uid : Z)
| QSetAuthUserDeactivated (uid : Z)
| QUpsertAuthGrant (grantee : string) (uid : Z)
| QUpsertAuthDeveloperApp (address : string)
| QSetAuthDeveloperAppDeleted (address : string)
| QInsertAuthEntity (entityType : string) (id : Z)
| QSetAuthEntityDeleted (entityType : string) (id : Z)
| QInsertAuthCid (cid : string) (uid : Z).

(** The core_auth_* tables, keyed by their primary keys, and the queries that
    fail on this node. *)
Record dbAuthStore := mkDbAuthStore {
  core_auth_users : gmap Z db_user;
  core_auth_grants : gmap (string * Z) db_grant;
  core_auth_developer_apps : gmap string authAppRow;
  core_auth_entities : gmap (string * Z) authEntityRow;
  core_auth_cids : gmap (string * Z) string;
  db_fault : auth_query -> bool
}.

Definition set_users (f : gmap Z db_user -> gmap Z db_user) (d : dbAuthStore) : dbAuthStore :=
  mkDbAuthStore (f (core_auth_users d)) (core_auth_grants d) (core_auth_developer_apps d)
    (core_auth_entities d) (core_auth_cids d) (db_fault d).
Definition set_grants (f : gmap (string * Z) db_grant -> gmap (string * Z) db_grant) (d : dbAuthStore) :
    dbAuthStore :=
  mkDbAuthStore (core_auth_users d) (f (core_auth_grants d)) (core_auth_developer_apps d)
    (core_auth_entities d) (core_auth_cids d) (db_fault d).
Definition set_apps (f : gmap string authAppRow -> gmap string authAppRow) (d : dbAuthStore) :
    dbAuthStore :=
  mkDbAuthStore (core_auth_users d) (core_auth_grants d) (f (core_auth_developer_apps d))
    (core_auth_entities d) (core_auth_cids d) (db_fault d).
Definition set_entities (f : gmap (string * Z) authEntityRow -> gmap (string * Z) authEntityRow)
    (d : dbAuthStore) : dbAuthStore :=
  mkDbAuthStore (core_auth_users d) (core_auth_grants d) (core_auth_developer_apps d)
    (f (core_auth_entities d)) (core_auth_cids d) (db_fault d).
Definition set_cids (f : gmap (string * Z) string -> gmap (string * Z) string) (d : dbAuthStore) :
    dbAuthStore :=
  mkDbAuthStore (core_auth_users d) (core_auth_grants d) (core_auth_developer_apps d)
    (core_auth_entities d) (f (core_auth_cids d)) (db_fault d).

(** A query fails or answers; a statement fails or updates. *)
Definition db_ask {A} (q : auth_query) (d : dbAuthStore) (a : A) : res auth_error A :=
  if db_fault d q then Err StoreError else Ok a.
Definition db_exec (q : auth_query) (f : dbAuthStore -> dbAuthStore) : proc dbAuthStore auth_error unit :=
  fun d => if db_fault d q then (d, Err StoreError) else (f d, Ok tt).

(** [insert ... on conflict do nothing]. *)
Definition insert_new {K V} `{Countable K} (k : K) (v : V) (m : gmap K V) : gmap K V :=
  match m !! k with
  | Some _ => m
  | None => <[k := v]> m
  end.

Definition user_of_db (r : db_user) : authUserRow :=
  mkAuthUserRow (dbu_wallet r) (default "" (dbu_handle_lc r)) (dbu_is_deactivated r).
Definition grant_of_db (r : db_grant) : authGrantRow :=
  mkAuthGrantRow (dbg_is_approved r) (dbg_is_revoked r).

(** Row predicates of the where clauses. *)
Definition has_wallet (wallet : string) (r : db_user) : bool := String.eqb (dbu_wallet r) wallet.
Definition has_active_wallet (wallet : string) (r : db_user) : bool :=
  String.eqb (dbu_wallet r) wallet && negb (dbu_is_deactivated r).
Definition has_handle (handle : string) (r : db_user) : bool :=
  match dbu_handle_lc r with Some h => String.eqb h handle | None => false end.

#[export] Instance dbAuthStore_reader : AuthReader dbAuthStore := {|
  GetUser d uid := db_ask (QGetAuthUser uid) d (user_of_db <$> core_auth_users d !! uid);
  GetUserIDByWallet d w :=
    db_ask (QGetAuthUserIDByWallet w) d
      (scan_min (has_active_wallet w) (map_to_list (core_auth_users d)) None);
  WalletExists d w :=
    db_ask (QAuthWalletExists w) d (scan_any (fun _ => has_wallet w) (map_to_list (core_auth_users d)));
  ActiveWalletExists d w :=
    db_ask (QAuthActiveWalletExists w) d
      (scan_any (fun _ => has_active_wallet w) (map_to_list (core_auth_users d)));
  HandleExists d h :=
    db_ask (QAuthHandleExists h) d (scan_any (fun _ => has_handle h) (map_to_list (core_auth_users d)));
  GetGrant d g uid := db_ask (QGetAuthGrant g uid) d (grant_of_db <$> core_auth_grants d !! (g, uid));
  GetApp d a := db_ask (QGetAuthDeveloperApp a) d (core_auth_developer_apps d !! a);
  GetEntity d t id := db_ask (QGetAuthEntity t id) d (core_auth_entities d !! (t, id));
  IsCidClaimedByUser d cid uid :=
    db_ask (QIsCidClaimedByUser cid uid) d (bool_decide (is_Some (core_auth_cids d !! (cid, uid))));
  CidIsClaimed d cid :=
    db_ask (QCidIsClaimed cid) d
      (scan_any (fun k _ => String.eqb (fst k) cid) (map_to_list (core_auth_cids d)))
|}.

#[export] Instance dbAuthStore_writer : AuthWriter dbAuthStore := {|
  InsertUser uid wallet handleLC deactivated :=
    db_exec (QInsertAuthUser uid)
      (set_users (insert_new uid
        (mkDbUser wallet (if String.eqb handleLC "" then None else Some handleLC) deactivated)));
  SetUserHandle uid handleLC :=
    db_exec (QSetAuthUserHandle uid)
      (set_users (alter (fun r => mkDbUser (dbu_wallet r) (Some handleLC) (dbu_is_deactivated r)) uid));
  SetUserDeactivated uid b :=
    db_exec (QSetAuthUserDeactivated uid)
      (set_users (alter (fun r => mkDbUser (dbu_wallet r) (dbu_handle_lc r) b) uid));
  UpsertGrant g uid approved revoked :=
    db_exec (QUpsertAuthGrant g uid) (set_grants (insert (g, uid) (mkDbGrant approved revoked)));
  UpsertApp a owner :=
    db_exec (QUpsertAuthDeveloperApp a) (set_apps (insert a (mkAuthAppRow owner false)));
  SetAppDeleted a :=
    db_exec (QSetAuthDeveloperAppDeleted a)
      (set_apps (alter (fun r => mkAuthAppRow (AppOwnerID r) true) a));
  InsertEntity t id owner deleted :=
    db_exec (QInsertAuthEntity t id)
      (set_entities (insert_new (t, id) (mkAuthEntityRow owner deleted)));
  SetEntityDeleted t id :=
    db_exec (QSetAuthEntityDeleted t id)
      (set_entities (alter (fun r => mkAuthEntityRow (EntOwnerID r) true) (t, id)));
  InsertCid cid uid txHash :=
    db_exec (QInsertAuthCid cid uid) (set_cids (insert_new (cid, uid) txHash))
|}.

#[export] Instance dbAuthStore_store : AuthStore dbAuthStore := {}.

(** ** The proposal overlay *)

Record overlayAuthStore (B : Type) := mkOverlay {
  base : B;
  users : gmap Z authUserRow;
  grants : gmap (string * Z) authGrantRow;
  apps : gmap string authAppRow;
  entities : gmap (string * Z) authEntityRow;
  cids : gset (string * Z)
}.
Arguments mkOverlay {B}.
Arguments base {B}.
Arguments users {B}.
Arguments grants {B}.
Arguments apps {B}.
Arguments entities {B}.
Arguments cids {B}.

Definition newOverlayAuthStore {B} (b : B) : overlayAuthStore B := mkOverlay b ∅ ∅ ∅ ∅ ∅.

Section Overlay.
Context {B : Type} {reader : AuthReader B}.
Implicit Types o : overlayAuthStore B.

Definition put_user (uid : Z) (u : authUserRow) o : overlayAuthStore B :=
  mkOverlay (base o) (<[uid := u]> (users o)) (grants o) (apps o) (entities o) (cids o).
Definition put_grant (k : string * Z) (g : authGrantRow) o : overlayAuthStore B :=
  mkOverlay (base o) (users o) (<[k := g]> (grants o)) (apps o) (entities o) (cids o).
Definition put_app (a : string) (r : authAppRow) o : overlayAuthStore B :=
  mkOverlay (base o) (users o) (grants o) (<[a := r]> (apps o)) (entities o) (cids o).
Definition put_entity (k : string * Z) (e : authEntityRow) o : overlayAuthStore B :=
  mkOverlay (base o) (users o) (grants o) (apps o) (<[k := e]> (entities o)) (cids o).
Definition put_cid (k : string * Z) o : overlayAuthStore B :=
  mkOverlay (base o) (users o) (grants o) (apps o) (entities o) ({[k]} ∪ cids o).

(** Prefer the overlay's row. *)
Definition or_base {A} (row : option A) (ask : res auth_error (option A)) : res auth_error (option A) :=
  match row with
  | Some r => Ok (Some r)
  | None => ask
  end.

#[export] Instance overlay_reader : AuthReader (overlayAuthStore B) := {|
  GetUser o uid := or_base (users o !! uid) (GetUser (base o) uid);
  GetUserIDByWallet o w :=
    or_base
      (scan_min (fun u => String.eqb (Wallet u) w && negb (Deactivated u)) (map_to_list (users o)) None)
      (GetUserIDByWallet (base o) w);
  WalletExists o w :=
    if scan_any (fun _ u => String.eqb (Wallet u) w) (map_to_list (users o)) then Ok true
    else WalletExists (base o) w;
  ActiveWalletExists o w :=
    match scan_active w (map_to_list (users o)) false with
    | Some b => Ok b
    | None => ActiveWalletExists (base o) w
    end;
  HandleExists o h :=
    if scan_any (fun _ u => String.eqb (HandleLC u) h) (map_to_list (users o)) then Ok true
    else HandleExists (base o) h;
  GetGrant o g uid := or_base (grants o !! (g, uid)) (GetGrant (base o) g uid);
  GetApp o a := or_base (apps o !! a) (GetApp (base o) a);
  GetEntity o t id := or_base (entities o !! (t, id)) (GetEntity (base o) t id);
  IsCidClaimedByUser o cid uid :=
    if bool_decide ((cid, uid) ∈ cids o) then Ok true else IsCidClaimedByUser (base o) cid uid;
  CidIsClaimed o cid :=
    if existsb (fun k => String.eqb (fst k) cid) (elements (cids o)) then Ok true
    else CidIsClaimed (base o) cid
|}.

Definition materializeUser (uid : Z) : proc (overlayAuthStore B) auth_error (option authUserRow) :=
  fun o =>
    match users o !! uid with
    | Some u => (o, Ok (Some u))
    | None =>
        match GetUser (base o) uid with
        | Err e => (o, Err e)
        | Ok None => (o, Ok None)
        | Ok (Some u) => (put_user uid u o, Ok (Some u))
        end
    end.

(** A mutation of a materialized row; an absent user is a no-op. *)
Definition update_user (uid : Z) (f : authUserRow -> authUserRow) :
    proc (overlayAuthStore B) auth_error unit :=
  let! u := materializeUser uid in
  match u with
  | None => pret tt
  | Some u => fun o => (put_user uid (f u) o, Ok tt)
  end.

#[export] Instance overlay_writer : AuthWriter (overlayAuthStore B) := {|
  InsertUser uid wallet handleLC deactivated := fun o =>
    match users o !! uid with
    | Some _ => (o, Ok tt)
    | None => (put_user uid (mkAuthUserRow wallet handleLC deactivated) o, Ok tt)
    end;
  SetUserHandle uid handleLC :=
    update_user uid (fun u => mkAuthUserRow (Wallet u) handleLC (Deactivated u));
  SetUserDeactivated uid deactivated :=
    update_user uid (fun u => mkAuthUserRow (Wallet u) (HandleLC u) deactivated);
  UpsertGrant g uid approved revoked := fun o =>
    (put_grant (g, uid) (mkAuthGrantRow approved revoked) o, Ok tt);
  UpsertApp a owner := fun o => (put_app a (mkAuthAppRow owner false) o, Ok tt);
  SetAppDeleted a := fun o =>
    match or_base (apps o !! a) (GetApp (base o) a) with
    | Err e => (o, Err e)
    | Ok None => (o, Ok tt)
    | Ok (Some r) => (put_app a (mkAuthAppRow (AppOwnerID r) true) o, Ok tt)
    end;
  InsertEntity t id owner deleted := fun o =>
    match entities o !! (t, id) with
    | Some _ => (o, Ok tt)
    | None => (put_entity (t, id) (mkAuthEntityRow owner deleted) o, Ok tt)
    end;
  SetEntityDeleted t id := fun o =>
    match or_base (entities o !! (t, id)) (GetEntity (base o) t id) with
    | Err e => (o, Err e)
    | Ok None => (o, Ok tt)
    | Ok (Some e) => (put_entity (t, id) (mkAuthEntityRow (EntOwnerID e) true) o, Ok tt)
    end;
  InsertCid cid uid _ := fun o => (put_cid (cid, uid) o, Ok tt)
|}.

#[export] Instance overlay_store : AuthStore (overlayAuthStore B) := {}.
End Overlay.

(** ** Facts about the loops *)

Lemma scan_any_In {K V} (p : K -> V -> bool) l :
  scan_any p l = true <-> exists k v, (k, v) ∈ l /\ p k v = true.
Proof.
  induction l as [|[k v] l IH]; simpl.
  - split; [done|]. intros (? & ? & H & _). by apply elem_of_nil in H.
  - destruct (p k v) eqn:E.
    + split; [|done]. intros _. exists k, v. split; [left|done].
    + rewrite IH. split.
      * intros (k' & v' & ? & ?). exists k', v'. split; [by right|done].
      * intros (k' & v' & H & ?). apply elem_of_cons in H as [H|H]; [congruence|eauto].
Qed.

Lemma scan_any_map {K V} `{Countable K} (p : K -> V -> bool) (m : gmap K V) :
  scan_any p (map_to_list m) = true <-> exists k v, m !! k = Some v /\ p k v = true.
Proof. rewrite scan_any_In. by setoid_rewrite elem_of_map_to_list. Qed.

Lemma scan_any_false {K V} `{Countable K} (p : K -> V -> bool) (m : gmap K V) :
  scan_any p (map_to_list m) = false <-> forall k v, m !! k = Some v -> p k v = false.
Proof.
  rewrite <- not_true_iff_false, scan_any_map. split.
  - intros Hn k v Hk. apply not_true_iff_false. intros Hp. apply Hn. eauto.
  - intros Hn (k & v & Hk & Hp). rewrite (Hn k v) in Hp by done. done.
Qed.

(** [r] is the least key that satisfies [P], or there is none. *)
Definition least_key (P : Z -> Prop) (r : option Z) : Prop :=
  match r with
  | None => forall k, ~ P k
  | Some k => P k /\ forall k', P k' -> k <= k'
  end.

Lemma least_key_unique P r r' : least_key P r -> least_key P r' -> r = r'.
Proof.
  destruct r as [k|], r' as [k'|]; simpl; [|firstorder..].
  intros [H1 H2] [H3 H4]. f_equal. apply H2 in H3 as ?. apply H4 in H1 as ?. lia.
Qed.

Lemma least_key_ext P Q r : (forall k, P k <-> Q k) -> least_key P r -> least_key Q r.
Proof. intros E. destruct r; simpl; setoid_rewrite E; done. Qed.

Lemma scan_min_acc {V} (p : V -> bool) l acc (P : Z -> Prop) :
  least_key P acc ->
  least_key (fun k => P k \/ exists v, (k, v) ∈ l /\ p v = true) (scan_min p l acc).
Proof.
  revert acc P. induction l as [|[k v] l IH]; intros acc P HP; simpl.
  - eapply least_key_ext; [|exact HP]. intros k. split; [by left|].
    intros [?|(? & H & _)]; [done|]. by apply elem_of_nil in H.
  - eapply least_key_ext;
      [|apply (IH _ (fun k' => P k' \/ k' = k /\ p v = true))].
    + intros k'. setoid_rewrite elem_of_cons. naive_solver.
    + destruct (p v) eqn:E; simpl; [|eapply least_key_ext; [|exact HP]; naive_solver].
      destruct acc as [id|]; simpl in *; [|naive_solver lia].
      destruct HP as [HP1 HP2].
      destruct (Z.ltb_spec k id); simpl; (split; [tauto|]);
        intros k' [Hk'|[-> _]]; try apply HP2 in Hk'; lia.
Qed.

Lemma scan_min_map {V} (p : V -> bool) (m : gmap Z V) :
  least_key (fun k => exists v, m !! k = Some v /\ p v = true) (scan_min p (map_to_list m) None).
Proof.
  eapply least_key_ext; [|apply (scan_min_acc p _ None (fun _ => False)); simpl; auto].
  intros k. setoid_rewrite elem_of_map_to_list. naive_solver.
Qed.

Lemma scan_active_true w l hw :
  scan_active w l hw = Some true <->
  exists k u, (k, u) ∈ l /\ Wallet u = w /\ Deactivated u = false.
Proof.
  revert hw. induction l as [|[k u] l IH]; intros hw; simpl.
  - destruct hw; (split; [done|]); intros (? & ? & H & _); by apply elem_of_nil in H.
  - setoid_rewrite elem_of_cons.
    destruct (String.eqb_spec (Wallet u) w), (Deactivated u) eqn:D; simpl; rewrite ?IH; split;
      try (intros (k' & u' & [[= -> ->]|?] & ? & ?); [congruence|]); eauto 10;
      intros (k' & u' & ? & ? & ?); eauto 10.
Qed.

Lemma scan_active_none w l hw :
  scan_active w l hw = None <-> hw = false /\ forall k u, (k, u) ∈ l -> Wallet u <> w.
Proof.
  revert hw. induction l as [|[k u] l IH]; intros hw; simpl.
  - split; [|by intros [-> _]]. destruct hw; [done|]. intros _. split; [done|].
    intros ? ? H; by apply elem_of_nil in H.
  - setoid_rewrite elem_of_cons. destruct (String.eqb_spec (Wallet u) w) as [E|E].
    + split; [|intros [_ H]; exfalso; eapply H; eauto].
      destruct (Deactivated u); simpl; [|done]. by rewrite IH; intros [? _].
    + rewrite IH. split; intros [-> H]; (split; [done|]); [|eauto].
      intros k' u' [[= -> ->]|]; eauto.
Qed.

Lemma scan_active_map_true w (m : gmap Z authUserRow) :
  scan_active w (map_to_list m) false = Some true <->
  exists k u, m !! k = Some u /\ Wallet u = w /\ Deactivated u = false.
Proof. rewrite scan_active_true. by setoid_rewrite elem_of_map_to_list. Qed.

Lemma scan_active_map_none w (m : gmap Z authUserRow) :
  scan_active w (map_to_list m) false = None <-> forall k u, m !! k = Some u -> Wallet u <> w.
Proof. rewrite scan_active_none. setoid_rewrite elem_of_map_to_list. naive_solver. Qed.

Lemma existsb_cids (cid : string) (s : gset (string * Z)) :
  existsb (fun k => String.eqb (fst k) cid) (elements s) = true <-> exists uid, (cid, uid) ∈ s.
Proof.
  rewrite existsb_exists. split.
  - intros ([c uid] & H & E). apply list_elem_of_In, elem_of_elements in H.
    simpl in E. apply String.eqb_eq in E as ->. eauto.
  - intros (uid & H). exists (cid, uid).
    split; [by apply list_elem_of_In, elem_of_elements|apply String.eqb_refl].
Qed.

Lemma insert_new_lookup {K V} `{Countable K} (k k' : K) (v : V) (m : gmap K V) :
  insert_new k v m !! k' =
  match m !! k' with
  | Some w => Some w
  | None => if decide (k = k') then Some v else None
  end.
Proof.
  unfold insert_new. destruct (m !! k) eqn:E.
  - case_decide; subst; [by rewrite E|by destruct (m !! k')].
  - rewrite lookup_insert. case_decide; subst; [by rewrite E|by destruct (m !! k')].
Qed.

Lemma alter_lookup_Some {K V} `{Countable K} (f : V -> V) (k : K) (m : gmap K V) v :
  m !! k = Some v -> alter f k m = <[k := f v]> m.
Proof.
  intros Hk. apply map_eq. intros j. rewrite lookup_alter, lookup_insert.
  case_decide; [subst; by rewrite Hk|done].
Qed.

Lemma alter_lookup_None {K V} `{Countable K} (f : V -> V) (k : K) (m : gmap K V) :
  m !! k = None -> alter f k m = m.
Proof.
  intros Hk. apply map_eq. intros j. rewrite lookup_alter. case_decide; [subst; by rewrite Hk|done].
Qed.

Lemma insert_new_fresh {K V} `{Countable K} (k : K) (v : V) (m : gmap K V) :
  m !! k = None -> insert_new k v m = <[k := v]> m.
Proof. intros E. unfold insert_new. by rewrite E. Qed.
