(* ===== verification/Crypto.v ===== *)
(** * Signatures and byte encodings

    Models pkg/common/crypto.go (hex signatures over sha256 and keccak, transaction
    hash signatures, the 32-byte string encoding) and pkg/core/server/eip712.go
    (the typed-data signature of a ManageEntity transaction).  A Go byte slice is
    a [string].  The elliptic-curve and hash primitives of go-ethereum are the
    operations of [EthCrypto]; what they promise is [EthCryptoLaws]. *)

From stdpp Require Import base strings list pretty.
From Stdlib Require Import ZArith Lia Ascii.
From S2P Require Import Prelude AuthState.

Open Scope string_scope.
Open Scope Z_scope.

(** ** Byte strings *)

(** [s[:n]], all of [s] when it is shorter. *)
Fixpoint str_take (n : nat) (s : string) : string :=
  match n, s with
  | O, _ => ""
  | S n', String c s' => String c (str_take n' s')
  | S _, EmptyString => ""
  end.

(** [n] zero bytes. *)
Fixpoint zeros (n : nat) : string :=
  match n with
  | O => ""
  | S n' => String zero (zeros n')
  end.

(** [var b [n]byte; copy(b[:], s)]. *)
Definition copy_into (n : nat) (s : string) : string :=
  let t := str_take n s in t +:+ zeros (n - String.length t).

(** [s[i] = f(s[i])], when [i] is in range. *)
Fixpoint update_byte (i : nat) (f : ascii -> ascii) (s : string) : string :=
  match s, i with
  | EmptyString, _ => EmptyString
  | String c s', O => String (f c) s'
  | String c s', S i' => String c (update_byte i' f s')
  end.

(** byte arithmetic wraps. *)
Definition byte_add (k : N) (c : ascii) : ascii := ascii_of_N ((N_of_ascii c + k) mod 256).
Definition byte_sub (k : N) (c : ascii) : ascii := ascii_of_N ((N_of_ascii c + (256 - k)) mod 256).

Definition HasPrefix (pre s : string) : bool := String.prefix pre s.

Definition TrimPrefix (pre s : string) : string :=
  if HasPrefix pre s then String.substring (String.length pre) (String.length s) s else s.

(** *** encoding/hex *)

Definition hex_digit (n : N) : ascii :=
  if (n <? 10)%N then ascii_of_N (48 + n) else ascii_of_N (87 + n).

Fixpoint hex_encode (s : string) : string :=
  match s with
  | EmptyString => EmptyString
  | String c s' =>
      String (hex_digit (N_of_ascii c / 16))
        (String (hex_digit (N_of_ascii c mod 16)) (hex_encode s'))
  end.

Definition hex_value (c : ascii) : option N :=
  let n := N_of_ascii c in
  if ((48 <=? n) && (n <=? 57))%N then Some (n - 48)%N
  else if ((97 <=? n) && (n <=? 102))%N then Some (n - 87)%N
  else if ((65 <=? n) && (n <=? 70))%N then Some (n - 55)%N
  else None.

(** The bytes decoded before the first malformed pair, and whether there was none. *)
Fixpoint hex_decode_prefix (s : string) : string * bool :=
  match s with
  | EmptyString => ("", true)
  | String a (String b s') =>
      match hex_value a, hex_value b with
      | Some x, Some y =>
          let (t, ok) := hex_decode_prefix s' in (String (ascii_of_N (x * 16 + y)) t, ok)
      | _, _ => ("", false)
      end
  | String _ EmptyString => ("", false)
  end.

Definition hex_decode (s : string) : option string :=
  let (t, ok) := hex_decode_prefix s in if ok then Some t else None.

(** ** The primitives of go-ethereum *)

Class EthCrypto := {
  privkey : Type;
  pubkey : Type;
  sha256 : string -> string;
  keccak256 : string -> string;
  pub_of : privkey -> pubkey;
  crypto_Sign : string -> privkey -> option string;
  Ecrecover : string -> string -> option string;
  SigToPub : string -> string -> option pubkey;
  FromECDSAPub : pubkey -> string;
  UnmarshalPubkey : string -> option pubkey;
  PubkeyToAddress : pubkey -> string
}.

(** What the documentation of package crypto says: a signature is 65 bytes
    [R || S || V] with [V] 0 or 1, and recovery over the signed hash returns the
    signer's key. *)
Class EthCryptoLaws (C : EthCrypto) := {
  Sign_format h k sig : crypto_Sign h k = Some sig ->
    String.length sig = 65%nat /\
    exists v, String.get 64 sig = Some v /\ (N_of_ascii v < 2)%N;
  Ecrecover_Sign h k sig : crypto_Sign h k = Some sig -> Ecrecover h sig = Some (FromECDSAPub (pub_of k));
  SigToPub_Sign h k sig : crypto_Sign h k = Some sig -> SigToPub h sig = Some (pub_of k);
  Unmarshal_From p : UnmarshalPubkey (FromECDSAPub p) = Some p
}.

(** ** common/crypto.go *)

Section Crypto.
Context {C : EthCrypto}.

Definition PrivKeyToAddress (k : privkey) : string := PubkeyToAddress (pub_of k).

Definition EthSign (pkey : privkey) (data : string) : option string :=
  hex_encode <$> crypto_Sign (sha256 data) pkey.

Definition EthRecover (signatureStr data : string) : option (pubkey * string) :=
  signature ← hex_decode signatureStr;
  pk ← SigToPub (sha256 data) signature;
  Some (pk, PubkeyToAddress pk).

Definition EthSignKeccak (pkey : privkey) (data : string) : option string :=
  hex_encode <$> crypto_Sign (keccak256 data) pkey.

Definition EthRecoverKeccak (sigHex data : string) : option (pubkey * string) :=
  sigBytes ← hex_decode sigHex;
  if negb (String.length sigBytes =? 65)%nat then None
  else
    pk ← SigToPub (keccak256 data) sigBytes;
    Some (pk, PubkeyToAddress pk).

(** The validation TxHashSign and TxHashRecover share. *)
Definition checked_tx_hash (txHash : string) : option string :=
  if negb (HasPrefix "0x" txHash) && negb (String.length txHash =? 64)%nat then None
  else
    hashBytes ← hex_decode (TrimPrefix "0x" txHash);
    if negb (String.length hashBytes =? 32)%nat then None else Some hashBytes.

Definition TxHashSign (pkey : privkey) (txHash : string) : option string :=
  hashBytes ← checked_tx_hash txHash; EthSign pkey hashBytes.

Definition TxHashRecover (txHash signature : string) : option (pubkey * string) :=
  hashBytes ← checked_tx_hash txHash; EthRecover signature hashBytes.
End Crypto.

Definition Utf8ToHex (s : string) : string := copy_into 32 s.

(** [for end = range hex { if hex[end] == 0 { break } }; return string(hex[:end])]:
    without a zero byte [end] stops at the last index. *)
Fixpoint first_zero (s : string) : nat :=
  match s with
  | EmptyString => O
  | String _ EmptyString => O
  | String c s' => if Ascii.eqb c zero then O else S (first_zero s')
  end.

Definition HexToUtf8 (hex : string) : string := str_take (first_zero hex) hex.

(** ** core/server/eip712.go *)

Inductive td_value := TdString (s : string) | TdBytes32 (b : string).

Record TypedDataDomain := mkTypedDataDomain {
  td_name : string;
  td_version : string;
  td_chainId : Z;
  td_verifyingContract : string
}.

Record TypedData := mkTypedData {
  td_types : list (string * list (string * string));
  td_domain : TypedDataDomain;
  td_primaryType : string;
  td_message : list (string * td_value)
}.

(** The two structures [HashStruct] is applied to. *)
Inductive td_struct := HashDomain | HashMessage.

Section Eip712.
Context {C : EthCrypto}.
(** [typedData.HashStruct]. *)
Context (HashStruct : TypedData -> td_struct -> option string).

Record acdc_config := mkAcdcConfig {
  AcdcEntityManagerAddress : string;
  AcdcChainID : Z
}.

Definition toBytes (str : string) : string := fst (hex_decode_prefix (TrimPrefix "0x" str)).

(** The typed data both RecoverPubkeyFromCoreTx and SignManageEntity build. *)
Definition manage_entity_typed_data (cfg : acdc_config) (em : ManageEntityLegacy) : TypedData :=
  {| td_types :=
       [("EIP712Domain", [("name", "string"); ("version", "string"); ("chainId", "uint256");
                          ("verifyingContract", "address")]);
        ("ManageEntity", [("userId", "uint"); ("entityType", "string"); ("entityId", "uint");
                          ("action", "string"); ("metadata", "string"); ("nonce", "bytes32")])];
     td_domain := mkTypedDataDomain "Entity Manager" "1" (AcdcChainID cfg) (AcdcEntityManagerAddress cfg);
     td_primaryType := "ManageEntity";
     td_message :=
       [("userId", TdString (pretty (me_UserId em))); ("entityType", TdString (me_EntityType em));
        ("entityId", TdString (pretty (me_EntityId em))); ("action", TdString (me_Action em));
        ("metadata", TdString (me_Metadata em));
        ("nonce", TdBytes32 (copy_into 32 (toBytes (me_Nonce em))))] |}.

(** The digest that is signed. *)
Definition typed_data_sighash (td : TypedData) : option string :=
  domainSeparator ← HashStruct td HashDomain;
  typedDataHash ← HashStruct td HashMessage;
  Some (keccak256 (String (ascii_of_N 25) (String (ascii_of_N 1) domainSeparator) +:+ typedDataHash)).

Definition recoverPublicKey (signature : string) (td : TypedData) : option string :=
  sighash ← typed_data_sighash td;
  let signature :=
    if (64 <? String.length signature)%nat then update_byte 64 (byte_sub 27) signature
    else signature in
  Ecrecover sighash signature.

Definition RecoverPubkeyFromCoreTx (cfg : acdc_config) (em : ManageEntityLegacy) :
    option (string * pubkey) :=
  pubkeyBytes ← recoverPublicKey (toBytes (me_Signature em)) (manage_entity_typed_data cfg em);
  pk ← UnmarshalPubkey pubkeyBytes;
  Some (PubkeyToAddress pk, pk).

Definition set_signer (em : ManageEntityLegacy) (signer : string) : ManageEntityLegacy :=
  mkManageEntityLegacy (me_UserId em) (me_EntityType em) (me_EntityId em) (me_Action em)
    (me_Metadata em) (me_Signature em) (me_Nonce em) signer.
Definition set_signature (em : ManageEntityLegacy) (signature : string) : ManageEntityLegacy :=
  mkManageEntityLegacy (me_UserId em) (me_EntityType em) (me_EntityId em) (me_Action em)
    (me_Metadata em) signature (me_Nonce em) (me_Signer em).

Definition InjectSigner (cfg : acdc_config) (em : ManageEntityLegacy) : option ManageEntityLegacy :=
  r ← RecoverPubkeyFromCoreTx cfg em; Some (set_signer em (fst r)).

Definition SignManageEntity (cfg : acdc_config) (em : ManageEntityLegacy) (k : privkey) :
    option ManageEntityLegacy :=
  sighash ← typed_data_sighash (manage_entity_typed_data cfg em);
  signature ← crypto_Sign sighash k;
  let signature := update_byte 64 (byte_add 27) signature in
  Some (set_signature em ("0x" +:+ hex_encode signature)).
End Eip712.

(** ** Lemmas *)

Lemma ascii_all (P : ascii -> Prop) :
  (forall b0 b1 b2 b3 b4 b5 b6 b7, P (Ascii b0 b1 b2 b3 b4 b5 b6 b7)) -> forall c, P c.
Proof. intros H []. apply H. Qed.

Lemma hex_pair_decode c :
  hex_value (hex_digit (N_of_ascii c / 16)) = Some (N_of_ascii c / 16)%N /\
  hex_value (hex_digit (N_of_ascii c mod 16)) = Some (N_of_ascii c mod 16)%N /\
  ascii_of_N (N_of_ascii c / 16 * 16 + N_of_ascii c mod 16) = c.
Proof. destruct c as [[] [] [] [] [] [] [] []]; vm_compute; auto. Qed.

Lemma hex_decode_prefix_encode s : hex_decode_prefix (hex_encode s) = (s, true).
Proof.
  induction s as [|c s IH]; simpl; [done|].
  destruct (hex_pair_decode c) as (H1 & H2 & H3). by rewrite H1, H2, IH, H3.
Qed.

Lemma hex_decode_encode s : hex_decode (hex_encode s) = Some s.
Proof. unfold hex_decode. by rewrite hex_decode_prefix_encode. Qed.

Lemma byte_sub_add c : byte_sub 27 (byte_add 27 c) = c.
Proof. destruct c as [[] [] [] [] [] [] [] []]; vm_compute; auto. Qed.

Lemma update_byte_compose i f g s : update_byte i f (update_byte i g s) = update_byte i (fun c => f (g c)) s.
Proof. revert i. induction s; intros []; simpl; congruence. Qed.

Lemma update_byte_id i f s : (forall c, f c = c) -> update_byte i f s = s.
Proof. intros H. revert i. induction s; intros []; simpl; congruence. Qed.

Lemma update_byte_length i f s : String.length (update_byte i f s) = String.length s.
Proof. revert i. induction s; intros []; simpl; congruence. Qed.

Lemma str_take_ge n s : (String.length s <= n)%nat -> str_take n s = s.
Proof. revert n. induction s; intros []; simpl; intros; try lia; f_equal; auto with lia. Qed.

Lemma str_take_length n s : String.length (str_take n s) = Nat.min n (String.length s).
Proof. revert s. induction n; intros []; simpl; auto. Qed.

Lemma TrimPrefix_0x s : TrimPrefix "0x" ("0x" +:+ s) = s.
Proof.
  unfold TrimPrefix, HasPrefix. simpl. destruct s as [|c s]; simpl; [done|]. f_equal.
  induction s as [|d s IH]; simpl; [done|]. f_equal.
  clear. induction s as [|e s IH]; simpl; [done|]. by f_equal.
Qed.

(** [s] has no zero byte. *)
Fixpoint nul_free (s : string) : bool :=
  match s with
  | EmptyString => true
  | String c s' => negb (Ascii.eqb c zero) && nul_free s'
  end.

Lemma first_zero_pad s k :
  nul_free s = true -> first_zero (s +:+ zeros (S k)) = String.length s.
Proof.
  induction s as [|c s IH]; simpl; intros H.
  - by destruct k.
  - apply andb_prop in H as [Hc Hs]. apply negb_true_iff in Hc.
    simpl in IH. rewrite Hc, (IH Hs).
    destruct (s +:+ String zero (zeros k)) eqn:E; [by destruct s|done].
Qed.

Lemma first_zero_full s : nul_free s = true -> first_zero s = Nat.pred (String.length s).
Proof.
  induction s as [|c s IH]; simpl; [done|]. intros H. apply andb_prop in H as [Hc Hs].
  apply negb_true_iff in Hc. rewrite Hc. destruct s as [|d s]; [done|]. by rewrite (IH Hs).
Qed.

Lemma nul_free_take n s : nul_free s = true -> nul_free (str_take n s) = true.
Proof.
  revert s. induction n; intros [|c s]; simpl; intros H; try done.
  apply andb_prop in H as [-> Hs]. simpl. auto.
Qed.

Lemma str_take_app s t : str_take (String.length s) (s +:+ t) = s.
Proof. induction s as [|c s IH]; simpl; [by destruct t|]. by rewrite IH. Qed.

Lemma str_take_take n m s : (n <= m)%nat -> str_take n (str_take m s) = str_take n s.
Proof. revert m s. induction n; intros [] []; simpl; intros; try done; try lia. f_equal. apply IHn. lia. Qed.

Lemma append_empty_r s : s +:+ "" = s.
Proof.
  induction s as [|c s IH]; [done|]. change (String c (s +:+ "") = String c s). by rewrite IH.
Qed.

Section Laws.
Context {C : EthCrypto} {L : EthCryptoLaws C}.
Context (HashStruct : TypedData -> td_struct -> option string).

Lemma EthRecover_EthSign k data sig :
  EthSign k data = Some sig -> EthRecover sig data = Some (pub_of k, PrivKeyToAddress k).
Proof using L.
  unfold EthSign, EthRecover. destruct (crypto_Sign _ _) eqn:E; simpl; [|done].
  intros [= <-]. rewrite hex_decode_encode. simpl. by rewrite (SigToPub_Sign _ _ _ E).
Qed.

Lemma EthRecoverKeccak_EthSignKeccak k data sig :
  EthSignKeccak k data = Some sig -> EthRecoverKeccak sig data = Some (pub_of k, PrivKeyToAddress k).
Proof using L.
  unfold EthSignKeccak, EthRecoverKeccak. destruct (crypto_Sign _ _) eqn:E; simpl; [|done].
  intros [= <-]. rewrite hex_decode_encode. simpl.
  destruct (Sign_format _ _ _ E) as [-> _]. simpl. by rewrite (SigToPub_Sign _ _ _ E).
Qed.

(** A signature made by TxHashSign, in sha256 or keccak form, is recovered to the
    signer's address. *)
Theorem tx_hash_signature_roundtrip k txHash sig :
  TxHashSign k txHash = Some sig ->
  TxHashRecover txHash sig = Some (pub_of k, PrivKeyToAddress k).
Proof using L.
  unfold TxHashSign, TxHashRecover. destruct (checked_tx_hash txHash); simpl; [|done].
  apply EthRecover_EthSign.
Qed.

(** SignManageEntity and RecoverPubkeyFromCoreTx are inverse: whoever signs is
    who is recovered, and InjectSigner then writes that address. *)
Theorem manage_entity_signature_roundtrip cfg em k em' :
  SignManageEntity HashStruct cfg em k = Some em' ->
  RecoverPubkeyFromCoreTx HashStruct cfg em' = Some (PrivKeyToAddress k, pub_of k) /\
  InjectSigner HashStruct cfg em' = Some (set_signer em' (PrivKeyToAddress k)).
Proof using L.
  unfold SignManageEntity. intros H.
  destruct (typed_data_sighash _ _) as [h|] eqn:Eh; cbn [mbind option_bind] in H; [|done].
  destruct (crypto_Sign h k) as [sig|] eqn:Es; cbn [mbind option_bind] in H; [|done].
  assert (em' = set_signature em ("0x" +:+ hex_encode (update_byte 64 (byte_add 27) sig)))
    as -> by congruence. clear H.
  destruct (Sign_format _ _ _ Es) as [Hlen _].
  cut (RecoverPubkeyFromCoreTx HashStruct cfg
         (set_signature em ("0x" +:+ hex_encode (update_byte 64 (byte_add 27) sig)))
       = Some (PrivKeyToAddress k, pub_of k)).
  { intros E. split; [exact E|]. unfold InjectSigner. by rewrite E. }
  unfold RecoverPubkeyFromCoreTx, recoverPublicKey.
  change (manage_entity_typed_data cfg (set_signature _ _)) with (manage_entity_typed_data cfg em).
  rewrite Eh. cbn [mbind option_bind me_Signature set_signature]. unfold toBytes.
  rewrite TrimPrefix_0x, hex_decode_prefix_encode. cbn [fst].
  rewrite update_byte_length, Hlen. change (64 <? 65)%nat with true. cbv iota zeta.
  rewrite update_byte_compose, update_byte_id by apply byte_sub_add.
  rewrite (Ecrecover_Sign _ _ _ Es). simpl. by rewrite Unmarshal_From.
Qed.
End Laws.

(** The 32-byte encoding of reward identifiers, off chain and on: a string
    without a zero byte comes back when it is shorter than 32 bytes, and comes back
    cut to 31 bytes when it is not. *)
Theorem HexToUtf8_Utf8ToHex s :
  nul_free s = true ->
  HexToUtf8 (Utf8ToHex s) =
  if (String.length s <? 32)%nat then s else str_take 31 s.
Proof.
  intros Hs. unfold HexToUtf8, Utf8ToHex, copy_into. rewrite str_take_length.
  destruct (Nat.ltb_spec (String.length s) 32) as [Hl|Hl].
  - rewrite (str_take_ge 32) by lia.
    destruct (32 - Nat.min 32 (String.length s))%nat as [|k] eqn:E; [lia|].
    rewrite first_zero_pad by done. apply str_take_app.
  - replace (32 - Nat.min 32 (String.length s))%nat with O by lia. simpl zeros.
    rewrite append_empty_r, first_zero_full by (by apply nul_free_take).
    rewrite str_take_length. replace (Nat.pred (Nat.min 32 (String.length s))) with 31%nat by lia.
    apply str_take_take. lia.
Qed.

(** ** A concrete signature scheme

    One byte of key material; a signature repeats it and ends in [V = 0].  Used
    to run the definitions. *)
Module Toy.
Fixpoint repeat_byte (n : nat) (c : ascii) (tail : string) : string :=
  match n with
  | O => tail
  | S n' => String c (repeat_byte n' c tail)
  end.

Definition crypto : EthCrypto := {|
  privkey := ascii;
  pubkey := ascii;
  sha256 s := s;
  keccak256 s := s;
  pub_of k := k;
  crypto_Sign _ k := Some (repeat_byte 64 k (String zero ""));
  Ecrecover _ sig := match sig with String c _ => Some (String c "") | _ => None end;
  SigToPub _ sig := String.get 0 sig;
  FromECDSAPub p := String p "";
  UnmarshalPubkey := String.get 0;
  PubkeyToAddress p := "0x" +:+ hex_encode (String p "")
|}.

Lemma laws : EthCryptoLaws crypto.
Proof.
  split; simpl; [|intros h k sig [= <-]; reflexivity..|done].
  intros h k sig [= <-]. split; [reflexivity|]. exists zero. by vm_compute.
Qed.
End Toy.

Definition ex_signed (m : string) : ManageEntityLegacy :=
  mkManageEntityLegacy 1 "Track" 2000000 "Create" m "" "0x01" "".

Lemma tx_hash_signature_roundtrip_witness :
  let h := hex_encode (copy_into 32 "hash") in
  exists sig, @TxHashSign Toy.crypto "k"%char h = Some sig /\
    @TxHashRecover Toy.crypto h sig = Some ("k"%char, "0x6b").
Proof.
  eexists. split; [vm_compute; reflexivity|].
  apply (@tx_hash_signature_roundtrip Toy.crypto Toy.laws "k"%char). vm_compute. reflexivity.
Defined.

Lemma manage_entity_signature_roundtrip_witness :
  let hs (_ : TypedData) (_ : td_struct) := Some "h" in
  let cfg := mkAcdcConfig "0xabc" 1056801 in
  exists em', @SignManageEntity Toy.crypto hs cfg (ex_signed "{}") "k"%char = Some em' /\
    @RecoverPubkeyFromCoreTx Toy.crypto hs cfg em' = Some ("0x6b", "k"%char).
Proof.
  eexists. split; [vm_compute; reflexivity|].
  refine (proj1 (@manage_entity_signature_roundtrip Toy.crypto Toy.laws _ _ (ex_signed "{}") "k"%char _ _)).
  vm_compute. reflexivity.
Defined.

Lemma HexToUtf8_Utf8ToHex_witness :
  nul_free "abcdefghijklmnopqrstuvwxyz0123456789" = true /\
  HexToUtf8 (Utf8ToHex "abcdefghijklmnopqrstuvwxyz0123456789") = "abcdefghijklmnopqrstuvwxyz01234".
Proof. split; [reflexivity|]. rewrite HexToUtf8_Utf8ToHex; reflexivity. Defined.
