(* ===== verification/Validators.v ===== *)
(** * The validator table

    core_validators (pkg/core/db): rows in insertion order, no uniqueness
    constraint besides the row id, and the queries the server runs on it. *)

From stdpp Require Import base strings list.
From Stdlib Require Import ZArith Lia.
From S2P Require Import Prelude.

Open Scope string_scope.
Open Scope Z_scope.

Record CoreValidator := mkCoreValidator {
  cv_PubKey : string;
  cv_Endpoint : string;
  cv_EthAddress : string;
  cv_CometAddress : string;
  cv_EthBlock : string;
  cv_NodeType : string;
  cv_SpID : string;
  cv_CometPubKey : string;
  cv_Jailed : bool
}.

Definition set_jailed (b : bool) (v : CoreValidator) : CoreValidator :=
  mkCoreValidator (cv_PubKey v) (cv_Endpoint v) (cv_EthAddress v) (cv_CometAddress v)
    (cv_EthBlock v) (cv_NodeType v) (cv_SpID v) (cv_CometPubKey v) b.

Section Queries.
Implicit Types vs : list CoreValidator.

Definition GetAllEthAddressesOfRegisteredNodes vs : list string :=
  map cv_EthAddress (List.filter (fun v => negb (cv_Jailed v)) vs).
Definition GetRegisteredNodeByEthAddress vs (a : string) : option CoreValidator :=
  List.find (fun v => String.eqb (cv_EthAddress v) a) vs.
Definition GetRegisteredNodeByCometAddress vs (a : string) : option CoreValidator :=
  List.find (fun v => String.eqb (cv_CometAddress v) a) vs.
(** [lower(eth_address) = lower($1)], jailed rows included. *)
Definition IsRegisteredNodeEthAddress vs (a : string) : bool :=
  existsb (fun v => String.eqb (ToLower (cv_EthAddress v)) (ToLower a)) vs.
Definition InsertRegisteredNode (v : CoreValidator) vs : list CoreValidator := app vs [v].
Definition DeleteRegisteredNode (comet : string) vs : list CoreValidator :=
  List.filter (fun v => negb (String.eqb (cv_CometAddress v) comet)) vs.
Definition set_jailed_where (b : bool) (comet : string) vs : list CoreValidator :=
  map (fun v => if String.eqb (cv_CometAddress v) comet then set_jailed b v else v) vs.
Definition JailRegisteredNode := set_jailed_where true.
Definition UnjailRegisteredNode := set_jailed_where false.
End Queries.

(** ** Lemmas *)

Lemma find_none_notin {A} (f : A -> string) l a :
  List.find (fun v => String.eqb (f v) a) l = None -> a ∉ map f l.
Proof.
  induction l as [|v l IH]; simpl; [intros _ []%elem_of_nil|].
  destruct (String.eqb_spec (f v) a) as [|Hne]; [done|].
  intros H [->|Hin]%elem_of_cons; [done|]. by apply IH.
Qed.

Lemma eth_of_jail b comet vs : map cv_EthAddress (set_jailed_where b comet vs) = map cv_EthAddress vs.
Proof.
  unfold set_jailed_where. rewrite map_map. apply map_ext. intros v. by destruct (String.eqb _ _).
Qed.

Lemma comet_of_jail b comet vs : map cv_CometAddress (set_jailed_where b comet vs) = map cv_CometAddress vs.
Proof.
  unfold set_jailed_where. rewrite map_map. apply map_ext. intros v. by destruct (String.eqb _ _).
Qed.

Lemma NoDup_map_filter {A B} (f : A -> B) (p : A -> bool) l : NoDup (map f l) -> NoDup (map f (List.filter p l)).
Proof.
  induction l as [|x l IH]; simpl; [done|]. intros [Hn Hd]%NoDup_cons.
  destruct (p x); simpl; [|auto]. apply NoDup_cons. split; [|auto].
  intros Hin. apply Hn. apply list_elem_of_In in Hin. apply list_elem_of_In.
  apply in_map_iff in Hin as (y & <- & Hy). apply filter_In in Hy as [Hy _]. by apply in_map.
Qed.

Lemma NoDup_map_snoc {A B} (f : A -> B) l x :
  NoDup (map f l) -> f x ∉ map f l -> NoDup (map f (app l [x])).
Proof.
  intros Hd Hn. rewrite map_app. apply NoDup_app. split_and!; [done| |by apply NoDup_singleton].
  intros y Hy ->%list_elem_of_singleton. done.
Qed.

Lemma find_eq_spec {A} (f : A -> string) l a x :
  List.find (fun v => String.eqb (f v) a) l = Some x -> x ∈ l /\ f x = a.
Proof.
  intros [Hin He]%find_some. split; [by apply list_elem_of_In|by apply String.eqb_eq].
Qed.
