(* ===== verification/AuthEnforcement.v ===== *)
(** * Enforcement and finalization of ManageEntity transactions

    Models pkg/core/server/auth_enforcement.go, manage_entity.go and
    content_attestation.go: the check a transaction passes before it enters a
    block, and what FinalizeBlock does with it. *)

From stdpp Require Import base gmap strings list fin_maps pretty.
From Stdlib Require Import ZArith Lia.
From S2P Require Import Prelude Upgrades AuthState AuthStores Crypto Validators.

Open Scope string_scope.
Open Scope Z_scope.

(** A deterministic rejection ([authRejectionError], [txRejectionError]) or an
    error of this node. *)
Inductive rejection :=
| SignerNotRecoverable
| SignerMismatch (signer recovered : string)
| AuthRejected (r : reject_reason)
| TxRejected (msg : string).

Inductive tx_error :=
| Rejection (r : rejection)
| NodeError.

Definition authRejected (e : tx_error) : bool :=
  match e with
  | Rejection _ => true
  | NodeError => false
  end.

(** [if isAuthValidationError(err) { return &authRejectionError{...} }; return err]. *)
Definition wrap_auth_error (e : auth_error) : tx_error :=
  match e with
  | ValidationError r => Rejection (AuthRejected r)
  | StoreError => NodeError
  end.

Definition map_err {E F A} (f : E -> F) (r : res E A) : res F A :=
  match r with
  | Ok a => Ok a
  | Err e => Err (f e)
  end.

Section Enforcement.
Context {C : EthCrypto}.
Context (HashStruct : TypedData -> td_struct -> option string) (cfg : acdc_config).
Context (json_decode : string -> option json) (cpu : arch).

(** ** validateManageEntityAuth *)

Section Validate.
Context {S : Type} {store : AuthStore S}.

Definition validateManageEntityAuth (rules : Rules) (em : ManageEntityLegacy) : proc S tx_error unit :=
  fun overlay =>
    match RecoverPubkeyFromCoreTx HashStruct cfg em with
    | None => (overlay, Err (Rejection SignerNotRecoverable))
    | Some (recovered, _) =>
        if negb (EqualFold recovered (me_Signer em)) then
          (overlay, Err (Rejection (SignerMismatch (me_Signer em) recovered)))
        else
          let tx := authTxFromManageEntity json_decode em in
          match (if ContentAuthEnforced rules then validateTrackContentAuth overlay tx rules else Ok tt) with
          | Err e => (overlay, Err (wrap_auth_error e))
          | Ok _ =>
              let (overlay', r) := applyAuthProjection cpu tx rules overlay in
              (overlay', map_err wrap_auth_error r)
          end
    end.

(** FinalizeBlock applies the effects and logs what the projection returns. *)
Definition projectManageEntityAuthState (tx : authTx) (rules : Rules) (st : S) : S :=
  fst (applyAuthProjection cpu tx rules st).
End Validate.

(** ** Track access keys *)

(** What encoding/json decodes metadata into: members whose name folds to the
    field's, the last one winning; [None] on a type mismatch.  A null leaves the
    field at its zero value. *)
Record trackMetadata := mkTrackMetadata {
  tm_AccessAuthorities : list string;
  tm_TrackCid : string
}.

Definition decode_strings (l : list json) : option (list string) :=
  mapM (fun j => match j with JStr s => Some s | JNull => Some "" | _ => None end) l.

Definition set_access (l : list string) (m : trackMetadata) := mkTrackMetadata l (tm_TrackCid m).
Definition set_track_cid (c : string) (m : trackMetadata) := mkTrackMetadata (tm_AccessAuthorities m) c.

Fixpoint decode_data (l : list (string * json)) (m : trackMetadata) : option trackMetadata :=
  match l with
  | [] => Some m
  | (k, v) :: l' =>
      m' ← (if EqualFold k "track_cid" then
              match v with
              | JStr s => Some (set_track_cid s m)
              | JNull => Some m
              | _ => None
              end
            else Some m);
      decode_data l' m'
  end.

Fixpoint decode_members (l : list (string * json)) (m : trackMetadata) : option trackMetadata :=
  match l with
  | [] => Some m
  | (k, v) :: l' =>
      m' ← (if EqualFold k "cid" then
              match v with JStr _ | JNull => Some m | _ => None end
            else if EqualFold k "access_authorities" then
              match v with
              | JArr a => ss ← decode_strings a; Some (set_access ss m)
              | JNull => Some (set_access [] m)
              | _ => None
              end
            else if EqualFold k "data" then
              match v with
              | JObj d => decode_data d m
              | JNull => Some m
              | _ => None
              end
            else Some m);
      decode_members l' m'
  end.

Definition decode_trackMetadata (raw : string) : option trackMetadata :=
  j ← json_decode raw;
  match j with
  | JObj l => decode_members l (mkTrackMetadata [] "")
  | JNull => Some (mkTrackMetadata [] "")
  | _ => None
  end.

(** sound_recordings and management_keys, each row with its track id. *)
Record track_tables := mkTrackTables {
  sound_recordings : list (string * (string * string));
  management_keys : list (string * string)
}.

Inductive track_query := QDeleteSoundRecordings | QDeleteManagementKeys | QInsertSoundRecording | QInsertManagementKey.

Definition not_track {A} (trackID : string) (r : string * A) : bool := negb (String.eqb (fst r) trackID).

Definition DeleteManagementKeysByTrackID (trackID : string) (t : track_tables) : track_tables :=
  mkTrackTables (sound_recordings t) (List.filter (not_track trackID) (management_keys t)).
Definition DeleteSoundRecordingsByTrackID (trackID : string) (t : track_tables) : track_tables :=
  mkTrackTables (List.filter (not_track trackID) (sound_recordings t)) (management_keys t).
Definition InsertSoundRecording (id trackID cid : string) (t : track_tables) : track_tables :=
  mkTrackTables (app (sound_recordings t) [(trackID, (id, cid))]) (management_keys t).
Definition InsertManagementKey (trackID address : string) (t : track_tables) : track_tables :=
  mkTrackTables (sound_recordings t) (app (management_keys t) [(trackID, address)]).

Section Tracks.
(** The statements that fail. *)
Context (fault : track_query -> bool).

Definition exec (q : track_query) (f : track_tables -> track_tables) : proc track_tables unit unit :=
  fun t => if fault q then (t, Err tt) else (f t, Ok tt).

Definition processTrackManageEntity (me : ManageEntityLegacy) : proc track_tables unit unit :=
  match decode_trackMetadata (me_Metadata me) with
  | None => pfail tt
  | Some meta =>
      let trackID := pretty (me_EntityId me) in
      match tm_AccessAuthorities meta with
      | [] => exec QDeleteManagementKeys (DeleteManagementKeysByTrackID trackID)
      | signers =>
          let cid := tm_TrackCid meta in
          if String.eqb cid "" then pfail tt
          else
            exec QDeleteSoundRecordings (DeleteSoundRecordingsByTrackID trackID) ;;!
            exec QDeleteManagementKeys (DeleteManagementKeysByTrackID trackID) ;;!
            exec QInsertSoundRecording (InsertSoundRecording ("sr_" +:+ trackID) trackID cid) ;;!
            for_each (fun addr => exec QInsertManagementKey (InsertManagementKey trackID (ToLower addr)))
              signers
      end
  end.

(** ** finalizeManageEntity *)

Definition finalizeManageEntity {S} {store : AuthStore S} (upgrades : option UpgradeSchedule) (blockHeight : Z)
    (em : ManageEntityLegacy) (t : track_tables) (st : S) : track_tables * S :=
  let t' :=
    if EqualFold (me_EntityType em) "Track"
       && (EqualFold (me_Action em) "Create" || EqualFold (me_Action em) "Update")
    then fst (processTrackManageEntity em t) else t in
  (t', projectManageEntityAuthState (authTxFromManageEntity json_decode em)
         (RulesetAt upgrades blockHeight) st).

Definition finalizeManageEntityMigration {S} {store : AuthStore S}
    (me : ManageEntityLegacyMigration) (t : track_tables) (st : S) : track_tables * S :=
  let t' :=
    if EqualFold (mm_EntityType me) "Track" && EqualFold (mm_Action me) "Create"
    then fst (processTrackManageEntity
                (mkManageEntityLegacy (mm_UserId me) (mm_EntityType me) (mm_EntityId me)
                   (mm_Action me) (mm_Metadata me) "" "" "") t)
    else t in
  (t', projectManageEntityAuthState (authTxFromManageEntityMigration json_decode me) no_rules st).
End Tracks.

(** ** Content attestations *)

Section Content.
(** proto.Marshal of a ContentAttestationPayload. *)
Context (marshal_payload : Z -> list string -> option string).

Definition ContentAttestationBytes (ca : ContentAttestation) : option string :=
  marshal_payload (ca_UserId ca) (ca_Cids ca).

(** [registered] is the answer of IsRegisteredNodeEthAddress: [None] when the
    query fails. *)
Definition isValidContentAttestation (registered : string -> option bool) (ca : option ContentAttestation) :
    res tx_error unit :=
  let reject msg := Err (Rejection (TxRejected msg)) in
  match ca with
  | None => reject "content attestation not present"
  | Some ca =>
      if ca_UserId ca =? 0 then reject "no user id provided"
      else if bool_decide (ca_Cids ca = []) then reject "no cids provided"
      else if existsb (fun cid => String.eqb cid "") (ca_Cids ca) then reject "empty cid provided"
      else if String.eqb (ca_ValidatorAddress ca) "" then reject "no validator address provided"
      else if String.eqb (ca_ValidatorSignature ca) "" then reject "no validator signature provided"
      else match ContentAttestationBytes ca with
           | None => reject "could not marshal attestation payload"
           | Some payload =>
               match EthRecover (ca_ValidatorSignature ca) payload with
               | None => reject "could not recover attestation signer"
               | Some (_, recovered) =>
                   if negb (EqualFold recovered (ca_ValidatorAddress ca)) then
                     reject "validator address and attestation signer mismatch"
                   else match registered (ca_ValidatorAddress ca) with
                        | None => Err NodeError
                        | Some false => reject "validator is not a registered node"
                        | Some true => Ok tt
                        end
               end
           end
  end.

Definition finalizeContentAttestation {S} {store : AuthStore S} (upgrades : option UpgradeSchedule)
    (registered : string -> option bool) (ca : option ContentAttestation) (txHash : string)
    (blockHeight : Z) : proc S tx_error unit :=
  fun st =>
    if negb (ContentAuthEnforced (RulesetAt upgrades blockHeight)) then
      (st, Err (Rejection (TxRejected "content attestation before content auth is active")))
    else match isValidContentAttestation registered ca with
         | Err e => (st, Err e)
         | Ok _ =>
             let (st', r) := projectContentAttestationCids ca txHash st in
             (st', map_err (fun _ => NodeError) r)
         end.
End Content.
End Enforcement.
