(* ===== verification/AuthSim.v ===== *)
(** * Simulation between authorization stores

    A relational logic for [proc], an interface ([StoreSim]) of what one store
    has to promise about another, and the theorem that the projection of
    [AuthState] then carries the relation from one store to the other.  The
    relation is asymmetric: a store failure on the left excuses everything. *)

From stdpp Require Import base gmap strings list fin_maps.
From Stdlib Require Import ZArith Lia.
From S2P Require Import Prelude Upgrades AuthState AuthStores.

Open Scope string_scope.
Open Scope Z_scope.

(** The right store answers as the left one, unless the left one failed. *)
Definition qsim {A} (r1 r2 : res auth_error A) : Prop := r1 = Err StoreError \/ r2 = r1.

Lemma qsim_refl {A} (r : res auth_error A) : qsim r r.
Proof. by right. Qed.

Lemma qsim_bind {A B} (r1 r2 : res auth_error A) (k1 k2 : A -> res auth_error B) :
  qsim r1 r2 -> (forall a, r1 = Ok a -> qsim (k1 a) (k2 a)) -> qsim (rbind r1 k1) (rbind r2 k2).
Proof.
  intros [->| ->] H; [by left|]. destruct r1 as [a|e]; simpl; [by apply H|by right].
Qed.

#[export] Hint Resolve qsim_refl : oap.

Section Logic.
Context {S1 S2 : Type}.
(** [full]: a rejection on the left is a rejection on the right. *)
Context (full : Prop) (R : S1 -> S2 -> Prop).

Definition rres {A} (Q : A -> S1 -> S2 -> Prop) (x : S1 * res auth_error A) (y : S2 * res auth_error A) :
    Prop :=
  match x with
  | (s1, Ok a) => exists s2, y = (s2, Ok a) /\ Q a s1 s2
  | (s1, Err (ValidationError r)) => full -> exists s2, y = (s2, Err (ValidationError r)) /\ R s1 s2
  | (_, Err StoreError) => True
  end.

Definition rh {A} (P : S1 -> S2 -> Prop) (m1 : proc S1 auth_error A) (m2 : proc S2 auth_error A)
    (Q : A -> S1 -> S2 -> Prop) : Prop :=
  forall s1 s2, P s1 s2 -> rres Q (m1 s1) (m2 s2).

Lemma rh_ret {A} (P : S1 -> S2 -> Prop) (a : A) (Q : A -> S1 -> S2 -> Prop) :
  (forall s1 s2, P s1 s2 -> Q a s1 s2) -> rh P (pret a) (pret a) Q.
Proof. intros H s1 s2 HP. exists s2. eauto. Qed.

Lemma rh_bind {A B} P (m1 : proc S1 auth_error A) m2 (k1 : A -> proc S1 auth_error B) k2 Q Q' :
  rh P m1 m2 Q -> (forall a, rh (Q a) (k1 a) (k2 a) Q') -> rh P (pbind m1 k1) (pbind m2 k2) Q'.
Proof.
  intros Hm Hk s1 s2 HP. specialize (Hm _ _ HP). unfold rres, pbind in *.
  destruct (m1 s1) as [s1' [a|[r|]]]; [|intros Hf|done].
  - destruct Hm as (s2' & -> & HQ). apply Hk, HQ.
  - destruct (Hm Hf) as (s2' & -> & HR). eauto.
Qed.

Lemma rh_query {A} (P : S1 -> S2 -> Prop) (f1 : S1 -> res auth_error A) f2 :
  (forall s1 s2, P s1 s2 -> R s1 s2) -> (forall s1 s2, P s1 s2 -> qsim (f1 s1) (f2 s2)) ->
  rh P (query f1) (query f2) (fun a s1 s2 => P s1 s2 /\ f1 s1 = Ok a).
Proof.
  intros HR Hf s1 s2 HP. unfold rres, query. destruct (Hf _ _ HP) as [->| ->]; [done|].
  destruct (f1 s1) as [a|[r|]] eqn:E; eauto 10.
Qed.

Lemma rh_reject (P : S1 -> S2 -> Prop) c r :
  (forall s1 s2, P s1 s2 -> R s1 s2) ->
  rh P (reject_if c r) (reject_if c r) (fun _ s1 s2 => P s1 s2 /\ c = false).
Proof. intros HR s1 s2 HP. destruct c; simpl; eauto 10. Qed.

Lemma rh_fail {A} (P : S1 -> S2 -> Prop) r (Q : A -> S1 -> S2 -> Prop) :
  (forall s1 s2, P s1 s2 -> R s1 s2) ->
  rh P (pfail (ValidationError r)) (pfail (ValidationError r)) Q.
Proof. intros HR s1 s2 HP Hf. eauto. Qed.

Lemma rh_conseq {A} (P P' : S1 -> S2 -> Prop) (m1 : proc S1 auth_error A) m2 (Q Q' : A -> S1 -> S2 -> Prop) :
  rh P m1 m2 Q -> (forall s1 s2, P' s1 s2 -> P s1 s2) ->
  (forall a s1 s2, Q a s1 s2 -> Q' a s1 s2) -> rh P' m1 m2 Q'.
Proof.
  intros H HP HQ s1 s2 HP'. specialize (H _ _ (HP _ _ HP')). unfold rres in *.
  destruct (m1 s1) as [s1' [a|[r|]]]; [|done|done]. destruct H as (s2' & -> & ?). eauto.
Qed.

Lemma rh_post {A} (P : S1 -> S2 -> Prop) (m1 : proc S1 auth_error A) m2 (Q Q' : A -> S1 -> S2 -> Prop) :
  rh P m1 m2 Q -> (forall a s1 s2, Q a s1 s2 -> Q' a s1 s2) -> rh P m1 m2 Q'.
Proof. intros H HQ. by eapply rh_conseq. Qed.

Lemma rh_for_each {A} (f1 : A -> proc S1 auth_error unit) f2 l :
  (forall x, rh R (f1 x) (f2 x) (fun _ => R)) -> rh R (for_each f1 l) (for_each f2 l) (fun _ => R).
Proof.
  intros H. induction l as [|x l IH]; simpl; [by apply rh_ret|]. eapply rh_bind; [apply H|]. done.
Qed.

(** ** The interface

    [exact_handles] and [exact_ids] say when the left store's handle and
    wallet-owner scans are exact; [any_wallet] when a user may be inserted
    without a check that its wallet is free. *)
Class StoreSim `{AuthStore S1, AuthStore S2} (exact_handles exact_ids : S1 -> Prop) (any_wallet : Prop) := {
  sim_GetUser s1 s2 uid : R s1 s2 -> qsim (GetUser s1 uid) (GetUser s2 uid);
  sim_GetUserIDByWallet s1 s2 w :
    R s1 s2 -> exact_ids s1 -> qsim (GetUserIDByWallet s1 w) (GetUserIDByWallet s2 w);
  sim_WalletExists s1 s2 w : R s1 s2 -> qsim (WalletExists s1 w) (WalletExists s2 w);
  sim_ActiveWalletExists s1 s2 w : R s1 s2 -> qsim (ActiveWalletExists s1 w) (ActiveWalletExists s2 w);
  sim_HandleExists s1 s2 h :
    R s1 s2 -> h <> "" -> exact_handles s1 -> qsim (HandleExists s1 h) (HandleExists s2 h);
  sim_HandleFree s1 s2 h :
    R s1 s2 -> h <> "" -> HandleExists s1 h = Ok false -> HandleExists s2 h = Ok false;
  sim_HandleErr (s1 : S1) h r : HandleExists s1 h <> Err (ValidationError r);
  sim_GetGrant s1 s2 g uid : R s1 s2 -> qsim (GetGrant s1 g uid) (GetGrant s2 g uid);
  sim_GetApp s1 s2 a : R s1 s2 -> qsim (GetApp s1 a) (GetApp s2 a);
  sim_GetEntity s1 s2 t id : R s1 s2 -> qsim (GetEntity s1 t id) (GetEntity s2 t id);
  sim_IsCidClaimedByUser s1 s2 c uid :
    R s1 s2 -> qsim (IsCidClaimedByUser s1 c uid) (IsCidClaimedByUser s2 c uid);
  sim_CidIsClaimed s1 s2 c : R s1 s2 -> qsim (CidIsClaimed s1 c) (CidIsClaimed s2 c);
  sim_InsertUser uid w h b :
    rh (fun s1 s2 => R s1 s2 /\ GetUser s1 uid = Ok None /\ (any_wallet \/ WalletExists s1 w = Ok false))
      (InsertUser uid w h b) (InsertUser uid w h b) (fun _ => R);
  sim_SetUserHandle uid h : rh R (SetUserHandle uid h) (SetUserHandle uid h) (fun _ => R);
  sim_SetUserDeactivated uid b : rh R (SetUserDeactivated uid b) (SetUserDeactivated uid b) (fun _ => R);
  sim_UpsertGrant g uid a b : rh R (UpsertGrant g uid a b) (UpsertGrant g uid a b) (fun _ => R);
  sim_UpsertApp a uid : rh R (UpsertApp a uid) (UpsertApp a uid) (fun _ => R);
  sim_SetAppDeleted a : rh R (SetAppDeleted a) (SetAppDeleted a) (fun _ => R);
  sim_InsertEntity t id uid b :
    rh (fun s1 s2 => R s1 s2 /\ GetEntity s1 t id = Ok None)
      (InsertEntity t id uid b) (InsertEntity t id uid b) (fun _ => R);
  sim_SetEntityDeleted t id : rh R (SetEntityDeleted t id) (SetEntityDeleted t id) (fun _ => R);
  sim_InsertCid c uid h : rh R (InsertCid c uid h) (InsertCid c uid h) (fun _ => R)
}.
End Logic.

(** A grant revocation: the only transaction that looks a user up by wallet. *)
Definition is_grant_delete (tx : authTx) : Prop :=
  canonicalAuthEntityType (EntityType tx) = Some authEntityTypeGrant /\
  canonicalAuthAction (Action tx) = Some authActionDelete.

Section Client.
Context {S1 S2 : Type} `{store1 : !AuthStore S1, store2 : !AuthStore S2}.
Context (full : Prop) (R : S1 -> S2 -> Prop) (exact_handles exact_ids : S1 -> Prop) (any_wallet : Prop).
Context `{sim : !StoreSim full R exact_handles exact_ids any_wallet}.
Context (cpu : arch).

#[local] Notation "P ⊢ m1 ~ m2 ⊣ Q" := (rh full R P m1 m2 Q) (at level 70, m1 at next level).

Lemma validateAuthSigner_sim s1 s2 uid signer :
  R s1 s2 -> qsim (validateAuthSigner s1 uid signer) (validateAuthSigner s2 uid signer).
Proof using sim.
  intros HR. unfold validateAuthSigner.
  apply qsim_bind; [by apply (sim_GetUser full R)|]. intros [u|] _; [|apply qsim_refl].
  destruct (String.eqb (Wallet u) ""); [apply qsim_refl|].
  destruct (EqualFold (Wallet u) signer); [apply qsim_refl|].
  destruct (String.eqb (ToLower signer) ""); [apply qsim_refl|].
  apply qsim_bind; [by apply (sim_GetGrant full R)|]. intros [g|] _; [|apply qsim_refl].
  destruct (Revoked g); [apply qsim_refl|].
  apply qsim_bind; [by apply (sim_GetApp full R)|]. intros app _.
  apply qsim_bind; [by apply (sim_ActiveWalletExists full R)|]. intros isUser _. apply qsim_refl.
Qed.

Lemma revokeAuthorized_sim s1 s2 tx grantee :
  R s1 s2 -> exact_ids s1 -> qsim (revokeAuthorized s1 tx grantee) (revokeAuthorized s2 tx grantee).
Proof using sim.
  intros HR Hex. unfold revokeAuthorized.
  destruct (validateAuthSigner_sim s1 s2 (UserID tx) (Signer tx) HR) as [->| ->]; [by left|].
  destruct (validateAuthSigner s1 _ _) as [?|[r|]]; [apply qsim_refl| |by left].
  apply qsim_bind; [by apply (sim_GetUserIDByWallet full R)|]. intros id _.
  apply qsim_bind; [|intros; apply qsim_refl].
  destruct id as [uid|]; [|apply qsim_refl].
  destruct (validateAuthSigner_sim s1 s2 uid (Signer tx) HR) as [->| ->]; [by left|apply qsim_refl].
Qed.

(** Queries and checks under a precondition that implies [R]. *)
Ltac simq lem := eapply rh_bind; [apply rh_query; [tauto|]; intros ? ? HP; apply lem; tauto|]; intros ?.
Ltac simr := eapply rh_bind; [apply rh_reject; tauto|]; intros [].

Lemma check_signer_sim (P : S1 -> S2 -> Prop) uid signer :
  (forall s1 s2, P s1 s2 -> R s1 s2) ->
  P ⊢ check_signer uid signer ~ check_signer uid signer ⊣ (fun _ => P).
Proof using sim.
  intros HR. eapply rh_conseq;
    [apply (rh_query full R P)| |]; [done| |done|intros ? ? ? [? _]; done].
  intros. apply validateAuthSigner_sim. auto.
Qed.

Lemma handle_sim (P : S1 -> S2 -> Prop) h r :
  (forall s1 s2, P s1 s2 -> R s1 s2 /\ (full -> exact_handles s1)) -> h <> "" ->
  P ⊢ let! taken := query (fun st => HandleExists st h) in reject_if taken r
    ~ let! taken := query (fun st => HandleExists st h) in reject_if taken r ⊣ (fun _ => P).
Proof using sim.
  intros HP Hh s1 s2 HPs. destruct (HP _ _ HPs) as [HR Hex]. unfold rres, pbind, query.
  pose proof (sim_HandleFree full R s1 s2 h HR Hh) as Hfree.
  pose proof (sim_HandleErr full R s1 h) as Herr.
  destruct (HandleExists s1 h) as [[]|[rr|]] eqn:E; simpl; [|by rewrite Hfree; eauto|by destruct (Herr rr)|done].
  intros Hf. destruct (sim_HandleExists full R s1 s2 h HR Hh (Hex Hf)) as [Hs|Hs]; rewrite E in Hs; [done|].
  rewrite Hs. eauto.
Qed.

Definition pre (tx : authTx) (s1 : S1) (s2 : S2) : Prop :=
  R s1 s2 /\ (full -> exact_handles s1) /\ (is_grant_delete tx -> exact_ids s1).

Lemma projectUserCreate_sim tx :
  (Migration tx = true -> any_wallet) ->
  pre tx ⊢ projectUserCreate tx ~ projectUserCreate tx ⊣ (fun _ => R).
Proof using sim.
  intros Hw. unfold projectUserCreate, pre.
  simq (sim_GetUser full R). simr. simr.
  set (wallet := ToLower (Signer tx)). set (handle := ToLower (metaString tx "handle")).
  eapply rh_bind with (Q := fun _ s1 s2 => R s1 s2 /\ GetUser s1 (UserID tx) = Ok None /\
                                         (any_wallet \/ WalletExists s1 wallet = Ok false));
    [|intros []; apply (sim_InsertUser full R)].
  destruct (Migration tx) eqn:E.
  - apply rh_ret. intros s1 s2 H. destruct a; [naive_solver|]. split_and!; naive_solver.
  - simq (sim_WalletExists full R). simr. simq (sim_GetApp full R). simr.
    destruct (String.eqb_spec handle "").
    + apply rh_ret. intros s1 s2 H. destruct a; naive_solver.
    + eapply rh_post; [apply handle_sim; [tauto|done]|].
      intros ? s1 s2 H. destruct a; naive_solver.
Qed.

Lemma projectUserUpdate_sim tx :
  R ⊢ projectUserUpdate tx ~ projectUserUpdate tx ⊣ (fun _ => R).
Proof using sim.
  unfold projectUserUpdate. eapply rh_bind; [by apply check_signer_sim|]. intros [].
  eapply rh_bind with (Q := fun _ => R); [|intros []].
  - destruct (String.eqb _ ""); [by apply rh_ret|apply (sim_SetUserHandle full R)].
  - destruct (metaBool tx "is_deactivated"); [apply (sim_SetUserDeactivated full R)|by apply rh_ret].
Qed.

Lemma projectEntityCreate_sim tx t :
  R ⊢ projectEntityCreate cpu tx t ~ projectEntityCreate cpu tx t ⊣ (fun _ => R).
Proof using sim.
  unfold projectEntityCreate. eapply rh_bind with (Q := fun _ => R); [|intros []].
  { destruct (Migration tx); [by apply rh_ret|].
    eapply rh_conseq; [by apply rh_reject|done|naive_solver]. }
  eapply rh_bind with (Q := fun _ => R); [|intros []].
  { destruct (String.eqb t _); [|by apply rh_ret].
    eapply rh_conseq; [by apply rh_reject|done|naive_solver]. }
  eapply rh_bind; [by apply check_signer_sim|]. intros [].
  simq (sim_GetEntity full R). simr.
  eapply rh_conseq; [apply (sim_InsertEntity full R)| |done]. intros s1 s2 H. destruct a; naive_solver.
Qed.

Lemma projectEntityDelete_sim tx t :
  R ⊢ projectEntityDelete tx t ~ projectEntityDelete tx t ⊣ (fun _ => R).
Proof using sim.
  unfold projectEntityDelete. eapply rh_bind; [by apply check_signer_sim|]. intros [].
  simq (sim_GetEntity full R). destruct a; [|apply rh_fail; tauto].
  simr. eapply rh_conseq; [apply (sim_SetEntityDeleted full R)|tauto|done].
Qed.

Lemma projectGrantCreate_sim tx :
  R ⊢ projectGrantCreate tx ~ projectGrantCreate tx ⊣ (fun _ => R).
Proof using sim.
  unfold projectGrantCreate. simr. eapply rh_bind; [apply check_signer_sim; tauto|]. intros [].
  simq (sim_GetApp full R). destruct (Migration tx).
  - eapply rh_conseq; [apply (sim_UpsertGrant full R)|tauto|done].
  - simq (sim_WalletExists full R). simr. simq (sim_GetGrant full R). simr.
    eapply rh_conseq; [apply (sim_UpsertGrant full R)|tauto|done].
Qed.

Lemma projectGrantDelete_sim tx :
  (fun s1 s2 => R s1 s2 /\ exact_ids s1) ⊢ projectGrantDelete tx ~ projectGrantDelete tx ⊣ (fun _ => R).
Proof using sim.
  unfold projectGrantDelete. simr. simq (sim_GetGrant full R).
  destruct a as [g|]; [|apply rh_fail; tauto]. simr.
  eapply rh_bind; [apply rh_query; [tauto|]; intros; apply revokeAuthorized_sim; tauto|]. intros [].
  eapply rh_conseq; [apply (sim_UpsertGrant full R)|tauto|done].
Qed.

Lemma projectGrantApproveReject_sim tx b :
  R ⊢ projectGrantApproveReject cpu tx b ~ projectGrantApproveReject cpu tx b ⊣ (fun _ => R).
Proof using sim.
  unfold projectGrantApproveReject. simr. eapply rh_bind; [apply check_signer_sim; tauto|]. intros [].
  destruct (metaInt64 cpu tx "grantor_user_id"); [|apply rh_fail; tauto].
  simq (sim_GetGrant full R). destruct a as [g|]; [|apply rh_fail; tauto]. simr. simr.
  eapply rh_conseq; [apply (sim_UpsertGrant full R)|tauto|done].
Qed.

Lemma projectAppCreate_sim tx :
  R ⊢ projectAppCreate tx ~ projectAppCreate tx ⊣ (fun _ => R).
Proof using sim.
  unfold projectAppCreate. eapply rh_bind; [by apply check_signer_sim|]. intros [].
  simr. simq (sim_GetApp full R). simr. simq (sim_WalletExists full R). simr.
  eapply rh_bind with (Q := fun _ => R); [|intros []].
  - eapply rh_conseq; [apply (sim_UpsertApp full R)|tauto|done].
  - destruct (Migration tx && _); [apply (sim_SetAppDeleted full R)|by apply rh_ret].
Qed.

Lemma projectAppDelete_sim tx :
  R ⊢ projectAppDelete tx ~ projectAppDelete tx ⊣ (fun _ => R).
Proof using sim.
  unfold projectAppDelete. eapply rh_bind; [by apply check_signer_sim|]. intros [].
  simr. simq (sim_GetApp full R). destruct a; [|apply rh_fail; tauto]. simr. simr.
  eapply rh_conseq; [apply (sim_SetAppDeleted full R)|tauto|done].
Qed.

Lemma projectMigratedTrackCids_sim tx :
  R ⊢ projectMigratedTrackCids tx ~ projectMigratedTrackCids tx ⊣ (fun _ => R).
Proof using sim.
  unfold projectMigratedTrackCids. destruct (_ || _); [by apply rh_ret|].
  destruct (String.eqb _ ""); [by apply rh_ret|]. apply rh_for_each. intros k.
  destruct (String.eqb _ ""); [by apply rh_ret|apply (sim_InsertCid full R)].
Qed.

Lemma projectAssertedTrackCids_sim tx rules :
  R ⊢ projectAssertedTrackCids tx rules ~ projectAssertedTrackCids tx rules ⊣ (fun _ => R).
Proof using sim.
  unfold projectAssertedTrackCids. destruct (_ || _ || _ || _); [by apply rh_ret|].
  apply rh_for_each. intros k. destruct (String.eqb _ ""); [by apply rh_ret|].
  simq (sim_CidIsClaimed full R). destruct a; [apply rh_ret; tauto|].
  eapply rh_conseq; [apply (sim_InsertCid full R)|tauto|done].
Qed.

Lemma validateTrackContentAuth_sim s1 s2 tx rules :
  R s1 s2 -> qsim (validateTrackContentAuth s1 tx rules) (validateTrackContentAuth s2 tx rules).
Proof using sim.
  intros HR. unfold validateTrackContentAuth. destruct (_ || _); [apply qsim_refl|].
  destruct (_ || _); [|apply qsim_refl].
  induction trackCidMetadataKeys as [|k ks IH]; simpl; [apply qsim_refl|].
  apply qsim_bind; [|done]. unfold check_track_cid. destruct (String.eqb _ ""); [apply qsim_refl|].
  apply qsim_bind; [by apply (sim_IsCidClaimedByUser full R)|]. intros [] _; [apply qsim_refl|].
  apply qsim_bind; [by apply (sim_CidIsClaimed full R)|]. intros. apply qsim_refl.
Qed.

(** The two sides branch on the same condition. *)
Ltac branch :=
  match goal with |- rh _ _ _ (if ?c then _ else _) _ _ => destruct c eqn:? end.

(** The projection carries the relation. *)
Lemma applyAuthProjection_sim tx rules :
  (Migration tx = true -> any_wallet) ->
  pre tx ⊢ applyAuthProjection cpu tx rules ~ applyAuthProjection cpu tx rules ⊣ (fun _ => R).
Proof using sim.
  intros Hw. unfold applyAuthProjection.
  assert (HRpre : forall s1 s2, pre tx s1 s2 -> R s1 s2) by (by intros ? ? [? _]).
  destruct (canonicalAuthEntityType _) as [t|] eqn:Et; [|by apply rh_ret].
  destruct (canonicalAuthAction _) as [a|] eqn:Ea; [|by apply rh_ret].
  cbv zeta.
  branch; [by apply projectUserCreate_sim|].
  branch; [eapply rh_conseq; [apply projectUserUpdate_sim|done|done]|].
  branch.
  { eapply rh_bind; [eapply rh_conseq; [apply projectEntityCreate_sim|done|]|]; [by intros; eassumption|].
    intros []. eapply rh_bind; [apply projectMigratedTrackCids_sim|]. intros [].
    apply projectAssertedTrackCids_sim. }
  branch.
  { branch; [by apply rh_ret|].
    eapply rh_bind; [by apply check_signer_sim|]. intros [].
    eapply rh_conseq; [apply projectAssertedTrackCids_sim|done|done]. }
  branch; [eapply rh_conseq; [apply projectEntityDelete_sim|done|done]|].
  branch; [eapply rh_conseq; [apply projectGrantCreate_sim|done|done]|].
  branch.
  { match goal with H : _ && _ = true |- _ => apply andb_prop in H as [E1 E2] end.
    apply String.eqb_eq in E1 as ->, E2 as ->.
    eapply rh_conseq; [apply projectGrantDelete_sim| |done]. intros s1 s2 (? & _ & H). split; [done|].
    by apply H. }
  branch; [eapply rh_conseq; [apply projectGrantApproveReject_sim|done|done]|].
  branch; [eapply rh_conseq; [apply projectAppCreate_sim|done|done]|].
  branch; [eapply rh_conseq; [apply projectAppDelete_sim|done|done]|].
  by apply rh_ret.
Qed.
End Client.
