(* ===== verification/AuthSpec.v ===== *)
(** * What the authorization transition promises

    A declarative account of the projection on the block store: when a
    transaction is accepted ([op_guard]) and what it then does to the tables
    ([op_effect]).  [AuthState]'s code is shown to decide the guard and to
    perform the effect, and to leave the tables alone when it rejects. *)

From stdpp Require Import base gmap strings list fin_maps.
From Stdlib Require Import ZArith Lia.
From S2P Require Import Prelude Upgrades AuthState AuthStores.

Open Scope string_scope.
Open Scope Z_scope.

(** ** Who may sign *)

Definition wallet_used (d : dbAuthStore) (w : string) : Prop :=
  exists uid r, core_auth_users d !! uid = Some r /\ dbu_wallet r = w.

Definition wallet_active (d : dbAuthStore) (w : string) : Prop :=
  exists uid r, core_auth_users d !! uid = Some r /\ dbu_wallet r = w /\ dbu_is_deactivated r = false.

Definition handle_taken (d : dbAuthStore) (h : string) : Prop :=
  exists uid r, core_auth_users d !! uid = Some r /\ dbu_handle_lc r = Some h.

Definition live_app (d : dbAuthStore) (a : string) : Prop :=
  exists r, core_auth_developer_apps d !! a = Some r /\ AppDeleted r = false.

Definition claimed (d : dbAuthStore) (cid : string) (uid : Z) : Prop :=
  is_Some (core_auth_cids d !! (cid, uid)).

(** The signer is the user's wallet, or holds an unrevoked grant from the user as
    a live developer app, or an approved one as an active user. *)
Definition authorized (d : dbAuthStore) (uid : Z) (signer : string) : Prop :=
  exists u, core_auth_users d !! uid = Some u /\ dbu_wallet u <> "" /\
    (ToLower (dbu_wallet u) = ToLower signer \/
     ToLower signer <> "" /\
     exists g, core_auth_grants d !! (ToLower signer, uid) = Some g /\ dbg_is_revoked g = false /\
       (live_app d (ToLower signer) \/
        wallet_active d (ToLower signer) /\ dbg_is_approved g = Some true)).

(** The user a wallet stands for: its active user with the least id. *)
Definition wallet_owner (d : dbAuthStore) (w : string) (uid : Z) : Prop :=
  least_key (fun k => exists r, core_auth_users d !! k = Some r /\ dbu_wallet r = w /\
                                dbu_is_deactivated r = false) (Some uid).

(** ** Operations *)

Inductive auth_op :=
| OpUserCreate
| OpUserUpdate
| OpEntityCreate (t : string)
| OpTrackUpdate
| OpEntityDelete (t : string)
| OpGrantCreate
| OpGrantDelete
| OpGrantDecide (approve : bool)
| OpAppCreate
| OpAppDelete
| OpUntracked.

Definition classify (tx : authTx) : auth_op :=
  match canonicalAuthEntityType (EntityType tx), canonicalAuthAction (Action tx) with
  | Some t, Some a =>
      if decide (t = "User" /\ a = "Create") then OpUserCreate
      else if decide (t = "User" /\ a = "Update") then OpUserUpdate
      else if decide ((t = "Track" \/ t = "Playlist") /\ a = "Create") then OpEntityCreate t
      else if decide (t = "Track" /\ a = "Update") then OpTrackUpdate
      else if decide ((t = "Track" \/ t = "Playlist") /\ a = "Delete") then OpEntityDelete t
      else if decide (t = "Grant" /\ a = "Create") then OpGrantCreate
      else if decide (t = "Grant" /\ a = "Delete") then OpGrantDelete
      else if decide (t = "Grant" /\ a = "Approve") then OpGrantDecide true
      else if decide (t = "Grant" /\ a = "Reject") then OpGrantDecide false
      else if decide (t = "DeveloperApp" /\ a = "Create") then OpAppCreate
      else if decide (t = "DeveloperApp" /\ a = "Delete") then OpAppDelete
      else OpUntracked
  | _, _ => OpUntracked
  end.

Section Spec.
Context (cpu : arch) (tx : authTx) (rules : Rules).

Definition tx_wallet : string := ToLower (Signer tx).
Definition tx_handle : string := ToLower (metaString tx "handle").
Definition tx_grantee : string := ToLower (metaString tx "grantee_address").
Definition tx_address : string := ToLower (metaString tx "address").

(** Live transactions record first assertions while content enforcement is on
    and not yet strict. *)
Definition assertion_window : bool :=
  negb (Migration tx) && ContentAuthEnforced rules && negb (ContentAuthStrict rules).

Definition id_offset (t : string) : Z := if decide (t = "Track") then 2000000 else 400000.

Definition op_guard (op : auth_op) (d : dbAuthStore) : Prop :=
  match op with
  | OpUserCreate =>
      core_auth_users d !! UserID tx = None /\ Signer tx <> "" /\
      (Migration tx = false ->
         ~ wallet_used d tx_wallet /\ ~ live_app d tx_wallet /\
         (tx_handle <> "" -> ~ handle_taken d tx_handle))
  | OpUserUpdate => authorized d (UserID tx) (Signer tx)
  | OpEntityCreate t =>
      (Migration tx = false -> id_offset t <= EntityID tx) /\
      (t = "Track" -> metaInt64 cpu tx "owner_id" = Some (UserID tx)) /\
      authorized d (UserID tx) (Signer tx) /\
      core_auth_entities d !! (t, EntityID tx) = None
  | OpTrackUpdate => assertion_window = true -> authorized d (UserID tx) (Signer tx)
  | OpEntityDelete t =>
      authorized d (UserID tx) (Signer tx) /\
      exists e, core_auth_entities d !! (t, EntityID tx) = Some e /\ EntOwnerID e = UserID tx
  | OpGrantCreate =>
      tx_grantee <> "" /\ authorized d (UserID tx) (Signer tx) /\
      (Migration tx = false ->
         (live_app d tx_grantee \/ wallet_used d tx_grantee) /\
         forall g, core_auth_grants d !! (tx_grantee, UserID tx) = Some g -> dbg_is_revoked g = true)
  | OpGrantDelete =>
      tx_grantee <> "" /\
      (exists g, core_auth_grants d !! (tx_grantee, UserID tx) = Some g /\ dbg_is_revoked g = false) /\
      (authorized d (UserID tx) (Signer tx) \/
       exists uid, wallet_owner d tx_grantee uid /\ authorized d uid (Signer tx))
  | OpGrantDecide _ =>
      tx_grantee <> "" /\ authorized d (UserID tx) (Signer tx) /\
      exists grantor g, metaInt64 cpu tx "grantor_user_id" = Some grantor /\
        core_auth_grants d !! (tx_grantee, grantor) = Some g /\
        dbg_is_revoked g = false /\ dbg_is_approved g <> Some true
  | OpAppCreate =>
      authorized d (UserID tx) (Signer tx) /\ tx_address <> "" /\
      ~ live_app d tx_address /\ ~ wallet_used d tx_address
  | OpAppDelete =>
      authorized d (UserID tx) (Signer tx) /\ tx_address <> "" /\
      exists a, core_auth_developer_apps d !! tx_address = Some a /\
        AppDeleted a = false /\ AppOwnerID a = UserID tx
  | OpUntracked => True
  end.

Definition set_handle (h : string) (r : db_user) : db_user :=
  mkDbUser (dbu_wallet r) (Some h) (dbu_is_deactivated r).
Definition set_deactivated (b : bool) (r : db_user) : db_user :=
  mkDbUser (dbu_wallet r) (dbu_handle_lc r) b.
Definition update_row (r : db_user) : db_user :=
  let r := if decide (tx_handle = "") then r else set_handle tx_handle r in
  match metaBool tx "is_deactivated" with
  | Some b => set_deactivated b r
  | None => r
  end.

(** The cids a Track transaction names. *)
Definition tx_cids : list string :=
  List.filter (fun c => negb (String.eqb c "")) (map (metaString tx) trackCidMetadataKeys).

Definition any_claim (m : gmap (string * Z) string) (c : string) : bool :=
  scan_any (fun k _ => String.eqb (fst k) c) (map_to_list m).

(** First assertion wins: a cid nobody has claimed becomes the user's. *)
Definition assert_claim (c : string) (m : gmap (string * Z) string) : gmap (string * Z) string :=
  if any_claim m c then m else <[(c, UserID tx) := ""]> m.

Definition migrated_claims (m : gmap (string * Z) string) : gmap (string * Z) string :=
  if Migration tx && bool_decide (EntityType tx = "Track") && negb (bool_decide (Signer tx = ""))
  then fold_left (fun m c => insert_new (c, UserID tx) "" m) tx_cids m else m.

Definition asserted_claims (m : gmap (string * Z) string) : gmap (string * Z) string :=
  if assertion_window && bool_decide (EntityType tx = "Track")
  then fold_left (fun m c => assert_claim c m) tx_cids m else m.

Definition op_effect (op : auth_op) (d : dbAuthStore) : dbAuthStore :=
  match op with
  | OpUserCreate =>
      set_users (insert (UserID tx)
        (mkDbUser tx_wallet (if decide (tx_handle = "") then None else Some tx_handle)
           (metaBoolOr tx "is_deactivated" false))) d
  | OpUserUpdate => set_users (alter update_row (UserID tx)) d
  | OpEntityCreate t =>
      set_cids (fun m => asserted_claims (migrated_claims m))
        (set_entities (insert (t, EntityID tx)
           (mkAuthEntityRow (UserID tx) (Migration tx && metaBoolOr tx "is_delete" false))) d)
  | OpTrackUpdate => set_cids asserted_claims d
  | OpEntityDelete t =>
      set_entities (alter (fun e => mkAuthEntityRow (EntOwnerID e) true) (t, EntityID tx)) d
  | OpGrantCreate =>
      let is_app := match core_auth_developer_apps d !! tx_grantee with
                    | Some a => negb (AppDeleted a) | None => false end in
      let derived := if is_app then Some true else None in
      set_grants (insert (tx_grantee, UserID tx)
        (if Migration tx
         then mkDbGrant (match metaBool tx "is_approved" with Some b => Some b | None => derived end)
                        (metaBoolOr tx "is_revoked" false)
         else mkDbGrant derived false)) d
  | OpGrantDelete =>
      set_grants (alter (fun g => mkDbGrant (dbg_is_approved g) true) (tx_grantee, UserID tx)) d
  | OpGrantDecide approve =>
      match metaInt64 cpu tx "grantor_user_id" with
      | Some grantor => set_grants (insert (tx_grantee, grantor) (mkDbGrant (Some approve) (negb approve))) d
      | None => d
      end
  | OpAppCreate =>
      set_apps (insert tx_address
        (mkAuthAppRow (UserID tx) (Migration tx && metaBoolOr tx "is_delete" false))) d
  | OpAppDelete => set_apps (alter (fun a => mkAuthAppRow (AppOwnerID a) true) tx_address) d
  | OpUntracked => d
  end.
End Spec.

(** No statement fails. *)
Definition healthy (d : dbAuthStore) : Prop := forall q, db_fault d q = false.

(** ** Deciding a guard

    [m] accepts exactly when [G] holds, leaving [d'], and otherwise rejects and
    leaves [d]. *)
Definition decides (d : dbAuthStore) (m : proc dbAuthStore auth_error unit) (G : Prop) (d' : dbAuthStore) :
    Prop :=
  G /\ m d = (d', Ok tt) \/ ~ G /\ exists r, m d = (d, Err (ValidationError r)).

Lemma decides_iff d m G G' d' : (G <-> G') -> decides d m G d' -> decides d m G' d'.
Proof. intros E [[? ?]|[? ?]]; [left|right]; (split; [tauto|done]). Qed.

Lemma decides_conv d m G G' d1 d' :
  decides d m G d1 -> (G <-> G') -> (G' -> d1 = d') -> decides d m G' d'.
Proof. intros [[? ?]|[? ?]] E He; [left|right]; (split; [tauto|]); [|done]. rewrite <- He by tauto. done. Qed.

Lemma decides_reject d c r : decides d (reject_if c r) (c = false) d.
Proof. unfold decides, reject_if, pfail, pret. destruct c; [right|left]; eauto. Qed.

Lemma decides_ret d : decides d (pret tt) True d.
Proof. by left. Qed.

Lemma decides_fail d r d' (G : Prop) : ~ G -> decides d (pfail (ValidationError r)) G d'.
Proof. intros H. right. split; [done|]. by exists r. Qed.

Lemma decides_query {A} d (f : dbAuthStore -> res auth_error A) a k G d' :
  f d = Ok a -> decides d (k a) G d' -> decides d (pbind (query f) k) G d'.
Proof. intros E H. unfold decides, pbind, query in *. by rewrite E. Qed.

Lemma decides_seq d m1 m2 G1 G2 d' :
  decides d m1 G1 d -> (G1 -> decides d m2 G2 d') -> decides d (m1 ;;! m2) (G1 /\ G2) d'.
Proof.
  unfold decides, pbind. intros [[H1 E1]|[H1 [r E1]]] H2; rewrite E1.
  - destruct (H2 H1) as [[? ?]|[? ?]]; [left|right]; (split; [tauto|done]).
  - right. split; [tauto|]. by exists r.
Qed.

Lemma decides_then d m1 m2 G d1 d' :
  decides d m1 G d1 -> m2 d1 = (d', Ok tt) -> decides d (m1 ;;! m2) G d'.
Proof.
  unfold decides, pbind. intros [[H1 E1]|[H1 [r E1]]] H2; rewrite E1; [left|right]; eauto.
Qed.

Lemma decides_run d m d' : m d = (d', Ok tt) -> decides d m True d'.
Proof. by left. Qed.

Lemma decides_exec d q f : healthy d -> decides d (db_exec q f) True (f d).
Proof. intros H. left. unfold db_exec. by rewrite H. Qed.

Lemma db_ask_ok {A} q d (a : A) : healthy d -> db_ask q d a = Ok a.
Proof. intros H. unfold db_ask. by rewrite H. Qed.

(** ** Row scans and their meaning *)

Section Scans.
Context (d : dbAuthStore).

Lemma wallet_used_scan w :
  scan_any (fun _ => has_wallet w) (map_to_list (core_auth_users d)) = true <-> wallet_used d w.
Proof using. rewrite scan_any_map. unfold wallet_used, has_wallet. by setoid_rewrite String.eqb_eq. Qed.

Lemma wallet_active_scan w :
  scan_any (fun _ => has_active_wallet w) (map_to_list (core_auth_users d)) = true <-> wallet_active d w.
Proof using.
  rewrite scan_any_map. unfold wallet_active, has_active_wallet.
  by setoid_rewrite andb_true_iff; setoid_rewrite String.eqb_eq; setoid_rewrite negb_true_iff.
Qed.

Lemma handle_taken_scan h :
  scan_any (fun _ => has_handle h) (map_to_list (core_auth_users d)) = true <-> handle_taken d h.
Proof using.
  rewrite scan_any_map. unfold handle_taken, has_handle.
  split; intros (uid & r & Hr & E); exists uid, r; (split; [done|]).
  - destruct (dbu_handle_lc r); [|done]. f_equal. by apply String.eqb_eq.
  - rewrite E. apply String.eqb_refl.
Qed.

Lemma live_app_match a :
  match core_auth_developer_apps d !! a with Some r => negb (AppDeleted r) | None => false end = true
  <-> live_app d a.
Proof using.
  unfold live_app. destruct (core_auth_developer_apps d !! a) as [r|]; [|naive_solver].
  rewrite negb_true_iff. naive_solver.
Qed.

Lemma wallet_owner_scan w uid :
  scan_min (has_active_wallet w) (map_to_list (core_auth_users d)) None = Some uid <-> wallet_owner d w uid.
Proof using.
  unfold wallet_owner. set (P := fun k => exists r, _).
  assert (L : least_key P (scan_min (has_active_wallet w) (map_to_list (core_auth_users d)) None)).
  { eapply least_key_ext; [|apply scan_min_map]. intros k. apply exist_proper. intros r.
    unfold has_active_wallet. by rewrite andb_true_iff, String.eqb_eq, negb_true_iff. }
  split.
  - intros E. by rewrite E in L.
  - intros H. by eapply least_key_unique.
Qed.
End Scans.

(** A boolean that reflects a proposition. *)
Lemma false_not (b : bool) (P : Prop) : (b = true <-> P) -> (b = false <-> ~ P).
Proof. destruct b; naive_solver. Qed.

Lemma false_iff (b : bool) : b = false <-> ~ b = true.
Proof. destruct b; naive_solver. Qed.

Section Signer.
Context (d : dbAuthStore) (Hd : healthy d).

Lemma authorized_dec uid signer :
  {validateAuthSigner d uid signer = Ok tt /\ authorized d uid signer} +
  {(exists r, validateAuthSigner d uid signer = Err (ValidationError r)) /\ ~ authorized d uid signer}.
Proof using Hd.
  unfold validateAuthSigner. cbn -[String.eqb ToLower]. rewrite !db_ask_ok by done.
  destruct (core_auth_users d !! uid) as [u|] eqn:Eu; cbn -[String.eqb ToLower];
    [|right; split; [by eexists|by intros (? & ? & _); congruence]].
  destruct (String.eqb_spec (dbu_wallet u) "") as [E1|E1];
    [right; split; [by eexists|by intros (? & ? & ? & _); congruence]|].
  destruct (EqualFold (dbu_wallet u) signer) eqn:E2;
    [left; split; [done|]; exists u; apply EqualFold_spec in E2; tauto|].
  assert (N2 : ToLower (dbu_wallet u) <> ToLower signer) by (by intros ?%EqualFold_spec; congruence).
  destruct (String.eqb_spec (ToLower signer) "") as [E3|E3];
    [right; split; [by eexists|]; by intros (u' & ? & _ & [?|[? _]]); [congruence|]|].
  destruct (core_auth_grants d !! (ToLower signer, uid)) as [g|] eqn:Eg; cbn -[String.eqb ToLower];
    [|right; split; [by eexists|]; intros (u' & ? & _ & [?|(_ & g & ? & _)]); congruence].
  destruct (dbg_is_revoked g) eqn:Er;
    [right; split; [by eexists|]; intros (u' & ? & _ & [?|(_ & g' & ? & ? & _)]); congruence|].
  cbn -[String.eqb ToLower].
  destruct (match core_auth_developer_apps d !! ToLower signer with
            | Some a => negb (AppDeleted a) | None => false end) eqn:Ea.
  { left. split; [done|]. apply live_app_match in Ea. exists u. split_and!; try done. right. eauto 10. }
  assert (Na : ~ live_app d (ToLower signer)) by (rewrite <- live_app_match; congruence).
  destruct (scan_any (fun _ => has_active_wallet (ToLower signer)) _) eqn:Ew; cbn -[ToLower].
  - apply wallet_active_scan in Ew. destruct (dbg_is_approved g) as [[]|] eqn:Ep; cbn.
    + left. split; [done|]. exists u. split_and!; try done. right. eauto 10.
    + right. split; [by eexists|].
      intros (u' & ? & _ & [?|(_ & g' & ? & ? & [?|[_ ?]])]); congruence.
    + right. split; [by eexists|].
      intros (u' & ? & _ & [?|(_ & g' & ? & ? & [?|[_ ?]])]); congruence.
  - right. split; [by eexists|]. intros (u' & ? & _ & [?|(_ & g' & ? & ? & [?|[Hw _]])]); try congruence.
    apply wallet_active_scan in Hw. congruence.
Qed.

Lemma decides_signer uid signer : decides d (check_signer uid signer) (authorized d uid signer) d.
Proof using Hd.
  unfold check_signer, query. destruct (authorized_dec uid signer) as [[E ?]|[[r E] ?]].
  - left. by rewrite E.
  - right. split; [done|]. exists r. by rewrite E.
Qed.

Lemma decides_revoke tx :
  decides d (query (fun st => revokeAuthorized st tx (tx_grantee tx)))
    (authorized d (UserID tx) (Signer tx) \/
     exists uid, wallet_owner d (tx_grantee tx) uid /\ authorized d uid (Signer tx)) d.
Proof using Hd.
  unfold decides, query, revokeAuthorized.
  destruct (authorized_dec (UserID tx) (Signer tx)) as [[E ?]|[[r E] N]]; rewrite E; [left; by split; [left|]|].
  cbn -[tx_grantee scan_min]. rewrite db_ask_ok by done. cbn -[tx_grantee scan_min].
  destruct (scan_min _ _ None) as [uid|] eqn:Es; cbn -[tx_grantee].
  - apply wallet_owner_scan in Es.
    destruct (authorized_dec uid (Signer tx)) as [[E' ?]|[[r' E'] N']]; rewrite E'; cbn -[tx_grantee].
    + left. split; [right; exists uid; by split|done].
    + right. split; [|by eexists]. intros [?|(uid' & Hu & ?)]; [done|].
      assert (Some uid = Some uid') by (eapply least_key_unique; eassumption). congruence.
  - right. split; [|by eexists]. intros [?|(uid' & Hu & ?)]; [done|].
    apply wallet_owner_scan in Hu. congruence.
Qed.
End Signer.

(** ** Each operation decides its guard *)

Lemma set_users_id f d : (forall m, f m = m) -> set_users f d = d.
Proof. intros H. unfold set_users. rewrite H. by destruct d. Qed.

Lemma set_cids_id f d : (forall m, f m = m) -> set_cids f d = d.
Proof. intros H. unfold set_cids. rewrite H. by destruct d. Qed.

Section Ops.
Context (cpu : arch) (tx : authTx) (rules : Rules).
Context (d : dbAuthStore) (Hd : healthy d).

Ltac ask := eapply decides_query; [apply db_ask_ok; exact Hd|].
Ltac check := apply decides_seq; [apply decides_reject|intros ?].
Ltac signed := apply decides_seq; [by apply decides_signer|intros ?].

Lemma eqb_false_neq s t : String.eqb s t = false <-> s <> t.
Proof using. apply String.eqb_neq. Qed.

Lemma bool_decide_some_false {A} (o : option A) : bool_decide (is_Some o) = false <-> o = None.
Proof using. rewrite bool_decide_eq_false, eq_None_not_Some. done. Qed.

Lemma fmap_none {A B} (f : A -> B) (o : option A) : f <$> o = None <-> o = None.
Proof using. by destruct o. Qed.

Lemma decides_handle r :
  decides d
    (if String.eqb (tx_handle tx) "" then pret tt
     else let! taken := query (fun st => HandleExists st (tx_handle tx)) in reject_if taken r)
    (tx_handle tx <> "" -> ~ handle_taken d (tx_handle tx)) d.
Proof using Hd.
  destruct (String.eqb_spec (tx_handle tx) "").
  - eapply decides_iff; [|apply decides_ret]. tauto.
  - ask. eapply decides_iff; [|apply decides_reject].
    rewrite (false_not _ _ (handle_taken_scan d _)). tauto.
Qed.

(** The checks a live user creation makes. *)
Lemma decides_live_user :
  decides d
    (if Migration tx then pret tt
     else
       let! used := query (fun st => WalletExists st (tx_wallet tx)) in
       reject_if used (WalletInUse (tx_wallet tx)) ;;!
       let! app := query (fun st => GetApp st (tx_wallet tx)) in
       reject_if (match app with Some a => negb (AppDeleted a) | None => false end)
         (AppCannotCreateUser (tx_wallet tx)) ;;!
       if String.eqb (tx_handle tx) "" then pret tt
       else
         let! taken := query (fun st => HandleExists st (tx_handle tx)) in
         reject_if taken (HandleAlreadyExists (tx_handle tx)))
    (Migration tx = false -> ~ wallet_used d (tx_wallet tx) /\ ~ live_app d (tx_wallet tx) /\
       (tx_handle tx <> "" -> ~ handle_taken d (tx_handle tx))) d.
Proof using Hd.
  destruct (Migration tx); [eapply decides_iff; [|apply decides_ret]; split; done|].
  ask. eapply decides_conv; [check; ask; check; apply decides_handle| |done].
  rewrite (false_not _ _ (wallet_used_scan d _)), (false_not _ _ (live_app_match d _)). tauto.
Qed.

Lemma decides_UserCreate :
  decides d (projectUserCreate tx) (op_guard cpu tx rules OpUserCreate d) (op_effect cpu tx rules OpUserCreate d).
Proof using Hd.
  unfold projectUserCreate. ask. eapply decides_conv.
  - check. check. eapply decides_seq; [apply decides_live_user|intros _]. by apply decides_exec.
  - rewrite bool_decide_some_false, fmap_none, eqb_false_neq, ToLower_empty. simpl. tauto.
  - intros (Hn & _). unfold op_effect, set_users. rewrite insert_new_fresh by done.
    unfold tx_handle. by destruct (String.eqb_spec (ToLower (metaString tx "handle")) ""), (decide _).
Qed.

Lemma exec_ok q f : db_exec q f d = (f d, Ok tt).
Proof using Hd. unfold db_exec. by rewrite Hd. Qed.

Lemma exec_set_users_ok q f g : db_exec q f (set_users g d) = (f (set_users g d), Ok tt).
Proof using Hd. unfold db_exec. simpl. by rewrite Hd. Qed.

Lemma decides_UserUpdate :
  decides d (projectUserUpdate tx) (op_guard cpu tx rules OpUserUpdate d) (op_effect cpu tx rules OpUserUpdate d).
Proof using Hd.
  unfold projectUserUpdate. eapply decides_conv; [signed; apply decides_run| |].
  - instantiate (1 := op_effect cpu tx rules OpUserUpdate d).
    unfold op_effect, update_row, tx_handle, pbind.
    destruct (decide (ToLower (metaString tx "handle") = "")) as [E|E]; rewrite ToLower_empty in E;
      destruct (String.eqb_spec (metaString tx "handle") "") as [E'|E']; try done; cbv iota beta.
    + destruct (metaBool tx "is_deactivated") as [b|]; [apply exec_ok|].
      rewrite set_users_id; [done|]. intros m. apply map_eq. intros j. rewrite lookup_alter.
      case_decide; [subst; by destruct (m !! UserID tx)|done].
    + setoid_rewrite exec_ok. destruct (metaBool tx "is_deactivated") as [b|]; [|done].
      setoid_rewrite exec_set_users_ok. unfold set_users. simpl. by rewrite alter_alter_eq.
  - simpl. tauto.
  - done.
Qed.

(** A loop of claim insertions is a fold over the cids it names. *)
Lemma for_each_claims (step : string -> proc dbAuthStore auth_error unit)
    (f : string -> gmap (string * Z) string -> gmap (string * Z) string) keys d1 :
  healthy d1 ->
  (forall d2 c, healthy d2 -> c <> "" -> step c d2 = (set_cids (f c) d2, Ok tt)) ->
  for_each (fun key => let cid := metaString tx key in
                       if String.eqb cid "" then pret tt else step cid) keys d1
  = (set_cids (fun m => fold_left (fun m c => f c m)
        (List.filter (fun c => negb (String.eqb c "")) (map (metaString tx) keys)) m) d1, Ok tt).
Proof using.
  intros H1 Hstep. revert d1 H1. induction keys as [|k keys IH]; intros d1 H1; simpl.
  - by rewrite set_cids_id.
  - unfold pbind. destruct (String.eqb_spec (metaString tx k) "") as [E|E]; simpl.
    + rewrite IH by done. done.
    + rewrite Hstep by done. rewrite IH by done. done.
Qed.

Lemma migrated_run d1 :
  healthy d1 -> projectMigratedTrackCids tx d1 = (set_cids (migrated_claims tx) d1, Ok tt).
Proof using.
  intros H1. unfold projectMigratedTrackCids, migrated_claims, authEntityTypeTrack.
  destruct (Migration tx); cbn [negb orb andb]; [|by rewrite set_cids_id].
  destruct (String.eqb_spec (EntityType tx) "Track"); cbn [negb orb andb];
    [rewrite bool_decide_true by done|rewrite bool_decide_false by done; by rewrite set_cids_id].
  destruct (String.eqb_spec (ToLower (Signer tx)) "") as [E|E]; rewrite ToLower_empty in E; cbn [negb orb andb];
    [rewrite bool_decide_true by done; by rewrite set_cids_id|rewrite bool_decide_false by done; cbn [negb orb andb]].
  apply (for_each_claims (fun c => InsertCid c (UserID tx) "") (fun c => insert_new (c, UserID tx) "")); [done|].
  intros d2 c H2 _. cbn. unfold db_exec. by rewrite H2.
Qed.

Lemma asserted_run d1 :
  healthy d1 -> projectAssertedTrackCids tx rules d1 = (set_cids (asserted_claims tx rules) d1, Ok tt).
Proof using.
  intros H1. unfold projectAssertedTrackCids, asserted_claims, assertion_window, authEntityTypeTrack.
  destruct (Migration tx); cbn [negb orb andb]; [by rewrite set_cids_id|].
  destruct (ContentAuthEnforced rules); cbn [negb orb andb]; [|by rewrite set_cids_id].
  destruct (ContentAuthStrict rules); cbn [negb orb andb]; [by rewrite set_cids_id|].
  destruct (String.eqb_spec (EntityType tx) "Track"); cbn [negb orb andb];
    [rewrite bool_decide_true by done|rewrite bool_decide_false by done; by rewrite set_cids_id].
  apply (for_each_claims (fun c => let! known := query (fun st => CidIsClaimed st c) in
           if known then pret tt else InsertCid c (UserID tx) "") (assert_claim tx)); [done|].
  intros d2 c H2 _. unfold pbind, query. cbn. rewrite db_ask_ok by done. unfold assert_claim, set_cids, any_claim.
  destruct (scan_any _ _) eqn:E; [by destruct d2|]. unfold db_exec. rewrite H2. unfold set_cids.
  rewrite insert_new_fresh; [done|]. rewrite scan_any_false in E.
  destruct (core_auth_cids d2 !! (c, UserID tx)) eqn:El; [|done].
  specialize (E _ _ El). simpl in E. by rewrite String.eqb_refl in E.
Qed.

Lemma decides_EntityCreate t :
  t = "Track" \/ t = "Playlist" ->
  decides d
    (projectEntityCreate cpu tx t ;;! projectMigratedTrackCids tx ;;! projectAssertedTrackCids tx rules)
    (op_guard cpu tx rules (OpEntityCreate t) d) (op_effect cpu tx rules (OpEntityCreate t) d).
Proof using Hd.
  intros Ht. unfold projectEntityCreate. eapply decides_then.
  - eapply decides_conv.
    + apply decides_seq; [|intros _].
      { instantiate (1 := Migration tx = false -> id_offset t <= EntityID tx).
        destruct (Migration tx); [eapply decides_iff; [|apply decides_ret]; split; done|].
        eapply decides_iff; [|apply decides_reject]. unfold id_offset, authEntityTypeTrack.
        rewrite Z.ltb_ge. destruct (String.eqb_spec t "Track"), (decide (t = "Track")); try done; tauto. }
      apply decides_seq; [|intros _].
      { instantiate (1 := t = "Track" -> metaInt64 cpu tx "owner_id" = Some (UserID tx)).
        unfold authEntityTypeTrack. destruct (String.eqb_spec t "Track").
        - eapply decides_iff; [|apply decides_reject]. rewrite negb_false_iff, bool_decide_eq_true. tauto.
        - eapply decides_iff; [|apply decides_ret]. tauto. }
      signed. ask. check. by apply decides_exec.
    + rewrite bool_decide_some_false. simpl. tauto.
    + intros (_ & _ & _ & Hn). unfold set_entities. by rewrite insert_new_fresh.
  - unfold pbind. rewrite migrated_run by done. rewrite asserted_run by done. done.
Qed.

Lemma decides_TrackUpdate :
  decides d
    (if Migration tx || negb (ContentAuthEnforced rules) || ContentAuthStrict rules then pret tt
     else check_signer (UserID tx) (Signer tx) ;;! projectAssertedTrackCids tx rules)
    (op_guard cpu tx rules OpTrackUpdate d) (op_effect cpu tx rules OpTrackUpdate d).
Proof using Hd.
  unfold op_guard, op_effect.
  replace (Migration tx || negb (ContentAuthEnforced rules) || ContentAuthStrict rules)
    with (negb (assertion_window tx rules))
    by (unfold assertion_window; by destruct (Migration tx), (ContentAuthEnforced rules), (ContentAuthStrict rules)).
  destruct (assertion_window tx rules) eqn:E; simpl.
  - eapply decides_then; [eapply decides_iff; [|by apply decides_signer]; tauto|]. by apply asserted_run.
  - eapply decides_conv; [apply decides_ret|split; done|]. intros _.
    rewrite set_cids_id; [done|]. intros m. unfold asserted_claims. by rewrite E.
Qed.

Lemma decides_EntityDelete t :
  decides d (projectEntityDelete tx t)
    (op_guard cpu tx rules (OpEntityDelete t) d) (op_effect cpu tx rules (OpEntityDelete t) d).
Proof using Hd.
  unfold projectEntityDelete, op_guard. signed. ask.
  destruct (core_auth_entities d !! (t, EntityID tx)) as [e|] eqn:E;
    [|apply decides_fail; by intros (? & ? & _)].
  eapply decides_conv; [check; by apply decides_exec| |done].
  rewrite negb_false_iff, Z.eqb_eq. naive_solver.
Qed.

Lemma decides_GrantCreate :
  decides d (projectGrantCreate tx)
    (op_guard cpu tx rules OpGrantCreate d) (op_effect cpu tx rules OpGrantCreate d).
Proof using Hd.
  unfold projectGrantCreate, op_guard, op_effect, projectMigratedGrantCreate.
  eapply decides_conv; [check; signed; ask| |done].
  - instantiate (1 := Migration tx = false ->
         (live_app d (tx_grantee tx) \/ wallet_used d (tx_grantee tx)) /\
         forall g, core_auth_grants d !! (tx_grantee tx, UserID tx) = Some g -> dbg_is_revoked g = true).
    destruct (Migration tx).
    + eapply decides_conv; [by apply decides_exec|split; done|done].
    + ask. eapply decides_conv; [check; ask; check; by apply decides_exec| |done].
      rewrite <- negb_orb, negb_false_iff, orb_true_iff.
      setoid_rewrite live_app_match. rewrite wallet_used_scan. fold (tx_grantee tx).
      destruct (core_auth_grants d !! (tx_grantee tx, UserID tx)) as [g|]; simpl; [|naive_solver].
      rewrite negb_false_iff. naive_solver.
  - rewrite eqb_false_neq. tauto.
Qed.

Lemma decides_GrantDelete :
  decides d (projectGrantDelete tx)
    (op_guard cpu tx rules OpGrantDelete d) (op_effect cpu tx rules OpGrantDelete d).
Proof using Hd.
  unfold projectGrantDelete, op_guard, op_effect.
  eapply decides_conv; [check; ask| |intros; reflexivity].
  - fold (tx_grantee tx). instantiate (1 := (exists g, core_auth_grants d !! (tx_grantee tx, UserID tx) = Some g /\ dbg_is_revoked g = false) /\
      (authorized d (UserID tx) (Signer tx) \/
       exists uid, wallet_owner d (tx_grantee tx) uid /\ authorized d uid (Signer tx))).
    destruct (core_auth_grants d !! (tx_grantee tx, UserID tx)) as [g|] eqn:E; cbn [fmap option_fmap option_map];
      [|apply decides_fail; by intros [(? & ? & _) _]].
    eapply decides_conv; [check; apply decides_seq; [by apply decides_revoke|intros _]; by apply decides_exec| |].
    + simpl. naive_solver.
    + intros _. unfold set_grants. by erewrite alter_lookup_Some.
  - rewrite eqb_false_neq. tauto.
Qed.

Lemma decides_GrantDecide b :
  decides d (projectGrantApproveReject cpu tx b)
    (op_guard cpu tx rules (OpGrantDecide b) d) (op_effect cpu tx rules (OpGrantDecide b) d).
Proof using Hd.
  unfold projectGrantApproveReject, op_guard, op_effect.
  eapply decides_conv; [check; signed| |intros; reflexivity]; [|rewrite eqb_false_neq; reflexivity].
  fold (tx_grantee tx). destruct (metaInt64 cpu tx "grantor_user_id") as [grantor|];
    [|apply decides_fail; by intros (? & ? & ? & _)].
  ask. destruct (core_auth_grants d !! (tx_grantee tx, grantor)) as [g|] eqn:E; cbn [fmap option_fmap option_map];
    [|apply decides_fail; intros (? & ? & ? & ? & _); congruence].
  eapply decides_conv; [check; check; by apply decides_exec| |done]. simpl.
  split.
  - intros (? & Ha & _). exists grantor, g. split_and!; try done. by destruct (dbg_is_approved g) as [[]|].
  - intros (? & g' & [= <-] & Eg & ? & ?). rewrite E in Eg. injection Eg as <-. split_and!; try done.
    by destruct (dbg_is_approved g) as [[]|].
Qed.

Lemma decides_AppCreate :
  decides d (projectAppCreate tx)
    (op_guard cpu tx rules OpAppCreate d) (op_effect cpu tx rules OpAppCreate d).
Proof using Hd.
  unfold projectAppCreate, op_guard, op_effect. fold (tx_address tx).
  eapply decides_conv;
    [signed; check; ask; check; ask; check; apply (decides_run d _ (op_effect cpu tx rules OpAppCreate d))| |done].
  - unfold pbind. setoid_rewrite exec_ok. unfold op_effect.
    destruct (Migration tx && metaBoolOr tx "is_delete" false); [|done].
    cbn. unfold db_exec. simpl. rewrite Hd. unfold set_apps. simpl.
    do 2 f_equal. erewrite alter_lookup_Some by apply lookup_insert_eq. by rewrite insert_insert_eq.
  - rewrite eqb_false_neq. rewrite (false_not _ _ (live_app_match d _)), (false_not _ _ (wallet_used_scan d _)).
    tauto.
Qed.

Lemma decides_AppDelete :
  decides d (projectAppDelete tx)
    (op_guard cpu tx rules OpAppDelete d) (op_effect cpu tx rules OpAppDelete d).
Proof using Hd.
  unfold projectAppDelete, op_guard, op_effect. fold (tx_address tx).
  eapply decides_conv; [signed; check; ask| |intros; reflexivity]; [|rewrite eqb_false_neq; reflexivity].
  destruct (core_auth_developer_apps d !! tx_address tx) as [a|] eqn:E;
    [|apply decides_fail; by intros (? & ? & _)].
  eapply decides_conv; [check; check; by apply decides_exec| |done].
  rewrite negb_false_iff, Z.eqb_eq. naive_solver.
Qed.
End Ops.

Lemma canonical_In names s t : canonical names s = Some t -> t ∈ names.
Proof. intros [H _]%find_some. by apply list_elem_of_In. Qed.

(** The canonical entity types and actions. *)
Lemma canonical_type_cases s t :
  canonicalAuthEntityType s = Some t ->
  t = "User" \/ t = "Track" \/ t = "Playlist" \/ t = "Grant" \/ t = "DeveloperApp".
Proof. intros H%canonical_In. set_unfold. naive_solver. Qed.

Lemma canonical_action_cases s a :
  canonicalAuthAction s = Some a ->
  a = "Create" \/ a = "Update" \/ a = "Delete" \/ a = "Approve" \/ a = "Reject".
Proof. intros H%canonical_In. set_unfold. naive_solver. Qed.

Lemma applyAuthProjection_decides cpu tx rules d :
  healthy d ->
  decides d (applyAuthProjection cpu tx rules)
    (op_guard cpu tx rules (classify tx) d) (op_effect cpu tx rules (classify tx) d).
Proof.
  intros Hd. unfold applyAuthProjection, classify.
  destruct (canonicalAuthEntityType _) as [t|] eqn:Et; [|apply decides_ret].
  destruct (canonicalAuthAction _) as [a|] eqn:Ea; [|apply decides_ret].
  apply canonical_type_cases in Et as [->|[->|[->|[->| ->]]]];
    apply canonical_action_cases in Ea as [->|[->|[->|[->| ->]]]];
    repeat (rewrite decide_True by tauto || rewrite decide_False by (intros [? ?]; naive_solver));
    cbn -[op_guard op_effect projectEntityCreate];
    first [ by apply decides_UserCreate | by apply decides_UserUpdate
          | by apply decides_EntityCreate; auto | by apply decides_TrackUpdate | by apply decides_EntityDelete
          | by apply decides_GrantCreate | by apply decides_GrantDelete | by apply decides_GrantDecide
          | by apply decides_AppCreate | by apply decides_AppDelete | apply decides_ret ].
Qed.
