(* ===== verification/AuthRefine.v ===== *)
(** * The proposal overlay refines the block store

    [overlayAuthStore] over the committed tables and [dbAuthStore] over the
    block's tables are related by [refines]; the relation is an instance of the
    interface of [AuthSim], so the projection preserves it and the two agree on
    verdicts. *)

From stdpp Require Import base gmap strings list fin_maps.
From Stdlib Require Import ZArith Lia.
From S2P Require Import Prelude Upgrades AuthState AuthStores AuthSim AuthSpec.

Open Scope string_scope.
Open Scope Z_scope.

(** No two users of the table share a wallet. *)
Definition unique_wallets (m : gmap Z db_user) : Prop :=
  forall i j u v, m !! i = Some u -> m !! j = Some v -> dbu_wallet u = dbu_wallet v -> i = j.

(** The overlay's row, or the committed one. *)
Definition merged {A} (row committed : option A) : option A :=
  match row with
  | Some r => Some r
  | None => committed
  end.

Notation overlay := (overlayAuthStore dbAuthStore).

Section Refine.
(** The committed store the overlay was opened on. *)
Context (committed_store : dbAuthStore).

(** The block store's tables are the overlay's rows over the committed ones.
    Queries of the block store do not fail; those of the committed store may. *)
Record refines (o : overlay) (d : dbAuthStore) : Prop := {
  ref_base : base o = committed_store;
  ref_users uid : user_of_db <$> core_auth_users d !! uid =
    merged (users o !! uid) (user_of_db <$> core_auth_users (base o) !! uid);
  ref_grants k : grant_of_db <$> core_auth_grants d !! k =
    merged (grants o !! k) (grant_of_db <$> core_auth_grants (base o) !! k);
  ref_apps a : core_auth_developer_apps d !! a =
    merged (apps o !! a) (core_auth_developer_apps (base o) !! a);
  ref_entities k : core_auth_entities d !! k =
    merged (entities o !! k) (core_auth_entities (base o) !! k);
  ref_cids k : is_Some (core_auth_cids d !! k) <-> k ∈ cids o \/ is_Some (core_auth_cids (base o) !! k);
  ref_wallet uid u b : users o !! uid = Some u -> core_auth_users (base o) !! uid = Some b ->
    Wallet u = dbu_wallet b;
  ref_unique : unique_wallets (core_auth_users d);
  ref_healthy q : db_fault d q = false
}.

(** No user active in the committed tables is deactivated in the overlay. *)
Definition no_stale_active (o : overlay) : Prop :=
  forall uid u b, users o !! uid = Some u -> core_auth_users (base o) !! uid = Some b ->
    dbu_is_deactivated b = false -> Deactivated u = false.

(** No user has given up a committed handle in the overlay. *)
Definition no_stale_handle (o : overlay) : Prop :=
  forall uid u b, users o !! uid = Some u -> core_auth_users (base o) !! uid = Some b ->
    HandleLC (user_of_db b) <> "" -> HandleLC u = HandleLC (user_of_db b).

(** ** Rows of the block store *)

Section Rows.
Context (o : overlay) (d : dbAuthStore) (HR : refines o d).

(** A row of the block store comes from the overlay or from the committed table. *)
Lemma refines_user_inv uid r :
  core_auth_users d !! uid = Some r ->
  users o !! uid = Some (user_of_db r) \/
  users o !! uid = None /\ exists b, core_auth_users (base o) !! uid = Some b /\ user_of_db r = user_of_db b.
Proof using HR.
  intros H. pose proof (ref_users _ _ HR uid) as E. rewrite H in E. simpl in E.
  destruct (users o !! uid) as [u|]; simpl in E; [left; congruence|right].
  destruct (core_auth_users (base o) !! uid) as [b|]; simpl in E; [|done].
  split; [done|]. exists b. split; congruence.
Qed.

Lemma refines_overlay_user uid u :
  users o !! uid = Some u -> exists r, core_auth_users d !! uid = Some r /\ user_of_db r = u.
Proof using HR.
  intros H. pose proof (ref_users _ _ HR uid) as E. rewrite H in E. simpl in E.
  destruct (core_auth_users d !! uid) as [r|]; simpl in E; [|done]. exists r. split; congruence.
Qed.

Lemma refines_base_user uid b :
  users o !! uid = None -> core_auth_users (base o) !! uid = Some b ->
  exists r, core_auth_users d !! uid = Some r /\ user_of_db r = user_of_db b.
Proof using HR.
  intros H1 H2. pose proof (ref_users _ _ HR uid) as E. rewrite H1, H2 in E. simpl in E.
  destruct (core_auth_users d !! uid) as [r|]; simpl in E; [|done]. exists r. split; congruence.
Qed.

(** A committed row's wallet is still the user's wallet in the block store. *)
Lemma refines_wallet_kept uid b :
  core_auth_users (base o) !! uid = Some b ->
  exists r, core_auth_users d !! uid = Some r /\ dbu_wallet r = dbu_wallet b.
Proof using HR.
  intros Hb. destruct (users o !! uid) as [u|] eqn:Hu.
  - destruct (refines_overlay_user _ _ Hu) as (r & Hr & <-). exists r. split; [done|].
    by apply (ref_wallet _ _ HR _ _ _ Hu).
  - destruct (refines_base_user _ _ Hu Hb) as (r & Hr & E). exists r. split; [done|].
    by apply (f_equal Wallet) in E.
Qed.

Lemma db_ask_healthy {A} q (a : A) : db_ask q d a = Ok a.
Proof using HR. unfold db_ask. by rewrite (ref_healthy _ _ HR). Qed.
End Rows.

(** The right store answers [v]: relate it to a left query that may fail. *)
Lemma qsim_ask {A} q (b : dbAuthStore) (v w : A) : v = w -> qsim (db_ask q b w) (Ok v).
Proof. intros ->. unfold db_ask. destruct (db_fault b q); [by left|by right]. Qed.

Lemma qsim_or_base {A} q (b d : dbAuthStore) (row committed : option A) (v : option A) q' :
  db_fault d q' = false -> v = merged row committed ->
  qsim (or_base row (db_ask q b committed)) (db_ask q' d v).
Proof.
  intros Hf ->. unfold db_ask at 2. rewrite Hf. destruct row; simpl; [by right|by apply qsim_ask].
Qed.

Lemma has_active_wallet_spec w r :
  has_active_wallet w r = true <-> dbu_wallet r = w /\ dbu_is_deactivated r = false.
Proof. unfold has_active_wallet. by rewrite andb_true_iff, String.eqb_eq, negb_true_iff. Qed.

Lemma has_wallet_spec w r : has_wallet w r = true <-> dbu_wallet r = w.
Proof. apply String.eqb_eq. Qed.

Lemma has_handle_spec h r : h <> "" -> has_handle h r = true <-> HandleLC (user_of_db r) = h.
Proof.
  intros Hh. unfold has_handle, user_of_db. simpl. destruct (dbu_handle_lc r); simpl.
  - apply String.eqb_eq.
  - split; [done|]. intros <-. done.
Qed.

(** Two scans agree when their row predicates do. *)
Lemma bool_ext (b c : bool) : (b = true <-> c = true) -> b = c.
Proof. destruct b, c; naive_solver. Qed.

Section Queries.
Context (o : overlay) (d : dbAuthStore) (HR : refines o d).

Lemma refines_WalletExists w : qsim (WalletExists o w) (WalletExists d w).
Proof using HR.
  cbn. rewrite (db_ask_healthy o d HR). destruct (scan_any _ (map_to_list (users o))) eqn:E.
  - apply scan_any_map in E as (uid & u & Hu & Hw%String.eqb_eq). right. f_equal.
    apply scan_any_map. destruct (refines_overlay_user o d HR _ _ Hu) as (r & Hr & <-).
    exists uid, r. split; [done|]. by apply has_wallet_spec.
  - apply qsim_ask, bool_ext. rewrite !scan_any_map. setoid_rewrite has_wallet_spec. split.
    + intros (uid & r & Hr & <-).
      destruct (refines_user_inv o d HR _ _ Hr) as [Hu|(_ & b & Hb & Eb)].
      * rewrite scan_any_false in E. specialize (E _ _ Hu). by apply String.eqb_neq in E.
      * exists uid, b. split; [done|]. by apply (f_equal Wallet) in Eb.
    + intros (uid & b & Hb & <-). destruct (refines_wallet_kept o d HR _ _ Hb) as (r & ? & ?). eauto.
Qed.

Lemma refines_ActiveWalletExists w : qsim (ActiveWalletExists o w) (ActiveWalletExists d w).
Proof using HR.
  cbn. rewrite (db_ask_healthy o d HR). destruct (scan_active w (map_to_list (users o)) false) as [[]|] eqn:E.
  - apply scan_active_map_true in E as (uid & u & Hu & Hw & Ha). right. f_equal. apply scan_any_map.
    destruct (refines_overlay_user o d HR _ _ Hu) as (r & Hr & <-).
    exists uid, r. split; [done|]. by apply has_active_wallet_spec.
  - right. f_equal. apply scan_any_false. intros uid r Hr. apply not_true_iff_false.
    intros [Hw Ha]%has_active_wallet_spec.
    assert (exists uid' u', users o !! uid' = Some u' /\ Wallet u' = w) as (uid' & u' & Hu' & Hw').
    { destruct (scan_any (fun _ u => String.eqb (Wallet u) w) (map_to_list (users o))) eqn:Es.
      - apply scan_any_map in Es as (? & ? & ? & ?%String.eqb_eq). eauto.
      - exfalso. assert (scan_active w (map_to_list (users o)) false = None) as HN; [|congruence].
        apply scan_active_map_none. intros k u Hk. apply String.eqb_neq.
        by apply (proj1 (scan_any_false _ _) Es k u). }
    destruct (refines_overlay_user o d HR _ _ Hu') as (r' & Hr' & <-).
    assert (uid = uid') as <- by (eapply (ref_unique o d HR); [done|done|]; simpl in Hw'; congruence).
    assert (r' = r) as -> by congruence.
    assert (scan_active w (map_to_list (users o)) false = Some true) as HT; [|congruence].
    apply scan_active_map_true. eauto.
  - apply qsim_ask, bool_ext. rewrite scan_active_map_none in E. rewrite !scan_any_map.
    setoid_rewrite has_active_wallet_spec. split.
    + intros (uid & r & Hr & <- & Ha).
      destruct (refines_user_inv o d HR _ _ Hr) as [Hu|(_ & b & Hb & Eb)]; [by destruct (E _ _ Hu)|].
      exists uid, b. split; [done|].
      split; [by apply (f_equal Wallet) in Eb|apply (f_equal Deactivated) in Eb; simpl in Eb; congruence].
    + intros (uid & b & Hb & <- & Ha). destruct (users o !! uid) as [u|] eqn:Hu.
      * destruct (E _ _ Hu). by apply (ref_wallet o d HR uid).
      * destruct (refines_base_user o d HR _ _ Hu Hb) as (r & Hr & Er). exists uid, r. split; [done|].
        split; [by apply (f_equal Wallet) in Er|apply (f_equal Deactivated) in Er; simpl in Er; congruence].
Qed.

Lemma refines_GetUserIDByWallet w :
  no_stale_active o -> qsim (GetUserIDByWallet o w) (GetUserIDByWallet d w).
Proof using HR.
  intros Hex. cbn. rewrite (db_ask_healthy o d HR).
  pose proof (scan_min_map (has_active_wallet w) (core_auth_users d)) as Ld.
  pose proof (scan_min_map (fun u => String.eqb (Wallet u) w && negb (Deactivated u)) (users o)) as Lo.
  destruct (scan_min _ (map_to_list (users o)) None) as [uid|]; cbn [or_base].
  - right. f_equal. eapply least_key_unique; [exact Ld|]. simpl. destruct Lo as [(u & Hu & Hw) _].
    apply andb_prop in Hw as [Hw%String.eqb_eq Ha%negb_true_iff].
    destruct (refines_overlay_user o d HR _ _ Hu) as (r & Hr & <-). split.
    + exists r. split; [done|]. by apply has_active_wallet_spec.
    + intros uid' (r' & Hr' & [Hw' Ha']%has_active_wallet_spec).
      cut (uid = uid'); [lia|]. eapply (ref_unique o d HR); [done|done|]. simpl in Hw. congruence.
  - apply qsim_ask. eapply least_key_unique; [exact Ld|].
    eapply least_key_ext; [|apply scan_min_map]. intros uid. setoid_rewrite has_active_wallet_spec. split.
    + intros (b & Hb & Hw & Ha). destruct (users o !! uid) as [u|] eqn:Hu.
      * exfalso. apply (Lo uid). exists u. split; [done|].
        rewrite (ref_wallet o d HR _ _ _ Hu Hb), Hw, String.eqb_refl. by rewrite (Hex _ _ _ Hu Hb Ha).
      * destruct (refines_base_user o d HR _ _ Hu Hb) as (r & Hr & Er). exists r. split; [done|].
        split; [apply (f_equal Wallet) in Er|apply (f_equal Deactivated) in Er]; simpl in Er; congruence.
    + intros (r & Hr & Hw & Ha).
      destruct (refines_user_inv o d HR _ _ Hr) as [Hu|(_ & b & Hb & Eb)].
      * exfalso. apply (Lo uid). exists (user_of_db r). split; [done|]. simpl.
        by rewrite Hw, String.eqb_refl, Ha.
      * exists b. split; [done|].
        split; [apply (f_equal Wallet) in Eb|apply (f_equal Deactivated) in Eb]; simpl in Eb; congruence.
Qed.

Lemma refines_HandleExists h :
  h <> "" -> no_stale_handle o -> qsim (HandleExists o h) (HandleExists d h).
Proof using HR.
  intros Hh Hex. cbn. rewrite (db_ask_healthy o d HR).
  destruct (scan_any _ (map_to_list (users o))) eqn:E.
  - apply scan_any_map in E as (uid & u & Hu & Hw%String.eqb_eq). right. f_equal. apply scan_any_map.
    destruct (refines_overlay_user o d HR _ _ Hu) as (r & Hr & <-).
    exists uid, r. split; [done|]. by apply has_handle_spec.
  - apply qsim_ask, bool_ext. rewrite !scan_any_map. setoid_rewrite has_handle_spec; [|done..]. split.
    + intros (uid & r & Hr & Er).
      destruct (refines_user_inv o d HR _ _ Hr) as [Hu|(_ & b & Hb & Eb)]; [|rewrite Eb in Er; eauto].
      rewrite scan_any_false in E. specialize (E _ _ Hu). by apply String.eqb_neq in E.
    + intros (uid & b & Hb & Eb). destruct (users o !! uid) as [u|] eqn:Hu.
      * exfalso. rewrite scan_any_false in E. specialize (E _ _ Hu). apply String.eqb_neq in E.
        apply E. rewrite <- Eb. apply (Hex uid u b); congruence.
      * destruct (refines_base_user o d HR _ _ Hu Hb) as (r & Hr & Er). exists uid, r. split; [done|].
        by rewrite Er.
Qed.

Lemma refines_HandleFree h :
  h <> "" -> HandleExists o h = Ok false -> HandleExists d h = Ok false.
Proof using HR.
  intros Hh. cbn. rewrite (db_ask_healthy o d HR).
  destruct (scan_any _ (map_to_list (users o))) eqn:E; [done|]. unfold db_ask.
  destruct (db_fault _ _); [done|]. intros [= Eb]. f_equal.
  rewrite scan_any_false in E. rewrite scan_any_false in Eb. apply scan_any_false. intros uid r Hr. apply not_true_iff_false.
  rewrite has_handle_spec by done. intros Er.
  destruct (refines_user_inv o d HR _ _ Hr) as [Hu|(_ & b & Hb & Ebr)].
  - specialize (E _ _ Hu). by apply String.eqb_neq in E.
  - specialize (Eb _ _ Hb). apply not_true_iff_false in Eb. apply Eb. apply has_handle_spec; congruence.
Qed.

Lemma refines_CidIsClaimed c : qsim (CidIsClaimed o c) (CidIsClaimed d c).
Proof using HR.
  cbn. rewrite (db_ask_healthy o d HR). destruct (existsb _ (elements (cids o))) eqn:E.
  - apply existsb_cids in E as (uid & Hin). right. f_equal. apply scan_any_map.
    destruct (proj2 (ref_cids o d HR (c, uid))) as [v Hv]; [by left|].
    exists (c, uid), v. split; [done|apply String.eqb_refl].
  - apply qsim_ask, bool_ext. rewrite !scan_any_map. split.
    + intros ([c' uid] & v & Hv & Hc). destruct (proj1 (ref_cids o d HR (c', uid))) as [Hin|[v' Hv']]; [by eexists| |eauto].
      simpl in Hc. apply String.eqb_eq in Hc as ->. exfalso. apply not_true_iff_false in E. apply E.
      apply existsb_cids. eauto.
    + intros (k & v & Hv & Hc). destruct (proj2 (ref_cids o d HR k)) as [v' Hv']; [right; by eexists|eauto].
Qed.

Lemma refines_IsCidClaimedByUser c uid :
  qsim (IsCidClaimedByUser o c uid) (IsCidClaimedByUser d c uid).
Proof using HR.
  cbn. rewrite (db_ask_healthy o d HR). pose proof (ref_cids o d HR (c, uid)) as Hc.
  case_bool_decide as Hin.
  - right. f_equal. apply bool_decide_eq_true. tauto.
  - apply qsim_ask, bool_decide_ext. tauto.
Qed.
End Queries.

(** ** Writes *)

Lemma refines_put_user o d uid u r :
  refines o d -> user_of_db r = u ->
  (forall b, core_auth_users (base o) !! uid = Some b -> Wallet u = dbu_wallet b) ->
  (forall j v, core_auth_users d !! j = Some v -> dbu_wallet v = dbu_wallet r -> j = uid) ->
  refines (put_user uid u o) (set_users (<[uid := r]>) d).
Proof.
  intros HR Hu Hbase Huniq. destruct HR as [H0 H1 H2 H3 H4 H5 H6 H7 H8]. split; simpl; try done.
  - intros j. rewrite !lookup_insert. case_decide; [simpl; congruence|apply H1].
  - intros j v b. rewrite lookup_insert. case_decide; [intros; simplify_eq; eauto|eauto].
  - intros i j v w. rewrite !lookup_insert.
    do 2 case_decide; intros; simplify_eq; eauto; symmetry; eapply Huniq; eauto.
Qed.

Lemma refines_put_grant o d k g r :
  refines o d -> grant_of_db r = g -> refines (put_grant k g o) (set_grants (<[k := r]>) d).
Proof.
  intros [] <-. split; simpl; try done. intros j. rewrite !lookup_insert. by case_decide.
Qed.

Lemma refines_put_app o d a r : refines o d -> refines (put_app a r o) (set_apps (<[a := r]>) d).
Proof. intros []. split; simpl; try done. intros j. rewrite !lookup_insert. by case_decide. Qed.

Lemma refines_put_entity o d k r : refines o d -> refines (put_entity k r o) (set_entities (<[k := r]>) d).
Proof. intros []. split; simpl; try done. intros j. rewrite !lookup_insert. by case_decide. Qed.

Lemma refines_put_cid o d k h : refines o d -> refines (put_cid k o) (set_cids (insert_new k h) d).
Proof.
  intros [? ? ? ? ? Hc ? ? ?]. split; simpl; try done. intros j. rewrite insert_new_lookup.
  specialize (Hc j). destruct (core_auth_cids d !! j) eqn:E.
  - split; [|by eexists]. intros _. destruct Hc as [Hc _]. destruct Hc as [?|?]; [by eexists|set_solver|by right].
  - case_decide as Hd; [subst|].
    + split; [set_solver|by eexists].
    + rewrite Hc, elem_of_union, elem_of_singleton. naive_solver.
Qed.

(** A write to the overlay against the statement on the block store. *)
Lemma rh_exec full (P : overlay -> dbAuthStore -> Prop) q (w : proc overlay auth_error unit) f :
  (forall o d, P o d -> refines o d) ->
  (forall o d, P o d -> match w o with
                        | (o', Ok _) => refines o' (f d)
                        | (_, Err e) => e = StoreError
                        end) ->
  rh full refines P w (db_exec q f) (fun _ => refines).
Proof.
  intros HP Hw o d HPod. specialize (Hw o d HPod). unfold rres, db_exec.
  rewrite (ref_healthy _ _ (HP _ _ HPod)).
  destruct (w o) as [o' [[]|e]]; [eauto|subst; done].
Qed.

Lemma update_user_refines o d uid f g :
  refines o d ->
  (forall r, user_of_db (g r) = f (user_of_db r)) -> (forall u, Wallet (f u) = Wallet u) ->
  match update_user uid f o with
  | (o', Ok _) => refines o' (set_users (alter g uid) d)
  | (_, Err e) => e = StoreError
  end.
Proof.
  intros HR Hfg Hw.
  assert (Hset : forall u r, core_auth_users d !! uid = Some r -> user_of_db r = u ->
            (forall b, core_auth_users (base o) !! uid = Some b -> Wallet u = dbu_wallet b) ->
            refines (put_user uid (f u) o) (set_users (alter g uid) d)).
  { intros u r Hr <- Hb.
    replace (set_users (alter g uid) d) with (set_users (<[uid := g r]>) d)
      by (unfold set_users; by erewrite alter_lookup_Some).
    assert (Hwr : dbu_wallet (g r) = dbu_wallet r)
      by (pose proof (f_equal Wallet (Hfg r)) as E; rewrite Hw in E; exact E).
    apply refines_put_user; [done|apply Hfg|..].
    - intros b Hbb. rewrite Hw. eauto.
    - rewrite Hwr. intros j v Hj Ej. exact (ref_unique _ _ HR _ _ _ _ Hj Hr Ej). }
  unfold update_user, pbind, materializeUser. destruct (users o !! uid) as [u|] eqn:Hu.
  - destruct (refines_overlay_user o d HR _ _ Hu) as (r & Hr & Er). eapply Hset; [done|done|].
    intros b Hb. exact (ref_wallet o d HR _ _ _ Hu Hb).
  - cbn. unfold db_ask. destruct (db_fault _ _); [done|].
    destruct (core_auth_users (base o) !! uid) as [b|] eqn:Hb; cbn.
    + destruct (refines_base_user o d HR _ _ Hu Hb) as (r & Hr & Er).
      replace (put_user uid _ (put_user uid _ o)) with (put_user uid (f (user_of_db b)) o)
        by (unfold put_user; simpl; by rewrite insert_insert_eq).
      eapply Hset; [done|done|]. intros b' [= <-]. done.
    + assert (core_auth_users d !! uid = None) as Hd.
      { pose proof (ref_users o d HR uid) as E. rewrite Hu, Hb in E. by destruct (core_auth_users d !! uid). }
      unfold set_users. rewrite alter_lookup_None by done. by destruct d, HR; split.
Qed.

Lemma refines_absent_user o d uid :
  refines o d -> GetUser o uid = Ok None ->
  users o !! uid = None /\ core_auth_users (base o) !! uid = None /\ core_auth_users d !! uid = None.
Proof.
  intros HR. cbn. destruct (users o !! uid) eqn:Hu; cbn; [done|]. unfold db_ask.
  destruct (db_fault _ _); [done|]. destruct (core_auth_users (base o) !! uid) eqn:Hb; cbn; [done|].
  intros _. split_and!; try done. pose proof (ref_users o d HR uid) as E. rewrite Hu, Hb in E.
  by destruct (core_auth_users d !! uid).
Qed.

#[export] Instance overlay_sim full :
  StoreSim full refines no_stale_handle no_stale_active False.
Proof.
  split.
  - intros o d uid HR. cbn. apply qsim_or_base; [apply (ref_healthy _ _ HR)|apply (ref_users _ _ HR)].
  - intros o d w HR Hex. by apply refines_GetUserIDByWallet.
  - intros o d w HR. by apply refines_WalletExists.
  - intros o d w HR. by apply refines_ActiveWalletExists.
  - intros o d h HR. by apply refines_HandleExists.
  - intros o d h HR. by apply refines_HandleFree.
  - intros o h r. cbn. destruct (scan_any _ _); [done|]. unfold db_ask. by destruct (db_fault _ _).
  - intros o d g uid HR. cbn. apply qsim_or_base; [apply (ref_healthy _ _ HR)|apply (ref_grants _ _ HR)].
  - intros o d a HR. cbn. apply qsim_or_base; [apply (ref_healthy _ _ HR)|apply (ref_apps _ _ HR)].
  - intros o d t id HR. cbn. apply qsim_or_base; [apply (ref_healthy _ _ HR)|apply (ref_entities _ _ HR)].
  - intros o d c uid HR. by apply refines_IsCidClaimedByUser.
  - intros o d c HR. by apply refines_CidIsClaimed.
  - intros uid w h b. apply rh_exec; [tauto|]. intros o d (HR & Hu & [[]|Hw]). cbn -[set_users].
    destruct (refines_absent_user o d uid HR Hu) as (Eo & Eb & Ed). rewrite Eo.
    unfold set_users. rewrite insert_new_fresh by done.
    apply (refines_put_user o d); [done| |congruence|].
    + unfold user_of_db. simpl. by destruct (String.eqb_spec h "") as [->|].
    + intros j v Hj Ej. exfalso.
      destruct (refines_WalletExists o d HR w) as [E|E]; cbn in Hw, E; rewrite Hw in E; [done|]. rewrite (db_ask_healthy o d HR) in E. injection E as E.
      rewrite scan_any_false in E. specialize (E _ _ Hj). by apply String.eqb_neq in E.
  - intros uid h. apply rh_exec; [done|]. intros o d HR. by apply update_user_refines.
  - intros uid b. apply rh_exec; [done|]. intros o d HR. by apply update_user_refines.
  - intros g uid a b. apply rh_exec; [done|]. intros o d HR. by apply refines_put_grant.
  - intros a uid. apply rh_exec; [done|]. intros o d HR. by apply refines_put_app.
  - intros a. apply rh_exec; [done|]. intros o d HR. cbn. pose proof (ref_apps _ _ HR a) as E.
    destruct (apps o !! a) as [r|]; cbn in *; [|unfold db_ask; destruct (db_fault _ _); [done|]].
    + unfold set_apps. erewrite alter_lookup_Some by done. by apply refines_put_app.
    + destruct (core_auth_developer_apps (base o) !! a) as [r|].
      * unfold set_apps. erewrite alter_lookup_Some by done. by apply refines_put_app.
      * unfold set_apps. rewrite alter_lookup_None by done. by destruct d, HR; split.
  - intros t id uid b. apply rh_exec; [tauto|]. intros o d [HR He]. cbn in He |- *.
    pose proof (ref_entities _ _ HR (t, id)) as E.
    destruct (entities o !! (t, id)); cbn in *; [done|]. unfold db_ask in He.
    destruct (db_fault _ _); [done|]. destruct (core_auth_entities (base o) !! (t, id)); [done|].
    unfold set_entities. rewrite insert_new_fresh by done. by apply refines_put_entity.
  - intros t id. apply rh_exec; [done|]. intros o d HR. cbn. pose proof (ref_entities _ _ HR (t, id)) as E.
    destruct (entities o !! (t, id)) as [r|]; cbn in *; [|unfold db_ask; destruct (db_fault _ _); [done|]].
    + unfold set_entities. erewrite alter_lookup_Some by done. by apply refines_put_entity.
    + destruct (core_auth_entities (base o) !! (t, id)) as [r|].
      * unfold set_entities. erewrite alter_lookup_Some by done. by apply refines_put_entity.
      * unfold set_entities. rewrite alter_lookup_None by done. by destruct d, HR; split.
  - intros c uid h. apply rh_exec; [done|]. intros o d HR. by apply refines_put_cid.
Qed.
End Refine.

(** ** Store failures

    The same tables on a node whose statements do not fail. *)
Definition no_faults (d : dbAuthStore) : dbAuthStore :=
  mkDbAuthStore (core_auth_users d) (core_auth_grants d) (core_auth_developer_apps d)
    (core_auth_entities d) (core_auth_cids d) (fun _ => false).

Definition faulty (d1 d2 : dbAuthStore) : Prop := d2 = no_faults d1.

Lemma qsim_fault {A} q (d : dbAuthStore) (a : A) : qsim (db_ask q d a) (db_ask q (no_faults d) a).
Proof. apply qsim_ask. done. Qed.

Lemma rh_fault full (P : dbAuthStore -> dbAuthStore -> Prop) q f :
  (forall d1 d2, P d1 d2 -> faulty d1 d2) -> (forall d, f (no_faults d) = no_faults (f d)) ->
  rh full faulty P (db_exec q f) (db_exec q f) (fun _ => faulty).
Proof.
  intros HP Hf d1 d2 Hp. apply HP in Hp as ->. unfold rres, db_exec. simpl.
  destruct (db_fault d1 q); [done|]. exists (f (no_faults d1)). split; [done|apply Hf].
Qed.

#[export] Instance fault_sim full :
  StoreSim full faulty (fun _ => True) (fun _ => True) True.
Proof.
  split; try (intros; apply rh_fault; [unfold faulty; tauto|done]);
    try (intros d1 d2 ? -> || intros d1 d2 ? ? ->); intros; try apply qsim_fault.
  - cbn in *. unfold db_ask in *. by destruct (db_fault _ _).
  - cbn. unfold db_ask. by destruct (db_fault _ _).
Qed.
