(* ===== verification/AuthInvariants.v ===== *)
(** * Invariants of the authorization state

    What every sequence of transactions preserves, by rule induction on the
    step relation of the block store. *)

From stdpp Require Import base gmap strings list fin_maps relations.
From Stdlib Require Import ZArith Lia.
From S2P Require Import Prelude Upgrades AuthState AuthStores AuthSpec AuthSim AuthRefine.

Open Scope string_scope.
Open Scope Z_scope.

(** One finalized transaction: applied, or rejected. *)
Inductive auth_step (cpu : arch) (live_only : bool) : dbAuthStore -> dbAuthStore -> Prop :=
| auth_step_intro tx rules d d' r :
    (live_only = true -> Migration tx = false) ->
    applyAuthProjection cpu tx rules d = (d', r) ->
    auth_step cpu live_only d d'.

Definition empty_store : dbAuthStore := mkDbAuthStore ∅ ∅ ∅ ∅ ∅ (fun _ => false).

Definition has_user (d : dbAuthStore) (uid : Z) : Prop := is_Some (core_auth_users d !! uid).

(** A key stored in lower case. *)
Definition address (a : string) : Prop := a <> "" /\ ToLower a = a.

(** Well-formedness of the tables live transactions build. *)
Record wf_auth (d : dbAuthStore) : Prop := {
  wf_unique : unique_wallets (core_auth_users d);
  wf_wallets uid u : core_auth_users d !! uid = Some u -> address (dbu_wallet u);
  wf_app_not_wallet a : live_app d a -> ~ wallet_used d a;
  wf_apps a r : core_auth_developer_apps d !! a = Some r -> address a /\ has_user d (AppOwnerID r);
  wf_entities t id e : core_auth_entities d !! (t, id) = Some e ->
    id_offset t <= id /\ has_user d (EntOwnerID e);
  wf_grants g uid r : core_auth_grants d !! (g, uid) = Some r -> address g /\ has_user d uid
}.

Lemma authorized_user d uid s : authorized d uid s -> has_user d uid.
Proof. intros (u & ? & _). by exists u. Qed.

Lemma address_lower s : ToLower s <> "" -> address (ToLower s).
Proof. intros H. split; [done|apply ToLower_idem]. Qed.

(** What a step does: nothing, or the effect of an accepted transaction. *)
Lemma auth_step_inv cpu live d d' :
  healthy d -> auth_step cpu live d d' ->
  d' = d \/ exists tx rules, (live = true -> Migration tx = false) /\
    op_guard cpu tx rules (classify tx) d /\ d' = op_effect cpu tx rules (classify tx) d.
Proof.
  intros Hd Hs. inversion Hs as [tx rules ? ? r Hl E]; subst. destruct (applyAuthProjection_decides cpu tx rules _ Hd) as [[Hg E']|[_ [r' E']]].
  - right. exists tx, rules. split; [done|]. split; [done|]. congruence.
  - left. congruence.
Qed.

Lemma op_effect_healthy cpu tx rules op d : healthy d -> healthy (op_effect cpu tx rules op d).
Proof. intros H q. destruct op; simpl; try apply H. destruct (metaInt64 _ _ _); apply H. Qed.

Lemma auth_step_healthy cpu live d d' : healthy d -> auth_step cpu live d d' -> healthy d'.
Proof.
  intros Hd Hs. destruct (auth_step_inv _ _ _ _ Hd Hs) as [->|(tx & rules & _ & _ & ->)]; [done|].
  by apply op_effect_healthy.
Qed.

(** ** Rows an effect touches *)

Section Effects.
Context (cpu : arch) (tx : authTx) (rules : Rules) (d : dbAuthStore).
Implicit Types op : auth_op.
#[local] Notation d' := (op_effect cpu tx rules _ d).

Lemma update_row_wallet r : dbu_wallet (update_row tx r) = dbu_wallet r.
Proof using. unfold update_row. destruct (decide _), (metaBool tx _); done. Qed.

(** Users are created or updated, never removed, and keep their wallet. *)
Lemma effect_user op uid u :
  core_auth_users (op_effect cpu tx rules op d) !! uid = Some u ->
  (exists v, core_auth_users d !! uid = Some v /\ dbu_wallet u = dbu_wallet v) \/
  op = OpUserCreate /\ uid = UserID tx /\ dbu_wallet u = tx_wallet tx.
Proof using.
  destruct op; simpl; eauto.
  - rewrite lookup_insert. case_decide; [|eauto]. intros [= <-]. subst. by right.
  - rewrite lookup_alter. case_decide; [|eauto]. subst.
    destruct (core_auth_users d !! UserID tx) as [v|]; simpl; [|done]. intros [= <-]. left.
    exists v. split; [done|apply update_row_wallet].
  - destruct (metaInt64 _ _ _); eauto.
Qed.

Lemma effect_user_kept op uid v :
  op_guard cpu tx rules op d -> core_auth_users d !! uid = Some v ->
  exists u, core_auth_users (op_effect cpu tx rules op d) !! uid = Some u /\ dbu_wallet u = dbu_wallet v.
Proof using.
  intros Hg Hv. destruct op; simpl; eauto.
  - destruct Hg as (Hn & _). rewrite lookup_insert. case_decide; [congruence|eauto].
  - rewrite lookup_alter. case_decide; [|eauto]. subst. rewrite Hv. simpl.
    eexists. split; [done|]. apply update_row_wallet.
  - destruct (metaInt64 _ _ _); eauto.
Qed.

(** An entity row is created with the transaction's user as owner, or keeps its owner. *)
Lemma effect_entity op k e :
  core_auth_entities (op_effect cpu tx rules op d) !! k = Some e ->
  (exists e0, core_auth_entities d !! k = Some e0 /\ EntOwnerID e = EntOwnerID e0) \/
  exists t, op = OpEntityCreate t /\ k = (t, EntityID tx) /\ EntOwnerID e = UserID tx.
Proof using.
  destruct op as [| |t| |t| | | | | |]; simpl; eauto.
  - rewrite lookup_insert. case_decide; [|eauto]. intros [= <-]. subst. right. eauto.
  - rewrite lookup_alter. case_decide; [|eauto]. subst.
    destruct (core_auth_entities d !! (t, EntityID tx)) as [e0|]; simpl; [|done]. intros [= <-]. left. eauto.
  - destruct (metaInt64 _ _ _); eauto.
Qed.

Lemma effect_entity_kept op k e0 :
  op_guard cpu tx rules op d -> core_auth_entities d !! k = Some e0 ->
  exists e, core_auth_entities (op_effect cpu tx rules op d) !! k = Some e /\ EntOwnerID e = EntOwnerID e0.
Proof using.
  intros Hg He. destruct op as [| |t| |t| | | | | |]; simpl; eauto.
  - destruct Hg as (_ & _ & _ & Hn). rewrite lookup_insert. case_decide; [congruence|eauto].
  - rewrite lookup_alter. case_decide; [|eauto]. subst. rewrite He. simpl. eauto.
  - destruct (metaInt64 _ _ _); eauto.
Qed.

Lemma effect_app op a r :
  core_auth_developer_apps (op_effect cpu tx rules op d) !! a = Some r ->
  (exists r0, core_auth_developer_apps d !! a = Some r0 /\ AppOwnerID r = AppOwnerID r0 /\
     (AppDeleted r = false -> AppDeleted r0 = false)) \/
  op = OpAppCreate /\ a = tx_address tx /\ AppOwnerID r = UserID tx.
Proof using.
  assert (Hkeep : core_auth_developer_apps d !! a = Some r ->
    exists r0, core_auth_developer_apps d !! a = Some r0 /\ AppOwnerID r = AppOwnerID r0 /\
      (AppDeleted r = false -> AppDeleted r0 = false)) by eauto.
  destruct op; simpl; auto.
  - destruct (metaInt64 _ _ _); simpl; auto.
  - rewrite lookup_insert. case_decide; [|auto]. intros [= <-]. subst. by right.
  - rewrite lookup_alter. case_decide; [|auto]. subst.
    destruct (core_auth_developer_apps d !! tx_address tx) as [r0|]; simpl; [|done].
    intros [= <-]. left. exists r0. done.
Qed.

Lemma effect_grant op k r :
  op_guard cpu tx rules op d ->
  core_auth_grants (op_effect cpu tx rules op d) !! k = Some r ->
  is_Some (core_auth_grants d !! k) \/ op = OpGrantCreate /\ k = (tx_grantee tx, UserID tx).
Proof using.
  intros Hg. destruct op; simpl; try (intros ->; by eauto).
  - rewrite lookup_insert. case_decide; [|intros ->; by eauto]. subst. by right.
  - rewrite lookup_alter. case_decide; [|intros ->; by eauto]. subst.
    intros Hr. left. destruct (core_auth_grants d !! _); [by eexists|done].
  - destruct Hg as (_ & _ & grantor & g & Hm & Hgr & _). rewrite Hm. simpl. rewrite lookup_insert.
    case_decide; [|intros ->; by eauto]. subst. rewrite Hgr. by eauto.
Qed.
End Effects.

(** ** Well-formedness is invariant *)

Lemma wf_auth_empty : wf_auth empty_store.
Proof.
  split; simpl.
  - intros ? ? ? ? H. by rewrite lookup_empty in H.
  - intros ? ? H. by rewrite lookup_empty in H.
  - intros ? (? & H & _). simpl in H. by rewrite lookup_empty in H.
  - intros ? ? H. by rewrite lookup_empty in H.
  - intros ? ? ? H. by rewrite lookup_empty in H.
  - intros ? ? ? H. by rewrite lookup_empty in H.
Qed.

Section Preserve.
Context (cpu : arch) (tx : authTx) (rules : Rules) (d : dbAuthStore).
Context (Hlive : Migration tx = false) (HW : wf_auth d).
Context (op : auth_op) (Hg : op_guard cpu tx rules op d).
#[local] Notation d' := (op_effect cpu tx rules op d).

Lemma has_user_kept uid : has_user d uid -> has_user d' uid.
Proof using Hg. intros [v Hv]. destruct (effect_user_kept _ _ _ _ _ _ _ Hg Hv) as (u & ? & _). by exists u. Qed.

Lemma user_create_fresh : op = OpUserCreate -> ~ wallet_used d (tx_wallet tx) /\ ~ live_app d (tx_wallet tx).
Proof using Hg Hlive. intros ->. destruct Hg as (_ & _ & H). by destruct (H Hlive) as (? & ? & _). Qed.

Lemma unique_preserved : unique_wallets (core_auth_users d').
Proof using Hg Hlive HW.
  intros i j u v Hu Hv E.
  destruct (effect_user _ _ _ _ _ _ _ Hu) as [(u0 & Hu0 & Eu)|(Eo & -> & Eu)],
           (effect_user _ _ _ _ _ _ _ Hv) as [(v0 & Hv0 & Ev)|(Eo' & -> & Ev)].
  - eapply (wf_unique d HW); eauto. congruence.
  - destruct (user_create_fresh Eo') as [Hn _]. destruct Hn. exists i, u0. split; [done|congruence].
  - destruct (user_create_fresh Eo) as [Hn _]. destruct Hn. exists j, v0. split; [done|congruence].
  - done.
Qed.

Lemma wallet_used_after w : wallet_used d' w -> wallet_used d w \/ op = OpUserCreate /\ w = tx_wallet tx.
Proof using.
  intros (uid & u & Hu & <-). destruct (effect_user _ _ _ _ _ _ _ Hu) as [(u0 & Hu0 & Eu)|(Eo & -> & Eu)].
  - left. exists uid, u0. split; [done|congruence].
  - by right.
Qed.

Lemma live_app_after a : live_app d' a -> live_app d a \/ op = OpAppCreate /\ a = tx_address tx.
Proof using.
  intros (r & Hr & Hd). destruct (effect_app _ _ _ _ _ _ _ Hr) as [(r0 & Hr0 & _ & Hd0)|(? & ? & _)]; [|auto].
  left. exists r0. auto.
Qed.

Lemma creator_exists :
  op = OpAppCreate \/ (exists t, op = OpEntityCreate t) \/ op = OpGrantCreate -> has_user d' (UserID tx).
Proof using Hg.
  intros H. apply has_user_kept. pose proof Hg as Hg'.
  destruct H as [E|[[t E]|E]]; rewrite E in Hg'; simpl in Hg'; eapply authorized_user; naive_solver.
Qed.

Lemma wf_auth_preserved : wf_auth d'.
Proof using Hg Hlive HW.
  pose proof Hg as Hg'. split.
  - apply unique_preserved.
  - intros uid u Hu. destruct (effect_user _ _ _ _ _ _ _ Hu) as [(u0 & Hu0 & ->)|(Eo & -> & ->)].
    + by apply (wf_wallets d HW uid).
    + rewrite Eo in Hg'. destruct Hg' as (_ & Hs & _). apply address_lower. by rewrite ToLower_empty.
  - intros a Ha Hw.
    destruct (live_app_after a Ha) as [Ha'|[Eo Ea]], (wallet_used_after a Hw) as [Hw'|[Eo' E]].
    + by apply (wf_app_not_wallet d HW a).
    + subst a. by destruct (user_create_fresh Eo').
    + rewrite Eo in Hg'. subst a. by destruct Hg' as (_ & _ & _ & ?).
    + congruence.
  - intros a r Hr. destruct (effect_app _ _ _ _ _ _ _ Hr) as [(r0 & Hr0 & -> & _)|(Eo & -> & ->)].
    + destruct (wf_apps d HW _ _ Hr0). split; [done|by apply has_user_kept].
    + split; [|apply creator_exists; auto]. rewrite Eo in Hg'. destruct Hg' as (_ & Hn & _).
      by apply address_lower.
  - intros t id e He. destruct (effect_entity _ _ _ _ _ _ _ He) as [(e0 & He0 & ->)|(t' & Eo & [= -> ->] & ->)].
    + destruct (wf_entities d HW _ _ _ He0). split; [done|by apply has_user_kept].
    + split; [|apply creator_exists; eauto]. rewrite Eo in Hg'. destruct Hg' as (Ho & _). by apply Ho.
  - intros g uid r Hr. destruct (effect_grant _ _ _ _ _ _ _ Hg Hr) as [[r0 Hr0]|[Eo [= -> ->]]].
    + destruct (wf_grants d HW _ _ _ Hr0). split; [done|by apply has_user_kept].
    + split; [|apply creator_exists; auto]. rewrite Eo in Hg'. destruct Hg' as (Hn & _).
      by apply address_lower.
Qed.
End Preserve.

(** ** Claims *)

Lemma fold_left_kept {A} (f : gmap (string * Z) string -> A -> gmap (string * Z) string) l m k :
  (forall m x, is_Some (m !! k) -> is_Some (f m x !! k)) ->
  is_Some (m !! k) -> is_Some (fold_left f l m !! k).
Proof. intros Hf. revert m. induction l as [|x l IH]; intros m Hm; simpl; [done|]. apply IH, Hf, Hm. Qed.

Lemma insert_new_kept {V} (k k' : string * Z) (v : V) (m : gmap (string * Z) V) :
  is_Some (m !! k) -> is_Some (insert_new k' v m !! k).
Proof. intros [w Hw]. rewrite insert_new_lookup, Hw. by eexists. Qed.

Lemma assert_claim_kept tx c m k : is_Some (m !! k) -> is_Some (assert_claim tx c m !! k).
Proof.
  intros Hm. unfold assert_claim. destruct (any_claim m c); [done|].
  rewrite lookup_insert. case_decide; [by eexists|done].
Qed.

Lemma claims_kept tx rules m k :
  is_Some (m !! k) -> is_Some (asserted_claims tx rules (migrated_claims tx m) !! k).
Proof.
  intros Hm. unfold asserted_claims, migrated_claims.
  destruct (_ && _); [apply fold_left_kept; [intros; by apply assert_claim_kept|]|];
    (destruct (_ && _ && _); [apply fold_left_kept; [intros; by apply insert_new_kept|done]|done]).
Qed.

Lemma effect_claims_kept cpu tx rules op d c uid :
  claimed d c uid -> claimed (op_effect cpu tx rules op d) c uid.
Proof.
  unfold claimed. intros H. destruct op; simpl; try done.
  - by apply claims_kept.
  - unfold asserted_claims. destruct (_ && _); [|done].
    apply fold_left_kept; [intros; by apply assert_claim_kept|done].
  - by destruct (metaInt64 _ _ _).
Qed.

(** A claim a fold of first assertions adds is on a cid nobody had claimed. *)
Lemma assert_fold_new tx l m c uid :
  is_Some (fold_left (fun m c => assert_claim tx c m) l m !! (c, uid)) ->
  is_Some (m !! (c, uid)) \/ uid = UserID tx /\ c ∈ l /\ forall u, m !! (c, u) = None.
Proof.
  revert m. induction l as [|x l IH]; intros m; simpl; [auto|]. intros H.
  apply IH in H as [H|(-> & Hl & Hn)].
  - unfold assert_claim in H. destruct (any_claim m x) eqn:E; [auto|].
    rewrite lookup_insert in H. case_decide as Hd; [|auto]. injection Hd as -> <-. right.
    split_and!; [done|set_solver|]. intros u. destruct (m !! (c, u)) eqn:Em; [|done].
    unfold any_claim in E. rewrite scan_any_false in E. specialize (E _ _ Em). simpl in E.
    by rewrite String.eqb_refl in E.
  - right. split_and!; [done|set_solver|]. intros u. specialize (Hn u). unfold assert_claim in Hn.
    destruct (any_claim m x); [done|]. rewrite lookup_insert in Hn. by case_decide.
Qed.
