(* ===== verification/AuthAtomic.v ===== *)
(** * Atomicity of the authorization transition

    On a store that does not fail, the transition either applies or rejects and
    leaves the store as it was: every projection checks before it writes.  The
    overlay over a healthy database is such a store, so a transaction rejected
    from a proposal contributes nothing to the overlay the later ones see. *)

From stdpp Require Import base gmap strings list fin_maps.
From Stdlib Require Import ZArith Lia.
From S2P Require Import Prelude Upgrades AuthState AuthStores Crypto Validators AuthEnforcement AuthSim AuthSpec AuthRefine.

Open Scope string_scope.
Open Scope Z_scope.

(** ** Three grades of programs *)

Section Grades.
Context {S : Type} (good : S -> Prop).

(** Reads and rejects, never writes. *)
Definition pure {A} (m : proc S auth_error A) : Prop :=
  forall s, good s -> exists r, m s = (s, r) /\ r <> Err StoreError.
(** Writes, never rejects. *)
Definition total {A} (m : proc S auth_error A) : Prop :=
  forall s, good s -> exists s' a, m s = (s', Ok a) /\ good s'.
(** Applies, or rejects without a trace. *)
Definition atomic {A} (m : proc S auth_error A) : Prop :=
  forall s, good s ->
    match m s with
    | (s', Ok _) => good s'
    | (s', Err e) => s' = s /\ e <> StoreError
    end.

Lemma pure_atomic {A} (m : proc S auth_error A) : pure m -> atomic m.
Proof.
  intros H s Hs. destruct (H s Hs) as ([a|e] & -> & Hr); [done|]. split; [done|congruence].
Qed.

Lemma total_atomic {A} (m : proc S auth_error A) : total m -> atomic m.
Proof. intros H s Hs. by destruct (H s Hs) as (s' & a & -> & Hs'). Qed.

Lemma pure_ret {A} (a : A) : pure (pret a).
Proof. intros s Hs. by exists (Ok a). Qed.

Lemma pure_reject_if c r : pure (reject_if c r).
Proof. intros s Hs. destruct c; eexists; split; done. Qed.

Lemma pure_fail {A} r : pure (A := A) (pfail (ValidationError r)).
Proof. intros s Hs. eexists; split; done. Qed.

Lemma pure_query {A} (f : S -> res auth_error A) : (forall s, good s -> f s <> Err StoreError) -> pure (query f).
Proof. intros H s Hs. exists (f s). split; [done|auto]. Qed.

Lemma pure_bind {A B} (m : proc S auth_error A) (k : A -> proc S auth_error B) :
  pure m -> (forall a, pure (k a)) -> pure (pbind m k).
Proof.
  intros Hm Hk s Hs. unfold pbind. destruct (Hm s Hs) as ([a|e] & -> & Hr); [by apply Hk|].
  exists (Err e). split; [done|congruence].
Qed.

Lemma total_ret {A} (a : A) : total (pret a).
Proof. intros s Hs. by exists s, a. Qed.

Lemma total_bind {A B} (m : proc S auth_error A) (k : A -> proc S auth_error B) :
  total m -> (forall a, total (k a)) -> total (pbind m k).
Proof. intros Hm Hk s Hs. unfold pbind. destruct (Hm s Hs) as (s' & a & -> & Hs'). by apply Hk. Qed.

Lemma total_for_each {A} (f : A -> proc S auth_error unit) l : (forall x, total (f x)) -> total (for_each f l).
Proof. intros Hf. induction l; simpl; [apply total_ret|]. by apply total_bind. Qed.

Lemma atomic_bind {A B} (m : proc S auth_error A) (k : A -> proc S auth_error B) :
  pure m -> (forall a, atomic (k a)) -> atomic (pbind m k).
Proof.
  intros Hm Hk s Hs. unfold pbind. destruct (Hm s Hs) as ([a|e] & -> & Hr); [by apply Hk|].
  split; [done|congruence].
Qed.

Lemma atomic_then {A B} (m : proc S auth_error A) (k : A -> proc S auth_error B) :
  atomic m -> (forall a, total (k a)) -> atomic (pbind m k).
Proof.
  intros Hm Hk s Hs. unfold pbind. specialize (Hm s Hs). destruct (m s) as [s' [a|e]]; [|done].
  by destruct (Hk a s' Hm) as (s2 & b & -> & Hs2).
Qed.
End Grades.

(** ** Stores that do not fail *)

Class ReliableStore (S : Type) `{AuthReader S, AuthWriter S} (good : S -> Prop) : Prop := {
  rel_GetUser s uid : good s -> GetUser s uid <> Err StoreError;
  rel_GetUserIDByWallet s w : good s -> GetUserIDByWallet s w <> Err StoreError;
  rel_WalletExists s w : good s -> WalletExists s w <> Err StoreError;
  rel_ActiveWalletExists s w : good s -> ActiveWalletExists s w <> Err StoreError;
  rel_HandleExists s h : good s -> HandleExists s h <> Err StoreError;
  rel_GetGrant s g uid : good s -> GetGrant s g uid <> Err StoreError;
  rel_GetApp s a : good s -> GetApp s a <> Err StoreError;
  rel_GetEntity s t id : good s -> GetEntity s t id <> Err StoreError;
  rel_IsCidClaimedByUser s c uid : good s -> IsCidClaimedByUser s c uid <> Err StoreError;
  rel_CidIsClaimed s c : good s -> exists b, CidIsClaimed s c = Ok b;
  rel_InsertUser uid w h b : total good (InsertUser uid w h b);
  rel_SetUserHandle uid h : total good (SetUserHandle uid h);
  rel_SetUserDeactivated uid b : total good (SetUserDeactivated uid b);
  rel_UpsertGrant g uid a r : total good (UpsertGrant g uid a r);
  rel_UpsertApp a o : total good (UpsertApp a o);
  rel_SetAppDeleted a : total good (SetAppDeleted a);
  rel_InsertEntity t id o b : total good (InsertEntity t id o b);
  rel_SetEntityDeleted t id : total good (SetEntityDeleted t id);
  rel_InsertCid c uid h : total good (InsertCid c uid h)
}.

Create HintDb atomic.
#[export] Hint Resolve pure_ret pure_reject_if pure_fail total_ret rel_GetUser rel_GetUserIDByWallet
  rel_WalletExists rel_ActiveWalletExists rel_HandleExists rel_GetGrant rel_GetApp rel_GetEntity
  rel_IsCidClaimedByUser rel_InsertUser rel_SetUserHandle rel_SetUserDeactivated rel_UpsertGrant
  rel_UpsertApp rel_SetAppDeleted rel_InsertEntity rel_SetEntityDeleted rel_InsertCid : atomic.

Lemma rbind_no_store_error {A B} (r : res auth_error A) (k : A -> res auth_error B) :
  r <> Err StoreError -> (forall a, k a <> Err StoreError) -> rbind r k <> Err StoreError.
Proof. destruct r; simpl; [auto|congruence]. Qed.

Section Reliable.
Context {S : Type} `{reader : AuthReader S, writer : AuthWriter S} (good : S -> Prop) `{rel : !ReliableStore S good}.
Context (cpu : arch).

(** Split a read-only computation at its queries and branches. *)
Ltac read_only :=
  repeat match goal with
  | |- rbind _ _ <> _ => apply rbind_no_store_error; [eauto with atomic|intros ?]
  | |- context [match ?x with _ => _ end] => destruct x
  | |- guard_err _ _ <> _ => unfold guard_err
  | |- _ <> _ => congruence
  end.

Lemma validateAuthSigner_reliable s uid signer : good s -> validateAuthSigner s uid signer <> Err StoreError.
Proof using rel. intros Hs. unfold validateAuthSigner. read_only. Qed.

Lemma pure_check_signer uid signer : pure good (check_signer uid signer).
Proof using rel. apply pure_query. intros s. apply validateAuthSigner_reliable. Qed.

Lemma revokeAuthorized_reliable s tx g : good s -> revokeAuthorized s tx g <> Err StoreError.
Proof using rel.
  intros Hs. unfold revokeAuthorized.
  pose proof (validateAuthSigner_reliable s (UserID tx) (Signer tx) Hs) as Hv.
  destruct (validateAuthSigner s (UserID tx) (Signer tx)) as [|[]]; [done| |done].
  apply rbind_no_store_error; [by apply rel_GetUserIDByWallet|]. intros [uid|]; [|done].
  pose proof (validateAuthSigner_reliable s uid (Signer tx) Hs) as Hv'.
  destruct (validateAuthSigner s uid (Signer tx)) as [|[]]; done.
Qed.

Lemma check_track_cids_reliable s tx rules keys : good s -> check_track_cids s tx rules keys <> Err StoreError.
Proof using rel.
  intros Hs. induction keys as [|k ks IH]; simpl; [done|].
  apply rbind_no_store_error; [|done]. unfold check_track_cid. destruct (String.eqb _ ""); [done|].
  apply rbind_no_store_error; [by apply rel_IsCidClaimedByUser|]. intros []; [done|].
  apply rbind_no_store_error; [|intros ?; read_only]. destruct (rel_CidIsClaimed s (metaString tx k) Hs) as [b ->]. done.
Qed.

Lemma total_asserted tx rules : total good (projectAssertedTrackCids tx rules).
Proof using rel.
  unfold projectAssertedTrackCids. destruct (_ || _); [auto with atomic|]. apply total_for_each. intros k.
  destruct (String.eqb _ ""); [auto with atomic|]. apply total_bind.
  - intros s Hs. destruct (rel_CidIsClaimed s (metaString tx k) Hs) as [b Hb].
    exists s, b. unfold query. by rewrite Hb.
  - intros []; eauto with atomic.
Qed.

Lemma total_migrated tx : total good (projectMigratedTrackCids tx).
Proof using rel.
  unfold projectMigratedTrackCids. destruct (_ || _); [auto with atomic|].
  destruct (String.eqb _ ""); [auto with atomic|]. apply total_for_each. intros k.
  destruct (String.eqb _ ""); eauto with atomic.
Qed.

(** Walk a projection: queries and checks, then the write. *)
Ltac atomic_walk :=
  repeat match goal with
  | |- forall _, _ => intros ?
  | |- pure _ (check_signer _ _) => apply pure_check_signer
  | |- pure _ (query (fun st => revokeAuthorized st _ _)) => apply pure_query; intros; by apply revokeAuthorized_reliable
  | |- pure _ (query _) => apply pure_query; intros; eauto with atomic
  | |- pure _ (if ?c then _ else _) => destruct c
  | |- pure _ (pbind _ _) => apply pure_bind
  | |- pure _ _ => auto with atomic
  | |- total _ (if ?c then _ else _) => destruct c
  | |- total _ (match ?c with _ => _ end) => destruct c
  | |- total _ (pbind _ _) => apply total_bind
  | |- total _ _ => eauto with atomic
  | |- atomic _ (if ?c then _ else _) => destruct c
  | |- atomic _ (match ?c with _ => _ end) => destruct c
  | |- atomic _ (pbind (if _ then _ else _) _) => apply atomic_bind
  | |- atomic _ (pbind (query _) _) => apply atomic_bind
  | |- atomic _ (pbind (reject_if _ _) _) => apply atomic_bind
  | |- atomic _ (pbind (check_signer _ _) _) => apply atomic_bind
  | |- atomic _ (pfail _) => apply pure_atomic
  | |- atomic _ _ => apply total_atomic
  end.

Lemma atomic_entity_create tx t : atomic good (projectEntityCreate cpu tx t).
Proof using rel. unfold projectEntityCreate. atomic_walk. Qed.

(** On a store that does not fail, the authorization transition applies, or
    rejects and leaves the store exactly as it was. *)
Lemma applyAuthProjection_atomic tx rules : atomic good (applyAuthProjection cpu tx rules).
Proof using rel.
  unfold applyAuthProjection.
  destruct (canonicalAuthEntityType _); [|apply pure_atomic, pure_ret].
  destruct (canonicalAuthAction _); [|apply pure_atomic, pure_ret]. cbv zeta.
  unfold projectUserCreate, projectUserUpdate, projectEntityDelete, projectGrantCreate, projectMigratedGrantCreate,
    projectGrantDelete, projectGrantApproveReject, projectAppCreate, projectAppDelete.
  repeat match goal with |- atomic _ (if ?c then _ else _) => destruct c end.
  2: { apply atomic_bind; [apply pure_check_signer|]. intros []. apply total_atomic. atomic_walk. }
  2: { apply atomic_then; [apply atomic_entity_create|]. intros []. apply total_bind; [apply total_migrated|].
       intros []. apply total_asserted. }
  3: { apply atomic_bind; [apply pure_check_signer|]. intros []. apply total_atomic, total_asserted. }
  all: atomic_walk.
Qed.
End Reliable.

(** ** The overlay over a healthy database *)

Definition healthy_base (o : overlay) : Prop := healthy (base o).

#[export] Instance overlay_reliable : ReliableStore overlay healthy_base.
Proof.
  assert (Hask : forall A q (d : dbAuthStore) (a : A), healthy d -> db_ask q d a = Ok a).
  { intros A q d a Hd. unfold db_ask. by rewrite Hd. }
  unfold healthy_base.
  split; intros; simpl; unfold or_base, total, update_user, materializeUser, pbind, pret; intros;
    repeat (case_goal || (rewrite Hask in * by done)); eauto; try congruence.
  all: exfalso; match goal with H : _ = Err _ |- _ => simpl in H; rewrite Hask in H by done; discriminate H end.
Qed.

Section Validation.
Context {C : EthCrypto} (HashStruct : TypedData -> td_struct -> option string) (cfg : acdc_config).
Context (json_decode : string -> option json) (cpu : arch).

(** A transaction that proposal validation does not accept leaves the overlay
    alone, and a healthy base gives a verdict. *)
Lemma validateManageEntityAuth_atomic rules em (o o' : overlay) r :
  healthy_base o ->
  validateManageEntityAuth HashStruct cfg json_decode cpu rules em o = (o', r) ->
  healthy_base o' /\
  match r with
  | Ok _ => True
  | Err e => o' = o /\ authRejected e = true
  end.
Proof using.
  intros Ho. unfold validateManageEntityAuth.
  destruct (RecoverPubkeyFromCoreTx _ _ _) as [[recovered ?]|]; [|by intros [= <- <-]].
  destruct (negb _); [by intros [= <- <-]|].
  destruct (if ContentAuthEnforced rules then _ else _) as [[]|e] eqn:Ec.
  - pose proof (applyAuthProjection_atomic healthy_base cpu (authTxFromManageEntity json_decode em) rules o Ho) as Ha.
    cbn [authStore_reader authStore_writer overlay_store] in Ha |- *.
    destruct (applyAuthProjection _ _ _ _) as [o1 [[]|e]]; simpl; intros [= <- <-]; [done|].
    destruct Ha as [-> He]. by destruct e.
  - intros [= <- <-]. destruct e as [r|]; [done|]. exfalso.
    destruct (ContentAuthEnforced rules); [|done]. unfold validateTrackContentAuth in Ec.
    destruct (_ || _); [done|]. destruct (_ || _); [|done].
    by eapply (check_track_cids_reliable healthy_base) in Ec.
Qed.
End Validation.
