(* ===== verification/AuthTheorems.v ===== *)
(** * Authorization: the properties

    The declarative specification of [AuthSpec], the invariants of
    [AuthInvariants] and the simulations of [AuthRefine], stated for the
    functions of the program. *)

From stdpp Require Import base gmap strings list fin_maps relations.
From Stdlib Require Import ZArith Lia.
From S2P Require Import Prelude Upgrades AuthState AuthStores AuthSpec AuthSim AuthRefine AuthInvariants Crypto Validators AuthEnforcement.

Open Scope string_scope.
Open Scope Z_scope.

(** ** Concrete states and transactions *)

Definition user_row (w : string) : db_user := mkDbUser w None false.

(** Users 1 and 2 with wallets 0xa and 0xb, user 1's track, user 1's approved
    grant to wallet 0xb, user 2's pending grant to wallet 0xc. *)
Definition ex_db : dbAuthStore :=
  mkDbAuthStore
    (<[1 := user_row "0xa"]> (<[2 := user_row "0xb"]> (<[3 := user_row "0xc"]> ∅)))
    (<[("0xb", 1) := mkDbGrant (Some true) false]> (<[("0xc", 2) := mkDbGrant None false]> ∅))
    ∅
    (<[("Track", 2000001) := mkAuthEntityRow 1 false]> ∅)
    (<[("cid1", 1) := ""]> ∅)
    (fun _ => false).

Definition ex_tx (uid : Z) (t : string) (id : Z) (a signer : string) (m : list (string * json)) : authTx :=
  mkAuthTx uid t id a signer false m.

Definition content_rules : Rules := mkRules true true true false true.

Lemma ex_db_healthy : healthy ex_db.
Proof. done. Qed.

Lemma ex_db_unique : unique_wallets (core_auth_users ex_db).
Proof.
  intros i j u v. unfold ex_db, core_auth_users. rewrite !lookup_insert, !lookup_empty.
  repeat case_decide; intros; simplify_eq; done.
Qed.

(** ** The transition meets its specification *)

(** C1 -- The authorization projection implements its declarative specification:
    it accepts a transaction exactly when the guard of the operation it denotes
    holds, then performs that operation's effect and nothing else, and otherwise
    rejects it and leaves every table as it was. *)
Theorem auth_projection_meets_spec cpu tx rules d (Hd : healthy d) :
  (op_guard cpu tx rules (classify tx) d ->
   applyAuthProjection cpu tx rules d = (op_effect cpu tx rules (classify tx) d, Ok tt)) /\
  (~ op_guard cpu tx rules (classify tx) d ->
   exists r, applyAuthProjection cpu tx rules d = (d, Err (ValidationError r))).
Proof.
  destruct (applyAuthProjection_decides cpu tx rules d Hd) as [[? ?]|[? ?]]; tauto.
Qed.

Lemma auth_projection_meets_spec_witness :
  exists r, applyAuthProjection Amd64 (ex_tx 1 "Track" 2000001 "Create" "0xa" [("owner_id", JNum (F64 1 0))])
    content_rules ex_db = (ex_db, Err (ValidationError r)).
Proof.
  apply (auth_projection_meets_spec Amd64 _ content_rules ex_db ex_db_healthy).
  cbn. intros (_ & _ & _ & H). discriminate H.
Defined.

(** ** Reachable states *)

(** C36 -- Starting from empty tables, live transactions only ever build well-formed
    tables: no two users share a wallet, wallets, grantees and app addresses are
    non-empty and lower case, no live developer app has a user's address, every
    app, entity and grant belongs to an existing user, and track and playlist ids
    are above their offsets. *)
Theorem live_state_well_formed cpu d :
  rtc (auth_step cpu true) empty_store d -> wf_auth d.
Proof.
  assert (Hh : healthy empty_store) by done. pose proof wf_auth_empty as Hw. revert Hh Hw.
  generalize empty_store. intros d0 Hh Hw Hr. induction Hr as [|d1 d2 d3 Hs Hr IH]; [done|].
  apply IH; [by eapply auth_step_healthy|].
  destruct (auth_step_inv _ _ _ _ Hh Hs) as [->|(tx & rules & Hl & Hg & ->)]; [done|].
  apply wf_auth_preserved; auto.
Qed.

Lemma live_state_well_formed_witness :
  let tx := ex_tx 7 "user" 7 "create" "0xAB" [("handle", JStr "Ann")] in
  let d := fst (applyAuthProjection Amd64 tx content_rules empty_store) in
  core_auth_users d !! 7 = Some (mkDbUser "0xab" (Some "ann") false) /\ wf_auth d.
Proof.
  split; [vm_compute; reflexivity|].
  apply (live_state_well_formed Amd64). apply rtc_once.
  apply (auth_step_intro Amd64 true (ex_tx 7 "user" 7 "create" "0xAB" [("handle", JStr "Ann")]) content_rules
    _ _ (Ok tt)); [reflexivity|vm_compute; reflexivity].
Defined.

(** Identity and ownership are permanent: whatever transactions follow, live
    or migrated, a user keeps its wallet, an entity keeps its owner, and a claim
    on a cid is never withdrawn. *)
Theorem ownership_is_permanent cpu d d' (Hd : healthy d) :
  rtc (auth_step cpu false) d d' ->
  (forall uid u, core_auth_users d !! uid = Some u ->
     exists u', core_auth_users d' !! uid = Some u' /\ dbu_wallet u' = dbu_wallet u) /\
  (forall k e, core_auth_entities d !! k = Some e ->
     exists e', core_auth_entities d' !! k = Some e' /\ EntOwnerID e' = EntOwnerID e) /\
  (forall c uid, claimed d c uid -> claimed d' c uid).
Proof.
  intros Hr. induction Hr as [|d1 d2 d3 Hs Hr IH]; [eauto 10|].
  specialize (IH (auth_step_healthy _ _ _ _ Hd Hs)) as (IH1 & IH2 & IH3).
  destruct (auth_step_inv _ _ _ _ Hd Hs) as [->|(tx & rules & _ & Hg & ->)]; [done|]. split_and!.
  - intros uid u Hu. destruct (effect_user_kept _ _ _ _ _ _ _ Hg Hu) as (u1 & Hu1 & <-). auto.
  - intros k e He. destruct (effect_entity_kept _ _ _ _ _ _ _ Hg He) as (e1 & He1 & <-). auto.
  - intros c uid Hc. apply IH3. by apply effect_claims_kept.
Qed.

Lemma ownership_is_permanent_witness :
  let tx := ex_tx 1 "Track" 2000001 "Delete" "0xb" [] in
  let d' := fst (applyAuthProjection Amd64 tx content_rules ex_db) in
  core_auth_entities d' !! ("Track", 2000001) = Some (mkAuthEntityRow 1 true) /\ claimed d' "cid1" 1.
Proof.
  split; [vm_compute; reflexivity|].
  apply (ownership_is_permanent Amd64 ex_db _ ex_db_healthy); [|by eexists].
  apply rtc_once. apply (auth_step_intro Amd64 false (ex_tx 1 "Track" 2000001 "Delete" "0xb" []) content_rules
    _ _ (Ok tt)); [done|vm_compute; reflexivity].
Defined.

(** ** Least privilege *)

Section Privilege.
Context (cpu : arch) (tx : authTx) (rules : Rules) (d : dbAuthStore) (op : auth_op).
Context (Hg : op_guard cpu tx rules op d).
#[local] Notation d' := (op_effect cpu tx rules op d).

Lemma user_change_authorized uid :
  core_auth_users d' !! uid <> core_auth_users d !! uid ->
  uid = UserID tx /\ (core_auth_users d !! uid = None \/ authorized d uid (Signer tx)).
Proof using Hg.
  destruct op; simpl in *; try done.
  - rewrite lookup_insert. case_decide; [subst|done]. naive_solver.
  - rewrite lookup_alter. case_decide; [subst|done]. naive_solver.
  - by destruct (metaInt64 _ _ _).
Qed.

Lemma entity_change_authorized k :
  core_auth_entities d' !! k <> core_auth_entities d !! k ->
  authorized d (UserID tx) (Signer tx) /\
  exists e, core_auth_entities d' !! k = Some e /\ EntOwnerID e = UserID tx.
Proof using Hg.
  destruct op as [| |t| |t| | | | | |]; simpl in *; try done.
  - rewrite lookup_insert. case_decide; [subst|done]. intros _. split; [tauto|]. by eexists.
  - rewrite lookup_alter. case_decide; [subst|done]. intros _. destruct Hg as (? & e & -> & ?).
    split; [done|]. simpl. by eexists.
  - by destruct (metaInt64 _ _ _).
Qed.

Lemma app_change_authorized a :
  core_auth_developer_apps d' !! a <> core_auth_developer_apps d !! a ->
  authorized d (UserID tx) (Signer tx) /\
  exists r, core_auth_developer_apps d' !! a = Some r /\ AppOwnerID r = UserID tx.
Proof using Hg.
  destruct op; simpl in *; try done.
  - by destruct (metaInt64 _ _ _).
  - rewrite lookup_insert. case_decide; [subst|done]. intros _. split; [tauto|]. by eexists.
  - rewrite lookup_alter. case_decide; [subst|done]. intros _. destruct Hg as (? & _ & r & -> & _ & ?).
    split; [done|]. simpl. by eexists.
Qed.

(** A grant changes at the hand of its grantor, of its grantee, or of whoever
    decides a pending one. *)
Lemma grant_change_authorized g uid :
  core_auth_grants d' !! (g, uid) <> core_auth_grants d !! (g, uid) ->
  uid = UserID tx /\
    (authorized d uid (Signer tx) \/ exists u, wallet_owner d g u /\ authorized d u (Signer tx)) \/
  (exists approve, op = OpGrantDecide approve) /\ authorized d (UserID tx) (Signer tx) /\
    exists r, core_auth_grants d !! (g, uid) = Some r /\ dbg_is_revoked r = false /\
              dbg_is_approved r <> Some true.
Proof using Hg.
  destruct op; simpl in *; try done.
  - rewrite lookup_insert. case_decide as E; [injection E as <- <-|done]. naive_solver.
  - rewrite lookup_alter. case_decide as E; [injection E as <- <-|done]. intros _.
    destruct Hg as (_ & _ & ?). by left.
  - destruct Hg as (_ & ? & grantor & r & -> & Hr & ?). simpl. rewrite lookup_insert.
    case_decide as E; [injection E as <- <-|done]. right. eauto 6.
Qed.
End Privilege.

(** C23 -- Which rows of users, entities, apps and grants an accepted transaction may
    change, when the store does not fail.  A changed user row is the transaction's own
    user, new or authorized for the signer.  A changed entity or app belongs to the
    transaction's user, who is authorized for the signer.  A changed grant is one by the
    transaction's user, and the signer is authorized for that user or for the owner of
    the grantee's wallet; with one exception: a grant that is not revoked and not yet
    approved may be approved or rejected by the authorized signer of any user, also one
    that is neither side of it ([anyone_decides_pending_grants]). *)
Theorem only_authorized_signers_change_state cpu tx rules d d' (Hd : healthy d) :
  applyAuthProjection cpu tx rules d = (d', Ok tt) ->
  (forall uid, core_auth_users d' !! uid <> core_auth_users d !! uid ->
     uid = UserID tx /\ (core_auth_users d !! uid = None \/ authorized d uid (Signer tx))) /\
  (forall k, core_auth_entities d' !! k <> core_auth_entities d !! k ->
     authorized d (UserID tx) (Signer tx) /\
     exists e, core_auth_entities d' !! k = Some e /\ EntOwnerID e = UserID tx) /\
  (forall a, core_auth_developer_apps d' !! a <> core_auth_developer_apps d !! a ->
     authorized d (UserID tx) (Signer tx) /\
     exists r, core_auth_developer_apps d' !! a = Some r /\ AppOwnerID r = UserID tx) /\
  (forall g uid, core_auth_grants d' !! (g, uid) <> core_auth_grants d !! (g, uid) ->
     uid = UserID tx /\
       (authorized d uid (Signer tx) \/ exists u, wallet_owner d g u /\ authorized d u (Signer tx)) \/
     (exists approve, classify tx = OpGrantDecide approve) /\ authorized d (UserID tx) (Signer tx) /\
       exists r, core_auth_grants d !! (g, uid) = Some r /\ dbg_is_revoked r = false /\
                 dbg_is_approved r <> Some true).
Proof.
  intros E. destruct (applyAuthProjection_decides cpu tx rules d Hd) as [[Hg E']|[_ [r E']]]; [|congruence].
  rewrite E' in E. injection E as <-. split_and!.
  - by apply user_change_authorized.
  - by apply entity_change_authorized.
  - by apply app_change_authorized.
  - by apply grant_change_authorized.
Qed.

Lemma only_authorized_signers_change_state_witness :
  let tx := ex_tx 1 "Track" 2000001 "Delete" "0xB" [] in
  authorized ex_db 1 "0xB" /\
  core_auth_entities (fst (applyAuthProjection Arm64 tx content_rules ex_db)) !! ("Track", 2000001)
    = Some (mkAuthEntityRow 1 true).
Proof.
  split; [|vm_compute; reflexivity].
  refine (proj1 (proj1 (proj2 (only_authorized_signers_change_state Arm64
    (ex_tx 1 "Track" 2000001 "Delete" "0xB" []) content_rules ex_db _ ex_db_healthy _))
    ("Track", 2000001) _)); [vm_compute; reflexivity|vm_compute; discriminate].
Defined.

(** ** Content claims *)

(** A live transaction only ever adds a claim inside the assertion window,
    for its own authorized user, on a cid nobody had claimed: a first assertion
    can never take over an attested or asserted cid. *)
Theorem first_assertion_wins cpu tx rules d d' c uid (Hd : healthy d) :
  Migration tx = false ->
  applyAuthProjection cpu tx rules d = (d', Ok tt) ->
  claimed d' c uid -> ~ claimed d c uid ->
  uid = UserID tx /\ authorized d uid (Signer tx) /\ (forall u, ~ claimed d c u) /\
  ContentAuthEnforced rules = true /\ ContentAuthStrict rules = false.
Proof.
  intros Hl E Hc Hn.
  destruct (applyAuthProjection_decides cpu tx rules d Hd) as [[Hg E']|[_ [r E']]]; [|congruence].
  rewrite E' in E. injection E as <-.
  assert (Hnew : forall m, m = core_auth_cids d -> is_Some (asserted_claims tx rules m !! (c, uid)) ->
            assertion_window tx rules = true /\ uid = UserID tx /\ forall u, ~ claimed d c u).
  { intros m -> Ha. unfold asserted_claims in Ha.
    destruct (assertion_window tx rules) eqn:Ew; simpl in Ha; [|by destruct Hn].
    destruct (bool_decide _); [|by destruct Hn].
    apply assert_fold_new in Ha as [Ha|(-> & _ & Ha)]; [by destruct Hn|]. split_and!; [done..|].
    intros u [v Hv]. by rewrite Ha in Hv. }
  unfold claimed in Hc.
  destruct (classify tx) as [| |t| |t| | |b| | |]; simpl in Hg, Hc; try by destruct Hn.
  - unfold migrated_claims in Hc. rewrite Hl in Hc. simpl in Hc.
    destruct (Hnew _ eq_refl Hc) as (Ew & -> & ?).
    unfold assertion_window in Ew. rewrite Hl in Ew. apply andb_prop in Ew as [? ?%negb_true_iff]. tauto.
  - destruct (Hnew _ eq_refl Hc) as (Ew & -> & ?). specialize (Hg Ew).
    unfold assertion_window in Ew. rewrite Hl in Ew. apply andb_prop in Ew as [? ?%negb_true_iff]. tauto.
  - destruct (metaInt64 _ _ _); by destruct Hn.
Qed.

Lemma first_assertion_wins_witness :
  let tx := ex_tx 2 "Track" 2000002 "Create" "0xb"
              [("owner_id", JNum (F64 2 0)); ("track_cid", JStr "cid9"); ("preview_cid", JStr "cid1")] in
  let d' := fst (applyAuthProjection Amd64 tx content_rules ex_db) in
  claimed d' "cid9" 2 /\ ~ claimed d' "cid1" 2 /\ (forall u, ~ claimed ex_db "cid9" u).
Proof.
  split; [vm_compute; by eexists|]. split; [by vm_compute; intros [? ?]|].
  refine (proj1 (proj2 (proj2 (first_assertion_wins Amd64
    (ex_tx 2 "Track" 2000002 "Create" "0xb"
       [("owner_id", JNum (F64 2 0)); ("track_cid", JStr "cid9"); ("preview_cid", JStr "cid1")])
    content_rules ex_db _ "cid9" 2 ex_db_healthy _ _ _ _))));
    [reflexivity|vm_compute; reflexivity|vm_compute; by eexists|by vm_compute; intros [? ?]].
Defined.

Lemma check_track_cids_ok {S} `{AuthReader S} (st : S) tx rules keys :
  check_track_cids st tx rules keys = Ok tt ->
  forall k, k ∈ keys -> check_track_cid st tx rules k = Ok tt.
Proof.
  induction keys as [|x keys IH]; simpl; intros E k Hk; [by apply elem_of_nil in Hk|].
  destruct (check_track_cid st tx rules x) as [[]|] eqn:Ex; simpl in E; [|done].
  apply elem_of_cons in Hk as [->|Hk]; auto.
Qed.

(** Under the strict rules a live Track creation or update passes the content
    check only when every cid it names is claimed by its user; before that, only
    when no named cid belongs exclusively to others. *)
Theorem strict_content_requires_claims d tx rules key :
  healthy d -> Migration tx = false -> EntityType tx = "Track" ->
  (Action tx = "Create" \/ Action tx = "Update") ->
  validateTrackContentAuth d tx rules = Ok tt ->
  key ∈ trackCidMetadataKeys -> metaString tx key <> "" ->
  claimed d (metaString tx key) (UserID tx) \/
  ContentAuthStrict rules = false /\ forall u, ~ claimed d (metaString tx key) u.
Proof.
  intros Hd Hm Ht Ha E Hk Hc. unfold validateTrackContentAuth in E. rewrite Hm, Ht in E. simpl in E.
  assert (Hck : check_track_cids d tx rules trackCidMetadataKeys = Ok tt)
    by (destruct Ha as [Ha|Ha]; rewrite Ha in E; exact E).
  apply (check_track_cids_ok _ _ _ _ Hck) in Hk. unfold check_track_cid in Hk.
  destruct (String.eqb_spec (metaString tx key) ""); [done|]. cbn in Hk. rewrite !db_ask_ok in Hk by done.
  simpl in Hk. case_bool_decide; [by left|]. simpl in Hk.
  destruct (scan_any _ _) eqn:Es; simpl in Hk; [done|]. right.
  destruct (ContentAuthStrict rules); [done|]. split; [done|]. intros u [v Hv].
  rewrite scan_any_false in Es. specialize (Es _ _ Hv). simpl in Es. by rewrite String.eqb_refl in Es.
Qed.

Lemma strict_content_requires_claims_witness :
  let tx := ex_tx 1 "Track" 2000001 "Update" "0xa" [("track_cid", JStr "cid1")] in
  validateTrackContentAuth ex_db tx (mkRules true true true true true) = Ok tt /\ claimed ex_db "cid1" 1.
Proof.
  split; [vm_compute; reflexivity|].
  destruct (strict_content_requires_claims ex_db (ex_tx 1 "Track" 2000001 "Update" "0xa" [("track_cid", JStr "cid1")])
    (mkRules true true true true true) "track_cid") as [H|[H _]];
    [done|reflexivity|reflexivity|by right|vm_compute; reflexivity|vm_compute; left|vm_compute; discriminate
    |exact H|discriminate H].
Defined.
