(* ===== verification/AuthAgreement.v ===== *)
(** * Proposal validation and finalization agree

    The theorems that follow from the simulations: what validation accepts,
    finalization applies; a store failure never changes a verdict; and where
    the two can come apart. *)

From stdpp Require Import base gmap strings list fin_maps.
From Stdlib Require Import ZArith Lia Ascii.
From S2P Require Import Prelude Upgrades AuthState AuthStores AuthSpec AuthSim AuthRefine AuthInvariants Crypto Validators AuthEnforcement AuthTheorems.

Open Scope string_scope.
Open Scope Z_scope.

Lemma refines_new d : unique_wallets (core_auth_users d) -> refines d (newOverlayAuthStore d) (no_faults d).
Proof.
  intros Hu. split; simpl; try done. intros k. set_solver.
Qed.

(** ** One transaction *)

(** C3 -- On one ManageEntity transaction that is not a migration, the proposal
    overlay and the block store agree completely, under three conditions. The two
    are related by [refines]: the block tables are the overlay's rows over the
    committed ones, no two users share a wallet, and the block store does not fail.
    No user has given up a committed handle in the overlay. No user active in the
    committed tables is deactivated in the overlay. Then the transaction is accepted
    by both, or rejected by both for the same reason, and the states stay related; a
    failure of the committed store is the only other outcome. Without the third
    condition the two can disagree ([overlay_wallet_lookup_is_stale]). *)
Theorem overlay_agrees_with_block_store cpu tx rules b o d :
  refines b o d -> no_stale_handle o -> no_stale_active o -> Migration tx = false ->
  match applyAuthProjection cpu tx rules o with
  | (o', Ok _) => exists d', applyAuthProjection cpu tx rules d = (d', Ok tt) /\ refines b o' d'
  | (o', Err (ValidationError r)) =>
      exists d', applyAuthProjection cpu tx rules d = (d', Err (ValidationError r)) /\ refines b o' d'
  | (_, Err StoreError) => True
  end.
Proof.
  intros HR Hh Ha Hm.
  pose proof (applyAuthProjection_sim True (refines b) no_stale_handle no_stale_active False cpu tx rules) as H.
  specialize (H ltac:(congruence) o d ltac:(split; auto)). unfold rres in H.
  by destruct (applyAuthProjection cpu tx rules o) as [o' [[]|[r|]]]; [|apply H|].
Qed.

Lemma overlay_agrees_with_block_store_witness :
  let tx := ex_tx 1 "Track" 2000001 "Delete" "0xb" [] in
  exists d', applyAuthProjection Amd64 tx content_rules (no_faults ex_db) = (d', Ok tt) /\
    refines ex_db (fst (applyAuthProjection Amd64 tx content_rules (newOverlayAuthStore ex_db))) d'.
Proof.
  assert (Hr : refines ex_db (newOverlayAuthStore ex_db) (no_faults ex_db)) by apply refines_new, ex_db_unique.
  pose proof (overlay_agrees_with_block_store Amd64 (ex_tx 1 "Track" 2000001 "Delete" "0xb" []) content_rules
    ex_db (newOverlayAuthStore ex_db) (no_faults ex_db) Hr) as H.
  assert (H1 : no_stale_handle (newOverlayAuthStore ex_db)) by (intros ? ? ? E; discriminate E).
  assert (H2 : no_stale_active (newOverlayAuthStore ex_db)) by (intros ? ? ? E; discriminate E).
  exact (H H1 H2 eq_refl).
Defined.

(** A failing store never turns into a verdict: on a node where any set of
    statements fails, the projection either reports the failure or gives the
    verdict, and leaves the tables, that a healthy node gives. *)
Theorem store_failure_never_flips_verdict cpu tx rules d :
  match applyAuthProjection cpu tx rules d with
  | (d', Err StoreError) => True
  | (d', r) => applyAuthProjection cpu tx rules (no_faults d) = (no_faults d', r)
  end.
Proof.
  pose proof (applyAuthProjection_sim True faulty (fun _ => True) (fun _ => True) True cpu tx rules
    ltac:(auto) d (no_faults d) ltac:(by split)) as H.
  unfold rres in H. destruct (applyAuthProjection cpu tx rules d) as [d' [[]|[r|]]]; [| |done].
  - destruct H as (d2 & E & HR). unfold faulty in HR. subst d2. exact E.
  - destruct (H I) as (d2 & E & HR). unfold faulty in HR. subst d2. exact E.
Qed.

(** ** A whole proposal *)

(** No committed active user is deactivated in the block store. *)
Definition stays_active (b d : dbAuthStore) : Prop :=
  forall uid u r, core_auth_users b !! uid = Some u -> dbu_is_deactivated u = false ->
    core_auth_users d !! uid = Some r -> dbu_is_deactivated r = false.

Lemma stays_active_exact b o d : refines b o d -> stays_active b d -> no_stale_active o.
Proof.
  intros HR Hs uid u r Hu Hb Ha. rewrite (ref_base _ _ _ HR) in Hb.
  destruct (refines_overlay_user _ _ _ HR _ _ Hu) as (v & Hv & <-). exact (Hs _ _ _ Hb Ha Hv).
Qed.

Lemma stays_active_step cpu tx rules b o d d' :
  refines b o d -> stays_active b d -> metaBool tx "is_deactivated" <> Some true ->
  applyAuthProjection cpu tx rules d = (d', Ok tt) -> stays_active b d'.
Proof.
  intros HR Hs Hm E. destruct (applyAuthProjection_decides cpu tx rules d (ref_healthy _ _ _ HR))
    as [[Hg E']|[_ [r E']]]; [|congruence]. rewrite E' in E. injection E as <-.
  intros uid u r Hb Ha.
  destruct (refines_wallet_kept _ _ _ HR uid u) as (v & Hv & _); [by rewrite (ref_base _ _ _ HR)|].
  destruct (classify tx); simpl; try (by apply Hs with u).
  - destruct Hg as (Hn & _). rewrite lookup_insert. case_decide; [congruence|]. by apply Hs with u.
  - rewrite lookup_alter. case_decide; [subst|by apply Hs with u]. rewrite Hv. simpl. intros [= <-].
    pose proof (Hs _ _ _ Hb Ha Hv) as Hva. unfold update_row.
    destruct (metaBool tx "is_deactivated") as [[]|]; [done|done|]. by destruct (decide _).
  - destruct (metaInt64 _ _ _); simpl; by apply Hs with u.
Qed.

Section Proposal.
Context {C : EthCrypto} (HashStruct : TypedData -> td_struct -> option string) (cfg : acdc_config).
Context (json_decode : string -> option json) (cpu : arch) (rules : Rules).
Implicit Types ems : list ManageEntityLegacy.
#[local] Notation txOf := (authTxFromManageEntity json_decode).

(** The ManageEntity transactions of a proposal, checked in order on one overlay. *)
Definition validate_proposal ems : proc overlay tx_error unit :=
  for_each (validateManageEntityAuth HashStruct cfg json_decode cpu rules) ems.

(** What FinalizeBlock does with them. *)
Definition finalize_proposal ems : proc dbAuthStore auth_error unit :=
  for_each (fun em => applyAuthProjection cpu (txOf em) rules) ems.

(** The proposal revokes no grant, or deactivates no user. *)
Definition undisputed ems : Prop :=
  (forall em, em ∈ ems -> ~ is_grant_delete (txOf em)) \/
  (forall em, em ∈ ems -> metaBool (txOf em) "is_deactivated" <> Some true).

Lemma validate_projects em (o o' : overlay) :
  validateManageEntityAuth HashStruct cfg json_decode cpu rules em o = (o', Ok tt) ->
  applyAuthProjection cpu (txOf em) rules o = (o', Ok tt).
Proof using.
  unfold validateManageEntityAuth. intros H. repeat (case_hyp H; simplify_eq); try done.
  all: match goal with H : map_err _ ?r = Ok tt |- _ => destruct r as [[]|]; simpl in H; by simplify_eq end.
Qed.

Lemma undisputed_tail em ems : undisputed (em :: ems) -> undisputed ems.
Proof using. intros [H|H]; [left|right]; intros x Hx; apply H; by right. Qed.

Lemma proposal_sim b ems o d o' :
  refines b o d -> (stays_active b d \/ forall em, em ∈ ems -> ~ is_grant_delete (txOf em)) ->
  undisputed ems -> validate_proposal ems o = (o', Ok tt) ->
  exists d', finalize_proposal ems d = (d', Ok tt) /\ refines b o' d'.
Proof using.
  revert o d. induction ems as [|em ems IH]; intros o d HR Hact Hund E; cbn in E |- *.
  { injection E as <-. by exists d. }
  unfold pbind in E. destruct (validateManageEntityAuth _ _ _ _ _ _ _) as [o1 [[]|e]] eqn:E1; [|done].
  apply validate_projects in E1.
  pose proof (applyAuthProjection_sim False (refines b) no_stale_handle no_stale_active False cpu (txOf em) rules
    ltac:(done) o d) as H.
  cbn [authStore_reader authStore_writer overlay_store dbAuthStore_store] in H. rewrite E1 in H.
  destruct H as (d1 & Ed & HR1).
  { split; [done|]. split; [done|]. intros Hdel. destruct Hact as [Hact|Hact].
    - by eapply stays_active_exact.
    - destruct (Hact em); [left|done]. }
  unfold pbind. rewrite Ed. apply (IH o1 d1 HR1); [|by eapply undisputed_tail|exact E].
  destruct Hund as [Hund|Hund]; [right; intros x Hx; apply Hund; by right|].
  destruct Hact as [Hact|Hact]; [left|right; intros x Hx; apply Hact; by right].
  apply (stays_active_step cpu (txOf em) rules b o d d1 HR Hact); [apply Hund; left|exact Ed].
Qed.
End Proposal.

(** C2 -- What a validator accepts in a proposal, FinalizeBlock applies, provided
    that no two users of the committed table share a wallet and that the proposal
    does not both deactivate users and revoke grants. If every ManageEntity
    transaction passes in order on one overlay over the committed tables, then
    applying them in order to a block store that does not fail skips none of them
    and ends in the state the overlay describes. Live transactions keep the wallets
    unique; a table that a migration left with a shared wallet is outside this
    theorem. *)
Theorem accepted_proposal_applies {C : EthCrypto} HashStruct cfg json_decode cpu rules ems d o' :
  unique_wallets (core_auth_users d) -> undisputed json_decode ems ->
  validate_proposal (C := C) HashStruct cfg json_decode cpu rules ems (newOverlayAuthStore d) = (o', Ok tt) ->
  exists d', finalize_proposal json_decode cpu rules ems (no_faults d) = (d', Ok tt) /\ refines d o' d'.
Proof.
  intros Hu Hund E. eapply proposal_sim; [by apply refines_new| |done|exact E].
  left. intros uid u r Hb Ha Hr. simpl in Hr. congruence.
Qed.

(** ** A proposal, run *)

Definition ex_hash (_ : TypedData) (_ : td_struct) : option string := Some "h".
Definition ex_cfg : acdc_config := mkAcdcConfig "0x1Cd8a543596D499B9b6E7a6eC15ECd2B7857Fd64" 1056801.

(** Two documents and what they decode to. *)
Definition ex_json (raw : string) : option json :=
  if String.eqb raw "user" then Some (JObj [("handle", JStr "Kay")])
  else if String.eqb raw "track" then Some (JObj [("data", JObj [("owner_id", JNum (F64 9 0)); ("track_cid", JStr "cid7")])])
  else None.

(** A transaction signed with key [k]. *)
Definition ex_sign (uid : Z) (t : string) (id : Z) (a m : string) : ManageEntityLegacy :=
  let em := mkManageEntityLegacy uid t id a m "" "0x01" "" in
  default em (em' ← @SignManageEntity Toy.crypto ex_hash ex_cfg em "k"%char;
              @InjectSigner Toy.crypto ex_hash ex_cfg em').

(** Create user 9, then a track of user 9, which relies on the user. *)
Definition ex_proposal : list ManageEntityLegacy :=
  [ex_sign 9 "User" 9 "Create" "user"; ex_sign 9 "Track" 2000009 "Create" "track"].

Lemma accepted_proposal_applies_witness :
  exists o' d',
    validate_proposal (C := Toy.crypto) ex_hash ex_cfg ex_json Amd64 content_rules ex_proposal
      (newOverlayAuthStore ex_db) = (o', Ok tt) /\
    finalize_proposal ex_json Amd64 content_rules ex_proposal (no_faults ex_db) = (d', Ok tt) /\
    refines ex_db o' d'.
Proof.
  assert (Hr : snd (validate_proposal (C := Toy.crypto) ex_hash ex_cfg ex_json Amd64 content_rules ex_proposal
      (newOverlayAuthStore ex_db)) = Ok tt) by (vm_compute; reflexivity).
  destruct (validate_proposal (C := Toy.crypto) ex_hash ex_cfg ex_json Amd64 content_rules ex_proposal
      (newOverlayAuthStore ex_db)) as [o' r] eqn:E.
  simpl in Hr. subst r. exists o'.
  destruct (accepted_proposal_applies (C := Toy.crypto) ex_hash ex_cfg ex_json Amd64 content_rules ex_proposal
    ex_db o') as (d' & H1 & H2); [exact ex_db_unique| |exact E|exists d'; auto].
  left. intros em [->|[->|H]%elem_of_cons]%elem_of_cons [H1 _]; [vm_compute in H1; discriminate H1..|].
  by apply elem_of_nil in H.
Defined.

(** ** Where they come apart *)

(** User 2 deactivates its account and, in the same proposal, revokes the grant it
    holds from user 1. *)
Definition ex_deactivate : authTx := ex_tx 2 "User" 2 "Update" "0xb" [("is_deactivated", JBool true)].
Definition ex_revoke : authTx := ex_tx 1 "Grant" 0 "Delete" "0xb" [("grantee_address", JStr "0xb")].

Definition run_both {S} `{AuthStore S} (st : S) : S * res auth_error unit :=
  (applyAuthProjection Amd64 ex_deactivate content_rules ;;! applyAuthProjection Amd64 ex_revoke content_rules) st.

(** Proposal validation and finalization can disagree: in a proposal that
    deactivates a user and then revokes a grant through that user's wallet, the
    overlay's wallet lookup falls back to the committed, still active row and
    accepts, while the block store has no active user for the wallet and rejects;
    the revocation is voted in and then skipped, and the grant stays in force. *)
Theorem overlay_wallet_lookup_is_stale :
  snd (run_both (newOverlayAuthStore ex_db)) = Ok tt /\
  snd (run_both ex_db) = Err (ValidationError (NotAuthorizedToRevoke "0xb" "0xb" 1)) /\
  core_auth_grants (fst (run_both ex_db)) !! ("0xb", 1) = Some (mkDbGrant (Some true) false).
Proof. vm_compute. auto. Qed.

Definition ex_theft (entityType : string) : authTx :=
  ex_tx 2 entityType 2000005 "Create" "0xb" [("owner_id", JNum (F64 2 0)); ("track_cid", JStr "cid1")].

(** The content check compares the entity type byte for byte while the
    projection folds its case: a creation with type "Track" naming a cid claimed by
    someone else is rejected under the strict rules, and the same creation with type
    "track" passes the check and creates the same Track entity. *)
Theorem content_check_is_case_sensitive :
  let strict := mkRules true true true true true in
  validateTrackContentAuth ex_db (ex_theft "Track") strict
    = Err (ValidationError (CidNotUploadedFor "track_cid" "cid1" 2)) /\
  validateTrackContentAuth ex_db (ex_theft "track") strict = Ok tt /\
  snd (applyAuthProjection Amd64 (ex_theft "track") strict ex_db) = Ok tt /\
  core_auth_entities (fst (applyAuthProjection Amd64 (ex_theft "track") strict ex_db)) !! ("Track", 2000005)
    = Some (mkAuthEntityRow 2 false).
Proof. vm_compute. auto. Qed.

(** A user whose id is the largest int64, and a track that names its owner as 2^63. *)
Definition ex_big_db : dbAuthStore :=
  mkDbAuthStore (<[int64_max := user_row "0xa"]> ∅) ∅ ∅ ∅ ∅ (fun _ => false).
Definition ex_big_track : authTx :=
  ex_tx int64_max "Track" 2000001 "Create" "0xa" [("owner_id", JNum (F64 1 63))].

(** The verdict on a transaction whose metadata holds a number beyond int64
    depends on the processor: the conversion saturates on arm64, where the track is
    created, and yields the least int64 on amd64, where it is rejected. *)
Theorem out_of_range_metadata_is_cpu_dependent :
  snd (applyAuthProjection Arm64 ex_big_track content_rules ex_big_db) = Ok tt /\
  snd (applyAuthProjection Amd64 ex_big_track content_rules ex_big_db)
    = Err (ValidationError (OwnerMissingOrMismatched 2000001)).
Proof. vm_compute. auto. Qed.

(** Any user may decide any pending grant: the approver is checked against the
    transaction's own user only, so user 1, who is neither grantor nor grantee,
    rejects, and thereby revokes, user 2's pending grant to wallet 0xc. *)
Theorem anyone_decides_pending_grants :
  let tx := ex_tx 1 "Grant" 0 "Reject" "0xa"
              [("grantee_address", JStr "0xc"); ("grantor_user_id", JNum (F64 2 0))] in
  core_auth_grants ex_db !! ("0xc", 2) = Some (mkDbGrant None false) /\
  snd (applyAuthProjection Amd64 tx content_rules ex_db) = Ok tt /\
  core_auth_grants (fst (applyAuthProjection Amd64 tx content_rules ex_db)) !! ("0xc", 2)
    = Some (mkDbGrant (Some false) true).
Proof. vm_compute. auto. Qed.
