(* ===== verification/Encoding.v ===== *)
(** * Encodings of the Go standard library

    encoding/base64 (StdEncoding), encoding/binary (big-endian uint64) and
    strconv.ParseInt in base 10, on byte strings. *)

From stdpp Require Import base strings list.
From Stdlib Require Import ZArith Lia Ascii.
From S2P Require Import Prelude.

Open Scope string_scope.
Open Scope Z_scope.

Definition byte_val (c : ascii) : Z := Z.of_N (N_of_ascii c).
Definition to_byte (z : Z) : ascii := ascii_of_N (Z.to_N (z mod 256)).

(** ** base64 *)

Definition b64_digit (z : Z) : ascii :=
  if z <? 26 then to_byte (65 + z)
  else if z <? 52 then to_byte (71 + z)
  else if z <? 62 then to_byte (z - 4)
  else if z =? 62 then "+"%char else "/"%char.

Definition b64_value (c : ascii) : option Z :=
  let n := byte_val c in
  if (65 <=? n) && (n <=? 90) then Some (n - 65)
  else if (97 <=? n) && (n <=? 122) then Some (n - 71)
  else if (48 <=? n) && (n <=? 57) then Some (n + 4)
  else if n =? 43 then Some 62
  else if n =? 47 then Some 63
  else None.

Fixpoint base64_encode (s : string) : string :=
  match s with
  | EmptyString => ""
  | String a EmptyString =>
      let v := byte_val a * 65536 in
      String (b64_digit (v / 262144)) (String (b64_digit ((v / 4096) mod 64)) "==")
  | String a (String b EmptyString) =>
      let v := byte_val a * 65536 + byte_val b * 256 in
      String (b64_digit (v / 262144)) (String (b64_digit ((v / 4096) mod 64))
        (String (b64_digit ((v / 64) mod 64)) "="))
  | String a (String b (String c s')) =>
      let v := byte_val a * 65536 + byte_val b * 256 + byte_val c in
      String (b64_digit (v / 262144)) (String (b64_digit ((v / 4096) mod 64))
        (String (b64_digit ((v / 64) mod 64)) (String (b64_digit (v mod 64)) (base64_encode s'))))
  end.

(** Decoding of padded input without line breaks. *)
Fixpoint base64_decode (s : string) : option string :=
  match s with
  | EmptyString => Some ""
  | String d0 (String d1 (String d2 (String d3 s'))) =>
      v0 ← b64_value d0; v1 ← b64_value d1;
      if Ascii.eqb d2 "=" && Ascii.eqb d3 "=" then
        if String.eqb s' "" then Some (String (to_byte (v0 * 4 + v1 / 16)) "") else None
      else
        v2 ← b64_value d2;
        if Ascii.eqb d3 "=" then
          if String.eqb s' "" then
            Some (String (to_byte (v0 * 4 + v1 / 16)) (String (to_byte (v1 * 16 + v2 / 4)) ""))
          else None
        else
          v3 ← b64_value d3; t ← base64_decode s';
          Some (String (to_byte (v0 * 4 + v1 / 16)) (String (to_byte (v1 * 16 + v2 / 4))
            (String (to_byte (v2 * 64 + v3)) t)))
  | _ => None
  end.

(** ** binary.BigEndian *)

Definition be_uint64 (z : Z) : string :=
  let b i := to_byte (z / 2 ^ (8 * i)) in
  String (b 7) (String (b 6) (String (b 5) (String (b 4)
    (String (b 3) (String (b 2) (String (b 1) (String (b 0) ""))))))).

(** ** strconv.ParseInt(s, 10, 64) *)

Fixpoint parse_digits (s : string) (acc : Z) : option Z :=
  match s with
  | EmptyString => Some acc
  | String c s' =>
      let n := byte_val c in
      if (48 <=? n) && (n <=? 57) then parse_digits s' (acc * 10 + (n - 48)) else None
  end.

Definition parse_uint (s : string) : option Z :=
  if String.eqb s "" then None else parse_digits s 0.

Definition ParseInt (s : string) : option Z :=
  match s with
  | EmptyString => None
  | String c s' =>
      let n := byte_val c in
      let neg := n =? 45 in
      un ← parse_uint (if (n =? 43) || neg then s' else s);
      if neg then if un <=? 2 ^ 63 then Some (- un) else None
      else if un <? 2 ^ 63 then Some un else None
  end.

(** strconv.FormatInt(z, 10) of a number that is not negative and below [10 ^ fuel]. *)
Fixpoint decimal (fuel : nat) (z : Z) (s : string) : string :=
  match fuel with
  | O => s
  | S fuel' =>
      if z <? 10 then String (to_byte (48 + z)) s
      else decimal fuel' (z / 10) (String (to_byte (48 + z mod 10)) s)
  end.

Definition FormatInt (z : Z) : string := if z <? 0 then "-" +:+ decimal 20 (- z) "" else decimal 20 z "".

(** ** Lemmas *)

Lemma byte_val_range c : 0 <= byte_val c < 256.
Proof. unfold byte_val. pose proof (N_ascii_bounded c). lia. Qed.

Lemma byte_val_to_byte z : byte_val (to_byte z) = z mod 256.
Proof.
  unfold byte_val, to_byte. pose proof (Z.mod_pos_bound z 256 ltac:(lia)).
  rewrite N_ascii_embedding by lia. lia.
Qed.

Lemma to_byte_val c : to_byte (byte_val c) = c.
Proof.
  unfold to_byte, byte_val. pose proof (N_ascii_bounded c).
  rewrite Z.mod_small by lia. rewrite N2Z.id. apply ascii_N_embedding.
Qed.

Lemma to_byte_mod z c : z mod 256 = byte_val c -> to_byte z = c.
Proof.
  intros E. rewrite <- (to_byte_val c). unfold to_byte. rewrite <- E. by rewrite Z.mod_mod by lia.
Qed.

Lemma b64_value_digit z : 0 <= z < 64 -> b64_value (b64_digit z) = Some z.
Proof.
  intros H. assert (Hin : List.In (Z.to_nat z) (List.seq 0 64)) by (apply in_seq; lia).
  rewrite <- (Z2Nat.id z) by lia. revert Hin. generalize (Z.to_nat z). clear. intros n Hn.
  assert (H : List.forallb (fun n => bool_decide (b64_value (b64_digit (Z.of_nat n)) = Some (Z.of_nat n)))
    (List.seq 0 64) = true) by (vm_compute; reflexivity).
  rewrite List.forallb_forall in H. by apply H, bool_decide_eq_true in Hn.
Qed.

(** A digit is never the padding. *)
Lemma b64_digit_not_pad z : 0 <= z < 64 -> Ascii.eqb (b64_digit z) "=" = false.
Proof.
  intros H. destruct (Ascii.eqb_spec (b64_digit z) "=") as [E|]; [|done].
  apply (f_equal b64_value) in E. rewrite b64_value_digit in E by done. by vm_compute in E.
Qed.

(** Induction three bytes at a time. *)
Lemma string_ind3 (P : string -> Prop) :
  P "" -> (forall a, P (String a "")) -> (forall a b, P (String a (String b ""))) ->
  (forall a b c s, P s -> P (String a (String b (String c s)))) -> forall s, P s.
Proof.
  intros H0 H1 H2 H3. fix IH 1. intros [|a [|b [|c s]]]; [exact H0|apply H1|apply H2|apply H3, IH].
Qed.

Ltac b64_side := repeat rewrite b64_value_digit by (Z.to_euclidean_division_equations; lia);
  repeat rewrite b64_digit_not_pad by (Z.to_euclidean_division_equations; lia).

Lemma base64_roundtrip s : base64_decode (base64_encode s) = Some s.
Proof.
  induction s as [|a|a b|a b c s IH] using string_ind3; [done|..];
    pose proof (byte_val_range a); try pose proof (byte_val_range b); try pose proof (byte_val_range c);
    cbn [base64_encode base64_decode]; b64_side; cbn [mbind option_bind].
  - change (Ascii.eqb "=" "=") with true. change (String.eqb "" "") with true. cbn [andb].
    f_equal. f_equal. apply to_byte_mod. Z.to_euclidean_division_equations. lia.
  - change (Ascii.eqb "=" "=") with true. change (String.eqb "" "") with true. cbn [andb].
    f_equal. f_equal; [|f_equal]; apply to_byte_mod; Z.to_euclidean_division_equations; lia.
  - cbn [andb]. rewrite IH. cbn [mbind option_bind].
    f_equal. f_equal; [|f_equal; [|f_equal]]; apply to_byte_mod; Z.to_euclidean_division_equations; lia.
Qed.

Lemma be_uint64_length z : String.length (be_uint64 z) = 8%nat.
Proof. reflexivity. Qed.

Lemma digit_step x y k :
  0 <= k -> (x / 2 ^ k) mod 256 = (y / 2 ^ k) mod 256 -> x / 2 ^ (k + 8) = y / 2 ^ (k + 8) ->
  x / 2 ^ k = y / 2 ^ k.
Proof.
  intros Hk Hm Hd. rewrite !Z.pow_add_r, <- !Z.div_div in Hd by lia. change (2 ^ 8) with 256 in Hd.
  rewrite (Z.div_mod (x / 2 ^ k) 256), (Z.div_mod (y / 2 ^ k) 256) by lia. congruence.
Qed.

(** The eight bytes of a uint64 determine it. *)
Lemma be_uint64_inj x y :
  0 <= x < 2 ^ 64 -> 0 <= y < 2 ^ 64 -> be_uint64 x = be_uint64 y -> x = y.
Proof.
  intros Hx Hy E. unfold be_uint64 in E. injection E as E7 E6 E5 E4 E3 E2 E1 E0.
  repeat match goal with H : to_byte _ = to_byte _ |- _ =>
    apply (f_equal byte_val) in H; rewrite !byte_val_to_byte in H end.
  assert (E8 : x / 2 ^ (56 + 8) = y / 2 ^ (56 + 8)) by (change (56 + 8) with 64; rewrite !Z.div_small; lia).
  apply digit_step in E8; [|lia|exact E7]. apply (digit_step _ _ 48) in E8; [|lia|exact E6].
  apply (digit_step _ _ 40) in E8; [|lia|exact E5]. apply (digit_step _ _ 32) in E8; [|lia|exact E4].
  apply (digit_step _ _ 24) in E8; [|lia|exact E3]. apply (digit_step _ _ 16) in E8; [|lia|exact E2].
  apply (digit_step _ _ 8) in E8; [|lia|exact E1]. apply (digit_step _ _ 0) in E8; [|lia|exact E0].
  change (2 ^ 0) with 1 in E8. by rewrite !Z.div_1_r in E8.
Qed.

Lemma append_inj_length (s s' t t' : string) :
  String.length s = String.length s' -> s +:+ t = s' +:+ t' -> s = s' /\ t = t'.
Proof.
  revert s'. induction s as [|c s IH]; intros [|c' s']; simpl; intros Hl E; try done.
  injection Hl as Hl. injection E as -> E. destruct (IH s' Hl E) as [-> ->]. done.
Qed.

Lemma length_append (s t : string) : String.length (s +:+ t) = (String.length s + String.length t)%nat.
Proof. induction s as [|c s IH]; [done|]. simpl. f_equal. exact IH. Qed.

(** ** Numbers as text *)

Lemma digit_val d : 0 <= d < 10 -> byte_val (to_byte (48 + d)) = 48 + d.
Proof. intros. rewrite byte_val_to_byte, Z.mod_small; lia. Qed.

Lemma parse_digit d s acc : 0 <= d < 10 -> parse_digits (String (to_byte (48 + d)) s) acc = parse_digits s (acc * 10 + d).
Proof.
  intros Hd. cbn [parse_digits]. rewrite digit_val by done. rewrite !(proj2 (Z.leb_le _ _)) by lia. cbn [andb]. f_equal. lia.
Qed.

Lemma parse_decimal fuel : forall z s, 0 <= z < 10 ^ Z.of_nat fuel -> (0 < fuel)%nat ->
  parse_digits (decimal fuel z s) 0 = parse_digits s z.
Proof.
  induction fuel as [|fuel IH]; intros z s Hz Hf; [lia|]. cbn [decimal]. destruct (Z.ltb_spec z 10).
  - rewrite parse_digit by lia. f_equal.
  - rewrite Nat2Z.inj_succ, Z.pow_succ_r in Hz by lia. pose proof (Z.div_mod z 10 ltac:(lia)). pose proof (Z.mod_pos_bound z 10 ltac:(lia)).
    assert (0 < fuel)%nat by (destruct fuel; [cbn in Hz; lia|lia]).
    rewrite IH by (try split; try apply Z.div_pos; try apply Z.div_lt_upper_bound; lia).
    rewrite parse_digit by lia. f_equal. lia.
Qed.

Lemma decimal_cons fuel : forall z s, 0 <= z -> (0 < fuel)%nat ->
  exists c s', decimal fuel z s = String c s' /\ (fuel = O \/ z < 10 ^ Z.of_nat fuel -> 48 <= byte_val c <= 57).
Proof.
  induction fuel as [|fuel IH]; intros z s Hz Hf; [lia|]. cbn [decimal]. destruct (Z.ltb_spec z 10).
  { eexists _, _. split; [done|]. intros _. rewrite digit_val; lia. }
  pose proof (Z.mod_pos_bound z 10 ltac:(lia)) as Hm. destruct fuel as [|fuel].
  - eexists _, _. split; [done|]. intros _. rewrite digit_val; lia.
  - destruct (IH (z / 10) (String (to_byte (48 + z mod 10)) s)) as (c & s' & -> & Hc); [apply Z.div_pos; lia|lia|].
    exists c, s'. split; [done|]. intros [|Hlt]; [done|]. apply Hc. right.
    rewrite (Nat2Z.inj_succ (S fuel)), Z.pow_succ_r in Hlt by lia. apply Z.div_lt_upper_bound; lia.
Qed.

Lemma ParseInt_FormatInt z : 0 <= z < 2 ^ 63 -> ParseInt (FormatInt z) = Some z.
Proof.
  intros Hz. unfold FormatInt. rewrite (proj2 (Z.ltb_ge _ _)) by lia.
  pose proof (parse_decimal 20 z "" ltac:(change (10 ^ Z.of_nat 20) with 100000000000000000000; lia) ltac:(lia)) as Hp.
  destruct (decimal_cons 20 z "" ltac:(lia) ltac:(lia)) as (c & s' & E & Hc). rewrite E in *.
  specialize (Hc ltac:(right; change (10 ^ Z.of_nat 20) with 100000000000000000000; lia)).
  cbn [ParseInt]. rewrite !(proj2 (Z.eqb_neq _ _)) by lia. cbn [orb]. unfold parse_uint.
  change (String.eqb (String c s') "") with false. cbv iota. rewrite Hp. cbn [parse_digits mbind option_bind].
  by rewrite (proj2 (Z.ltb_lt _ _)) by lia.
Qed.

Lemma FormatInt_inj a b : 0 <= a < 2 ^ 63 -> 0 <= b < 2 ^ 63 -> FormatInt a = FormatInt b -> a = b.
Proof. intros Ha Hb H. apply (f_equal ParseInt) in H. rewrite !ParseInt_FormatInt in H by done. congruence. Qed.
