(* ===== verification/Rendezvous.v ===== *)
(** * Rendezvous hashing and content addresses

    Models pkg/common/rendezvous.go (who attests for a key, how hosts are
    ranked) and pkg/common/address.go (addresses of objects created by a
    transaction). *)

From stdpp Require Import base gmap strings list sorting.
From Stdlib Require Import ZArith Lia Ascii.
From S2P Require Import Prelude Crypto.

Open Scope string_scope.
Open Scope Z_scope.

(** ** Tuples *)

(** NodeTuple and HostTuple: a name and its score. *)
Record NodeTuple := mkNodeTuple {
  addr : string;
  score : string
}.

Definition Less (a b : NodeTuple) : bool :=
  match String.compare (score a) (score b) with
  | Eq => String.ltb (addr a) (addr b)
  | Lt => true
  | Gt => false
  end.

(** sort.Sort leaves a permutation in which no element is [Less] than an earlier
    one. *)
Definition tuple_le (a b : NodeTuple) : Prop := Less b a = false.
#[export] Instance tuple_le_dec a b : Decision (tuple_le a b).
Proof. unfold tuple_le. apply _. Defined.

Definition sort_tuples : list NodeTuple -> list NodeTuple := merge_sort tuple_le.

Section Hashing.
Context (sha256 : string -> string).

Definition tuple_of (key : string) (a : string) : NodeTuple := mkNodeTuple a (sha256 (a +:+ key)).

(** Names in the order of their tuples. *)
Definition ranked (key : string) (names : list string) : list string :=
  addr <$> sort_tuples (tuple_of key <$> names).

Definition GetAttestorRendezvous (validatorAddresses : list string) (key : string) (size : Z) : gset string :=
  let tuples := sort_tuples (tuple_of key <$> validatorAddresses) in
  let bound := Z.min (Z.of_nat (length tuples)) size in
  list_to_set (addr <$> take (Z.to_nat bound) tuples).

(** ** RendezvousHasher *)

Record RendezvousHasher := mkRendezvousHasher { hosts : list string }.

(** [strings.Contains(h, dead)]. *)
Fixpoint Contains (s sub : string) : bool :=
  String.prefix sub s ||
  match s with
  | EmptyString => false
  | String _ s' => Contains s' sub
  end.

(** [url.Parse] succeeds. *)
Context (url_parses : string -> bool).

Fixpoint filter_live (hs deadHosts live : list string) : list string :=
  match hs with
  | [] => live
  | h :: hs' =>
      filter_live hs' deadHosts
        (if existsb (fun dead => Contains h dead || String.eqb h dead) deadHosts then live
         else if negb (url_parses h) then live
         else if bool_decide (h ∈ live) then live
         else app live [h])
  end.

Definition filterLiveHosts (hs deadHosts : list string) : list string := filter_live hs deadHosts [].

Definition NewRendezvousHasher (hs deadHosts : list string) : RendezvousHasher :=
  mkRendezvousHasher (filterLiveHosts hs deadHosts).

Definition UpdateHosts (rh : RendezvousHasher) (hs deadHosts : list string) : RendezvousHasher :=
  mkRendezvousHasher (filterLiveHosts hs deadHosts).

Definition Rank (rh : RendezvousHasher) (key : string) : list string := ranked key (hosts rh).
End Hashing.

(** ** Lemmas: the tuple order *)

Lemma compare_leb s t : String.leb s t = match String.compare s t with Gt => false | _ => true end.
Proof. reflexivity. Qed.

Lemma compare_refl s : String.compare s s = Eq.
Proof. pose proof (String.compare_antisym s s). by destruct (String.compare s s). Qed.

Lemma tuple_le_lex a b :
  tuple_le a b <-> (String.le (score a) (score b) /\ (score a = score b -> String.le (addr a) (addr b))).
Proof.
  unfold tuple_le, Less, String.le. rewrite !compare_leb.
  rewrite (String.compare_antisym (score a) (score b)).
  destruct (String.compare (score b) (score a)) eqn:E; cbn.
  - apply String.compare_eq_iff in E. rewrite E. unfold String.ltb.
    rewrite (String.compare_antisym (addr a) (addr b)).
    destruct (String.compare (addr b) (addr a)); cbn; naive_solver.
  - split; [done|]. intros [[] _].
  - split; [|done]. intros _. split; [done|]. intros Heq. by rewrite Heq, compare_refl in E.
Qed.

#[export] Instance tuple_le_trans : Transitive tuple_le.
Proof.
  intros a b c. rewrite !tuple_le_lex. intros [H1 H2] [H3 H4]. split; [by etrans|]. intros E.
  assert (score a = score b) as Eab.
  { apply (anti_symm String.le); [done|]. by rewrite E. }
  etrans; [by apply H2|]. apply H4. congruence.
Qed.

#[export] Instance tuple_le_total : Total tuple_le.
Proof.
  intros a b. unfold tuple_le, Less. rewrite (String.compare_antisym (score a) (score b)).
  destruct (String.compare (score b) (score a)); cbn; [|by right|by left].
  unfold String.ltb. rewrite (String.compare_antisym (addr a) (addr b)).
  destruct (String.compare (addr b) (addr a)); cbn; auto.
Qed.

#[export] Instance tuple_le_antisymm : AntiSymm (=) tuple_le.
Proof.
  intros [a s] [b t]. rewrite !tuple_le_lex. cbn. intros [H1 H2] [H3 H4].
  assert (s = t) as -> by (by apply (anti_symm String.le)).
  f_equal. apply (anti_symm String.le); auto.
Qed.

(** Sorting does not depend on the order of its input. *)
Lemma sort_tuples_perm l l' : l ≡ₚ l' -> sort_tuples l = sort_tuples l'.
Proof.
  intros H. apply (Sorted_unique tuple_le); [apply Sorted_merge_sort; apply _..|].
  unfold sort_tuples. by rewrite !merge_sort_Permutation.
Qed.

Lemma sort_tuples_sorted l : Sorted tuple_le l -> sort_tuples l = l.
Proof.
  intros H. apply (Sorted_unique tuple_le); [apply Sorted_merge_sort; apply _|done|].
  apply merge_sort_Permutation.
Qed.

Lemma StronglySorted_filter_bool (p : NodeTuple -> bool) l :
  StronglySorted tuple_le l -> StronglySorted tuple_le (List.filter p l).
Proof.
  induction 1 as [|x l Hs IH Hx]; simpl; [constructor|]. destruct (p x); [|done].
  constructor; [done|]. apply Forall_forall. intros y Hy. rewrite Forall_forall in Hx. apply Hx.
  apply list_elem_of_In in Hy. apply filter_In in Hy as [Hy _]. by apply list_elem_of_In.
Qed.

Lemma Permutation_filter_bool {A} (p : A -> bool) (l l' : list A) :
  l ≡ₚ l' -> List.filter p l ≡ₚ List.filter p l'.
Proof.
  induction 1 as [|x l l' _ IH|x y l|l l' l'' _ IH1 _ IH2]; simpl.
  - done.
  - destruct (p x); [by rewrite IH|done].
  - destruct (p x), (p y); try done. constructor.
  - by rewrite IH1.
Qed.

(** Dropping tuples before or after sorting is the same. *)
Lemma sort_tuples_filter (p : NodeTuple -> bool) l :
  sort_tuples (List.filter p l) = List.filter p (sort_tuples l).
Proof.
  apply (Sorted_unique tuple_le).
  - apply Sorted_merge_sort; apply _.
  - apply StronglySorted_Sorted, StronglySorted_filter_bool, StronglySorted_merge_sort; apply _.
  - unfold sort_tuples. rewrite merge_sort_Permutation. apply Permutation_filter_bool.
    symmetry. apply merge_sort_Permutation.
Qed.

Lemma filter_fmap_bool {A B} (f : A -> B) (p : B -> bool) (l : list A) :
  List.filter p (f <$> l) = f <$> List.filter (fun x => p (f x)) l.
Proof.
  induction l as [|x l IH]; [done|]. rewrite fmap_cons. cbn [List.filter].
  destruct (p (f x)); [by rewrite fmap_cons, IH|done].
Qed.

Section Facts.
Context (sha256 : string -> string).

Lemma ranked_perm key names : ranked sha256 key names ≡ₚ names.
Proof using.
  unfold ranked, sort_tuples. rewrite merge_sort_Permutation. rewrite <- list_fmap_compose.
  rewrite <- (list_fmap_id names) at 2. done.
Qed.

Lemma ranked_remove key (p : string -> bool) names :
  ranked sha256 key (List.filter p names) = List.filter p (ranked sha256 key names).
Proof using.
  unfold ranked. rewrite (filter_fmap_bool addr p), <- sort_tuples_filter.
  f_equal. f_equal. by rewrite (filter_fmap_bool (tuple_of sha256 key)).
Qed.

Lemma rendezvous_take l key size :
  GetAttestorRendezvous sha256 l key size = list_to_set (take (Z.to_nat size) (ranked sha256 key l)).
Proof using.
  unfold GetAttestorRendezvous, ranked. set (t := sort_tuples _). rewrite fmap_take.
  f_equal. destruct (Z.le_gt_cases (Z.of_nat (length t)) size).
  - rewrite Z.min_l by done. rewrite Nat2Z.id, take_ge, take_ge; [done|..].
    + rewrite length_fmap. lia.
    + rewrite length_fmap. lia.
  - by rewrite Z.min_r by lia.
Qed.
End Facts.

(** ** Content addresses *)

(** Conversion of an int64 to rune (int32). *)
Definition to_rune (z : Z) : Z := (z + 2 ^ 31) mod 2 ^ 32 - 2 ^ 31.

Definition byte_of_Z (z : Z) : ascii := ascii_of_N (Z.to_N (z mod 256)).

(** [string(r)]: the UTF-8 encoding of [r], of U+FFFD when [r] is not a Unicode
    code point. *)
Definition string_of_rune (r : Z) : string :=
  let r := if (r <? 0) || (1114111 <? r) || ((55296 <=? r) && (r <=? 57343)) then 65533 else r in
  if r <? 128 then String (byte_of_Z r) ""
  else if r <? 2048 then
    String (byte_of_Z (192 + r / 64)) (String (byte_of_Z (128 + r mod 64)) "")
  else if r <? 65536 then
    String (byte_of_Z (224 + r / 4096))
      (String (byte_of_Z (128 + (r / 64) mod 64)) (String (byte_of_Z (128 + r mod 64)) ""))
  else
    String (byte_of_Z (240 + r / 262144))
      (String (byte_of_Z (128 + (r / 4096) mod 64))
         (String (byte_of_Z (128 + (r / 64) mod 64)) (String (byte_of_Z (128 + r mod 64)) ""))).

(** [s[n:]]. *)
Fixpoint str_drop (n : nat) (s : string) : string :=
  match n, s with
  | S n', String _ s' => str_drop n' s'
  | _, _ => s
  end.

Section Address.
Context {C : EthCrypto}.

Definition CreateAddress (txhash chainId : string) (blockHeight txindex : Z) (discriminator : string) : string :=
  let contentHash := keccak256 txhash in
  let saltInput := discriminator +:+ ":" +:+ chainId +:+ ":" +:+ string_of_rune (to_rune blockHeight)
                   +:+ ":" +:+ string_of_rune (to_rune txindex) in
  let saltHash := sha256 saltInput in
  let preimage := String (ascii_of_N 255) chainId +:+ saltHash +:+ contentHash in
  "0x" +:+ hex_encode (str_drop 12 (keccak256 preimage)).

Definition HexToBytes (a : string) : option string := hex_decode (TrimPrefix "0x" a).
Definition BytesToHex (b : string) : string := "0x" +:+ hex_encode b.

Definition CreateERNAddress txhash chainId blockHeight txindex messageID :=
  CreateAddress txhash chainId blockHeight txindex ("ern:" +:+ messageID).
Definition CreatePartyAddress txhash chainId blockHeight txindex partyReference :=
  CreateAddress txhash chainId blockHeight txindex ("party:" +:+ partyReference).
Definition CreateResourceAddress txhash chainId blockHeight txindex resourceReference :=
  CreateAddress txhash chainId blockHeight txindex ("resource:" +:+ resourceReference).
Definition CreateReleaseAddress txhash chainId blockHeight txindex releaseReference :=
  CreateAddress txhash chainId blockHeight txindex ("release:" +:+ releaseReference).
Definition CreateDealAddress txhash chainId blockHeight txindex dealReference :=
  CreateAddress txhash chainId blockHeight txindex ("deal:" +:+ dealReference).

(** Every height past the last code point is encoded as the replacement character. *)
Lemma string_of_large_rune z :
  1114111 < z < 2 ^ 31 -> string_of_rune (to_rune z) = string_of_rune 65533.
Proof using.
  intros H. unfold to_rune. rewrite Z.mod_small by lia. replace (z + 2 ^ 31 - 2 ^ 31) with z by lia.
  unfold string_of_rune. assert (E : (1114111 <? z) = true) by lia. rewrite E, orb_true_r. reflexivity.
Qed.

(** Addresses are salted with the block height and the transaction index as
    single runes: past height 1114111 every height contributes the same replacement
    character, so the address no longer depends on the height. *)
Theorem address_ignores_large_heights txhash chainId h1 h2 txindex discriminator :
  1114111 < h1 < 2 ^ 31 -> 1114111 < h2 < 2 ^ 31 ->
  CreateAddress txhash chainId h1 txindex discriminator = CreateAddress txhash chainId h2 txindex discriminator.
Proof using.
  intros H1 H2. unfold CreateAddress.
  by rewrite (string_of_large_rune h1 H1), (string_of_large_rune h2 H2).
Qed.

(** Hex addresses round-trip through bytes. *)
Theorem hex_bytes_roundtrip b : HexToBytes (BytesToHex b) = Some b.
Proof using. unfold HexToBytes, BytesToHex. by rewrite TrimPrefix_0x, hex_decode_encode. Qed.
End Address.

Lemma address_ignores_large_heights_witness :
  @CreateAddress Toy.crypto "h" "c" 35005210 0 "ern:message" = @CreateAddress Toy.crypto "h" "c" 35005211 0 "ern:message" /\
  @CreateAddress Toy.crypto "h" "c" 100 0 "ern:message" <> @CreateAddress Toy.crypto "h" "c" 101 0 "ern:message".
Proof.
  split; [apply (@address_ignores_large_heights Toy.crypto); lia|vm_compute; discriminate].
Defined.

(** ** Properties of the selection *)

Lemma take_filter_subset {A} (p : A -> bool) n (l : list A) x :
  x ∈ take n l -> p x = true -> x ∈ take n (List.filter p l).
Proof.
  revert n. induction l as [|y l IH]; intros [|n]; simpl; try (by intros []%elem_of_nil).
  intros [->|Hx]%elem_of_cons Hp.
  - rewrite Hp. left.
  - destruct (p y); [by right; apply IH|].
    apply IH in Hx; [|done]. rewrite elem_of_take in Hx |- *. destruct Hx as (i & ? & ?).
    exists i. split; [done|lia].
Qed.

(** A host the hasher keeps. *)
Definition live_host (ok : string -> bool) (dead : list string) (h : string) : Prop :=
  ok h = true /\ existsb (fun x => Contains h x || String.eqb h x) dead = false.

Lemma filter_live_spec (ok : string -> bool) dead hs live :
  NoDup live ->
  NoDup (filter_live ok hs dead live) /\
  forall h, h ∈ filter_live ok hs dead live <-> h ∈ live \/ h ∈ hs /\ live_host ok dead h.
Proof.
  revert live. induction hs as [|h hs IH]; intros live Hd; cbn [filter_live].
  { split; [done|]. intros x. rewrite elem_of_nil. tauto. }
  assert (Hskip : (live_host ok dead h -> h ∈ live) ->
    NoDup (filter_live ok hs dead live) /\
    forall x, x ∈ filter_live ok hs dead live <-> x ∈ live \/ x ∈ h :: hs /\ live_host ok dead x).
  { intros Hh. destruct (IH live Hd) as [H1 H2]. split; [done|]. intros x. rewrite H2, elem_of_cons.
    destruct (decide (x = h)) as [->|]; tauto. }
  destruct (existsb _ dead) eqn:Ed; [apply Hskip; intros [_ ?]; congruence|].
  destruct (ok h) eqn:Eo; cbn [negb]; [|apply Hskip; intros [? _]; congruence].
  case_bool_decide as Hin; [by apply Hskip|].
  destruct (IH (app live [h])) as [H1 H2].
  { apply NoDup_app. split_and!; [done| |apply NoDup_singleton]. by intros x Hx ->%list_elem_of_singleton. }
  assert (Hl : live_host ok dead h) by done.
  split; [done|]. intros x. rewrite H2, elem_of_app, list_elem_of_singleton, elem_of_cons.
  destruct (decide (x = h)) as [->|]; tauto.
Qed.

Section Properties.
Context (sha256 : string -> string).

(** Attestor selection and host ranking do not depend on the order in which
    rows are read: validators that see the same set in different orders select the
    same attestors and rank hosts alike. *)
Theorem rendezvous_order_independent l l' key size rh rh' :
  l ≡ₚ l' -> hosts rh ≡ₚ hosts rh' ->
  GetAttestorRendezvous sha256 l key size = GetAttestorRendezvous sha256 l' key size /\
  Rank sha256 rh key = Rank sha256 rh' key.
Proof using.
  intros Hl Hh. unfold GetAttestorRendezvous, Rank, ranked.
  rewrite (sort_tuples_perm (tuple_of sha256 key <$> l) (tuple_of sha256 key <$> l')) by (by rewrite Hl).
  by rewrite (sort_tuples_perm (tuple_of sha256 key <$> hosts rh) (tuple_of sha256 key <$> hosts rh'))
    by (by rewrite Hh).
Qed.

(** Removing nodes disturbs nobody else: ranking the remaining hosts is the old
    ranking with the removed hosts dropped, and an attestor that was selected and is
    still present stays selected. *)
Theorem rendezvous_minimal_disruption (p : string -> bool) l key size a :
  Rank sha256 (mkRendezvousHasher (List.filter p l)) key = List.filter p (Rank sha256 (mkRendezvousHasher l) key) /\
  (a ∈ GetAttestorRendezvous sha256 l key size -> p a = true ->
   a ∈ GetAttestorRendezvous sha256 (List.filter p l) key size).
Proof using.
  split; [apply ranked_remove|]. rewrite !rendezvous_take, !elem_of_list_to_set, ranked_remove.
  apply take_filter_subset.
Qed.

Lemma NoDup_ranked key l : NoDup l -> NoDup (ranked sha256 key l).
Proof using. by rewrite ranked_perm. Qed.

(** The selection has the requested size: as many attestors as asked for, or
    every validator when there are fewer, each of them a validator. *)
Theorem rendezvous_selection_size l key n :
  NoDup l -> 0 <= n ->
  Z.of_nat (size (GetAttestorRendezvous sha256 l key n)) = Z.min n (Z.of_nat (length l)) /\
  (forall a, a ∈ GetAttestorRendezvous sha256 l key n -> a ∈ l).
Proof using.
  intros Hd Hn. rewrite rendezvous_take. split.
  - rewrite size_list_to_set.
    + rewrite length_take, (Permutation_length (ranked_perm sha256 key l)). lia.
    + apply (sublist_NoDup _ (ranked sha256 key l)); [by apply NoDup_ranked|apply sublist_take].
  - intros a. rewrite elem_of_list_to_set. intros Ha%subseteq_take. by rewrite ranked_perm in Ha.
Qed.

(** A hasher ranks exactly the live hosts, each once: those given, not matched
    by the dead list, with a valid URL, duplicates dropped. *)
Theorem hasher_ranks_live_hosts (ok : string -> bool) hs dead key :
  let r := Rank sha256 (NewRendezvousHasher ok hs dead) key in
  NoDup r /\
  forall h, h ∈ r <-> h ∈ hs /\ live_host ok dead h.
Proof using.
  intros r. unfold r, Rank, NewRendezvousHasher, filterLiveHosts. cbn [hosts].
  destruct (filter_live_spec ok dead hs [] (NoDup_nil_2)) as [H1 H2]. split; [by apply NoDup_ranked|].
  intros h. rewrite ranked_perm, H2, elem_of_nil. tauto.
Qed.
End Properties.

Lemma rendezvous_order_independent_witness :
  GetAttestorRendezvous (fun s => s) ["0xb"; "0xa"; "0xc"] "" 2
  = GetAttestorRendezvous (fun s => s) ["0xc"; "0xb"; "0xa"] "" 2.
Proof.
  refine (proj1 (rendezvous_order_independent (fun s => s) ["0xb"; "0xa"; "0xc"] ["0xc"; "0xb"; "0xa"] "" 2
    (mkRendezvousHasher []) (mkRendezvousHasher []) _ _)); [|reflexivity].
  apply (Permutation_app_comm ["0xb"; "0xa"] ["0xc"]).
Defined.

Lemma rendezvous_selection_size_witness :
  Z.of_nat (size (GetAttestorRendezvous (fun s => s) ["0xb"; "0xa"; "0xc"] "" 2)) = 2.
Proof.
  refine (proj1 (rendezvous_selection_size (fun s => s) ["0xb"; "0xa"; "0xc"] "" 2 _ _)); [|lia].
  apply (bool_decide_unpack (NoDup ["0xb"; "0xa"; "0xc"])). vm_compute. exact I.
Defined.
