(* ===== verification/Registration.v ===== *)
(** * Validator registration and deregistration

    Models pkg/core/server/attestation.go, registration.go and
    registration_legacy.go, and the validator updates FinalizeBlock derives from
    them (registeredNodeValidatorUpdate and deregistrationNeedsValidatorUpdate of
    abci.go).  Validation reads the committed table ([s.db]), finalization the
    block's ([s.getDb()]). *)

From stdpp Require Import base gmap strings list pretty.
From Stdlib Require Import ZArith Lia Ascii.
From S2P Require Import Prelude Upgrades Crypto Validators Encoding Rendezvous.

Open Scope string_scope.
Open Scope Z_scope.

(** ** Messages *)

Record ValidatorRegistration := mkValidatorRegistration {
  vr_DelegateWallet : string;
  vr_Endpoint : string;
  vr_NodeType : string;
  vr_SpId : string;
  vr_EthBlock : Z;
  vr_CometAddress : string;
  vr_PubKey : string;
  vr_Power : Z;
  vr_Deadline : Z
}.

Record ValidatorDeregistration := mkValidatorDeregistration {
  vd_CometAddress : string;
  vd_PubKey : string;
  vd_Deadline : Z;
  vd_Remove : bool
}.

Record ValidatorRegistrationLegacy := mkValidatorRegistrationLegacy {
  vl_Endpoint : string;
  vl_CometAddress : string;
  vl_EthBlock : string;
  vl_NodeType : string;
  vl_SpId : string;
  vl_PubKey : string;
  vl_Power : Z
}.

Record ValidatorMisbehaviorDeregistration := mkMisbehaviorDeregistration {
  md_CometAddress : string;
  md_PubKey : string
}.

Inductive attestation_body :=
| BodyRegistration (vr : ValidatorRegistration)
| BodyDeregistration (vd : ValidatorDeregistration).

Record Attestation := mkAttestation {
  att_Signatures : list string;
  att_Body : option attestation_body
}.

(** A SignedTransaction that carries an attestation. *)
Record attestation_tx := mkAttestationTx {
  tx_Signature : string;
  tx_RequestId : string;
  tx_Attestation : Attestation
}.

Record reg_config := mkRegConfig {
  rc_Upgrades : option UpgradeSchedule;
  rc_ChainID : string;
  rc_ValidatorVotingPower : Z;
  rc_AttRegistrationMin : Z;
  rc_AttRegistrationRSize : Z;
  rc_AttDeregistrationMin : Z;
  rc_AttDeregistrationRSize : Z
}.

Definition maxRegistrationAttestationValidity : Z := 24 * 60 * 60.
Definition maxDeregistrationAttestationValidity : Z := 24 * 60 * 60.
Definition PubKeySize : nat := 32.

Inductive reg_query :=
| QNodeByComet (a : string)
| QNodeByEth (a : string)
| QAllEthAddresses
| QInsertNode
| QDeleteNode (a : string)
| QJailNode (a : string)
| QUnjailNode (a : string)
| QAppendHistory.

(** What url.Parse returns that the endpoint check looks at. *)
Record url_parts := mkUrl {
  url_Scheme : string;
  url_Hostname : string;
  url_HasUser : bool;
  url_RawQuery : string;
  url_Fragment : string
}.

(** Errors are the messages, without their arguments. *)
Definition verdict := res string unit.

Section Registration.
Context {C : EthCrypto}.
(** crypto.CompressPubkey, the address of an ed25519 key, proto.Marshal of the
    messages, url.Parse, and the statements that fail. *)
Context (CompressPubkey : pubkey -> string) (comet_address : string -> string).
Context (marshal_body : attestation_body -> option string)
        (marshal_attestation : Attestation -> option string)
        (marshal_tx : attestation_tx -> option string)
        (marshal_legacy : ValidatorRegistrationLegacy -> option string)
        (parse_url : string -> option url_parts).
Context (cfg : reg_config) (fault : reg_query -> bool).

Definition rules_at (blockHeight : Z) : Rules := RulesetAt (rc_Upgrades cfg) blockHeight.

(** A row, [None] for pgx.ErrNoRows, or another error. *)
Definition lookup_node (q : reg_query) (r : option CoreValidator) : res string (option CoreValidator) :=
  if fault q then Err "query failed" else Ok r.

(** ** attestation.go *)

Definition boundAttestationSignatures (att : Attestation) : verdict :=
  match att_Body att with
  | None => Err "unhandled attestation body"
  | Some b =>
      let slots := match b with
                   | BodyRegistration _ => rc_AttRegistrationRSize cfg
                   | BodyDeregistration _ => rc_AttDeregistrationRSize cfg
                   end in
      guard_err (slots <? Z.of_nat (length (att_Signatures att))) "more signatures than eligible attestor slots"
  end.

(** The full protobuf name of a body's message. *)
Definition body_name (b : attestation_body) : string :=
  match b with
  | BodyRegistration _ => "core.v1.ValidatorRegistration"
  | BodyDeregistration _ => "core.v1.ValidatorDeregistration"
  end.

Definition domain_tag : string := String zero ("openaudio/attestation/v1" +:+ String zero "").

(** [name] is the full name of the message's type. *)
Definition domain_bytes (chainID name payload : string) : string :=
  domain_tag +:+ be_uint64 (Z.of_nat (String.length chainID)) +:+ chainID +:+ name +:+ String zero payload.

Definition domainSeparatedAttestationBytes (chainID : string) (b : attestation_body) : option string :=
  domain_bytes chainID (body_name b) <$> marshal_body b.

Definition validatorAttestationBytes (b : attestation_body) (blockHeight : Z) : option string :=
  if negb (AttestationDomainEnforced (rules_at blockHeight)) then marshal_body b
  else if String.eqb (rc_ChainID cfg) "" then None
  else domainSeparatedAttestationBytes (rc_ChainID cfg) b.

(** One goroutine per signature; any failure fails the whole. *)
Definition recoverSigners (signatures : list string) (data : string) : option (list string) :=
  mapM (fun sig => snd <$> EthRecover sig data) signatures.

(** Deletion of the first occurrence by moving the last element over it. *)
Fixpoint index_of (a : string) (l : list string) : option nat :=
  match l with
  | [] => None
  | x :: l' => if String.eqb x a then Some O else S <$> index_of a l'
  end.

Definition swap_delete (a : string) (l : list string) : list string :=
  match index_of a l, last l with
  | Some i, Some z => take (length l - 1) (<[i := z]> l)
  | _, _ => l
  end.

(** The loop over the signers: each selected attestor counts once. *)
Fixpoint count_signers (signers : list string) (rendezvous : gset string) (needed : Z) : Z :=
  match signers with
  | [] => needed
  | a :: signers' =>
      if bool_decide (a ∈ rendezvous) then count_signers signers' (rendezvous ∖ {[a]}) (needed - 1)
      else count_signers signers' rendezvous needed
  end.

Definition attestationHasEnoughSigners (committed : list CoreValidator) (signers : list string)
    (rendezvousKey : string) (rendezvousSize signersNeeded : Z) (excludeAddress : string) : res string bool :=
  if fault QAllEthAddresses then Err "failed to get core validators while validating registration"
  else
    let addrs := GetAllEthAddressesOfRegisteredNodes committed in
    let filteredAddrs := swap_delete excludeAddress addrs in
    let signersNeeded := Z.min (Z.of_nat (length filteredAddrs)) signersNeeded in
    let rendezvous := GetAttestorRendezvous sha256 filteredAddrs rendezvousKey rendezvousSize in
    Ok (count_signers signers rendezvous signersNeeded <=? 0).

(** ** registration.go *)

Definition validateValidatorEndpoint (endpoint : string) : verdict :=
  match parse_url endpoint with
  | None => Err "invalid validator endpoint"
  | Some u =>
      guard_err
        (negb (String.eqb (url_Scheme u) "http") && negb (String.eqb (url_Scheme u) "https")
         || String.eqb (url_Hostname u) "" || url_HasUser u
         || negb (String.eqb (url_RawQuery u) "") || negb (String.eqb (url_Fragment u) ""))
        "invalid validator endpoint"
  end.

Definition validateValidatorRegistration (vr : ValidatorRegistration) : verdict :=
  let? _ := validateValidatorEndpoint (vr_Endpoint vr) in
  let? _ := guard_err (negb (existsb (String.eqb (vr_NodeType vr))
                               ["validator"; "content-node"; "discovery-node"]))
              "invalid validator node type" in
  let? _ := guard_err (match ParseInt (vr_SpId vr) with Some id => id <=? 0 | None => true end)
              "invalid validator service provider ID" in
  let? _ := guard_err (vr_EthBlock vr <=? 0) "validator ethereum block must be positive" in
  guard_err (negb (String.length (vr_PubKey vr) =? PubKeySize)%nat) "incorrect pubkey size".

Definition check_enough (r : res string bool) (msg : string) : verdict :=
  let? enough := r in guard_err (negb enough) msg.

Definition isValidRegisterNodeAttestation (committed : list CoreValidator) (tx : attestation_tx)
    (signers : list string) (blockHeight : Z) : verdict :=
  match att_Body (tx_Attestation tx) with
  | Some (BodyRegistration vr) =>
      let? _ := (if AttestationDomainEnforced (rules_at blockHeight)
                 then validateValidatorRegistration vr else Ok tt) in
      let? _ := guard_err (String.eqb (tx_Signature tx) "") "no signature provided for registration tx" in
      let? attBytes := (match marshal_attestation (tx_Attestation tx) with
                        | Some b => Ok b | None => Err "could not marshal registration tx" end) in
      let? address := (match EthRecover (tx_Signature tx) attBytes with
                       | Some (_, a) => Ok a | None => Err "could not recover msg sig" end) in
      let? _ := guard_err (negb (String.eqb address (vr_DelegateWallet vr)))
                  "signature address does not match ethereum registration" in
      let? _ := guard_err (negb (vr_Power vr =? rc_ValidatorVotingPower cfg)) "invalid voting power" in
      let? _ := guard_err (String.eqb (vr_PubKey vr) "") "public Key missing" in
      let? _ := guard_err (negb (String.length (vr_PubKey vr) =? PubKeySize)%nat) "incorrect pubkey size" in
      let? _ := guard_err (negb (String.eqb (comet_address (vr_PubKey vr)) (vr_CometAddress vr)))
                  "address does not match public key" in
      let? existing := lookup_node (QNodeByComet (vr_CometAddress vr))
                         (GetRegisteredNodeByCometAddress committed (vr_CometAddress vr)) in
      let? _ := guard_err (match existing with Some v => negb (cv_Jailed v) | None => false end)
                  "address is already registered on comet" in
      let? _ := guard_err ((vr_Deadline vr <? blockHeight)
                           || (wrap64 (blockHeight + maxRegistrationAttestationValidity) <? vr_Deadline vr))
                  "registration request is too new/old" in
      check_enough
        (attestationHasEnoughSigners committed signers (be_uint64 (uwrap64 (vr_EthBlock vr)))
           (rc_AttRegistrationRSize cfg) (rc_AttRegistrationMin cfg) "")
        "not enough attestations provided to register validator"
  | _ => Err "unknown tx fell into isValidRegisterNodeAttestation"
  end.

Definition isValidDeregisterNodeAttestation (committed : list CoreValidator) (tx : attestation_tx)
    (signers : list string) (blockHeight : Z) : verdict :=
  match att_Body (tx_Attestation tx) with
  | Some (BodyDeregistration dereg) =>
      let addr := vd_CometAddress dereg in
      let? _ := guard_err (String.eqb (vd_PubKey dereg) "") "public Key missing" in
      let? _ := guard_err (negb (String.length (vd_PubKey dereg) =? PubKeySize)%nat) "incorrect pubkey size" in
      let? _ := guard_err (negb (String.eqb (comet_address (vd_PubKey dereg)) addr))
                  "address does not match public key" in
      let? _ := guard_err ((vd_Deadline dereg <? blockHeight)
                           || (wrap64 (blockHeight + maxDeregistrationAttestationValidity) <? vd_Deadline dereg))
                  "registration request is too new/old" in
      let? found := lookup_node (QNodeByComet addr) (GetRegisteredNodeByCometAddress committed addr) in
      match found with
      | None => Err "error getting eth address from node deregistration attestation"
      | Some node =>
          let? _ := guard_err (cv_Jailed node && negb (vd_Remove dereg)) "validator is already jailed" in
          check_enough
            (attestationHasEnoughSigners committed signers (vd_PubKey dereg)
               (rc_AttDeregistrationRSize cfg) (rc_AttDeregistrationMin cfg) (cv_EthAddress node))
            "not enough attestations provided to deregister validator"
      end
  | _ => Err "unknown attestation fell into isValidDeregisterNodeAttestation"
  end.

Definition isValidAttestation (committed : list CoreValidator) (tx : attestation_tx) (blockHeight : Z) : verdict :=
  match att_Body (tx_Attestation tx) with
  | None => Err "unhandled attestation body"
  | Some b =>
      let? _ := (if AttestationDomainEnforced (rules_at blockHeight)
                 then boundAttestationSignatures (tx_Attestation tx) else Ok tt) in
      match validatorAttestationBytes b blockHeight with
      | None => Err "could not marshal attestation body into bytes"
      | Some bodyBytes =>
          match recoverSigners (att_Signatures (tx_Attestation tx)) bodyBytes with
          | None => Err "could not recover signers"
          | Some signers =>
              match b with
              | BodyRegistration _ => isValidRegisterNodeAttestation committed tx signers blockHeight
              | BodyDeregistration _ => isValidDeregisterNodeAttestation committed tx signers blockHeight
              end
          end
      end
  end.

(** *** Finalization: statements on the block's table *)

Definition exec_node (q : reg_query) (f : list CoreValidator -> list CoreValidator) :
    proc (list CoreValidator) string unit :=
  fun vs => if fault q then (vs, Err "statement failed") else (f vs, Ok tt).

Definition finalizeRegisterNodeAttestation (tx : attestation_tx) (vr : ValidatorRegistration) :
    proc (list CoreValidator) string unit :=
  match marshal_tx tx with
  | None => pfail "could not unmarshal tx bytes"
  | Some txBytes =>
      match EthRecover (tx_Signature tx) txBytes with
      | None => pfail "could not recover signer"
      | Some (pk, _) =>
          let! existing := query (fun vs => lookup_node (QNodeByEth (vr_DelegateWallet vr))
                                              (GetRegisteredNodeByEthAddress vs (vr_DelegateWallet vr))) in
          match existing with
          | None =>
              exec_node QInsertNode (InsertRegisteredNode
                (mkCoreValidator (CompressPubkey pk) (vr_Endpoint vr) (vr_DelegateWallet vr)
                   (vr_CometAddress vr) (pretty (vr_EthBlock vr)) (vr_NodeType vr) (vr_SpId vr)
                   (base64_encode (vr_PubKey vr)) false))
          | Some v =>
              if negb (EqualFold (cv_CometAddress v) (vr_CometAddress vr)) then pret tt
              else if cv_Jailed v
              then exec_node (QUnjailNode (cv_CometAddress v)) (UnjailRegisteredNode (cv_CometAddress v))
              else pret tt
          end
      end
  end.

Definition finalizeDeregisterValidatorAttestation (dereg : ValidatorDeregistration) :
    proc (list CoreValidator) string unit :=
  if vd_Remove dereg
  then exec_node (QDeleteNode (vd_CometAddress dereg)) (DeleteRegisteredNode (vd_CometAddress dereg))
  else exec_node (QJailNode (vd_CometAddress dereg)) (JailRegisteredNode (vd_CometAddress dereg)).

Definition finalizeAttestation (committed : list CoreValidator) (tx : attestation_tx) (blockHeight : Z) :
    proc (list CoreValidator) string unit :=
  fun vs =>
    match isValidAttestation committed tx blockHeight with
    | Err e => (vs, Err e)
    | Ok _ =>
        match att_Body (tx_Attestation tx) with
        | Some (BodyRegistration vr) => finalizeRegisterNodeAttestation tx vr vs
        | Some (BodyDeregistration vd) => finalizeDeregisterValidatorAttestation vd vs
        | None => (vs, Err "unhandled attestation")
        end
    end.

(** *** Misbehaving validators *)

Definition isValidDeregisterMisbehavingNodeTx (committed : list CoreValidator) (signature : string)
    (vd : ValidatorMisbehaviorDeregistration) (misbehavior : list string) : verdict :=
  let addr := md_CometAddress vd in
  let? _ := guard_err (String.eqb signature "") "no signature provided for deregistration tx" in
  let? found := lookup_node (QNodeByComet addr) (GetRegisteredNodeByCometAddress committed addr) in
  match found with
  | None => Err "not able to find registered node"
  | Some node =>
      let? _ := guard_err (cv_Jailed node) "validator is already jailed" in
      let? _ := guard_err (String.eqb (md_PubKey vd) "") "public Key missing" in
      let? _ := guard_err (negb (String.length (md_PubKey vd) =? PubKeySize)%nat) "incorrect pubkey size" in
      let? _ := guard_err (negb (String.eqb (comet_address (md_PubKey vd)) addr))
                  "address does not match public key" in
      guard_err (negb (existsb (String.eqb addr) misbehavior)) "no misbehavior found matching deregistration tx"
  end.

Definition finalizeDeregisterMisbehavingNode (committed : list CoreValidator) (signature : string)
    (vd : ValidatorMisbehaviorDeregistration) (misbehavior : list string) :
    proc (list CoreValidator) string unit :=
  fun vs =>
    match isValidDeregisterMisbehavingNodeTx committed signature vd misbehavior with
    | Err e => (vs, Err e)
    | Ok _ => exec_node (QDeleteNode (md_CometAddress vd)) (DeleteRegisteredNode (md_CometAddress vd)) vs
    end.

(** The body and signature of the transaction a proposer builds for a misbehaving node. *)
Definition createDeregisterTransaction (marshal_misbehavior : ValidatorMisbehaviorDeregistration -> option string)
    (key : privkey) (committed : list CoreValidator) (address : string) :
    res string (string * ValidatorMisbehaviorDeregistration) :=
  let? found := lookup_node (QNodeByComet address) (GetRegisteredNodeByCometAddress committed address) in
  match found with
  | None => Err "not able to find registered node"
  | Some node =>
      match base64_decode (cv_CometPubKey node) with
      | None => Err "could not decode public key"
      | Some pk =>
          let vd := mkMisbehaviorDeregistration address pk in
          match marshal_misbehavior vd with
          | None => Err "failure to marshal deregister tx"
          | Some b =>
              match EthSign key b with
              | None => Err "could not sign deregister tx"
              | Some sig => Ok (sig, vd)
              end
          end
      end
  end.

(** *** registration_legacy.go *)

Definition finalizeLegacyRegisterNode (signature : string) (vr : ValidatorRegistrationLegacy) (blockHeight : Z) :
    proc (list CoreValidator) string unit :=
  if LegacyRegistrationClosed (rules_at blockHeight)
  then pfail "legacy validator registrations are closed"
  else match marshal_legacy vr with
       | None => pfail "could not unmarshal tx bytes"
       | Some b =>
           match EthRecover signature b with
           | None => pfail "could not recover signer"
           | Some (pk, address) =>
               fun vs =>
                 match lookup_node (QNodeByEth address) (GetRegisteredNodeByEthAddress vs address) with
                 | Ok None =>
                     exec_node QInsertNode (InsertRegisteredNode
                       (mkCoreValidator (CompressPubkey pk) (vl_Endpoint vr) address (vl_CometAddress vr)
                          (vl_EthBlock vr) (vl_NodeType vr) (vl_SpId vr)
                          (base64_encode (vl_PubKey vr)) false)) vs
                 | _ => (vs, Ok tt)
                 end
           end
       end.

(** *** Validator history *)

Inductive ValidatorEventType := ValidatorEventRegistered | ValidatorEventDeregistered.

Record validator_history_row := mkHistoryRow {
  vh_Endpoint : string;
  vh_EthAddress : string;
  vh_CometAddress : string;
  vh_SpID : Z;
  vh_ServiceType : string;
  vh_EventType : ValidatorEventType;
  vh_EventTime : Z;
  vh_EventBlock : Z
}.

Definition AppendValidatorHistory (r : validator_history_row) : proc (list validator_history_row) string unit :=
  fun h => if fault QAppendHistory then (h, Err "statement failed") else (app h [r], Ok tt).

Definition appendDeregistrationToValidatorHistory (committed : list CoreValidator)
    (dereg : ValidatorDeregistration) (timestamp block : Z) : proc (list validator_history_row) string unit :=
  match lookup_node (QNodeByComet (vd_CometAddress dereg))
          (GetRegisteredNodeByCometAddress committed (vd_CometAddress dereg)) with
  | Ok (Some v) =>
      match ParseInt (cv_SpID v) with
      | None => pfail "invalid syntax"
      | Some spId =>
          AppendValidatorHistory
            (mkHistoryRow (cv_Endpoint v) (cv_EthAddress v) (vd_CometAddress dereg) spId (cv_NodeType v)
               ValidatorEventDeregistered timestamp block)
      end
  | _ => pfail "could not get metadata for node being deregistered"
  end.

Definition appendRegistrationToValidatorHistory (reg : ValidatorRegistration) (timestamp block : Z) :
    proc (list validator_history_row) string unit :=
  match ParseInt (vr_SpId reg) with
  | None => pfail "invalid syntax"
  | Some spId =>
      AppendValidatorHistory
        (mkHistoryRow (vr_Endpoint reg) (vr_DelegateWallet reg) (vr_CometAddress reg) spId (vr_NodeType reg)
           ValidatorEventRegistered timestamp block)
  end.

(** ** Validator updates (abci.go) *)

Record ValidatorUpdate := mkValidatorUpdate {
  vu_Power : Z;
  vu_PubKeyBytes : string
}.

Definition registeredNodeValidatorUpdate (block : list CoreValidator) (cometAddress pubKey : string) (power : Z) :
    option (string * ValidatorUpdate) :=
  if String.eqb cometAddress "" then None
  else if negb (String.length pubKey =? PubKeySize)%nat then None
  else match lookup_node (QNodeByComet cometAddress) (GetRegisteredNodeByCometAddress block cometAddress) with
       | Ok (Some node) =>
           if cv_Jailed node then None
           else
             let vrAddr := comet_address pubKey in
             if negb (EqualFold vrAddr (cv_CometAddress node)) then None
             else Some (vrAddr, mkValidatorUpdate power pubKey)
       | _ => None
       end.

(** [cometAddress] is the address named by the transaction's deregistration, the empty string if none. *)
Definition deregistrationNeedsValidatorUpdate (block : list CoreValidator) (cometAddress : string) : bool :=
  if String.eqb cometAddress "" then false
  else match lookup_node (QNodeByComet cometAddress) (GetRegisteredNodeByCometAddress block cometAddress) with
       | Ok (Some node) => negb (cv_Jailed node)
       | _ => false
       end.
End Registration.
