(* ===== verification/RegistrationProps.v ===== *)
(** * Registration: the properties

    Quorum of attestations, domain separation of attested bytes, uniqueness of
    validators, and what validation and validator updates guarantee. *)

From stdpp Require Import base gmap fin_sets strings list pretty sorting.
From Stdlib Require Import ZArith Lia Ascii.
From S2P Require Import Prelude Upgrades Crypto Validators Encoding Rendezvous Registration.

Open Scope string_scope.
Open Scope Z_scope.

(** ** Quorum *)

Lemma count_signers_spec signers r n :
  count_signers signers r n = n - Z.of_nat (size (list_to_set signers ∩ r : gset string)).
Proof.
  revert r n. induction signers as [|a signers IH]; intros r n.
  - cbn [count_signers]. rewrite list_to_set_nil.
    replace (∅ ∩ r) with (∅ : gset string) by set_solver. rewrite size_empty. lia.
  - cbn [count_signers]. rewrite list_to_set_cons. case_bool_decide as Ha; rewrite IH.
    + assert (E : ({[a]} ∪ list_to_set signers) ∩ r = {[a]} ∪ (list_to_set signers ∩ (r ∖ {[a]}))).
      { apply set_eq. intros x. destruct (decide (x = a)); set_solver. }
      rewrite E, (size_union {[a]}) by set_solver. rewrite size_singleton. lia.
    + assert (E : ({[a]} ∪ list_to_set signers) ∩ r = list_to_set signers ∩ r) by set_solver.
      by rewrite E.
Qed.

Lemma index_of_spec a l i : index_of a l = Some i -> l !! i = Some a.
Proof.
  revert i. induction l as [|x l IH]; intros i; simpl; [done|].
  destruct (String.eqb_spec x a) as [->|]; [by intros [= <-]|].
  destruct (index_of a l) as [j|]; simpl; [|done]. intros [= <-]. simpl. auto.
Qed.

Lemma index_of_none a l : index_of a l = None -> a ∉ l.
Proof.
  induction l as [|x l IH]; simpl; [intros _ []%elem_of_nil|].
  destruct (String.eqb_spec x a); [done|]. destruct (index_of a l); [done|].
  intros _ [->|?]%elem_of_cons; [done|]. by apply IH.
Qed.

(** Moving the last element over the deleted one removes one occurrence. *)
Lemma swap_delete_perm a l : a ∈ l -> l ≡ₚ a :: swap_delete a l.
Proof.
  intros Ha. unfold swap_delete. destruct (index_of a l) as [i|] eqn:Ei; [|by apply index_of_none in Ei].
  apply index_of_spec in Ei. destruct (last l) as [z|] eqn:El;
    [|apply last_None in El; by subst].
  apply last_Some in El as [k ->]. rewrite length_app. simpl length.
  replace (length k + 1 - 1)%nat with (length k) by lia.
  destruct (decide (i = length k)) as [->|Hi].
  - rewrite lookup_app_r in Ei by lia. rewrite Nat.sub_diag in Ei. injection Ei as ->.
    rewrite insert_app_r_alt by lia. rewrite take_app_length. symmetry. apply Permutation_cons_append.
  - apply lookup_lt_Some in Ei as Hlt. rewrite length_app in Hlt. simpl in Hlt.
    rewrite lookup_app_l in Ei by lia. rewrite insert_app_l by lia.
    rewrite <- (length_insert k i z) at 1. rewrite take_app_length.
    rewrite (insert_take_drop k) by lia.
    rewrite <- (take_drop_middle k i a Ei) at 1. rewrite <- Permutation_middle. solve_Permutation.
Qed.

Lemma swap_delete_absent a l : a ∉ l -> swap_delete a l = l.
Proof.
  intros Ha. unfold swap_delete. destruct (index_of a l) as [i|] eqn:E; [|done].
  apply index_of_spec, list_elem_of_lookup_2 in E. done.
Qed.

Lemma swap_delete_gone a l : NoDup l -> a ∉ swap_delete a l /\ NoDup (swap_delete a l).
Proof.
  intros Hd. destruct (decide (a ∈ l)) as [Ha|Ha]; [|by rewrite swap_delete_absent].
  rewrite (swap_delete_perm a l Ha) in Hd. by apply NoDup_cons in Hd.
Qed.

Section Quorum.
Context {C : EthCrypto} (fault : reg_query -> bool).
Implicit Types vs : list CoreValidator.

(** The attestors the code selects, and how many it needs. *)
Definition selected vs (key : string) (rsize : Z) (exclude : string) : gset string :=
  GetAttestorRendezvous sha256 (swap_delete exclude (GetAllEthAddressesOfRegisteredNodes vs)) key rsize.

Definition needed_of vs (needed : Z) (exclude : string) : Z :=
  Z.min (Z.of_nat (length (swap_delete exclude (GetAllEthAddressesOfRegisteredNodes vs)))) needed.

Lemma enough_signers_spec vs signers key rsize needed exclude :
  fault QAllEthAddresses = false ->
  attestationHasEnoughSigners fault vs signers key rsize needed exclude =
  Ok (needed_of vs needed exclude <=?
      Z.of_nat (size (list_to_set signers ∩ selected vs key rsize exclude : gset string))).
Proof using.
  intros Hf. unfold attestationHasEnoughSigners. rewrite Hf, count_signers_spec.
  fold (selected vs key rsize exclude) (needed_of vs needed exclude). f_equal.
  apply Bool.eq_iff_eq_true. rewrite !Z.leb_le. lia.
Qed.

(** *** Who may attest, without the code's lists *)

(** The addresses of the validators that are not jailed, less the excluded one. *)
Definition attestors vs (exclude : string) : gset string :=
  list_to_set (cv_EthAddress <$> filter (fun v => cv_Jailed v = false) vs) ∖ {[exclude]}.

(** [b] comes before [a] for the key: by the hash of address and key, then by address. *)
Definition outranks (key b a : string) : bool :=
  let score x := sha256 (x +:+ key) in
  String.ltb (score b) (score a) || String.eqb (score b) (score a) && String.ltb b a.

(** An attestor is eligible when fewer than [rsize] attestors come before it. *)
Definition eligible vs (key : string) (rsize : Z) (exclude : string) : gset string :=
  filter (fun a => Z.of_nat (size (filter (fun b => outranks key b a = true) (attestors vs exclude))) < rsize)
    (attestors vs exclude).

Definition quorum vs (needed : Z) (exclude : string) : Z := Z.min (Z.of_nat (size (attestors vs exclude))) needed.

Lemma outranks_Less key b a : outranks key b a = Less (tuple_of sha256 key b) (tuple_of sha256 key a).
Proof using.
  unfold outranks, Less, tuple_of, String.ltb. cbn.
  destruct (String.compare (sha256 (b +:+ key)) (sha256 (a +:+ key))) eqn:E; [|done|].
  - apply String.compare_eq_iff in E. by rewrite E, String.eqb_refl.
  - destruct (String.eqb_spec (sha256 (b +:+ key)) (sha256 (a +:+ key))) as [H|]; [|done].
    by rewrite H, compare_refl in E.
Qed.

Lemma outranks_irrefl key a : outranks key a a = false.
Proof using. unfold outranks, String.ltb. by rewrite !compare_refl, andb_false_r. Qed.

(** In a list sorted by a strict order, an element has as many before it as its index. *)
Lemma sorted_index {A} (R : A -> A -> bool) l i a :
  (forall x, R x x = false) -> (forall x y, R x y = true -> R y x = false) ->
  StronglySorted (fun x y => R x y = true) l -> l !! i = Some a ->
  length (filter (fun b => R b a = true) l) = i.
Proof using.
  intros Hirr Hasym Hs. revert i. induction Hs as [|x l Hs IH Hx]; intros i Hi; [done|].
  rewrite Forall_forall in Hx. rewrite filter_cons. destruct i as [|i]; cbn in Hi.
  - injection Hi as ->. rewrite Hirr, decide_False by done. apply length_zero_iff_nil.
    destruct (filter _ l) as [|y k] eqn:E; [done|exfalso].
    assert (y ∈ filter (fun b => R b a = true) l) as [Hy Hin]%list_elem_of_filter by (rewrite E; left).
    rewrite (Hasym a y) in Hy by auto. done.
  - rewrite decide_True by (apply Hx; by eapply list_elem_of_lookup_2). cbn [length]. by rewrite (IH i Hi).
Qed.

Lemma ranked_strict key l :
  NoDup l -> StronglySorted (fun b a => outranks key b a = true) (ranked sha256 key l).
Proof using.
  intros Hd. unfold ranked. set (ts := sort_tuples (tuple_of sha256 key <$> l)).
  assert (StronglySorted tuple_le ts) as Hs by (apply StronglySorted_merge_sort; apply _).
  assert (forall t, t ∈ ts -> t = tuple_of sha256 key (addr t)) as Ht.
  { intros t. unfold ts, sort_tuples. rewrite merge_sort_Permutation. by intros (x & -> & _)%list_elem_of_fmap. }
  assert (NoDup (addr <$> ts)) as Hn by by apply (NoDup_ranked sha256 key l) in Hd.
  clearbody ts. induction Hs as [|t ts Hs IH Hle]; [constructor|]. cbn.
  apply NoDup_cons in Hn as [Hnin Hn]. constructor.
  { apply IH; [|done]. intros u Hu. apply Ht. by right. }
  apply Forall_forall. intros a (u & -> & Hu)%list_elem_of_fmap. rewrite Forall_forall in Hle. specialize (Hle u Hu).
  rewrite outranks_Less, <- (Ht t), <- (Ht u) by (first [by left|by right]).
  destruct (Less t u) eqn:E; [done|]. exfalso. assert (t = u) as -> by (by apply (anti_symm tuple_le)).
  apply Hnin, list_elem_of_fmap. by exists u.
Qed.

Lemma outranks_asym key x y : outranks key x y = true -> outranks key y x = false.
Proof using.
  rewrite !outranks_Less. intros E. destruct (total tuple_le (tuple_of sha256 key x) (tuple_of sha256 key y)) as [H|H]; [done|].
  unfold tuple_le in H. congruence.
Qed.

(** The selection is the attestors with fewer than [n] before them. *)
Lemma rendezvous_first l key n a :
  NoDup l ->
  a ∈ GetAttestorRendezvous sha256 l key n <->
  a ∈ l /\ Z.of_nat (length (filter (fun b => outranks key b a = true) l)) < n.
Proof using.
  intros Hd. rewrite rendezvous_take, elem_of_list_to_set.
  assert (length (filter (fun b => outranks key b a = true) l) =
          length (filter (fun b => outranks key b a = true) (ranked sha256 key l))) as ->
    by (apply Permutation_length; by rewrite (ranked_perm sha256 key l)).
  pose proof (ranked_strict key l Hd) as Hs. rewrite elem_of_take. split.
  - intros (i & Hi & Hlt). split; [rewrite <- (ranked_perm sha256 key l); by eapply list_elem_of_lookup_2|].
    rewrite (sorted_index (outranks key) _ i a (outranks_irrefl key) (outranks_asym key) Hs Hi). lia.
  - intros [Hin Hlt]. rewrite <- (ranked_perm sha256 key l) in Hin. apply list_elem_of_lookup in Hin as [i Hi]. exists i. split; [done|].
    rewrite (sorted_index (outranks key) _ i a (outranks_irrefl key) (outranks_asym key) Hs Hi) in Hlt. lia.
Qed.

Lemma size_filter_list_to_set (P : string -> Prop) `{forall x, Decision (P x)} (l : list string) :
  NoDup l -> size (filter P (list_to_set l : gset string)) = length (filter P l).
Proof using.
  intros Hd. rewrite <- (size_list_to_set (C := gset string) (filter P l)) by (by apply NoDup_filter).
  f_equal. apply set_eq. intros x. rewrite elem_of_filter, !elem_of_list_to_set, list_elem_of_filter. done.
Qed.

Lemma filter_bool_eq (vs : list CoreValidator) :
  List.filter (fun v => negb (cv_Jailed v)) vs = filter (fun v => cv_Jailed v = false) vs.
Proof using. induction vs as [|v vs IH]; [done|]. rewrite filter_cons. cbn. destruct (cv_Jailed v); cbn; by rewrite IH. Qed.

Lemma attestors_list vs exclude :
  NoDup (GetAllEthAddressesOfRegisteredNodes vs) ->
  attestors vs exclude = list_to_set (swap_delete exclude (GetAllEthAddressesOfRegisteredNodes vs)).
Proof using.
  intros Hd. unfold attestors. rewrite <- filter_bool_eq. change (cv_EthAddress <$> _) with (GetAllEthAddressesOfRegisteredNodes vs).
  set (l := GetAllEthAddressesOfRegisteredNodes vs) in *. destruct (swap_delete_gone exclude l Hd) as [Hg _].
  apply set_eq. intros x. rewrite elem_of_difference, !elem_of_list_to_set, elem_of_singleton.
  destruct (decide (exclude ∈ l)) as [Hin|Hin].
  - rewrite (swap_delete_perm exclude l Hin) at 1. rewrite elem_of_cons. split; [intuition|]. intros Hx. split; [by right|].
    by intros ->.
  - rewrite (swap_delete_absent exclude l Hin). split; [intuition|]. intros Hx. split; [done|]. by intros ->.
Qed.

(** C24 -- An attestation has enough signers exactly when the distinct eligible
    attestors among them reach the quorum, on a table of validators with distinct
    Ethereum addresses and with a database that answers.  The attestors are the
    validators that are not jailed, other than the excluded one.  They are ranked by the
    hash of their address and the key, then by address, and the first [rsize] of the
    ranking are eligible.  The quorum is the required number, or the number of attestors
    when that is smaller.  A repeated signature counts once and a signature of anyone
    else counts nothing. *)
Theorem enough_signers_is_quorum vs signers key rsize needed exclude :
  fault QAllEthAddresses = false -> NoDup (map cv_EthAddress vs) ->
  attestationHasEnoughSigners fault vs signers key rsize needed exclude =
  Ok (quorum vs needed exclude <=?
      Z.of_nat (size (list_to_set signers ∩ eligible vs key rsize exclude : gset string))).
Proof using.
  intros Hf Hd. rewrite enough_signers_spec by done.
  assert (NoDup (GetAllEthAddressesOfRegisteredNodes vs)) as Hn by by apply NoDup_map_filter.
  destruct (swap_delete_gone exclude _ Hn) as [_ Hs]. pose proof (attestors_list vs exclude Hn) as Ha.
  assert (needed_of vs needed exclude = quorum vs needed exclude) as ->.
  { unfold needed_of, quorum. by rewrite Ha, size_list_to_set. }
  assert (selected vs key rsize exclude = eligible vs key rsize exclude) as ->; [|done].
  apply set_eq. intros a. unfold selected, eligible. rewrite rendezvous_first by done.
  by rewrite elem_of_filter, Ha, size_filter_list_to_set, elem_of_list_to_set, (comm (∧)).
Qed.

(** The node a deregistration is about has no vote on it: it is never among
    the selected attestors, so adding its signature changes nothing. *)
Theorem excluded_node_has_no_vote vs signers key rsize needed exclude :
  NoDup (map cv_EthAddress vs) ->
  exclude ∉ selected vs key rsize exclude /\
  attestationHasEnoughSigners fault vs (exclude :: signers) key rsize needed exclude =
  attestationHasEnoughSigners fault vs signers key rsize needed exclude.
Proof using.
  intros Hd. assert (Hn : exclude ∉ selected vs key rsize exclude).
  { unfold selected. rewrite rendezvous_take, elem_of_list_to_set. intros Hin%subseteq_take.
    rewrite ranked_perm in Hin. revert Hin. apply swap_delete_gone. by apply NoDup_map_filter. }
  split; [done|]. unfold attestationHasEnoughSigners. destruct (fault QAllEthAddresses); [done|].
  cbn [count_signers]. rewrite bool_decide_false; [done|]. exact Hn.
Qed.
End Quorum.

Definition ex_validator (eth comet : string) (jailed : bool) : CoreValidator :=
  mkCoreValidator "" "https://node" eth comet "1" "validator" "1" "" jailed.
Definition ex_validators : list CoreValidator :=
  [ex_validator "0xa" "A" false; ex_validator "0xb" "B" false; ex_validator "0xc" "C" false;
   ex_validator "0xd" "D" true].
Definition no_fault : reg_query -> bool := fun _ => false.

Lemma enough_signers_is_quorum_witness :
  attestationHasEnoughSigners (C := Toy.crypto) no_fault ex_validators ["0xa"; "0xa"; "0xc"; "0xz"] "" 2 2 "0xb" = Ok true /\
  attestationHasEnoughSigners (C := Toy.crypto) no_fault ex_validators ["0xa"; "0xa"; "0xb"; "0xz"] "" 2 2 "0xb" = Ok false.
Proof.
  assert (Hd : NoDup (map cv_EthAddress ex_validators)) by (apply (bool_decide_unpack _); vm_compute; exact I).
  split; rewrite (enough_signers_is_quorum (C := Toy.crypto) no_fault ex_validators _ _ _ _ _ eq_refl Hd); vm_compute; reflexivity.
Defined.

Lemma excluded_node_has_no_vote_witness :
  "0xb" ∉ selected (C := Toy.crypto) ex_validators "" 3 "0xb".
Proof.
  apply (excluded_node_has_no_vote (C := Toy.crypto) no_fault ex_validators [] "" 3 2 "0xb").
  apply (bool_decide_unpack (NoDup (map cv_EthAddress ex_validators))). vm_compute. exact I.
Defined.

(** ** Domain separation *)

Fixpoint nul_free (s : string) : bool :=
  match s with
  | EmptyString => true
  | String c s' => negb (Ascii.eqb c zero) && nul_free s'
  end.

Lemma nul_terminated_inj n n' p p' :
  nul_free n = true -> nul_free n' = true -> n +:+ String zero p = n' +:+ String zero p' -> n = n' /\ p = p'.
Proof.
  revert n'. induction n as [|c n IH]; intros [|c' n']; simpl.
  - intros _ _ [= ->]. done.
  - intros _ [H _]%andb_true_iff [= E _]. by subst.
  - intros [H _]%andb_true_iff _ [= E _]. by subst.
  - intros [_ H]%andb_true_iff [_ H']%andb_true_iff [= -> E]. destruct (IH n' H H' E) as [-> ->]. done.
Qed.

Lemma domain_bytes_inj chain chain' n n' p p' :
  Z.of_nat (String.length chain) < 2 ^ 64 -> Z.of_nat (String.length chain') < 2 ^ 64 ->
  nul_free n = true -> nul_free n' = true ->
  domain_bytes chain n p = domain_bytes chain' n' p' -> chain = chain' /\ n = n' /\ p = p'.
Proof.
  intros Hc Hc' Hn Hn' E. unfold domain_bytes in E.
  apply append_inj_length in E as [_ E]; [|reflexivity].
  apply append_inj_length in E as [El E]; [|reflexivity].
  apply be_uint64_inj in El; [|lia|lia]. apply append_inj_length in E as [-> E]; [|lia].
  by apply nul_terminated_inj in E.
Qed.

Lemma body_name_nul_free b : nul_free (body_name b) = true.
Proof. by destruct b. Qed.

Section Domain.
Context (marshal_body : attestation_body -> option string).
#[local] Notation bytes := (domainSeparatedAttestationBytes marshal_body).

(** A protobuf message never starts with a zero byte: field numbers start at 1. *)
Definition proto_tagged : Prop := forall b c p, marshal_body b = Some (String c p) -> c <> zero.

(** The bytes validators sign identify the chain, the kind of message and its
    contents: equal bytes come from the same chain, the same message type and the
    same encoded message, and no such bytes are the bare encoding of a message, so an
    attestation can never be replayed on another network, as another kind of message
    or as a legacy attestation. *)
Theorem attestation_bytes_are_domain_separated chain chain' b b' data :
  proto_tagged ->
  Z.of_nat (String.length chain) < 2 ^ 64 -> Z.of_nat (String.length chain') < 2 ^ 64 ->
  bytes chain b = Some data -> bytes chain' b' = Some data ->
  chain = chain' /\ body_name b = body_name b' /\ marshal_body b = marshal_body b' /\
  forall b0, marshal_body b0 <> Some data.
Proof using.
  intros Htag Hc Hc' H1 H2.
  assert (Hleg : forall b0, marshal_body b0 <> Some data).
  { intros b0 H0. unfold domainSeparatedAttestationBytes in H1.
    destruct (marshal_body b) as [p|]; [|done]. apply (inj Some) in H1. rewrite <- H1 in H0.
    by apply Htag in H0. }
  unfold domainSeparatedAttestationBytes in H1, H2.
  destruct (marshal_body b) as [p|] eqn:Ep; [|done]. destruct (marshal_body b') as [p'|] eqn:Ep'; [|done].
  simpl in H1, H2. rewrite <- H2 in H1. apply (inj Some) in H1.
  apply domain_bytes_inj in H1 as (-> & -> & ->); auto using body_name_nul_free.
Qed.
End Domain.

Definition ex_dereg : ValidatorDeregistration := mkValidatorDeregistration "B" "pk" 100 true.
Definition ex_marshal (b : attestation_body) : option string :=
  match b with
  | BodyRegistration vr => Some ("r" +:+ vr_DelegateWallet vr)
  | BodyDeregistration vd => Some ("d" +:+ vd_CometAddress vd)
  end.

Lemma attestation_bytes_are_domain_separated_witness :
  exists data, domainSeparatedAttestationBytes ex_marshal "audius-mainnet-beta" (BodyDeregistration ex_dereg) = Some data /\
    forall b0, ex_marshal b0 <> Some data.
Proof.
  eexists. split; [reflexivity|].
  eapply (attestation_bytes_are_domain_separated ex_marshal "audius-mainnet-beta" "audius-mainnet-beta"
    (BodyDeregistration ex_dereg) (BodyDeregistration ex_dereg));
    [intros [] c p E; cbn in E; injection E as <- _; discriminate|reflexivity|reflexivity|reflexivity|reflexivity].
Defined.

(** ** Uniqueness of validators *)

Section Unique.
Context {C : EthCrypto} (CompressPubkey : pubkey -> string) (comet_address : string -> string).
Context (marshal_body : attestation_body -> option string) (marshal_attestation : Attestation -> option string)
        (marshal_tx : attestation_tx -> option string) (marshal_legacy : ValidatorRegistrationLegacy -> option string)
        (parse_url : string -> option url_parts).
Context (cfg : reg_config) (fault : reg_query -> bool).
Implicit Types vs : list CoreValidator.

Definition unique_eth vs : Prop := NoDup (map cv_EthAddress vs).

(** The transactions that write core_validators. *)
Inductive validator_tx :=
| TxAttestation (tx : attestation_tx)
| TxLegacy (signature : string) (vr : ValidatorRegistrationLegacy)
| TxMisbehavior (signature : string) (vd : ValidatorMisbehaviorDeregistration) (misbehavior : list string).

Definition finalize_validator_tx (committed : list CoreValidator) (blockHeight : Z) (t : validator_tx) :
    proc (list CoreValidator) string unit :=
  match t with
  | TxAttestation tx =>
      finalizeAttestation CompressPubkey comet_address marshal_body marshal_attestation marshal_tx parse_url
        cfg fault committed tx blockHeight
  | TxLegacy sig vr => finalizeLegacyRegisterNode CompressPubkey marshal_legacy cfg fault sig vr blockHeight
  | TxMisbehavior sig vd mb => finalizeDeregisterMisbehavingNode comet_address fault committed sig vd mb
  end.

Lemma exec_node_unique q f vs :
  (unique_eth vs -> unique_eth (f vs)) -> unique_eth vs -> unique_eth (fst (exec_node fault q f vs)).
Proof using. intros Hf Hu. unfold exec_node. destruct (fault q); simpl; auto. Qed.

Lemma insert_unique v vs :
  GetRegisteredNodeByEthAddress vs (cv_EthAddress v) = None -> unique_eth vs -> unique_eth (InsertRegisteredNode v vs).
Proof using. intros Hn%find_none_notin Hu. by apply NoDup_map_snoc. Qed.

Lemma delete_unique a vs : unique_eth vs -> unique_eth (DeleteRegisteredNode a vs).
Proof using. apply NoDup_map_filter. Qed.

Lemma jail_unique b a vs : unique_eth vs -> unique_eth (set_jailed_where b a vs).
Proof using. unfold unique_eth. by rewrite eth_of_jail. Qed.

Lemma register_unique tx vr vs :
  unique_eth vs -> unique_eth (fst (finalizeRegisterNodeAttestation CompressPubkey marshal_tx fault tx vr vs)).
Proof using.
  intros Hu. unfold finalizeRegisterNodeAttestation. destruct (marshal_tx tx); [|done].
  destruct (EthRecover _ _) as [[pk a]|]; [|done]. unfold pbind, query, lookup_node.
  destruct (fault (QNodeByEth _)); [done|].
  destruct (GetRegisteredNodeByEthAddress vs (vr_DelegateWallet vr)) as [v|] eqn:E.
  - destruct (negb _); [done|]. destruct (cv_Jailed v); [|done]. by apply exec_node_unique; [apply jail_unique|].
  - apply exec_node_unique; [|done]. by apply insert_unique.
Qed.

Lemma legacy_unique sig vr h vs :
  unique_eth vs -> unique_eth (fst (finalizeLegacyRegisterNode CompressPubkey marshal_legacy cfg fault sig vr h vs)).
Proof using.
  intros Hu. unfold finalizeLegacyRegisterNode. destruct (LegacyRegistrationClosed _); [done|].
  destruct (marshal_legacy vr); [|done]. destruct (EthRecover sig _) as [[pk a]|]; [|done].
  unfold lookup_node. destruct (fault (QNodeByEth _)); [done|].
  destruct (GetRegisteredNodeByEthAddress vs a) eqn:E; [done|].
  apply exec_node_unique; [|done]. by apply insert_unique.
Qed.

(** No sequence of registrations, deregistrations and misbehaviour removals in a
    block, valid or not, with or without failing statements, ever gives two rows of
    core_validators the same Ethereum address, although the table has no such
    constraint. *)
Theorem validator_eth_addresses_stay_unique committed blockHeight txs vs :
  unique_eth vs ->
  unique_eth (fold_left (fun vs t => fst (finalize_validator_tx committed blockHeight t vs)) txs vs).
Proof using.
  revert vs. induction txs as [|t txs IH]; intros vs Hu; simpl; [done|]. apply IH. destruct t as [tx|sig vr|sig vd mb].
  - simpl. unfold finalizeAttestation. destruct (isValidAttestation _ _ _ _ _ _ _ _ _); [|done].
    destruct (att_Body _) as [[vr|vd]|]; [by apply register_unique| |done].
    unfold finalizeDeregisterValidatorAttestation.
    destruct (vd_Remove vd); (apply exec_node_unique; [|done]); [apply delete_unique|apply jail_unique].
  - by apply legacy_unique.
  - simpl. unfold finalizeDeregisterMisbehavingNode.
    destruct (isValidDeregisterMisbehavingNodeTx _ _ _ _ _ _); [|done].
    apply exec_node_unique; [apply delete_unique|done].
Qed.

(** A registration that passes validation is signed by its own delegate wallet,
    carries a 32-byte key whose address is the one it names and the configured voting
    power, names no active validator's address, has a deadline within a day of blocks,
    and is attested by a quorum of the validators selected for its Ethereum block. *)
Theorem valid_registration_guarantees committed tx vr h :
  att_Body (tx_Attestation tx) = Some (BodyRegistration vr) ->
  isValidAttestation comet_address marshal_body marshal_attestation parse_url cfg fault committed tx h = Ok tt ->
  (exists b pk, marshal_attestation (tx_Attestation tx) = Some b /\
     EthRecover (tx_Signature tx) b = Some (pk, vr_DelegateWallet vr)) /\
  String.length (vr_PubKey vr) = PubKeySize /\ comet_address (vr_PubKey vr) = vr_CometAddress vr /\
  vr_Power vr = rc_ValidatorVotingPower cfg /\
  (forall v, GetRegisteredNodeByCometAddress committed (vr_CometAddress vr) = Some v -> cv_Jailed v = true) /\
  h <= vr_Deadline vr <= wrap64 (h + maxRegistrationAttestationValidity) /\
  exists data signers,
    validatorAttestationBytes marshal_body cfg (BodyRegistration vr) h = Some data /\
    recoverSigners (att_Signatures (tx_Attestation tx)) data = Some signers /\
    needed_of committed (rc_AttRegistrationMin cfg) "" <=
      Z.of_nat (size (list_to_set signers ∩
        selected committed (be_uint64 (uwrap64 (vr_EthBlock vr))) (rc_AttRegistrationRSize cfg) "" : gset string)).
Proof using.
  intros Hb H. unfold isValidAttestation in H. rewrite Hb in H. apply rbind_ok in H as ([] & _ & H).
  destruct (validatorAttestationBytes _ _ _ _) as [data|] eqn:Ed; [|done].
  destruct (recoverSigners _ data) as [signers|] eqn:Es; [|done].
  unfold isValidRegisterNodeAttestation in H. rewrite Hb in H. apply rbind_ok in H as ([] & _ & H).
  peel_checks H.
  destruct (marshal_attestation (tx_Attestation tx)) as [b|]; [|done]. cbn [rbind] in H.
  destruct (EthRecover (tx_Signature tx) b) as [[pk a]|] eqn:Er; [|done]. cbn [rbind] in H. peel_checks H.
  apply rbind_ok in H as (existing & Hl & H). peel_checks H.
  apply rbind_ok in H as (enough & Hq & H). apply guard_err_ok, negb_false_iff in H. subst enough.
  destruct (fault QAllEthAddresses) eqn:Ef; [unfold attestationHasEnoughSigners in Hq; by rewrite Ef in Hq|].
  rewrite (enough_signers_spec fault) in Hq by done. injection Hq as Hq%Z.leb_le.
  unfold lookup_node in Hl. destruct (fault (QNodeByComet _)); [done|]. injection Hl as <-.
  repeat match goal with H : negb _ = false |- _ => apply negb_false_iff in H end.
  repeat match goal with H : String.eqb _ _ = true |- _ => apply String.eqb_eq in H end.
  split_and!; try done.
  - exists b, pk. split; [done|congruence].
  - by apply Nat.eqb_eq.
  - by apply Z.eqb_eq.
  - intros v Hv. rewrite Hv in Hc5. by apply negb_false_iff.
  - lia.
  - lia.
  - eauto.
Qed.

(** A validator update is only emitted for a validator that is registered and
    not jailed in the block's table, with the key that hashes to its address. *)
Theorem validator_update_matches_table block a pk power addr' u :
  registeredNodeValidatorUpdate comet_address fault block a pk power = Some (addr', u) ->
  (exists v, v ∈ block /\ cv_CometAddress v = a /\ cv_Jailed v = false /\
     EqualFold (comet_address pk) a = true) /\
  addr' = comet_address pk /\ vu_PubKeyBytes u = pk /\ vu_Power u = power /\ String.length pk = PubKeySize.
Proof using.
  unfold registeredNodeValidatorUpdate, lookup_node. intros H.
  repeat (case_hyp H; simplify_eq). apply find_eq_spec in Heqo as [Hin <-].
  repeat match goal with H : negb _ = false |- _ => apply negb_false_iff in H end.
  split_and!; try done; [by eauto|by apply Nat.eqb_eq].
Qed.
End Unique.

(** ** A run

    Keys are single bytes; a comet address is the key itself. *)
Definition ex_sig (k : ascii) : string := hex_encode (Toy.repeat_byte 64 k (String zero "")).
Definition ex_pk : string := "0123456789abcdef0123456789abcdef".
Definition ex_cfg : reg_config := mkRegConfig None "audius-devnet" 10 1 2 1 2.
Definition ex_vr (wallet : string) : ValidatorRegistration :=
  mkValidatorRegistration wallet "https://new" "validator" "7" 5 ex_pk ex_pk 10 150.
Definition ex_reg_tx (k : ascii) (wallet : string) : attestation_tx :=
  mkAttestationTx (ex_sig k) "" (mkAttestation [ex_sig "a"] (Some (BodyRegistration (ex_vr wallet)))).
Definition ex_marshal_att (a : Attestation) : option string := Some "att".
Definition ex_marshal_tx (t : attestation_tx) : option string := Some "tx".
Definition ex_marshal_legacy (v : ValidatorRegistrationLegacy) : option string := Some "legacy".
Definition ex_url (s : string) : option url_parts := Some (mkUrl "https" s false "" "").

(** One validator, with key [a], and a jailed one that holds the comet address. *)
Definition ex_committed : list CoreValidator := [ex_validator "0x61" "A" false; ex_validator "0x7a" ex_pk true].

Definition ex_finalize (committed : list CoreValidator) (txs : list validator_tx) (vs : list CoreValidator) :
    list CoreValidator :=
  fold_left (fun vs t => fst (finalize_validator_tx (C := Toy.crypto) (fun p => String p "") (fun pk => pk)
    ex_marshal ex_marshal_att ex_marshal_tx ex_marshal_legacy ex_url ex_cfg no_fault committed 100 t vs)) txs vs.

Lemma validator_eth_addresses_stay_unique_witness :
  let vs := ex_finalize ex_committed [TxAttestation (ex_reg_tx "k" "0x6b"); TxAttestation (ex_reg_tx "k" "0x6b")] ex_committed in
  map cv_EthAddress vs = ["0x61"; "0x7a"; "0x6b"] /\ unique_eth vs.
Proof.
  split; [vm_compute; reflexivity|].
  refine (validator_eth_addresses_stay_unique (C := Toy.crypto) (fun p => String p "") (fun pk => pk)
    ex_marshal ex_marshal_att ex_marshal_tx ex_marshal_legacy ex_url ex_cfg no_fault ex_committed 100
    [TxAttestation (ex_reg_tx "k" "0x6b"); TxAttestation (ex_reg_tx "k" "0x6b")] ex_committed _).
  apply (bool_decide_unpack (NoDup (map cv_EthAddress ex_committed))). vm_compute. exact I.
Defined.

Lemma valid_registration_guarantees_witness :
  isValidAttestation (C := Toy.crypto) (fun pk => pk) ex_marshal ex_marshal_att ex_url ex_cfg no_fault ex_committed
    (ex_reg_tx "k" "0x6b") 100 = Ok tt /\ 100 <= vr_Deadline (ex_vr "0x6b") <= wrap64 (100 + 86400).
Proof.
  split; [vm_compute; reflexivity|].
  refine (proj1 (proj2 (proj2 (proj2 (proj2 (proj2
    (valid_registration_guarantees (C := Toy.crypto) (fun pk => pk) ex_marshal ex_marshal_att ex_url ex_cfg no_fault
      ex_committed (ex_reg_tx "k" "0x6b") (ex_vr "0x6b") 100 _ _)))))));
    [reflexivity|vm_compute; reflexivity].
Defined.

Lemma validator_update_matches_table_witness :
  exists v, v ∈ [ex_validator "0x61" ex_pk false] /\ cv_CometAddress v = ex_pk /\ cv_Jailed v = false /\
    EqualFold ex_pk ex_pk = true.
Proof.
  refine (proj1 (validator_update_matches_table (fun pk => pk) no_fault [ex_validator "0x61" ex_pk false]
    ex_pk ex_pk 10 ex_pk (mkValidatorUpdate 10 ex_pk) _)). vm_compute. reflexivity.
Defined.

(** Comet addresses are not unique: the address of a jailed validator can be
    registered again by another wallet, and two registrations of one block can both
    claim a free address, because validation only looks for an active holder in the
    committed table and finalization only for the wallet. *)
Theorem comet_addresses_can_collide :
  let reg1 := TxAttestation (ex_reg_tx "k" "0x6b") in
  let reg2 := TxAttestation (ex_reg_tx "m" "0x6d") in
  map cv_CometAddress (ex_finalize ex_committed [reg1] ex_committed) = ["A"; ex_pk; ex_pk] /\
  map cv_CometAddress
    (ex_finalize [ex_validator "0x61" "A" false] [reg1; reg2] [ex_validator "0x61" "A" false]) = ["A"; ex_pk; ex_pk].
Proof. vm_compute. auto. Qed.
