(* ===== verification/Mempool.v ===== *)
(** * The mempool

    Models pkg/core/server/mempool.go: a doubly linked list of transactions with
    an index from transaction hash to list element, and the admission check in
    front of it.  [repr] relates it to its abstract content, a queue of entries
    with distinct keys. *)

From stdpp Require Import base gmap strings list.
From Stdlib Require Import ZArith Lia.
From S2P Require Import Prelude.

Open Scope string_scope.
Open Scope Z_scope.

(** The variants of SignedTransaction's oneof. *)
Inductive tx_kind :=
| KPlays
| KValidatorRegistration
| KSlaRollup
| KManageEntity
| KValidatorDeregistration
| KStorageProof
| KStorageProofVerification
| KAttestation
| KRelease
| KReward
| KFileUpload
| KRewardPool
| KManageEntityMigration
| KMediorumOperation
| KContentAttestation.

Section Mempool.
(** Signed transactions with the variant their oneof holds, and v2 transactions. *)
Context {SignedTransaction TransactionV2 : Type} (kind : SignedTransaction -> option tx_kind).

Definition mempoolAdmissible (tx : option SignedTransaction) : res string unit :=
  match tx with
  | None => Ok tt
  | Some tx =>
      match kind tx with
      | Some KManageEntityMigration => Err "manage entity migration transactions cannot be submitted"
      | Some KValidatorRegistration => Err "legacy validator registrations cannot be submitted"
      | _ => Ok tt
      end
  end.

Record MempoolTransaction := mkMempoolTransaction {
  Deadline : Z;
  Tx : option SignedTransaction;
  Txv2 : option TransactionV2
}.

(** A list element: its identity and the value it holds. *)
Record element := mkElement {
  e_id : nat;
  e_value : MempoolTransaction
}.

Record Mempool := mkMempool {
  deque : list element;
  txMap : gmap string element;
  next_id : nat;
  maxMempoolTransactions : Z
}.

Definition NewMempool (maxTransactions : Z) : Mempool := mkMempool [] ∅ 0 maxTransactions.

(** The loop of GetBatch from an element on, with [count] taken so far. *)
Fixpoint get_batch (l : list element) (batchSize currentBlock count : Z) : list MempoolTransaction :=
  match l with
  | [] => []
  | e :: l' =>
      if negb (count <? batchSize) then []
      else if Deadline (e_value e) <=? currentBlock then get_batch l' batchSize currentBlock count
      else e_value e :: get_batch l' batchSize currentBlock (count + 1)
  end.

Definition GetBatch (m : Mempool) (batchSize currentBlock : Z) : list MempoolTransaction :=
  get_batch (deque m) batchSize currentBlock 0.

(** GetAll, [fuel] iterations of its loop: [Front] is read afresh each time. *)
Inductive outcome A := Returned (a : A) | Panicked | Running.
Arguments Returned {A}.
Arguments Panicked {A}.
Arguments Running {A}.

Fixpoint get_all (fuel : nat) (m : Mempool) (batch : list MempoolTransaction) : outcome (list MempoolTransaction) :=
  match fuel with
  | O => Running
  | S fuel' =>
      match deque m with
      | [] => Panicked
      | [_] => Returned batch
      | e :: _ => get_all fuel' m (app batch [e_value e])
      end
  end.

Definition GetAll (fuel : nat) (m : Mempool) : outcome (list MempoolTransaction) := get_all fuel m [].

(** [m.deque.Remove(element); delete(m.txMap, id)]. *)
Definition remove_element (id : string) (e : element) (m : Mempool) : Mempool :=
  mkMempool (List.filter (fun x => negb (e_id x =? e_id e)%nat) (deque m)) (delete id (txMap m))
    (next_id m) (maxMempoolTransactions m).

Definition remove_id (m : Mempool) (id : string) : Mempool :=
  match txMap m !! id with
  | Some e => remove_element id e m
  | None => m
  end.

Definition RemoveBatch (m : Mempool) (ids : list string) : Mempool := fold_left remove_id ids m.

(** The range loop over the index, in the order [rows]. *)
Fixpoint remove_expired (blockNum : Z) (rows : list (string * element)) (m : Mempool) : Mempool :=
  match rows with
  | [] => m
  | (id, e) :: rows' =>
      remove_expired blockNum rows'
        (if Deadline (e_value e) <=? blockNum then remove_element id e m else m)
  end.

Definition RemoveExpiredTransactions (m : Mempool) (blockNum : Z) : Mempool :=
  remove_expired blockNum (map_to_list (txMap m)) m.

Definition MempoolSize (m : Mempool) : Z * Z :=
  (Z.of_nat (size (txMap m)), Z.of_nat (length (deque m))).

Inductive mempool_error := NotAdmissible (msg : string) | ErrFullMempool.

(** Broadcasting to peers happens on the side and does not touch the pool. *)
Definition addMempoolTransaction (key : string) (tx : MempoolTransaction) : proc Mempool mempool_error unit :=
  fun m =>
    match mempoolAdmissible (Tx tx) with
    | Err msg => (m, Err (NotAdmissible msg))
    | Ok _ =>
        if maxMempoolTransactions m <=? Z.of_nat (size (txMap m)) then (m, Err ErrFullMempool)
        else match txMap m !! key with
             | Some _ => (m, Ok tt)
             | None =>
                 let e := mkElement (next_id m) tx in
                 (mkMempool (app (deque m) [e]) (<[key := e]> (txMap m)) (S (next_id m))
                    (maxMempoolTransactions m), Ok tt)
             end
    end.

(** Whether a broadcast sends the transaction to peers. *)
Definition broadcasts (tx : MempoolTransaction) : bool :=
  match Tx tx with
  | Some t => match kind t with Some KSlaRollup => false | _ => true end
  | None => bool_decide (is_Some (Txv2 tx))
  end.

(** The statistics startMempoolCache publishes. *)
Definition mempool_tx_size (size1 : SignedTransaction -> Z) (size2 : TransactionV2 -> Z) (m : Mempool) : Z :=
  fold_left (fun total e =>
    match Tx (e_value e), Txv2 (e_value e) with
    | Some t, _ => wrap64 (total + size1 t)
    | None, Some t => wrap64 (total + size2 t)
    | None, None => total
    end) (deque m) 0.

(** ** The abstract queue *)

Record entry := mkEntry {
  q_key : string;
  q_elem : element
}.

(** The list and the index describe the queue [q]. *)
Record repr (m : Mempool) (q : list entry) : Prop := {
  repr_deque : deque m = map q_elem q;
  repr_keys : NoDup (map q_key q);
  repr_ids : NoDup (map (fun x => e_id (q_elem x)) q);
  repr_map k e : txMap m !! k = Some e <-> mkEntry k e ∈ q;
  repr_next x : x ∈ q -> (e_id (q_elem x) < next_id m)%nat
}.

(** Abstract operations. *)
Definition q_remove (ids : list string) (q : list entry) : list entry :=
  List.filter (fun x => negb (bool_decide (q_key x ∈ ids))) q.
Definition q_expire (blockNum : Z) (q : list entry) : list entry :=
  List.filter (fun x => blockNum <? Deadline (e_value (q_elem x))) q.
Definition q_live (currentBlock : Z) (q : list entry) : list MempoolTransaction :=
  map (fun x => e_value (q_elem x)) (q_expire currentBlock q).
End Mempool.

Arguments Mempool : clear implicits.
Arguments MempoolTransaction : clear implicits.
Arguments element : clear implicits.
Arguments entry : clear implicits.
Arguments Returned {A}.
Arguments Panicked {A}.
Arguments Running {A}.

(** ** Lemmas *)

Section Facts.
Context {ST V2 : Type} (kind : ST -> option tx_kind).
Implicit Types (m : Mempool ST V2) (q : list (entry ST V2)) (e : element ST V2).

Lemma NoDup_map_inj {A B} (f : A -> B) (l : list A) x y :
  NoDup (map f l) -> x ∈ l -> y ∈ l -> f x = f y -> x = y.
Proof using.
  induction l as [|z l IH]; simpl; [by intros _ []%elem_of_nil|].
  intros [Hn Hd]%NoDup_cons [->|Hx]%elem_of_cons [->|Hy]%elem_of_cons E; try done.
  - destruct Hn. rewrite E. apply list_elem_of_In, in_map. by apply list_elem_of_In.
  - destruct Hn. rewrite <- E. apply list_elem_of_In, in_map. by apply list_elem_of_In.
  - by apply IH.
Qed.

Lemma elem_of_filter_bool {A} (p : A -> bool) (l : list A) x : x ∈ List.filter p l <-> x ∈ l /\ p x = true.
Proof using. by rewrite !list_elem_of_In, filter_In. Qed.

Lemma filter_map_bool {A B} (f : A -> B) (p : B -> bool) (l : list A) :
  List.filter p (map f l) = map f (List.filter (fun x => p (f x)) l).
Proof using. induction l as [|x l IH]; simpl; [done|]. destruct (p (f x)); simpl; by rewrite IH. Qed.

Lemma NoDup_map_filter_bool {A B} (f : A -> B) (p : A -> bool) l : NoDup (map f l) -> NoDup (map f (List.filter p l)).
Proof using.
  induction l as [|x l IH]; simpl; [done|]. intros [Hn Hd]%NoDup_cons. destruct (p x); simpl; [|auto].
  apply NoDup_cons. split; [|auto]. intros Hin. apply Hn. rewrite list_elem_of_In in Hin |- *.
  apply in_map_iff in Hin as (y & <- & Hy). apply filter_In in Hy as [Hy _]. by apply in_map.
Qed.

(** Keeping the entries that satisfy [p], when the list and the index keep the same. *)
Lemma repr_filter m q (p : entry ST V2 -> bool) d' t' :
  repr m q -> d' = map q_elem (List.filter p q) ->
  (forall k e, t' !! k = Some e <-> mkEntry k e ∈ q /\ p (mkEntry k e) = true) ->
  repr (mkMempool d' t' (next_id m) (maxMempoolTransactions m)) (List.filter p q).
Proof using.
  intros [H1 H2 H3 H4 H5] -> Ht. split; simpl.
  - done.
  - by apply NoDup_map_filter_bool.
  - by apply NoDup_map_filter_bool.
  - intros k e. by rewrite Ht, elem_of_filter_bool.
  - intros x [Hx _]%elem_of_filter_bool. auto.
Qed.

Lemma remove_element_repr m q k e :
  repr m q -> mkEntry k e ∈ q ->
  repr (remove_element k e m) (List.filter (fun x => negb (String.eqb (q_key x) k)) q).
Proof using.
  intros HR Hin. apply repr_filter; [done|..].
  - rewrite (repr_deque _ _ HR), filter_map_bool. f_equal. apply filter_ext_in. intros x Hx%list_elem_of_In.
    f_equal. apply Bool.eq_iff_eq_true. rewrite Nat.eqb_eq, String.eqb_eq. split; intros E.
    + by rewrite (NoDup_map_inj _ q x (mkEntry k e) (repr_ids _ _ HR) Hx Hin E).
    + by rewrite (NoDup_map_inj _ q x (mkEntry k e) (repr_keys _ _ HR) Hx Hin E).
  - intros k' e'. simpl. rewrite lookup_delete_Some, (repr_map _ _ HR), negb_true_iff, String.eqb_neq. naive_solver.
Qed.

Lemma remove_id_repr m q k :
  repr m q -> repr (remove_id m k) (List.filter (fun x => negb (String.eqb (q_key x) k)) q).
Proof using.
  intros HR. unfold remove_id. destruct (txMap m !! k) as [e|] eqn:E.
  - apply remove_element_repr; [done|]. by apply (repr_map _ _ HR).
  - rewrite List.forallb_filter_id; [done|].
    apply forallb_forall. intros [k' e'] Hx%list_elem_of_In. apply negb_true_iff, String.eqb_neq. simpl.
    intros ->. apply (repr_map _ _ HR) in Hx. congruence.
Qed.

Lemma filter_filter_bool {A} (p p' : A -> bool) (l : list A) :
  List.filter p (List.filter p' l) = List.filter (fun x => p' x && p x) l.
Proof using.
  induction l as [|x l IH]; simpl; [done|]. destruct (p' x); simpl; [|done]. destruct (p x); by rewrite IH.
Qed.

Lemma RemoveBatch_repr m q ids : repr m q -> repr (RemoveBatch m ids) (q_remove ids q).
Proof using.
  revert m q. unfold RemoveBatch, q_remove. induction ids as [|k ids IH]; intros m q HR; cbn [fold_left].
  - rewrite List.forallb_filter_id; [done|]. apply forallb_forall. intros x _.
    by rewrite bool_decide_false by (by intros []%elem_of_nil).
  - specialize (IH _ _ (remove_id_repr m q k HR)). rewrite filter_filter_bool in IH.
    erewrite filter_ext; [exact IH|]. intros x. cbn beta. rewrite <- negb_orb. f_equal.
    apply Bool.eq_iff_eq_true. rewrite bool_decide_eq_true, orb_true_iff, String.eqb_eq, bool_decide_eq_true.
    by rewrite elem_of_cons.
Qed.

(** The loop removes the expired rows it visits, whatever the order. *)
Lemma remove_expired_repr b rows m q :
  repr m q -> NoDup (map fst rows) -> (forall k e, (k, e) ∈ rows -> mkEntry k e ∈ q) ->
  repr (remove_expired b rows m)
    (List.filter (fun x => negb (bool_decide (q_key x ∈ map fst rows) && (Deadline (e_value (q_elem x)) <=? b))) q).
Proof using.
  revert m q. induction rows as [|[k e] rows IH]; intros m q HR Hd Hin; cbn [remove_expired].
  - rewrite List.forallb_filter_id; [done|]. apply forallb_forall. intros x _.
    by rewrite bool_decide_false by (by intros []%elem_of_nil).
  - apply NoDup_cons in Hd as [Hk Hd]. assert (Hke : mkEntry k e ∈ q) by (apply Hin; left).
    assert (Hx : forall x, x ∈ q -> q_key x = k -> x = mkEntry k e)
      by (intros x Hxq Ex; by apply (NoDup_map_inj _ q x (mkEntry k e) (repr_keys _ _ HR))).
    destruct (Deadline (e_value e) <=? b) eqn:Ed.
    + specialize (IH _ _ (remove_element_repr m q k e HR Hke) Hd). rewrite filter_filter_bool in IH.
      erewrite filter_ext_in; [apply IH|].
      * intros k' e' Hr. apply elem_of_filter_bool. split; [apply Hin; by right|].
        apply negb_true_iff, String.eqb_neq. simpl. intros ->. apply Hk. apply list_elem_of_In in Hr.
        apply list_elem_of_In, in_map_iff. by exists (k, e').
      * intros x Hxq%list_elem_of_In. cbn beta. simpl map. destruct (String.eqb_spec (q_key x) k) as [Ex|Ex]; simpl.
        -- rewrite bool_decide_true by (rewrite Ex; left). rewrite (Hx x Hxq Ex). simpl. by rewrite Ed.
        -- do 2 f_equal. apply bool_decide_ext. rewrite elem_of_cons. naive_solver.
    + specialize (IH _ _ HR Hd ltac:(intros; apply Hin; by right)).
      erewrite filter_ext_in; [apply IH|]. intros x Hxq%list_elem_of_In. cbn beta. simpl map.
      destruct (decide (q_key x = k)) as [Ex|Ex].
      * rewrite (Hx x Hxq Ex). simpl. by rewrite Ed, !andb_false_r.
      * do 2 f_equal. apply bool_decide_ext. rewrite elem_of_cons. naive_solver.
Qed.

Lemma RemoveExpired_repr m q b : repr m q -> repr (RemoveExpiredTransactions m b) (q_expire b q).
Proof using.
  intros HR. unfold RemoveExpiredTransactions, q_expire.
  pose proof (remove_expired_repr b (map_to_list (txMap m)) m q HR (NoDup_fst_map_to_list _)) as H.
  erewrite filter_ext_in; [apply H|].
  - intros k e Hin%elem_of_map_to_list. by apply (repr_map _ _ HR).
  - intros [k e] Hx%list_elem_of_In. cbn. rewrite bool_decide_true; [|].
    + cbn. apply Bool.eq_iff_eq_true. rewrite negb_true_iff, Z.ltb_lt, Z.leb_gt. done.
    + apply (repr_map _ _ HR), elem_of_map_to_list in Hx. apply list_elem_of_In, in_map_iff. exists (k, e).
      split; [done|]. by apply list_elem_of_In.
Qed.

Lemma repr_size m q : repr m q -> size (txMap m) = length q.
Proof using.
  intros HR. rewrite <- length_map_to_list, <- (length_map q_key q), <- (length_map fst).
  apply Permutation_length, NoDup_Permutation; [apply NoDup_fst_map_to_list|apply (repr_keys _ _ HR)|].
  intros k. rewrite !list_elem_of_In, !in_map_iff. split.
  - intros ([k' e] & <- & Hin%list_elem_of_In%elem_of_map_to_list). apply (repr_map _ _ HR) in Hin.
    exists (mkEntry k' e). split; [done|by apply list_elem_of_In].
  - intros ([k' e] & <- & Hin%list_elem_of_In). apply (repr_map _ _ HR), elem_of_map_to_list in Hin.
    exists (k', e). split; [done|by apply list_elem_of_In].
Qed.

Lemma get_batch_spec (l : list (element ST V2)) n b c :
  get_batch l n b c =
  take (Z.to_nat (n - c)) (map e_value (List.filter (fun e => b <? Deadline (e_value e)) l)).
Proof using.
  revert c. induction l as [|e l IH]; intros c; cbn [get_batch List.filter map]; [by rewrite take_nil|].
  destruct (Z.ltb_spec c n); simpl.
  - destruct (Z.leb_spec (Deadline (e_value e)) b), (Z.ltb_spec b (Deadline (e_value e))); try lia; [apply IH|].
    replace (Z.to_nat (n - c)) with (S (Z.to_nat (n - (c + 1)))) by lia. simpl. by rewrite IH.
  - by replace (Z.to_nat (n - c)) with 0%nat by lia.
Qed.
End Facts.

(** ** Properties *)

Section Theorems.
Context {ST V2 : Type} (kind : ST -> option tx_kind).
Implicit Types (m : Mempool ST V2) (q : list (entry ST V2)).

Lemma repr_new n : repr (NewMempool n : Mempool ST V2) [].
Proof using.
  split; simpl; try (by constructor).
  - intros k e. rewrite lookup_empty, elem_of_nil. done.
  - intros x Hx. by apply elem_of_nil in Hx.
Qed.

Lemma repr_add m q key tx :
  repr m q -> txMap m !! key = None ->
  repr (mkMempool (app (deque m) [mkElement (next_id m) tx]) (<[key := mkElement (next_id m) tx]> (txMap m))
          (S (next_id m)) (maxMempoolTransactions m))
       (app q [mkEntry key (mkElement (next_id m) tx)]).
Proof using.
  intros [H1 H2 H3 H4 H5] Hn. assert (Hk : key ∉ map q_key q).
  { intros Hin. apply list_elem_of_In, in_map_iff in Hin as ([k e] & <- & Hin%list_elem_of_In).
    apply H4 in Hin. simpl in Hn. congruence. }
  split; simpl.
  - by rewrite map_app, H1.
  - rewrite map_app. apply NoDup_app. split_and!; [done| |apply NoDup_singleton].
    by intros x Hx ->%list_elem_of_singleton.
  - rewrite map_app. apply NoDup_app. split_and!; [done| |apply NoDup_singleton].
    intros x Hx ->%list_elem_of_singleton. simpl in Hx.
    apply list_elem_of_In, in_map_iff in Hx as (y & Ey & Hy%list_elem_of_In). apply H5 in Hy. lia.
  - intros k e. rewrite lookup_insert_Some, elem_of_app, list_elem_of_singleton, H4. split.
    + intros [[-> <-]|[_ ?]]; auto.
    + intros [Hin|[= -> ->]]; [|by left]. right. split; [|done]. intros ->. apply H4 in Hin. congruence.
  - intros x [Hx|Hx]%elem_of_app; [apply H5 in Hx; lia|]. apply list_elem_of_singleton in Hx as ->. simpl. lia.
Qed.

(** C22 -- The linked list and its index always describe one queue with distinct keys,
    and every operation is the corresponding operation on that queue: submission is
    refused for inadmissible transactions and when full, ignores a key already
    present and otherwise appends; finalization removes exactly the given keys; expiry
    removes exactly the transactions whose deadline has passed, in whatever order the
    index is traversed. *)
Theorem mempool_implements_queue m q key tx ids b :
  repr m q ->
  (match addMempoolTransaction kind key tx m with
   | (m', Err (NotAdmissible _)) => m' = m /\ (exists msg, mempoolAdmissible kind (Tx tx) = Err msg)
   | (m', Err ErrFullMempool) => m' = m /\ maxMempoolTransactions m <= Z.of_nat (length q)
   | (m', Ok _) =>
       mempoolAdmissible kind (Tx tx) = Ok tt /\ Z.of_nat (length q) < maxMempoolTransactions m /\
       (key ∈ map q_key q /\ m' = m \/
        key ∉ map q_key q /\ repr m' (app q [mkEntry key (mkElement (next_id m) tx)]))
   end) /\
  repr (RemoveBatch m ids) (q_remove ids q) /\
  repr (RemoveExpiredTransactions m b) (q_expire b q) /\
  MempoolSize m = (Z.of_nat (length q), Z.of_nat (length q)).
Proof using.
  intros HR. split_and!; [|by apply RemoveBatch_repr|by apply RemoveExpired_repr|].
  - unfold addMempoolTransaction. destruct (mempoolAdmissible kind (Tx tx)) as [[]|msg] eqn:Ea; [|eauto].
    rewrite (repr_size m q HR). destruct (Z.leb_spec (maxMempoolTransactions m) (Z.of_nat (length q))); [done|].
    destruct (txMap m !! key) as [e|] eqn:E; (split; [done|]); (split; [done|]); [left|right].
    + split; [|done]. apply (repr_map _ _ HR) in E. apply list_elem_of_In, in_map_iff. exists (mkEntry key e).
      split; [done|by apply list_elem_of_In].
    + split; [|by apply repr_add]. intros Hin.
      apply list_elem_of_In, in_map_iff in Hin as ([k e] & <- & Hin%list_elem_of_In).
      apply (repr_map _ _ HR) in Hin. simpl in E. congruence.
  - unfold MempoolSize. by rewrite (repr_size m q HR), (repr_deque _ _ HR), length_map.
Qed.

(** A batch is the oldest unexpired transactions in order of arrival, at most as
    many as asked for, and none when nothing is asked for. *)
Theorem batch_is_oldest_unexpired m q n b :
  repr m q -> GetBatch m n b = take (Z.to_nat n) (q_live b q).
Proof using.
  intros HR. unfold GetBatch, q_live, q_expire. rewrite get_batch_spec, Z.sub_0_r, (repr_deque _ _ HR).
  by rewrite filter_map_bool, map_map.
Qed.

(** GetAll is broken for every pool: on an empty one it dereferences nil, on one
    with a single transaction it returns nothing, and on any larger one it never
    returns, because it reads the front of the list on every iteration. *)
Theorem GetAll_never_lists_the_pool m fuel :
  match deque m with
  | [] => GetAll (S fuel) m = Panicked
  | [_] => GetAll (S fuel) m = Returned []
  | _ => GetAll fuel m = Running
  end.
Proof using.
  unfold GetAll. destruct (deque m) as [|e [|e' l]] eqn:E; [by cbn; rewrite E|by cbn; rewrite E|].
  assert (H : forall acc, get_all fuel m acc = Running); [|apply H].
  induction fuel as [|fuel IH]; intros acc; simpl; [done|]. rewrite E. apply IH.
Qed.
End Theorems.

Definition ex_mtx (deadline : Z) (k : tx_kind) : MempoolTransaction tx_kind unit :=
  mkMempoolTransaction deadline (Some k) None.
Definition ex_pool1 : Mempool tx_kind unit :=
  fst (addMempoolTransaction Some "h1" (ex_mtx 5 KManageEntity) (NewMempool 3)).
Definition ex_pool : Mempool tx_kind unit :=
  fst (addMempoolTransaction Some "h2" (ex_mtx 9 KPlays) ex_pool1).
Definition ex_queue : list (entry tx_kind unit) :=
  [mkEntry "h1" (mkElement 0 (ex_mtx 5 KManageEntity)); mkEntry "h2" (mkElement 1 (ex_mtx 9 KPlays))].

Lemma ex_pool_repr : repr ex_pool ex_queue.
Proof.
  apply (repr_add ex_pool1 [mkEntry "h1" (mkElement 0 (ex_mtx 5 KManageEntity))] "h2" (ex_mtx 9 KPlays));
    [|reflexivity].
  apply (repr_add (NewMempool 3) [] "h1" (ex_mtx 5 KManageEntity)); [apply repr_new|reflexivity].
Qed.

Lemma mempool_implements_queue_witness :
  repr (RemoveExpiredTransactions ex_pool 5) [mkEntry "h2" (mkElement 1 (ex_mtx 9 KPlays))] /\
  snd (addMempoolTransaction Some "h3" (ex_mtx 5 KManageEntityMigration) ex_pool)
    = Err (NotAdmissible "manage entity migration transactions cannot be submitted").
Proof.
  split; [|reflexivity].
  exact (proj1 (proj2 (proj2 (mempool_implements_queue Some ex_pool ex_queue "" (ex_mtx 0 KPlays) [] 5 ex_pool_repr)))).
Defined.

Lemma batch_is_oldest_unexpired_witness :
  GetBatch ex_pool 1 4 = [ex_mtx 5 KManageEntity] /\ GetBatch ex_pool 1 5 = [ex_mtx 9 KPlays].
Proof. by rewrite !(batch_is_oldest_unexpired ex_pool ex_queue) by exact ex_pool_repr. Defined.
