(* ===== verification/PoS.v ===== *)
(** * Proof of storage

    Models pkg/core/server/pos.go: which blocks trigger a challenge, the validity
    of storage proofs and of their verification, and the resolution of a
    challenge by majority.  The table storage_proofs is a finite map from
    (block_height, address), its unique constraint; Postgres returns the rows of
    a height in no particular order and Go ranges over a map in no particular
    order, so both orders are parameters. *)

From stdpp Require Import base gmap strings list fin_maps.
From Stdlib Require Import ZArith Lia Ascii.
From S2P Require Import Prelude Crypto Validators Encoding.

Open Scope string_scope.
Open Scope Z_scope.

(** ** Data *)

Inductive ProofStatus := ProofStatusUnresolved | ProofStatusPass | ProofStatusFail.

#[global] Instance ProofStatus_eq_dec : EqDecision ProofStatus.
Proof. solve_decision. Defined.

(** A row of storage_proofs, without its key. *)
Record StorageProof := mkStorageProof {
  sp_Cid : option string;
  sp_ProofSignature : option string;
  sp_Proof : option string;
  sp_ProverAddresses : list string;
  sp_Status : ProofStatus
}.

Notation proof_table := (gmap (Z * string) StorageProof).

(** The messages.  A nil ProverAddresses is the empty list: finalization
    replaces nil by an empty slice. *)
Record StorageProofTx := mkStorageProofTx {
  spt_Height : Z;
  spt_Cid : string;
  spt_Address : string;
  spt_ProofSignature : string;
  spt_ProverAddresses : list string
}.

Record StorageProofVerification := mkStorageProofVerification {
  spv_Height : Z;
  spv_Proof : string
}.

(** The committed state validation reads: validators, hashes of core_blocks by
    height, and storage_proof_peers. *)
Record pos_committed := mkPosCommitted {
  pc_validators : list CoreValidator;
  pc_blocks : gmap Z string;
  pc_peers : gmap Z (list string)
}.

Inductive pos_query :=
| QNodeByEthAddress (a : string)
| QBlock (height : Z)
| QProofPeers (height : Z)
| QGetStorageProof (height : Z) (a : string)
| QInsertStorageProof (height : Z) (a : string)
| QGetStorageProofs (height : Z)
| QNodeByComet (a : string)
| QUpdateStorageProof (height : Z) (a : string)
| QInsertFailedStorageProof (height : Z) (a : string).

Definition posChallengeDeadline : Z := 2.

(** ** Challenges *)

Fixpoint last_byte (s : string) : option ascii :=
  match s with
  | EmptyString => None
  | String c EmptyString => Some c
  | String _ s' => last_byte s'
  end.

Definition blockShouldTriggerNewPoSChallenge (blockHash : string) : bool :=
  match last_byte blockHash with
  | None => false
  | Some c => Z.land (byte_val c) 15 =? 0
  end.

Section PoS.
Context {C : EthCrypto}.
(** proto.Marshal of a storage proof, ed25519 verification (key, message,
    signature), the order of the rows of a query, the order of a range over a map
    and the statements that fail. *)
Context (marshal_proof : StorageProofTx -> option string)
        (VerifySignature : string -> string -> string -> bool)
        (row_order : list (string * StorageProof) -> list (string * StorageProof))
        (range_order : list (string * Z) -> list (string * Z))
        (fault : pos_query -> bool).

(** ** Validity *)

(** The height names a committed block that triggered a challenge. *)
Definition check_challenge_height (env : pos_committed) (height : Z) : res string unit :=
  match (if fault (QBlock height) then None else pc_blocks env !! height) with
  | None => Err "failed to get block"
  | Some hash =>
      match hex_decode hash with
      | None => Err "failed to decode blockhash"
      | Some blockHashBytes =>
          guard_err (negb (blockShouldTriggerNewPoSChallenge blockHashBytes)) "block should not trigger a storage proof"
      end
  end.

Definition isValidStorageProofTx (env : pos_committed) (signature : string) (tx : option StorageProofTx)
    (currentBlockHeight : Z) (enforceReplicas : bool) : res string unit :=
  let? _ := guard_err (String.eqb signature "") "no signature provided for storage proof tx" in
  match tx with
  | None => Err "unknown tx fell into isValidStorageProofTx"
  | Some sp =>
      match marshal_proof sp with
      | None => Err "could not unmarshal tx bytes"
      | Some txBytes =>
          match EthRecover signature txBytes with
          | None => Err "could not recover signer"
          | Some (_, address) =>
              match (if fault (QNodeByEthAddress address) then None
                     else GetRegisteredNodeByEthAddress (pc_validators env) address) with
              | None => Err "could not get validator for address"
              | Some node =>
                  let? _ := guard_err (cv_Jailed node) "storage proof from jailed validator" in
                  let? _ := guard_err (negb (EqualFold (cv_CometAddress node) (spt_Address sp)))
                              "proof was signed by another node" in
                  let height := spt_Height sp in
                  let? _ := guard_err (height =? 0) "invalid height for storage proof" in
                  let? _ := guard_err (posChallengeDeadline <? wrap64 (currentBlockHeight - height))
                              "proof submitted past the deadline" in
                  let? _ := check_challenge_height env height in
                  match (if fault (QProofPeers height) then None else pc_peers env !! height) with
                  | Some peer_addresses =>
                      guard_err (enforceReplicas && negb (bool_decide (spt_Address sp ∈ peer_addresses)))
                        "prover does not belong to replicaset"
                  | None => Ok tt
                  end
              end
          end
      end
  end.

Definition isValidStorageProofVerificationTx (env : pos_committed) (tx : option StorageProofVerification)
    (currentBlockHeight : Z) : res string unit :=
  match tx with
  | None => Err "unknown tx fell into isValidStorageProofVerficationTx"
  | Some spv =>
      let height := spv_Height spv in
      let? _ := guard_err (height =? 0) "invalid height for storage proof" in
      let? _ := guard_err (wrap64 (currentBlockHeight - height) <=? posChallengeDeadline)
                  "proof submitted before the deadline" in
      check_challenge_height env height
  end.

(** ** Statements on storage_proofs *)

Definition GetStorageProof (height : Z) (a : string) (t : proof_table) : res string (option StorageProof) :=
  if fault (QGetStorageProof height a) then Err "query failed" else Ok (t !! (height, a)).

Definition InsertStorageProof (height : Z) (a cid sig : string) (provers : list string) : proc proof_table string unit :=
  fun t =>
    if fault (QInsertStorageProof height a) then (t, Err "statement failed")
    else if bool_decide (is_Some (t !! (height, a))) then (t, Err "duplicate key value violates unique constraint")
    else (<[(height, a) := mkStorageProof (Some cid) (Some sig) None provers ProofStatusUnresolved]> t, Ok tt).

(** The rows of a height, in the order of the table. *)
Definition proofs_at (height : Z) (t : proof_table) : list (string * StorageProof) :=
  omap (fun '((h, a), r) => if h =? height then Some (a, r) else None) (map_to_list t).

Definition GetStorageProofs (height : Z) (t : proof_table) : list (string * StorageProof) :=
  row_order (proofs_at height t).

Definition UpdateStorageProof (proof : string) (status : ProofStatus) (height : Z) (a : string) :
    proc proof_table string unit :=
  fun t =>
    if fault (QUpdateStorageProof height a) then (t, Err "statement failed")
    else (alter (fun r => mkStorageProof (sp_Cid r) (sp_ProofSignature r) (Some proof) (sp_ProverAddresses r) status)
            (height, a) t, Ok tt).

Definition failed_proof : StorageProof := mkStorageProof None None None [] ProofStatusFail.

Definition InsertFailedStorageProof (height : Z) (a : string) : proc proof_table string unit :=
  fun t =>
    if fault (QInsertFailedStorageProof height a) then (t, Err "statement failed")
    else if bool_decide (is_Some (t !! (height, a))) then (t, Err "duplicate key value violates unique constraint")
    else (<[(height, a) := failed_proof]> t, Ok tt).

(** ** Finalization *)

Definition finalizeStorageProof (env : pos_committed) (signature : string) (tx : option StorageProofTx)
    (blockHeight : Z) : proc proof_table string (option StorageProofTx) :=
  match isValidStorageProofTx env signature tx blockHeight false with
  | Err e => pfail e
  | Ok _ =>
      match tx with
      | None => pret None
      | Some sp => fun t =>
          match GetStorageProof (spt_Height sp) (spt_Address sp) t with
          | Ok None =>
              (InsertStorageProof (spt_Height sp) (spt_Address sp) (spt_Cid sp)
                 (base64_encode (spt_ProofSignature sp)) (spt_ProverAddresses sp) ;;!
               pret (Some sp)) t
          | _ => (t, Ok (Some sp))
          end
      end
  end.

(** One iteration of the check of the revealed proof against the signature of a
    prover: whether the signature matches. *)
Definition check_prover (block : list CoreValidator) (proof : string) (p : string * StorageProof) : res string bool :=
  match (if fault (QNodeByComet p.1) then None else GetRegisteredNodeByCometAddress block p.1) with
  | None => Err "could not fetch node"
  | Some node =>
      let? _ := guard_err (cv_Jailed node) "prover node is jailed" in
      match base64_decode (default "" (sp_ProofSignature p.2)) with
      | None => Err "could not decode proof signature node"
      | Some sigBytes =>
          match base64_decode (cv_CometPubKey node) with
          | None => Err "could not decode public key for node"
          | Some pubKey => Ok (VerifySignature pubKey proof sigBytes)
          end
      end
  end.

(** [consensusPeers[peer]++]. *)
Definition bump (m : gmap string Z) (peer : string) : gmap string Z :=
  <[peer := default 0 (m !! peer) + 1]> m.

Fixpoint tally (block : list CoreValidator) (proof : string) (proofs : list (string * StorageProof))
    (consensusNodes : list string) (consensusPeers : gmap string Z) : res string (list string * gmap string Z) :=
  match proofs with
  | [] => Ok (consensusNodes, consensusPeers)
  | p :: ps =>
      let? matched := check_prover block proof p in
      if matched
      then tally block proof ps (app consensusNodes [p.1]) (fold_left bump (sp_ProverAddresses p.2) consensusPeers)
      else tally block proof ps consensusNodes consensusPeers
  end.

Definition mark_prover (proofStr : string) (height : Z) (consensusNodes : list string) (p : string * StorageProof) :
    proc proof_table string unit :=
  UpdateStorageProof proofStr
    (if bool_decide (p.1 ∈ consensusNodes) then ProofStatusPass else ProofStatusFail) height p.1.

(** The peers a majority named and that sent no proof; the error of the insert is
    dropped. *)
Definition mark_missing (height n : Z) (peer : string * Z) : proc proof_table string unit :=
  if n / 2 <? peer.2
  then fun t => ((InsertFailedStorageProof height peer.1 t).1, Ok tt)
  else pret tt.

Definition finalizeStorageProofVerification (env : pos_committed) (block : list CoreValidator)
    (tx : option StorageProofVerification) (currentBlockHeight : Z) :
    proc proof_table string (option StorageProofVerification) :=
  match isValidStorageProofVerificationTx env tx currentBlockHeight with
  | Err e => pfail e
  | Ok _ =>
      match tx with
      | None => pret None
      | Some spv => fun t =>
          if fault (QGetStorageProofs (spv_Height spv)) then (t, Err "could not fetch storage proofs")
          else
            let proofs := GetStorageProofs (spv_Height spv) t in
            let n := Z.of_nat (length proofs) in
            match proofs with
            | [] => (t, Ok (Some spv))
            | p0 :: _ =>
                if negb (bool_decide (sp_Status p0.2 = ProofStatusUnresolved)) then (t, Ok (Some spv))
                else
                  match tally block (spv_Proof spv) proofs [] ∅ with
                  | Err e => (t, Err e)
                  | Ok (consensusNodes, consensusPeers) =>
                      if n / 2 <? Z.of_nat (length consensusNodes)
                      then
                        let missing := foldr (fun p m => delete p.1 m) consensusPeers proofs in
                        (for_each (mark_prover (hex_encode (spv_Proof spv)) (spv_Height spv) consensusNodes) proofs ;;!
                         for_each (mark_missing (spv_Height spv) n) (range_order (map_to_list missing)) ;;!
                         pret (Some spv)) t
                      else (t, Ok (Some spv))
                  end
            end
      end
  end.
End PoS.
