(* ===== verification/PoSProps.v ===== *)
(** * Proof of storage: resolution of challenges

    What a verification does to the rows of its challenge, independently of the
    order in which rows and map entries are visited, and that a challenge is
    resolved once. *)

From stdpp Require Import base gmap strings list fin_maps.
From Stdlib Require Import ZArith Lia Ascii.
From S2P Require Import Prelude Crypto Validators Encoding PoS.

Open Scope string_scope.
Open Scope Z_scope.

(** ** The rows of a height *)

Lemma elem_of_proofs_at h t a r : (a, r) ∈ proofs_at h t <-> t !! (h, a) = Some r.
Proof.
  unfold proofs_at. rewrite list_elem_of_omap. split.
  - intros ([[h' a'] r'] & Hin & He). apply elem_of_map_to_list in Hin.
    destruct (Z.eqb_spec h' h); naive_solver.
  - intros Hr. exists ((h, a), r). split; [by apply elem_of_map_to_list|]. by rewrite Z.eqb_refl.
Qed.

Lemma NoDup_fst_omap h (l : list ((Z * string) * StorageProof)) :
  NoDup (l.*1) ->
  NoDup (map fst (omap (fun '((h', a), r) => if h' =? h then Some (a, r) else None) l)).
Proof.
  induction l as [|[[h' a] r] l IH]; simpl; [constructor|]. intros [Hn Hd]%NoDup_cons.
  destruct (Z.eqb_spec h' h) as [->|]; simpl; [|auto]. constructor; [|auto].
  intros Hin. apply Hn. apply list_elem_of_fmap in Hin as ([a2 r2] & -> & Hin).
  apply list_elem_of_omap in Hin as ([[h3 a3] r3] & Hin & He).
  destruct (Z.eqb_spec h3 h); simplify_eq. apply list_elem_of_fmap. by exists ((h, a2), r2).
Qed.

Lemma proofs_at_NoDup h t : NoDup (map fst (proofs_at h t)).
Proof. apply NoDup_fst_omap, NoDup_fst_map_to_list. Qed.

(** ** Votes *)

Definition vote (m : gmap string Z) (x : string) : Z := default 0 (m !! x).
Definition occ (x : string) (l : list string) : Z := Z.of_nat (length (filter (fun y => y = x) l)).

Lemma vote_bumps l m x : vote (fold_left bump l m) x = vote m x + occ x l.
Proof.
  revert m. induction l as [|y l IH]; intros m; [unfold occ; simpl; lia|].
  cbn [fold_left]. rewrite IH. unfold vote, bump, occ. rewrite filter_cons.
  destruct (decide (y = x)) as [->|]; [rewrite lookup_insert_eq|rewrite lookup_insert_ne by done]; simpl; lia.
Qed.

Lemma vote_deletes (ps : list (string * StorageProof)) m x :
  vote (foldr (fun p m => delete p.1 m) m ps) x = if bool_decide (x ∈ map fst ps) then 0 else vote m x.
Proof.
  induction ps as [|p ps IH]; cbn [foldr map]; [by rewrite bool_decide_false by set_solver|].
  unfold vote in *. destruct (decide (p.1 = x)) as [<-|Hne].
  - by rewrite lookup_delete_eq, bool_decide_true by set_solver.
  - rewrite lookup_delete_ne, IH by done. repeat case_bool_decide; set_solver.
Qed.

Section Resolution.
Context {C : EthCrypto}.
Context (marshal_proof : StorageProofTx -> option string)
        (VerifySignature : string -> string -> string -> bool)
        (fault : pos_query -> bool).

Notation check := (check_prover VerifySignature fault).
Notation tally := (tally VerifySignature fault).

Definition matches (block : list CoreValidator) (proof : string) (p : string * StorageProof) : Prop :=
  check block proof p = Ok true.

#[global] Instance matches_dec block proof p : Decision (matches block proof p).
Proof. unfold matches. destruct (check block proof p) as [[]|]; [left|right|right]; done. Defined.

(** The votes for [x] as a missing prover: one for each time a prover whose
    signature matched names it. *)
Definition votes (block : list CoreValidator) (proof : string) (ps : list (string * StorageProof)) (x : string) : Z :=
  occ x (filter (matches block proof) ps ≫= fun p => sp_ProverAddresses p.2).

Definition provers_matching (block : list CoreValidator) (proof : string) (ps : list (string * StorageProof)) : Z :=
  Z.of_nat (length (filter (matches block proof) ps)).

(** The provers whose signature matched and who name [x]. *)
Definition supporters (block : list CoreValidator) (proof : string) (ps : list (string * StorageProof)) (x : string) : Z :=
  Z.of_nat (length (filter (fun p => matches block proof p /\ x ∈ sp_ProverAddresses p.2) ps)).

Lemma occ_app x l k : occ x (l ++ k) = occ x l + occ x k.
Proof. unfold occ. rewrite filter_app, length_app. lia. Qed.

Lemma occ_once x l : NoDup l -> occ x l = if decide (x ∈ l) then 1 else 0.
Proof.
  unfold occ. induction l as [|y l IH]; intros Hd; [done|]. apply NoDup_cons in Hd as [Hy Hd]. specialize (IH Hd).
  rewrite filter_cons. destruct (decide (x = y)) as [->|Hne].
  - rewrite (decide_True (P := y ∈ y :: l)) by left. rewrite decide_False in IH by done.
    match goal with |- context [decide ?P] => destruct (decide P) as [_|n]; [|by destruct n] end. cbn [length]. lia.
  - match goal with |- context [if decide (?a = ?b) then _ else _] => destruct (decide (a = b)); [congruence|] end.
    rewrite IH. destruct (decide (x ∈ l)) as [Hx|Hx].
    + rewrite decide_True; [done|by right].
    + rewrite decide_False; [done|]. by intros [?|?]%elem_of_cons.
Qed.

Lemma votes_supporters block proof ps x :
  (forall p, p ∈ ps -> NoDup (sp_ProverAddresses p.2)) -> votes block proof ps x = supporters block proof ps x.
Proof.
  unfold votes, supporters. induction ps as [|p ps IH]; intros Hd; [done|].
  specialize (IH (fun q Hq => Hd q (list_elem_of_further _ _ _ Hq))). rewrite !filter_cons.
  destruct (decide (matches block proof p)) as [Hm|Hm].
  - rewrite bind_cons, occ_app, IH, occ_once by (apply Hd; left).
    destruct (decide (x ∈ sp_ProverAddresses p.2)) as [Hx|Hx].
    + rewrite decide_True by done. cbn [length]. lia.
    + rewrite decide_False by tauto. lia.
  - rewrite decide_False by tauto. done.
Qed.

Lemma tally_spec block proof ps nodes peers :
  match tally block proof ps nodes peers with
  | Ok (nodes', peers') =>
      (forall p, p ∈ ps -> exists b, check block proof p = Ok b) /\
      nodes' = app nodes (map fst (filter (matches block proof) ps)) /\
      (forall x, vote peers' x = vote peers x + votes block proof ps x)
  | Err _ => exists p e, p ∈ ps /\ check block proof p = Err e
  end.
Proof.
  revert nodes peers. induction ps as [|p ps IH]; intros nodes peers; simpl.
  { split_and!; [set_solver|by rewrite app_nil_r|intros; unfold votes, occ; simpl; lia]. }
  destruct (check block proof p) as [b|e] eqn:Hc; simpl; [|exists p, e; set_solver].
  specialize (IH (if b then app nodes [p.1] else nodes)
                 (if b then fold_left bump (sp_ProverAddresses p.2) peers else peers)).
  unfold votes. rewrite filter_cons.
  destruct b; (destruct (decide (matches block proof p)) as [Hm|Hm]; unfold matches in Hm; [|try congruence]);
    try congruence; destruct (tally _ _ ps _ _) as [[nodes' peers']|e];
    try (destruct IH as (q & e' & ? & ?); exists q, e'; set_solver); destruct IH as (Hall & -> & Hv);
    (split_and!; [intros q [->|]%elem_of_cons; eauto| |intros x; rewrite Hv]).
  - by rewrite <-app_assoc.
  - rewrite vote_bumps, bind_cons, occ_app. unfold votes. lia.
  - done.
  - done.
Qed.

(** ** The loops that write *)

Definition mark (proofStr : string) (nodes : list string) (a : string) (r : StorageProof) : StorageProof :=
  mkStorageProof (sp_Cid r) (sp_ProofSignature r) (Some proofStr) (sp_ProverAddresses r)
    (if bool_decide (a ∈ nodes) then ProofStatusPass else ProofStatusFail).

Lemma mark_provers_spec proofStr h nodes ps t :
  (forall a, fault (QUpdateStorageProof h a) = false) ->
  exists t', for_each (mark_prover fault proofStr h nodes) ps t = (t', Ok tt) /\
    forall h' a, t' !! (h', a) =
      if bool_decide (h' = h /\ a ∈ map fst ps) then mark proofStr nodes a <$> t !! (h', a) else t !! (h', a).
Proof.
  intros Hf. revert t. induction ps as [|p ps IH]; intros t.
  { exists t. split; [done|]. intros h' a. rewrite bool_decide_false; [done|]. set_solver. }
  destruct (IH (alter (mark proofStr nodes p.1) (h, p.1) t)) as (t' & Hrun & Ht').
  exists t'. split.
  { cbn [for_each]. unfold pbind, mark_prover, UpdateStorageProof. rewrite Hf. exact Hrun. }
  intros h' a. rewrite Ht'. destruct (decide (h' = h /\ a = p.1)) as [[-> ->]|Hne].
  - rewrite lookup_alter_eq, (bool_decide_true (_ = _ /\ p.1 ∈ map fst (p :: ps))) by set_solver.
    case_bool_decide; [|done]. rewrite <-option_fmap_compose. by destruct (t !! _).
  - rewrite lookup_alter_ne by naive_solver. repeat case_bool_decide; set_solver.
Qed.

Lemma mark_missing_spec h n l t :
  exists t', for_each (mark_missing fault h n) l t = (t', Ok tt) /\
    (forall k r, t !! k = Some r -> t' !! k = Some r) /\
    (forall h' a r, t !! (h', a) = None -> t' !! (h', a) = Some r ->
       h' = h /\ r = failed_proof /\ exists v, (a, v) ∈ l /\ n / 2 < v) /\
    (forall a v, t !! (h, a) = None -> (a, v) ∈ l -> n / 2 < v ->
       fault (QInsertFailedStorageProof h a) = false -> t' !! (h, a) = Some failed_proof).
Proof.
  revert t. induction l as [|[a0 v0] l IH]; intros t.
  { exists t. split_and!; [done|done|congruence|set_solver]. }
  destruct (mark_missing fault h n (a0, v0) t) as [t1 o1] eqn:E.
  assert (t1 = t \/ t !! (h, a0) = None /\ n / 2 < v0 /\ t1 = <[(h, a0) := failed_proof]> t) as Hstep.
  { unfold mark_missing, pret, InsertFailedStorageProof in E. simpl in E.
    destruct (Z.ltb_spec (n / 2) v0); [|naive_solver]. destruct (fault _); [naive_solver|].
    case_bool_decide as Hs; [naive_solver|]. apply eq_None_not_Some in Hs. naive_solver. }
  assert (n / 2 < v0 -> fault (QInsertFailedStorageProof h a0) = false -> is_Some (t1 !! (h, a0))) as Hdone.
  { intros Hlt Hf. unfold mark_missing, InsertFailedStorageProof in E. simpl in E.
    rewrite (proj2 (Z.ltb_lt _ _) Hlt), Hf in E. case_bool_decide; simplify_eq/=; [done|].
    rewrite lookup_insert_eq. eauto. }
  destruct (IH t1) as (t' & Hrun & Hkeep & Honly & Hins). exists t'. split_and!.
  - cbn [for_each]. unfold pbind. rewrite E. unfold mark_missing, pret in E. simpl in E.
    destruct (n / 2 <? v0); simplify_eq; done.
  - intros k r Hr. apply Hkeep. destruct Hstep as [->|(? & ? & ->)]; [done|].
    rewrite lookup_insert_ne; [done|congruence].
  - intros h' a r Hn Hr. destruct (t1 !! (h', a)) eqn:Ht1.
    + destruct Hstep as [->|(? & ? & ->)]; [congruence|].
      apply lookup_insert_Some in Ht1 as [[? <-]|[? ?]]; simplify_eq.
      split_and!; [done| |exists v0; set_solver]. specialize (Hkeep (h', a) failed_proof).
      rewrite lookup_insert_eq in Hkeep. naive_solver.
    + destruct (Honly _ _ _ Ht1 Hr) as (? & ? & v & ? & ?). set_solver.
  - intros a v Hn Hin Hlt Hf. apply elem_of_cons in Hin as [[= -> ->]|Hin].
    + destruct (Hdone Hlt Hf) as [r Hr]. destruct Hstep as [->|(? & ? & ->)]; [congruence|].
      apply Hkeep. by rewrite lookup_insert_eq.
    + destruct (t1 !! (h, a)) as [r|] eqn:Ht1; [|eauto].
      destruct Hstep as [->|(? & ? & ->)]; [congruence|]. apply Hkeep.
      apply lookup_insert_Some in Ht1 as [[? _]|[? ?]]; simplify_eq. by rewrite lookup_insert_eq.
Qed.

(** ** What a verification does *)

(** The row of a prover after the challenge is resolved by [proof]. *)
Definition resolved_row (block : list CoreValidator) (proof : string) (a : string) (r : StorageProof) : StorageProof :=
  mkStorageProof (sp_Cid r) (sp_ProofSignature r) (Some (hex_encode proof)) (sp_ProverAddresses r)
    (if decide (matches block proof (a, r)) then ProofStatusPass else ProofStatusFail).

Definition provers (h : Z) (t : proof_table) : Z := Z.of_nat (length (proofs_at h t)).

(** [t'] is [t] with the challenge at [h] resolved: every prover is marked by
    whether its signature matched, and every node without a proof that more than half
    of the provers name, with matching signatures, gets a failed row. *)
Definition resolved_by (block : list CoreValidator) (proof : string) (h : Z) (t t' : proof_table) : Prop :=
  forall h' a, t' !! (h', a) =
    if decide (h' = h) then
      match t !! (h, a) with
      | Some r => Some (resolved_row block proof a r)
      | None => if provers h t / 2 <? supporters block proof (proofs_at h t) a then Some failed_proof else None
      end
    else t !! (h', a).

Lemma in_consensus_nodes block proof h t ps a r :
  ps ≡ₚ proofs_at h t -> t !! (h, a) = Some r ->
  a ∈ map fst (filter (matches block proof) ps) <-> matches block proof (a, r).
Proof.
  intros Hp Hr. split.
  - intros ([a' r'] & He & [Hm Hin]%list_elem_of_filter)%list_elem_of_fmap. simpl in He. subst a'.
    rewrite Hp in Hin. apply elem_of_proofs_at in Hin. by simplify_eq.
  - intros Hm. apply list_elem_of_fmap. exists (a, r). split; [done|].
    apply list_elem_of_filter. split; [done|]. rewrite Hp. by apply elem_of_proofs_at.
Qed.

Lemma elem_of_addresses h t ps a :
  ps ≡ₚ proofs_at h t -> a ∈ map fst ps <-> is_Some (t !! (h, a)).
Proof.
  intros Hp. split.
  - intros ([a' r'] & -> & Hin)%list_elem_of_fmap. rewrite Hp in Hin.
    apply elem_of_proofs_at in Hin. by exists r'.
  - intros [r Hr]. apply list_elem_of_fmap. exists (a, r). split; [done|]. rewrite Hp. by apply elem_of_proofs_at.
Qed.

Lemma votes_perm block proof ps ps' x : ps ≡ₚ ps' -> votes block proof ps x = votes block proof ps' x.
Proof. intros Hp. unfold votes, occ. by rewrite Hp. Qed.

Lemma vote_some m x v : m !! x = Some v -> vote m x = v.
Proof. unfold vote. by intros ->. Qed.

(** The writing part of a verification resolves the challenge; a failing insert
    only leaves a missing prover out. *)
Lemma resolution_loops block proof h t ps peers l :
  (forall a, fault (QUpdateStorageProof h a) = false) ->
  ps ≡ₚ proofs_at h t ->
  (forall x, vote peers x = votes block proof ps x) ->
  l ≡ₚ map_to_list (foldr (fun p m => delete p.1 m) peers ps) ->
  exists t',
    (for_each (mark_prover fault (hex_encode proof) h (map fst (filter (matches block proof) ps))) ps ;;!
     for_each (mark_missing fault h (provers h t)) l) t = (t', Ok tt) /\
    (forall h' a, h' <> h -> t' !! (h', a) = t !! (h', a)) /\
    (forall a r, t !! (h, a) = Some r -> t' !! (h, a) = Some (resolved_row block proof a r)) /\
    (forall a r, t !! (h, a) = None -> t' !! (h, a) = Some r ->
       r = failed_proof /\ provers h t / 2 < votes block proof ps a) /\
    (forall a, t !! (h, a) = None -> fault (QInsertFailedStorageProof h a) = false ->
       provers h t / 2 < votes block proof ps a -> t' !! (h, a) = Some failed_proof).
Proof.
  intros Hup Hp Hv Hl.
  destruct (mark_provers_spec (hex_encode proof) h (map fst (filter (matches block proof) ps)) ps t Hup)
    as (t1 & Hrun1 & Ht1).
  destruct (mark_missing_spec h (provers h t) l t1) as (t' & Hrun2 & Hkeep & Honly & Hins).
  assert (forall a, t !! (h, a) = None -> t1 !! (h, a) = None) as Hnone1.
  { intros a Ha. rewrite Ht1, Ha. by case_bool_decide. }
  assert (forall a v, t !! (h, a) = None -> (a, v) ∈ l -> v = votes block proof ps a) as Hvote.
  { intros a v Ha Hin. rewrite Hl in Hin. apply elem_of_map_to_list, vote_some in Hin.
    rewrite vote_deletes, Hv in Hin. case_bool_decide as Hb; [|done].
    apply (elem_of_addresses h t ps a Hp) in Hb. by rewrite Ha in Hb; destruct Hb. }
  exists t'. split_and!.
  - unfold pbind. by rewrite Hrun1.
  - intros h' a Hne. assert (t1 !! (h', a) = t !! (h', a)) as He1.
    { rewrite Ht1, bool_decide_false; [done|]. naive_solver. }
    destruct (t' !! (h', a)) as [r|] eqn:He; destruct (t !! (h', a)) as [r'|] eqn:He'; [| | |done].
    + apply Hkeep in He1. congruence.
    + destruct (Honly _ _ _ He1 He) as [? _]. done.
    + apply Hkeep in He1. congruence.
  - intros a r Ha. apply Hkeep. rewrite Ht1, Ha, bool_decide_true.
    2:{ split; [done|]. apply (elem_of_addresses h t ps a Hp). eauto. }
    simpl. unfold mark, resolved_row. pose proof (in_consensus_nodes block proof h t ps a r Hp Ha).
    case_bool_decide; case_decide; naive_solver.
  - intros a r Ha Hr. destruct (Honly _ _ _ (Hnone1 _ Ha) Hr) as (_ & -> & v & Hin & Hlt).
    split; [done|]. by rewrite (Hvote a v Ha Hin) in Hlt.
  - intros a Ha Hf Hlt. assert (0 <= provers h t / 2) by (apply Z.div_pos; unfold provers; lia).
    apply (Hins a (votes block proof ps a)); [auto| |done|done].
    rewrite Hl. apply elem_of_map_to_list.
    assert (vote (foldr (fun p m => delete p.1 m) peers ps) a = votes block proof ps a) as Hva.
    { rewrite vote_deletes, Hv, bool_decide_false; [done|]. rewrite (elem_of_addresses h t ps a Hp), Ha. by intros [? ?]. }
    unfold vote in Hva. destruct (_ !! a); simpl in *; [congruence|lia].
Qed.
End Resolution.

Lemma pbind_seq {S E A} (m k : proc S E unit) (v : A) s s' :
  (m ;;! k) s = (s', Ok tt) -> (m ;;! k ;;! pret v) s = (s', Ok v).
Proof. unfold pbind, pret. destruct (m s) as [s1 [u|]]; [|done]. by intros ->. Qed.

(** Rows and map entries are visited in some order. *)
Class Orders (row_order : list (string * StorageProof) -> list (string * StorageProof))
    (range_order : list (string * Z) -> list (string * Z)) : Prop := {
  row_order_perm l : row_order l ≡ₚ l;
  range_order_perm l : range_order l ≡ₚ l
}.

(** The rows of a challenge are all unresolved or all resolved. *)
Definition one_phase (h : Z) (t : proof_table) : Prop :=
  (forall a r, t !! (h, a) = Some r -> sp_Status r = ProofStatusUnresolved) \/
  (forall a r, t !! (h, a) = Some r -> sp_Status r <> ProofStatusUnresolved).

Definition challenge_open (h : Z) (t : proof_table) : Prop :=
  exists a r, t !! (h, a) = Some r /\ sp_Status r = ProofStatusUnresolved.

Section Verification.
Context {C : EthCrypto}.
Context (marshal_proof : StorageProofTx -> option string)
        (VerifySignature : string -> string -> string -> bool)
        (row_order : list (string * StorageProof) -> list (string * StorageProof))
        (range_order : list (string * Z) -> list (string * Z))
        (fault : pos_query -> bool) `{!Orders row_order range_order}.

Notation check := (check_prover VerifySignature fault).
Notation verify := (finalizeStorageProofVerification VerifySignature row_order range_order fault).

(** What a valid verification does, by the state of the challenge. *)
Definition verification_spec (block : list CoreValidator) (spv : StorageProofVerification)
    (t t' : proof_table) (o : res string (option StorageProofVerification)) : Prop :=
  let h := spv_Height spv in
  let ps := proofs_at h t in
  (~ challenge_open h t -> t' = t /\ o = Ok (Some spv)) /\
  (challenge_open h t -> (exists p e, p ∈ ps /\ check block (spv_Proof spv) p = Err e) ->
     t' = t /\ exists e, o = Err e) /\
  (challenge_open h t -> (forall p, p ∈ ps -> exists b, check block (spv_Proof spv) p = Ok b) ->
     o = Ok (Some spv) /\
     if provers h t / 2 <? provers_matching VerifySignature fault block (spv_Proof spv) ps
     then resolved_by VerifySignature fault block (spv_Proof spv) h t t'
     else t' = t).

(** The states a verification passes through, with failing statements other
    than updates. *)
Lemma verify_cases env block spv H t :
  (forall h a, fault (QUpdateStorageProof h a) = false) ->
  fault (QGetStorageProofs (spv_Height spv)) = false ->
  one_phase (spv_Height spv) t ->
  isValidStorageProofVerificationTx fault env (Some spv) H = Ok tt ->
  let h := spv_Height spv in
  let proof := spv_Proof spv in
  let '(t', o) := verify env block (Some spv) H t in
  (~ challenge_open h t /\ t' = t /\ o = Ok (Some spv)) \/
  (challenge_open h t /\ (exists p e, p ∈ proofs_at h t /\ check block proof p = Err e) /\ t' = t /\ exists e, o = Err e) \/
  (challenge_open h t /\ (forall p, p ∈ proofs_at h t -> exists b, check block proof p = Ok b) /\ o = Ok (Some spv) /\
   if provers h t / 2 <? provers_matching VerifySignature fault block proof (proofs_at h t)
   then
     (forall h' a, h' <> h -> t' !! (h', a) = t !! (h', a)) /\
     (forall a r, t !! (h, a) = Some r -> t' !! (h, a) = Some (resolved_row VerifySignature fault block proof a r)) /\
     (forall a r, t !! (h, a) = None -> t' !! (h, a) = Some r ->
        r = failed_proof /\ provers h t / 2 < votes VerifySignature fault block proof (proofs_at h t) a) /\
     (forall a, t !! (h, a) = None -> fault (QInsertFailedStorageProof h a) = false ->
        provers h t / 2 < votes VerifySignature fault block proof (proofs_at h t) a -> t' !! (h, a) = Some failed_proof)
   else t' = t).
Proof using Orders0.
  intros Hup Hget Hph Hval h proof. unfold finalizeStorageProofVerification. rewrite Hval, Hget.
  assert (GetStorageProofs row_order h t ≡ₚ proofs_at h t) as Hp by (unfold GetStorageProofs; apply row_order_perm).
  fold h. set (ps := GetStorageProofs row_order h t) in *.
  destruct ps as [|p0 ps'] eqn:Eps.
  { left. split_and!; [|done|done]. intros (a & r & Hr & _). apply elem_of_proofs_at in Hr.
    apply Permutation_nil_l in Hp. rewrite <-Hp in Hr. by apply elem_of_nil in Hr. }
  assert (t !! (h, p0.1) = Some p0.2) as Hp0.
  { apply elem_of_proofs_at. rewrite <-Hp. destruct p0. set_solver. }
  case_bool_decide as Hst; cbn [negb].
  2:{ left. split_and!; [|done|done]. intros (a & r & Hr & Hs). destruct Hph as [Hph|Hph]; naive_solver. }
  assert (challenge_open h t) as Hopen by (exists p0.1, p0.2; done).
  pose proof (tally_spec VerifySignature fault block proof (p0 :: ps') [] ∅) as Ht. fold proof.
  destruct (tally _ _ _ _ (p0 :: ps') _ _) as [[nodes peers]|e].
  2:{ right; left. split_and!; [done| |done|by exists e]. destruct Ht as (p & e' & Hin & He).
      exists p, e'. by rewrite <-Hp. }
  destruct Ht as (Hall & Hn & Hv).
  assert (Z.of_nat (length (p0 :: ps')) = provers h t) as Hlen by (unfold provers; by rewrite Hp).
  assert (Z.of_nat (length nodes) = provers_matching VerifySignature fault block proof (proofs_at h t)) as Hm.
  { subst nodes. rewrite app_nil_l, length_map. unfold provers_matching. by rewrite Hp. }
  rewrite Hlen, Hm. destruct (_ <? _).
  - destruct (resolution_loops VerifySignature fault block proof h t (p0 :: ps') peers
      (range_order (map_to_list (foldr (fun p m => delete p.1 m) peers (p0 :: ps')))))
      as (t' & Hrun & H1 & H2 & H3 & H4); [done|done| |apply range_order_perm|].
    { intros x. rewrite Hv. unfold vote. by rewrite lookup_empty. }
    subst nodes. erewrite pbind_seq by exact Hrun.
    setoid_rewrite (votes_perm VerifySignature fault block proof _ _ _ Hp) in H3.
    setoid_rewrite (votes_perm VerifySignature fault block proof _ _ _ Hp) in H4.
    right; right. split_and!; [done| |done|done|done|done|done]. intros p Hin. apply Hall. by rewrite Hp.
  - right; right. split_and!; [done| |done|done]. intros p Hin. apply Hall. by rewrite Hp.
Qed.

(** ** Blocks *)

(** The committed blocks are below the block being finalized. *)
Definition committed_below (env : pos_committed) (H : Z) : Prop :=
  forall h, is_Some (pc_blocks env !! h) -> 0 <= h <= H.

Inductive pos_step : Z * proof_table -> Z * proof_table -> Prop :=
| step_next_block H H' t : H <= H' <= int64_max -> pos_step (H, t) (H', t)
| step_storage_proof H t env sig tx :
    committed_below env H ->
    pos_step (H, t) (H, (finalizeStorageProof marshal_proof fault env sig tx H t).1)
| step_verification H t env block tx :
    committed_below env H -> pos_step (H, t) (H, (verify env block tx H t).1).

Definition pos_inv (st : Z * proof_table) : Prop :=
  0 <= st.1 <= int64_max /\
  forall h, (forall a r, st.2 !! (h, a) = Some r -> sp_Status r = ProofStatusUnresolved) \/
            (posChallengeDeadline < st.1 - h /\ forall a r, st.2 !! (h, a) = Some r -> sp_Status r <> ProofStatusUnresolved).

Lemma check_challenge_committed env H h :
  committed_below env H -> check_challenge_height fault env h = Ok tt -> 0 <= h <= H.
Proof.
  intros Hb Hc. apply Hb. unfold check_challenge_height in Hc.
  destruct (fault _); [done|]. by destruct (pc_blocks env !! h); [eauto|].
Qed.

Lemma wrap64_heights H h : 0 <= h <= H -> H <= int64_max -> wrap64 (H - h) = H - h.
Proof. intros. apply wrap64_id. unfold is_int64, int64_min, int64_max in *. lia. Qed.

Lemma valid_proof_height env sig sp H e :
  committed_below env H -> H <= int64_max ->
  isValidStorageProofTx marshal_proof fault env sig (Some sp) H e = Ok tt ->
  H - spt_Height sp <= posChallengeDeadline.
Proof.
  intros Hb HH Hv. unfold isValidStorageProofTx in Hv. peel_checks Hv.
  destruct (marshal_proof sp); [|done]. destruct (EthRecover _ _) as [[? address]|]; [|done].
  destruct (if fault (QNodeByEthAddress address) then _ else _); [|done]. peel_checks Hv.
  apply rbind_ok in Hv as ([] & Hch & _). apply (check_challenge_committed _ _ _ Hb) in Hch.
  match goal with Hd : (posChallengeDeadline <? _) = false |- _ =>
    apply Z.ltb_ge in Hd; rewrite wrap64_heights in Hd by done end. done.
Qed.

Lemma valid_verification_height env spv H :
  committed_below env H -> H <= int64_max ->
  isValidStorageProofVerificationTx fault env (Some spv) H = Ok tt ->
  posChallengeDeadline < H - spv_Height spv.
Proof.
  intros Hb HH Hv. unfold isValidStorageProofVerificationTx in Hv. peel_checks Hv.
  apply (check_challenge_committed _ _ _ Hb) in Hv.
  match goal with Hd : (_ <=? posChallengeDeadline) = false |- _ =>
    apply Z.leb_gt in Hd; rewrite wrap64_heights in Hd by done end. done.
Qed.

(** A storage proof only adds an unresolved row, before the deadline. *)
Lemma storage_proof_effect env sig tx H t :
  committed_below env H -> H <= int64_max ->
  let t' := (finalizeStorageProof marshal_proof fault env sig tx H t).1 in
  t' = t \/ exists h a r, H - h <= posChallengeDeadline /\ t !! (h, a) = None /\
    sp_Status r = ProofStatusUnresolved /\ t' = <[(h, a) := r]> t.
Proof.
  intros Hb HH. unfold finalizeStorageProof.
  destruct (isValidStorageProofTx _ _ _ _ _ _ _) as [[]|] eqn:Hv; [|by left].
  destruct tx as [sp|]; [|by left]. apply valid_proof_height in Hv; [|done|done].
  unfold GetStorageProof. destruct (fault (QGetStorageProof _ _)); [by left|].
  destruct (t !! _) as [r|] eqn:Hr; [by left|]. unfold pbind, InsertStorageProof.
  destruct (fault (QInsertStorageProof _ _)); [by left|]. rewrite Hr, bool_decide_false by (by intros [? ?]).
  right. eexists _, _, _. split_and!; [exact Hv|exact Hr| |reflexivity]. done.
Qed.

(** A verification resolves an open challenge, after the deadline, or does
    nothing. *)
Lemma verification_effect env block tx H t :
  (forall h a, fault (QUpdateStorageProof h a) = false) ->
  committed_below env H -> H <= int64_max ->
  (forall h, one_phase h t) ->
  let t' := (verify env block tx H t).1 in
  t' = t \/ exists h, posChallengeDeadline < H - h /\ challenge_open h t /\
    (forall h' a, h' <> h -> t' !! (h', a) = t !! (h', a)) /\
    (forall a r, t' !! (h, a) = Some r -> sp_Status r <> ProofStatusUnresolved).
Proof using Orders0.
  intros Hup Hb HH Hph t'. subst t'.
  destruct (isValidStorageProofVerificationTx fault env tx H) as [[]|] eqn:Hv.
  2:{ left. unfold finalizeStorageProofVerification. by rewrite Hv. }
  destruct tx as [spv|]; [|by left; unfold finalizeStorageProofVerification; rewrite Hv].
  destruct (fault (QGetStorageProofs (spv_Height spv))) eqn:Hf.
  { left. unfold finalizeStorageProofVerification. by rewrite Hv, Hf. }
  pose proof (verify_cases env block spv H t Hup Hf (Hph _) Hv) as Hc. cbv zeta in Hc.
  destruct (verify env block (Some spv) H t) as [t' o]. cbn [fst].
  destruct Hc as [(_ & -> & _)|[(_ & _ & -> & _)|(Hopen & _ & _ & Hc)]]; [by left|by left|].
  destruct (_ <? _); [|by left]. destruct Hc as (H1 & H2 & H3 & _). right.
  exists (spv_Height spv). split_and!; [by eapply valid_verification_height|done|done|].
  intros a r Hr. destruct (t !! (spv_Height spv, a)) as [r0|] eqn:E.
  - rewrite (H2 _ _ E) in Hr. simplify_eq. unfold resolved_row. simpl. by case_decide.
  - destruct (H3 _ _ E Hr) as [-> _]. done.
Qed.

Lemma pos_inv_phase H t : pos_inv (H, t) -> forall h, one_phase h t.
Proof. intros [_ Hi] h. destruct (Hi h) as [?|[_ ?]]; [by left|by right]. Qed.

Context (updates_succeed : forall h a, fault (QUpdateStorageProof h a) = false).

Lemma pos_step_inv st st' : pos_inv st -> pos_step st st' -> pos_inv st'.
Proof using Orders0 updates_succeed.
  intros Hi Hs. destruct Hs as [H H' t HH|H t env sig tx Hb|H t env block tx Hb].
  - destruct Hi as [HH0 Hi]. simpl in *. split; [simpl; lia|]. intros h. simpl.
    destruct (Hi h) as [?|[? ?]]; [by left|right; split; [lia|done]].
  - pose proof Hi as [HH0 Hp]. simpl in *. split; [done|]. simpl.
    destruct (storage_proof_effect env sig tx H t Hb) as [->|(h & a & r & Hd & Hn & Hr & ->)]; [lia|done|].
    intros h'. destruct (Hp h') as [Hu|[Hlt Hres]]; [left|right; split; [done|]];
      intros a' r' [[? <-]|[Hne Hl]]%lookup_insert_Some; simplify_eq; eauto. lia.
  - pose proof Hi as [HH0 Hp]. simpl in *. split; [done|]. simpl.
    destruct (verification_effect env block tx H t updates_succeed Hb) as [->|(h & Hd & Ho & Hsame & Hres)];
      [lia|by eapply pos_inv_phase|done|].
    intros h'. destruct (decide (h' = h)) as [->|Hne]; [by right|]. setoid_rewrite (fun a => Hsame h' a Hne). apply Hp.
Qed.

(** A resolved challenge is not touched by a step. *)
Lemma pos_step_resolved st st' h a0 r0 :
  pos_inv st -> pos_step st st' ->
  st.2 !! (h, a0) = Some r0 -> sp_Status r0 <> ProofStatusUnresolved ->
  forall a, st'.2 !! (h, a) = st.2 !! (h, a).
Proof using Orders0 updates_succeed.
  intros Hi Hs Hr0 Hst a. pose proof Hi as [HH Hp].
  destruct (Hp h) as [Hu|[Hlt Hres]]; [naive_solver|].
  destruct Hs as [H H' t _|H t env sig tx Hb|H t env block tx Hb]; simpl in *; [done| |].
  - destruct (storage_proof_effect env sig tx H t Hb) as [->|(h' & a' & r & Hd & Hn & Hr & ->)]; [lia|done|].
    apply lookup_insert_ne. intros [= -> ->]. lia.
  - destruct (verification_effect env block tx H t updates_succeed Hb) as [->|(h' & Hd & Ho & Hsame & _)];
      [lia|by eapply pos_inv_phase|done|].
    apply Hsame. intros ->. destruct Ho as (? & ? & ? & ?). naive_solver.
Qed.
End Verification.

(** ** Proof of storage: theorems

    The resolution of a challenge is a function of the table alone, it happens
    once, and how much weight one prover has in it. *)

Section Theorems.
Context {C : EthCrypto}.
Context (marshal_proof : StorageProofTx -> option string)
        (VerifySignature : string -> string -> string -> bool).

Notation verify := (finalizeStorageProofVerification VerifySignature).

(** C18 -- What a valid verification does when no statement fails, whatever the order
    in which rows and votes are visited, on a table in which the rows of the challenge
    are all unresolved or all resolved and no prover's list names an address twice.  A
    challenge without unresolved rows is left alone.  If a prover cannot be checked
    (unknown, jailed, undecodable) the transaction fails and changes nothing.  Otherwise,
    when more than half of the provers signed the revealed proof, every prover is marked
    passed or failed by its signature, every other node that more than half of the
    provers name, with matching signatures, gets a failed row, and no other row changes;
    without a majority nothing changes.  A list that repeats an address counts once per
    repetition ([one_prover_fails_any_address]). *)
Theorem verification_meets_spec row_order range_order fault env block spv H t t' o :
  Orders row_order range_order ->
  (forall q, fault q = false) ->
  one_phase (spv_Height spv) t ->
  (forall a r, t !! (spv_Height spv, a) = Some r -> NoDup (sp_ProverAddresses r)) ->
  isValidStorageProofVerificationTx fault env (Some spv) H = Ok tt ->
  verify row_order range_order fault env block (Some spv) H t = (t', o) ->
  verification_spec VerifySignature fault block spv t t' o.
Proof.
  intros Ho Hf Hph Hnd Hv Hrun.
  assert (forall a, votes VerifySignature fault block (spv_Proof spv) (proofs_at (spv_Height spv) t) a =
    supporters VerifySignature fault block (spv_Proof spv) (proofs_at (spv_Height spv) t) a) as Hsup.
  { intros a. apply votes_supporters. intros [a' r'] Hin. apply elem_of_proofs_at in Hin. by apply (Hnd a'). }
  pose proof (verify_cases VerifySignature row_order range_order fault env block spv H t
    (fun h a => Hf _) (Hf _) Hph Hv) as Hc. cbv zeta in Hc. rewrite Hrun in Hc.
  destruct Hc as [(Hn & -> & ->)|[(Hopen & Hbad & -> & Herr)|(Hopen & Hall & -> & Hc)]]; (split_and!; try done).
  - intros _ Hall. exfalso. destruct Hbad as (p & e & Hin & He). destruct (Hall p Hin). congruence.
  - intros _ (p & e & Hin & He). exfalso. destruct (Hall p Hin). congruence.
  - intros _ _. split; [done|]. destruct (_ <? _); [|done]. destruct Hc as (H1 & H2 & H3 & H4).
    intros h' a. case_decide as Hh; [subst h'|by apply H1].
    destruct (t !! _) as [r|] eqn:E; [by apply H2|]. rewrite <- Hsup.
    destruct (Z.ltb_spec (provers (spv_Height spv) t / 2)
      (votes VerifySignature fault block (spv_Proof spv) (proofs_at (spv_Height spv) t) a)) as [Hlt|Hge].
    + by apply H4.
    + destruct (t' !! _) eqn:E'; [|done]. destruct (H3 _ _ E E'). lia.
Qed.

(** Two validators that read the rows of the challenge and walk the votes in
    different orders resolve it identically: the same table, and success on both
    or on neither. *)
Theorem verification_order_independent ro1 go1 ro2 go2 fault env block spv H t :
  Orders ro1 go1 -> Orders ro2 go2 ->
  (forall q, fault q = false) ->
  one_phase (spv_Height spv) t ->
  let r1 := verify ro1 go1 fault env block (Some spv) H t in
  let r2 := verify ro2 go2 fault env block (Some spv) H t in
  r1.1 = r2.1 /\ ((exists v, r1.2 = Ok v) <-> (exists v, r2.2 = Ok v)).
Proof.
  intros Ho1 Ho2 Hf Hph r1 r2. subst r1 r2.
  destruct (isValidStorageProofVerificationTx fault env (Some spv) H) as [[]|e] eqn:Hv.
  2:{ unfold finalizeStorageProofVerification. by rewrite Hv. }
  pose proof (verify_cases VerifySignature ro1 go1 fault env block spv H t (fun h a => Hf _) (Hf _) Hph Hv) as H1.
  pose proof (verify_cases VerifySignature ro2 go2 fault env block spv H t (fun h a => Hf _) (Hf _) Hph Hv) as H2.
  cbv zeta in H1, H2.
  destruct (verify ro1 go1 fault env block (Some spv) H t) as [t1 o1].
  destruct (verify ro2 go2 fault env block (Some spv) H t) as [t2 o2]. simpl.
  destruct H1 as [(Hn1 & -> & ->)|[(Ho & (p & e & Hin & He) & -> & [e1 ->])|(Ho & Hall & -> & H1)]],
           H2 as [(Hn2 & -> & ->)|[(Hop & (p' & e' & Hin' & He') & -> & [e2 ->])|(Hop & Hall' & -> & H2)]];
    try done; try (split; [done|naive_solver]).
  1: destruct (Hall' p Hin); congruence.
  1: destruct (Hall p' Hin'); congruence.
  split; [|naive_solver]. destruct (_ <? _); [|congruence].
  destruct H1 as (A1 & A2 & A3 & A4), H2 as (B1 & B2 & B3 & B4). apply map_eq. intros [h a].
  destruct (decide (h = spv_Height spv)) as [->|Hne]; [|by rewrite A1, B1].
  destruct (t !! (spv_Height spv, a)) eqn:E; [by rewrite (A2 _ _ E), (B2 _ _ E)|].
  destruct (t1 !! _) eqn:E1, (t2 !! _) eqn:E2; [| | |done].
  - destruct (A3 _ _ E E1) as [-> _], (B3 _ _ E E2) as [-> _]. done.
  - destruct (A3 _ _ E E1) as [_ Hlt]. rewrite (B4 a E (Hf _) Hlt) in E2. done.
  - destruct (B3 _ _ E E2) as [_ Hlt]. rewrite (A4 a E (Hf _) Hlt) in E1. done.
Qed.

(** C35 -- Along any sequence of blocks, storage proofs and verifications, the rows
    of a challenge are all unresolved or all resolved, and once a row of a
    challenge is resolved no row of that challenge is added, changed or removed. *)
Theorem challenge_resolves_once row_order range_order fault H0 H1 t1 H2 t2 h a0 r0 :
  Orders row_order range_order ->
  (forall h a, fault (QUpdateStorageProof h a) = false) ->
  0 <= H0 <= int64_max ->
  rtc (pos_step marshal_proof VerifySignature row_order range_order fault) (H0, ∅) (H1, t1) ->
  rtc (pos_step marshal_proof VerifySignature row_order range_order fault) (H1, t1) (H2, t2) ->
  t1 !! (h, a0) = Some r0 -> sp_Status r0 <> ProofStatusUnresolved ->
  one_phase h t1 /\ forall a, t2 !! (h, a) = t1 !! (h, a).
Proof.
  intros Ho Hup HH Hr1 Hr2 Hrow Hst.
  assert (pos_inv (H0, ∅)) as Hi0.
  { split; [done|]. intros ?. left. intros ? ? Hl. cbn [snd] in Hl. by rewrite lookup_empty in Hl. }
  assert (forall st st', rtc (pos_step marshal_proof VerifySignature row_order range_order fault) st st' ->
    pos_inv st -> pos_inv st') as Hinv.
  { intros st st' Hr. induction Hr; eauto using pos_step_inv. }
  split; [eapply pos_inv_phase; by eapply Hinv|]. pose proof (Hinv _ _ Hr1 Hi0) as Hi1.
  clear Hi0 Hr1. change t1 with (H1, t1).2 in Hrow |- *. change t2 with (H2, t2).2.
  remember (H1, t1) as st1 eqn:E1. remember (H2, t2) as st2 eqn:E2. clear E1 E2.
  induction Hr2 as [|x y z Hs _ IH]; [done|]. intros a.
  pose proof (pos_step_resolved marshal_proof VerifySignature row_order range_order fault Hup
    _ _ _ _ _ Hi1 Hs Hrow Hst) as Hsame.
  rewrite <-Hsame. apply IH; [by rewrite Hsame|by eapply pos_step_inv].
Qed.

(** Votes are not deduplicated: in a challenge that resolves, a single prover
    whose signature matched and who repeats an address more often than half the
    number of provers gives that address a failed row, whoever it is and whatever
    the other provers named. *)
Theorem one_prover_fails_any_address row_order range_order fault env block spv H t t' o a0 r0 victim :
  Orders row_order range_order ->
  (forall q, fault q = false) ->
  one_phase (spv_Height spv) t ->
  isValidStorageProofVerificationTx fault env (Some spv) H = Ok tt ->
  verify row_order range_order fault env block (Some spv) H t = (t', o) ->
  t' <> t ->
  t !! (spv_Height spv, a0) = Some r0 ->
  matches VerifySignature fault block (spv_Proof spv) (a0, r0) ->
  provers (spv_Height spv) t / 2 < occ victim (sp_ProverAddresses r0) ->
  t !! (spv_Height spv, victim) = None ->
  t' !! (spv_Height spv, victim) = Some failed_proof.
Proof.
  intros Ho Hf Hph Hv Hrun Hch Hr0 Hm Hocc Hn.
  pose proof (verify_cases VerifySignature row_order range_order fault env block spv H t
    (fun h a => Hf _) (Hf _) Hph Hv) as Hc. cbv zeta in Hc. rewrite Hrun in Hc.
  destruct Hc as [(_ & -> & _)|[(_ & _ & -> & _)|(_ & _ & _ & Hc)]]; [done|done|].
  destruct (_ <? _); [|done]. destruct Hc as (_ & _ & _ & H4). apply H4; [done|done|].
  eapply Z.lt_le_trans; [exact Hocc|]. unfold votes.
  assert ((a0, r0) ∈ filter (matches VerifySignature fault block (spv_Proof spv))
    (proofs_at (spv_Height spv) t)) as Hin.
  { apply list_elem_of_filter. split; [done|]. by apply elem_of_proofs_at. }
  apply list_elem_of_split in Hin as (l1 & l2 & ->).
  rewrite bind_app, bind_cons, !occ_app. cbn [snd]. unfold occ. lia.
Qed.
End Theorems.

(** ** Witnesses *)

Module PosExample.
Import Toy.

Definition node (a : string) : CoreValidator :=
  mkCoreValidator "" ("https://" +:+ a) ("0x" +:+ hex_encode a) a "0" "validator" "1" (base64_encode a) false.
Definition block : list CoreValidator := map node ["A"; "B"; "D"].
Definition signs (key msg sig : string) : bool := String.eqb sig (key +:+ msg).
Definition row (a msg : string) (ps : list string) : StorageProof :=
  mkStorageProof (Some "cid") (Some (base64_encode (a +:+ msg))) None ps ProofStatusUnresolved.
(** The proof A and B signed is "p"; only A names V, twice. *)
Definition table : proof_table :=
  list_to_map [((5, "A"), row "A" "p" ["A"; "B"; "V"; "V"]); ((5, "B"), row "B" "p" ["A"; "B"]); ((5, "D"), row "D" "q" [])].
Definition env : pos_committed := mkPosCommitted block (<[5 := "ab10"]> ∅) ∅.
Definition spv : StorageProofVerification := mkStorageProofVerification 5 "p".
Definition ok : pos_query -> bool := fun _ => false.
Definition result : proof_table * res string (option StorageProofVerification) :=
  finalizeStorageProofVerification signs (fun l => l) (fun l => l) ok env block (Some spv) 9 table.

#[export] Instance orders : Orders (fun l => l) (fun l => l).
Proof. split; reflexivity. Defined.
#[export] Instance orders_rev : Orders (@rev _) (@rev _).
Proof. split; intros l; symmetry; apply Permutation_rev. Defined.

(** The same, with A and B each naming V once. *)
Definition fair_table : proof_table :=
  list_to_map [((5, "A"), row "A" "p" ["A"; "B"; "V"]); ((5, "B"), row "B" "p" ["A"; "V"]); ((5, "D"), row "D" "q" ["W"])].
Definition fair_result : proof_table * res string (option StorageProofVerification) :=
  finalizeStorageProofVerification signs (fun l => l) (fun l => l) ok env block (Some spv) 9 fair_table.

Lemma fair_table_open : one_phase (spv_Height spv) fair_table /\
  forall a r, fair_table !! (spv_Height spv, a) = Some r -> NoDup (sp_ProverAddresses r).
Proof.
  assert (map_Forall (fun _ r => sp_Status r = ProofStatusUnresolved /\ NoDup (sp_ProverAddresses r)) fair_table) as Hall.
  { apply (bool_decide_unpack _). vm_compute. exact I. }
  split; [left|]; intros a r Hr; by destruct (Hall _ _ Hr).
Qed.

Lemma table_open : one_phase (spv_Height spv) table.
Proof.
  left. intros a r Hr.
  assert (map_Forall (fun _ r => sp_Status r = ProofStatusUnresolved) table) as Hall.
  { apply (bool_decide_unpack _). vm_compute. exact I. }
  exact (Hall _ _ Hr).
Qed.

(** A short history: A proves at height 6, the challenge is resolved at 9. *)
Definition proof_of_A : StorageProofTx := mkStorageProofTx 5 "cid" "A" "Ap" ["A"].
Definition table1 : proof_table :=
  (finalizeStorageProof (C := crypto) (fun _ => Some "bytes") ok env (hex_encode "A") (Some proof_of_A) 6 ∅).1.
Definition verify_at (H : Z) (v : StorageProofVerification) (t : proof_table) : proof_table :=
  (finalizeStorageProofVerification signs (fun l => l) (fun l => l) ok env block (Some v) H t).1.
Definition table2 : proof_table := verify_at 9 spv table1.
Definition table3 : proof_table := verify_at 10 (mkStorageProofVerification 5 "q") table2.
Notation step := (pos_step (C := crypto) (fun _ => Some "bytes") signs (fun l => l) (fun l => l) ok).

Lemma env_below H : 5 <= H -> committed_below env H.
Proof.
  intros HH h [x Hx]. unfold env in Hx. simpl in Hx.
  apply lookup_insert_Some in Hx as [[<- _]|[_ Hx]]; [lia|by rewrite lookup_empty in Hx].
Qed.

Lemma history1 : rtc step (6, ∅) (9, table2).
Proof.
  eapply rtc_l; [apply (step_storage_proof _ _ _ _ _ 6 ∅ env (hex_encode "A") (Some proof_of_A)), env_below; lia|].
  eapply rtc_l; [apply (step_next_block _ _ _ _ _ 6 9); unfold int64_max; lia|].
  apply rtc_once. apply (step_verification _ _ _ _ _ 9 table1 env block (Some spv)), env_below. lia.
Qed.

Lemma history2 : rtc step (9, table2) (10, table3).
Proof.
  eapply rtc_l; [apply (step_next_block _ _ _ _ _ 9 10); unfold int64_max; lia|].
  apply rtc_once. apply (step_verification _ _ _ _ _ 10 table2 env block (Some _)), env_below. lia.
Qed.

(** The status of every node after the verification: V failed without ever
    having been asked. *)
Example example_statuses :
  (fun a => sp_Status <$> result.1 !! (5, a)) <$> ["A"; "B"; "D"; "V"; "W"]
  = [Some ProofStatusPass; Some ProofStatusPass; Some ProofStatusFail; Some ProofStatusFail; None].
Proof. vm_compute. reflexivity. Qed.
End PosExample.

Lemma verification_meets_spec_witness :
  verification_spec PosExample.signs PosExample.ok PosExample.block PosExample.spv
    PosExample.fair_table PosExample.fair_result.1 PosExample.fair_result.2 /\
  (fun a => sp_Status <$> PosExample.fair_result.1 !! (5, a)) <$> ["A"; "D"; "V"; "W"]
  = [Some ProofStatusPass; Some ProofStatusFail; Some ProofStatusFail; None].
Proof.
  split; [|vm_compute; reflexivity].
  apply (verification_meets_spec PosExample.signs (fun l => l) (fun l => l) PosExample.ok PosExample.env
    PosExample.block PosExample.spv 9).
  - apply PosExample.orders.
  - reflexivity.
  - apply PosExample.fair_table_open.
  - apply PosExample.fair_table_open.
  - vm_compute. reflexivity.
  - apply surjective_pairing.
Defined.

Lemma verification_order_independent_witness :
  PosExample.result.1 =
  (finalizeStorageProofVerification PosExample.signs (@rev _) (@rev _) PosExample.ok PosExample.env
     PosExample.block (Some PosExample.spv) 9 PosExample.table).1.
Proof.
  apply (verification_order_independent PosExample.signs (fun l => l) (fun l => l) (@rev _) (@rev _)
    PosExample.ok PosExample.env PosExample.block PosExample.spv 9 PosExample.table
    PosExample.orders PosExample.orders_rev (fun _ => eq_refl) PosExample.table_open).
Defined.

Lemma challenge_resolves_once_witness : PosExample.table3 !! (5, "A") = PosExample.table2 !! (5, "A").
Proof.
  apply (challenge_resolves_once (C := Toy.crypto) (fun _ => Some "bytes") PosExample.signs (fun l => l) (fun l => l)
    PosExample.ok 6 9 PosExample.table2 10 PosExample.table3 5 "A"
    (mkStorageProof (Some "cid") (Some (base64_encode "Ap")) (Some (hex_encode "p")) ["A"] ProofStatusPass)).
  - apply PosExample.orders.
  - reflexivity.
  - unfold int64_max. lia.
  - apply PosExample.history1.
  - apply PosExample.history2.
  - vm_compute. reflexivity.
  - simpl. discriminate.
Defined.

Lemma one_prover_fails_any_address_witness : PosExample.result.1 !! (5, "V") = Some failed_proof.
Proof.
  apply (one_prover_fails_any_address PosExample.signs (fun l => l) (fun l => l) PosExample.ok PosExample.env
    PosExample.block PosExample.spv 9 PosExample.table PosExample.result.1 PosExample.result.2
    "A" (PosExample.row "A" "p" ["A"; "B"; "V"; "V"]) "V").
  - apply PosExample.orders.
  - reflexivity.
  - apply PosExample.table_open.
  - vm_compute. reflexivity.
  - apply surjective_pairing.
  - intros He. apply (f_equal (fun t => sp_Status <$> t !! (5, "A"))) in He. vm_compute in He. discriminate.
  - vm_compute. reflexivity.
  - vm_compute. reflexivity.
  - vm_compute. reflexivity.
  - vm_compute. reflexivity.
Defined.
