(* ===== verification/Proposal.v ===== *)
(** * Proposals

    Models the proposal side of pkg/core/server/abci.go: PrepareProposal builds a
    block from the mempool, ProcessProposal votes on it, both through
    validateBlockTx, which threads the authorization overlay through the
    transactions in order; capProposalTxs fits the block into its byte budget.
    [TxChecks] is the interface to the components that validate one kind of
    transaction each. *)

From stdpp Require Import base gmap strings list fin_maps.
From Stdlib Require Import ZArith Lia.
From S2P Require Import Prelude Upgrades AuthState AuthStores Crypto Validators AuthEnforcement AuthSim AuthSpec AuthRefine AuthAtomic AuthTheorems AuthAgreement Mempool.

Open Scope string_scope.
Open Scope Z_scope.

(** ** The byte budget *)

(** bits.Len64 and protowire.SizeVarint. *)
Definition Len64 (v : Z) : Z := if v =? 0 then 0 else Z.log2 v + 1.
Definition SizeVarint (v : Z) : Z := (9 * Len64 v + 64) / 64.
Definition SizeBytes (n : Z) : Z := SizeVarint n + n.

Definition proposalTxWireCost (txLen : Z) : Z := 1 + SizeBytes txLen.

Definition wire_cost (tx : string) : Z := proposalTxWireCost (Z.of_nat (String.length tx)).

Fixpoint cap_txs (txs : list string) (maxTxBytes remaining : Z) : list string :=
  match txs with
  | [] => []
  | tx :: txs' =>
      let cost := wire_cost tx in
      if maxTxBytes <? cost then cap_txs txs' maxTxBytes remaining
      else if remaining <? cost then []
      else tx :: cap_txs txs' maxTxBytes (remaining - cost)
  end.

Definition capProposalTxs (txs : list string) (maxTxBytes : Z) : list string :=
  if maxTxBytes <=? 0 then txs else cap_txs txs maxTxBytes maxTxBytes.

(** ** Version 2 transactions *)

(** [unmarshal] is proto.Unmarshal, [header] the ChainId and Expiration of the
    envelope header when there is one; [currentHeight] is the cached height. *)
Definition isValidV2Transaction {TransactionV2} (unmarshal : string -> option TransactionV2)
    (header : TransactionV2 -> option (string * Z)) (chainID : string) (currentHeight : Z) (tx : string) :
    res string TransactionV2 :=
  match unmarshal tx with
  | None => Err "unmarshal failed"
  | Some msg =>
      match header msg with
      | None => Err "transaction envelope header is nil"
      | Some (chain, expiration) =>
          let? _ := guard_err (negb (String.eqb chain chainID)) "invalid chain id" in
          let? _ := guard_err (expiration <? currentHeight) "transaction expired" in
          Ok msg
      end
  end.

(** ** The checks of one transaction *)

(** What the components promise: the variant of a transaction, its encoding, and
    the validity of each kind.  [O] is the authorization overlay. *)
Class TxChecks (SignedTransaction TransactionV2 O Time Misbehavior : Type) := {
  tx_kind_of : SignedTransaction -> option tx_kind;
  unmarshal_signed : string -> option SignedTransaction;
  unmarshal_v2 : string -> option TransactionV2;
  marshal_signed : option SignedTransaction -> option string;
  marshal_v2 : TransactionV2 -> option string;
  (** ChainId and Expiration of the envelope header, when there is one. *)
  v2_header : TransactionV2 -> option (string * Z);
  check_ManageEntity : Rules -> SignedTransaction -> proc O tx_error unit;
  check_Attestation : SignedTransaction -> Z -> res string unit;
  check_MisbehavingNode : SignedTransaction -> list Misbehavior -> res string unit;
  check_Rollup : Time -> Z -> SignedTransaction -> res tx_error bool;
  check_StorageProof : SignedTransaction -> Z -> bool -> res string unit;
  check_StorageProofVerification : SignedTransaction -> Z -> res string unit;
  check_Release : SignedTransaction -> res string unit;
  check_Reward : SignedTransaction -> Z -> res string unit;
  check_ContentAttestation : SignedTransaction -> res tx_error unit;
  check_FileUpload : SignedTransaction -> res string unit;
  check_RewardPool : SignedTransaction -> Z -> res string unit;
  check_MediorumOperation : SignedTransaction -> res string unit;
  check_V2 : Z -> TransactionV2 -> res string unit;
  check_Play : SignedTransaction -> res string unit
}.

(** What a proposer adds to its block: whether a rollup is due at a height, the
    rollup transaction, and the deregistration of a misbehaving validator. *)
Class ProposerTxs (Time Misbehavior : Type) := {
  should_propose_rollup : Z -> bool;
  create_rollup_tx : Time -> Z -> res string string;
  create_deregister_tx : Misbehavior -> res string string
}.

Section Proposal.
Context {SignedTransaction TransactionV2 O Time Misbehavior : Type}.
Context `{checks : !TxChecks SignedTransaction TransactionV2 O Time Misbehavior}.

(** [if err != nil { return false, nil }; return true, nil]. *)
Definition accept_ok (r : res string unit) : res tx_error bool :=
  match r with
  | Ok _ => Ok true
  | Err _ => Ok false
  end.

(** The same, but an error that is not a rejection is returned. *)
Definition accept_unless_rejected (r : res tx_error unit) : res tx_error bool :=
  match r with
  | Ok _ => Ok true
  | Err e => if authRejected e then Ok false else Err e
  end.

Section Node.
(** The chain of the genesis file, the schedule, and the cached height. *)
Context (chainID : string) (upgrades : option UpgradeSchedule) (currentHeight : Z).

Definition validateBlockTx (rules : Rules) (blockTime : Time) (blockHeight : Z) (misbehavior : list Misbehavior)
    (tx : string) : proc O tx_error bool :=
  fun authOverlay =>
    match unmarshal_signed tx with
    | None =>
        match isValidV2Transaction unmarshal_v2 v2_header chainID currentHeight tx with
        | Err _ => (authOverlay, Ok false)
        | Ok v2Tx => (authOverlay, accept_ok (check_V2 blockHeight v2Tx))
        end
    | Some signedTx =>
        match tx_kind_of signedTx with
        | Some KManageEntity =>
            if AuthEnforced rules
            then let (o', r) := check_ManageEntity rules signedTx authOverlay in (o', accept_unless_rejected r)
            else (authOverlay, Ok true)
        | Some KManageEntityMigration => (authOverlay, Ok (negb (AuthEnforced rules)))
        | Some KAttestation => (authOverlay, accept_ok (check_Attestation signedTx blockHeight))
        | Some KValidatorRegistration => (authOverlay, Ok false)
        | Some KValidatorDeregistration => (authOverlay, accept_ok (check_MisbehavingNode signedTx misbehavior))
        | Some KSlaRollup => (authOverlay, check_Rollup blockTime blockHeight signedTx)
        | Some KStorageProof => (authOverlay, accept_ok (check_StorageProof signedTx blockHeight false))
        | Some KStorageProofVerification =>
            (authOverlay, accept_ok (check_StorageProofVerification signedTx blockHeight))
        | Some KRelease => (authOverlay, accept_ok (check_Release signedTx))
        | Some KReward => (authOverlay, accept_ok (check_Reward signedTx blockHeight))
        | Some KContentAttestation =>
            (authOverlay, if ContentAuthEnforced rules
                          then accept_unless_rejected (check_ContentAttestation signedTx) else Ok true)
        | Some KFileUpload => (authOverlay, accept_ok (check_FileUpload signedTx))
        | Some KRewardPool => (authOverlay, accept_ok (check_RewardPool signedTx blockHeight))
        | Some KMediorumOperation => (authOverlay, accept_ok (check_MediorumOperation signedTx))
        | Some KPlays | None => (authOverlay, Ok true)
        end
    end.

Fixpoint validate_txs (rules : Rules) (blockTime : Time) (blockHeight : Z) (misbehavior : list Misbehavior)
    (txs : list string) : proc O tx_error bool :=
  match txs with
  | [] => pret true
  | tx :: txs' =>
      let! valid := validateBlockTx rules blockTime blockHeight misbehavior tx in
      if valid then validate_txs rules blockTime blockHeight misbehavior txs' else pret false
  end.

(** The overlay is fresh and dropped afterwards. *)
Definition validateBlockTxs (overlay0 : O) (blockTime : Time) (blockHeight : Z) (misbehavior : list Misbehavior)
    (txs : list string) : res tx_error bool :=
  snd (validate_txs (RulesetAt upgrades blockHeight) blockTime blockHeight misbehavior txs overlay0).

Inductive ProcessProposalStatus := PROPOSAL_UNKNOWN | PROPOSAL_ACCEPT | PROPOSAL_REJECT.

Definition ProcessProposal (overlay0 : O) (blockTime : Time) (blockHeight : Z) (misbehavior : list Misbehavior)
    (txs : list string) : ProcessProposalStatus :=
  match validateBlockTxs overlay0 blockTime blockHeight misbehavior txs with
  | Err _ => PROPOSAL_UNKNOWN
  | Ok false => PROPOSAL_REJECT
  | Ok true => PROPOSAL_ACCEPT
  end.

(** ** Building a proposal *)

Definition validateProposerPolicy (tx : option SignedTransaction) : res string unit :=
  match tx with
  | Some t => match tx_kind_of t with Some KPlays => check_Play t | _ => Ok tt end
  | None => Ok tt
  end.

Definition marshal_mempool_tx (tx : @MempoolTransaction SignedTransaction TransactionV2) : option string :=
  match Txv2 tx with
  | Some t => marshal_v2 t
  | None => marshal_signed (Tx tx)
  end.

(** The loop over the batch: a transaction that cannot be encoded, that the
    proposer declines, or that is not valid after the ones selected so far is
    skipped. *)
Fixpoint select_txs (rules : Rules) (blockTime : Time) (blockHeight : Z) (misbehavior : list Misbehavior)
    (batch : list (@MempoolTransaction SignedTransaction TransactionV2)) (authOverlay : O) : list string :=
  match batch with
  | [] => []
  | tx :: batch' =>
      let next := select_txs rules blockTime blockHeight misbehavior batch' in
      match marshal_mempool_tx tx with
      | None => next authOverlay
      | Some txBytes =>
          match validateProposerPolicy (Tx tx) with
          | Err _ => next authOverlay
          | Ok _ =>
              match validateBlockTx rules blockTime blockHeight misbehavior txBytes authOverlay with
              | (o', Ok true) => txBytes :: next o'
              | (o', _) => next o'
              end
          end
      end
  end.

Context `{own : !ProposerTxs Time Misbehavior}.

(** A transaction that cannot be created is logged and left out. *)
Definition created (tx : res string string) : list string :=
  match tx with Ok b => [b] | Err _ => [] end.

(** The transactions the proposer adds itself: the rollup when one is due, and the
    deregistration of every validator there is evidence against. *)
Definition own_txs (blockTime : Time) (blockHeight : Z) (misbehavior : list Misbehavior) : list string :=
  (if should_propose_rollup blockHeight then created (create_rollup_tx blockTime blockHeight) else []) ++
  flat_map (fun mb => created (create_deregister_tx mb)) misbehavior.

Definition proposal_txs (overlay0 : O) (mempl : @Mempool SignedTransaction TransactionV2)
    (blockTime : Time) (blockHeight : Z) (misbehavior : list Misbehavior) : list string :=
  let batch := if should_propose_rollup blockHeight then 1000 - 1 else 1000 in
  own_txs blockTime blockHeight misbehavior ++
  select_txs (RulesetAt upgrades blockHeight) blockTime blockHeight misbehavior
    (GetBatch mempl batch blockHeight) overlay0.

Definition PrepareProposal (overlay0 : O) (mempl : @Mempool SignedTransaction TransactionV2)
    (blockTime : Time) (blockHeight : Z) (misbehavior : list Misbehavior) (maxTxBytes : Z) : list string :=
  capProposalTxs (proposal_txs overlay0 mempl blockTime blockHeight misbehavior) maxTxBytes.
End Node.
End Proposal.

(** ** Proposals: theorems

    The byte budget is used in full and in order; what a proposer builds, the
    other validators accept; and a transaction dropped for its size can take a
    proposal with it. *)

(** ** The byte budget *)

Definition total_cost (txs : list string) : Z := foldr (fun tx s => wire_cost tx + s) 0 txs.

(** The transactions that fit into a proposal of their own. *)
Definition fitting (maxTxBytes : Z) (txs : list string) : list string :=
  filter (fun tx => wire_cost tx <= maxTxBytes) txs.

Lemma SizeVarint_pos v : 0 <= v -> 1 <= SizeVarint v.
Proof.
  intros Hv. unfold SizeVarint. assert (0 <= Len64 v).
  { unfold Len64. pose proof (Z.log2_nonneg v). destruct (v =? 0); lia. }
  assert (1 = 64 / 64) as -> by done. apply Z.div_le_mono; lia.
Qed.

Lemma wire_cost_pos tx : 0 < wire_cost tx.
Proof.
  unfold wire_cost, proposalTxWireCost, SizeBytes.
  pose proof (SizeVarint_pos (Z.of_nat (String.length tx))). lia.
Qed.

Lemma cap_txs_spec txs maxTxBytes remaining :
  0 <= remaining ->
  exists k, cap_txs txs maxTxBytes remaining = take k (fitting maxTxBytes txs) /\
    total_cost (cap_txs txs maxTxBytes remaining) <= remaining /\
    ((k < length (fitting maxTxBytes txs))%nat -> remaining < total_cost (take (S k) (fitting maxTxBytes txs))).
Proof.
  revert remaining. induction txs as [|tx txs IH]; intros remaining Hr.
  { exists O. simpl. split_and!; [done|lia|lia]. }
  unfold fitting. rewrite filter_cons. fold (fitting maxTxBytes txs). cbn [cap_txs].
  destruct (Z.ltb_spec maxTxBytes (wire_cost tx)).
  { rewrite decide_False by lia. by apply IH. }
  rewrite decide_True by lia. destruct (Z.ltb_spec remaining (wire_cost tx)).
  { exists O. simpl. split_and!; [done|lia|]. intros _. lia. }
  destruct (IH (remaining - wire_cost tx)) as (k & Hk & Hle & Hmax); [lia|].
  exists (S k). cbn [take total_cost foldr length]. rewrite <-Hk. fold (total_cost (cap_txs txs maxTxBytes (remaining - wire_cost tx))).
  split_and!; [done|lia|]. intros Hlt. fold (total_cost (take (S k) (fitting maxTxBytes txs))).
  specialize (Hmax ltac:(lia)). lia.
Qed.

(** With a positive budget, the capped proposal is the longest prefix, in
    order, of the transactions that could fit on their own: its cost with framing
    is within the budget, and one more transaction would exceed it. *)
Theorem cap_is_longest_fitting_prefix txs maxTxBytes :
  0 < maxTxBytes ->
  let capped := capProposalTxs txs maxTxBytes in
  let fits := fitting maxTxBytes txs in
  exists k, capped = take k fits /\ total_cost capped <= maxTxBytes /\
    ((k < length fits)%nat -> maxTxBytes < total_cost (take (S k) fits)).
Proof.
  intros Hm. unfold capProposalTxs. destruct (Z.leb_spec maxTxBytes 0); [lia|]. apply cap_txs_spec. lia.
Qed.

Lemma fitting_all maxTxBytes txs : (forall tx, tx ∈ txs -> wire_cost tx <= maxTxBytes) -> fitting maxTxBytes txs = txs.
Proof.
  unfold fitting. induction txs as [|tx txs IH]; intros H; [done|].
  rewrite filter_cons, decide_True by (apply H; set_solver). f_equal. apply IH. set_solver.
Qed.

Lemma cap_prefix txs maxTxBytes :
  (maxTxBytes <= 0 \/ forall tx, tx ∈ txs -> wire_cost tx <= maxTxBytes) ->
  exists k, capProposalTxs txs maxTxBytes = take k txs.
Proof.
  intros H. unfold capProposalTxs. destruct (Z.leb_spec maxTxBytes 0) as [|Hpos].
  { exists (length txs). by rewrite firstn_all. }
  destruct H as [?|H]; [lia|]. destruct (cap_txs_spec txs maxTxBytes maxTxBytes) as (k & -> & _ & _); [lia|].
  exists k. by rewrite fitting_all.
Qed.

(** ** Proposers and validators agree *)

(** On good overlays, a ManageEntity transaction that is not accepted leaves the
    overlay alone. *)
Class TxChecksLaws {STx V2 O Time Misbehavior : Type} (checks : TxChecks STx V2 O Time Misbehavior) (good : O -> Prop) : Prop := {
  law_good rules tx o o' r : good o -> check_ManageEntity rules tx o = (o', r) -> good o';
  law_keep rules tx o o' e : good o -> check_ManageEntity rules tx o = (o', Err e) -> o' = o
}.

Section Agreement.
Context {STx V2 O Time Misbehavior : Type} `{checks : !TxChecks STx V2 O Time Misbehavior}.
Context (good : O -> Prop) `{laws : !TxChecksLaws checks good}.
Context (chainID : string) (upgrades : option UpgradeSchedule) (currentHeight : Z).
Context (blockTime : Time) (blockHeight : Z) (misbehavior : list Misbehavior).

Notation validate_tx := (fun rules => validateBlockTx chainID currentHeight rules blockTime blockHeight misbehavior).
Notation validate := (fun rules => validate_txs chainID currentHeight rules blockTime blockHeight misbehavior).
Notation select := (fun rules => select_txs chainID currentHeight rules blockTime blockHeight misbehavior).

Lemma validateBlockTx_good rules tx o o' r :
  good o -> validate_tx rules tx o = (o', r) -> good o' /\ (r <> Ok true -> o' = o).
Proof using laws.
  intros Ho. unfold validateBlockTx. intros E. repeat (case_hyp E; simplify_eq); try done.
  match goal with H : check_ManageEntity _ _ _ = (_, ?r) |- _ =>
    split; [by eapply law_good|]; destruct r as [[]|e]; [done|]; intros _; by eapply law_keep end.
Qed.

Lemma validate_app rules l1 l2 o o1 :
  validate rules l1 o = (o1, Ok true) -> validate rules (app l1 l2) o = validate rules l2 o1.
Proof using.
  revert o. induction l1 as [|tx l1 IH]; intros o; simpl; unfold pbind, pret; [by intros [= ->]|].
  destruct (validateBlockTx _ _ _ _ _ _ _ _) as [o2 [[]|e]]; [apply IH|done|done].
Qed.

Lemma validate_take rules l k o o1 :
  validate rules l o = (o1, Ok true) -> snd (validate rules (take k l) o) = Ok true.
Proof using.
  revert k o. induction l as [|tx l IH]; intros k o; simpl; [by destruct k|].
  destruct k as [|k]; [done|]. simpl. unfold pbind.
  destruct (validateBlockTx _ _ _ _ _ _ _ _) as [o2 [[]|e]]; [apply IH|done|done].
Qed.

Lemma select_validates rules batch o :
  good o -> exists o', validate rules (select rules batch o) o = (o', Ok true).
Proof using laws.
  revert o. induction batch as [|tx batch IH]; intros o Ho; simpl; [by exists o|].
  destruct (marshal_mempool_tx tx) as [b|]; [|by apply IH].
  destruct (validateProposerPolicy (Tx tx)); [|by apply IH].
  destruct (validateBlockTx chainID currentHeight rules blockTime blockHeight misbehavior b o) as [o2 r] eqn:E.
  destruct (validateBlockTx_good rules b o o2 r Ho E) as [Ho2 Hkeep].
  destruct r as [[]|e]; [|rewrite Hkeep by done; by apply IH..].
  simpl. unfold pbind. rewrite E. by apply IH.
Qed.

(** ProcessProposal accepts what PrepareProposal returns from the same state when
    the proposer's own transactions are valid and every transaction fits the budget. *)
Lemma valid_own_txs_are_enough `{own : !ProposerTxs Time Misbehavior} overlay0 mempl maxTxBytes :
  good overlay0 ->
  (forall tx o, tx ∈ own_txs blockTime blockHeight misbehavior ->
     validate_tx (RulesetAt upgrades blockHeight) tx o = (o, Ok true)) ->
  (maxTxBytes <= 0 \/
   forall tx, tx ∈ proposal_txs chainID upgrades currentHeight overlay0 mempl
                     blockTime blockHeight misbehavior -> wire_cost tx <= maxTxBytes) ->
  ProcessProposal chainID upgrades currentHeight overlay0 blockTime blockHeight misbehavior
    (PrepareProposal chainID upgrades currentHeight overlay0 mempl
       blockTime blockHeight misbehavior maxTxBytes) = PROPOSAL_ACCEPT.
Proof using laws.
  intros Ho Hown Hfit. unfold PrepareProposal. destruct (cap_prefix _ _ Hfit) as [k ->].
  unfold ProcessProposal, validateBlockTxs, proposal_txs.
  assert (validate (RulesetAt upgrades blockHeight) (own_txs blockTime blockHeight misbehavior) overlay0
          = (overlay0, Ok true)) as Hv.
  { revert Hown. generalize (own_txs blockTime blockHeight misbehavior). clear Hfit.
    induction l as [|tx l IH]; intros Hown; [done|]. simpl. unfold pbind.
    rewrite (Hown tx) by set_solver. apply IH. set_solver. }
  destruct (select_validates (RulesetAt upgrades blockHeight)
    (GetBatch mempl (if should_propose_rollup blockHeight then 1000 - 1 else 1000) blockHeight) overlay0 Ho) as [o' Hs].
  rewrite <-(validate_app _ _ _ _ _ Hv) in Hs. by rewrite (validate_take _ _ _ _ _ Hs).
Qed.
End Agreement.
