(* ===== verification/BlockDb.v ===== *)
(** * The block's database transaction

    The tables FinalizeBlock writes itself and their constraints
    (pkg/core/db/sql), the connection that holds the block's Postgres transaction,
    and withBlockSavepoint of pkg/core/server/abci.go.  Postgres is a parameter:
    [PgConn] has the operations the code uses, [PgConnLaws] what Postgres and pgx
    document of failed statements, savepoints and commits. *)

From stdpp Require Import base gmap strings list.
From Stdlib Require Import ZArith Lia Ascii.
From S2P Require Import Prelude Upgrades Crypto Validators Encoding Rendezvous Registration.

Open Scope string_scope.
Open Scope Z_scope.

(** ** Tables *)

Record core_block := mkCoreBlock {
  cb_Height : Z;
  cb_ChainID : string;
  cb_Hash : string;
  cb_Proposer : string;
  cb_CreatedAt : Z
}.

Record core_transaction := mkCoreTransaction {
  ct_BlockID : Z;
  ct_Index : Z;
  ct_TxHash : string;
  ct_Transaction : string;
  ct_CreatedAt : Z
}.

Record core_tx_stat := mkTxStat {
  ts_TxType : string;
  ts_TxHash : string;
  ts_BlockHeight : Z;
  ts_CreatedAt : Z
}.

Record sla_node_report := mkSlaReport {
  sr_Address : string;
  sr_BlocksProposed : Z;
  sr_SlaRollupID : option Z
}.

(** [R] is the tables only the transaction handlers use. *)
Record block_db (R : Type) := mkBlockDb {
  core_blocks : list core_block;
  core_transactions : list core_transaction;
  core_app_state : list (Z * string);
  core_tx_stats : list core_tx_stat;
  sla_node_reports : list sla_node_report;
  validator_history : list validator_history_row;
  core_validators : list CoreValidator;
  other_tables : R
}.
Arguments mkBlockDb {R}.
Arguments core_blocks {R}.
Arguments core_transactions {R}.
Arguments core_app_state {R}.
Arguments core_tx_stats {R}.
Arguments sla_node_reports {R}.
Arguments validator_history {R}.
Arguments core_validators {R}.
Arguments other_tables {R}.

(** ** Statements: [None] when a constraint is violated *)

Definition open_report (address : string) (x : sla_node_report) : bool :=
  String.eqb (sr_Address x) address && match sr_SlaRollupID x with None => true | Some _ => false end.

Definition bump_report (address : string) (x : sla_node_report) : sla_node_report :=
  if open_report address x then mkSlaReport (sr_Address x) (sr_BlocksProposed x + 1) (sr_SlaRollupID x) else x.

Definition upsert_report (address : string) (reports : list sla_node_report) : option (list sla_node_report) :=
  if existsb (fun x => open_report address x && (2 ^ 31 - 1 <=? sr_BlocksProposed x)) reports then None
  else if existsb (open_report address) reports then Some (map (bump_report address) reports)
  else Some (app reports [mkSlaReport address 1 None]).

Section Statements.
Context {R : Type}.
Implicit Types d : block_db R.

(** unique (height, chain_id) *)
Definition StoreBlock (b : core_block) d : option (block_db R) :=
  if existsb (fun x => (cb_Height x =? cb_Height b) && String.eqb (cb_ChainID x) (cb_ChainID b)) (core_blocks d)
  then None
  else Some (mkBlockDb (app (core_blocks d) [b]) (core_transactions d) (core_app_state d) (core_tx_stats d)
               (sla_node_reports d) (validator_history d) (core_validators d) (other_tables d)).

(** unique (block_id, index) *)
Definition StoreTransaction (t : core_transaction) d : option (block_db R) :=
  if existsb (fun x => (ct_BlockID x =? ct_BlockID t) && (ct_Index x =? ct_Index t)) (core_transactions d)
  then None
  else Some (mkBlockDb (core_blocks d) (app (core_transactions d) [t]) (core_app_state d) (core_tx_stats d)
               (sla_node_reports d) (validator_history d) (core_validators d) (other_tables d)).

(** primary key (block_height, app_hash) *)
Definition UpsertAppState (blockHeight : Z) (appHash : string) d : option (block_db R) :=
  if existsb (fun x => (x.1 =? blockHeight) && String.eqb x.2 appHash) (core_app_state d)
  then None
  else Some (mkBlockDb (core_blocks d) (core_transactions d) (app (core_app_state d) [(blockHeight, appHash)])
               (core_tx_stats d) (sla_node_reports d) (validator_history d) (core_validators d) (other_tables d)).

(** on conflict (tx_hash) do nothing *)
Definition InsertTxStat (s : core_tx_stat) d : option (block_db R) :=
  if existsb (fun x => String.eqb (ts_TxHash x) (ts_TxHash s)) (core_tx_stats d)
  then Some d
  else Some (mkBlockDb (core_blocks d) (core_transactions d) (core_app_state d) (app (core_tx_stats d) [s])
               (sla_node_reports d) (validator_history d) (core_validators d) (other_tables d)).

(** blocks_proposed is an int: an update beyond its range fails. *)
Definition UpsertSlaRollupReport (address : string) d : option (block_db R) :=
  reports ← upsert_report address (sla_node_reports d);
  Some (mkBlockDb (core_blocks d) (core_transactions d) (core_app_state d) (core_tx_stats d) reports
          (validator_history d) (core_validators d) (other_tables d)).

Definition set_history (f : list validator_history_row -> list validator_history_row) d : option (block_db R) :=
  Some (mkBlockDb (core_blocks d) (core_transactions d) (core_app_state d) (core_tx_stats d) (sla_node_reports d)
          (f (validator_history d)) (core_validators d) (other_tables d)).
End Statements.

(** ** The connection *)

(** Commit stored the contents, found the transaction closed (pgx.ErrTxClosed), or
    failed. *)
Inductive commit_result (D : Type) := Committed (d : D) | TxClosed | CommitError.
Arguments Committed {D}.
Arguments TxClosed {D}.
Arguments CommitError {D}.

(** A connection inside a transaction: what its statements see, whether it accepts
    them, and the operations on it. *)
Class PgConn (T D : Type) := {
  contents : T -> D;
  usable : T -> bool;
  (** pool.Begin on the committed database. *)
  pg_open : D -> option T;
  (** A statement; whether it succeeded. *)
  pg_exec : (D -> option D) -> T -> T * bool;
  (** savepoint, rollback to the savepoint of the first argument, release. *)
  pg_begin : T -> option T;
  pg_rollback : T -> T -> option T;
  pg_release : T -> option T;
  pg_commit : T -> commit_result D
}.

(** A failed statement aborts the transaction, which then refuses every statement,
    savepoint and release, and does not commit; rolling back to a savepoint makes
    it usable again with the contents it had there. *)
Class PgConnLaws {T D : Type} (pg : PgConn T D) : Prop := {
  open_usable d c : pg_open d = Some c -> usable c = true /\ contents c = d;
  exec_done s c c' : pg_exec s c = (c', true) ->
    usable c = true /\ usable c' = true /\ s (contents c) = Some (contents c');
  exec_failed s c c' : pg_exec s c = (c', false) -> usable c' = false;
  begin_usable c : usable c = true ->
    exists c', pg_begin c = Some c' /\ usable c' = true /\ contents c' = contents c;
  begin_aborted c : usable c = false -> pg_begin c = None;
  rollback_restores c0 c : usable c0 = true ->
    exists c', pg_rollback c0 c = Some c' /\ usable c' = true /\ contents c' = contents c0;
  release_usable c : usable c = true ->
    exists c', pg_release c = Some c' /\ usable c' = true /\ contents c' = contents c;
  release_aborted c : usable c = false -> pg_release c = None;
  commit_stores c d : pg_commit c = Committed d -> usable c = true /\ d = contents c
}.

Section Connection.
Context {T D : Type} {pg : PgConn T D}.

(** A statement whose error is only logged. *)
Definition exec_logged (s : D -> option D) (c : T) : T := fst (pg_exec s c).

(** A query: it fails on an aborted connection, and aborts it when it fails. *)
Definition pg_query (c : T) : T * bool := pg_exec Some c.

(** FinalizeBlock only calls it with the block's transaction open, so the direct
    call for a server without one does not arise. *)
Definition withBlockSavepoint {A} (fn : proc T string A) : proc T string A :=
  fun parentTx =>
    match pg_begin parentTx with
    | None => (parentTx, Err "begin block savepoint")
    | Some savepoint =>
        match fn savepoint with
        | (c, Err e) =>
            match pg_rollback savepoint c with
            | Some c' => (c', Err e)
            | None => (c, Err (e +:+ "; rollback block savepoint"))
            end
        | (c, Ok a) =>
            match pg_release c with
            | Some c' => (c', Ok a)
            | None => (c, Err "commit block savepoint")
            end
        end
    end.

Context {laws : PgConnLaws pg}.

(** Nothing but a rollback makes an aborted connection usable. *)
Definition no_recovery (c c' : T) : Prop := usable c' = true -> usable c = true.

#[export] Instance no_recovery_preorder : PreOrder no_recovery.
Proof. unfold no_recovery. split; [by intros c|]. intros c1 c2 c3 H1 H2 H3. auto. Qed.

Lemma exec_logged_no_recovery s c : no_recovery c (exec_logged s c).
Proof.
  unfold exec_logged, no_recovery. destruct (pg_exec s c) as [c' []] eqn:E; simpl.
  - by apply exec_done in E as (? & _).
  - apply exec_failed in E. congruence.
Qed.

Lemma exec_logged_done s c :
  usable (exec_logged s c) = true -> usable c = true /\ s (contents c) = Some (contents (exec_logged s c)).
Proof.
  unfold exec_logged. destruct (pg_exec s c) as [c' []] eqn:E; simpl.
  - by apply exec_done in E as (? & _ & ?).
  - apply exec_failed in E. congruence.
Qed.

Lemma pg_query_spec c c' ok :
  pg_query c = (c', ok) -> no_recovery c c' /\ usable c' = ok /\ (ok = true -> contents c' = contents c).
Proof.
  unfold pg_query, no_recovery. destruct ok; intros H.
  - apply exec_done in H as (Hc & Hc' & [= E]). done.
  - apply exec_failed in H. split_and!; [congruence|done|done].
Qed.

Lemma savepoint_no_recovery {A} (fn : proc T string A) c :
  no_recovery c (withBlockSavepoint fn c).1.
Proof.
  unfold no_recovery. destruct (usable c) eqn:U; [done|].
  unfold withBlockSavepoint. rewrite begin_aborted by done. simpl. congruence.
Qed.
End Connection.
