(* ===== verification/Blocks.v ===== *)
(** * Applying blocks

    Models FinalizeBlock and Commit of pkg/core/server/abci.go: the loop over the
    transactions of a block and their result codes, the validator updates, the rows
    the block leaves, finalizeV2Transaction (transaction_v2.go), what Commit
    removes from the mempool and the height it allows to prune
    (data_companion.go).  [TxHandlers] is the interface to the components that
    finalize one kind of transaction each. *)

From stdpp Require Import base gmap strings list fin_maps.
From Stdlib Require Import ZArith Lia Ascii.
From S2P Require Import Prelude Upgrades Crypto Validators Encoding Rendezvous Registration Mempool AuthState AuthStores AuthEnforcement Proposal BlockDb.

Open Scope string_scope.
Open Scope Z_scope.

(** ** Transactions *)

(** The oneof of a SignedTransaction: FinalizeBlock looks into the validator
    transactions, the others are [X]. *)
Inductive tx_body (X : Type) :=
| BodyLegacyRegistration (vr : ValidatorRegistrationLegacy)
| BodyMisbehavior (vd : ValidatorMisbehaviorDeregistration)
| BodyAttestation (att : Attestation)
| BodyOther (kind : tx_kind) (x : X).
Arguments BodyLegacyRegistration {X}.
Arguments BodyMisbehavior {X}.
Arguments BodyAttestation {X}.
Arguments BodyOther {X}.

Record SignedTransaction (X : Type) := mkSignedTransaction {
  stx_Signature : string;
  stx_Body : option (tx_body X)
}.
Arguments mkSignedTransaction {X}.
Arguments stx_Signature {X}.
Arguments stx_Body {X}.

Inductive v2_message := MessageErn | MessageMead | MessagePie | MessageOther.

(** The header is [None] when the envelope or its header is nil. *)
Record TransactionV2 (Y : Type) := mkTransactionV2 {
  v2_Header : option (string * Z);
  v2_Messages : list v2_message;
  v2_Payload : Y
}.
Arguments mkTransactionV2 {Y}.
Arguments v2_Header {Y}.
Arguments v2_Messages {Y}.
Arguments v2_Payload {Y}.

Record FinalizeBlockRequest := mkRequest {
  fb_Height : Z;
  fb_Hash : string;
  fb_ProposerAddress : string;
  fb_Time : Z;
  fb_Misbehavior : list string;
  fb_Txs : list string
}.

Definition CodeTypeOK : Z := 0.

(** types.Tx.Hash and HexBytes.String; addresses are printed the same way. *)
Definition upper_hex (s : string) : string :=
  (fix up (s : string) := match s with
     | EmptyString => EmptyString
     | String c s' =>
         let n := N_of_ascii c in
         String (if ((97 <=? n) && (n <=? 122))%N then ascii_of_N (n - 32) else c) (up s')
     end) (hex_encode s).

Definition ToTxHashFromBytes {C : EthCrypto} (txBytes : string) : string := upper_hex (sha256 txBytes).

(** [int32(i)]. *)
Definition wrap32 (z : Z) : Z := (z + 2 ^ 31) mod 2 ^ 32 - 2 ^ 31.

(** ** Handlers *)

(** The connection a handler leaves, the message it returns and its error. *)
Definition handler (T Msg : Type) : Type := T -> T * (option Msg * option string).

(** One entry per case of finalizeTransaction, and of finalizeV2Transaction. *)
Class TxHandlers (T X Y Msg : Type) := {
  on_Plays : SignedTransaction X -> handler T Msg;
  on_ManageEntity : SignedTransaction X -> Z -> handler T Msg;
  on_ManageEntityMigration : SignedTransaction X -> handler T Msg;
  on_Attestation : SignedTransaction X -> Z -> handler T Msg;
  on_LegacyRegistration : SignedTransaction X -> Z -> handler T Msg;
  on_Misbehavior : SignedTransaction X -> list string -> handler T Msg;
  on_SlaRollup : SignedTransaction X -> string -> handler T Msg;
  on_StorageProof : SignedTransaction X -> Z -> handler T Msg;
  on_StorageProofVerification : SignedTransaction X -> Z -> handler T Msg;
  on_Release : SignedTransaction X -> string -> handler T Msg;
  on_Reward : FinalizeBlockRequest -> SignedTransaction X -> string -> string -> handler T Msg;
  on_RewardPool : FinalizeBlockRequest -> SignedTransaction X -> string -> Z -> handler T Msg;
  on_ContentAttestation : SignedTransaction X -> string -> Z -> handler T Msg;
  on_FileUpload : SignedTransaction X -> string -> Z -> handler T Msg;
  on_MediorumOperation : SignedTransaction X -> string -> handler T Msg;
  finalizeERN : FinalizeBlockRequest -> string -> TransactionV2 Y -> Z -> proc T string unit;
  finalizeMEAD : FinalizeBlockRequest -> string -> TransactionV2 Y -> Z -> proc T string unit;
  finalizePIE : FinalizeBlockRequest -> string -> TransactionV2 Y -> Z -> proc T string unit;
  (** GetProtoTypeName. *)
  proto_type_name : Msg -> string
}.

Section Blocks.
Context {T R X Y Msg : Type} {C : EthCrypto} {pg : PgConn T (block_db R)} {hs : TxHandlers T X Y Msg}.
(** proto.Unmarshal, the address of an ed25519 key, the queries on the pool that
    fail, and the chain of the genesis file. *)
Context (unmarshal_signed : string -> option (SignedTransaction X)) (unmarshal_v2 : string -> option (TransactionV2 Y)).
Context (comet_address : string -> string) (fault : reg_query -> bool) (chainID : string).

(** *** finalizeTransaction *)

Definition unhandled : handler T Msg := fun c => (c, (None, Some "unhandled proto event")).

Definition finalizeTransaction (req : FinalizeBlockRequest) (msg : SignedTransaction X) (txHash : string)
    (blockHeight : Z) : handler T Msg :=
  let sender := match TxHashRecover txHash (stx_Signature msg) with Some (_, a) => a | None => "" end in
  match stx_Body msg with
  | None => unhandled
  | Some (BodyLegacyRegistration _) => on_LegacyRegistration msg blockHeight
  | Some (BodyMisbehavior _) => on_Misbehavior msg (fb_Misbehavior req)
  | Some (BodyAttestation _) => on_Attestation msg (fb_Height req)
  | Some (BodyOther k _) =>
      match k with
      | KPlays => on_Plays msg
      | KManageEntity => on_ManageEntity msg blockHeight
      | KManageEntityMigration => on_ManageEntityMigration msg
      | KSlaRollup => on_SlaRollup msg txHash
      | KStorageProof => on_StorageProof msg blockHeight
      | KStorageProofVerification => on_StorageProofVerification msg blockHeight
      | KRelease => on_Release msg txHash
      | KReward => on_Reward req msg txHash sender
      | KRewardPool => on_RewardPool req msg txHash 0
      | KContentAttestation => on_ContentAttestation msg txHash (fb_Height req)
      | KFileUpload => on_FileUpload msg txHash (fb_Height req)
      | KMediorumOperation => on_MediorumOperation msg txHash
      (* these variants have constructors of their own *)
      | KValidatorRegistration | KValidatorDeregistration | KAttestation => unhandled
      end
  end.

Definition persistTxStat (tx : option Msg) (txhash : string) (height blockTime : Z) (c : T) : T :=
  match tx with
  | None => c
  | Some m => exec_logged (InsertTxStat (mkTxStat (proto_type_name m) txhash height blockTime)) c
  end.

(** *** finalizeV2Transaction *)

Definition finalize_message (req : FinalizeBlockRequest) (tx : TransactionV2 Y) (txhash : string)
    (im : Z * v2_message) : proc T string unit :=
  match im.2 with
  | MessageErn => finalizeERN req txhash tx im.1
  | MessageMead => finalizeMEAD req txhash tx im.1
  | MessagePie => finalizePIE req txhash tx im.1
  | MessageOther => pret tt
  end.

Definition finalizeV2Transaction (req : FinalizeBlockRequest) (tx : TransactionV2 Y) (txhash : string) :
    proc T string unit :=
  match v2_Header tx with
  | None => pfail "transaction envelope header is nil"
  | Some (chain, expiration) =>
      if negb (String.eqb chain chainID) then pfail "invalid chain id"
      else if expiration <? fb_Height req then pfail "transaction expired"
      else for_each (finalize_message req tx txhash)
             (imap (fun i m => (Z.of_nat i, m)) (v2_Messages tx))
  end.

(** *** Validator updates *)

(** The result of registeredNodeValidatorUpdate on the block's transaction: it
    queries unless a check before the query fails. *)
Definition registered_update (comet pubKey : string) (power : Z) (c : T) :
    T * option (string * ValidatorUpdate) :=
  if String.eqb comet "" || negb (String.length pubKey =? PubKeySize)%nat then (c, None)
  else
    let '(c', ok) := pg_query c in
    (c', registeredNodeValidatorUpdate comet_address (fun _ => negb ok) (core_validators (contents c)) comet pubKey power).

(** The address deregistrationNeedsValidatorUpdate looks at. *)
Definition deregistered_address (msg : SignedTransaction X) : string :=
  match stx_Body msg with
  | Some (BodyAttestation att) =>
      match att_Body att with
      | Some (BodyDeregistration vd) => vd_CometAddress vd
      | _ => ""
      end
  | Some (BodyMisbehavior vd) => md_CometAddress vd
  | _ => ""
  end.

Definition deregistration_needs_update (msg : SignedTransaction X) (c : T) : T * bool :=
  let a := deregistered_address msg in
  if String.eqb a "" then (c, false)
  else
    let '(c', ok) := pg_query c in
    (c', deregistrationNeedsValidatorUpdate (fun _ => negb ok) (core_validators (contents c)) a).

(** [if _, ok := m[k]; !ok { m[k] = v }]. *)
Definition insert_absent (k : string) (v : ValidatorUpdate) (m : gmap string ValidatorUpdate) :
    gmap string ValidatorUpdate :=
  match m !! k with
  | Some _ => m
  | None => <[k := v]> m
  end.

(** The history functions read the committed table through the pool and write
    through the block's transaction. *)
Definition pool_fault (q : reg_query) : bool :=
  match q with
  | QAppendHistory => false
  | _ => fault q
  end.

Definition append_history (p : proc (list validator_history_row) string unit) (c : T) : T :=
  match (p []).2 with
  | Err _ => c
  | Ok _ => exec_logged (set_history (fun h => (p h).1)) c
  end.

(** What FinalizeBlock does after a transaction was finalized without an error. *)
Definition record_update (committed : list CoreValidator) (req : FinalizeBlockRequest) (msg : SignedTransaction X)
    (emit : bool) (c : T) (updates : gmap string ValidatorUpdate) : T * gmap string ValidatorUpdate :=
  match stx_Body msg with
  | Some (BodyLegacyRegistration vr) =>
      let '(c', r) := registered_update (vl_CometAddress vr) (vl_PubKey vr) (vl_Power vr) c in
      (c', match r with
           | Some (vrAddr, update) => insert_absent vrAddr update updates
           | None => updates
           end)
  | Some (BodyAttestation att) =>
      match att_Body att with
      | Some (BodyRegistration vr) =>
          let '(c', r) := registered_update (vr_CometAddress vr) (vr_PubKey vr) (vr_Power vr) c in
          match r with
          | Some (vrAddr, update) =>
              (append_history (appendRegistrationToValidatorHistory pool_fault vr (fb_Time req) (fb_Height req)) c',
               insert_absent vrAddr update updates)
          | None => (c', updates)
          end
      | Some (BodyDeregistration vd) =>
          (append_history
             (appendDeregistrationToValidatorHistory pool_fault committed vd (fb_Time req) (fb_Height req)) c,
           if emit then <[comet_address (vd_PubKey vd) := mkValidatorUpdate 0 (vd_PubKey vd)]> updates else updates)
      | None => (c, updates)
      end
  | Some (BodyMisbehavior vd) =>
      (c, if emit then <[comet_address (md_PubKey vd) := mkValidatorUpdate 0 (md_PubKey vd)]> updates else updates)
  | _ => (c, updates)
  end.

(** *** The loop *)

(** The connection, validatorUpdatesMap, state.finalizedTxs and the result codes. *)
Record block_state := mkBlockState {
  bs_conn : T;
  bs_updates : gmap string ValidatorUpdate;
  bs_finalized : list string;
  bs_codes : list Z
}.

Definition store_tx (req : FinalizeBlockRequest) (i : nat) (txhash tx : string) (c : T) : T :=
  exec_logged (StoreTransaction (mkCoreTransaction (fb_Height req) (wrap32 (Z.of_nat i)) txhash tx (fb_Time req))) c.

Definition finalize_signed (committed : list CoreValidator) (req : FinalizeBlockRequest) (i : nat) (tx : string)
    (msg : SignedTransaction X) (st : block_state) : block_state :=
  let '(c0, emit) := deregistration_needs_update msg (bs_conn st) in
  let txhash := ToTxHashFromBytes tx in
  let '(c1, (finalizedTx, err)) := finalizeTransaction req msg txhash (fb_Height req) c0 in
  let '(c2, updates) :=
    match err with
    | Some _ => (c1, bs_updates st)
    | None => record_update committed req msg emit c1 (bs_updates st)
    end in
  mkBlockState
    (persistTxStat finalizedTx txhash (fb_Height req) (fb_Time req) (store_tx req i txhash tx c2))
    updates
    (app (bs_finalized st) [txhash])
    (app (bs_codes st) [match err with Some _ => 2 | None => CodeTypeOK end]).

Definition finalize_v2 (req : FinalizeBlockRequest) (i : nat) (tx : string) (v2Tx : TransactionV2 Y)
    (st : block_state) : block_state :=
  let txhash := ToTxHashFromBytes tx in
  let '(c1, r) := withBlockSavepoint (finalizeV2Transaction req v2Tx txhash) (bs_conn st) in
  mkBlockState (store_tx req i txhash tx c1) (bs_updates st)
    (app (bs_finalized st) [txhash])
    (app (bs_codes st) [match r with Err _ => 2 | Ok _ => CodeTypeOK end]).

(** [currentHeight] is the height cached by this node. *)
Definition finalize_one (committed : list CoreValidator) (currentHeight : Z) (req : FinalizeBlockRequest) (i : nat)
    (tx : string) (st : block_state) : block_state :=
  match unmarshal_signed tx with
  | Some msg => finalize_signed committed req i tx msg st
  | None =>
      match isValidV2Transaction unmarshal_v2 v2_Header chainID currentHeight tx with
      | Ok v2Tx => finalize_v2 req i tx v2Tx st
      | Err _ => mkBlockState (bs_conn st) (bs_updates st) (bs_finalized st) (app (bs_codes st) [1])
      end
  end.

Fixpoint finalize_txs (committed : list CoreValidator) (currentHeight : Z) (req : FinalizeBlockRequest) (i : nat)
    (txs : list string) (st : block_state) : block_state :=
  match txs with
  | [] => st
  | tx :: txs' =>
      finalize_txs committed currentHeight req (S i) txs' (finalize_one committed currentHeight req i tx st)
  end.

Definition serializeAppState (prevHash : string) (txs : list string) : string :=
  sha256 (prevHash +:+ foldr String.append "" txs).

(** *** FinalizeBlock *)

(** The validator updates are returned in the order the map is iterated in. *)
Record FinalizeBlockResponse := mkResponse {
  TxResults : list Z;
  AppHash : string;
  ValidatorUpdates : gmap string ValidatorUpdate
}.

(** ABCIState, the committed database and the mempool. *)
Record abci_state := mkAbciState {
  onGoingBlock : option T;
  finalizedTxs : list string;
  lastRetainHeight : Z;
  database : block_db R;
  mempl : Mempool (SignedTransaction X) (TransactionV2 Y)
}.

Definition startInProgressTx : proc abci_state string unit :=
  fun s =>
    match pg_open (database s) with
    | None => (s, Err "begin failed")
    | Some dbTx =>
        (mkAbciState (Some dbTx) (finalizedTxs s) (lastRetainHeight s) (database s) (mempl s), Ok tt)
    end.

Definition block_row (req : FinalizeBlockRequest) : core_block :=
  mkCoreBlock (fb_Height req) chainID (hex_encode (fb_Hash req)) (hex_encode (fb_ProposerAddress req)) (fb_Time req).

(** The error of startInProgressTx is dropped; without a transaction the first
    statement is a nil dereference ([None]).  Challenges and the cleanup of expired
    transactions run on the side. *)
Definition FinalizeBlock (currentHeight : Z) (req : FinalizeBlockRequest) (s : abci_state) :
    option (abci_state * FinalizeBlockResponse) :=
  let s1 := (startInProgressTx s).1 in
  match onGoingBlock s1 with
  | None => None
  | Some c0 =>
      let c1 := exec_logged (StoreBlock (block_row req)) c0 in
      let st := finalize_txs (core_validators (database s1)) currentHeight req 0 (fb_Txs req)
                  (mkBlockState c1 ∅ (finalizedTxs s1) []) in
      let nextAppHash := serializeAppState "" (fb_Txs req) in
      let c2 := exec_logged (UpsertAppState (fb_Height req) nextAppHash) (bs_conn st) in
      let c3 := exec_logged (UpsertSlaRollupReport (upper_hex (fb_ProposerAddress req))) c2 in
      Some (mkAbciState (Some c3) (bs_finalized st) (lastRetainHeight s1) (database s1) (mempl s1),
            mkResponse (bs_codes st) nextAppHash (bs_updates st))
  end.

(** ** Commit *)

Definition commitInProgressTx : proc abci_state string unit :=
  fun s =>
    match onGoingBlock s with
    | None => (s, Ok tt)
    | Some c =>
        match pg_commit c with
        | Committed d => (mkAbciState None (finalizedTxs s) (lastRetainHeight s) d (mempl s), Ok tt)
        | TxClosed => (mkAbciState None (finalizedTxs s) (lastRetainHeight s) (database s) (mempl s), Ok tt)
        | CommitError => (s, Err "commit failed")
        end
    end.

(** What calculateLowestRetainHeight reads besides the database: the configuration
    and the heights of the cached snapshots, newest first. *)
Record retain_env := mkRetainEnv {
  re_Archive : bool;
  re_ServeSnapshots : bool;
  re_RetainHeight : Z;
  re_Snapshots : list Z
}.

Definition safetyBuffer : Z := 100.

(** [latest] is the height of the latest block, [None] when there is none or the
    query fails. *)
Definition calculateLowestRetainHeight (env : retain_env) (latest : option Z) (lastSetRetain : Z) : Z :=
  if re_Archive env then 0
  else
    match latest with
    | None => 0
    | Some latestHeight =>
        match (if re_ServeSnapshots env then last (re_Snapshots env) else None) with
        | Some oldestSnapshotHeight =>
            let retainFromSnapshots := wrap64 (oldestSnapshotHeight - safetyBuffer) in
            let retainFromSnapshots := if retainFromSnapshots <? 1 then 1 else retainFromSnapshots in
            if lastSetRetain <? retainFromSnapshots then retainFromSnapshots else 0
        | None =>
            if (re_RetainHeight env <=? 0) || (latestHeight <=? re_RetainHeight env) then 0
            else
              let retainFromWindow := wrap64 (latestHeight - re_RetainHeight env) in
              if retainFromWindow <=? lastSetRetain then 0 else retainFromWindow
        end
    end.

(** order by height desc limit 1; [latest_fails] is a failing query. *)
Definition GetLatestBlock (latest_fails : bool) (d : block_db R) : option Z :=
  if latest_fails then None
  else match core_blocks d with
       | [] => None
       | b :: bs => Some (fold_left Z.max (map cb_Height bs) (cb_Height b))
       end.

(** The response's RetainHeight and the published hashes. *)
Definition Commit (env : retain_env) (latest_fails : bool) : proc abci_state string (Z * list string) :=
  fun s =>
    match commitInProgressTx s with
    | (s1, Err e) => (s1, Err e)
    | (s1, Ok _) =>
        let published := finalizedTxs s1 in
        let mempl' := RemoveBatch (mempl s1) published in
        let h := calculateLowestRetainHeight env (GetLatestBlock latest_fails (database s1)) (lastRetainHeight s1) in
        (mkAbciState (onGoingBlock s1) [] (if 0 <? h then h else lastRetainHeight s1) (database s1) mempl',
         Ok ((if 0 <? h then h else 0), published))
    end.
End Blocks.
