(* ===== verification/BlocksProps.v ===== *)
(** * Properties of block application

    Savepoints isolate failing version 2 transactions; a block that commits is
    stored completely although statement errors are only logged; a version 1
    transaction whose statement fails loses the block; results do not depend on the
    cached height; what Commit does to the mempool and the retain height. *)

From stdpp Require Import base gmap strings list fin_maps.
From Stdlib Require Import ZArith Lia Ascii.
From S2P Require Import Prelude Upgrades AuthState AuthStores Crypto Validators AuthEnforcement Encoding Rendezvous Registration Mempool Proposal BlockDb Blocks.

Open Scope string_scope.
Open Scope Z_scope.

Section Savepoint.
Context {T D : Type} {pg : PgConn T D} {laws : PgConnLaws pg}.

(** On a usable connection a version 2 transaction that fails leaves the block's
    transaction usable with the contents it had, and one that succeeds leaves its own
    writes; only a transaction that reports success after a failed statement leaves the
    connection unusable.  On an aborted connection nothing runs. *)
Theorem savepoint_isolates_failures {A} (fn : proc T string A) c c' r :
  withBlockSavepoint fn c = (c', r) ->
  (usable c = false -> c' = c /\ r = Err "begin block savepoint") /\
  (usable c = true ->
     exists c0, usable c0 = true /\ contents c0 = contents c /\
     match fn c0 with
     | (_, Err e) => r = Err e /\ usable c' = true /\ contents c' = contents c
     | (c1, Ok a) =>
         if usable c1 then r = Ok a /\ usable c' = true /\ contents c' = contents c1
         else r = Err "commit block savepoint" /\ c' = c1
     end).
Proof.
  unfold withBlockSavepoint. intros H. split; intros U.
  - rewrite begin_aborted in H by done. by simplify_eq.
  - destruct (begin_usable c U) as (c0 & E0 & U0 & D0). rewrite E0 in H. exists c0.
    split_and!; [done..|]. destruct (fn c0) as [c1 [a|e]].
    + destruct (usable c1) eqn:U1.
      * destruct (release_usable c1 U1) as (c2 & E2 & ? & ?). rewrite E2 in H. by simplify_eq.
      * rewrite release_aborted in H by done. by simplify_eq.
    + destruct (rollback_restores c0 c1 U0) as (c2 & E2 & ? & D2). rewrite E2 in H. simplify_eq.
      split_and!; congruence.
Qed.
End Savepoint.

(** ** Steps of the block *)

Section Local.
Context {T R : Type} {pg : PgConn T (block_db R)} {laws : PgConnLaws pg}.

(** The tables only FinalizeBlock writes. *)
Definition own_tables (d : block_db R) : list core_block * list core_transaction * list (Z * string) :=
  (core_blocks d, core_transactions d, core_app_state d).

(** A step that never revives the connection and leaves those tables alone. *)
Definition local_step (c c' : T) : Prop :=
  no_recovery c c' /\ (usable c' = true -> own_tables (contents c') = own_tables (contents c)).

#[export] Instance local_step_preorder : PreOrder local_step.
Proof.
  split; [by intros c; split|]. intros c1 c2 c3 [N1 E1] [N2 E2]. split; [by etrans|].
  intros U. rewrite E2 by done. auto.
Qed.

Lemma local_usable c c' : local_step c c' -> usable c' = true -> usable c = true.
Proof using. intros [N _]. exact N. Qed.

Lemma exec_local s c :
  (forall d d', s d = Some d' -> own_tables d' = own_tables d) -> local_step c (exec_logged s c).
Proof using laws.
  intros Hs. split; [apply exec_logged_no_recovery|]. intros U. apply exec_logged_done in U as [_ U]. by apply Hs.
Qed.

Lemma query_local c : local_step c (pg_query c).1.
Proof using laws.
  destruct (pg_query c) as [c' ok] eqn:E. apply pg_query_spec in E as (N & U & D); simpl.
  split; [done|]. intros U'. rewrite D by congruence. done.
Qed.

Lemma savepoint_local {A} (fn : proc T string A) c :
  (forall c0, local_step c0 (fn c0).1) -> local_step c (withBlockSavepoint fn c).1.
Proof using laws.
  intros Hf. split; [apply savepoint_no_recovery|]. intros U'.
  destruct (usable c) eqn:U; [|apply savepoint_no_recovery in U'; congruence].
  unfold withBlockSavepoint in *. destruct (begin_usable c U) as (c0 & E0 & U0 & D0). rewrite E0 in *.
  destruct (Hf c0) as [_ Hc]. destruct (fn c0) as [c1 [a|e]]; simpl in *.
  - destruct (usable c1) eqn:U1.
    + destruct (release_usable c1 U1) as (c2 & E2 & ? & D2). rewrite E2; simpl. rewrite D2, Hc, D0; done.
    + rewrite release_aborted in U' by done. simpl in U'. congruence.
  - destruct (rollback_restores c0 c1 U0) as (c2 & E2 & ? & D2). rewrite E2; simpl. by rewrite D2, D0.
Qed.

Lemma for_each_local {E A} (f : A -> proc T E unit) l c :
  (forall a c, local_step c (f a c).1) -> local_step c (for_each f l c).1.
Proof using laws.
  intros Hf. revert c. induction l as [|a l IH]; intros c; simpl; [done|].
  unfold pbind. specialize (Hf a c). destruct (f a c) as [c' [u|e]]; simpl in *; [|done]. etrans; [done|apply IH].
Qed.

(** What a statement did to the tables when the connection is still usable. *)
Lemma exec_tables s c (f : block_db R -> list core_block * list core_transaction * list (Z * string)) :
  (forall d d', s d = Some d' -> own_tables d' = f d) -> usable (exec_logged s c) = true ->
  usable c = true /\ own_tables (contents (exec_logged s c)) = f (contents c).
Proof using laws. intros Hs [U E]%exec_logged_done. split; [done|by apply Hs]. Qed.

Lemma store_block_done b (c : T) :
  usable (exec_logged (StoreBlock b) c) = true ->
  usable c = true /\
  own_tables (contents (exec_logged (StoreBlock b) c)) =
    (app (core_blocks (contents c)) [b], core_transactions (contents c), core_app_state (contents c)).
Proof using laws.
  apply (exec_tables _ _ (fun d => (app (core_blocks d) [b], core_transactions d, core_app_state d))).
  unfold StoreBlock. intros d d' H. by destruct (existsb _ _); simplify_eq.
Qed.

Definition tx_row (req : FinalizeBlockRequest) (i : nat) (h tx : string) : core_transaction :=
  mkCoreTransaction (fb_Height req) (wrap32 (Z.of_nat i)) h tx (fb_Time req).

Lemma store_tx_done req i h tx (c : T) :
  usable (store_tx req i h tx c) = true ->
  usable c = true /\
  own_tables (contents (store_tx req i h tx c)) =
    (core_blocks (contents c), app (core_transactions (contents c)) [tx_row req i h tx], core_app_state (contents c)).
Proof using laws.
  apply (exec_tables _ _ (fun d => (core_blocks d, app (core_transactions d) [tx_row req i h tx], core_app_state d))).
  unfold StoreTransaction. intros d d' H. by destruct (existsb _ _); simplify_eq.
Qed.

Lemma app_state_done h a (c : T) :
  usable (exec_logged (UpsertAppState h a) c) = true ->
  usable c = true /\
  own_tables (contents (exec_logged (UpsertAppState h a) c)) =
    (core_blocks (contents c), core_transactions (contents c), app (core_app_state (contents c)) [(h, a)]).
Proof using laws.
  apply (exec_tables _ _ (fun d => (core_blocks d, core_transactions d, app (core_app_state d) [(h, a)]))).
  unfold UpsertAppState. intros d d' H. by destruct (existsb _ _); simplify_eq.
Qed.

Lemma sla_local a (c : T) : local_step c (exec_logged (UpsertSlaRollupReport a) c).
Proof using laws.
  apply exec_local. unfold UpsertSlaRollupReport. intros d d' H. destruct (upsert_report _ _); by simplify_eq/=.
Qed.

Lemma history_local p (c : T) : local_step c (append_history p c).
Proof using laws.
  unfold append_history. destruct (p []).2; [|done]. apply exec_local. by intros d d' [= <-].
Qed.
End Local.

(** ** The loop *)

Section Loop.
Context {T R X Y Msg : Type} {C : EthCrypto} {pg : PgConn T (block_db R)} {hs : TxHandlers T X Y Msg}.
Context {laws : PgConnLaws pg}.
Context (unmarshal_signed : string -> option (SignedTransaction X)) (unmarshal_v2 : string -> option (TransactionV2 Y)).
Context (comet_address : string -> string) (fault : reg_query -> bool) (chainID : string).

Notation finalize_one := (finalize_one unmarshal_signed unmarshal_v2 comet_address fault chainID).
Notation finalize_txs := (finalize_txs unmarshal_signed unmarshal_v2 comet_address fault chainID).
Notation FinalizeBlock := (FinalizeBlock unmarshal_signed unmarshal_v2 comet_address fault chainID).
Notation isValidV2 := (isValidV2Transaction unmarshal_v2 v2_Header chainID).
Implicit Types (st : block_state (T := T)) (s : abci_state (T := T) (R := R) (X := X) (Y := Y)).

(** The transactions of a block the node can decode. *)
Definition decodable (k : Z) (tx : string) : bool :=
  match unmarshal_signed tx, isValidV2 k tx with
  | None, Err _ => false
  | _, _ => true
  end.

Fixpoint block_rows (k : Z) (req : FinalizeBlockRequest) (i : nat) (txs : list string) : list core_transaction :=
  match txs with
  | [] => []
  | tx :: txs' =>
      app (if decodable k tx then [tx_row req i (ToTxHashFromBytes tx) tx] else []) (block_rows k req (S i) txs')
  end.

Definition block_hashes (k : Z) (txs : list string) : list string :=
  map ToTxHashFromBytes (List.filter (decodable k) txs).

(** What the handlers promise: they go through statements on the connection, and
    leave the tables of the block alone. *)
Class HandlersLocal : Prop := {
  v1_local req (msg : SignedTransaction X) h height c : local_step c (finalizeTransaction req msg h height c).1;
  v2_local req (tx : TransactionV2 Y) h im c : local_step c (finalize_message req tx h im c).1
}.

Lemma finalize_txs_app vs k req i txs txs' st :
  finalize_txs vs k req i (app txs txs') st =
  finalize_txs vs k req (i + length txs) txs' (finalize_txs vs k req i txs st).
Proof using.
  revert i st. induction txs as [|tx txs IH]; intros i st; simpl; [by rewrite Nat.add_0_r|].
  rewrite IH. by rewrite Nat.add_succ_r.
Qed.

(** One code per transaction, and the hashes of the decodable ones. *)
Lemma finalize_one_lists vs k req i tx st :
  exists code, bs_codes (finalize_one vs k req i tx st) = app (bs_codes st) [code] /\
  (code = 1 <-> decodable k tx = false) /\
  bs_finalized (finalize_one vs k req i tx st) = app (bs_finalized st) (block_hashes k [tx]).
Proof using.
  unfold finalize_one, block_hashes, decodable. simpl. destruct (unmarshal_signed tx) as [msg|].
  - unfold finalize_signed. destruct (deregistration_needs_update _ _), (finalizeTransaction _ _ _ _ _) as [? [? err]].
    destruct (match err with Some _ => _ | None => _ end). simpl. eexists. split_and!; [done| |done].
    by destruct err.
  - destruct (isValidV2 k tx) as [v2Tx|e]; simpl.
    + unfold finalize_v2. destruct (withBlockSavepoint _ _) as [c1 r]. simpl.
      eexists. split_and!; [done| |done]. by destruct r.
    + exists 1. split_and!; [done|done|]. by rewrite app_nil_r.
Qed.

Lemma finalize_txs_lists vs k req i txs st :
  exists codes, bs_codes (finalize_txs vs k req i txs st) = app (bs_codes st) codes /\
  Forall2 (fun tx code => code = 1 <-> decodable k tx = false) txs codes /\
  bs_finalized (finalize_txs vs k req i txs st) = app (bs_finalized st) (block_hashes k txs).
Proof using.
  revert i st. induction txs as [|tx txs IH]; intros i st; cbn [finalize_txs].
  - exists []. by rewrite !app_nil_r.
  - destruct (finalize_one_lists vs k req i tx st) as (code & E1 & Hc & E2).
    destruct (IH (S i) (finalize_one vs k req i tx st)) as (codes & -> & Hcs & ->).
    exists (code :: codes). rewrite E1, E2, <- !app_assoc. split_and!; [done|by constructor|]. f_equal.
    unfold block_hashes. simpl. by destruct (decodable k tx).
Qed.

Context {HL : HandlersLocal}.

Lemma needs_update_local msg c : local_step c (deregistration_needs_update (X := X) msg c).1.
Proof using laws.
  unfold deregistration_needs_update. destruct (String.eqb _ _); [done|].
  pose proof (query_local c) as H. by destruct (pg_query c).
Qed.

Lemma registered_update_local comet pk power c : local_step c (registered_update comet_address comet pk power c).1.
Proof using laws.
  unfold registered_update. destruct (_ || _); [done|].
  pose proof (query_local c) as H. by destruct (pg_query c).
Qed.

Lemma record_update_local vs req (msg : SignedTransaction X) emit c m :
  local_step c (record_update comet_address fault vs req msg emit c m).1.
Proof using laws.
  unfold record_update. destruct (stx_Body msg) as [[vr|vd|att|kd x]|]; try done.
  - pose proof (registered_update_local (vl_CometAddress vr) (vl_PubKey vr) (vl_Power vr) c) as H.
    by destruct (registered_update _ _ _ _ _).
  - destruct (att_Body att) as [[vr|vd]|]; [| |done].
    + pose proof (registered_update_local (vr_CometAddress vr) (vr_PubKey vr) (vr_Power vr) c) as H.
      destruct (registered_update _ _ _ _ _) as [c' [[a u]|]]; [|done]. simpl in *. etrans; [done|apply history_local].
    + apply history_local.
Qed.

Lemma persist_local m h height t c : local_step c (persistTxStat (hs := hs) m h height t c).
Proof using laws.
  unfold persistTxStat. destruct m as [m|]; [|done]. apply exec_local. unfold InsertTxStat. intros d d' H.
  by destruct (existsb _ _); simplify_eq.
Qed.

(** The connection before the row of a transaction is stored. *)
Lemma finalize_one_before vs k req i tx st :
  if decodable k tx then
    exists c, local_step (bs_conn st) c /\
    local_step (store_tx req i (ToTxHashFromBytes tx) tx c) (bs_conn (finalize_one vs k req i tx st))
  else bs_conn (finalize_one vs k req i tx st) = bs_conn st.
Proof using laws HL.
  unfold decodable, finalize_one. destruct (unmarshal_signed tx) as [msg|]; [|destruct (isValidV2 k tx) as [v2Tx|e]; [|done]].
  - unfold finalize_signed. pose proof (needs_update_local msg (bs_conn st)) as H0.
    destruct (deregistration_needs_update _ _) as [c0 emit]. simpl in H0.
    pose proof (v1_local req msg (ToTxHashFromBytes tx) (fb_Height req) c0) as H1.
    destruct (finalizeTransaction _ _ _ _ _) as [c1 [m err]]. simpl in H1.
    destruct (match err with Some _ => _ | None => _ end) as [c2 us] eqn:E. simpl. exists c2.
    split; [|apply persist_local]. do 2 (etrans; [done|]). destruct err; simplify_eq; [done|].
    pose proof (record_update_local vs req msg emit c1 (bs_updates st)) as H2. by rewrite E in H2.
  - unfold finalize_v2.
    assert (H : local_step (bs_conn st)
      (withBlockSavepoint (finalizeV2Transaction chainID req v2Tx (ToTxHashFromBytes tx)) (bs_conn st)).1).
    { apply savepoint_local. intros c0. unfold finalizeV2Transaction. destruct (v2_Header v2Tx) as [[ch ex]|]; [|done].
      destruct (negb _); [done|]. destruct (_ <? _); [done|]. apply for_each_local. intros im c'. apply v2_local. }
    destruct (withBlockSavepoint _ _) as [c1 r]. simpl in *. by exists c1.
Qed.

Lemma finalize_one_tables vs k req i tx st :
  usable (bs_conn (finalize_one vs k req i tx st)) = true ->
  usable (bs_conn st) = true /\
  own_tables (contents (bs_conn (finalize_one vs k req i tx st))) =
    (core_blocks (contents (bs_conn st)),
     app (core_transactions (contents (bs_conn st)))
         (if decodable k tx then [tx_row req i (ToTxHashFromBytes tx) tx] else []),
     core_app_state (contents (bs_conn st))).
Proof using laws HL.
  pose proof (finalize_one_before vs k req i tx st) as H. destruct (decodable k tx).
  - destruct H as (c & [N1 E1] & [N2 E2]). intros U. rewrite E2 by done. apply N2 in U.
    apply store_tx_done in U as [U ->]. specialize (E1 U). apply N1 in U. split; [done|].
    injection E1 as E1 E2' E3. by rewrite E1, E2', E3.
  - rewrite H, app_nil_r. by intros U.
Qed.

Lemma finalize_txs_tables vs k req i txs st :
  usable (bs_conn (finalize_txs vs k req i txs st)) = true ->
  usable (bs_conn st) = true /\
  own_tables (contents (bs_conn (finalize_txs vs k req i txs st))) =
    (core_blocks (contents (bs_conn st)),
     app (core_transactions (contents (bs_conn st))) (block_rows k req i txs),
     core_app_state (contents (bs_conn st))).
Proof using laws HL.
  revert i st. induction txs as [|tx txs IH]; intros i st; cbn [finalize_txs].
  - by rewrite app_nil_r.
  - intros [U E]%IH. apply finalize_one_tables in U as [U E1]. split; [done|]. rewrite E. cbn [block_rows].
    injection E1 as E1 E2 E3. by rewrite E1, E2, E3, app_assoc.
Qed.

(** The block transaction FinalizeBlock leaves, in terms of the loop. *)
Lemma FinalizeBlock_spec k req s s' resp :
  onGoingBlock s = None -> FinalizeBlock k req s = Some (s', resp) ->
  exists c0 c3, pg_open (database s) = Some c0 /\ onGoingBlock s' = Some c3 /\ database s' = database s /\
    mempl s' = mempl s /\ lastRetainHeight s' = lastRetainHeight s /\
    let st := finalize_txs (core_validators (database s)) k req 0 (fb_Txs req)
                (mkBlockState (exec_logged (StoreBlock (block_row chainID req)) c0) ∅ (finalizedTxs s) []) in
    c3 = exec_logged (UpsertSlaRollupReport (upper_hex (fb_ProposerAddress req)))
           (exec_logged (UpsertAppState (fb_Height req) (AppHash resp)) (bs_conn st)) /\
    finalizedTxs s' = bs_finalized st /\ TxResults resp = bs_codes st /\ ValidatorUpdates resp = bs_updates st.
Proof using.
  unfold FinalizeBlock, startInProgressTx. intros Hn. destruct (pg_open (database s)) as [c0|]; simpl.
  - intros [= <- <-]. exists c0. eexists. by split_and!.
  - by rewrite Hn.
Qed.

(** C10 -- Every error FinalizeBlock meets while it stores a block is only logged; still, when
    the block's transaction commits, the database holds the old rows followed by exactly the
    row of the block, one row per decodable transaction with its index, and the app hash,
    and the response has one result per transaction, 1 exactly for the undecodable ones. *)
Theorem committed_block_is_complete k req s s' resp c d :
  onGoingBlock s = None -> FinalizeBlock k req s = Some (s', resp) ->
  onGoingBlock s' = Some c -> pg_commit c = Committed d ->
  core_blocks d = app (core_blocks (database s)) [block_row chainID req] /\
  core_transactions d = app (core_transactions (database s)) (block_rows k req 0 (fb_Txs req)) /\
  core_app_state d = app (core_app_state (database s)) [(fb_Height req, AppHash resp)] /\
  Forall2 (fun tx code => code = 1 <-> decodable k tx = false) (fb_Txs req) (TxResults resp).
Proof using laws HL.
  intros Hn HF Hc Hd. apply FinalizeBlock_spec in HF as (c0 & c3 & Ho & Hc3 & _ & _ & _ & E & _ & ER & _); [|done].
  simplify_eq. apply open_usable in Ho as [U0 D0]. apply commit_stores in Hd as [U ->].
  destruct (sla_local (upper_hex (fb_ProposerAddress req))
    (exec_logged (UpsertAppState (fb_Height req) (AppHash resp)) (bs_conn
      (finalize_txs (core_validators (database s)) k req 0 (fb_Txs req)
        (mkBlockState (exec_logged (StoreBlock (block_row chainID req)) c0) ∅ (finalizedTxs s) []))))) as [N3 E3].
  specialize (E3 U). apply N3 in U. apply app_state_done in U as [U E2].
  apply finalize_txs_tables in U as [U E1]. simpl in U, E1. apply store_block_done in U as [U E0].
  rewrite D0 in E0. injection E0 as A0 B0 C0. rewrite A0, B0, C0 in E1. injection E1 as A1 B1 C1.
  rewrite A1, B1, C1 in E2. rewrite E2 in E3. injection E3 as -> -> ->. split_and!; try done.
  rewrite ER. destruct (finalize_txs_lists (core_validators (database s)) k req 0 (fb_Txs req)
    (mkBlockState (exec_logged (StoreBlock (block_row chainID req)) c0) ∅ (finalizedTxs s) [])) as (codes & -> & H & _).
  done.
Qed.

Lemma finalize_txs_no_recovery vs k req i txs st :
  no_recovery (bs_conn st) (bs_conn (finalize_txs vs k req i txs st)).
Proof using laws HL. intros U. by apply finalize_txs_tables in U as [U _]. Qed.

(** A version 1 transaction that aborts the connection, anywhere in the block. *)
Lemma aborting_tx_aborts_block vs k req i txs st tx msg :
  tx ∈ txs -> unmarshal_signed tx = Some msg ->
  (forall c, usable (finalizeTransaction req msg (ToTxHashFromBytes tx) (fb_Height req) c).1 = false) ->
  usable (bs_conn (finalize_txs vs k req i txs st)) = false.
Proof using laws HL.
  intros Hin Hm Ha. apply not_true_iff_false. intros U. apply list_elem_of_split in Hin as (l1 & l2 & ->).
  rewrite finalize_txs_app in U. cbn [finalize_txs] in U. apply finalize_txs_no_recovery in U.
  unfold finalize_one, finalize_signed in U. rewrite Hm in U.
  destruct (deregistration_needs_update _ _) as [c0 emit]. specialize (Ha c0).
  destruct (finalizeTransaction _ _ _ _ _) as [c1 [m err]]. simpl in Ha.
  destruct (match err with Some _ => _ | None => _ end) as [c2 us] eqn:E. simpl in U.
  apply (local_usable _ _ (persist_local _ _ _ _ _)) in U. apply store_tx_done in U as [U _]. destruct err; simplify_eq; [congruence|].
  pose proof (record_update_local vs req msg emit c1 (bs_updates (finalize_txs vs k req i l1 st))) as N.
  rewrite E in N. apply (local_usable _ _ N) in U. congruence.
Qed.

(** Only version 2 transactions run in a savepoint.  When a statement of a version 1
    transaction fails, wherever it stands in the block, the whole block is lost: its
    transaction does not commit, and no block or transaction row is stored. *)
Theorem failed_v1_statement_loses_block k req s s' resp tx msg env lf :
  onGoingBlock s = None -> tx ∈ fb_Txs req -> unmarshal_signed tx = Some msg ->
  (forall c, usable (finalizeTransaction req msg (ToTxHashFromBytes tx) (fb_Height req) c).1 = false) ->
  FinalizeBlock k req s = Some (s', resp) ->
  (exists c, onGoingBlock s' = Some c /\ forall d, pg_commit c <> Committed d) /\
  database (Commit env lf s').1 = database s.
Proof using laws HL.
  intros Hn Hin Hm Ha HF. apply FinalizeBlock_spec in HF as (c0 & c3 & _ & Hc3 & Hdb & _ & _ & E & _); [|done].
  assert (U : usable c3 = false).
  { apply not_true_iff_false. intros U. rewrite E in U. apply (local_usable _ _ (sla_local _ _)) in U. apply app_state_done in U as [U _].
    rewrite (aborting_tx_aborts_block _ _ _ _ _ _ tx msg) in U; [done..]. }
  assert (HC : forall d, pg_commit c3 <> Committed d).
  { intros d Hd. apply commit_stores in Hd as [U' _]. congruence. }
  split; [by exists c3|]. unfold Commit, commitInProgressTx. rewrite Hc3.
  destruct (pg_commit c3) as [d| |] eqn:Ec; [by destruct (HC d)|done|done].
Qed.
End Loop.

(** ** Results, updates and commits

    The response of FinalizeBlock does not depend on the height a node has cached;
    validator updates are only ever replaced by removals; Commit empties the mempool
    of the block; the retain height.  Witnesses run a small connection and
    handlers. *)

Section Results.
Context {T R X Y Msg : Type} {C : EthCrypto} {pg : PgConn T (block_db R)} {hs : TxHandlers T X Y Msg}.
Context (unmarshal_signed : string -> option (SignedTransaction X)) (unmarshal_v2 : string -> option (TransactionV2 Y)).
Context (comet_address : string -> string) (fault : reg_query -> bool) (chainID : string).

Notation finalize_one := (finalize_one unmarshal_signed unmarshal_v2 comet_address fault chainID).
Notation finalize_txs := (finalize_txs unmarshal_signed unmarshal_v2 comet_address fault chainID).
Notation FinalizeBlock := (FinalizeBlock unmarshal_signed unmarshal_v2 comet_address fault chainID).
Implicit Types (st : block_state (T := T)) (s : abci_state (T := T) (R := R) (X := X) (Y := Y)).

(** ** The cached height *)

(** What validation of a proposal at this height makes sure of. *)
Definition unexpired (height : Z) (tx : string) : Prop :=
  forall v2Tx chain expiration, unmarshal_signed tx = None -> unmarshal_v2 tx = Some v2Tx ->
    v2_Header v2Tx = Some (chain, expiration) -> height <= expiration.

Lemma isValidV2_cached_height height k k' tx :
  unexpired height tx -> unmarshal_signed tx = None -> k <= height -> k' <= height ->
  isValidV2Transaction unmarshal_v2 v2_Header chainID k tx = isValidV2Transaction unmarshal_v2 v2_Header chainID k' tx.
Proof using.
  intros Hu Hs Hk Hk'. unfold isValidV2Transaction. destruct (unmarshal_v2 tx) as [v2Tx|] eqn:E; [|done].
  destruct (v2_Header v2Tx) as [[chain expiration]|] eqn:Eh; [|done]. specialize (Hu _ _ _ Hs E Eh).
  by replace (expiration <? k) with false by lia; replace (expiration <? k') with false by lia.
Qed.

Lemma finalize_txs_cached_height vs k k' req i txs st :
  k <= fb_Height req -> k' <= fb_Height req -> Forall (unexpired (fb_Height req)) txs ->
  finalize_txs vs k req i txs st = finalize_txs vs k' req i txs st.
Proof using.
  intros Hk Hk'. revert i st. induction txs as [|tx txs IH]; intros i st Hu; [done|].
  inversion_clear Hu as [|? ? Ht Hts]. cbn [finalize_txs]. rewrite IH by done. f_equal. unfold finalize_one.
  destruct (unmarshal_signed tx) eqn:Es; [done|]. by rewrite (isValidV2_cached_height (fb_Height req) k k').
Qed.

(** The block a node applies and the response it gives do not depend on the height its
    cache happens to hold, as long as that is not beyond the block and the version 2
    transactions of the block have not expired, which proposal validation checks: nodes
    whose caches lag compute the same results. *)
Theorem finalization_ignores_cached_height k k' req s :
  k <= fb_Height req -> k' <= fb_Height req -> Forall (unexpired (fb_Height req)) (fb_Txs req) ->
  FinalizeBlock k req s = FinalizeBlock k' req s.
Proof using.
  intros Hk Hk' Hu. unfold FinalizeBlock. destruct (onGoingBlock _) as [c0|]; [|done].
  by rewrite (finalize_txs_cached_height _ k k').
Qed.

(** ** Validator updates *)

(** An update of an address stays, or is replaced by a removal. *)
Definition updates_step (m m' : gmap string ValidatorUpdate) : Prop :=
  forall a u, m !! a = Some u -> exists u', m' !! a = Some u' /\ (u' = u \/ vu_Power u' = 0).

#[local] Instance updates_step_preorder : PreOrder updates_step.
Proof using.
  split; [intros m a u H; eauto|]. intros m1 m2 m3 H1 H2 a u H.
  apply H1 in H as (u' & H & Hu'). apply H2 in H as (u'' & H & Hu''). exists u''. split; [done|].
  destruct Hu'' as [->|]; [done|by right].
Qed.

Lemma insert_absent_step a u m : updates_step m (insert_absent a u m).
Proof using.
  intros b v H. unfold insert_absent. destruct (m !! a) eqn:E; [eauto|]. exists v. split; [|by left].
  rewrite lookup_insert_ne; [done|congruence].
Qed.

Lemma removal_step a pk m : updates_step m (<[a := mkValidatorUpdate 0 pk]> m).
Proof using.
  intros b v H. destruct (decide (a = b)) as [->|].
  - rewrite lookup_insert_eq. eexists. split; [done|by right].
  - rewrite lookup_insert_ne by done. eauto.
Qed.

Lemma record_update_step vs req (msg : SignedTransaction X) emit c m :
  updates_step m (record_update comet_address fault vs req msg emit c m).2.
Proof using.
  unfold record_update. destruct (stx_Body msg) as [[vr|vd|att|kd x]|]; try done.
  - destruct (registered_update _ _ _ _ _) as [c' [[a u]|]]; [apply insert_absent_step|done].
  - destruct emit; [apply removal_step|done].
  - destruct (att_Body att) as [[vr|vd]|]; [| |done].
    + destruct (registered_update _ _ _ _ _) as [c' [[a u]|]]; [apply insert_absent_step|done].
    + destruct emit; [apply removal_step|done].
Qed.

Lemma finalize_txs_updates vs k req i txs st :
  updates_step (bs_updates st) (bs_updates (finalize_txs vs k req i txs st)).
Proof using.
  revert i st. induction txs as [|tx txs IH]; intros i st; cbn [finalize_txs]; [done|].
  etrans; [|apply IH]. unfold finalize_one. destruct (unmarshal_signed tx) as [msg|].
  - unfold finalize_signed. destruct (deregistration_needs_update _ _), (finalizeTransaction _ _ _ _ _) as [c1 [m err]].
    destruct err; [done|]. pose proof (record_update_step vs req msg b c1 (bs_updates st)) as H.
    by destruct (record_update _ _ _ _ _ _ _ _).
  - destruct (isValidV2Transaction _ _ _ _ _); [|done]. unfold finalize_v2. by destruct (withBlockSavepoint _ _).
Qed.

(** Within a block the first registration of an address decides its voting power, and
    a removal is final: an update present after a part of the block is, at its end, the
    same update or a removal with power 0, never a later registration's. *)
Theorem removal_overrides_registration vs k req st txs txs' a u :
  bs_updates (finalize_txs vs k req 0 txs st) !! a = Some u ->
  exists u', bs_updates (finalize_txs vs k req 0 (app txs txs') st) !! a = Some u' /\
  (u' = u \/ vu_Power u' = 0) /\ (vu_Power u = 0 -> vu_Power u' = 0).
Proof using.
  intros H. rewrite finalize_txs_app. apply (finalize_txs_updates vs k req (0 + length txs) txs') in H as (u' & -> & Hu).
  exists u'. split_and!; [done|done|]. by destruct Hu as [->|].
Qed.

(** ** Commit *)

(** When Commit succeeds the mempool is the queue it was without the decodable
    transactions of the block, the list of finalized transactions is empty again, their
    hashes are published and no block transaction stays open; when it fails nothing
    changes, so that the transactions are still there. *)
Theorem commit_removes_block_from_mempool k req s s' resp q env lf :
  onGoingBlock s = None -> finalizedTxs s = [] -> repr (mempl s) q ->
  FinalizeBlock k req s = Some (s', resp) ->
  match Commit env lf s' with
  | (s'', Ok (_, published)) =>
      published = block_hashes unmarshal_signed unmarshal_v2 chainID k (fb_Txs req) /\
      repr (mempl s'') (q_remove published q) /\ finalizedTxs s'' = [] /\ onGoingBlock s'' = None
  | (s'', Err _) => s'' = s' /\ repr (mempl s'') q
  end.
Proof using.
  intros Hn Hf HR HF. apply FinalizeBlock_spec in HF as (c0 & c3 & _ & Hc3 & _ & Hm & _ & _ & Hft & _); [|done].
  match type of Hft with _ = bs_finalized (Blocks.finalize_txs _ _ _ _ _ ?vs _ _ _ _ ?st) =>
    destruct (finalize_txs_lists unmarshal_signed unmarshal_v2 comet_address fault chainID vs k req 0 (fb_Txs req) st)
      as (codes & _ & _ & E) end.
  rewrite E, Hf in Hft. simpl in Hft. unfold Commit, commitInProgressTx. rewrite Hc3.
  destruct (pg_commit c3); simpl; rewrite ?Hft, Hm; split_and!; try done; by apply RemoveBatch_repr.
Qed.

(** ** The retain height *)

Lemma fold_max_range b l x :
  0 <= x < b -> Forall (fun h => 0 <= h < b) l -> 0 <= fold_left Z.max l x < b.
Proof using. intros Hx Hl. revert x Hx. induction Hl as [|y l Hy _ IH]; intros x Hx; simpl; [done|]. apply IH. lia. Qed.

Lemma latest_in_range lf (d : block_db R) l :
  Forall (fun b => 0 <= cb_Height b < 2 ^ 63) (core_blocks d) -> GetLatestBlock lf d = Some l -> 0 <= l < 2 ^ 63.
Proof using.
  unfold GetLatestBlock. destruct lf; [done|]. destruct (core_blocks d) as [|b bs]; [done|].
  intros Hb [= <-]. inversion_clear Hb. apply fold_max_range; [done|]. by apply Forall_map.
Qed.

Lemma retain_height_spec env latest last_ :
  Forall (fun h => 0 <= h < 2 ^ 63) (re_Snapshots env) -> (forall l, latest = Some l -> 0 <= l < 2 ^ 63) ->
  let h := calculateLowestRetainHeight env latest last_ in
  h = 0 \/
  (last_ < h /\ 0 < h /\ re_Archive env = false /\
   exists l, latest = Some l /\
   ((re_ServeSnapshots env = true /\ exists oldest, last (re_Snapshots env) = Some oldest /\ h = Z.max 1 (oldest - safetyBuffer)) \/
    ((re_ServeSnapshots env = false \/ re_Snapshots env = []) /\ h = l - re_RetainHeight env /\ 0 < re_RetainHeight env))).
Proof using.
  intros Hs Hl h. subst h. unfold calculateLowestRetainHeight. destruct (re_Archive env); [by left|].
  destruct latest as [l|]; [|by left]. specialize (Hl l eq_refl).
  destruct (if re_ServeSnapshots env then last (re_Snapshots env) else None) as [oldest|] eqn:E.
  - destruct (re_ServeSnapshots env) eqn:Ev; [|done].
    assert (Ho : 0 <= oldest < 2 ^ 63).
    { rewrite Forall_forall in Hs. apply Hs. by apply last_Some_elem_of. }
    rewrite wrap64_id by (unfold is_int64, int64_min, int64_max, safetyBuffer; lia).
    destruct (Z.ltb_spec (oldest - safetyBuffer) 1).
    + destruct (Z.ltb_spec last_ 1); [right|by left]. split_and!; [lia|lia|done|]. exists l. split; [done|]. left.
      split; [done|]. exists oldest. split; [done|lia].
    + destruct (Z.ltb_spec last_ (oldest - safetyBuffer)); [right|by left]. split_and!; [lia|lia|done|].
      exists l. split; [done|]. left. split; [done|]. exists oldest. split; [done|lia].
  - assert (Hn : re_ServeSnapshots env = false \/ re_Snapshots env = []).
    { destruct (re_ServeSnapshots env); [right; by apply last_None|by left]. }
    destruct (Z.leb_spec (re_RetainHeight env) 0); simpl; [by left|].
    destruct (Z.leb_spec l (re_RetainHeight env)); simpl; [by left|].
    rewrite wrap64_id by (unfold is_int64, int64_min, int64_max; lia). destruct (Z.leb_spec (l - re_RetainHeight env) last_); [by left|right].
    split_and!; [lia|lia|done|]. exists l. split; [done|]. right. done.
Qed.

(** C38 -- The height below which a node lets CometBFT prune only moves forward, an archive
    node never moves it, and a node that serves snapshots keeps the hundred blocks before its
    oldest one. *)
Theorem retain_height_advances env lf s s' r published :
  Forall (fun h => 0 <= h < 2 ^ 63) (re_Snapshots env) ->
  Forall (fun b => 0 <= cb_Height b < 2 ^ 63) (core_blocks (database s')) ->
  Commit env lf s = (s', Ok (r, published)) ->
  (r = 0 /\ lastRetainHeight s' = lastRetainHeight s) \/
  (lastRetainHeight s < r /\ lastRetainHeight s' = r /\ re_Archive env = false /\
   forall oldest, re_ServeSnapshots env = true -> last (re_Snapshots env) = Some oldest ->
     r <= Z.max 1 (oldest - safetyBuffer)).
Proof using.
  intros Hs Hb. unfold Commit. destruct (commitInProgressTx s) as [s1 [[]|e]] eqn:Ec; [|done]. intros [= <- <- <-].
  simpl in *. assert (El : lastRetainHeight s1 = lastRetainHeight s).
  { unfold commitInProgressTx in Ec. step_proc Ec; done. }
  rewrite El. destruct (retain_height_spec env (GetLatestBlock lf (database s1)) (lastRetainHeight s) Hs)
    as [->|(H1 & H2 & H3 & l & _ & H4)].
  - intros l Hl. apply (latest_in_range lf _ _ Hb Hl).
  - left. done.
  - right. replace (0 <? _) with true by lia. split_and!; try done.
    intros oldest Hv Ho. destruct H4 as [(_ & o & Eo & ->)|([Hf|Hf] & _ & _)]; [|congruence|].
    + simplify_eq. lia.
    + by rewrite Hf in Ho.
Qed.
End Results.

(** ** Witnesses *)

Module ToyBlock.
Definition db : Type := block_db unit.
Definition conn : Type := db * bool.

#[export] Instance pg : PgConn conn db := {|
  contents := fst;
  usable := snd;
  pg_open d := Some (d, true);
  pg_exec s c := if c.2 then match s c.1 with Some d => ((d, true), true) | None => ((c.1, false), false) end
                 else ((c.1, false), false);
  pg_begin c := if c.2 then Some c else None;
  pg_rollback c0 _ := Some c0;
  pg_release c := if c.2 then Some c else None;
  pg_commit c := if c.2 then Committed c.1 else CommitError
|}.

#[export] Instance laws : PgConnLaws pg.
Proof.
  split; cbn -[app].
  - by intros d c [= <-].
  - intros s [d []] c'; cbn; [destruct (s d) eqn:E|]; intros; by simplify_eq.
  - intros s [d []] c'; cbn; [destruct (s d) eqn:E|]; intros; by simplify_eq.
  - intros [d []]; cbn; intros; [eauto|done].
  - by intros [d []].
  - intros [d0 []] c; cbn; intros; [eauto|done].
  - intros [d []]; cbn; intros; [eauto|done].
  - by intros [d []].
  - intros [d []] d'; cbn; intros; by simplify_eq.
Qed.

Definition fine : handler conn string := fun c => (c, (Some "message", None)).

(** A storage proof whose row is rejected; everything else succeeds. *)
#[export] Instance handlers : TxHandlers conn unit unit string := {|
  on_Plays _ := fine;
  on_ManageEntity _ _ := fine;
  on_ManageEntityMigration _ := fine;
  on_Attestation _ _ := fine;
  on_LegacyRegistration _ _ := fine;
  on_Misbehavior _ _ := fine;
  on_SlaRollup _ _ := fine;
  on_StorageProof _ _ := fun c => ((pg_exec (fun _ => None) c).1, (None, Some "could not persist storage proof in db"));
  on_StorageProofVerification _ _ := fine;
  on_Release _ _ := fine;
  on_Reward _ _ _ _ := fine;
  on_RewardPool _ _ _ _ := fine;
  on_ContentAttestation _ _ _ := fine;
  on_FileUpload _ _ _ := fine;
  on_MediorumOperation _ _ := fine;
  finalizeERN _ _ _ _ := pret tt;
  finalizeMEAD _ _ _ _ := pfail "not found";
  finalizePIE _ _ _ _ := pret tt;
  proto_type_name m := m
|}.

#[export] Instance crypto : EthCrypto := Toy.crypto.

Lemma fine_local c : local_step c (fine c).1.
Proof. done. Qed.

#[export] Instance handlers_local : HandlersLocal (hs := handlers).
Proof.
  split.
  - intros req msg h height c. unfold finalizeTransaction.
    destruct (stx_Body msg) as [[vr|vd|att|[] x]|]; try apply fine_local; try done.
    split; [|destruct c as [d []]; simpl; done]. destruct c as [d []]; simpl; [done|]. unfold no_recovery; simpl. done.
  - intros req tx h [i []] c; done.
Defined.

Definition unmarshal (tx : string) : option (SignedTransaction unit) :=
  if String.eqb tx "plays" then Some (mkSignedTransaction "" (Some (BodyOther KPlays tt)))
  else if String.eqb tx "proof" then Some (mkSignedTransaction "" (Some (BodyOther KStorageProof tt)))
  else None.

Definition unmarshal2 (tx : string) : option (TransactionV2 unit) :=
  if String.eqb tx "ern" then Some (mkTransactionV2 (Some ("chain", 20)) [MessageErn] tt)
  else if String.eqb tx "mead" then Some (mkTransactionV2 (Some ("chain", 20)) [MessageMead] tt)
  else None.

Definition address (s : string) : string := s.
Definition no_fault (q : reg_query) : bool := false.
Definition empty_db : db := mkBlockDb [] [] [] [] [] [] [] tt.
Definition start : abci_state (T := conn) (R := unit) (X := unit) (Y := unit) :=
  mkAbciState None [] 0 empty_db (NewMempool 10).
Definition request (txs : list string) : FinalizeBlockRequest := mkRequest 10 "h" "p" 5 [] txs.
Definition env : retain_env := mkRetainEnv false true 0 [900; 150].

Definition fresh_conn : conn := (empty_db, true).
Definition mead : TransactionV2 unit := mkTransactionV2 (Some ("chain", 20)) [MessageMead] tt.

Definition run (txs : list string) := FinalizeBlock unmarshal unmarshal2 address no_fault "chain" 9 (request txs) start.
End ToyBlock.
Import ToyBlock.

Lemma savepoint_isolates_failures_witness :
  withBlockSavepoint (finalizeV2Transaction (X := unit) (Msg := string) "chain" (request []) mead "h")
    fresh_conn = (fresh_conn, Err "not found") /\
  exists c0 : conn, usable c0 = true /\ contents c0 = empty_db.
Proof.
  split; [by vm_compute|].
  destruct (savepoint_isolates_failures
    (finalizeV2Transaction (X := unit) (Msg := string) "chain" (request []) mead "h")
    fresh_conn fresh_conn (Err "not found")) as [_ H]; [by vm_compute|].
  destruct (H eq_refl) as (c0 & Hu & Hc & _). by exists c0.
Defined.

Lemma committed_block_is_complete_witness :
  exists s' resp c d, run ["plays"; "junk"; "mead"; "ern"] = Some (s', resp) /\ onGoingBlock s' = Some c /\
  pg_commit c = Committed d /\ TxResults resp = [0; 1; 2; 0] /\
  core_transactions d =
    block_rows unmarshal unmarshal2 "chain" 9 (request []) 0 ["plays"; "junk"; "mead"; "ern"].
Proof.
  destruct (run ["plays"; "junk"; "mead"; "ern"]) as [[s' resp]|] eqn:E; [|by vm_compute in E].
  exists s', resp.
  destruct (onGoingBlock s') as [c|] eqn:Ec; [|by vm_compute in E; injection E as <- _].
  destruct (pg_commit c) as [d| |] eqn:Ed;
    [|by vm_compute in E; injection E as <- _; injection Ec as <-|by vm_compute in E; injection E as <- _; injection Ec as <-].
  exists c, d. split_and!; [done..| |].
  - by vm_compute in E; injection E as _ <-.
  - apply (committed_block_is_complete unmarshal unmarshal2 address no_fault "chain" 9
             (request ["plays"; "junk"; "mead"; "ern"]) start s' resp c d eq_refl E Ec Ed).
Defined.

Lemma failed_v1_statement_loses_block_witness :
  exists s' resp, run ["plays"; "proof"; "ern"] = Some (s', resp) /\ TxResults resp = [0; 2; 2] /\
  database (Commit env false s').1 = empty_db.
Proof.
  destruct (run ["plays"; "proof"; "ern"]) as [[s' resp]|] eqn:E; [|by vm_compute in E].
  exists s', resp. split_and!; [done|by vm_compute in E; injection E as _ <-|].
  apply (failed_v1_statement_loses_block unmarshal unmarshal2 address no_fault "chain" 9
           (request ["plays"; "proof"; "ern"]) start s' resp "proof"
           (mkSignedTransaction "" (Some (BodyOther KStorageProof tt))) env false eq_refl); [|done| |exact E].
  - apply list_elem_of_In. simpl. auto.
  - by intros [d []].
Defined.

Lemma finalization_ignores_cached_height_witness :
  FinalizeBlock unmarshal unmarshal2 address no_fault "chain" 0
    (request ["ern"]) start = run ["ern"].
Proof.
  apply (finalization_ignores_cached_height unmarshal unmarshal2 address no_fault
           "chain" 0 9 (request ["ern"]) start); [by vm_compute|by vm_compute|].
  constructor; [|constructor]. intros t chain e _ E1 E2. vm_compute in E1. injection E1 as <-.
  injection E2 as _ <-. by vm_compute.
Defined.

Lemma removal_overrides_registration_witness :
  exists u', bs_updates (finalize_txs unmarshal unmarshal2 address no_fault "chain" [] 9
    (request []) 0 ["plays"] (mkBlockState fresh_conn {["a" := mkValidatorUpdate 10 "pk"]} [] [])) !! "a" = Some u' /\
  (u' = mkValidatorUpdate 10 "pk" \/ vu_Power u' = 0) /\ (10 = 0 -> vu_Power u' = 0).
Proof.
  apply (removal_overrides_registration unmarshal unmarshal2 address no_fault "chain"
           [] 9 (request []) (mkBlockState fresh_conn {["a" := mkValidatorUpdate 10 "pk"]} [] []) [] ["plays"] "a"
           (mkValidatorUpdate 10 "pk")).
  by vm_compute.
Defined.

Lemma commit_removes_block_from_mempool_witness :
  exists s' resp, run ["plays"; "junk"] = Some (s', resp) /\
  match Commit env false s' with
  | (s'', Ok (_, published)) =>
      published = block_hashes unmarshal unmarshal2 "chain" 9 ["plays"; "junk"] /\
      repr (mempl s'') (q_remove published []) /\ finalizedTxs s'' = [] /\ onGoingBlock s'' = None
  | (s'', Err _) => s'' = s' /\ repr (mempl s'') []
  end.
Proof.
  destruct (run ["plays"; "junk"]) as [[s' resp]|] eqn:E; [|by vm_compute in E].
  exists s', resp. split; [done|].
  apply (commit_removes_block_from_mempool unmarshal unmarshal2 address no_fault "chain" 9
           (request ["plays"; "junk"]) start s' resp [] env false); [done|done| |exact E].
  apply repr_new.
Defined.

Lemma retain_height_advances_witness :
  exists s' published, Commit env false (mkAbciState (Some (mkBlockDb [mkCoreBlock 1000 "chain" "h" "p" 5] [] [] [] [] [] [] tt, true))
    ["x"] 7 empty_db (NewMempool 10) : abci_state (X := unit) (Y := unit)) = (s', Ok (50, published)) /\
  7 < 50.
Proof.
  match goal with |- context [Commit ?e ?f ?s = _] =>
    destruct (Commit e f s) as [s' [[r published]|err]] eqn:E; [|by vm_compute in E];
    pose proof (retain_height_advances (T := conn) e f s s' r published) as H end.
  exists s', published. assert (Er : r = 50) by (vm_compute in E; congruence). subst r.
  split; [done|]. destruct H as [[H _]|[H _]]; [| |done|done|exact H].
  - repeat constructor; by vm_compute.
  - vm_compute in E. injection E as <- _. repeat constructor; by vm_compute.
Defined.
