(* ===== verification/Rollups.v ===== *)
(** * SLA rollups

    Models pkg/core/server/auditor.go: every interval the proposer reports how many
    blocks each validator proposed since the last rollup; validators accept a rollup
    that equals their own; finalization stores it and starts a new count.  The
    counters are the sla_node_reports of [BlockDb], which FinalizeBlock increments
    for the proposer of each block. *)

From stdpp Require Import base gmap strings list sorting fin_maps.
From Stdlib Require Import ZArith Lia.
From S2P Require Import Prelude Upgrades Crypto Validators Encoding Rendezvous Registration BlockDb.

Open Scope string_scope.
Open Scope Z_scope.

(** ** Messages and tables *)

Record Timestamp := mkTimestamp {
  tm_Seconds : Z;
  tm_Nanos : Z
}.

Record SlaNodeReport := mkSlaNodeReport {
  rep_Address : string;
  rep_NumBlocksProposed : Z
}.

Record SlaRollup := mkSlaRollup {
  ru_Timestamp : Timestamp;
  ru_BlockStart : Z;
  ru_BlockEnd : Z;
  ru_Reports : list SlaNodeReport
}.

Record sla_rollup_row := mkRollupRow {
  ro_ID : Z;
  ro_TxHash : string;
  ro_BlockStart : Z;
  ro_BlockEnd : Z;
  ro_Time : Z
}.

(** [sla_next_id] is the sequence of sla_rollups.id. *)
Record sla_db := mkSlaDb {
  sla_rollups : list sla_rollup_row;
  sla_reports : list sla_node_report;
  sla_next_id : Z
}.

#[export] Instance SlaNodeReport_eq : EqDecision SlaNodeReport.
Proof. solve_decision. Defined.
#[export] Instance Timestamp_eq : EqDecision Timestamp.
Proof. solve_decision. Defined.

#[export] Instance SlaRollup_eq : EqDecision SlaRollup.
Proof. solve_decision. Defined.

(** A timestamp column holds microseconds. *)
Definition pg_time (t : Timestamp) : Z := tm_Seconds t * 10 ^ 6 + tm_Nanos t / 1000.

(** ** Queries *)

(** order by time desc limit 1 *)
Fixpoint GetLatestSlaRollup (rows : list sla_rollup_row) : option sla_rollup_row :=
  match rows with
  | [] => None
  | r :: rows' =>
      match GetLatestSlaRollup rows' with
      | None => Some r
      | Some r' => if ro_Time r <=? ro_Time r' then Some r' else Some r
      end
  end.

Definition is_open (x : sla_node_report) : bool :=
  match sr_SlaRollupID x with None => true | Some _ => false end.

Definition GetInProgressRollupReports (db : sla_db) : list sla_node_report := List.filter is_open (sla_reports db).

(** order by comet_address; equal addresses are in some order, and only the address is used. *)
Definition GetAllRegisteredNodesSorted (vs : list CoreValidator) : list string :=
  merge_sort String.le (map cv_CometAddress (List.filter (fun v => negb (cv_Jailed v)) vs)).

Definition GetSlaRollupWithTimestamp (t : Z) (db : sla_db) : option sla_rollup_row :=
  List.find (fun r => ro_Time r =? t) (sla_rollups db).

(** The rollups by descending time, with the report of a node in each, if any. *)
Definition rollup_report (address : string) (db : sla_db) (r : sla_rollup_row) : option sla_node_report :=
  List.find (fun x => String.eqb (sr_Address x) address && bool_decide (sr_SlaRollupID x = Some (ro_ID r))) (sla_reports db).

Definition time_ge (r r' : sla_rollup_row) : Prop := ro_Time r' <= ro_Time r.
#[export] Instance time_ge_dec : RelDecision time_ge.
Proof. intros r r'. unfold time_ge. apply _. Defined.

Definition GetRecentRollupsForNode (limit : nat) (address : string) (db : sla_db) : list (option sla_node_report) :=
  map (rollup_report address db) (take limit (merge_sort time_ge (sla_rollups db))).

Definition TotalValidators (vs : list CoreValidator) : Z :=
  Z.of_nat (length (List.filter (fun v => negb (cv_Jailed v)) vs)).

Inductive sla_query :=
| QLatestRollup
| QInProgress
| QNodesSorted
| QRollupAt
| QCommitRollup
| QClearReports
| QCommitReport (address : string)
| QTotalValidators
| QRecentRollups.

Section Rollups.
(** SlaRollupInterval, ValidatorPurgeMinValidators, and the statements that fail. *)
Context (SlaRollupInterval ValidatorPurgeMinValidators : Z) (fault : sla_query -> bool).

(** ** Proposing and validating *)

(** [reportMap[v.CometAddress]]: the last report with the address. *)
Fixpoint report_for (a : string) (reports : list sla_node_report) : option sla_node_report :=
  match reports with
  | [] => None
  | r :: rs => match report_for a rs with
               | Some r' => Some r'
               | None => if String.eqb (sr_Address r) a then Some r else None
               end
  end.

Definition node_report (reports : list sla_node_report) (a : string) : SlaNodeReport :=
  match report_for a reports with
  | Some r => mkSlaNodeReport (sr_Address r) (sr_BlocksProposed r)
  | None => mkSlaNodeReport a 0
  end.

Definition createRollup (vs : list CoreValidator) (db : sla_db) (timestamp : Timestamp) (height : Z) :
    res string SlaRollup :=
  let start := if fault QLatestRollup then 0
               else match GetLatestSlaRollup (sla_rollups db) with
                    | Some r => wrap64 (ro_BlockEnd r + 1)
                    | None => 0
                    end in
  if fault QInProgress then Err "retrieving current rollup reports"
  else if fault QNodesSorted then Err "retrieving validators"
  else Ok (mkSlaRollup timestamp start (wrap64 (height - 1))
             (map (node_report (GetInProgressRollupReports db)) (GetAllRegisteredNodesSorted vs))).

Definition shouldProposeNewRollup (db : sla_db) (height : Z) : bool :=
  if fault QLatestRollup then false
  else
    let previousHeight := match GetLatestSlaRollup (sla_rollups db) with Some r => ro_BlockEnd r | None => 0 end in
    SlaRollupInterval <=? wrap64 (wrap64 (height - 1) - previousHeight).

Definition rollupsMatch (mine proposed : SlaRollup) : bool :=
  if negb (tm_Seconds (ru_Timestamp mine) =? tm_Seconds (ru_Timestamp proposed))
     || negb (tm_Nanos (ru_Timestamp mine) =? tm_Nanos (ru_Timestamp proposed)) then false
  else if negb (ru_BlockStart mine =? ru_BlockStart proposed) then false
  else if negb (ru_BlockEnd mine =? ru_BlockEnd proposed) then false
  else match ru_Reports mine, ru_Reports proposed with
       | [], [] => true
       | _, _ => bool_decide (ru_Reports mine = ru_Reports proposed)
       end.

Definition isValidRollup (vs : list CoreValidator) (db : sla_db) (timestamp : Timestamp) (height : Z)
    (rollup : SlaRollup) : res string bool :=
  if negb (shouldProposeNewRollup db (wrap64 (height + 1))) then Ok false
  else if ru_BlockEnd rollup <? ru_BlockStart rollup then Ok false
  else
    let? myRollup := createRollup vs db timestamp height in
    Ok (rollupsMatch myRollup rollup).

(** ** Finalization *)

Definition exec_sla {A} (q : sla_query) (f : sla_db -> option (sla_db * A)) : proc sla_db string A :=
  fun db => if fault q then (db, Err "statement failed")
            else match f db with
                 | Some (db', a) => (db', Ok a)
                 | None => (db, Err "constraint violated")
                 end.

Definition CommitSlaRollup (time : Z) (txHash : string) (blockStart blockEnd : Z) (db : sla_db) : option (sla_db * Z) :=
  let id := sla_next_id db in
  Some (mkSlaDb (app (sla_rollups db) [mkRollupRow id txHash blockStart blockEnd time]) (sla_reports db) (id + 1), id).

Definition ClearUncommittedSlaNodeReports (db : sla_db) : option (sla_db * unit) :=
  Some (mkSlaDb (sla_rollups db) (List.filter (fun x => negb (is_open x)) (sla_reports db)) (sla_next_id db), tt).

(** unique (address, sla_rollup_id) *)
Definition CommitSlaNodeReport (id : Z) (address : string) (blocksProposed : Z) (db : sla_db) : option (sla_db * unit) :=
  if existsb (fun x => String.eqb (sr_Address x) address && bool_decide (sr_SlaRollupID x = Some id)) (sla_reports db)
  then None
  else Some (mkSlaDb (sla_rollups db) (app (sla_reports db) [mkSlaReport address blocksProposed (Some id)])
               (sla_next_id db), tt).

Definition finalizeSlaRollup (rollup : SlaRollup) (txHash : string) : proc sla_db string unit :=
  fun db =>
    if fault QRollupAt then (db, Err "failed to check for existing rollup")
    else match GetSlaRollupWithTimestamp (pg_time (ru_Timestamp rollup)) db with
         | Some _ => (db, Ok tt)
         | None =>
             (let! id := exec_sla QCommitRollup
                           (CommitSlaRollup (pg_time (ru_Timestamp rollup)) txHash (ru_BlockStart rollup) (ru_BlockEnd rollup)) in
              exec_sla QClearReports ClearUncommittedSlaNodeReports ;;!
              for_each (fun r => exec_sla (QCommitReport (rep_Address r))
                                   (CommitSlaNodeReport id (rep_Address r) (rep_NumBlocksProposed r)))
                (ru_Reports rollup)) db
         end.

(** ** Purging *)

Definition validatorPurgeSLAInterval : nat := 8.

Definition ShouldPurgeValidatorForUnderperformance (vs : list CoreValidator) (db : sla_db) (validatorAddress : string) :
    res string bool :=
  if fault QTotalValidators then Err "could not get total validators"
  else if TotalValidators vs <=? ValidatorPurgeMinValidators then Ok false
  else if fault QRecentRollups then Err "could not get recent rollups for node"
  else
    let rollups := GetRecentRollupsForNode validatorPurgeSLAInterval validatorAddress db in
    let noHistory := negb (existsb (fun r => match r with Some _ => true | None => false end) rollups) in
    if noHistory then Ok false
    else Ok (negb (existsb (fun r => match r with Some x => 0 <? sr_BlocksProposed x | None => false end) rollups)).
End Rollups.

(** ** The chain *)

(** A block as the auditor sees it: the rollups among its transactions, with their
    hashes, and the committed validators it was validated against. *)
Record sla_block := mkSlaBlock {
  sb_Height : Z;
  sb_Time : Timestamp;
  sb_Proposer : string;
  sb_Rollups : list (SlaRollup * string);
  sb_Validators : list CoreValidator
}.

Definition no_faults (q : sla_query) : bool := false.

Definition count_block (proposer : string) (db : sla_db) : option sla_db :=
  reports ← upsert_report proposer (sla_reports db);
  Some (mkSlaDb (sla_rollups db) reports (sla_next_id db)).

(** The rollups of a block, then the increment for its proposer; [None] when a
    statement fails. *)
Definition audit_block (b : sla_block) (db : sla_db) : option sla_db :=
  match for_each (fun r => finalizeSlaRollup no_faults r.1 r.2) (sb_Rollups b) db with
  | (db', Ok _) => count_block (sb_Proposer b) db'
  | (_, Err _) => None
  end.

(** ** Properties of SLA rollups

    The rollups of a chain partition its blocks, and every report, proposed or
    stored, is the number of blocks its node proposed in the rollup's interval. *)

(** ** The latest rollup *)

Definition earlier (r r' : sla_rollup_row) : Prop := ro_Time r < ro_Time r'.

Lemma latest_is_last rows : StronglySorted earlier rows -> GetLatestSlaRollup rows = last rows.
Proof.
  induction rows as [|r rows IH]; intros H; [done|]. inversion_clear H as [|? ? Hs Hf]. simpl. rewrite IH by done.
  destruct rows as [|r' rows']; [done|]. rewrite last_cons_cons.
  destruct (last (r' :: rows')) as [x|] eqn:E; [|by apply last_None in E].
  apply last_Some_elem_of in E. rewrite Forall_forall in Hf. specialize (Hf x E). unfold earlier in Hf.
  by replace (ro_Time r <=? ro_Time x) with true by lia.
Qed.

Lemma latest_elem rows row : GetLatestSlaRollup rows = Some row -> row ∈ rows.
Proof.
  revert row. induction rows as [|x l IH]; simpl; [done|]. intros row. destruct (GetLatestSlaRollup l) as [r'|].
  - destruct (_ <=? _); intros [= <-]; [right; by apply IH|left].
  - intros [= <-]. left.
Qed.

Lemma sorted_snoc rows r :
  StronglySorted earlier rows -> Forall (fun x => ro_Time x < ro_Time r) rows -> StronglySorted earlier (app rows [r]).
Proof.
  induction 1 as [|x rows Hs IH Hx]; intros Hf; simpl; [by repeat constructor|].
  inversion_clear Hf. constructor; [auto|]. apply Forall_app. split; [done|]. by repeat constructor.
Qed.

(** Each rollup starts where the one before it ended. *)
Fixpoint contiguous (start : Z) (rows : list sla_rollup_row) : Prop :=
  match rows with
  | [] => True
  | r :: rows' => ro_BlockStart r = start /\ ro_BlockStart r <= ro_BlockEnd r /\ contiguous (ro_BlockEnd r + 1) rows'
  end.

(** The first block no rollup covers. *)
Definition next_start (start : Z) (rows : list sla_rollup_row) : Z :=
  match last rows with Some r => ro_BlockEnd r + 1 | None => start end.

Lemma contiguous_snoc start rows r :
  contiguous start rows -> ro_BlockStart r = next_start start rows -> ro_BlockStart r <= ro_BlockEnd r ->
  contiguous start (app rows [r]).
Proof.
  unfold next_start. revert start. induction rows as [|x rows IH]; intros start; simpl; [done|].
  intros (H1 & H2 & H3) Hs Hr. split_and!; [done|done|]. apply IH; [done| |done].
  destruct rows as [|y rows]; simpl in *; [done|]. by destruct (last (y :: rows)) eqn:E; [|apply last_None in E].
Qed.

Lemma next_start_cons start r rows : next_start start (r :: rows) = next_start (ro_BlockEnd r + 1) rows.
Proof.
  unfold next_start. destruct rows as [|x rows]; [done|]. rewrite last_cons_cons.
  by destruct (last (x :: rows)) eqn:E; [|apply last_None in E].
Qed.

Lemma next_start_le start rows : contiguous start rows -> start <= next_start start rows.
Proof.
  revert start. induction rows as [|r rows IH]; intros start; simpl; [done|].
  intros (H1 & H2 & H3%IH). rewrite next_start_cons. lia.
Qed.

Lemma contiguous_ends start rows :
  contiguous start rows ->
  Forall (fun r => start <= ro_BlockStart r <= ro_BlockEnd r /\ ro_BlockEnd r < next_start start rows) rows.
Proof.
  revert start. induction rows as [|r rows IH]; intros start; [constructor|]. simpl. intros (H1 & H2 & H3).
  rewrite next_start_cons. pose proof (next_start_le _ _ H3). constructor; [lia|].
  eapply Forall_impl; [by apply IH|]. simpl. intros x. lia.
Qed.

(** ** Counting *)

(** The blocks proposed by [a] in a list of proposers. *)
Definition proposed_by (a : string) (l : list string) : Z := Z.of_nat (length (List.filter (String.eqb a) l)).

(** [hist] lists the proposers of blocks 1, 2, ... *)
Definition blocks_between (hist : list string) (lo hi : Z) : list string :=
  take (Z.to_nat hi - Z.to_nat (lo - 1)) (drop (Z.to_nat (lo - 1)) hist).

Lemma proposed_by_app a l l' : proposed_by a (app l l') = proposed_by a l + proposed_by a l'.
Proof. unfold proposed_by. rewrite List.filter_app, length_app. lia. Qed.

Lemma proposed_by_absent a l : a ∉ l -> proposed_by a l = 0.
Proof.
  unfold proposed_by. induction l as [|x l IH]; simpl; [done|]. intros [Hx Hl]%not_elem_of_cons.
  destruct (String.eqb_spec a x); [done|]. auto.
Qed.

Lemma proposed_by_le a l : proposed_by a l <= Z.of_nat (length l).
Proof. unfold proposed_by. pose proof (filter_length_le (String.eqb a) l). lia. Qed.

Lemma blocks_between_app hist p lo hi :
  hi <= Z.of_nat (length hist) -> blocks_between (app hist [p]) lo hi = blocks_between hist lo hi.
Proof.
  intros H. unfold blocks_between. destruct (decide (Z.to_nat (lo - 1) <= length hist)%nat) as [Hl|Hl].
  - rewrite drop_app_le by done. rewrite take_app_le; [done|]. rewrite length_drop. lia.
  - replace (Z.to_nat hi - Z.to_nat (lo - 1))%nat with 0%nat by lia. done.
Qed.

Lemma blocks_between_all hist lo :
  blocks_between hist lo (Z.of_nat (length hist)) = drop (Z.to_nat (lo - 1)) hist.
Proof. unfold blocks_between. apply take_ge. rewrite length_drop. lia. Qed.

Lemma window_snoc (hist : list string) p lo :
  lo <= Z.of_nat (length hist) + 1 -> drop (Z.to_nat (lo - 1)) (app hist [p]) = app (drop (Z.to_nat (lo - 1)) hist) [p].
Proof. intros H. apply drop_app_le. lia. Qed.

(** ** Counters *)

(** The open reports count the proposers of [window]. *)
Record counts (window : list string) (reports : list sla_node_report) : Prop := {
  counts_nodup : NoDup (map sr_Address (List.filter is_open reports));
  counts_value : forall x, x ∈ reports -> is_open x = true -> sr_BlocksProposed x = proposed_by (sr_Address x) window;
  counts_all : forall a, a ∈ window -> a ∈ map sr_Address (List.filter is_open reports)
}.

Lemma elem_filter_open x reports : x ∈ List.filter is_open reports <-> x ∈ reports /\ is_open x = true.
Proof. rewrite !list_elem_of_In. apply filter_In. Qed.

Lemma elem_map_address a l : a ∈ map sr_Address l <-> exists x, sr_Address x = a /\ x ∈ l.
Proof. rewrite list_elem_of_In, in_map_iff. by setoid_rewrite <- list_elem_of_In. Qed.

Lemma report_for_spec a reports :
  match report_for a reports with
  | Some r => r ∈ reports /\ sr_Address r = a
  | None => a ∉ map sr_Address reports
  end.
Proof.
  induction reports as [|r reports IH]; simpl; [by intros H%elem_of_nil|].
  destruct (report_for a reports) as [r'|].
  - destruct IH. split; [by right|done].
  - destruct (String.eqb_spec (sr_Address r) a); [split; [left|done]|]. intros [H|H]%elem_of_cons; [by subst|done].
Qed.

Lemma node_report_counts window db a :
  counts window (sla_reports db) ->
  node_report (GetInProgressRollupReports db) a = mkSlaNodeReport a (proposed_by a window).
Proof.
  intros [Hn Hv Ha]. unfold node_report, GetInProgressRollupReports.
  pose proof (report_for_spec a (List.filter is_open (sla_reports db))) as H.
  destruct (report_for _ _) as [r|].
  - destruct H as [[Hr Ho]%elem_filter_open <-]. by rewrite (Hv r Hr Ho).
  - rewrite proposed_by_absent; [done|]. intros Hin. by apply H, Ha.
Qed.

Lemma bump_report_open a x : is_open (bump_report a x) = is_open x /\ sr_Address (bump_report a x) = sr_Address x.
Proof. unfold bump_report, open_report, is_open. by destruct (String.eqb _ _), (sr_SlaRollupID x) eqn:E; simpl; rewrite ?E. Qed.

Lemma filter_bump a reports :
  map sr_Address (List.filter is_open (map (bump_report a) reports)) = map sr_Address (List.filter is_open reports).
Proof.
  induction reports as [|x reports IH]; simpl; [done|]. destruct (bump_report_open a x) as [-> E2].
  destruct (is_open x); simpl; [by rewrite E2, IH|done].
Qed.

Lemma filter_bump_closed a reports :
  List.filter (fun x => negb (is_open x)) (map (bump_report a) reports) = List.filter (fun x => negb (is_open x)) reports.
Proof.
  induction reports as [|x reports IH]; cbn [map List.filter]; [done|]. destruct (bump_report_open a x) as [-> _].
  rewrite IH. destruct (is_open x) eqn:E; simpl; [done|]. f_equal. unfold bump_report, open_report.
  unfold is_open in E. destruct (sr_SlaRollupID x); [|done]. by rewrite andb_false_r.
Qed.

Lemma upsert_counts window a reports :
  counts window reports -> Z.of_nat (length window) < 2 ^ 31 - 1 ->
  exists reports', upsert_report a reports = Some reports' /\ counts (app window [a]) reports' /\
    List.filter (fun x => negb (is_open x)) reports' = List.filter (fun x => negb (is_open x)) reports.
Proof.
  intros [Hn Hv Ha] Hlen. unfold upsert_report.
  destruct (existsb (fun x => _ && _) reports) eqn:Eb.
  { exfalso. apply existsb_exists in Eb as (x & Hx & [Ho Hb]%andb_true_iff). apply list_elem_of_In in Hx. unfold open_report in Ho.
    apply andb_true_iff in Ho as [_ Ho]. rewrite (Hv x Hx Ho) in Hb. apply Z.leb_le in Hb.
    pose proof (proposed_by_le (sr_Address x) window). lia. }
  assert (Hone : forall b, proposed_by b [a] = if String.eqb b a then 1 else 0).
  { intros b. unfold proposed_by. simpl. by destruct (String.eqb b a). }
  destruct (existsb (open_report a) reports) eqn:Ex.
  - eexists. split_and!; [done| |].
    + split.
      * by rewrite filter_bump.
      * intros x. rewrite list_elem_of_In. intros (y & <- & Hy%list_elem_of_In)%in_map_iff.
        destruct (bump_report_open a y) as [-> ->]. intros Ho. rewrite proposed_by_app, Hone, <- (Hv y Hy Ho).
        unfold bump_report, open_report, is_open in *.
        destruct (String.eqb_spec (sr_Address y) a); simpl; [by destruct (sr_SlaRollupID y)|lia].
      * intros b [Hb| ->%list_elem_of_singleton]%elem_of_app; rewrite filter_bump; [auto|].
        apply existsb_exists in Ex as (x & Hx%list_elem_of_In & Ho). unfold open_report in Ho.
        apply andb_true_iff in Ho as [E%String.eqb_eq Ho]. apply elem_map_address. exists x.
        split; [done|]. by apply elem_filter_open.
    + apply filter_bump_closed.
  - assert (Hna : a ∉ map sr_Address (List.filter is_open reports)).
    { intros (x & <- & [Hx Ho]%elem_filter_open)%elem_map_address. apply not_true_iff_false in Ex. apply Ex.
      apply existsb_exists. exists x. split; [by apply list_elem_of_In|]. unfold open_report.
      rewrite String.eqb_refl. done. }
    eexists. split_and!; [done| |].
    + split; rewrite ?List.filter_app, ?map_app; simpl.
      * apply NoDup_app. split_and!; [done| |apply NoDup_singleton].
        intros b Hb ->%list_elem_of_singleton. done.
      * intros x [Hx| ->%list_elem_of_singleton]%elem_of_app Ho; rewrite proposed_by_app, Hone; simpl.
        -- rewrite <- (Hv x Hx Ho). destruct (String.eqb_spec (sr_Address x) a) as [<-|]; [|lia].
           destruct Hna. apply elem_map_address. exists x. split; [done|]. by apply elem_filter_open.
        -- rewrite String.eqb_refl, proposed_by_absent; [done|]. intros H. by apply Hna, Ha.
      * intros b [Hb|Hb]%elem_of_app; apply elem_of_app; auto.
    + rewrite List.filter_app. simpl. by rewrite app_nil_r.
Qed.

(** ** Valid rollups *)

Section Chain.
Context (interval : Z).
Hypothesis interval_pos : 1 <= interval.

Definition last_end (db : sla_db) : Z :=
  match GetLatestSlaRollup (sla_rollups db) with Some r => ro_BlockEnd r | None => 0 end.

Definition first_block (db : sla_db) : Z :=
  match GetLatestSlaRollup (sla_rollups db) with Some r => wrap64 (ro_BlockEnd r + 1) | None => 0 end.

Definition my_reports (vs : list CoreValidator) (db : sla_db) : list SlaNodeReport :=
  map (node_report (GetInProgressRollupReports db)) (GetAllRegisteredNodesSorted vs).

Lemma rollupsMatch_eq r r' : rollupsMatch r r' = true <-> r = r'.
Proof using.
  unfold rollupsMatch. destruct r as [[s n] a b l], r' as [[s' n'] a' b' l']; simpl.
  destruct (Z.eqb_spec s s'), (Z.eqb_spec n n'), (Z.eqb_spec a a'), (Z.eqb_spec b b'); simpl; try (split; congruence).
  subst. destruct l as [|x l], l' as [|x' l']; rewrite ?bool_decide_eq_true; split; congruence.
Qed.

Lemma isValidRollup_spec vs db ts height r :
  isValidRollup interval no_faults vs db ts height r = Ok true <->
  shouldProposeNewRollup interval no_faults db (wrap64 (height + 1)) = true /\
  first_block db <= wrap64 (height - 1) /\
  r = mkSlaRollup ts (first_block db) (wrap64 (height - 1)) (my_reports vs db).
Proof using.
  unfold isValidRollup. destruct (shouldProposeNewRollup _ _ _ _); simpl; [|split; [done|by intros [? _]]].
  change (createRollup no_faults vs db ts height) with
    (Ok (E := string) (mkSlaRollup ts (first_block db) (wrap64 (height - 1)) (my_reports vs db))).
  cbn [rbind]. split.
  - destruct (Z.ltb_spec (ru_BlockEnd r) (ru_BlockStart r)); [done|]. intros [= <-%rollupsMatch_eq]. simpl in *. done.
  - intros (_ & Hle & ->). simpl. replace (_ <? _) with false by lia. f_equal. by apply rollupsMatch_eq.
Qed.

(** The rollup a proposer builds when the interval has passed is accepted by every
    validator with the same tables, and it is the only one that is: validators accept a
    rollup exactly when they would have built it. *)
Theorem own_rollup_is_the_valid_one vs db ts height mine r :
  Forall (fun row => 0 <= ro_BlockEnd row < 2 ^ 63 - 1) (sla_rollups db) -> 0 <= height < 2 ^ 63 - 1 ->
  shouldProposeNewRollup interval no_faults db height = true ->
  createRollup no_faults vs db ts height = Ok mine ->
  isValidRollup interval no_faults vs db ts height r = Ok (bool_decide (r = mine)).
Proof using interval_pos.
  intros Hpos Hh Hs [= <-]. change (mkSlaRollup _ _ _ _) with
    (mkSlaRollup ts (first_block db) (wrap64 (height - 1)) (my_reports vs db)).
  pose proof (isValidRollup_spec vs db ts height) as HV.
  assert (Hb : exists b, isValidRollup interval no_faults vs db ts height r = Ok b).
  { unfold isValidRollup. destruct (negb _); [eauto|]. destruct (_ <? _); [eauto|]. simpl. eauto. }
  destruct Hb as [b Hb]. rewrite Hb. f_equal. apply Bool.eq_iff_eq_true. rewrite bool_decide_eq_true.
  specialize (HV r). rewrite Hb in HV. split; [intros ->; by apply HV|]. intros ->.
  assert (Hok : Ok (E := string) b = Ok true); [|congruence]. apply HV.
  unfold shouldProposeNewRollup, first_block in *. simpl in *.
  rewrite (wrap64_id (height - 1)) in * by (unfold is_int64, int64_min, int64_max; lia).
  rewrite (wrap64_id (height + 1)) by (unfold is_int64, int64_min, int64_max; lia).
  rewrite (wrap64_id (height + 1 - 1)) by (unfold is_int64, int64_min, int64_max; lia).
  destruct (GetLatestSlaRollup (sla_rollups db)) as [row|] eqn:El.
  - apply latest_elem in El. rewrite Forall_forall in Hpos. apply Hpos in El.
    rewrite wrap64_id in Hs by (unfold is_int64, int64_min, int64_max; lia).
    rewrite (wrap64_id (height + 1 - 1 - _)) by (unfold is_int64, int64_min, int64_max; lia).
    rewrite (wrap64_id (ro_BlockEnd row + 1)) by (unfold is_int64, int64_min, int64_max; lia).
    split_and!; [lia|lia|done].
  - rewrite wrap64_id in Hs by (unfold is_int64, int64_min, int64_max; lia).
    rewrite (wrap64_id (height + 1 - 1 - _)) by (unfold is_int64, int64_min, int64_max; lia).
    split_and!; [lia|lia|done].
Qed.

(** ** Storing a rollup *)

Lemma sorted_addresses vs :
  GetAllRegisteredNodesSorted vs ≡ₚ map cv_CometAddress (List.filter (fun v => negb (cv_Jailed v)) vs).
Proof using. apply merge_sort_Permutation. Qed.

Definition unique_comet (vs : list CoreValidator) : Prop :=
  NoDup (map cv_CometAddress (List.filter (fun v => negb (cv_Jailed v)) vs)).

Definition stored_report (id : Z) (r : SlaNodeReport) : sla_node_report :=
  mkSlaReport (rep_Address r) (rep_NumBlocksProposed r) (Some id).

Lemma exec_sla_ok {A} q (f : sla_db -> option (sla_db * A)) db db' a :
  f db = Some (db', a) -> exec_sla no_faults q f db = (db', Ok a).
Proof using. intros E. unfold exec_sla. simpl. by rewrite E. Qed.

Lemma filter_filter_none {A} (p : A -> bool) l : List.filter p (List.filter (fun x => negb (p x)) l) = [].
Proof using. induction l as [|x l IH]; simpl; [done|]. destruct (p x) eqn:E; simpl; [done|]. by rewrite E. Qed.

Lemma find_snoc {A} (p : A -> bool) l x : p x = true -> exists y, List.find p (app l [x]) = Some y.
Proof using. intros Hp. induction l as [|z l [y IH]]; simpl; [rewrite Hp; eauto|]. destruct (p z); eauto. Qed.

Lemma commit_reports id reps db :
  NoDup (map rep_Address reps) ->
  (forall x, x ∈ sla_reports db -> sr_SlaRollupID x = Some id -> sr_Address x ∉ map rep_Address reps) ->
  for_each (fun r => exec_sla no_faults (QCommitReport (rep_Address r))
                       (CommitSlaNodeReport id (rep_Address r) (rep_NumBlocksProposed r))) reps db =
  (mkSlaDb (sla_rollups db) (app (sla_reports db) (map (stored_report id) reps)) (sla_next_id db), Ok tt).
Proof using.
  revert db. induction reps as [|r reps IH]; intros db Hn Hd; simpl.
  - unfold pret. rewrite app_nil_r. by destruct db.
  - apply NoDup_cons in Hn as [Hr Hn]. unfold pbind, exec_sla. simpl. unfold CommitSlaNodeReport at 1.
    destruct (existsb _ _) eqn:E.
    { exfalso. apply existsb_exists in E as (x & Hx%list_elem_of_In & [Ea%String.eqb_eq Ei]%andb_true_iff).
      apply bool_decide_eq_true in Ei. apply (Hd x Hx Ei). simpl. rewrite Ea. left. }
    rewrite IH; simpl.
    + by rewrite <- app_assoc.
    + done.
    + intros x [Hx| ->%list_elem_of_singleton]%elem_of_app Hi; simpl.
      * intros H. apply (Hd x Hx Hi). right. done.
      * done.
Qed.

Definition committed_db (ts : Timestamp) (h : string) (start end_ : Z) (reps : list SlaNodeReport) (db : sla_db) : sla_db :=
  mkSlaDb (app (sla_rollups db) [mkRollupRow (sla_next_id db) h start end_ (pg_time ts)])
    (app (List.filter (fun x => negb (is_open x)) (sla_reports db)) (map (stored_report (sla_next_id db)) reps))
    (sla_next_id db + 1).

(** Ids come from the sequence. *)
Definition ids_fresh (db : sla_db) : Prop :=
  Forall (fun r => ro_ID r < sla_next_id db) (sla_rollups db) /\
  Forall (fun x => forall id, sr_SlaRollupID x = Some id -> id < sla_next_id db) (sla_reports db).

Lemma finalize_new_rollup ts start end_ reps h db :
  ids_fresh db -> NoDup (map rep_Address reps) -> GetSlaRollupWithTimestamp (pg_time ts) db = None ->
  finalizeSlaRollup no_faults (mkSlaRollup ts start end_ reps) h db = (committed_db ts h start end_ reps db, Ok tt).
Proof using.
  intros [_ Hf] Hn Ht. unfold finalizeSlaRollup. cbn [no_faults ru_Timestamp]. rewrite Ht. unfold pbind.
  erewrite exec_sla_ok by done. erewrite exec_sla_ok by done. cbn [ru_Reports].
  rewrite commit_reports; [done|done|]. simpl. intros x [Hx _]%list_elem_of_In%filter_In Hi.
  rewrite Forall_forall in Hf. apply list_elem_of_In in Hx. specialize (Hf x Hx _ Hi). lia.
Qed.

(** Further rollups with the same timestamp are skipped. *)
Lemma finalize_known_rollups ts l db row :
  GetSlaRollupWithTimestamp (pg_time ts) db = Some row ->
  Forall (fun r => ru_Timestamp r.1 = ts) l ->
  for_each (fun r => finalizeSlaRollup no_faults r.1 r.2) l db = (db, Ok tt).
Proof using.
  intros Ht Hl. induction Hl as [|[r h] l Hr Hl IH]; simpl; [done|]. unfold pbind.
  assert (E : finalizeSlaRollup no_faults r h db = (db, Ok tt)).
  { unfold finalizeSlaRollup. simpl in *. by rewrite Hr, Ht. }
  by rewrite E.
Qed.

(** ** The invariant *)

Record block_ok (hist : list string) (db : sla_db) (b : sla_block) : Prop := {
  ok_height : sb_Height b = Z.of_nat (length hist) + 1;
  ok_small : sb_Height b < 2 ^ 31 - 1;
  ok_rollups : Forall (fun r => isValidRollup interval no_faults (sb_Validators b) db (sb_Time b) (sb_Height b) r.1 = Ok true)
                 (sb_Rollups b);
  ok_time : Forall (fun row => ro_Time row < pg_time (sb_Time b)) (sla_rollups db);
  ok_unique : unique_comet (sb_Validators b)
}.

(** Tables reached from empty ones by a chain with these proposers. *)
Inductive audited : list string -> sla_db -> Prop :=
| audited_start : audited [] (mkSlaDb [] [] 1)
| audited_block hist db b db' :
    audited hist db -> block_ok hist db b -> audit_block b db = Some db' -> audited (app hist [sb_Proposer b]) db'.

Record audit_inv (hist : list string) (db : sla_db) : Prop := {
  inv_sorted : StronglySorted earlier (sla_rollups db);
  inv_contiguous : contiguous 0 (sla_rollups db);
  inv_next : next_start 0 (sla_rollups db) <= Z.of_nat (length hist) + 1;
  inv_fresh : ids_fresh db;
  inv_ids : NoDup (map ro_ID (sla_rollups db));
  inv_counts : counts (drop (Z.to_nat (next_start 0 (sla_rollups db) - 1)) hist) (sla_reports db);
  inv_stored : forall row x, row ∈ sla_rollups db -> x ∈ sla_reports db -> sr_SlaRollupID x = Some (ro_ID row) ->
    sr_BlocksProposed x = proposed_by (sr_Address x) (blocks_between hist (ro_BlockStart row) (ro_BlockEnd row))
}.

Lemma latest_next db : StronglySorted earlier (sla_rollups db) -> contiguous 0 (sla_rollups db) ->
  next_start 0 (sla_rollups db) < 2 ^ 63 -> first_block db = next_start 0 (sla_rollups db).
Proof using.
  intros Hs Hc Hn. unfold first_block, next_start in *. rewrite latest_is_last by done.
  destruct (last (sla_rollups db)) as [r|] eqn:E; [|done]. apply last_Some_elem_of in E.
  pose proof (contiguous_ends _ _ Hc) as Hf. rewrite Forall_forall in Hf. specialize (Hf r E).
  apply wrap64_id. unfold is_int64, int64_min, int64_max. lia.
Qed.

Lemma my_reports_counts window vs db :
  counts window (sla_reports db) ->
  my_reports vs db = map (fun a => mkSlaNodeReport a (proposed_by a window)) (GetAllRegisteredNodesSorted vs).
Proof using. intros H. unfold my_reports. apply map_ext. intros a. by apply node_report_counts. Qed.

(** What the rollups of a valid block leave: nothing new, or one new rollup. *)
Lemma block_rollups hist db b :
  audit_inv hist db -> block_ok hist db b ->
  for_each (fun r => finalizeSlaRollup no_faults r.1 r.2) (sb_Rollups b) db = (db, Ok tt) \/
  exists h, next_start 0 (sla_rollups db) <= Z.of_nat (length hist) /\
    for_each (fun r => finalizeSlaRollup no_faults r.1 r.2) (sb_Rollups b) db =
    (committed_db (sb_Time b) h (next_start 0 (sla_rollups db)) (Z.of_nat (length hist)) (my_reports (sb_Validators b) db) db, Ok tt).
Proof using.
  intros [Hs Hc Hn Hf _ HC _] [Hh Hsm Hr Ht Hu]. destruct (sb_Rollups b) as [|[r h] l]; [by left|right].
  exists h. inversion_clear Hr as [|? ? Hv Hl]. apply isValidRollup_spec in Hv as (_ & Hle & Er). simpl in Er.
  rewrite latest_next in Er, Hle by (done || lia). rewrite Hh, wrap64_id in Er, Hle by (unfold is_int64, int64_min, int64_max; lia).
  replace (Z.of_nat (length hist) + 1 - 1) with (Z.of_nat (length hist)) in Er, Hle by lia.
  split; [done|]. simpl. unfold pbind. rewrite Er, finalize_new_rollup; [|done| |].
  - destruct (find_snoc (fun row => ro_Time row =? pg_time (sb_Time b)) (sla_rollups db)
      (mkRollupRow (sla_next_id db) h (next_start 0 (sla_rollups db)) (Z.of_nat (length hist)) (pg_time (sb_Time b))))
      as [row Hrow]; [apply Z.eqb_refl|].
    eapply (finalize_known_rollups _ _ _ row); [exact Hrow|].
    eapply Forall_impl; [exact Hl|]. intros [r' h'] (_ & _ & E)%isValidRollup_spec. simpl in *. by rewrite E.
  - rewrite (my_reports_counts _ _ _ HC), map_map. simpl. rewrite List.map_id. unfold unique_comet in Hu.
    by rewrite sorted_addresses.
  - unfold GetSlaRollupWithTimestamp. apply eq_None_not_Some. intros [row E].
    apply find_some in E as [Hin%list_elem_of_In E%Z.eqb_eq]. rewrite Forall_forall in Ht. specialize (Ht row Hin). lia.
Qed.

(** Counting the proposer of a block keeps the invariant. *)
Lemma count_block_inv hist db p :
  audit_inv hist db -> Z.of_nat (length hist) < 2 ^ 31 - 1 ->
  exists db', count_block p db = Some db' /\ audit_inv (app hist [p]) db'.
Proof using.
  intros [Hs Hc Hn Hf Hi HC HS] Hl.
  destruct (upsert_counts _ p _ HC) as (reports' & E & HC' & Hcl).
  { rewrite length_drop. lia. }
  unfold count_block. rewrite E. simpl. eexists. split; [done|].
  assert (Hold : forall x id, x ∈ reports' -> sr_SlaRollupID x = Some id -> x ∈ sla_reports db).
  { intros x id Hx Hid. assert (Hx' : x ∈ List.filter (fun x => negb (is_open x)) (sla_reports db)).
    { rewrite <- Hcl. apply list_elem_of_In, filter_In. split; [by apply list_elem_of_In|]. unfold is_open. by rewrite Hid. }
    apply list_elem_of_In, filter_In in Hx' as [Hx' _]. by apply list_elem_of_In. }
  split; simpl; try done.
  - rewrite length_app. simpl. lia.
  - destruct Hf as [Hf1 Hf2]. split; simpl; [done|]. rewrite Forall_forall in Hf2 |- *. intros x Hx id Hid.
    by apply (Hf2 x (Hold x id Hx Hid)).
  - rewrite window_snoc by lia. done.
  - intros row x Hrow Hx Hid. rewrite blocks_between_app.
    + apply HS; [done|by eapply Hold|done].
    + pose proof (contiguous_ends _ _ Hc) as He. rewrite Forall_forall in He. specialize (He row Hrow). lia.
Qed.

(** Storing a rollup up to the last block keeps the invariant. *)
Lemma committed_inv hist db vs ts h :
  audit_inv hist db -> next_start 0 (sla_rollups db) <= Z.of_nat (length hist) ->
  Forall (fun row => ro_Time row < pg_time ts) (sla_rollups db) ->
  audit_inv hist (committed_db ts h (next_start 0 (sla_rollups db)) (Z.of_nat (length hist)) (my_reports vs db) db).
Proof using.
  intros [Hs Hc Hn [Hf1 Hf2] Hi HC HS] Hle Ht. unfold committed_db.
  assert (En : forall r, next_start 0 (app (sla_rollups db) [r]) = ro_BlockEnd r + 1).
  { intros r. unfold next_start. by rewrite last_snoc. }
  assert (Hopen : List.filter is_open (app (List.filter (fun x => negb (is_open x)) (sla_reports db))
            (map (stored_report (sla_next_id db)) (my_reports vs db))) = []).
  { rewrite List.filter_app. rewrite (filter_filter_none is_open).
    induction (my_reports vs db) as [|x l IH]; simpl; [done|]. exact IH. }
  split; simpl; rewrite ?En; simpl.
  - by apply sorted_snoc.
  - by apply contiguous_snoc.
  - lia.
  - split; simpl.
    + apply Forall_app. split; [|by repeat constructor; simpl; lia]. eapply Forall_impl; [exact Hf1|]. simpl. lia.
    + apply Forall_forall. intros x [Hx|Hx]%elem_of_app id Hid.
      * apply list_elem_of_In, filter_In in Hx as [Hx%list_elem_of_In _]. rewrite Forall_forall in Hf2.
        specialize (Hf2 x Hx id Hid). lia.
      * apply list_elem_of_In, in_map_iff in Hx as (r & <- & _). simpl in Hid. simplify_eq. lia.
  - rewrite map_app. simpl. apply NoDup_app. split_and!; [done| |apply NoDup_singleton].
    intros id Hid ->%list_elem_of_singleton. apply list_elem_of_In, in_map_iff in Hid as (row & E & Hin%list_elem_of_In).
    rewrite Forall_forall in Hf1. specialize (Hf1 row Hin). lia.
  - replace (Z.to_nat (Z.of_nat (length hist) + 1 - 1)) with (length hist) by lia. rewrite drop_ge by lia.
    split; simpl; rewrite ?Hopen; [constructor| |by intros a Ha%elem_of_nil].
    intros x Hx Ho. exfalso. assert (Hx' : x ∈ ([] : list sla_node_report)).
    { rewrite <- Hopen. by apply elem_filter_open. } by apply elem_of_nil in Hx'.
  - intros row x [Hrow| ->%list_elem_of_singleton]%elem_of_app [Hx|Hx]%elem_of_app Hid.
    + apply list_elem_of_In, filter_In in Hx as [Hx%list_elem_of_In _]. by apply HS.
    + exfalso. apply list_elem_of_In, in_map_iff in Hx as (r & <- & _). simpl in Hid. simplify_eq.
      rewrite Forall_forall in Hf1. specialize (Hf1 row Hrow). lia.
    + exfalso. apply list_elem_of_In, filter_In in Hx as [Hx%list_elem_of_In _]. rewrite Forall_forall in Hf2.
      specialize (Hf2 x Hx _ Hid). simpl in *. lia.
    + simpl. rewrite blocks_between_all. rewrite (my_reports_counts _ _ _ HC) in Hx.
      apply list_elem_of_In, in_map_iff in Hx as (r & <- & Hr). apply in_map_iff in Hr as (a & <- & _). done.
Qed.

Lemma audit_block_inv hist db b :
  audit_inv hist db -> block_ok hist db b ->
  exists db', audit_block b db = Some db' /\ audit_inv (app hist [sb_Proposer b]) db'.
Proof using.
  intros HI Hb. unfold audit_block. pose proof (ok_height _ _ _ Hb). pose proof (ok_small _ _ _ Hb).
  destruct (block_rollups hist db b HI Hb) as [->|(h & Hle & ->)].
  - apply count_block_inv; [done|lia].
  - apply count_block_inv; [|lia]. apply committed_inv; [done|done|apply (ok_time _ _ _ Hb)].
Qed.

Lemma audited_inv hist db : audited hist db -> audit_inv hist db.
Proof using.
  induction 1 as [|hist db b db' HA IH Hb E].
  - split; simpl; [apply SSorted_nil|done|unfold next_start; simpl; lia|by split; constructor|apply NoDup_nil_2| |by intros row x Hrow%elem_of_nil].
    split; simpl; [constructor|by intros x Hx%elem_of_nil|by intros a Ha%elem_of_nil].
  - destruct (audit_block_inv hist db b IH Hb) as (db'' & E' & HI). congruence.
Qed.

(** C9 -- The rollups a chain stores account for its blocks. The chain starts from
    empty tables; its blocks have the heights 1, 2, ... below 2^31 - 1, later times
    than the stored rollups, only rollups that isValidRollup accepts, and active
    validators with distinct comet addresses ([block_ok]); no statement fails. Then the stored rollups cover the blocks from
    the first without gap or overlap, in the order of their times. Every stored report
    is the number of blocks its node proposed in the interval of its rollup. The open
    counters are one per node that proposed a block since the last rollup, each with
    the number of those blocks. *)
Theorem stored_rollups_account_for_chain hist db :
  audited hist db ->
  let start := next_start 0 (sla_rollups db) in
  let open := List.filter is_open (sla_reports db) in
  let since := drop (Z.to_nat (start - 1)) hist in
  contiguous 0 (sla_rollups db) /\ StronglySorted earlier (sla_rollups db) /\
  start <= Z.of_nat (length hist) + 1 /\
  (forall row x, row ∈ sla_rollups db -> x ∈ sla_reports db -> sr_SlaRollupID x = Some (ro_ID row) ->
     sr_BlocksProposed x = proposed_by (sr_Address x) (blocks_between hist (ro_BlockStart row) (ro_BlockEnd row))) /\
  NoDup (map sr_Address open) /\
  (forall x, x ∈ open -> sr_BlocksProposed x = proposed_by (sr_Address x) since) /\
  (forall a, a ∈ since -> a ∈ map sr_Address open).
Proof using.
  intros [Hs Hc Hn _ _ [Hd Hv Ha] Hr]%audited_inv. split_and!; try done.
  intros x [Hx Ho]%elem_filter_open. by apply Hv.
Qed.

(** The rollup built for the next block reports, for every active validator and in
    the order of their addresses, exactly the number of blocks it proposed from the end
    of the last rollup to the block before. *)
Theorem rollup_counts_proposed_blocks hist db vs ts r :
  audited hist db -> Z.of_nat (length hist) < 2 ^ 62 ->
  createRollup no_faults vs db ts (Z.of_nat (length hist) + 1) = Ok r ->
  ru_BlockStart r = next_start 0 (sla_rollups db) /\ ru_BlockEnd r = Z.of_nat (length hist) /\
  ru_Reports r = map (fun a => mkSlaNodeReport a (proposed_by a (blocks_between hist (ru_BlockStart r) (ru_BlockEnd r))))
                   (GetAllRegisteredNodesSorted vs).
Proof using.
  intros [Hs Hc Hn _ _ HC _]%audited_inv Hl [= <-]. cbn [ru_BlockStart ru_BlockEnd ru_Reports].
  change (match GetLatestSlaRollup (sla_rollups db) with Some r => _ | None => _ end) with (first_block db).
  rewrite latest_next by (done || lia). rewrite wrap64_id by (unfold is_int64, int64_min, int64_max; lia).
  replace (Z.of_nat (length hist) + 1 - 1) with (Z.of_nat (length hist)) by lia.
  rewrite blocks_between_all. split_and!; [done|done|]. by apply my_reports_counts.
Qed.

(** Auditing never stops a chain whose validators have distinct comet addresses: from
    every audited state the rollups of the next valid block are stored and its proposer
    is counted without a failing statement. *)
Theorem audit_never_blocks hist db b :
  audited hist db -> block_ok hist db b -> exists db', audit_block b db = Some db' /\ audited (app hist [sb_Proposer b]) db'.
Proof using.
  intros HA Hb. destruct (audit_block_inv hist db b (audited_inv _ _ HA) Hb) as (db' & E & _).
  exists db'. split; [done|]. by econstructor.
Qed.
End Chain.

(** ** Colliding addresses *)

Lemma commit_reports_dup id l a l' l'' db :
  exists db' e, for_each (fun r => exec_sla no_faults (QCommitReport (rep_Address r))
                       (CommitSlaNodeReport id (rep_Address r) (rep_NumBlocksProposed r)))
    (app l (a :: app l' (a :: l''))) db = (db', Err e).
Proof.
  assert (Hfail : forall m d, (exists x, x ∈ sla_reports d /\ sr_Address x = rep_Address a /\ sr_SlaRollupID x = Some id) ->
    exists d' e, for_each (fun r => exec_sla no_faults (QCommitReport (rep_Address r))
                       (CommitSlaNodeReport id (rep_Address r) (rep_NumBlocksProposed r))) (app m (a :: l'')) d = (d', Err e)).
  { induction m as [|r m IH]; intros d (x & Hx & Ea & Ei); simpl; unfold pbind, exec_sla at 1; simpl.
    - unfold CommitSlaNodeReport at 1. replace (existsb _ _) with true; [eauto|]. symmetry. apply existsb_exists.
      exists x. split; [by apply list_elem_of_In|]. rewrite Ea, String.eqb_refl, Ei. by rewrite bool_decide_true.
    - destruct (CommitSlaNodeReport _ _ _ d) as [[d' []]|] eqn:E; [|eauto]. apply IH. exists x. split; [|done].
      unfold CommitSlaNodeReport in E. destruct (existsb _ _); simplify_eq. simpl. apply elem_of_app. by left. }
  revert db. induction l as [|r l IH]; intros db; simpl; unfold pbind, exec_sla at 1; simpl.
  - destruct (CommitSlaNodeReport _ _ _ db) as [[d []]|] eqn:E; [|eauto]. apply Hfail.
    unfold CommitSlaNodeReport in E. destruct (existsb _ _); simplify_eq. simpl.
    exists (mkSlaReport (rep_Address a) (rep_NumBlocksProposed a) (Some id)). split_and!; try done.
    apply elem_of_app. right. by apply list_elem_of_singleton.
  - destruct (CommitSlaNodeReport _ _ _ db) as [[d []]|] eqn:E; [|eauto]. apply IH.
Qed.

Lemma not_NoDup_split (l : list string) :
  ~ NoDup l -> exists a l1 l2 l3, l = app l1 (a :: app l2 (a :: l3)).
Proof.
  induction l as [|x l IH]; intros H; [destruct H; apply NoDup_nil_2|].
  destruct (decide (x ∈ l)) as [Hx|Hx].
  - apply list_elem_of_split in Hx as (l2 & l3 & ->). by exists x, [], l2, l3.
  - destruct IH as (a & l1 & l2 & l3 & ->).
    + intros Hn. apply H. by apply NoDup_cons.
    + by exists a, (x :: l1), l2, l3.
Qed.

(** When two active validators share a comet address, which registration does not rule
    out, every rollup built from the table has two reports for it and storing it violates the
    unique index: finalization fails in the middle of its statements. *)
Theorem shared_comet_address_breaks_rollups vs db ts height r h :
  ~ unique_comet vs -> createRollup no_faults vs db ts height = Ok r ->
  GetSlaRollupWithTimestamp (pg_time ts) db = None ->
  exists db' e, finalizeSlaRollup no_faults r h db = (db', Err e).
Proof.
  intros Hu [= <-] Ht. unfold unique_comet in Hu. rewrite <- sorted_addresses in Hu.
  apply not_NoDup_split in Hu as (a & l1 & l2 & l3 & E). unfold finalizeSlaRollup. cbn [no_faults ru_Timestamp].
  rewrite Ht. unfold pbind. erewrite exec_sla_ok by done. erewrite exec_sla_ok by done. cbn [ru_Reports].
  rewrite E, map_app. simpl map. rewrite map_app. simpl map. apply commit_reports_dup.
Qed.

(** ** Purging *)

(** A validator is purged exactly when there are more validators than the minimum, one
    of the last eight rollups reports on it, and none of them reports a block of its. *)
Theorem purge_needs_eight_idle_rollups minValidators vs db a :
  ShouldPurgeValidatorForUnderperformance minValidators no_faults vs db a = Ok true <->
  minValidators < TotalValidators vs /\
  let recent := take 8 (merge_sort time_ge (sla_rollups db)) in
  (exists row x, row ∈ recent /\ rollup_report a db row = Some x) /\
  (forall row x, row ∈ recent -> rollup_report a db row = Some x -> sr_BlocksProposed x <= 0).
Proof.
  unfold ShouldPurgeValidatorForUnderperformance, GetRecentRollupsForNode, validatorPurgeSLAInterval. simpl.
  set (recent := take 8 _). destruct (Z.leb_spec (TotalValidators vs) minValidators).
  { split; [done|]. lia. }
  assert (H1 : existsb (fun r => match r with Some _ => true | None => false end) (map (rollup_report a db) recent) = true
    <-> exists row x, row ∈ recent /\ rollup_report a db row = Some x).
  { rewrite existsb_exists. setoid_rewrite in_map_iff. split.
    - intros (o & (row & <- & Hr%list_elem_of_In) & Ho). destruct (rollup_report a db row) eqn:E; [eauto|done].
    - intros (row & x & Hr & E). exists (Some x). split; [|done]. exists row. by rewrite list_elem_of_In in Hr. }
  assert (H2 : existsb (fun r => match r with Some x => 0 <? sr_BlocksProposed x | None => false end)
      (map (rollup_report a db) recent) = false
    <-> forall row x, row ∈ recent -> rollup_report a db row = Some x -> sr_BlocksProposed x <= 0).
  { rewrite <- not_true_iff_false, existsb_exists. setoid_rewrite in_map_iff. split.
    - intros Hn row x Hr E. apply Z.le_ngt. intros Hlt. apply Hn. exists (Some x). split; [|lia].
      exists row. by rewrite list_elem_of_In in Hr.
    - intros Hall (o & (row & <- & Hr%list_elem_of_In) & Ho). destruct (rollup_report a db row) as [x|] eqn:E; [|done].
      specialize (Hall row x Hr E). lia. }
  rewrite <- H1, <- H2. destruct (existsb _ _), (existsb _ _); simpl; split; try (intros [= ]); try tauto; try done.
  - intros (_ & _ & ?). done.
  - intros (_ & ? & _). done.
  - intros (_ & ? & _). done.
Qed.

(** ** Witnesses *)

Definition ex_validator (eth comet : string) : CoreValidator :=
  mkCoreValidator "pk" "https://n" eth comet "1" "validator" "1" "cpk" false.
Definition ex_validators : list CoreValidator := [ex_validator "0xb" "B"; ex_validator "0xa" "A"].
Definition ex_block (h : Z) (p : string) (rollups : list (SlaRollup * string)) : sla_block :=
  mkSlaBlock h (mkTimestamp (1000 + h) 0) p rollups ex_validators.
Definition ex_db2 : sla_db :=
  mkSlaDb [] [mkSlaReport "A" 2 None] 1.
Definition ex_rollup : SlaRollup :=
  mkSlaRollup (mkTimestamp 1003 0) 0 2 [mkSlaNodeReport "A" 2; mkSlaNodeReport "B" 0].
Definition ex_db3 : sla_db :=
  mkSlaDb [mkRollupRow 1 "h" 0 2 1003000000]
    [mkSlaReport "A" 2 (Some 1); mkSlaReport "B" 0 (Some 1); mkSlaReport "B" 1 None] 2.

Lemma ex_unique : unique_comet ex_validators.
Proof. apply (bool_decide_unpack _). by vm_compute. Defined.

Lemma ex_block_ok hist db h p rollups :
  h = Z.of_nat (length hist) + 1 -> (h <? 2 ^ 31 - 1) = true ->
  forallb (fun r => match isValidRollup 2 no_faults ex_validators db (mkTimestamp (1000 + h) 0) h r.1 with Ok b => b | Err _ => false end)
    rollups = true ->
  forallb (fun row => ro_Time row <? pg_time (mkTimestamp (1000 + h) 0)) (sla_rollups db) = true ->
  block_ok 2 hist db (ex_block h p rollups).
Proof.
  intros Hh Hs Hv Ht. split; simpl; [done|lia| | |apply ex_unique].
  - apply Forall_forall. intros r Hr. rewrite forallb_forall in Hv. apply list_elem_of_In in Hr. specialize (Hv r Hr).
    simpl in Hv. destruct (isValidRollup _ _ _ _ _ _ _) as [[]|]; done.
  - apply Forall_forall. intros r Hr. rewrite forallb_forall in Ht. apply list_elem_of_In in Hr. specialize (Ht r Hr). lia.
Defined.

Lemma ex_audited2 : audited 2 ["A"; "A"] ex_db2.
Proof.
  apply (audited_block 2 ["A"] (mkSlaDb [] [mkSlaReport "A" 1 None] 1) (ex_block 2 "A" [])).
  - apply (audited_block 2 [] (mkSlaDb [] [] 1) (ex_block 1 "A" [])); [constructor|by apply ex_block_ok|by vm_compute].
  - by apply ex_block_ok.
  - by vm_compute.
Defined.

Lemma ex_audited3 : audited 2 ["A"; "A"; "B"] ex_db3.
Proof.
  apply (audited_block 2 ["A"; "A"] ex_db2 (ex_block 3 "B" [(ex_rollup, "h"); (ex_rollup, "h2")])).
  - apply ex_audited2.
  - by apply ex_block_ok.
  - by vm_compute.
Defined.

Lemma own_rollup_is_the_valid_one_witness :
  isValidRollup 2 no_faults ex_validators ex_db2 (mkTimestamp 1003 0) 3 ex_rollup = Ok true.
Proof.
  assert (E : bool_decide (ex_rollup = ex_rollup) = true) by (by vm_compute). rewrite <- E.
  apply (own_rollup_is_the_valid_one 2 ltac:(lia) ex_validators ex_db2 (mkTimestamp 1003 0) 3 ex_rollup ex_rollup);
    [constructor|lia|by vm_compute|by vm_compute].
Defined.

Lemma stored_rollups_account_for_chain_witness :
  contiguous 0 (sla_rollups ex_db3) /\ next_start 0 (sla_rollups ex_db3) = 3 /\
  (forall x, x ∈ List.filter is_open (sla_reports ex_db3) -> sr_BlocksProposed x = proposed_by (sr_Address x) ["B"]).
Proof.
  destruct (stored_rollups_account_for_chain 2 ["A"; "A"; "B"] ex_db3 ex_audited3) as (H1 & _ & _ & _ & _ & H2 & _).
  split_and!; [exact H1|by vm_compute|exact H2].
Defined.

Lemma rollup_counts_proposed_blocks_witness :
  ru_Reports ex_rollup = map (fun a => mkSlaNodeReport a (proposed_by a (blocks_between ["A"; "A"] 0 2))) ["A"; "B"].
Proof.
  assert (E : createRollup no_faults ex_validators ex_db2 (mkTimestamp 1003 0) 3 = Ok ex_rollup) by (by vm_compute).
  destruct (rollup_counts_proposed_blocks 2 ["A"; "A"] ex_db2 ex_validators (mkTimestamp 1003 0) ex_rollup ex_audited2
    ltac:(vm_compute; done) E) as (_ & _ & H). rewrite H. by vm_compute.
Defined.

Lemma audit_never_blocks_witness :
  exists db', audit_block (ex_block 3 "B" [(ex_rollup, "h")]) ex_db2 = Some db' /\ audited 2 ["A"; "A"; "B"] db'.
Proof. apply (audit_never_blocks 2 ["A"; "A"] ex_db2 (ex_block 3 "B" [(ex_rollup, "h")]) ex_audited2). by apply ex_block_ok. Defined.

Lemma shared_comet_address_breaks_rollups_witness :
  exists db' e, finalizeSlaRollup no_faults
    (mkSlaRollup (mkTimestamp 1003 0) 0 2 [mkSlaNodeReport "A" 2; mkSlaNodeReport "A" 2]) "h" ex_db2 = (db', Err e).
Proof.
  apply (shared_comet_address_breaks_rollups [ex_validator "0xb" "A"; ex_validator "0xa" "A"] ex_db2 (mkTimestamp 1003 0) 3).
  - unfold unique_comet. simpl. intros [H _]%NoDup_cons. apply H. left.
  - by vm_compute.
  - by vm_compute.
Defined.
