(* ===== verification/Slash.v ===== *)
(** * Slash recommendations

    Models pkg/core/server/slash.go: a node signs a recommendation to slash a service
    provider when the missed SLAs and the amount it names are the ones the node finds
    in its own rollups.  The amount is computed in binary64 arithmetic, as the code
    does ([SpecFloat] with 53 bits of precision). *)

From stdpp Require Import base gmap strings list sorting fin_maps.
From Stdlib Require Import ZArith Lia SpecFloat Ascii.
From S2P Require Import Prelude Upgrades Crypto Validators Encoding Rendezvous Registration RegistrationProps BlockDb Rollups.

Open Scope string_scope.
Open Scope Z_scope.

(** ** float64 *)

Definition f64 (z : Z) : spec_float := binary_normalize 53 1024 z 0 false.
Definition f64_add : spec_float -> spec_float -> spec_float := SFadd 53 1024.
Definition f64_mul : spec_float -> spec_float -> spec_float := SFmul 53 1024.
Definition f64_div : spec_float -> spec_float -> spec_float := SFdiv 53 1024.

(** [int64(x)] of a float in range: truncation towards zero. *)
Definition f64_trunc (x : spec_float) : Z :=
  match x with
  | S754_finite s m e =>
      let a := if 0 <=? e then Z.pos m * 2 ^ e else Z.pos m / 2 ^ (- e) in
      if s then - a else a
  | _ => 0
  end.

(** ** Time *)

(** time.Time as nanoseconds since the epoch; timestamppb's AsTime. *)
Definition instant (t : Timestamp) : Z := tm_Seconds t * 10 ^ 9 + tm_Nanos t.

(** time.Duration saturates. *)
Definition Sub (t u : Z) : Z := Z.max (- 2 ^ 63) (Z.min (2 ^ 63 - 1) (t - u)).

Definition hour_ns : Z := 60 * 60 * 10 ^ 9.
Definition Hours (d : Z) : spec_float :=
  f64_add (f64 (Z.quot d hour_ns)) (f64_div (f64 (Z.rem d hour_ns)) (f64 hour_ns)).

Definition CalculateSlashRecommendation (startTime endTime totalEndpoints totalSlas missedSlas : Z) : Z :=
  if (totalEndpoints <=? 0) || (totalSlas <=? 0) || (missedSlas <? 0) || (totalSlas <? missedSlas)
     || negb (startTime <? endTime) then 0
  else
    let periodDays := f64_trunc (f64_div (Hours (Sub endTime startTime)) (f64 24)) in
    let amount := f64_mul (f64_mul (f64_mul (f64 200000) (f64 totalEndpoints)) (f64_div (f64 periodDays) (f64 365)))
                    (f64_div (f64 missedSlas) (f64 totalSlas)) in
    if SFleb (f64 (2 ^ 63 - 1)) amount then 2 ^ 63 - 1 else f64_trunc amount.

(** ** Messages *)

(** A timestamp field: its value and whether it carries unknown fields. *)
Record TimestampField := mkTimestampField {
  tf_Time : Timestamp;
  tf_Unknown : bool
}.

Record SlashRecommendation := mkSlash {
  sl_Address : string;
  sl_Start : option TimestampField;
  sl_End : option TimestampField;
  sl_MissedSLAs : Z;
  sl_Amount : Z;
  sl_Unknown : bool
}.

(** An endpoint registered on Ethereum. *)
Record eth_endpoint := mkEthEndpoint {
  ep_Endpoint : string;
  ep_Id : Z;
  ep_ServiceType : string;
  ep_RegisteredAt : Timestamp
}.

Definition slash_name : string := "core.v1.SlashRecommendation".

(** ** Queries *)

Definition GetNodeByEndpoint (vs : list CoreValidator) (e : string) : option CoreValidator :=
  List.find (fun v => String.eqb (cv_Endpoint v) e) vs.

(** order by event_time desc limit 1 *)
Fixpoint GetValidatorHistoryForID (spID : Z) (serviceType : string) (h : list validator_history_row) :
    option validator_history_row :=
  match h with
  | [] => None
  | r :: h' =>
      let rest := GetValidatorHistoryForID spID serviceType h' in
      if (vh_SpID r =? spID) && String.eqb (vh_ServiceType r) serviceType
      then match rest with
           | Some r' => if vh_EventTime r <? vh_EventTime r' then Some r' else Some r
           | None => Some r
           end
      else rest
  end.

(** Rows with [start < time <= end], each with its time and the blocks the node
    proposed, NULL when there is no report. *)
Definition GetRollupReportsForNodeInTimeRange (db : sla_db) (address : string) (start end_ : Z) : list (Z * option Z) :=
  map (fun r => (ro_Time r, sr_BlocksProposed <$> rollup_report address db r))
    (List.filter (fun r => (start <? ro_Time r) && (ro_Time r <=? end_)) (sla_rollups db)).

Inductive slash_query := QNodeByEndpoint (e : string) | QHistoryForID (id : Z) | QReportsInRange (a : string).

Section Slash.
Context {C : EthCrypto}.
(** proto.Marshal, ethcommon.IsHexAddress, timestamppb's CheckValid, the Ethereum
    service, the statements that fail, the node's key and chain. *)
Context (marshal_slash : SlashRecommendation -> option string) (IsHexAddress : string -> bool)
        (CheckValid : Timestamp -> bool) (endpoints_of : string -> option (list eth_endpoint))
        (fault : slash_query -> bool) (EthereumKey : option privkey) (chainID : string).

(** ** Checks *)

(** The recommendation with its timestamps, when it is well formed. *)
Definition validateSlashRecommendation (slash : option SlashRecommendation) :
    res string (SlashRecommendation * Timestamp * Timestamp) :=
  match slash with
  | None => Err "empty slash recommendation"
  | Some sl =>
      let? _ := guard_err (sl_Unknown sl) "unknown fields in slash recommendation" in
      match sl_Start sl with
      | None => Err "missing slash timestamp"
      | Some start =>
          let? _ := guard_err (tf_Unknown start) "unknown fields in slash recommendation" in
          match sl_End sl with
          | None => Err "missing slash timestamp"
          | Some end_ =>
              let? _ := guard_err (tf_Unknown end_) "unknown fields in slash recommendation" in
              let? _ := guard_err (negb (IsHexAddress (sl_Address sl))) "invalid slash service provider address" in
              let? _ := guard_err (negb (CheckValid (tf_Time start))) "invalid slash start" in
              let? _ := guard_err (negb (CheckValid (tf_Time end_))) "invalid slash end" in
              let? _ := guard_err (negb (instant (tf_Time start) <? instant (tf_Time end_))) "slash start must precede end" in
              let? _ := guard_err ((sl_MissedSLAs sl <? 0) || (sl_Amount sl <? 0)) "negative slash amount or missed SLA count" in
              Ok (sl, tf_Time start, tf_Time end_)
          end
      end
  end.

Definition SlashRecommendationSignBytes (slash : option SlashRecommendation) : res string string :=
  let? v := validateSlashRecommendation slash in
  let? _ := guard_err (String.eqb chainID "") "missing slash chain ID" in
  match marshal_slash v.1.1 with
  | Some payload => Ok (domain_bytes chainID slash_name payload)
  | None => Err "marshal failed"
  end.

Definition SignSlashRecommendation (slash : option SlashRecommendation) : res string string :=
  match EthereumKey with
  | None => Err "empty eth key"
  | Some key =>
      match SlashRecommendationSignBytes slash with
      | Err e => Err ("could not marshal slash recommendation: " +:+ e)
      | Ok slashBytes =>
          match EthSign key slashBytes with
          | Some signature => Ok signature
          | None => Err "failed to sign slash recommendation"
          end
      end
  end.

Definition validateSlashEvidence (sl : SlashRecommendation) (start end_ totalEndpoints totalSlas missedSlas : Z) : res string unit :=
  let? _ := guard_err ((totalEndpoints <=? 0) || (totalSlas <=? 0)) "no SLA evidence for slash recommendation" in
  let? _ := guard_err (negb (sl_MissedSLAs sl =? missedSlas)) "slash missed SLA counts do not match" in
  guard_err (negb (sl_Amount sl =? CalculateSlashRecommendation start end_ totalEndpoints totalSlas missedSlas))
    "slash amounts do not match".

(** ** Evidence *)

Section Evidence.
Context (vs : list CoreValidator) (history : list validator_history_row) (db : sla_db) (start end_ : Timestamp).

(** The comet address of an endpoint, from the validators or their history. *)
Definition endpoint_address (ep : eth_endpoint) : res string string :=
  if fault (QNodeByEndpoint (ep_Endpoint ep)) then Err "failed to get validator for endpoint"
  else match GetNodeByEndpoint vs (ep_Endpoint ep) with
       | Some v => Ok (cv_CometAddress v)
       | None =>
           if fault (QHistoryForID (ep_Id ep)) then Err "failed to get validator history"
           else Ok (match GetValidatorHistoryForID (ep_Id ep) (ep_ServiceType ep) history with
                    | Some h => vh_CometAddress h
                    | None => ""
                    end)
       end.

(** The rollups that count for an endpoint: not those before its registration. *)
Definition endpoint_rollups (ep : eth_endpoint) (cometAddress : string) : list (Z * option Z) :=
  List.filter (fun r => negb (r.1 * 1000 <? instant (ep_RegisteredAt ep)))
    (GetRollupReportsForNodeInTimeRange db cometAddress (pg_time start) (pg_time end_)).

(** One iteration of the loop over the endpoints. *)
Definition add_endpoint (totals : Z * Z) (ep : eth_endpoint) : res string (Z * Z) :=
  let? cometAddress := endpoint_address ep in
  if fault (QReportsInRange cometAddress) then Err "failed to get rollups"
  else
    Ok (fold_left (fun t r => (t.1 + 1, if default 0 r.2 =? 0 then t.2 + 1 else t.2))
          (endpoint_rollups ep cometAddress) totals).

Fixpoint add_endpoints (totals : Z * Z) (eps : list eth_endpoint) : res string (Z * Z) :=
  match eps with
  | [] => Ok totals
  | ep :: eps' => let? totals' := add_endpoint totals ep in add_endpoints totals' eps'
  end.
End Evidence.

Definition getSlashAttestation (vs : list CoreValidator) (history : list validator_history_row) (db : sla_db)
    (slash : option SlashRecommendation) : res string string :=
  let? v := validateSlashRecommendation slash in
  let '(sl, start, end_) := v in
  match endpoints_of (sl_Address sl) with
  | None => Err "failed to get service provider endpoints"
  | Some [] => Err "no registered endpoints for slash recommendation"
  | Some endpoints =>
      let? totals := add_endpoints vs history db start end_ (0, 0) endpoints in
      let? _ := validateSlashEvidence sl (instant start) (instant end_) (Z.of_nat (length endpoints)) totals.1 totals.2 in
      SignSlashRecommendation slash
  end.

(** ** Gathering attestations *)

(** [ask] is the request to a peer, when the node is connected to it; the loop runs
    over the rendezvous in some order [order]. *)
Definition keep_attestation (ask : string -> option string) (payload addr : string) : option string :=
  signature ← ask addr;
  r ← EthRecover signature payload;
  if EqualFold r.2 addr then Some signature else None.

Definition endpoint_of (validators : list CoreValidator) (addr : string) : string :=
  match List.find (fun v => String.eqb (cv_EthAddress v) addr) (rev validators) with
  | Some v => cv_Endpoint v
  | None => ""
  end.

Definition gatherSlashAttestations (validators : list CoreValidator) (validators_fail : bool) (AttRegistrationRSize : Z)
    (ask : string -> option string) (order : gset string -> list string) (slash : option SlashRecommendation) :
    res string (gmap string string) :=
  let? payload := SlashRecommendationSignBytes slash in
  if validators_fail then Err "failed to get all registered nodes"
  else
    let validators := List.filter (fun v => negb (cv_Jailed v)) validators in
    let addrs := map cv_EthAddress validators in
    let amount := match slash with Some sl => sl_Amount sl | None => 0 end in
    let rendezvous := GetAttestorRendezvous sha256 addrs (be_uint64 (uwrap64 amount)) AttRegistrationRSize in
    Ok (fold_left (fun m addr => match keep_attestation ask payload addr with
                                 | Some signature => <[endpoint_of validators addr := signature]> m
                                 | None => m
                                 end) (order rendezvous) ∅).
End Slash.

(** A year of missed SLAs of one endpoint costs its minimum stake. *)
Example slash_full_year :
  CalculateSlashRecommendation 0 (365 * 24 * hour_ns) 1 1460 1460 = 200000.
Proof. vm_compute. reflexivity. Qed.

Example slash_half_missed :
  CalculateSlashRecommendation 0 (365 * 24 * hour_ns + 5) 3 4 2 = 300000.
Proof. vm_compute. reflexivity. Qed.

(** ** Properties of slash recommendations

    A signed recommendation agrees with the evidence in the node's rollups, and so
    with the blocks of the chain; its bytes are separate from every other
    attestation; gathered signatures are those of the selected validators. *)

(** ** The evidence, declaratively *)

(** The rollups an endpoint answers for, and those in which its node proposed nothing. *)
Definition answers_for (start end_ : Timestamp) (ep : eth_endpoint) (row : sla_rollup_row) : bool :=
  (pg_time start <? ro_Time row) && (ro_Time row <=? pg_time end_)
  && negb (ro_Time row * 1000 <? instant (ep_RegisteredAt ep)).

Definition idle (db : sla_db) (a : string) (row : sla_rollup_row) : bool :=
  match rollup_report a db row with
  | Some x => sr_BlocksProposed x =? 0
  | None => true
  end.

Definition slas (db : sla_db) (start end_ : Timestamp) (ep : eth_endpoint) : Z :=
  Z.of_nat (length (List.filter (answers_for start end_ ep) (sla_rollups db))).

Definition missed (db : sla_db) (start end_ : Timestamp) (ep : eth_endpoint) (a : string) : Z :=
  Z.of_nat (length (List.filter (fun row => answers_for start end_ ep row && idle db a row) (sla_rollups db))).

Definition zsum (l : list Z) : Z := fold_right Z.add 0 l.

Lemma ok_inj {E A} (a b : A) : Ok (E := E) a = Ok b -> a = b.
Proof. congruence. Qed.

Section Facts.
Context {C : EthCrypto}.
Context (marshal_slash : SlashRecommendation -> option string) (IsHexAddress : string -> bool)
        (CheckValid : Timestamp -> bool) (endpoints_of : string -> option (list eth_endpoint))
        (fault : slash_query -> bool) (EthereumKey : option privkey) (chainID : string).
Context (vs : list CoreValidator) (history : list validator_history_row) (db : sla_db).

Lemma filter_map_length {A B} (p : B -> bool) (f : A -> B) l :
  length (List.filter p (map f l)) = length (List.filter (fun x => p (f x)) l).
Proof using. induction l as [|x l IH]; simpl; [done|]. destruct (p (f x)); simpl; by rewrite IH. Qed.

Lemma fold_totals l t :
  fold_left (fun t (r : Z * option Z) => (t.1 + 1, if default 0 r.2 =? 0 then t.2 + 1 else t.2)) l t =
  (t.1 + Z.of_nat (length l), t.2 + Z.of_nat (length (List.filter (fun r => default 0 r.2 =? 0) l))).
Proof using.
  revert t. induction l as [|r l IH]; intros [a b]; cbn [fold_left length List.filter]; simpl; [f_equal; lia|].
  rewrite IH. simpl. destruct (default 0 r.2 =? 0); cbn [length]; f_equal; lia.
Qed.

Lemma filter_and {A} (p q : A -> bool) l : List.filter p (List.filter q l) = List.filter (fun x => q x && p x) l.
Proof using. induction l as [|x l IH]; simpl; [done|]. destruct (q x); simpl; [|done]. destruct (p x); by rewrite IH. Qed.

Lemma add_endpoint_spec start end_ t ep t' :
  add_endpoint fault vs history db start end_ t ep = Ok t' ->
  exists a, endpoint_address fault vs history ep = Ok a /\
  t' = (t.1 + slas db start end_ ep, t.2 + missed db start end_ ep a).
Proof using.
  unfold add_endpoint. destruct (endpoint_address fault vs history ep) as [a|e]; simpl; [|done].
  destruct (fault _); [done|]. intros [= <-]. exists a. split; [done|]. rewrite fold_totals.
  unfold endpoint_rollups, GetRollupReportsForNodeInTimeRange, slas, missed.
  f_equal; f_equal; f_equal.
  - rewrite filter_map_length, filter_and. done.
  - rewrite filter_and, filter_map_length, filter_and. f_equal. apply filter_ext. intros row. simpl.
    unfold answers_for, idle. rewrite !andb_assoc. f_equal. by destruct (rollup_report a db row).
Qed.

Lemma add_endpoints_spec start end_ t eps t' :
  add_endpoints fault vs history db start end_ t eps = Ok t' ->
  exists addrs, Forall2 (fun ep a => endpoint_address fault vs history ep = Ok a) eps addrs /\
  t' = (t.1 + zsum (map (slas db start end_) eps), t.2 + zsum (zip_with (missed db start end_) eps addrs)).
Proof using.
  revert t. induction eps as [|ep eps IH]; intros t; simpl.
  - intros [= <-]. exists []. split; [constructor|]. destruct t; simpl; f_equal; lia.
  - destruct (add_endpoint _ _ _ _ _ _ t ep) as [t1|e] eqn:E; simpl; [|done]. intros (addrs & HF & ->)%IH.
    apply add_endpoint_spec in E as (a & Ea & ->). exists (a :: addrs). split; [by constructor|]. simpl.
    f_equal; lia.
Qed.

Lemma validate_slash_ok slash v :
  validateSlashRecommendation IsHexAddress CheckValid slash = Ok v ->
  slash = Some v.1.1 /\ IsHexAddress (sl_Address v.1.1) = true /\ instant v.1.2 < instant v.2 /\
  0 <= sl_MissedSLAs v.1.1 /\ 0 <= sl_Amount v.1.1.
Proof using.
  unfold validateSlashRecommendation. destruct slash as [sl|]; [|done]. intros H.
  apply rbind_ok in H as (? & _ & H). destruct (sl_Start sl) as [start|]; [|done].
  apply rbind_ok in H as (? & _ & H). destruct (sl_End sl) as [end_|]; [|done].
  peel_checks H. simplify_eq/=. apply orb_false_iff in Hc4 as [? ?].
  split_and!; [done| |lia|lia|lia]. by destruct (IsHexAddress _).
Qed.

Lemma sign_bytes_ok slash data :
  SlashRecommendationSignBytes marshal_slash IsHexAddress CheckValid chainID slash = Ok data ->
  exists sl payload, slash = Some sl /\ marshal_slash sl = Some payload /\ chainID <> "" /\
    data = domain_bytes chainID slash_name payload.
Proof using.
  unfold SlashRecommendationSignBytes. intros H. apply rbind_ok in H as (v & Hv%validate_slash_ok & H).
  destruct Hv as (-> & _). apply rbind_ok in H as (? & Hc%guard_err_ok & H).
  destruct (marshal_slash v.1.1) as [payload|] eqn:E; simplify_eq. exists v.1.1, payload. split_and!; try done.
  by apply String.eqb_neq in Hc.
Qed.

(** A node signs a slash recommendation only if, over the endpoints the provider has
    on Ethereum and the rollups since their registration, the missed SLAs are exactly those
    in which the endpoint's node has no block in the node's own tables, there is at least
    one SLA, and the amount is the one the formula gives; and when the tables come from a
    chain of valid blocks, a reported miss is a rollup in whose interval the node proposed
    no block. *)
Theorem signed_slash_has_evidence interval hist sl sig :
  audited interval hist db ->
  getSlashAttestation marshal_slash IsHexAddress CheckValid endpoints_of fault EthereumKey chainID vs history db (Some sl) = Ok sig ->
  (exists start end_ eps addrs,
    endpoints_of (sl_Address sl) = Some eps /\ Forall2 (fun ep a => endpoint_address fault vs history ep = Ok a) eps addrs /\
    instant start < instant end_ /\ 0 < zsum (map (slas db start end_) eps) /\
    sl_MissedSLAs sl = zsum (zip_with (missed db start end_) eps addrs) /\
    sl_Amount sl = CalculateSlashRecommendation (instant start) (instant end_) (Z.of_nat (length eps))
                     (zsum (map (slas db start end_) eps)) (sl_MissedSLAs sl)) /\
  (exists key payload, EthereumKey = Some key /\ marshal_slash sl = Some payload /\
    EthSign key (domain_bytes chainID slash_name payload) = Some sig) /\
  (forall a row x, row ∈ sla_rollups db -> rollup_report a db row = Some x ->
    idle db a row = (proposed_by a (blocks_between hist (ro_BlockStart row) (ro_BlockEnd row)) =? 0)).
Proof using.
  intros HA H. unfold getSlashAttestation in H. apply rbind_ok in H as (v & Hv & H).
  apply validate_slash_ok in Hv as ([= ->] & _ & Hlt & _). destruct v as [[sl' start] end_]. simpl in *.
  destruct (endpoints_of (sl_Address sl')) as [[|ep eps]|] eqn:Ee; [done| |done].
  apply rbind_ok in H as (t & Ht & H). apply add_endpoints_spec in Ht as (addrs & HF & ->). simpl in H.
  apply rbind_ok in H as (u & Hev & H). unfold validateSlashEvidence in Hev. peel_checks Hev.
  apply guard_err_ok in Hev. apply orb_false_iff in Hc as [_ Hc]. apply negb_false_iff, Z.eqb_eq in Hc0, Hev.
  split_and!.
  - exists start, end_, (ep :: eps), addrs. split_and!; try done; [simpl in *; lia|]. rewrite Hev, Hc0. done.
  - unfold SignSlashRecommendation in H. destruct EthereumKey as [key|]; [|done]. exists key.
    destruct (SlashRecommendationSignBytes _ _ _ _ _) as [data|e] eqn:Eb; [|done].
    apply sign_bytes_ok in Eb as (sl0 & payload & [= <-] & Em & _ & ->). exists payload.
    destruct (EthSign key _) eqn:Es; by simplify_eq.
  - intros a row y Hrow Hx. unfold idle. rewrite Hx. apply audited_inv in HA.
    unfold rollup_report in Hx. apply find_some in Hx as [Hin%list_elem_of_In Hb].
    apply andb_true_iff in Hb as [<-%String.eqb_eq Hid%bool_decide_eq_true]. by rewrite (inv_stored _ _ HA row y).
Qed.

(** The bytes of a slash recommendation determine the chain and the recommendation's
    encoding, and are never the bytes of a registration or deregistration attestation. *)
Theorem slash_bytes_are_domain_separated chain' slash slash' data (marshal_body : attestation_body -> option string) :
  Z.of_nat (String.length chainID) < 2 ^ 64 -> Z.of_nat (String.length chain') < 2 ^ 64 ->
  SlashRecommendationSignBytes marshal_slash IsHexAddress CheckValid chainID slash = Ok data ->
  (SlashRecommendationSignBytes marshal_slash IsHexAddress CheckValid chain' slash' = Ok data ->
     chainID = chain' /\ (sl ← slash; marshal_slash sl) = (sl ← slash'; marshal_slash sl)) /\
  (forall b, domainSeparatedAttestationBytes marshal_body chain' b <> Some data).
Proof using.
  intros Hc Hc' (sl & p & -> & Hp & _ & ->)%sign_bytes_ok. split.
  - unfold SlashRecommendationSignBytes. intros H.
    apply rbind_ok in H as (v & (-> & _)%validate_slash_ok & H). apply rbind_ok in H as (? & _ & H).
    destruct (marshal_slash v.1.1) as [p'|] eqn:Ep; [|done]. apply ok_inj in H.
    apply domain_bytes_inj in H as (-> & _ & ->); [|done..]. simpl. by rewrite Hp, Ep.
  - intros b. unfold domainSeparatedAttestationBytes. destruct (marshal_body b) as [p'|]; [|done]. simpl.
    intros H. apply (inj Some) in H. apply domain_bytes_inj in H as (_ & H & _); auto using body_name_nul_free. by destruct b.
Qed.

(** A signature of a member of [rv], filed under its endpoint. *)
Definition genuine (rv : gset string) (payload : string) (active : list CoreValidator) (e sig : string) : Prop :=
  exists addr pk signer, addr ∈ rv /\ EthRecover sig payload = Some (pk, signer) /\
    EqualFold signer addr = true /\ e = endpoint_of active addr.

Lemma gather_fold rv payload active ask l (m : gmap string string) e sig :
  (forall a, a ∈ l -> a ∈ rv) -> (forall e sig, m !! e = Some sig -> genuine rv payload active e sig) ->
  fold_left (fun m addr => match keep_attestation ask payload addr with
      | Some signature => <[endpoint_of active addr := signature]> m | None => m end) l m !! e = Some sig ->
  genuine rv payload active e sig.
Proof using.
  revert m. induction l as [|a l IH]; intros m0 Hl Hm0; simpl; [apply Hm0|]. apply IH; [intros b Hb; apply Hl; by right|].
  destruct (keep_attestation ask payload a) as [s|] eqn:Ek; [|exact Hm0]. intros e' sig'.
  rewrite lookup_insert_Some. intros [[<- <-]|[_ Hs]]; [|by apply Hm0]. unfold keep_attestation in Ek.
  destruct (ask a) as [s0|]; [|done]. cbn [mbind option_bind] in Ek.
  destruct (EthRecover s0 payload) as [[pk signer]|] eqn:Er; [|done]. cbn [mbind option_bind snd] in Ek.
  destruct (EqualFold signer a) eqn:Ef; [|done]. injection Ek as <-. exists a, pk, signer.
  split_and!; try done. apply Hl. left.
Qed.

(** The attestations a node gathers are signatures of the recommendation's bytes by
    validators of the rendezvous, filed under their endpoints: a peer can neither sign for
    another nor pass a signature over other bytes. *)
Theorem gathered_attestations_are_genuine validators vf rsize ask order slash m e sig :
  (forall X : gset string, order X ⊆ elements X) ->
  gatherSlashAttestations marshal_slash IsHexAddress CheckValid chainID validators vf rsize ask order slash = Ok m ->
  m !! e = Some sig ->
  exists payload addr pk signer, let active := List.filter (fun v => negb (cv_Jailed v)) validators in
    SlashRecommendationSignBytes marshal_slash IsHexAddress CheckValid chainID slash = Ok payload /\
    addr ∈ GetAttestorRendezvous sha256 (map cv_EthAddress active)
             (be_uint64 (uwrap64 (match slash with Some sl => sl_Amount sl | None => 0 end))) rsize /\
    EthRecover sig payload = Some (pk, signer) /\ EqualFold signer addr = true /\ e = endpoint_of active addr.
Proof using.
  intros Hord H Hm. unfold gatherSlashAttestations in H. apply rbind_ok in H as (payload & Hp & H).
  destruct vf; [done|]. injection H as <-. exists payload.
  set (active := List.filter _ validators) in *. set (rv := GetAttestorRendezvous _ _ _ _) in *.
  apply (gather_fold rv payload active) in Hm as (addr & pk & signer & H1 & H2 & H3 & H4).
  - exists addr, pk, signer. done.
  - intros a Ha. apply Hord in Ha. by apply elem_of_elements in Ha.
  - intros e' sig' Hs. by rewrite lookup_empty in Hs.
Qed.
End Facts.

(** ** Witnesses *)

Definition ex_endpoints (owner : string) : option (list eth_endpoint) :=
  Some [mkEthEndpoint "https://n" 1 "validator" (mkTimestamp 0 0)].
Definition ex_slash : SlashRecommendation :=
  mkSlash "0xabc" (Some (mkTimestampField (mkTimestamp 0 0) false))
    (Some (mkTimestampField (mkTimestamp 31536000 0) false)) 1 200000 false.
Definition ex_marshal_slash (sl : SlashRecommendation) : option string := Some "slash".
Definition ex_any {A} (_ : A) : bool := true.
Definition ex_none {A} (_ : A) : bool := false.

Lemma signed_slash_has_evidence_witness :
  exists sig, getSlashAttestation (C := Toy.crypto) ex_marshal_slash ex_any ex_any ex_endpoints ex_none
    (Some "k"%char) "chain" ex_validators [] ex_db3 (Some ex_slash) = Ok sig /\
  EthSign (C := Toy.crypto) "k"%char (domain_bytes "chain" slash_name "slash") = Some sig.
Proof.
  destruct (getSlashAttestation (C := Toy.crypto) ex_marshal_slash ex_any ex_any ex_endpoints ex_none
    (Some "k"%char) "chain" ex_validators [] ex_db3 (Some ex_slash)) as [sig|e] eqn:E; [|by vm_compute in E].
  exists sig. split; [done|].
  destruct (signed_slash_has_evidence (C := Toy.crypto) ex_marshal_slash ex_any ex_any ex_endpoints ex_none
    (Some "k"%char) "chain" ex_validators [] ex_db3 2 ["A"; "A"; "B"] ex_slash sig ex_audited3 E)
    as (_ & (key & payload & [= <-] & [= <-] & H) & _). exact H.
Defined.

Lemma slash_bytes_are_domain_separated_witness :
  exists data, SlashRecommendationSignBytes ex_marshal_slash ex_any ex_any "chain" (Some ex_slash) = Ok data /\
  forall b, domainSeparatedAttestationBytes ex_marshal "chain" b <> Some data.
Proof.
  eexists. split; [reflexivity|].
  eapply (slash_bytes_are_domain_separated ex_marshal_slash ex_any ex_any "chain" "chain" (Some ex_slash) None _ ex_marshal);
    [by vm_compute|by vm_compute|reflexivity].
Defined.

Definition ex_gathered : gmap string string := {["https://n" := hex_encode (Toy.repeat_byte 64 "k"%char (String Ascii.zero ""))]}.

Lemma gathered_attestations_are_genuine_witness :
  exists payload addr pk signer,
    SlashRecommendationSignBytes ex_marshal_slash ex_any ex_any "chain" (Some ex_slash) = Ok payload /\
    EthRecover (C := Toy.crypto) (hex_encode (Toy.repeat_byte 64 "k"%char (String Ascii.zero ""))) payload = Some (pk, signer) /\
    EqualFold signer addr = true.
Proof.
  destruct (gathered_attestations_are_genuine (C := Toy.crypto) ex_marshal_slash ex_any ex_any "chain"
    [ex_validator "0x6b" "A"] false 2 (fun _ => Some (hex_encode (Toy.repeat_byte 64 "k"%char (String Ascii.zero ""))))
    elements (Some ex_slash) ex_gathered "https://n" (hex_encode (Toy.repeat_byte 64 "k"%char (String Ascii.zero ""))))
    as (payload & addr & pk & signer & H1 & _ & H2 & H3 & _).
  - done.
  - by vm_compute.
  - by vm_compute.
  - by exists payload, addr, pk, signer.
Defined.
