(* ===== verification/Distribution.v ===== *)
(** * Programmable distribution

    Models pkg/core/server/files.go, ern.go, mead.go and pie.go and the validation of
    version 2 transactions (transaction_v2.go): file uploads attested by their
    uploader and a validator, and DDEX messages that create parties, resources,
    releases and deals with derived addresses.  Validation reads the committed
    tables, finalization writes through the block's transaction. *)

From stdpp Require Import base gmap strings list pretty.
From Stdlib Require Import ZArith Lia Ascii.
From S2P Require Import Prelude Upgrades Crypto Validators Encoding Rendezvous.

Open Scope string_scope.
Open Scope Z_scope.

(** ** Messages *)

Record FileUpload := mkFileUpload {
  fu_UploaderAddress : string;
  fu_UploadSignature : string;
  fu_UploadId : string;
  fu_Cid : string;
  fu_TranscodedCid : string;
  fu_ValidatorAddress : string;
  fu_ValidatorSignature : string
}.

Inductive MessageControlType :=
| CONTROL_UNSPECIFIED
| CONTROL_NEW_MESSAGE
| CONTROL_UPDATED_MESSAGE
| CONTROL_TAKEDOWN_MESSAGE
| CONTROL_TEST_MESSAGE
| CONTROL_OTHER (n : Z).

Definition control_number (t : MessageControlType) : Z :=
  match t with
  | CONTROL_UNSPECIFIED => 0
  | CONTROL_NEW_MESSAGE => 1
  | CONTROL_UPDATED_MESSAGE => 2
  | CONTROL_TAKEDOWN_MESSAGE => 3
  | CONTROL_TEST_MESSAGE => 4
  | CONTROL_OTHER n => n
  end.

(** The proprietary ids of the sender's party are pairs of namespace and id. *)
Record MessageHeader := mkMessageHeader {
  mh_MessageId : string;
  mh_ControlType : option MessageControlType;
  mh_ProprietaryIds : list (string * string)
}.

(** A sound recording has the URI of its delivery file when all messages on the way
    to it are present. *)
Inductive Resource :=
| SoundRecording (reference : string) (uri : option string)
| Image (reference : string)
| OtherResource.

Inductive Release :=
| MainRelease (reference : string)
| TrackRelease (reference : string)
| OtherRelease.

(** [Deal] with its String method stays abstract. *)
Record NewReleaseMessage (Deal : Type) := mkERN {
  ern_MessageHeader : option MessageHeader;
  ern_PartyList : list string;
  ern_ResourceList : list Resource;
  ern_ReleaseList : list Release;
  ern_DealList : list Deal
}.
Arguments mkERN {Deal}.
Arguments ern_MessageHeader {Deal}.
Arguments ern_PartyList {Deal}.
Arguments ern_ResourceList {Deal}.
Arguments ern_ReleaseList {Deal}.
Arguments ern_DealList {Deal}.

(** The payload of a message of a version 2 transaction; [P] is MEAD's and PIE's. *)
Inductive ddex_message (Deal P : Type) :=
| DdexErn (ern : option (NewReleaseMessage Deal))
| DdexMead (mead : option P)
| DdexPie (pie : option P)
| DdexOther.
Arguments DdexErn {Deal P}.
Arguments DdexMead {Deal P}.
Arguments DdexPie {Deal P}.
Arguments DdexOther {Deal P}.

Record ddex_envelope (Deal P : Type) := mkEnvelope {
  env_ChainId : string;
  env_From : string;
  env_To : string;
  env_Expiration : Z;
  env_Messages : list (ddex_message Deal P)
}.
Arguments mkEnvelope {Deal P}.
Arguments env_ChainId {Deal P}.
Arguments env_From {Deal P}.
Arguments env_To {Deal P}.
Arguments env_Expiration {Deal P}.
Arguments env_Messages {Deal P}.

(** ** Tables *)

Record core_upload := mkCoreUpload {
  cu_UploaderAddress : string;
  cu_Cid : string;
  cu_TranscodedCid : string;
  cu_Upid : string;
  cu_UploadSignature : string;
  cu_ValidatorAddress : string;
  cu_ValidatorSignature : string;
  cu_TxHash : string;
  cu_BlockHeight : Z
}.

(** A row of core_ern, core_mead or core_pie; only core_ern has a control type. *)
Record message_row := mkMessageRow {
  mr_Address : string;
  mr_TxHash : string;
  mr_Index : Z;
  mr_Sender : string;
  mr_ControlType : Z;
  mr_RawMessage : string;
  mr_RawAcknowledgment : string;
  mr_BlockHeight : Z
}.

Inductive entity_kind := EParty | EResource | ERelease | EDeal.
#[export] Instance entity_kind_eq : EqDecision entity_kind.
Proof. solve_decision. Defined.

Definition entity_name (k : entity_kind) : string :=
  match k with
  | EParty => "party"
  | EResource => "resource"
  | ERelease => "release"
  | EDeal => "deal"
  end.

Record entity_row := mkEntityRow {
  er_Address : string;
  er_ErnAddress : string;
  er_EntityType : string;
  er_EntityIndex : Z;
  er_TxHash : string;
  er_BlockHeight : Z
}.

Record dist_db := mkDistDb {
  core_uploads : list core_upload;
  core_ern : list message_row;
  core_mead : list message_row;
  core_pie : list message_row;
  core_entities : entity_kind -> list entity_row
}.

(** where cid = $1 or transcoded_cid = $1 *)
Definition GetCoreUpload (db : dist_db) (uri : string) : option core_upload :=
  List.find (fun u => String.eqb (cu_Cid u) uri || String.eqb (cu_TranscodedCid u) uri) (core_uploads db).

Inductive dist_query :=
| QCoreUpload (uri : string)
| QUploadValidators
| QInsertUpload
| QInsertERN
| QInsertEntity (k : entity_kind) (address : string)
| QInsertMEAD
| QInsertPIE.

Section Distribution.
Context {C : EthCrypto} {Deal P : Type}.
(** deal.String(), proto.Marshal of the messages, ethcommon.IsHexAddress, and the
    statements that fail. *)
Context (deal_String : Deal -> string) (marshal_upload_sig : string -> option string)
        (marshal_ern : NewReleaseMessage Deal -> option string) (marshal_payload : P -> option string)
        (marshal_ack : list (list string) -> option string) (IsHexAddress : string -> bool)
        (fault : dist_query -> bool).
(** Configuration: the feature flag and the chain. *)
Context (ProgrammableDistributionEnabled : bool) (chainID : string).

Definition exec_dist (q : dist_query) (f : dist_db -> option dist_db) : proc dist_db string unit :=
  fun db => if fault q then (db, Err "statement failed")
            else match f db with
                 | Some db' => (db', Ok tt)
                 | None => (db, Err "duplicate key")
                 end.

(** ** File uploads *)

Definition isValidFileUpload (validators : list CoreValidator) (fu : option FileUpload) : res string unit :=
  let? _ := guard_err (negb ProgrammableDistributionEnabled) "programmable distribution is not enabled in this environment" in
  match fu with
  | None => Err "file upload not present"
  | Some fu =>
      let? _ := guard_err (String.eqb (fu_UploadSignature fu) "") "no signature in file upload" in
      let? _ := guard_err (String.eqb (fu_UploaderAddress fu) "") "not uploader address" in
      let? _ := guard_err (String.eqb (fu_Cid fu) "") "no cid provided" in
      match marshal_upload_sig (fu_Cid fu) with
      | None => Err "could not marshal sig data"
      | Some sigDataBytes =>
          match EthRecover (fu_UploadSignature fu) sigDataBytes with
          | None => Err "could not recover eth key"
          | Some (_, address) =>
              let? _ := guard_err (negb (String.eqb address (fu_UploaderAddress fu))) "uploader and signer mismatch" in
              let? _ := guard_err (String.eqb (fu_TranscodedCid fu) "") "no transcoded cid provided" in
              let? _ := guard_err (String.eqb (fu_ValidatorSignature fu) "") "no validator signature provided" in
              let? _ := guard_err (String.eqb (fu_ValidatorAddress fu) "") "no validator address provided" in
              match marshal_upload_sig (fu_TranscodedCid fu) with
              | None => Err "could not marshal validator sig data"
              | Some validatorSigDataBytes =>
                  match EthRecover (fu_ValidatorSignature fu) validatorSigDataBytes with
                  | None => Err "could not recover validator eth key"
                  | Some (_, recovered) =>
                      let? _ := guard_err (negb (EqualFold recovered (fu_ValidatorAddress fu)))
                                  "validator address and signer mismatch" in
                      let? _ := guard_err (fault QUploadValidators) "could not get validators" in
                      guard_err (negb (existsb (fun v => negb (cv_Jailed v) && EqualFold (cv_EthAddress v) (fu_ValidatorAddress fu))
                                         validators))
                        "validator is not a registered content/storage node"
                  end
              end
          end
      end
  end.

Definition InsertFileUpload (u : core_upload) (db : dist_db) : option dist_db :=
  Some (mkDistDb (app (core_uploads db) [u]) (core_ern db) (core_mead db) (core_pie db) (core_entities db)).

Definition finalizeFileUpload (validators : list CoreValidator) (tx : option FileUpload) (txHash : string)
    (blockHeight : Z) : proc dist_db string unit :=
  fun db =>
    match isValidFileUpload validators tx, tx with
    | Err e, _ => (db, Err e)
    | Ok _, None => (db, Err "finalizeFileUpload called with invalid tx")
    | Ok _, Some fu =>
        exec_dist QInsertUpload
          (InsertFileUpload (mkCoreUpload (fu_UploaderAddress fu) (fu_Cid fu) (fu_TranscodedCid fu) (fu_UploadId fu)
             (fu_UploadSignature fu) (fu_ValidatorAddress fu) (fu_ValidatorSignature fu) txHash blockHeight)) db
    end.

(** ** ERN: validation *)

Definition getERNResourceReference (r : Resource) : string :=
  match r with
  | SoundRecording ref _ => ref
  | Image ref => ref
  | OtherResource => ""
  end.

Definition getERNReleaseReference (r : Release) : string :=
  match r with
  | MainRelease ref => ref
  | TrackRelease ref => ref
  | OtherRelease => ""
  end.

Definition getERNDealReference (d : Deal) : string := deal_String d.

(** The loop with the references seen so far. *)
Fixpoint unique_refs (seen : gset string) (refs : list string) : bool :=
  match refs with
  | [] => true
  | r :: refs' => if bool_decide (r ∈ seen) then false else unique_refs ({[r]} ∪ seen) refs'
  end.

Definition validateUniqueERNReferences (entityType : string) (refs : list string) : res string unit :=
  guard_err (negb (unique_refs ∅ refs)) ("duplicate ERN " +:+ entityType +:+ " reference").

Definition validateUniqueERNEntityReferences (msg : NewReleaseMessage Deal) : res string unit :=
  let? _ := validateUniqueERNReferences "party" (ern_PartyList msg) in
  let? _ := validateUniqueERNReferences "resource" (map getERNResourceReference (ern_ResourceList msg)) in
  let? _ := validateUniqueERNReferences "release" (map getERNReleaseReference (ern_ReleaseList msg)) in
  validateUniqueERNReferences "deal" (map getERNDealReference (ern_DealList msg)).

Definition OAPNamespace : string := "OAP".

(** The last OAP id that is an address. *)
Definition getERNOAPMessageSender (msg : NewReleaseMessage Deal) : string :=
  match ern_MessageHeader msg with
  | None => ""
  | Some mh => fold_left (fun a p => if String.eqb p.1 OAPNamespace && IsHexAddress p.2 then p.2 else a)
                 (mh_ProprietaryIds mh) ""
  end.

Fixpoint check_resources (committed : dist_db) (ernSender : string) (rs : list Resource) : res string unit :=
  match rs with
  | [] => Ok tt
  | SoundRecording _ (Some uri) :: rs' =>
      match (if fault (QCoreUpload uri) then None else GetCoreUpload committed uri) with
      | None => Err "file doesn't exist with cid"
      | Some upload =>
          let? _ := guard_err (negb (String.eqb (cu_UploaderAddress upload) ernSender)) "sender doesn't match uploader" in
          check_resources committed ernSender rs'
      end
  | _ :: rs' => check_resources committed ernSender rs'
  end.

Definition validateERNNewMessage (committed : dist_db) (msg : NewReleaseMessage Deal) : res string unit :=
  let? _ := guard_err (negb ProgrammableDistributionEnabled) "programmable distribution is not enabled in this environment" in
  let? _ := validateUniqueERNEntityReferences msg in
  match ern_ResourceList msg with
  | [] => Ok tt
  | rs => check_resources committed (getERNOAPMessageSender msg) rs
  end.

(** ** ERN: finalization *)

(** address text primary key *)
Definition InsertCoreEntity (k : entity_kind) (row : entity_row) (db : dist_db) : option dist_db :=
  if existsb (fun x => String.eqb (er_Address x) (er_Address row)) (core_entities db k) then None
  else Some (mkDistDb (core_uploads db) (core_ern db) (core_mead db) (core_pie db)
               (fun k' => if decide (k' = k) then app (core_entities db k) [row] else core_entities db k')).

Definition InsertCoreERN (row : message_row) (db : dist_db) : option dist_db :=
  Some (mkDistDb (core_uploads db) (app (core_ern db) [row]) (core_mead db) (core_pie db) (core_entities db)).
Definition InsertCoreMEAD (row : message_row) (db : dist_db) : option dist_db :=
  Some (mkDistDb (core_uploads db) (core_ern db) (app (core_mead db) [row]) (core_pie db) (core_entities db)).
Definition InsertCorePIE (row : message_row) (db : dist_db) : option dist_db :=
  Some (mkDistDb (core_uploads db) (core_ern db) (core_mead db) (app (core_pie db) [row]) (core_entities db)).

(** [int16(x)] and [int32(x)]. *)
Definition int16 (z : Z) : Z := (z + 2 ^ 15) mod 2 ^ 16 - 2 ^ 15.
Definition int32 (z : Z) : Z := (z + 2 ^ 31) mod 2 ^ 32 - 2 ^ 31.

(** The rows of a list of addresses, indexed from 1. *)
Definition entity_rows (k : entity_kind) (ernAddress txhash : string) (height : Z) (addrs : list string) : list entity_row :=
  imap (fun i a => mkEntityRow a ernAddress (entity_name k) (int32 (Z.of_nat i + 1)) txhash height) addrs.

Definition insert_entities (k : entity_kind) (rows : list entity_row) : proc dist_db string unit :=
  for_each (fun row => exec_dist (QInsertEntity k (er_Address row)) (InsertCoreEntity k row)) rows.

Definition message_id (txhash : string) (messageIndex : Z) (ern : NewReleaseMessage Deal) : string :=
  match ern_MessageHeader ern with
  | Some mh => if String.eqb (mh_MessageId mh) "" then txhash +:+ ":" +:+ pretty messageIndex else mh_MessageId mh
  | None => txhash +:+ ":" +:+ pretty messageIndex
  end.

(** The addresses of the entities of a kind. *)
Definition entity_addresses (k : entity_kind) (txhashBytes : string) (height messageIndex : Z)
    (ern : NewReleaseMessage Deal) : list string :=
  match k with
  | EParty => map (CreatePartyAddress txhashBytes chainID height messageIndex) (ern_PartyList ern)
  | EResource => map (fun r => CreateResourceAddress txhashBytes chainID height messageIndex (getERNResourceReference r))
                   (ern_ResourceList ern)
  | ERelease => map (fun r => CreateReleaseAddress txhashBytes chainID height messageIndex (getERNReleaseReference r))
                  (ern_ReleaseList ern)
  | EDeal => map (fun d => CreateDealAddress txhashBytes chainID height messageIndex (deal_String d)) (ern_DealList ern)
  end.

Definition finalizeERNNewMessage (height : Z) (txhash : string) (messageIndex : Z) (ern : NewReleaseMessage Deal)
    (control : MessageControlType) (sender : string) : proc dist_db string unit :=
  match HexToBytes txhash with
  | None => pfail "failed to decode txhash"
  | Some txhashBytes =>
      let ernAddress := CreateERNAddress txhashBytes chainID height messageIndex (message_id txhash messageIndex ern) in
      let addrs k := entity_addresses k txhashBytes height messageIndex ern in
      match marshal_ern ern with
      | None => pfail "failed to marshal ERN message"
      | Some rawMessage =>
          match marshal_ack [[ernAddress]; addrs EParty; addrs EResource; addrs ERelease; addrs EDeal] with
          | None => pfail "failed to marshal ERN acknowledgment"
          | Some rawAcknowledgment =>
              exec_dist QInsertERN
                (InsertCoreERN (mkMessageRow ernAddress txhash messageIndex sender (int16 (control_number control))
                   rawMessage rawAcknowledgment height)) ;;!
              insert_entities EParty (entity_rows EParty ernAddress txhash height (addrs EParty)) ;;!
              insert_entities EResource (entity_rows EResource ernAddress txhash height (addrs EResource)) ;;!
              insert_entities ERelease (entity_rows ERelease ernAddress txhash height (addrs ERelease)) ;;!
              insert_entities EDeal (entity_rows EDeal ernAddress txhash height (addrs EDeal))
          end
      end
  end.

(** Update and takedown messages are accepted and have no effect yet. *)
Definition validateERNUpdateMessage (to from : string) (ern : NewReleaseMessage Deal) : res string unit := Ok tt.
Definition finalizeERNUpdateMessage (to from : string) (ern : NewReleaseMessage Deal) : proc dist_db string unit := pret tt.
Definition validateERNTakedownMessage (ern : NewReleaseMessage Deal) : res string unit := Ok tt.
Definition finalizeERNTakedownMessage (ern : NewReleaseMessage Deal) : proc dist_db string unit := pret tt.

Definition check_first (r : res string unit) (k : proc dist_db string unit) : proc dist_db string unit :=
  match r with
  | Err e => pfail e
  | Ok _ => k
  end.

(** A message without a header is a nil dereference here; validateV2Transaction
    rejects it. *)
Definition finalizeERN (committed : dist_db) (height : Z) (txhash : string) (tx : ddex_envelope Deal P)
    (messageIndex : nat) : proc dist_db string unit :=
  match env_Messages tx !! messageIndex with
  | None => pfail "message index out of range"
  | Some (DdexErn (Some ern)) =>
      match ern_MessageHeader ern with
      | None => pfail "nil message header"
      | Some mh =>
          match mh_ControlType mh with
          | None => pfail "ERN message control type is nil"
          | Some (CONTROL_NEW_MESSAGE as ct) | Some (CONTROL_TEST_MESSAGE as ct) =>
              check_first (validateERNNewMessage committed ern)
                (finalizeERNNewMessage height txhash (Z.of_nat messageIndex) ern ct (env_From tx))
          | Some CONTROL_UPDATED_MESSAGE =>
              check_first (validateERNUpdateMessage (env_To tx) (env_From tx) ern)
                (finalizeERNUpdateMessage (env_To tx) (env_From tx) ern)
          | Some CONTROL_TAKEDOWN_MESSAGE =>
              check_first (validateERNTakedownMessage ern) (finalizeERNTakedownMessage ern)
          | Some CONTROL_UNSPECIFIED => pfail "ERN message control type is unspecified"
          | Some (CONTROL_OTHER _) => pfail "unsupported ERN message control type"
          end
      end
  | Some _ => pfail "ERN message not found"
  end.

(** ** MEAD and PIE *)

Definition validateMEADNewMessage (mead : option P) : res string unit := Ok tt.
Definition validatePIENewMessage (pie : option P) : res string unit := Ok tt.

(** The row of a MEAD or PIE message: its address is its place on the chain. *)
Definition payload_row (height : Z) (txhash : string) (messageIndex : Z) (p : P) (sender : string) : res string message_row :=
  match HexToBytes txhash with
  | None => Err "invalid txhash"
  | Some txhashBytes =>
      let address := CreateAddress txhashBytes chainID height messageIndex "" in
      match marshal_payload p, marshal_ack [[address]] with
      | None, _ => Err "failed to marshal message"
      | Some _, None => Err "failed to marshal acknowledgment"
      | Some rawMessage, Some rawAck => Ok (mkMessageRow address txhash messageIndex sender 0 rawMessage rawAck height)
      end
  end.

Definition finalizeMEADNewMessage (height : Z) (txhash : string) (messageIndex : Z) (mead : P) (sender : string) :
    proc dist_db string unit :=
  match payload_row height txhash messageIndex mead sender with
  | Err e => pfail e
  | Ok row => exec_dist QInsertMEAD (InsertCoreMEAD row)
  end.

Definition finalizePIENewMessage (height : Z) (txhash : string) (messageIndex : Z) (pie : P) (sender : string) :
    proc dist_db string unit :=
  match payload_row height txhash messageIndex pie sender with
  | Err e => pfail e
  | Ok row => exec_dist QInsertPIE (InsertCorePIE row)
  end.

Definition finalizeMEAD (height : Z) (txhash : string) (tx : ddex_envelope Deal P) (messageIndex : nat) :
    proc dist_db string unit :=
  match env_Messages tx !! messageIndex with
  | None => pfail "message index out of range"
  | Some (DdexMead (Some mead)) =>
      check_first (validateMEADNewMessage (Some mead))
        (finalizeMEADNewMessage height txhash (Z.of_nat messageIndex) mead (env_From tx))
  | Some _ => pfail "MEAD message not found"
  end.

Definition finalizePIE (height : Z) (txhash : string) (tx : ddex_envelope Deal P) (messageIndex : nat) :
    proc dist_db string unit :=
  match env_Messages tx !! messageIndex with
  | None => pfail "message index out of range"
  | Some (DdexPie (Some pie)) =>
      check_first (validatePIENewMessage (Some pie))
        (finalizePIENewMessage height txhash (Z.of_nat messageIndex) pie (env_From tx))
  | Some _ => pfail "PIE message not found"
  end.

(** ** Version 2 transactions *)

(** The goroutine of one message. *)
Definition validate_message (committed : dist_db) (to from : string) (msg : ddex_message Deal P) : res string unit :=
  match msg with
  | DdexErn None => Err "ERN message control type is nil"
  | DdexErn (Some ern) =>
      match ern_MessageHeader ern with
      | None => Err "ERN message control type is nil"
      | Some mh =>
          match mh_ControlType mh with
          | None => Err "ERN message control type is nil"
          | Some CONTROL_NEW_MESSAGE | Some CONTROL_TEST_MESSAGE => validateERNNewMessage committed ern
          | Some CONTROL_UPDATED_MESSAGE => validateERNUpdateMessage to from ern
          | Some CONTROL_TAKEDOWN_MESSAGE => validateERNTakedownMessage ern
          | Some _ => Err "unsupported ERN message control type"
          end
      end
  | DdexMead mead => validateMEADNewMessage mead
  | DdexPie pie => validatePIENewMessage pie
  | DdexOther => Ok tt
  end.

(** [None] is a transaction without an envelope or header; the error group returns
    the first error to occur, here the first in order. *)
Definition validateV2Transaction (committed : dist_db) (currentHeight : Z) (tx : option (ddex_envelope Deal P)) :
    res string unit :=
  match tx with
  | None => Err "transaction envelope is nil"
  | Some env =>
      let? _ := guard_err (negb (String.eqb (env_ChainId env) chainID)) "invalid chain id" in
      let? _ := guard_err (env_Expiration env <? currentHeight) "transaction expired" in
      fold_left (fun r msg => let? _ := r in validate_message committed (env_To env) (env_From env) msg)
        (env_Messages env) (Ok tt)
  end.

(** One message of a transaction, as finalizeV2Transaction dispatches it. *)
Definition finalize_ddex (committed : dist_db) (height : Z) (txhash : string) (tx : ddex_envelope Deal P)
    (im : nat * ddex_message Deal P) : proc dist_db string unit :=
  match im.2 with
  | DdexErn _ => finalizeERN committed height txhash tx im.1
  | DdexMead _ => finalizeMEAD height txhash tx im.1
  | DdexPie _ => finalizePIE height txhash tx im.1
  | DdexOther => pret tt
  end.

Definition finalize_envelope (committed : dist_db) (height : Z) (txhash : string) (tx : ddex_envelope Deal P) :
    proc dist_db string unit :=
  for_each (finalize_ddex committed height txhash tx) (imap pair (env_Messages tx)).
End Distribution.
