(* ===== verification/DistributionProps.v ===== *)
(** * Properties of programmable distribution

    A release message that passes validation is stored with all its entities;
    recordings come from uploads signed by their uploader and a validator. *)

From stdpp Require Import base gmap strings list pretty.
From Stdlib Require Import ZArith Lia Ascii.
From S2P Require Import Prelude Upgrades Crypto Validators Encoding Rendezvous Distribution.

Open Scope string_scope.
Open Scope Z_scope.

Lemma unique_refs_spec seen refs :
  unique_refs seen refs = true <-> NoDup refs /\ forall r, r ∈ refs -> r ∉ seen.
Proof.
  revert seen. induction refs as [|r refs IH]; intros seen; simpl.
  - split; [intros _; split; [apply NoDup_nil_2|by intros r []%elem_of_nil]|done].
  - destruct (bool_decide_reflect (r ∈ seen)) as [Hr|Hr].
    + split; [done|]. intros [_ H]. destruct (H r); [left|done].
    + rewrite IH. split.
      * intros [Hn Hs]. split.
        -- apply NoDup_cons. split; [|done]. intros Hin. apply (Hs r Hin). set_solver.
        -- intros x [->|Hx]%elem_of_cons; [done|]. specialize (Hs x Hx). set_solver.
      * intros [[Hr' Hn]%NoDup_cons Hs]. split; [done|]. intros x Hx.
        assert (x ∉ seen) by (apply Hs; by right). assert (x <> r) by (by intros ->). set_solver.
Qed.

Section Facts.
Context {C : EthCrypto} {Deal P : Type}.
Context (deal_String : Deal -> string) (marshal_upload_sig : string -> option string)
        (marshal_ern : NewReleaseMessage Deal -> option string) (marshal_payload : P -> option string)
        (marshal_ack : list (list string) -> option string) (IsHexAddress : string -> bool).
Context (enabled : bool) (chainID : string).

Definition no_dist_fault (q : dist_query) : bool := false.

Notation validate_ern := (validateERNNewMessage deal_String IsHexAddress no_dist_fault enabled).
Notation finalize_ern := (finalizeERNNewMessage deal_String marshal_ern marshal_ack no_dist_fault chainID).
Notation addresses := (entity_addresses deal_String chainID).

(** The references of the entities of a kind. *)
Definition references (k : entity_kind) (ern : NewReleaseMessage Deal) : list string :=
  match k with
  | EParty => ern_PartyList ern
  | EResource => map getERNResourceReference (ern_ResourceList ern)
  | ERelease => map getERNReleaseReference (ern_ReleaseList ern)
  | EDeal => map (getERNDealReference deal_String) (ern_DealList ern)
  end.

(** The address of a reference. *)
Definition address_of (k : entity_kind) (b : string) (height i : Z) (ref : string) : string :=
  match k with
  | EParty => CreatePartyAddress b chainID height i ref
  | EResource => CreateResourceAddress b chainID height i ref
  | ERelease => CreateReleaseAddress b chainID height i ref
  | EDeal => CreateDealAddress b chainID height i ref
  end.

Lemma addresses_of_references k b height i ern :
  addresses k b height i ern = map (address_of k b height i) (references k ern).
Proof using. destruct k; simpl; rewrite ?map_map; done. Qed.

Lemma unique_references committed ern k : validate_ern committed ern = Ok tt -> NoDup (references k ern).
Proof using.
  unfold validateERNNewMessage, validateUniqueERNEntityReferences, validateUniqueERNReferences. intros H.
  apply rbind_ok in H as (? & _ & H). apply rbind_ok in H as ([] & H & _). peel_checks H. apply guard_err_ok in H.
  apply negb_false_iff, unique_refs_spec in Hc as [? _]. apply negb_false_iff, unique_refs_spec in Hc0 as [? _].
  apply negb_false_iff, unique_refs_spec in Hc1 as [? _]. apply negb_false_iff, unique_refs_spec in H as [? _].
  by destruct k.
Qed.

Lemma NoDup_map_on {A B} (f : A -> B) l :
  NoDup l -> (forall x y, x ∈ l -> y ∈ l -> f x = f y -> x = y) -> NoDup (map f l).
Proof using.
  induction 1 as [|x l Hx Hl IH]; intros Hf; simpl; [apply NoDup_nil_2|]. apply NoDup_cons. split.
  - intros (y & E & Hy%list_elem_of_In)%list_elem_of_In%in_map_iff. apply Hx.
    rewrite (Hf x y); [done|left|by right|done].
  - apply IH. intros y z Hy Hz. apply Hf; by right.
Qed.

(** Adding rows to the table of one kind. *)
Definition add_rows (k : entity_kind) (rows : list entity_row) (db : dist_db) : dist_db :=
  mkDistDb (core_uploads db) (core_ern db) (core_mead db) (core_pie db)
    (fun k' => if decide (k' = k) then app (core_entities db k) rows else core_entities db k').

Definition db_eq (a b : dist_db) : Prop :=
  core_uploads a = core_uploads b /\ core_ern a = core_ern b /\ core_mead a = core_mead b /\ core_pie a = core_pie b /\
  forall k, core_entities a k = core_entities b k.

Lemma insert_entities_ok k rows db :
  NoDup (map er_Address rows) ->
  (forall x, x ∈ core_entities db k -> er_Address x ∉ map er_Address rows) ->
  exists db', insert_entities no_dist_fault k rows db = (db', Ok tt) /\ db_eq db' (add_rows k rows db).
Proof using.
  revert db. induction rows as [|r rows IH]; intros db Hn Hd.
  - exists db. split; [done|]. unfold db_eq, add_rows; simpl. split_and!; try done. intros k'.
    destruct (decide (k' = k)) as [->|]; [by rewrite app_nil_r|done].
  - apply NoDup_cons in Hn as [Hr Hn]. unfold insert_entities. cbn [for_each]. unfold pbind, exec_dist at 1.
    unfold no_dist_fault at 1. unfold InsertCoreEntity. destruct (existsb _ _) eqn:E.
    { exfalso. apply existsb_exists in E as (x & Hx%list_elem_of_In & Ex%String.eqb_eq). apply (Hd x Hx). rewrite Ex. left. }
    destruct (IH (add_rows k [r] db)) as (db' & E' & Heq).
    + done.
    + simpl. destruct (decide (k = k)) as [_|]; [|done].
      intros x [Hx| ->%list_elem_of_singleton]%elem_of_app; [|done]. intros H. apply (Hd x Hx). by right.
    + exists db'. split; [exact E'|]. destruct Heq as (H1 & H2 & H3 & H4 & H5). unfold db_eq, add_rows in *. simpl in *.
      split_and!; try done. intros k'. rewrite H5. destruct (decide (k' = k)); [|done].
      destruct (decide (k = k)); [|done]. by rewrite <- app_assoc.
Qed.

Lemma entity_rows_addresses k e h height addrs : map er_Address (entity_rows k e h height addrs) = addrs.
Proof using.
  unfold entity_rows. apply list_eq. intros i. rewrite list_lookup_fmap, list_lookup_imap. by destruct (addrs !! i).
Qed.

(** A release message that passes validation is stored completely: when the addresses
    of its distinct references do not collide and are new, every insert succeeds and the
    tables gain exactly the message and one row per party, resource, release and deal, in
    order and numbered from one.  The uniqueness check is thus enough to rule out key
    violations. *)
Theorem valid_release_is_stored committed height txhash i ern ct sender db b raw ack :
  validate_ern committed ern = Ok tt -> HexToBytes txhash = Some b -> marshal_ern ern = Some raw ->
  let e := CreateERNAddress b chainID height i (message_id txhash i ern) in
  let addrs k := addresses k b height i ern in
  marshal_ack [[e]; addrs EParty; addrs EResource; addrs ERelease; addrs EDeal] = Some ack ->
  (forall k r r', r ∈ references k ern -> r' ∈ references k ern ->
     address_of k b height i r = address_of k b height i r' -> r = r') ->
  (forall k x, x ∈ core_entities db k -> er_Address x ∉ addrs k) ->
  exists db', finalize_ern height txhash i ern ct sender db = (db', Ok tt) /\
    core_ern db' = app (core_ern db) [mkMessageRow e txhash i sender (int16 (control_number ct)) raw ack height] /\
    core_uploads db' = core_uploads db /\
    forall k, core_entities db' k = app (core_entities db k) (entity_rows k e txhash height (addrs k)).
Proof using.
  intros Hv Hb Hr e addrs Ha Hinj Hfresh. unfold finalizeERNNewMessage. rewrite Hb, Hr. cbv zeta.
  fold e. fold (addrs EParty) (addrs EResource) (addrs ERelease) (addrs EDeal). rewrite Ha.
  set (row := mkMessageRow e txhash i sender _ raw ack height).
  set (db1 := mkDistDb (core_uploads db) (app (core_ern db) [row]) (core_mead db) (core_pie db) (core_entities db)).
  assert (Hins : forall k d, core_entities d k = core_entities db k ->
    exists d', insert_entities no_dist_fault k (entity_rows k e txhash height (addrs k)) d = (d', Ok tt) /\
      db_eq d' (add_rows k (entity_rows k e txhash height (addrs k)) d)).
  { intros k d Hd. apply insert_entities_ok; rewrite entity_rows_addresses.
    - unfold addrs. rewrite addresses_of_references. apply NoDup_map_on; [by eapply unique_references|apply Hinj].
    - intros x Hx. rewrite Hd in Hx. by apply Hfresh. }
  unfold pbind at 1. unfold exec_dist at 1, no_dist_fault at 1, InsertCoreERN. fold row db1. unfold pbind.
  destruct (Hins EParty db1 eq_refl) as (d1 & -> & Q1). destruct Q1 as (A1 & A2 & _ & _ & A5).
  destruct (Hins EResource d1) as (d2 & -> & Q2); [rewrite A5; done|]. destruct Q2 as (B1 & B2 & _ & _ & B5).
  destruct (Hins ERelease d2) as (d3 & -> & Q3); [rewrite B5; simpl; rewrite A5; done|].
  destruct Q3 as (C1 & C2 & _ & _ & C5).
  destruct (Hins EDeal d3) as (d4 & -> & Q4); [rewrite C5; simpl; rewrite B5; simpl; rewrite A5; done|].
  destruct Q4 as (D1 & D2 & _ & _ & D5).
  exists d4. simpl in *. split_and!; [done|congruence|congruence|].
  intros k. rewrite D5. destruct k; simpl; rewrite C5; simpl; rewrite ?B5; simpl; rewrite ?A5; done.
Qed.

(** ** Uploads *)

(** The upload carries the signatures of its uploader and of its validator. *)
Definition upload_signed (u : core_upload) : Prop :=
  (exists data pk, marshal_upload_sig (cu_Cid u) = Some data /\
     EthRecover (cu_UploadSignature u) data = Some (pk, cu_UploaderAddress u)) /\
  (exists data pk a, marshal_upload_sig (cu_TranscodedCid u) = Some data /\
     EthRecover (cu_ValidatorSignature u) data = Some (pk, a) /\ EqualFold a (cu_ValidatorAddress u) = true).

Lemma valid_upload fault vs fu :
  isValidFileUpload marshal_upload_sig fault enabled vs (Some fu) = Ok tt ->
  (exists data pk, marshal_upload_sig (fu_Cid fu) = Some data /\
     EthRecover (fu_UploadSignature fu) data = Some (pk, fu_UploaderAddress fu)) /\
  (exists data pk a, marshal_upload_sig (fu_TranscodedCid fu) = Some data /\
     EthRecover (fu_ValidatorSignature fu) data = Some (pk, a) /\ EqualFold a (fu_ValidatorAddress fu) = true) /\
  exists v, v ∈ vs /\ cv_Jailed v = false /\ EqualFold (cv_EthAddress v) (fu_ValidatorAddress fu) = true.
Proof using.
  unfold isValidFileUpload. intros H. peel_checks H.
  destruct (marshal_upload_sig (fu_Cid fu)) as [d|]; [|done].
  destruct (EthRecover (fu_UploadSignature fu) d) as [[pk a]|] eqn:E1; [|done]. peel_checks H.
  apply negb_false_iff, String.eqb_eq in Hc3. subst a.
  destruct (marshal_upload_sig (fu_TranscodedCid fu)) as [d'|]; [|done].
  destruct (EthRecover (fu_ValidatorSignature fu) d') as [[pk' a']|] eqn:E2; [|done]. peel_checks H.
  apply guard_err_ok, negb_false_iff, existsb_exists in H as (v & Hv%list_elem_of_In & [Hj Hf]%andb_true_iff).
  apply negb_false_iff in Hc3. apply negb_true_iff in Hj. split_and!; eauto 8.
Qed.

(** Finalization of any transaction, in any order and with any failing statements. *)
Inductive dist_step (fault : dist_query -> bool) (committed : dist_db) : dist_db -> dist_db -> Prop :=
| step_upload vs tx h height db :
    dist_step fault committed db (finalizeFileUpload marshal_upload_sig fault enabled vs tx h height db).1
| step_envelope height h (tx : ddex_envelope Deal P) db :
    dist_step fault committed db
      (finalize_envelope deal_String marshal_ern marshal_payload marshal_ack IsHexAddress fault enabled chainID
         committed height h tx db).1.

Definition keeps_uploads {A} (p : proc dist_db string A) : Prop := forall db, core_uploads (p db).1 = core_uploads db.

Lemma keeps_bind {A B} (p : proc dist_db string A) (k : A -> proc dist_db string B) :
  keeps_uploads p -> (forall a, keeps_uploads (k a)) -> keeps_uploads (pbind p k).
Proof using.
  intros Hp Hk db. unfold pbind. specialize (Hp db). destruct (p db) as [db' [a|e]]; simpl in *; [|done].
  by rewrite (Hk a db').
Qed.

Lemma keeps_for_each {A} (f : A -> proc dist_db string unit) l : (forall a, keeps_uploads (f a)) -> keeps_uploads (for_each f l).
Proof using. intros Hf. induction l as [|a l IH]; [done|]. by apply keeps_bind. Qed.

Lemma keeps_exec fault q f : (forall db db', f db = Some db' -> core_uploads db' = core_uploads db) -> keeps_uploads (exec_dist fault q f).
Proof using.
  intros Hf db. unfold exec_dist. destruct (fault q); [done|]. destruct (f db) eqn:E; [|done]. by apply Hf.
Qed.

Lemma keeps_envelope fault committed height h (tx : ddex_envelope Deal P) :
  keeps_uploads (finalize_envelope deal_String marshal_ern marshal_payload marshal_ack IsHexAddress fault enabled chainID
    committed height h tx).
Proof using.
  assert (HE : forall k rows, keeps_uploads (insert_entities fault k rows)).
  { intros k rows. apply keeps_for_each. intros r. apply keeps_exec. unfold InsertCoreEntity. intros db db' E.
    destruct (existsb _ _); by simplify_eq. }
  apply keeps_for_each. intros [i msg]. unfold finalize_ddex. destruct msg as [ern|mead|pie|]; simpl; [| | |done].
  - unfold finalizeERN. destruct (env_Messages tx !! i) as [[[e|]| | |]|]; try done.
    destruct (ern_MessageHeader e) as [mh|]; [|done]. destruct (mh_ControlType mh) as [[]|]; try done;
    unfold check_first; destruct (validateERNNewMessage _ _ _ _ _ _); try done; unfold finalizeERNNewMessage;
    destruct (HexToBytes h); try done; destruct (marshal_ern e); try done; destruct (marshal_ack _); try done;
    repeat (apply keeps_bind; [|intros []]); try apply HE; apply keeps_exec; by intros db db' [= <-].
  - unfold finalizeMEAD. destruct (env_Messages tx !! i) as [[|[m|]| |]|]; try done. unfold check_first; simpl.
    unfold finalizeMEADNewMessage. destruct (payload_row _ _ _ _ _ _ _ _); [|done]. apply keeps_exec. by intros db db' [= <-].
  - unfold finalizePIE. destruct (env_Messages tx !! i) as [[| |[m|]|]|]; try done. unfold check_first; simpl.
    unfold finalizePIENewMessage. destruct (payload_row _ _ _ _ _ _ _ _); [|done]. apply keeps_exec. by intros db db' [= <-].
Qed.

Lemma step_keeps_signed fault committed db db' :
  dist_step fault committed db db' -> Forall upload_signed (core_uploads db) -> Forall upload_signed (core_uploads db').
Proof using.
  intros [vs tx h height db0|height h tx db0] Hf; [|by rewrite keeps_envelope].
  unfold finalizeFileUpload. destruct (isValidFileUpload _ _ _ _ _) as [[]|] eqn:E; [|done]. destruct tx as [fu|]; [|done].
  unfold exec_dist. destruct (fault QInsertUpload); [done|]. simpl. apply Forall_app. split; [done|]. constructor; [|done].
  apply valid_upload in E as (H1 & H2 & _). done.
Qed.

(** Every upload ever stored carries a valid signature of its uploader over the file
    and of a validator over the transcoded file, whatever transactions and failures made
    the tables; so every recording of a release that passes validation refers to a file
    whose uploader, the sender the release names, signed for it. *)
Theorem recordings_are_signed_uploads fault db ern ref uri :
  rtc (fun a b => exists committed, dist_step fault committed a b) (mkDistDb [] [] [] [] (fun _ => [])) db ->
  SoundRecording ref (Some uri) ∈ ern_ResourceList ern ->
  validateERNNewMessage deal_String IsHexAddress fault enabled db ern = Ok tt ->
  exists u, u ∈ core_uploads db /\ (cu_Cid u = uri \/ cu_TranscodedCid u = uri) /\
    cu_UploaderAddress u = getERNOAPMessageSender IsHexAddress ern /\ upload_signed u.
Proof using.
  intros Hr Hin Hv.
  assert (HS : Forall upload_signed (core_uploads db)).
  { remember (mkDistDb [] [] [] [] (fun _ => [])) as db0 eqn:E0.
    assert (H0 : Forall upload_signed (core_uploads db0)) by (subst; constructor). clear E0 Hv.
    induction Hr as [|a b c [committed Hst] _ IH]; [done|]. apply IH. by eapply step_keeps_signed. }
  unfold validateERNNewMessage in Hv. apply rbind_ok in Hv as (? & _ & Hv). apply rbind_ok in Hv as (? & _ & Hv).
  assert (Hc : check_resources fault db (getERNOAPMessageSender IsHexAddress ern) (ern_ResourceList ern) = Ok tt).
  { destruct (ern_ResourceList ern); [by apply elem_of_nil in Hin|done]. }
  clear Hv. induction (ern_ResourceList ern) as [|r rs IH]; [by apply elem_of_nil in Hin|].
  apply elem_of_cons in Hin as [<-|Hin].
  - simpl in Hc. destruct (fault (QCoreUpload uri)); [done|]. destruct (GetCoreUpload db uri) as [u|] eqn:E; [|done].
    apply rbind_ok in Hc as (? & Hc%guard_err_ok & _). apply negb_false_iff, String.eqb_eq in Hc.
    apply find_some in E as [Hu%list_elem_of_In He]. exists u. split_and!; [done| |done|].
    + apply orb_true_iff in He as [He|He]; apply String.eqb_eq in He; auto.
    + rewrite Forall_forall in HS. by apply HS.
  - apply IH; [done|]. simpl in Hc. destruct r as [ref' [u'|]| |]; try done.
    destruct (if fault _ then _ else _); [|done]. by apply rbind_ok in Hc as (? & _ & Hc).
Qed.
End Facts.

(** ** Witnesses *)

Definition ex_ern : NewReleaseMessage string :=
  mkERN (Some (mkMessageHeader "m" (Some CONTROL_NEW_MESSAGE) [("OAP", "0x6b")]))
    ["P1"; "P2"] [SoundRecording "R1" (Some "cid"); Image "R2"] [MainRelease "A"] ["deal"].
Definition ex_sig : string := hex_encode (Toy.repeat_byte 64 "k"%char (String zero "")).
Definition ex_upload : FileUpload := mkFileUpload "0x6b" ex_sig "up" "cid" "cid2" "0x6b" ex_sig.
Definition ex_node : CoreValidator := mkCoreValidator "pk" "https://n" "0x6B" "A" "1" "validator" "1" "cpk" false.
Definition ex_marshal1 (s : string) : option string := Some s.
Definition ex_hex (s : string) : bool := true.
Definition ex_empty : dist_db := mkDistDb [] [] [] [] (fun _ => []).
Definition ex_uploaded : dist_db :=
  (finalizeFileUpload (C := Toy.crypto) ex_marshal1 no_dist_fault true [ex_node] (Some ex_upload) "aa" 5 ex_empty).1.

Lemma valid_release_is_stored_witness :
  exists db', finalizeERNNewMessage (C := Toy.crypto) (fun d : string => d) (fun _ => Some "raw") (fun _ => Some "ack") no_dist_fault
      "chain" 7 "aa" 0 ex_ern CONTROL_NEW_MESSAGE "from" ex_empty = (db', Ok tt) /\
    map er_EntityIndex (core_entities db' EParty) = [1; 2].
Proof.
  destruct (valid_release_is_stored (C := Toy.crypto) (fun d : string => d) (fun _ => Some "raw") (fun _ => Some "ack") ex_hex
    true "chain" ex_uploaded 7 "aa" 0 ex_ern CONTROL_NEW_MESSAGE "from" ex_empty (String (ascii_of_N 170) "") "raw" "ack")
    as (db' & E & _ & _ & H).
  - by vm_compute.
  - by vm_compute.
  - done.
  - done.
  - intros k r r' Hr Hr' E.
    destruct k; cbn in Hr, Hr'; rewrite !elem_of_cons, elem_of_nil in Hr, Hr';
      destruct_or!; subst; try done; vm_compute in E; discriminate.
  - by intros k x Hx%elem_of_nil.
  - exists db'. split; [exact E|]. rewrite H. by vm_compute.
Defined.

Lemma recordings_are_signed_uploads_witness :
  exists u, u ∈ core_uploads ex_uploaded /\ cu_UploaderAddress u = "0x6b" /\ upload_signed (C := Toy.crypto) ex_marshal1 u.
Proof.
  destruct (recordings_are_signed_uploads (C := Toy.crypto) (P := unit) (fun d : string => d) ex_marshal1 (fun _ => Some "raw") (fun _ => Some "p")
    (fun _ => Some "ack") ex_hex true "chain" no_dist_fault ex_uploaded ex_ern "R1" "cid") as (u & Hu & _ & Ha & Hs).
  - eapply rtc_once. exists ex_empty. apply (step_upload (C := Toy.crypto)).
  - left.
  - by vm_compute.
  - exists u. split_and!; [done| |done]. rewrite Ha. by vm_compute.
Defined.
