(* ===== verification/NodeTxs.v ===== *)
(** * Transactions nodes submit

    Models pkg/core/server/plays.go, mediorum_operation.go and release.go with the
    payload checks of pkg/mediorum/opvalidation: plays a node reports, operations of
    the storage service's replicated log, and the empty release handlers. *)

From stdpp Require Import base gmap strings list.
From Stdlib Require Import ZArith Lia Ascii.
From S2P Require Import Prelude Upgrades AuthState AuthStores Crypto Validators AuthEnforcement.

Open Scope string_scope.
Open Scope Z_scope.

(** ** Messages *)

(** The timestamp of a play is opaque. *)
Record TrackPlay := mkTrackPlay {
  tp_UserId : string;
  tp_TrackId : string;
  tp_Timestamp : Z;
  tp_Signature : string;
  tp_City : string;
  tp_Region : string;
  tp_Country : string
}.

Record MediorumOperation := mkMediorumOperation {
  mo_Ulid : string;
  mo_Host : string;
  mo_Action : string;
  mo_Table : string;
  mo_Data : string
}.

(** The models of the replicated tables. *)
Inductive mediorum_model := Upload | StorageAndDbSize | QmAudioAnalysis | AudioPreview.

Definition model_name (m : mediorum_model) : string :=
  match m with
  | Upload => "Upload"
  | StorageAndDbSize => "StorageAndDbSize"
  | QmAudioAnalysis => "QmAudioAnalysis"
  | AudioPreview => "AudioPreview"
  end.

(** ** httputil *)

(** [regexp.MustCompile("/$").ReplaceAllString(s, "")]: at most one slash goes. *)
Fixpoint RemoveTrailingSlash (s : string) : string :=
  match s with
  | EmptyString => ""
  | String c s' =>
      match s' with
      | EmptyString => if Ascii.eqb c "/"%char then "" else s
      | _ => String c (RemoveTrailingSlash s')
      end
  end.

(** ** opvalidation *)

Section Operations.
(** ulid.ParseStrict, gorm's TableName, and whether json.Unmarshal into a slice of
    the model succeeds. *)
Context (ParseStrict : string -> bool) (TableName : string -> string)
        (unmarshal_records : mediorum_model -> string -> bool).

Definition tableNameFor (m : mediorum_model) : string := TableName (model_name m).

(** The last entry of a map literal wins. *)
Definition mediorumTableTypes (table : string) : option mediorum_model :=
  List.find (fun m => String.eqb (tableNameFor m) table) [AudioPreview; QmAudioAnalysis; StorageAndDbSize; Upload].

Definition MaxCoreOperationDataBytes : Z := 64 * 1024.

Definition ValidatePayload (action table data : string) : res string unit :=
  let? _ := guard_err (negb (existsb (String.eqb action) ["create"; "update"; "delete"]))
              "unknown mediorum operation action" in
  let? _ := guard_err (String.eqb table "") "mediorum operation missing table" in
  match mediorumTableTypes table with
  | None => Err "no type registered"
  | Some elemType =>
      let? _ := guard_err (String.length data =? 0)%nat "mediorum operation missing data" in
      guard_err (negb (unmarshal_records elemType data)) "invalid mediorum operation data"
  end.

Definition ValidateOperation (ulidValue host action table data : string) : res string unit :=
  let? _ := guard_err (String.eqb ulidValue "") "mediorum operation missing ulid" in
  let? _ := guard_err (negb (ParseStrict ulidValue)) "invalid mediorum operation ulid" in
  let? _ := guard_err (String.eqb host "") "mediorum operation missing host" in
  ValidatePayload action table data.

Definition ValidateCorePayloadSize (data : string) : res string unit :=
  guard_err (MaxCoreOperationDataBytes <? Z.of_nat (String.length data)) "mediorum operation data too large".

(** ** mediorum_operation.go *)

Definition validateMediorumOperationShape (op : option MediorumOperation) : res string unit :=
  match op with
  | None => Err "mediorum operation not present"
  | Some op => ValidateOperation (mo_Ulid op) (mo_Host op) (mo_Action op) (mo_Table op) (mo_Data op)
  end.

Definition validateMediorumOperationSubmissionSize (op : option MediorumOperation) : res string unit :=
  match op with
  | None => Ok tt
  | Some op => ValidateCorePayloadSize (mo_Data op)
  end.

Section Signed.
Context {C : EthCrypto}.
(** proto.Marshal of an operation. *)
Context (marshal_op : MediorumOperation -> option string).

Definition host_of (endpoint : string) : string := RemoveTrailingSlash (ToLower endpoint).

(** [nodes] is the answer of GetAllRegisteredNodesIncludingJailed, [None] when the
    query fails. *)
Definition isValidMediorumOperationTx (nodes : option (list CoreValidator)) (signature : string)
    (op : option MediorumOperation) : res string unit :=
  let? _ := validateMediorumOperationShape op in
  let? _ := guard_err (String.eqb signature "") "mediorum operation missing signature" in
  match op with
  | None => Err "mediorum operation not present"
  | Some op =>
      match marshal_op op with
      | None => Err "marshal mediorum operation"
      | Some bodyBytes =>
          match EthRecover signature bodyBytes with
          | None => Err "recover mediorum operation signer"
          | Some (_, signer) =>
              match nodes with
              | None => Err "load registered nodes"
              | Some nodes =>
                  guard_err (negb (existsb (fun node => String.eqb (host_of (cv_Endpoint node)) (host_of (mo_Host op))
                                                        && EqualFold (cv_EthAddress node) signer) nodes))
                    "mediorum operation signer is not registered for host"
              end
          end
      end
  end.

(** [applier] is ApplyMediorumOperation, if one is registered, on the state of the
    storage service; its error is logged. *)
Definition finalizeMediorumOperation {S} (applier : option (MediorumOperation -> string -> S -> S))
    (nodes : option (list CoreValidator)) (signature : string) (op : option MediorumOperation) (txHash : string) :
    proc S string (option MediorumOperation) :=
  fun st =>
    match isValidMediorumOperationTx nodes signature op, op, applier with
    | Err e, _, _ => (st, Err e)
    | Ok _, Some o, Some apply => (apply o txHash st, Ok op)
    | Ok _, _, _ => (st, Ok op)
    end.
End Signed.
End Operations.

(** ** plays.go *)

Definition MaxPlaysPerTransaction : Z := 1000.

Definition validatePlayTransactionShape (signature : string) (plays : option (list TrackPlay)) : res tx_error unit :=
  let reject msg := Rejection (TxRejected msg) in
  match plays with
  | None => Err (reject "play tx has no body")
  | Some plays =>
      let? _ := guard_err (length plays =? 0)%nat (reject "play tx has no plays") in
      let? _ := guard_err (MaxPlaysPerTransaction <? Z.of_nat (length plays)) (reject "play tx has too many plays") in
      let? _ := guard_err (existsb (fun p => String.eqb (tp_Signature p) "") plays) (reject "play has no signature") in
      guard_err (String.eqb signature "") (reject "play tx has no signature")
  end.

Section Plays.
Context {C : EthCrypto}.
(** proto.Marshal of a TrackPlays and go-ethereum's accounts.TextHash. *)
Context (marshal_plays : list TrackPlay -> option string) (TextHash : string -> string).

Definition recoverPlaysSigner (signature : string) (plays : list TrackPlay) : res tx_error string :=
  let reject msg := Rejection (TxRejected msg) in
  match hex_decode (TrimPrefix "0x" signature) with
  | None => Err (reject "play tx signature is not hex")
  | Some sig =>
      let? _ := guard_err (negb (String.length sig =? 65)%nat) (reject "play tx signature length") in
      match marshal_plays plays with
      | None => Err (reject "marshal plays")
      | Some body =>
          match SigToPub (TextHash (keccak256 body)) sig with
          | None => Err (reject "recover play tx signer")
          | Some pub => Ok (PubkeyToAddress pub)
          end
      end
  end.

(** [registered] is IsRegisteredNodeEthAddress, [None] when the query fails. *)
Definition isValidPlayTransaction (registered : string -> option bool) (signature : string)
    (plays : option (list TrackPlay)) : res tx_error unit :=
  let? _ := validatePlayTransactionShape signature plays in
  let? signer := recoverPlaysSigner signature (default [] plays) in
  match registered signer with
  | None => Err NodeError
  | Some r => guard_err (negb r) (Rejection (TxRejected "play tx signer is not a registered node"))
  end.
End Plays.

Definition finalizePlayTransaction (plays : option (list TrackPlay)) : res string (list TrackPlay) :=
  match plays with
  | None => Err "invalid play tx"
  | Some tx => Ok tx
  end.

(** ** release.go *)

Definition isValidReleaseTx {T} (tx : T) : res string unit := Ok tt.
Definition finalizeRelease {T} (tx : T) (txHash : string) : res string (option T) := Ok None.
