(* ===== verification/Restore.v ===== *)
(** * Restoring a database snapshot

    Models pkg/core/server/restore_persistence.go, restore_tuning.go, and
    RestoreDatabase with its tables in state_sync.go: the snapshot tables are
    emptied, loaded while UNLOGGED and made LOGGED again, under server settings that
    are put back afterwards.  pg_restore is a parameter. *)

From stdpp Require Import base gmap strings list sorting fin_maps pretty.
From Stdlib Require Import ZArith Lia Ascii.
From S2P Require Import Prelude Crypto.

Open Scope string_scope.
Open Scope Z_scope.

(** ** The database *)

(** A table: whether it is UNLOGGED, its total size, its rows (encoded). *)
Record pg_table := mkPgTable {
  pt_Unlogged : bool;
  pt_Bytes : Z;
  pt_Rows : list string
}.

Definition set_unlogged (u : bool) (t : pg_table) : pg_table := mkPgTable u (pt_Bytes t) (pt_Rows t).
Definition set_rows (rows : list string) (t : pg_table) : pg_table := mkPgTable (pt_Unlogged t) (pt_Bytes t) rows.

(** The tables of schema public, the values of postgresql.auto.conf, and the values
    of the other configuration sources. *)
Record pg_db := mkPgDb {
  pg_tables : gmap string pg_table;
  pg_auto_conf : gmap string string;
  pg_conf : string -> string
}.

Definition set_tables (ts : gmap string pg_table) (db : pg_db) : pg_db := mkPgDb ts (pg_auto_conf db) (pg_conf db).
Definition set_auto_conf (c : gmap string string) (db : pg_db) : pg_db := mkPgDb (pg_tables db) c (pg_conf db).

Definition stateSyncSnapshotTables : list string :=
  ["access_keys"; "core_app_state"; "core_auth_cids"; "core_auth_developer_apps"; "core_auth_entities";
   "core_auth_grants"; "core_auth_users"; "core_blocks"; "core_db_migrations"; "core_transactions"; "core_tx_stats";
   "core_tx_count"; "core_validators"; "management_keys"; "sla_node_reports"; "sla_rollups"; "sound_recordings";
   "storage_proof_peers"; "storage_proofs"; "track_releases"; "core_ern"; "core_mead"; "core_pie"; "core_resources";
   "core_releases"; "core_parties"; "core_deals"; "core_rewards"; "core_reward_pools"; "launchpad_authority_rm";
   "core_uploads"; "validator_history"].

Definition inSnapshot (t : string) : bool := bool_decide (t ∈ stateSyncSnapshotTables).

(** ** restore_tuning.go *)

Definition restoreSessionOptions : string := "-c synchronous_commit=off".
Definition pgoptions_prefix : string := "PGOPTIONS=".

(** The variables kept, in order, and the options. *)
Fixpoint restore_env (env : list string) (options : string) : list string :=
  match env with
  | [] => [pgoptions_prefix +:+ options]
  | kv :: env' =>
      if HasPrefix pgoptions_prefix kv then
        let existing := TrimPrefix pgoptions_prefix kv in
        restore_env env' (if String.eqb existing "" then options else existing +:+ " " +:+ restoreSessionOptions)
      else kv :: restore_env env' options
  end.

Definition pgRestoreEnv (env : list string) : list string := restore_env env restoreSessionOptions.

(** Name, value and how pg_settings reports the value. *)
Definition restoreServerSettings : list (string * string * string) :=
  [("max_wal_size", "8GB", "8192"); ("checkpoint_timeout", "1h", "3600")].

Definition quote : ascii := "039"%char.

Fixpoint double_quotes (s : string) : string :=
  match s with
  | EmptyString => ""
  | String c s' => if Ascii.eqb c quote then String c (String c (double_quotes s')) else String c (double_quotes s')
  end.

Definition quoteLiteral (s : string) : string := String quote (double_quotes s +:+ String quote "").

(** How Postgres reads a literal back: the content up to the closing quote. *)
Fixpoint unquote_body (s : string) : option string :=
  match s with
  | EmptyString => None
  | String c s' =>
      if Ascii.eqb c quote then
        match s' with
        | EmptyString => Some ""
        | String c' s'' => if Ascii.eqb c' quote then String quote <$> unquote_body s'' else None
        end
      else String c <$> unquote_body s'
  end.

Definition unquote (s : string) : option string :=
  match s with
  | String c s' => if Ascii.eqb c quote then unquote_body s' else None
  | EmptyString => None
  end.

Inductive setting_stmt :=
| AlterSystemSet (name literal : string)
| AlterSystemReset (name : string)
| ReloadConf.

Inductive restore_query :=
| QReadSetting (name : string)
| QSetting (s : setting_stmt)
| QListTables
| QUnloggedTables
| QDataDirFree
| QTruncate
| QEnsureCount.

(** The sections pg_restore runs. *)
Inductive section := PreData | Data | PostData.

Section Restore.
(** How pg_settings reports a value, foreign keys, the free bytes of the data
    directory, and the statements that fail: [alter_fails] may depend on the state
    (a full disk). *)
Context (report : string -> string -> string) (references : string -> string -> bool)
        (freeBytes : pg_db -> Z) (fault : restore_query -> bool) (alter_fails : bool -> string -> pg_db -> bool).

Definition current_setting (db : pg_db) (name : string) : string := default (pg_conf db name) (pg_auto_conf db !! name).

Definition exec_setting (s : setting_stmt) : proc pg_db string unit :=
  fun db =>
    if fault (QSetting s) then (db, Err "statement failed")
    else match s with
         | AlterSystemSet name literal =>
             match unquote literal with
             | Some v => (set_auto_conf (<[name := v]> (pg_auto_conf db)) db, Ok tt)
             | None => (db, Err "syntax error")
             end
         | AlterSystemReset name => (set_auto_conf (delete name (pg_auto_conf db)) db, Ok tt)
         | ReloadConf => (db, Ok tt)
         end.

(** A setting before the restore: name, value, whether an ALTER SYSTEM of the
    operator set it. *)
Record previous := mkPrevious {
  pv_Name : string;
  pv_Value : string;
  pv_FromAutoConf : bool
}.

Definition read_previous (db : pg_db) (st : string * string * string) : res string previous :=
  let '(name, _, setting) := st in
  if fault (QReadSetting name) then Err "read setting"
  else
    let value := current_setting db name in
    let fromAutoConf := bool_decide (is_Some (pg_auto_conf db !! name)) in
    Ok (mkPrevious name value (if String.eqb (report name value) setting then false else fromAutoConf)).

Fixpoint read_all (db : pg_db) (sts : list (string * string * string)) : res string (list previous) :=
  match sts with
  | [] => Ok []
  | st :: sts' => let? p := read_previous db st in let? ps := read_all db sts' in Ok (p :: ps)
  end.

Definition undo_stmt (p : previous) : setting_stmt :=
  if pv_FromAutoConf p then AlterSystemSet (pv_Name p) (quoteLiteral (pv_Value p)) else AlterSystemReset (pv_Name p).

(** Every statement runs, errors are collected. *)
Definition undo (prev : list previous) (db : pg_db) : pg_db :=
  fst (exec_setting ReloadConf (fold_left (fun d p => fst (exec_setting (undo_stmt p) d)) prev db)).

(** [Ok prev] is the undo function. *)
Definition applyRestoreServerSettings (db : pg_db) : pg_db * res string (list previous) :=
  match read_all db restoreServerSettings with
  | Err e => (db, Err e)
  | Ok prev =>
      match for_each (fun st => exec_setting (AlterSystemSet st.1.1 (quoteLiteral st.1.2))) restoreServerSettings db with
      | (db', Err e) => (undo prev db', Err e)
      | (db', Ok _) =>
          match exec_setting ReloadConf db' with
          | (db'', Err e) => (undo prev db'', Err e)
          | (db'', Ok _) => (db'', Ok prev)
          end
      end
  end.

(** ** restore_persistence.go *)

Definition loggedHeadroomFactor : Z := 2.
Definition autoRepairUnloggedMaxBytes : Z := 2 ^ 30.

Definition table_exists_with (p : string -> pg_table -> bool) (db : pg_db) : bool :=
  existsb (fun kv => p kv.1 kv.2) (map_to_list (pg_tables db)).

(** ALTER TABLE t SET LOGGED or UNLOGGED.  A table that has the persistence is left
    alone; a table is not made LOGGED while it references an UNLOGGED one, nor
    UNLOGGED while a LOGGED one references it. *)
Definition alter_blocked (u : bool) (t : string) (db : pg_db) : bool :=
  if u
  then table_exists_with (fun t' x => negb (String.eqb t' t) && references t' t && negb (pt_Unlogged x)) db
  else table_exists_with (fun t' x => negb (String.eqb t' t) && references t t' && pt_Unlogged x) db.

Definition alter_table (u : bool) (t : string) : proc pg_db string unit :=
  fun db =>
    match pg_tables db !! t with
    | None => (db, Err "relation does not exist")
    | Some x =>
        if alter_fails u t db then (db, Err "statement failed")
        else if Bool.eqb (pt_Unlogged x) u then (db, Ok tt)
        else if alter_blocked u t db then (db, Err "foreign key between logged and unlogged tables")
        else (set_tables (<[t := set_unlogged u x]> (pg_tables db)) db, Ok tt)
    end.

(** One pass over the remaining tables: the tables to retry and the failures. *)
Fixpoint persistence_pass (u : bool) (remaining : list string) (failures : gmap string string) (db : pg_db) :
    pg_db * list string * gmap string string :=
  match remaining with
  | [] => (db, [], failures)
  | t :: rest =>
      match alter_table u t db with
      | (db', Err e) =>
          let '(db'', next, f) := persistence_pass u rest (<[t := e]> failures) db' in (db'', t :: next, f)
      | (db', Ok _) => persistence_pass u rest (delete t failures) db'
      end
  end.

(** The loop, with fuel: [None] when it is still running. *)
Fixpoint persistence_loop (fuel : nat) (u : bool) (remaining : list string) (failures : gmap string string) (db : pg_db) :
    option (pg_db * gmap string string) :=
  match fuel with
  | O => None
  | S fuel' =>
      match remaining with
      | [] => Some (db, failures)
      | _ =>
          let '(db', next, f) := persistence_pass u remaining failures db in
          if (length next =? length remaining)%nat then Some (db', f)
          else persistence_loop fuel' u next f db'
      end
  end.

(** One pass more than there are tables is enough fuel. *)
Definition setTablesPersistence (u : bool) (tables : list string) (db : pg_db) : pg_db * gmap string string :=
  default (db, ∅) (persistence_loop (S (length tables)) u tables ∅ db).

Definition persistenceError (failures : gmap string string) : res string unit :=
  guard_err (negb (bool_decide (failures = ∅))) "could not set tables".

Definition setTablesLogged (tables : list string) : proc pg_db string unit :=
  fun db => let (db', failures) := setTablesPersistence false tables db in (db', persistenceError failures).

Record unloggedTable := mkUnloggedTable {
  ut_Name : string;
  ut_Bytes : Z
}.

(** order by size desc, name *)
Definition larger_first (a b : unloggedTable) : Prop :=
  ut_Bytes b < ut_Bytes a \/ ut_Bytes a = ut_Bytes b /\ String.le (ut_Name a) (ut_Name b).
#[export] Instance larger_first_dec : RelDecision larger_first.
Proof. intros a b. unfold larger_first. apply _. Defined.

Definition unlogged_tables (db : pg_db) : list unloggedTable :=
  map (fun kv => mkUnloggedTable kv.1 (pt_Bytes kv.2)) (List.filter (fun kv => pt_Unlogged kv.2) (map_to_list (pg_tables db))).

Definition unloggedPublicTables (db : pg_db) : res string (list unloggedTable) :=
  if fault QUnloggedTables then Err "list unlogged tables" else Ok (merge_sort larger_first (unlogged_tables db)).

Definition existingSnapshotTables (db : pg_db) : res string (list string) :=
  if fault QListTables then Err "list tables"
  else Ok (List.filter (fun t => bool_decide (is_Some (pg_tables db !! t))) stateSyncSnapshotTables).

Definition checkLoggedHeadroom (largest : unloggedTable) (free : Z) : res string unit :=
  guard_err (negb (wrap64 (ut_Bytes largest * loggedHeadroomFactor) <=? free)) "not enough free disk".

(** The first table of the largest size. *)
Definition largest_table (ts : list unloggedTable) : unloggedTable :=
  fold_left (fun largest t => if ut_Bytes largest <? ut_Bytes t then t else largest) ts (mkUnloggedTable "" 0).

Definition restoreSnapshotTablesLogged : proc pg_db string unit :=
  fun db =>
    match unloggedPublicTables db with
    | Err e => (db, Err e)
    | Ok unlogged =>
        let tables := List.filter (fun t => inSnapshot (ut_Name t)) unlogged in
        match tables with
        | [] => (db, Ok tt)
        | _ =>
            match (if fault QDataDirFree then Ok tt else checkLoggedHeadroom (largest_table tables) (freeBytes db)) with
            | Err e => (db, Err e)
            | Ok _ => setTablesLogged (map ut_Name tables) db
            end
        end
    end.

(** Logs what it cannot repair. *)
Definition repairUnloggedTables (db : pg_db) : pg_db :=
  match unloggedPublicTables db with
  | Err _ => db
  | Ok unlogged =>
      match List.filter (fun t => ut_Bytes t <=? autoRepairUnloggedMaxBytes) unlogged with
      | [] => db
      | small => fst (setTablesLogged (map ut_Name small) db)
      end
  end.

(** ** RestoreDatabase *)

(** The tables of the TRUNCATE statement, if there is one. *)
Definition truncateSnapshotTablesStmt (existing : list string) : option (list string) :=
  match List.filter inSnapshot existing with
  | [] => None
  | quoted => Some quoted
  end.

(** One TRUNCATE of all the tables, without CASCADE: it fails when another table
    references one of them. *)
Definition truncate (tables : list string) (db : pg_db) : option pg_db :=
  if fault QTruncate then None
  else if table_exists_with (fun t' _ => negb (bool_decide (t' ∈ tables)) && existsb (references t') tables) db then None
  else Some (set_tables (map_imap (fun t x => Some (if bool_decide (t ∈ tables) then set_rows [] x else x)) (pg_tables db)) db).

Definition truncate_snapshot (db : pg_db) : pg_db :=
  let existing := if fault QListTables then [] else merge_sort String.le (map fst (map_to_list (pg_tables db))) in
  match truncateSnapshotTablesStmt existing with
  | Some tables => default db (truncate tables db)
  | None => db
  end.

Definition EnsureTransactionCount : proc pg_db string unit :=
  fun db =>
    match pg_tables db !! "core_tx_count", pg_tables db !! "core_tx_stats" with
    | Some c, Some s =>
        if fault QEnsureCount then (db, Err "statement failed")
        else match pt_Rows c with
             | [] => (set_tables (<["core_tx_count" := set_rows [pretty (Z.of_nat (length (pt_Rows s)))] c]> (pg_tables db)) db, Ok tt)
             | _ => (db, Ok tt)
             end
    | _, _ => (db, Err "relation does not exist")
    end.

(** pg_restore of a section of the dump: the database it leaves and whether it
    exited with 0. *)
Context (pg_restore : section -> string -> pg_db -> pg_db * bool).

Definition restore_sections (dump : string) : proc pg_db string unit :=
  fun db =>
    let db1 := fst (pg_restore PreData dump db) in
    let db2 := truncate_snapshot db1 in
    let db3 := match existingSnapshotTables db2 with
               | Err _ => db2
               | Ok snapshotTables => fst (setTablesPersistence true snapshotTables db2)
               end in
    match pg_restore Data dump db3 with
    | (db4, false) => (db4, Err "pg_restore failed")
    | (db4, true) =>
        match restoreSnapshotTablesLogged db4 with
        | (db5, Err e) => (db5, Err e)
        | (db5, Ok _) => EnsureTransactionCount (fst (pg_restore PostData dump db5))
        end
    end.

Definition RestoreDatabase (dump : string) : proc pg_db string unit :=
  fun db =>
    let (db1, settings) := applyRestoreServerSettings db in
    let (db2, r) := restore_sections dump db1 in
    (match settings with Ok prev => undo prev db2 | Err _ => db2 end, r).
End Restore.
