(* ===== verification/RestoreProps.v ===== *)
(** * Properties of restoring a snapshot

    The loop that converts tables ends and leaves exactly the tables Postgres
    refuses; on acyclic foreign keys it converts everything; a restore that succeeds
    leaves no snapshot table UNLOGGED, touches no other table, and puts the server's
    settings back. *)

From stdpp Require Import base gmap strings list sorting fin_maps pretty.
From Stdlib Require Import ZArith Lia Ascii Sorting.Sorted.
From S2P Require Import Prelude Crypto Validators Rendezvous Restore.

Open Scope string_scope.
Open Scope Z_scope.

(** ** Converting tables *)

Section Persistence.
Context (references : string -> string -> bool) (alter_fails : bool -> string -> pg_db -> bool).
Notation alter := (alter_table references alter_fails).
Notation pass := (persistence_pass references alter_fails).
Notation loop := (persistence_loop references alter_fails).
Notation convert := (setTablesPersistence references alter_fails).

(** The only change is that some of [ts] have persistence [u]. *)
Definition changed_only (u : bool) (ts : list string) (db db' : pg_db) : Prop :=
  pg_auto_conf db' = pg_auto_conf db /\ pg_conf db' = pg_conf db /\
  forall t, pg_tables db' !! t = pg_tables db !! t \/
    t ∈ ts /\ exists x, pg_tables db !! t = Some x /\ pg_tables db' !! t = Some (set_unlogged u x).

Definition at_persistence (u : bool) (db : pg_db) (t : string) : Prop :=
  exists x, pg_tables db !! t = Some x /\ pt_Unlogged x = u.

Definition refused (u : bool) (db : pg_db) (t : string) : Prop := exists e, alter u t db = (db, Err e).

Lemma changed_only_refl u ts db : changed_only u ts db db.
Proof. split_and!; auto. Qed.

Lemma changed_only_trans u ts1 ts2 ts db1 db2 db3 :
  ts1 ⊆ ts -> ts2 ⊆ ts -> changed_only u ts1 db1 db2 -> changed_only u ts2 db2 db3 -> changed_only u ts db1 db3.
Proof.
  intros H1 H2 (A1 & B1 & C1) (A2 & B2 & C2). split_and!; [congruence..|]. intros t.
  destruct (C1 t) as [E1|(Hin1 & x & E1 & E1')], (C2 t) as [E2|(Hin2 & y & E2 & E2')].
  - left. congruence.
  - right. split; [set_solver|]. exists y. split; [congruence|done].
  - right. split; [set_solver|]. exists x. split; [done|congruence].
  - right. split; [set_solver|]. exists x. split; [done|]. rewrite E2'. rewrite E2 in E1'. by injection E1' as ->.
Qed.

Lemma at_persistence_kept u ts db db' t : changed_only u ts db db' -> at_persistence u db t -> at_persistence u db' t.
Proof.
  intros (_ & _ & H) (x & E & Hx). destruct (H t) as [E'|(_ & y & E1 & E2)].
  - exists x. by rewrite E'.
  - by exists (set_unlogged u y).
Qed.

Lemma alter_spec u t db db' r :
  alter u t db = (db', r) ->
  match r with
  | Ok _ => changed_only u [t] db db' /\ at_persistence u db' t
  | Err e => db' = db
  end.
Proof.
  unfold alter_table. destruct (pg_tables db !! t) as [x|] eqn:E; [|by intros [= <- <-]].
  destruct (alter_fails u t db); [by intros [= <- <-]|]. destruct (Bool.eqb _ u) eqn:Eu.
  { intros [= <- <-]. apply Bool.eqb_prop in Eu. split; [apply changed_only_refl|by exists x]. }
  destruct (alter_blocked _ u t db); [by intros [= <- <-]|]. intros [= <- <-]. split.
  - split_and!; [done..|]. intros t'. destruct (decide (t' = t)) as [->|Hne].
    + right. split; [set_solver|]. exists x. split; [done|]. simpl. by rewrite lookup_insert_eq.
    + left. simpl. by rewrite lookup_insert_ne.
  - exists (set_unlogged u x). simpl. by rewrite lookup_insert_eq.
Qed.

Lemma pass_spec u rem : forall f db db' next f',
  NoDup rem -> pass u rem f db = (db', next, f') ->
  changed_only u rem db db' /\ next ⊆ rem /\ NoDup next /\ (length next <= length rem)%nat /\
  (length next = length rem -> db' = db /\ next = rem /\ forall t, t ∈ rem -> refused u db t) /\
  (forall t, t ∈ rem -> t ∉ next -> at_persistence u db' t) /\
  (forall t, t ∈ rem -> is_Some (f' !! t) <-> t ∈ next) /\
  (forall t, t ∉ rem -> f' !! t = f !! t).
Proof.
  induction rem as [|t rem IH]; intros f db db' next f' Hnd; simpl.
  { intros [= <- <- <-]. split_and!; [apply changed_only_refl|done|constructor|done| |set_solver..|done].
    intros _. split_and!; [done..|set_solver]. }
  apply NoDup_cons in Hnd as [Hn Hnd]. assert (Hrem : rem ⊆ t :: rem) by (clear; set_solver).
  destruct (alter u t db) as [db1 [[]|e]] eqn:Ea.
  - intros E. pose proof (alter_spec _ _ _ _ _ Ea) as [Hc Hp].
    destruct (IH _ _ _ _ _ Hnd E) as (C1 & Hsub & Hnd' & Hlen & _ & Hconv & Hin & Hout). clear IH.
    split_and!; [|by transitivity rem|done|lia|lia| | |].
    + eapply changed_only_trans; [|exact Hrem|exact Hc|exact C1]. clear. set_solver.
    + intros t' [->|Ht']%elem_of_cons Hnext; [|by apply Hconv]. by eapply at_persistence_kept.
    + intros t' [->|Ht']%elem_of_cons; [|by apply Hin]. rewrite (Hout _ Hn), lookup_delete_eq.
      split; [by intros []|]. intros ?%Hsub. done.
    + intros t' [Hne Ht']%not_elem_of_cons. by rewrite (Hout _ Ht'), lookup_delete_ne.
  - pose proof (alter_spec _ _ _ _ _ Ea) as ->. destruct (pass u rem _ db) as [[db2 next2] f2] eqn:E.
    intros [= <- <- <-]. destruct (IH _ _ _ _ _ Hnd E) as (C1 & Hsub & Hnd' & Hlen & Heq & Hconv & Hin & Hout). clear IH.
    split_and!; [|clear -Hsub; set_solver|apply NoDup_cons; split; [by intros ?%Hsub|done]|simpl; lia| | | |].
    + eapply changed_only_trans; [|exact Hrem|apply changed_only_refl with (ts := [])|exact C1]. clear. set_solver.
    + intros [= Hl]. destruct (Heq Hl) as (-> & -> & Hr). split_and!; [done..|].
      intros t' [->|Ht']%elem_of_cons; [by exists e|by apply Hr].
    + intros t' Ht' [Hne Hnext]%not_elem_of_cons. apply Hconv; [|done]. by apply elem_of_cons in Ht' as [|].
    + intros t' [->|Ht']%elem_of_cons.
      * rewrite (Hout _ Hn), lookup_insert_eq. split; [by left|by eexists].
      * rewrite (Hin _ Ht'), elem_of_cons. split; [by right|]. intros [->|?]; [done|done].
    + intros t' [Hne Ht']%not_elem_of_cons. by rewrite (Hout _ Ht'), lookup_insert_ne.
Qed.

Lemma loop_terminates u : forall fuel rem f db,
  NoDup rem -> (length rem < fuel)%nat -> exists r, loop fuel u rem f db = Some r.
Proof.
  induction fuel as [|fuel IH]; intros rem f db Hnd Hl; [lia|]. simpl. destruct rem as [|t rem]; [by eexists|].
  destruct (pass u (t :: rem) f db) as [[db' next] f'] eqn:E. destruct (Nat.eqb_spec (length next) (length (t :: rem))).
  - by eexists.
  - destruct (pass_spec _ _ _ _ _ _ _ Hnd E) as (_ & _ & Hnd' & Hlen & _). apply IH; [done|]. simpl in *. lia.
Qed.

Lemma loop_fuel u : forall fuel fuel' rem f db r,
  (fuel <= fuel')%nat -> loop fuel u rem f db = Some r -> loop fuel' u rem f db = Some r.
Proof.
  induction fuel as [|fuel IH]; intros [|fuel'] rem f db r Hle; simpl; try done; [lia|].
  destruct rem as [|t rem]; [done|]. destruct (pass u (t :: rem) f db) as [[db' next] f'].
  destruct (_ =? _)%nat; [done|]. apply IH. lia.
Qed.

Lemma loop_convert u tables db fuel :
  NoDup tables -> (length tables < fuel)%nat -> loop fuel u tables ∅ db = Some (convert u tables db).
Proof.
  intros Hnd Hf. unfold setTablesPersistence.
  destruct (loop_terminates u (S (length tables)) tables ∅ db Hnd ltac:(lia)) as [r Hr]. rewrite Hr.
  apply (loop_fuel u (S (length tables))); [lia|done].
Qed.

Lemma loop_spec u : forall fuel rem f db db' f',
  NoDup rem -> (forall t, is_Some (f !! t) -> t ∈ rem) -> loop fuel u rem f db = Some (db', f') ->
  changed_only u rem db db' /\
  (forall t, t ∈ rem -> f' !! t = None -> at_persistence u db' t) /\
  (forall t, is_Some (f' !! t) -> t ∈ rem /\ refused u db' t).
Proof.
  induction fuel as [|fuel IH]; intros rem f db db' f' Hnd Hf; simpl; [done|]. destruct rem as [|t0 rem].
  { intros [= <- <-]. split_and!; [apply changed_only_refl|set_solver|]. intros t Ht%Hf. set_solver. }
  destruct (pass u (t0 :: rem) f db) as [[db1 next] f1] eqn:E.
  destruct (pass_spec _ _ _ _ _ _ _ Hnd E) as (C1 & Hsub & Hnd' & Hlen & Heq & Hconv & Hin & Hout).
  assert (Hdom : forall t, is_Some (f1 !! t) -> t ∈ next).
  { intros t Ht. destruct (decide (t ∈ t0 :: rem)) as [Hd|Hd]; [by apply Hin|]. rewrite Hout in Ht by done. by apply Hf in Ht. }
  destruct (Nat.eqb_spec (length next) (length (t0 :: rem))) as [Hl|Hl].
  - intros [= <- <-]. destruct (Heq Hl) as (-> & -> & Hr). split_and!; [done| |].
    + intros t Ht Hnone. assert (is_Some (f1 !! t)) as [? ?] by (by apply Hin). congruence.
    + intros t Ht%Hdom. split; [done|by apply Hr].
  - intros El. destruct (IH _ _ _ _ _ Hnd' Hdom El) as (C2 & Hc2 & Hr2). split_and!.
    + eapply changed_only_trans; [| |exact C1|exact C2]; [done|set_solver].
    + intros t Ht Hnone. destruct (decide (t ∈ next)) as [Hd|Hd]; [by apply Hc2|].
      eapply at_persistence_kept; [exact C2|by apply Hconv].
    + intros t Ht. destruct (Hr2 t Ht) as [H1 H2]. split; [set_solver|done].
Qed.

Lemma convert_spec u tables db db' failures :
  NoDup tables -> convert u tables db = (db', failures) ->
  changed_only u tables db db' /\
  (forall t, t ∈ tables -> failures !! t = None -> at_persistence u db' t) /\
  (forall t, is_Some (failures !! t) -> t ∈ tables /\ refused u db' t).
Proof.
  intros Hnd E. apply (loop_spec u (S (length tables)) tables ∅); [done|by intros t []%lookup_empty_is_Some|].
  rewrite <- E. apply loop_convert; [done|lia].
Qed.

(** The conversion of tables ends, whatever Postgres answers: every loop with more
    fuel than there are tables returns the same result, in which each table has the
    persistence asked for or is one Postgres still refuses to convert, and nothing
    else has changed. *)
Theorem table_conversion_terminates u tables db :
  NoDup tables ->
  exists db' failures,
    (forall fuel, (length tables < fuel)%nat -> loop fuel u tables ∅ db = Some (db', failures)) /\
    convert u tables db = (db', failures) /\ changed_only u tables db db' /\
    forall t, t ∈ tables -> match failures !! t with None => at_persistence u db' t | Some _ => refused u db' t end.
Proof.
  intros Hnd. destruct (convert u tables db) as [db' failures] eqn:E. exists db', failures.
  destruct (convert_spec _ _ _ _ _ Hnd E) as (Hc & Hdone & Hfail). split_and!; [|done|done|].
  - intros fuel Hf. rewrite <- E. by apply loop_convert.
  - intros t Ht. destruct (failures !! t) eqn:Ef; [|by apply Hdone]. apply Hfail. by rewrite Ef.
Qed.

(** [t'] has to be converted before [t]. *)
Definition before (u : bool) (t' t : string) : Prop := t' <> t /\ (if u then references t' t else references t t') = true.

Lemma blocked_spec u t db :
  alter_blocked references u t db = true ->
  exists t' x, pg_tables db !! t' = Some x /\ before u t' t /\ pt_Unlogged x <> u.
Proof.
  unfold alter_blocked, table_exists_with, before. destruct u; intros H; apply existsb_exists in H as ([t' x] & Hin & H);
    apply list_elem_of_In, elem_of_map_to_list in Hin; simpl in H; rewrite !andb_true_iff, negb_true_iff, String.eqb_neq in H;
    exists t', x; destruct H as [[Hne Hr] Hu]; (split_and!; [done..|]); by destruct (pt_Unlogged x).
Qed.

(** Where foreign keys have no cycles, the conversion succeeds: when statements
    fail only for the persistence of referenced tables, every table exists, and the
    tables that have to be converted first are among the ones asked for, no failure
    is left, in whatever order the tables are given. *)
Theorem acyclic_conversion_succeeds u tables db (rank : string -> nat) :
  NoDup tables -> (forall t db, alter_fails u t db = false) ->
  (forall t, t ∈ tables -> is_Some (pg_tables db !! t)) ->
  (forall t t', before u t' t -> (rank t' < rank t)%nat) ->
  (forall t t' x, t ∈ tables -> before u t' t -> pg_tables db !! t' = Some x -> pt_Unlogged x <> u -> t' ∈ tables) ->
  exists db', convert u tables db = (db', ∅) /\ forall t, t ∈ tables -> at_persistence u db' t.
Proof.
  intros Hnd Hok Hex Hrank Hclosed. destruct (convert u tables db) as [db' failures] eqn:E.
  destruct (convert_spec _ _ _ _ _ Hnd E) as ((_ & _ & Hch) & Hdone & Hfail).
  assert (Hnone : forall n t, (rank t < n)%nat -> failures !! t = None).
  { induction n as [|n IH]; intros t Hn; [lia|]. destruct (failures !! t) as [e|] eqn:Ef; [exfalso|done].
    destruct (Hfail t) as (Hin & e' & Hr); [by rewrite Ef|]. destruct (Hex t Hin) as [x Hx].
    unfold alter_table in Hr. rewrite (Hok t db') in Hr. destruct (pg_tables db' !! t) as [y|] eqn:Ey.
    2: { destruct (Hch t) as [Heq|(_ & z & _ & Hz)]; congruence. }
    destruct (Bool.eqb (pt_Unlogged y) u); [done|]. destruct (alter_blocked _ _ _ _) eqn:Eb; [|done].
    apply blocked_spec in Eb as (t' & x' & Ht' & Hbef & Hne).
    assert (t' ∈ tables) as Hin'.
    { destruct (Hch t') as [Heq|(? & _)]; [|done]. apply (Hclosed t t' x'); [done..|congruence|done]. }
    assert (failures !! t' = None) as Hf' by (apply IH; specialize (Hrank t t' Hbef); lia).
    destruct (Hdone t' Hin' Hf') as (z & Hz & Hu). congruence. }
  exists db'. split; [|intros t Ht; apply Hdone; [done|]; by apply (Hnone (S (rank t))); lia].
  f_equal. apply map_eq. intros t. rewrite lookup_empty. by apply (Hnone (S (rank t))); lia.
Qed.
End Persistence.

(** ** Settings *)

Lemma unquote_quoteLiteral s : unquote (quoteLiteral s) = Some s.
Proof.
  simpl. induction s as [|c s IH]; [done|]. simpl. destruct (Ascii.eqb_spec c quote) as [->|Hne]; simpl.
  - by rewrite IH.
  - rewrite (proj2 (Ascii.eqb_neq c quote) Hne). by rewrite IH.
Qed.

(** What pg_restore, run on a dump of the snapshot tables, is documented to do: it
    restores the objects in the archive and no others, it does not change the
    configuration, and the post-data section adds indexes and constraints only. *)
Class PgRestoreLaws (pg_restore : section -> string -> pg_db -> pg_db * bool) : Prop := {
  restore_outside s dump db t : inSnapshot t = false ->
    pg_tables (fst (pg_restore s dump db)) !! t = pg_tables db !! t;
  restore_conf s dump db :
    pg_auto_conf (fst (pg_restore s dump db)) = pg_auto_conf db /\ pg_conf (fst (pg_restore s dump db)) = pg_conf db;
  restore_post dump db t :
    pt_Unlogged <$> pg_tables (fst (pg_restore PostData dump db)) !! t = pt_Unlogged <$> pg_tables db !! t
}.

Section Restore.
Context (report : string -> string -> string) (references : string -> string -> bool)
        (freeBytes : pg_db -> Z) (fault : restore_query -> bool) (alter_fails : bool -> string -> pg_db -> bool)
        (pg_restore : section -> string -> pg_db -> pg_db * bool) `{laws : !PgRestoreLaws pg_restore}.
Notation sections := (restore_sections references freeBytes fault alter_fails pg_restore).
Notation restore := (RestoreDatabase report references freeBytes fault alter_fails pg_restore).

(** The configuration and the tables outside the snapshot are as before. *)
Definition outside_kept (db db' : pg_db) : Prop :=
  pg_auto_conf db' = pg_auto_conf db /\ pg_conf db' = pg_conf db /\
  forall t, inSnapshot t = false -> pg_tables db' !! t = pg_tables db !! t.

Lemma outside_refl db : outside_kept db db.
Proof. done. Qed.

Lemma outside_trans db1 db2 db3 : outside_kept db1 db2 -> outside_kept db2 db3 -> outside_kept db1 db3.
Proof. intros (A1 & B1 & C1) (A2 & B2 & C2). split_and!; [congruence..|]. intros t Ht. rewrite C2, C1; done. Qed.

Lemma outside_pg_restore s dump db : outside_kept db (fst (pg_restore s dump db)).
Proof using laws. destruct (restore_conf s dump db). split_and!; [done..|]. intros t. by apply restore_outside. Qed.

Lemma outside_changed u ts db db' :
  (forall t, t ∈ ts -> inSnapshot t = true) -> changed_only u ts db db' -> outside_kept db db'.
Proof.
  intros Hts (A & B & H). split_and!; [done..|]. intros t Ht. destruct (H t) as [?|(Hin & _)]; [done|].
  apply Hts in Hin. congruence.
Qed.

Lemma outside_truncate db : outside_kept db (truncate_snapshot references fault db).
Proof.
  unfold truncate_snapshot, truncateSnapshotTablesStmt. destruct (List.filter inSnapshot _) as [|t0 ts] eqn:E; [done|].
  unfold truncate. destruct (fault QTruncate); [done|]. destruct (table_exists_with _ db); [done|]. simpl.
  split_and!; [done..|]. intros t Ht. simpl. rewrite map_lookup_imap. destruct (pg_tables db !! t) eqn:El; [|done].
  simpl. rewrite bool_decide_false; [done|]. rewrite <- E. intros Hin%list_elem_of_In%filter_In. naive_solver congruence.
Qed.

Lemma elem_unlogged db t : t ∈ map ut_Name (unlogged_tables db) <-> at_persistence true db t.
Proof.
  unfold unlogged_tables, at_persistence. rewrite map_map. simpl. rewrite list_elem_of_In, in_map_iff. split.
  - intros ([k x] & <- & Hin). apply filter_In in Hin as [Hin Hu]. apply list_elem_of_In, elem_of_map_to_list in Hin.
    by exists x.
  - intros (x & Hx & Hu). exists (t, x). split; [done|]. apply filter_In. split; [|done].
    by apply list_elem_of_In, elem_of_map_to_list.
Qed.

Lemma NoDup_unlogged db : NoDup (map ut_Name (unlogged_tables db)).
Proof.
  unfold unlogged_tables. rewrite map_map. simpl. apply NoDup_map_filter, NoDup_fst_map_to_list.
Qed.

Lemma snapshot_names_perm db :
  map ut_Name (List.filter (fun t => inSnapshot (ut_Name t)) (merge_sort larger_first (unlogged_tables db)))
  ≡ₚ map ut_Name (List.filter (fun t => inSnapshot (ut_Name t)) (unlogged_tables db)).
Proof. apply Permutation_map, Permutation_filter_bool, merge_sort_Permutation. Qed.

(** A conversion back that succeeds leaves no snapshot table UNLOGGED. *)
Lemma logged_spec db db' r :
  restoreSnapshotTablesLogged references freeBytes fault alter_fails db = (db', r) ->
  outside_kept db db' /\ (r = Ok tt -> forall t, inSnapshot t = true -> ~ at_persistence true db' t).
Proof.
  unfold restoreSnapshotTablesLogged, unloggedPublicTables. destruct (fault QUnloggedTables); [by intros [= <- <-]|].
  set (tables := List.filter _ _). assert (Hperm := snapshot_names_perm db). fold tables in Hperm.
  assert (Hnd : NoDup (map ut_Name tables)) by (rewrite Hperm; apply NoDup_map_filter, NoDup_unlogged).
  assert (Hin : forall t, t ∈ map ut_Name tables <-> inSnapshot t = true /\ at_persistence true db t).
  { intros t. rewrite Hperm, <- elem_unlogged, !list_elem_of_In, !in_map_iff. setoid_rewrite filter_In. naive_solver. }
  destruct tables as [|t0 ts] eqn:Et; [intros [= <- <-]|].
  { split; [apply outside_refl|]. intros _ t Ht Hp. assert (t ∈ @nil string) as []%not_elem_of_nil by (by apply Hin). }
  destruct (if fault QDataDirFree then _ else _) as [[]|e]; [|by intros [= <- <-]].
  unfold setTablesLogged. destruct (setTablesPersistence _ _ false _ db) as [db1 failures] eqn:E. intros [= <- <-].
  destruct (convert_spec _ _ _ _ _ _ _ Hnd E) as (Hc & Hdone & _). split.
  - eapply outside_changed; [|exact Hc]. intros t Ht. by apply Hin in Ht as [? _].
  - unfold persistenceError, guard_err. case_bool_decide as Hf; [intros _|done]. intros t Ht (x & Hx & Hu).
    assert (t ∈ map ut_Name (t0 :: ts)) as Hm.
    { apply Hin. split; [done|]. destruct Hc as (_ & _ & Hc). destruct (Hc t) as [Heq|(_ & y & _ & Hy)].
      - exists x. by rewrite <- Heq.
      - rewrite Hx in Hy. injection Hy as ->. done. }
    destruct (Hdone t Hm) as (y & Hy & Hu'); [by rewrite Hf|]. congruence.
Qed.

(** Setting statements leave the tables alone. *)
Lemma exec_setting_tables s db : pg_tables (fst (exec_setting fault s db)) = pg_tables db.
Proof. unfold exec_setting. by repeat case_match. Qed.

Lemma undo_tables prev db : pg_tables (undo fault prev db) = pg_tables db.
Proof.
  unfold undo. rewrite exec_setting_tables. revert db. induction prev as [|p prev IH]; intros db; [done|].
  simpl. by rewrite IH, exec_setting_tables.
Qed.

Lemma settings_keep_tables (settings : res string (list previous)) db :
  pg_tables (match settings with Ok prev => undo fault prev db | Err _ => db end) = pg_tables db.
Proof. destruct settings; [apply undo_tables|done]. Qed.

Lemma for_each_tables {A} (f : A -> setting_stmt) l db :
  pg_tables (fst (for_each (fun a => exec_setting fault (f a)) l db)) = pg_tables db.
Proof.
  revert db. induction l as [|a l IH]; intros db; [done|]. simpl. unfold pbind.
  pose proof (exec_setting_tables (f a) db) as H. destruct (exec_setting fault (f a) db) as [db1 [[]|e]]; simpl in *; [|done].
  by rewrite IH.
Qed.

Lemma settings_apply_tables db db1 settings :
  applyRestoreServerSettings report fault db = (db1, settings) -> pg_tables db1 = pg_tables db.
Proof.
  unfold applyRestoreServerSettings. destruct (read_all _ _ _ _); [|by intros [= <- <-]].
  pose proof (for_each_tables (fun st => AlterSystemSet st.1.1 (quoteLiteral st.1.2)) restoreServerSettings db) as H.
  destruct (for_each _ _ db) as [db2 [[]|e]]; [|intros [= <- <-]; by rewrite undo_tables].
  pose proof (exec_setting_tables ReloadConf db2) as H'. destruct (exec_setting fault ReloadConf db2) as [db3 [[]|e]]; simpl in *.
  - intros [= <- <-]. congruence.
  - intros [= <- <-]. rewrite undo_tables. congruence.
Qed.

Lemma sections_spec dump db db' r :
  sections dump db = (db', r) ->
  outside_kept db db' /\ (r = Ok tt -> forall t, inSnapshot t = true -> ~ at_persistence true db' t).
Proof.
  unfold restore_sections. set (db1 := fst (pg_restore PreData dump db)).
  set (db2 := truncate_snapshot _ _ db1). set (db3 := match existingSnapshotTables _ db2 with Ok _ => _ | Err _ => _ end).
  assert (H3 : outside_kept db db3).
  { eapply outside_trans; [apply (outside_pg_restore PreData dump)|]. eapply outside_trans; [apply outside_truncate|].
    fold db2. unfold db3, existingSnapshotTables. destruct (fault QListTables); [apply outside_refl|].
    destruct (setTablesPersistence _ _ true _ db2) as [d f] eqn:E. simpl. eapply outside_changed;
      [|eapply convert_spec; [|exact E]].
    - intros t Ht%list_elem_of_In%filter_In. apply bool_decide_true, list_elem_of_In. tauto.
    - apply NoDup_ListNoDup, List.NoDup_filter, NoDup_ListNoDup. apply (bool_decide_unpack _). vm_compute. exact I. }
  destruct (pg_restore Data dump db3) as [db4 ok] eqn:E4.
  assert (H4 : outside_kept db db4).
  { eapply outside_trans; [exact H3|]. pose proof (outside_pg_restore Data dump db3) as H. by rewrite E4 in H. }
  destruct ok; [|by intros [= <- <-]].
  destruct (restoreSnapshotTablesLogged _ _ _ _ db4) as [db5 r5] eqn:E5. destruct (logged_spec _ _ _ E5) as [H5 Hl].
  assert (H5' := outside_trans _ _ _ H4 H5). destruct r5 as [[]|e]; [|by intros [= <- <-]].
  set (db6 := fst (pg_restore PostData dump db5)). assert (H6 := outside_trans _ _ _ H5' (outside_pg_restore PostData dump db5)).
  fold db6 in H6. assert (Hp : forall t, at_persistence true db6 t -> at_persistence true db5 t).
  { intros t (x & Hx & Hu). pose proof (restore_post dump db5 t) as H. fold db6 in H. rewrite Hx in H. simpl in H.
    destruct (pg_tables db5 !! t) as [y|] eqn:Ey; [|done]. exists y. split; [done|]. simpl in H. congruence. }
  unfold EnsureTransactionCount. destruct (pg_tables db6 !! "core_tx_count") as [c|] eqn:Ec; [|by intros [= <- <-]].
  destruct (pg_tables db6 !! "core_tx_stats") as [st|]; [|by intros [= <- <-]].
  destruct (fault QEnsureCount); [by intros [= <- <-]|]. destruct (pt_Rows c); intros [= <- <-].
  - split.
    + eapply outside_trans; [exact H6|]. split_and!; [done..|]. intros t Ht. simpl. apply lookup_insert_ne. by intros <-.
    + intros _ t Ht (x & Hx & Hu). apply (Hl eq_refl t Ht), Hp. simpl in Hx. destruct (decide (t = "core_tx_count")) as [->|Hne].
      * rewrite lookup_insert_eq in Hx. injection Hx as <-. by exists c.
      * rewrite lookup_insert_ne in Hx by done. by exists x.
  - split; [done|]. intros _ t Ht Hu. by apply (Hl eq_refl t Ht), Hp.
Qed.
(** C33 -- A restore is durable and stays within the snapshot: whatever fails on the way,
    the tables outside the snapshot are as before; when it reports success, no
    snapshot table is UNLOGGED, so none is emptied by a crash. *)
Theorem successful_restore_is_durable dump db db' r :
  restore dump db = (db', r) ->
  (forall t, inSnapshot t = false -> pg_tables db' !! t = pg_tables db !! t) /\
  (r = Ok tt -> forall t x, inSnapshot t = true -> pg_tables db' !! t = Some x -> pt_Unlogged x = false).
Proof.
  unfold RestoreDatabase. destruct (applyRestoreServerSettings report fault db) as [db1 settings] eqn:Es.
  destruct (sections dump db1) as [db2 r2] eqn:Er. destruct (sections_spec _ _ _ _ Er) as [(_ & _ & Hout) Hlog].
  intros [= <- <-]. rewrite settings_keep_tables. apply settings_apply_tables in Es. split.
  - intros t Ht. rewrite Hout, Es; done.
  - intros Hr t x Ht Hx. destruct (pt_Unlogged x) eqn:Hu; [|done]. exfalso. apply (Hlog Hr t Ht). by exists x.
Qed.
(** The operator's values, without those an earlier restore left behind. *)
Definition operator_conf (db : pg_db) : gmap string string :=
  fold_left (fun c st => if String.eqb (report st.1.1 (current_setting db st.1.1)) st.2 then delete st.1.1 c else c)
    restoreServerSettings (pg_auto_conf db).

(** One setting, set by the restore and put back from what was read before. *)
Definition put_back (db : pg_db) (st : string * string * string) (c : gmap string string) : gmap string string :=
  if bool_decide (is_Some (pg_auto_conf db !! st.1.1)) && negb (String.eqb (report st.1.1 (current_setting db st.1.1)) st.2)
  then <[st.1.1 := current_setting db st.1.1]> c else delete st.1.1 c.

Lemma put_back_lookup db st c k :
  put_back db st c !! k =
    (if decide (k = st.1.1)
     then if String.eqb (report st.1.1 (current_setting db st.1.1)) st.2 then None else pg_auto_conf db !! k
     else c !! k).
Proof.
  unfold put_back. destruct (String.eqb _ _); rewrite ?andb_false_r, ?andb_true_r; simpl.
  - rewrite lookup_delete. repeat case_decide; congruence.
  - case_bool_decide as Hd; [rewrite lookup_insert|rewrite lookup_delete]; repeat case_decide; simplify_eq; try done.
    + unfold current_setting. destruct Hd as [v Hv]. by rewrite Hv.
    + destruct (pg_auto_conf db !! st.1.1) eqn:E; [|done]. by destruct Hd.
Qed.

(** The server settings a restore changes are put back, whether it succeeds or
    not: when the setting statements work, postgresql.auto.conf ends as it was, except
    that values equal to the restore's own, taken for leftovers, are gone. *)
Theorem restore_settings_are_put_back dump db db' r :
  (forall name, fault (QReadSetting name) = false) -> (forall s, fault (QSetting s) = false) ->
  restore dump db = (db', r) -> pg_auto_conf db' = operator_conf db.
Proof.
  intros Hread Hset. unfold RestoreDatabase, applyRestoreServerSettings.
  cbn [read_all restoreServerSettings read_previous rbind]. rewrite !Hread. cbn [rbind].
  assert (Hs : forall name v d, exec_setting fault (AlterSystemSet name (quoteLiteral v)) d
                = (set_auto_conf (<[name := v]> (pg_auto_conf d)) d, Ok tt)).
  { intros name v d. unfold exec_setting. by rewrite Hset, unquote_quoteLiteral. }
  assert (Hr : forall d, exec_setting fault ReloadConf d = (d, Ok tt)) by (intros d; unfold exec_setting; by rewrite Hset).
  unfold restoreServerSettings at 1. cbn [for_each fst snd]. unfold pbind. rewrite !Hs. unfold pret. rewrite Hr.
  destruct (sections dump _) as [db2 r2] eqn:E. destruct (sections_spec _ _ _ _ E) as [(Hconf & _ & _) _].
  intros [= <- _]. unfold undo. rewrite Hr. cbn [fold_left fst].
  assert (Hstep : forall name setting d,
    pg_auto_conf (fst (exec_setting fault (undo_stmt (mkPrevious name (current_setting db name)
      (if String.eqb (report name (current_setting db name)) setting then false
       else bool_decide (is_Some (pg_auto_conf db !! name))))) d))
    = put_back db (name, "", setting) (pg_auto_conf d)).
  { intros name setting d. unfold undo_stmt, put_back. simpl. destruct (String.eqb _ _); simpl.
    - unfold exec_setting. rewrite Hset. simpl. by rewrite andb_false_r.
    - rewrite andb_true_r. case_bool_decide; [by rewrite Hs|]. unfold exec_setting. by rewrite Hset. }
  rewrite !Hstep, Hconf. apply map_eq. intros k. rewrite !put_back_lookup. unfold operator_conf. simpl.
  repeat case_decide; subst; repeat match goal with |- context [String.eqb ?a ?b] => destruct (String.eqb a b) eqn:? end;
    repeat first [rewrite lookup_delete_eq | rewrite lookup_delete_ne by congruence | rewrite lookup_insert_ne by congruence];
    done.
Qed.
End Restore.

(** ** Examples *)

Module RestoreExample.
Definition table (rows : list string) : pg_table := mkPgTable false 100 rows.
Definition db : pg_db :=
  mkPgDb (<["sla_node_reports" := table ["old"]]> (<["sla_rollups" := table []]> (<["core_tx_count" := table ["7"]]>
          (<["core_tx_stats" := table ["tx"]]> (<["uploads" := table ["blob"]]> ∅)))))
    {["max_wal_size" := "2GB"]} (fun _ => "default").
Definition references (t t' : string) : bool := String.eqb t "sla_node_reports" && String.eqb t' "sla_rollups".
Definition rank (t : string) : nat := if String.eqb t "sla_node_reports" then 1 else 0.
Definition never {A} (_ : A) : bool := false.
Definition no_alter_fails (_ : bool) (_ : string) (_ : pg_db) : bool := false.
Definition free (_ : pg_db) : Z := 1000.

(** Loads one row into every snapshot table but the counter. *)
Definition load (t : string) (x : pg_table) : option pg_table :=
  Some (if inSnapshot t && negb (String.eqb t "core_tx_count") then set_rows ["new"] x else x).
Definition pg_restore (s : section) (dump : string) (d : pg_db) : pg_db * bool :=
  match s with
  | Data => (set_tables (map_imap load (pg_tables d)) d, true)
  | _ => (d, true)
  end.

#[export] Instance pg_restore_laws : PgRestoreLaws pg_restore.
Proof.
  split; intros; [destruct s|destruct s|]; try done. simpl. rewrite map_lookup_imap.
  destruct (pg_tables db0 !! t); simpl; [|done]. unfold load. by rewrite H.
Qed.

Definition run := RestoreDatabase (fun _ v => v) references free never no_alter_fails pg_restore "dump" db.
Definition unlogged : pg_db := fst (setTablesPersistence references no_alter_fails true ["sla_rollups"; "sla_node_reports"] db).
End RestoreExample.

Import RestoreExample.

Example restored_rows :
  snd run = Ok tt /\ pt_Rows <$> pg_tables (fst run) !! "sla_node_reports" = Some ["new"] /\
  pt_Rows <$> pg_tables (fst run) !! "core_tx_count" = Some ["1"].
Proof. vm_compute. auto. Qed.

(** Reports reference rollups and come first: it takes two passes each way. *)
Example two_passes :
  persistence_loop references no_alter_fails 1 false ["sla_node_reports"; "sla_rollups"] ∅ unlogged = None /\
  snd (setTablesPersistence references no_alter_fails false ["sla_node_reports"; "sla_rollups"] unlogged) = ∅.
Proof. vm_compute. auto. Qed.

Lemma table_conversion_terminates_witness :
  exists r, forall fuel, (2 < fuel)%nat ->
    persistence_loop references no_alter_fails fuel false ["sla_node_reports"; "sla_rollups"] ∅ unlogged = Some r.
Proof.
  destruct (table_conversion_terminates references no_alter_fails false ["sla_node_reports"; "sla_rollups"] unlogged)
    as (db' & f & H & _); [by apply (bool_decide_unpack _)|]. exists (db', f). exact H.
Defined.

Lemma acyclic_conversion_succeeds_witness :
  exists db', setTablesPersistence references no_alter_fails false ["sla_node_reports"; "sla_rollups"] unlogged = (db', ∅) /\
    at_persistence false db' "sla_node_reports".
Proof.
  destruct (acyclic_conversion_succeeds references no_alter_fails false ["sla_node_reports"; "sla_rollups"] unlogged rank)
    as (db' & H1 & H2).
  - by apply (bool_decide_unpack _).
  - done.
  - intros t [->|[->|[]%not_elem_of_nil]%elem_of_cons]%elem_of_cons; vm_compute; by eexists.
  - intros t t' [Hne Hr]. unfold references in Hr. apply andb_true_iff in Hr as [->%String.eqb_eq ->%String.eqb_eq].
    vm_compute. lia.
  - intros t t' x _ [Hne Hr] _ _. unfold references in Hr. apply andb_true_iff in Hr as [->%String.eqb_eq ->%String.eqb_eq].
    set_solver.
  - exists db'. split; [exact H1|]. apply H2. by left.
Defined.

Lemma successful_restore_is_durable_witness :
  pg_tables (fst run) !! "uploads" = Some (table ["blob"]) /\
  forall x, pg_tables (fst run) !! "sla_node_reports" = Some x -> pt_Unlogged x = false.
Proof.
  destruct (successful_restore_is_durable (fun _ v => v) references free never no_alter_fails pg_restore
    "dump" db (fst run) (snd run)) as [H1 H2].
  - unfold run. by destruct (RestoreDatabase _ _ _ _ _ _ _ _).
  - split; [rewrite H1; vm_compute; reflexivity|]. intros x. apply H2; vm_compute; reflexivity.
Defined.

Lemma restore_settings_are_put_back_witness : pg_auto_conf (fst run) = {["max_wal_size" := "2GB"]}.
Proof.
  rewrite (restore_settings_are_put_back (fun _ v => v) references free never no_alter_fails pg_restore
    "dump" db (fst run) (snd run)); [vm_compute; reflexivity|done|done|].
  unfold run. by destruct (RestoreDatabase _ _ _ _ _ _ _ _).
Defined.
