(* ===== verification/Snapshots.v ===== *)
(** * State sync snapshots

    Models pkg/core/server/state_sync.go and the snapshot connection of abci.go: a
    node dumps its tables into gzip chunks and serves them; another accepts an
    offered snapshot, collects the chunks on disk in whatever order they come, and
    restores the reassembled dump. *)

From stdpp Require Import base gmap strings list sorting fin_maps pretty.
From Stdlib Require Import ZArith Lia Ascii.
From S2P Require Import Prelude Crypto.

Open Scope string_scope.
Open Scope Z_scope.

(** ** Names *)

Definition dec_digit (z : Z) : ascii := ascii_of_nat (Z.to_nat (48 + z)).

(** The [w] last decimal digits. *)
Fixpoint fixed_digits (w : nat) (z : Z) : string :=
  match w with
  | O => ""
  | S w' => String (dec_digit (z / 10 ^ Z.of_nat w')) (fixed_digits w' (z mod 10 ^ Z.of_nat w'))
  end.

(** fmt's %0[w]d of a number that is not negative. *)
Definition zero_padded (w : nat) (z : Z) : string :=
  if z <? 10 ^ Z.of_nat w then fixed_digits w z else pretty z.

(** The last element of getHeightDir and getChunkPath. *)
Definition getHeightDir (height : Z) : string := "height_" +:+ zero_padded 10 height.
Definition getChunkPath (chunkIndex : Z) : string := "chunk_" +:+ zero_padded 6 chunkIndex +:+ ".gz".

Definition HasSuffix (suffix s : string) : bool :=
  (String.length suffix <=? String.length s)%nat &&
  String.eqb (String.substring (String.length s - String.length suffix) (String.length suffix) s) suffix.

(** The digits at the front of a string, as a number, and the rest. *)
Fixpoint scan_digits (s : string) (acc : option Z) : option Z * string :=
  match s with
  | EmptyString => (acc, s)
  | String c s' =>
      let n := Z.of_N (N_of_ascii c) in
      if (48 <=? n) && (n <=? 57) then scan_digits s' (Some (default 0 acc * 10 + (n - 48))) else (acc, s)
  end.

(** [fmt.Sscanf(name, "chunk_%d.gz", &chunkNum)]; what follows the match is ignored.
    Names with blanks or signs before the number do not occur. *)
Definition scan_chunk (name : string) : option Z :=
  if negb (HasPrefix "chunk_" name) then None
  else
    let (n, rest) := scan_digits (TrimPrefix "chunk_" name) None in
    match n with
    | Some n => if (n <? 2 ^ 63) && HasPrefix ".gz" rest then Some n else None
    | None => None
    end.

(** ** Messages and directories *)

(** abci's Snapshot; Height is a uint64, Chunks a uint32. *)
Record Snapshot := mkSnapshot {
  sn_Height : Z;
  sn_Format : Z;
  sn_Chunks : Z;
  sn_Hash : string;
  sn_Metadata : string
}.

Record Metadata := mkMetadata {
  md_Sender : string;
  md_ChainID : string
}.

Definition set_metadata (m : string) (s : Snapshot) : Snapshot :=
  mkSnapshot (sn_Height s) (sn_Format s) (sn_Chunks s) (sn_Hash s) m.

(** The files of a directory by name.  metadata.json holds the encoding of a
    snapshot and is kept decoded, apart from the other files. *)
Notation files := (gmap string string).

Record snapshot_dir := mkSnapshotDir {
  sd_metadata : option Snapshot;
  sd_files : files
}.

(** The snapshots a node serves, by directory name. *)
Notation served := (gmap string snapshot_dir).

(** tmp_reconstruction: the offered snapshot and one directory per height. *)
Record recon_dir := mkReconDir {
  rd_metadata : option Snapshot;
  rd_heights : gmap Z files
}.

Definition is_gz (name : string) : bool := HasSuffix ".gz" name.
Definition is_chunk_name (name : string) : bool := HasPrefix "chunk_" name && HasSuffix ".gz" name.

(** os.ReadDir, sorted by name. *)
Definition file_names (f : files) : list string := merge_sort String.le (map fst (map_to_list f)).

Inductive io_op :=
| OpMkSnapshotDir | OpStatfs | OpStatus | OpView | OpBlock | OpMkHeightDir | OpDump | OpOpenDump | OpReadDump | OpWriteServed (chunk : Z)
| OpRemoveDump | OpMarshal | OpWriteMetadata | OpReadSnapshots | OpReadMetadata (name : string) | OpReadServed (chunk : Z)
| OpStoreOffered | OpGetOffered | OpReadHeight | OpStoreChunk (chunk : Z) | OpCreateDump | OpReadChunk (name : string) | OpCleanup.

(** What the node knows when it creates a snapshot: [view] is the height of the
    pinned database state, [dump_of] its pg_dump. *)
Record snapshot_source := mkSource {
  so_free : Z;
  so_min_free : Z;
  so_catching_up : bool;
  so_height : Z;
  so_block_hash : string;
  so_dump : string;
  so_sender : string;
  so_chain : string
}.

Inductive sync_phase :=
| PHASE_STARTING
| PHASE_DOWNLOADING_CHUNKS
| PHASE_RECONSTRUCTING_CHUNKS
| PHASE_RESTORING_PG_DUMP
| PHASE_COMPLETED.

(** The status the node reports, without its times. *)
Record sync_info := mkSyncInfo {
  si_Snapshot : Z * string * Z;
  si_Phase : sync_phase;
  si_DownloadedChunks : Z
}.

(** [D] is the database.  A nil hash is [None]. *)
Record sync_state (D : Type) := mkSyncState {
  acceptedSnapshotHeight : Z;
  acceptedSnapshotHash : option string;
  ss_recon : recon_dir;
  ss_info : option sync_info;
  ss_db : D
}.
Arguments mkSyncState {D}.
Arguments acceptedSnapshotHeight {D}.
Arguments acceptedSnapshotHash {D}.
Arguments ss_recon {D}.
Arguments ss_info {D}.
Arguments ss_db {D}.

Inductive OfferResult := OFFER_ACCEPT | OFFER_REJECT.
Inductive ApplyResult := APPLY_ACCEPT | APPLY_RETRY (reject_senders : list string) | APPLY_REJECT_SNAPSHOT.

Section Snapshots.
(** gzip, and the operations that fail. *)
Context (gzip : string -> string) (gunzip : string -> option string) (io_fails : io_op -> bool).
(** JSON of the metadata. *)
Context (marshal_metadata : Metadata -> string) (unmarshal_metadata : string -> option Metadata).

(** ** Creating and serving snapshots *)

Definition chunkSize : Z := 12 * 1024 * 1024.

(** io.ReadFull: up to [n] bytes and the rest. *)
Fixpoint read_full (n : Z) (s : string) : string * string :=
  match s with
  | EmptyString => ("", "")
  | String c s' => if n <=? 0 then ("", s) else let (a, b) := read_full (n - 1) s' in (String c a, b)
  end.

(** The loop of chunkPgDump with fuel: the contents of the chunks in order, [None]
    when it is still running. *)
Fixpoint chunk_loop (fuel : nat) (size : Z) (s : string) : option (list string) :=
  match fuel with
  | O => None
  | S fuel' =>
      let (buffer, rest) := read_full size s in
      if (String.length buffer =? 0)%nat then Some []
      else if Z.of_nat (String.length buffer) <? size then Some [buffer]
      else cons buffer <$> chunk_loop fuel' size rest
  end.

(** More iterations than bytes are enough. *)
Definition dump_chunks (size : Z) (dump : string) : list string :=
  default [] (chunk_loop (S (String.length dump)) size dump).

Definition write_chunks (chunks : list string) : files :=
  list_to_map (imap (fun i c => (getChunkPath (Z.of_nat i), gzip c)) chunks).

(** The chunk files of a dump and their number. *)
Definition chunkPgDump (size : Z) (dump : string) : res string (files * Z) :=
  if io_fails OpOpenDump then Err "failed to open pg_dump"
  else if io_fails OpReadDump then Err "error reading pg_dump"
  else
    let chunks := dump_chunks size dump in
    if existsb (fun i => io_fails (OpWriteServed (Z.of_nat i))) (seq 0 (length chunks)) then Err "failed to create chunk"
    else Ok (write_chunks chunks, Z.of_nat (length chunks)).

(** [min <= 0] switches the check off. *)
Definition snapshotDirHasMinFreeBytes (so : snapshot_source) : res string bool :=
  if so_min_free so <=? 0 then Ok true
  else if io_fails OpStatfs then Err "statfs failed"
  else Ok (so_min_free so <=? so_free so).

(** The part after the height directory is made, on the files [old] it may already
    have; on an error it is removed. *)
Definition write_snapshot (size : Z) (so : snapshot_source) (old : files) : res string snapshot_dir :=
  let? _ := guard_err (io_fails OpDump) "error creating pg_dump" in
  let? chunks := chunkPgDump size (so_dump so) in
  let? _ := guard_err (io_fails OpRemoveDump) "error deleting pg_dump" in
  let? _ := guard_err (io_fails OpMarshal) "error marshalling metadata" in
  let? _ := guard_err (io_fails OpWriteMetadata) "error writing snapshot metadata" in
  Ok (mkSnapshotDir
        (Some (mkSnapshot (so_height so) 1 (chunks.2 mod 2 ^ 32) (so_block_hash so)
                 (marshal_metadata (mkMetadata (so_sender so) (so_chain so)))))
        (chunks.1 ∪ old)).

Definition createSnapshot (size : Z) (so : snapshot_source) : proc served string unit :=
  fun sv =>
    if io_fails OpMkSnapshotDir then (sv, Err "error creating snapshot directory")
    else match snapshotDirHasMinFreeBytes so with
         | Err e => (sv, Err e)
         | Ok false => (sv, Ok tt)
         | Ok true =>
             if io_fails OpStatus || so_catching_up so then (sv, Ok tt)
             else if io_fails OpView || (so_height so <=? 0) then (sv, Err "error opening snapshot view")
             else if io_fails OpBlock then (sv, Err "error getting block for snapshot")
             else
               let name := getHeightDir (so_height so) in
               match sv !! name with
               | Some {| sd_metadata := Some _ |} => (sv, Ok tt)
               | _ =>
                   if io_fails OpMkHeightDir then (sv, Err "error creating latest snapshot directory")
                   else match write_snapshot size so (from_option sd_files ∅ (sv !! name)) with
                        | Ok d => (<[name := d]> sv, Ok tt)
                        | Err e => (delete name sv, Err e)
                        end
               end
         end.

(** The range loop over the sorted names: the oldest go while more than [keep] are left. *)
Definition pruneSnapshots (keep : Z) : proc served string unit :=
  fun sv =>
    if io_fails OpReadSnapshots then (sv, Err "error reading snapshot directory")
    else
      let names := merge_sort String.le (map fst (map_to_list sv)) in
      (fold_left (fun d name => delete name d) (take (Z.to_nat (Z.of_nat (length names) - keep)) names) sv, Ok tt).

Definition height_le (a b : Snapshot) : Prop := sn_Height a <= sn_Height b.
#[export] Instance height_le_dec : RelDecision height_le.
Proof. intros a b. unfold height_le. apply _. Defined.

Definition getStoredSnapshots (serve : bool) (sv : served) : res string (list Snapshot) :=
  if negb serve then Ok []
  else if io_fails OpReadSnapshots then Err "error reading snapshot directory"
  else
    let entries := map_to_list sv in
    if existsb (fun e => match sd_metadata e.2 with Some _ => io_fails (OpReadMetadata e.1) | None => false end) entries
    then Err "error reading metadata file"
    else Ok (merge_sort height_le
               (List.filter (fun m => negb (sn_Height m =? 0)) (omap (fun e => sd_metadata e.2) entries))).

Definition GetChunkByHeight (height chunk : Z) (sv : served) : res string string :=
  match sv !! getHeightDir height with
  | None => Err "no snapshot found"
  | Some d =>
      if io_fails (OpReadMetadata (getHeightDir height)) then Err "error reading metadata file"
      else match sd_metadata d with
           | None => Err "error reading metadata file"
           | Some _ =>
               if io_fails (OpReadServed chunk) then Err "error reading chunk file"
               else match sd_files d !! getChunkPath chunk with
                    | Some data => Ok data
                    | None => Err "error reading chunk file"
                    end
           end
  end.

Definition ListSnapshots (serve : bool) (sv : served) : res string (list Snapshot) := getStoredSnapshots serve sv.
Definition LoadSnapshotChunk (height chunk : Z) (sv : served) : res string string :=
  GetChunkByHeight (wrap64 height) chunk sv.

(** ** Receiving a snapshot *)

Section Receive.
Context {D : Type}.
Implicit Types st : sync_state D.

Definition set_accepted (h : Z) (hash : option string) st : sync_state D :=
  mkSyncState h hash (ss_recon st) (ss_info st) (ss_db st).
Definition set_recon (r : recon_dir) st : sync_state D :=
  mkSyncState (acceptedSnapshotHeight st) (acceptedSnapshotHash st) r (ss_info st) (ss_db st).
Definition set_info (i : option sync_info) st : sync_state D :=
  mkSyncState (acceptedSnapshotHeight st) (acceptedSnapshotHash st) (ss_recon st) i (ss_db st).
Definition set_db (d : D) st : sync_state D :=
  mkSyncState (acceptedSnapshotHeight st) (acceptedSnapshotHash st) (ss_recon st) (ss_info st) d.

(** updateStateSyncInfo with ensureStateSyncInfo. *)
Definition report_progress (sn : Snapshot) (phase : sync_phase) (downloaded : Z) st : sync_state D :=
  set_info (Some (mkSyncInfo (wrap64 (sn_Height sn), hex_encode (sn_Hash sn), sn_Chunks sn) phase downloaded)) st.
Definition clearStateSyncInfo st : sync_state D := set_info None st.

Definition StoreOfferedSnapshot (sn : Snapshot) : proc (sync_state D) string unit :=
  fun st => if io_fails OpStoreOffered then (st, Err "failed to write metadata file")
            else (set_recon (mkReconDir (Some sn) (rd_heights (ss_recon st))) st, Ok tt).

Definition GetOfferedSnapshot st : res string Snapshot :=
  if io_fails OpGetOffered then Err "failed to read metadata file"
  else match rd_metadata (ss_recon st) with Some sn => Ok sn | None => Err "failed to read metadata file" end.

(** The directory of a height, if it exists. *)
Definition height_files (height : Z) st : option files := rd_heights (ss_recon st) !! height.

Definition read_height (height : Z) st : res string (list string) :=
  if io_fails OpReadHeight then Err "read dir"
  else match height_files height st with Some f => Ok (file_names f) | None => Err "read dir" end.

Definition countReconstructionChunks (height : Z) st : res string Z :=
  let? names := read_height height st in Ok (Z.of_nat (length (List.filter is_chunk_name names))).

Definition chunkExists (height chunkIndex : Z) st : bool :=
  match height_files height st with
  | Some f => bool_decide (is_Some (f !! getChunkPath chunkIndex))
  | None => false
  end.

Definition write_file (height : Z) (name data : string) st : sync_state D :=
  set_recon (mkReconDir (rd_metadata (ss_recon st))
    (<[height := <[name := data]> (default ∅ (height_files height st))]> (rd_heights (ss_recon st)))) st.

Definition StoreChunkForReconstruction (height chunkIndex : Z) (chunkData : string) : proc (sync_state D) string unit :=
  fun st => if io_fails (OpStoreChunk chunkIndex) then (st, Err "failed to write chunk file")
            else (write_file height (getChunkPath chunkIndex) chunkData st, Ok tt).

(** The set of chunk numbers below [total] has [total] elements. *)
Definition haveAllChunks (height total : Z) st : bool :=
  match read_height height st with
  | Err _ => false
  | Ok names =>
      let chunks : gset Z := list_to_set
        (List.filter (fun n => (0 <=? n) && (n <? total)) (omap scan_chunk (List.filter is_gz names))) in
      Z.of_nat (size chunks) =? total
  end.

(** The decompressed chunks in the order of their names. *)
Fixpoint reassemble (f : files) (names : list string) : res string string :=
  match names with
  | [] => Ok ""
  | name :: names' =>
      if io_fails (OpReadChunk name) then Err "failed to read chunk file"
      else match gunzip (default "" (f !! name)) with
           | None => Err "failed to create gzip reader"
           | Some data => let? rest := reassemble f names' in Ok (data +:+ rest)
           end
  end.

Definition pgDumpFileName : string := "data.dump".

(** The dump, as the file it writes; a failed attempt leaves a partial file, which
    the next one truncates, so only the complete one is kept. *)
Definition ReassemblePgDump (height : Z) : proc (sync_state D) string string :=
  fun st =>
    if io_fails OpCreateDump then (st, Err "failed to create output file")
    else match read_height height st with
         | Err e => (st, Err e)
         | Ok names =>
             match reassemble (default ∅ (height_files height st)) (List.filter is_gz names) with
             | Err e => (st, Err e)
             | Ok dump => (write_file height pgDumpFileName dump st, Ok dump)
             end
         end.

Definition CleanupStateSync : proc (sync_state D) string unit :=
  fun st => if io_fails OpCleanup then (st, Err "error cleaning up temporary files")
            else (set_recon (mkReconDir None ∅) st, Ok tt).

(** bytes.Equal, where nil is empty. *)
Definition same_bytes (a : string) (b : option string) : bool := String.eqb a (default "" b).

(** Count what is there already and report it. *)
Definition resume_progress (sn : Snapshot) st : sync_state D :=
  let downloaded := match countReconstructionChunks (wrap64 (sn_Height sn)) st with Ok n => n | Err _ => 0 end in
  report_progress sn (if 0 <? downloaded then PHASE_DOWNLOADING_CHUNKS else PHASE_STARTING) downloaded st.

Definition OfferSnapshot (sn : Snapshot) (st : sync_state D) : sync_state D * OfferResult :=
  if negb (acceptedSnapshotHeight st =? 0) then
    let st1 := if negb (sn_Height sn =? acceptedSnapshotHeight st) then set_accepted 0 None st else st in
    if negb (same_bytes (sn_Hash sn) (acceptedSnapshotHash st1)) then (st1, OFFER_REJECT)
    else (resume_progress sn (fst (StoreOfferedSnapshot sn st1)), OFFER_ACCEPT)
  else
    match StoreOfferedSnapshot sn st with
    | (st1, Err _) => (st1, OFFER_REJECT)
    | (st1, Ok _) => (resume_progress sn (set_accepted (sn_Height sn) (Some (sn_Hash sn)) st1), OFFER_ACCEPT)
    end.

(** The chain of the node, and RestoreDatabase on a dump. *)
Context (chainID : string) (restore : string -> proc D string unit).

(** The sender check: a chunk from another sender than the metadata names is taken
    when the snapshot is the accepted one, and the metadata is updated. *)
Definition check_sender (sn : Snapshot) (md : Metadata) (sender : string) (st : sync_state D) :
    sync_state D * option ApplyResult :=
  if EqualFold (md_Sender md) sender then (st, None)
  else
    let hashMatches := match acceptedSnapshotHash st with Some h => String.eqb h (sn_Hash sn) | None => false end in
    if (acceptedSnapshotHeight st =? sn_Height sn) && hashMatches
    then (fst (StoreOfferedSnapshot (set_metadata (marshal_metadata (mkMetadata sender (md_ChainID md))) sn) st), None)
    else (st, Some (APPLY_RETRY [sender])).

(** Reassembly and restore, once all chunks are there. *)
Definition finish_sync (sn : Snapshot) (height : Z) (st : sync_state D) : sync_state D * ApplyResult :=
  let total := sn_Chunks sn in
  let st1 := report_progress sn PHASE_RECONSTRUCTING_CHUNKS total st in
  match ReassemblePgDump height st1 with
  | (st2, Err _) => (st2, APPLY_RETRY [])
  | (st2, Ok dump) =>
      let st3 := report_progress sn PHASE_RESTORING_PG_DUMP total st2 in
      let (d, r) := restore dump (ss_db st3) in
      match r with
      | Err _ => (set_db d st3, APPLY_RETRY [])
      | Ok _ =>
          let st4 := fst (CleanupStateSync (set_db d st3)) in
          (clearStateSyncInfo (report_progress sn PHASE_COMPLETED total (set_accepted 0 None st4)), APPLY_ACCEPT)
      end
  end.

Definition ApplySnapshotChunk (index : Z) (chunk sender : string) (st : sync_state D) : sync_state D * ApplyResult :=
  match GetOfferedSnapshot st with
  | Err _ => (st, APPLY_RETRY [])
  | Ok sn =>
      match unmarshal_metadata (sn_Metadata sn) with
      | None => (st, APPLY_REJECT_SNAPSHOT)
      | Some md =>
          if negb (String.eqb (md_ChainID md) chainID) then (st, APPLY_REJECT_SNAPSHOT)
          else
            match check_sender sn md sender st with
            | (st1, Some r) => (st1, r)
            | (st1, None) =>
                let height := wrap64 (sn_Height sn) in
                match (if chunkExists height index st1 then (st1, Ok tt)
                       else StoreChunkForReconstruction height index chunk st1) with
                | (st2, Err _) => (st2, APPLY_RETRY [])
                | (st2, Ok _) =>
                    let st3 := match countReconstructionChunks height st2 with
                               | Ok n => report_progress sn PHASE_DOWNLOADING_CHUNKS n st2
                               | Err _ => st2
                               end in
                    if haveAllChunks height (sn_Chunks sn) st3 then finish_sync sn height st3
                    else (st3, APPLY_ACCEPT)
                end
            end
      end
  end.
End Receive.
End Snapshots.
