(* ===== verification/SnapshotsProps.v ===== *)
(** * Properties of state sync

    Names of chunks and snapshots sort by number and scan back; chunking loses
    nothing; a snapshot one node creates is restored by another from its chunks in
    any order; what goes wrong with corrupt chunks and with a second offer. *)

From stdpp Require Import base gmap strings list sorting fin_maps fin_sets pretty.
From Stdlib Require Import ZArith Lia Ascii Sorting.Sorted.
From S2P Require Import Prelude Crypto Encoding Rendezvous Snapshots.

Open Scope string_scope.
Open Scope Z_scope.

(** ** Names *)

Lemma dec_digit_val z : 0 <= z < 10 -> Z.of_N (N_of_ascii (dec_digit z)) = 48 + z.
Proof.
  intros Hz. unfold dec_digit, ascii_of_nat. rewrite N_ascii_embedding by lia. lia.
Qed.

Lemma fixed_digits_length w z : String.length (fixed_digits w z) = w.
Proof. revert z. induction w as [|w IH]; intros z; simpl; [done|]. by rewrite IH. Qed.

Lemma digit_bounds w z : 0 <= z < 10 ^ Z.of_nat (S w) ->
  0 <= z / 10 ^ Z.of_nat w < 10 /\ 0 <= z mod 10 ^ Z.of_nat w < 10 ^ Z.of_nat w.
Proof.
  intros Hz. assert (0 < 10 ^ Z.of_nat w) by lia. rewrite Nat2Z.inj_succ, Z.pow_succ_r in Hz by lia.
  split; [split; [apply Z.div_pos; lia|apply Z.div_lt_upper_bound; lia]|apply Z.mod_pos_bound; lia].
Qed.

(** Digits of the same number sort as their numbers. *)
Lemma fixed_digits_lt w i j :
  0 <= i -> i < j -> j < 10 ^ Z.of_nat w -> String.compare (fixed_digits w i) (fixed_digits w j) = Lt.
Proof.
  revert i j. induction w as [|w IH]; intros i j Hi Hij Hj; [simpl in Hj; lia|].
  destruct (digit_bounds w i) as [Di Mi]; [lia|]. destruct (digit_bounds w j) as [Dj Mj]; [lia|].
  cbn [fixed_digits String.compare]. unfold Ascii.compare.
  assert (Hd : i / 10 ^ Z.of_nat w <= j / 10 ^ Z.of_nat w) by (apply Z.div_le_mono; lia).
  pose proof (dec_digit_val _ Di). pose proof (dec_digit_val _ Dj).
  destruct (N.compare_spec (N_of_ascii (dec_digit (i / 10 ^ Z.of_nat w))) (N_of_ascii (dec_digit (j / 10 ^ Z.of_nat w)))); [|done|lia].
  apply IH; [lia| |lia]. pose proof (Z.div_mod i (10 ^ Z.of_nat w)). pose proof (Z.div_mod j (10 ^ Z.of_nat w)). lia.
Qed.

Lemma compare_app_prefix p a b : String.compare (p +:+ a) (p +:+ b) = String.compare a b.
Proof. induction p as [|c p IH]; simpl; [done|]. unfold Ascii.compare. by rewrite N.compare_refl. Qed.

Lemma compare_app_lt a b s t :
  String.length a = String.length b -> String.compare a b = Lt -> String.compare (a +:+ s) (b +:+ t) = Lt.
Proof.
  revert b. induction a as [|c a IH]; intros [|c' b]; simpl; try done. intros [= Hl].
  destruct (Ascii.compare c c'); [by apply IH|done..].
Qed.

Lemma compare_lt_le a b : String.compare a b = Lt -> String.le a b.
Proof. unfold String.le. rewrite compare_leb. by intros ->. Qed.

Lemma chunk_path_lt i j : 0 <= i -> i < j -> j < 10 ^ 6 -> String.compare (getChunkPath i) (getChunkPath j) = Lt.
Proof.
  intros Hi Hij Hj. unfold getChunkPath, zero_padded.
  rewrite !(proj2 (Z.ltb_lt _ _)) by (simpl Z.of_nat; lia). rewrite compare_app_prefix.
  apply compare_app_lt; [by rewrite !fixed_digits_length|]. apply fixed_digits_lt; simpl Z.of_nat; lia.
Qed.

Lemma height_dir_lt i j : 0 <= i -> i < j -> j < 10 ^ 10 -> String.compare (getHeightDir i) (getHeightDir j) = Lt.
Proof.
  intros Hi Hij Hj. unfold getHeightDir, zero_padded.
  rewrite !(proj2 (Z.ltb_lt _ _)) by (simpl Z.of_nat; lia). rewrite compare_app_prefix.
  apply fixed_digits_lt; simpl Z.of_nat; lia.
Qed.

Lemma scan_digit z rest acc :
  0 <= z < 10 -> scan_digits (String (dec_digit z) rest) acc = scan_digits rest (Some (default 0 acc * 10 + z)).
Proof.
  intros Hz. unfold scan_digits at 1. fold scan_digits. rewrite (dec_digit_val _ Hz), !(proj2 (Z.leb_le _ _)) by lia.
  cbn [andb]. do 2 f_equal. lia.
Qed.

Lemma scan_fixed_digits w rest : (forall acc, scan_digits rest acc = (acc, rest)) -> forall z acc,
  0 <= z < 10 ^ Z.of_nat w ->
  scan_digits (fixed_digits w z +:+ rest) (Some acc) = (Some (acc * 10 ^ Z.of_nat w + z), rest).
Proof.
  intros Hrest. induction w as [|w IH]; intros z acc Hz.
  - change (fixed_digits 0 z +:+ rest) with rest. rewrite Hrest. simpl in *. do 2 f_equal. lia.
  - destruct (digit_bounds w z Hz) as [Hd Hm].
    change (fixed_digits (S w) z +:+ rest)
      with (String (dec_digit (z / 10 ^ Z.of_nat w)) (fixed_digits w (z mod 10 ^ Z.of_nat w) +:+ rest)).
    rewrite scan_digit, IH by done. cbn [default from_option id]. do 2 f_equal. rewrite Nat2Z.inj_succ, Z.pow_succ_r by lia.
    pose proof (Z.div_mod z (10 ^ Z.of_nat w)). lia.
Qed.

Lemma substring_all n s : (String.length s <= n)%nat -> String.substring 0 n s = s.
Proof. revert n. induction s as [|c s IH]; intros [|n]; simpl; intros; [done..|lia|]. f_equal. apply IH. lia. Qed.

Lemma prefix_app p s : HasPrefix p (p +:+ s) = true.
Proof. unfold HasPrefix. induction p as [|c p IH]; simpl; [by destruct s|]. destruct (ascii_dec c c); [done|congruence]. Qed.

Lemma TrimPrefix_app p s : TrimPrefix p (p +:+ s) = s.
Proof.
  unfold TrimPrefix. rewrite prefix_app.
  assert (H : forall n, (String.length s <= n)%nat -> String.substring (String.length p) n (p +:+ s) = s).
  { induction p as [|c p IH]; intros n Hn; [by apply substring_all|]. simpl. by apply IH. }
  apply H. rewrite length_append. lia.
Qed.

Lemma suffix_app p s : HasSuffix s (p +:+ s) = true.
Proof.
  unfold HasSuffix. rewrite length_append. apply andb_true_iff. split; [apply Nat.leb_le; lia|]. apply String.eqb_eq.
  replace (String.length p + String.length s - String.length s)%nat with (String.length p) by lia.
  induction p as [|c p IH]; [by apply substring_all|]. simpl. apply IH.
Qed.

Lemma scan_chunk_path i : 0 <= i < 10 ^ 6 -> scan_chunk (getChunkPath i) = Some i.
Proof.
  intros Hi. unfold getChunkPath, zero_padded. rewrite (proj2 (Z.ltb_lt _ _)) by (simpl Z.of_nat; lia).
  unfold scan_chunk. rewrite prefix_app, TrimPrefix_app. cbn [negb].
  destruct (digit_bounds 5 i ltac:(simpl Z.of_nat; lia)) as [Hd Hm].
  change (fixed_digits 6 i +:+ ".gz")
    with (String (dec_digit (i / 10 ^ Z.of_nat 5)) (fixed_digits 5 (i mod 10 ^ Z.of_nat 5) +:+ ".gz")).
  rewrite scan_digit, (scan_fixed_digits 5 ".gz" ltac:(done)) by done.
  replace ((default 0 None * 10 + i / 10 ^ Z.of_nat 5) * 10 ^ Z.of_nat 5 + i mod 10 ^ Z.of_nat 5) with i.
  2: { pose proof (Z.div_mod i (10 ^ Z.of_nat 5)). simpl default. lia. }
  rewrite (proj2 (Z.ltb_lt i (2 ^ 63))) by lia. done.
Qed.

Lemma chunk_path_gz i : is_gz (getChunkPath i) = true.
Proof.
  unfold is_gz, getChunkPath.
  assert (Happ : forall a b c, a +:+ (b +:+ c) = (a +:+ b) +:+ c)
    by (intros a b c; induction a as [|d a IH]; [done|]; change (String d (a +:+ (b +:+ c)) = String d ((a +:+ b) +:+ c)); by rewrite IH).
  rewrite Happ. apply suffix_app.
Qed.

Lemma chunk_path_inj i j : 0 <= i < 10 ^ 6 -> 0 <= j < 10 ^ 6 -> getChunkPath i = getChunkPath j -> i = j.
Proof. intros Hi Hj E. apply (f_equal scan_chunk) in E. rewrite !scan_chunk_path in E by done. congruence. Qed.

(** ** Chunking *)

Definition concat_all (l : list string) : string := foldr String.append "" l.

Lemma read_full_spec n s a b :
  0 <= n -> read_full n s = (a, b) ->
  a +:+ b = s /\ Z.of_nat (String.length a) <= n /\ (Z.of_nat (String.length a) < n -> b = "").
Proof.
  revert n a b. induction s as [|c s IH]; intros n a b Hn; simpl.
  { intros [= <- <-]. split_and!; simpl; [done|lia|done]. }
  destruct (Z.leb_spec n 0); [intros [= <- <-]; split_and!; simpl; [done|lia|lia]|].
  destruct (read_full (n - 1) s) as [a' b'] eqn:E. intros [= <- <-]. destruct (IH (n - 1) a' b') as (H1 & H2 & H3); [lia|done|].
  split_and!; [change (String c (a' +:+ b') = String c s); by rewrite H1|simpl String.length; lia|].
  simpl String.length. intros. apply H3. lia.
Qed.

Lemma chunk_loop_spec size fuel s :
  0 < size -> (String.length s < fuel)%nat ->
  exists l, chunk_loop fuel size s = Some l /\ concat_all l = s.
Proof.
  intros Hs. revert s. induction fuel as [|fuel IH]; intros s Hf; [lia|]. simpl.
  destruct (read_full size s) as [a b] eqn:E. destruct (read_full_spec size s a b ltac:(lia) E) as (H1 & H2 & H3).
  destruct (Nat.eqb_spec (String.length a) 0) as [Ha|Ha].
  { exists []. split; [done|]. destruct a; [|done]. rewrite <- H1, H3 by (simpl; lia). done. }
  destruct (Z.ltb_spec (Z.of_nat (String.length a)) size).
  { exists [a]. split; [done|]. rewrite <- H1, H3 by lia. done. }
  destruct (IH b) as (l & -> & Hl). { rewrite <- H1, length_append in Hf. lia. }
  exists (a :: l). split; [done|]. simpl. by rewrite Hl.
Qed.

Lemma dump_chunks_concat size dump : 0 < size -> concat_all (dump_chunks size dump) = dump.
Proof.
  intros Hs. unfold dump_chunks.
  destruct (chunk_loop_spec size (S (String.length dump)) dump Hs ltac:(lia)) as (l & -> & Hl). exact Hl.
Qed.

(** ** The files of a snapshot *)

Lemma sorted_filter_bool {A} (R : relation A) (p : A -> bool) l :
  StronglySorted R l -> StronglySorted R (List.filter p l).
Proof.
  induction 1 as [|a l Hl IH Ha]; simpl; [constructor|]. destruct (p a); [|done]. constructor; [done|].
  apply Forall_forall. intros b Hb%list_elem_of_In%filter_In. rewrite Forall_forall in Ha. apply Ha, list_elem_of_In. tauto.
Qed.

Section Files.
Context (gzip : string -> string) (chunks : list string).
Hypothesis few_chunks : Z.of_nat (length chunks) <= 10 ^ 6.

(** The file of chunk [i]. *)
Definition chunk_file (i : Z) : option string := gzip <$> chunks !! Z.to_nat i.

(** [f] has exactly the files of the chunks in [S], apart from the dump. *)
Definition holds (f : files) (S : gset Z) : Prop :=
  (forall i, i ∈ S -> 0 <= i < Z.of_nat (length chunks) /\ f !! getChunkPath i = chunk_file i) /\
  (forall name, is_Some (f !! name) -> name = pgDumpFileName \/ exists i, i ∈ S /\ name = getChunkPath i).

Lemma write_chunks_lookup i :
  0 <= i < Z.of_nat (length chunks) -> write_chunks gzip chunks !! getChunkPath i = chunk_file i.
Proof.
  intros Hi. unfold write_chunks, chunk_file. destruct (lookup_lt_is_Some_2 chunks (Z.to_nat i)) as [c Hc]; [lia|].
  rewrite Hc. simpl. apply elem_of_list_to_map.
  - apply NoDup_alt. intros j k x. rewrite !list_lookup_fmap, !list_lookup_imap.
    destruct (chunks !! j) eqn:Ej, (chunks !! k) eqn:Ek; simpl; try done. intros Ex Ey. rewrite <- Ey in Ex. apply (inj Some) in Ex.
    apply lookup_lt_Some in Ej, Ek. apply Nat2Z.inj. by apply chunk_path_inj; [lia..|].
  - apply elem_of_lookup_imap. exists (Z.to_nat i), c. rewrite Z2Nat.id by lia. done.
Qed.

Lemma holds_empty : holds ∅ ∅.
Proof using Type. split; [by intros i ?%elem_of_empty|]. intros name []%lookup_empty_is_Some. Qed.

Lemma holds_insert f S i :
  0 <= i < Z.of_nat (length chunks) -> holds f S ->
  holds (if bool_decide (is_Some (f !! getChunkPath i)) then f else <[getChunkPath i := default "" (chunk_file i)]> f) ({[i]} ∪ S).
Proof.
  intros Hi [H1 H2]. assert (Hc : chunk_file i = Some (default "" (chunk_file i))).
  { unfold chunk_file. destruct (lookup_lt_is_Some_2 chunks (Z.to_nat i)) as [c ->]; [lia|]. done. }
  case_bool_decide as Hex.
  - assert (Hin : i ∈ S).
    { destruct (H2 _ Hex) as [E|(j & Hj & E)]; [discriminate E|].
      apply chunk_path_inj in E as ->; [done|lia|]. destruct (H1 j Hj). lia. }
    replace ({[i]} ∪ S) with S by set_solver. done.
  - split.
    + intros j [->%elem_of_singleton|Hj]%elem_of_union; [by rewrite lookup_insert_eq|].
      destruct (H1 j Hj) as [Hb Hf]. split; [done|]. rewrite lookup_insert_ne; [done|].
      intros E. apply Hex. rewrite E, Hf. unfold chunk_file.
      destruct (lookup_lt_is_Some_2 chunks (Z.to_nat j)) as [c ->]; [lia|]. by eexists.
    + intros name. destruct (decide (name = getChunkPath i)) as [->|Hne]; [intros _; right; exists i; set_solver|].
      rewrite lookup_insert_ne by done. intros [?|(j & Hj & ->)]%H2; [by left|]. right. exists j. set_solver.
Qed.

Lemma elem_file_names (f : files) name : name ∈ file_names f <-> is_Some (f !! name).
Proof.
  unfold file_names. rewrite merge_sort_Permutation, list_elem_of_In, in_map_iff. split.
  - intros ([k v] & <- & Hin). apply list_elem_of_In, elem_of_map_to_list in Hin. by exists v.
  - intros [v Hv]. exists (name, v). split; [done|]. by apply list_elem_of_In, elem_of_map_to_list.
Qed.

Lemma elem_gz_names f S name :
  holds f S -> name ∈ List.filter is_gz (file_names f) <-> exists i, i ∈ S /\ name = getChunkPath i.
Proof.
  intros [H1 H2]. rewrite list_elem_of_In, filter_In, <- list_elem_of_In, elem_file_names. split.
  - intros [Hs Hg]. destruct (H2 name Hs) as [->|?]; [discriminate Hg|done].
  - intros (i & Hi & ->). split; [|apply chunk_path_gz]. destruct (H1 i Hi) as [Hb ->]. unfold chunk_file.
    destruct (lookup_lt_is_Some_2 chunks (Z.to_nat i)) as [c ->]; [lia|]. by eexists.
Qed.

(** The chunk numbers of the directory. *)
Lemma scanned_chunks f S :
  holds f S ->
  (list_to_set (List.filter (fun n => (0 <=? n) && (n <? Z.of_nat (length chunks)))
     (omap scan_chunk (List.filter is_gz (file_names f)))) : gset Z) = S.
Proof.
  intros H. apply set_eq. intros n. rewrite elem_of_list_to_set, list_elem_of_In, filter_In, <- list_elem_of_In, list_elem_of_omap.
  setoid_rewrite (elem_gz_names _ _ _ H). destruct H as [H1 _]. rewrite andb_true_iff, Z.leb_le, Z.ltb_lt. split.
  - intros [(name & (i & Hi & ->) & Hs) _]. destruct (H1 i Hi) as [Hb _]. rewrite scan_chunk_path in Hs by lia. by injection Hs as <-.
  - intros Hn. destruct (H1 n Hn) as [Hb _]. split; [|lia]. exists (getChunkPath n). split; [by exists n|]. apply scan_chunk_path. lia.
Qed.

Definition all_chunks : gset Z := list_to_set (seqZ 0 (Z.of_nat (length chunks))).

Lemma elem_all_chunks i : i ∈ all_chunks <-> 0 <= i < Z.of_nat (length chunks).
Proof. unfold all_chunks. rewrite elem_of_list_to_set, elem_of_seqZ. lia. Qed.

Lemma complete_size S : (forall i, i ∈ S -> 0 <= i < Z.of_nat (length chunks)) ->
  (Z.of_nat (size S) =? Z.of_nat (length chunks)) = bool_decide (S = all_chunks).
Proof.
  intros HS. assert (Hall : size all_chunks = length chunks).
  { unfold all_chunks. rewrite size_list_to_set by apply NoDup_seqZ. rewrite length_seqZ. lia. }
  case_bool_decide as He; [subst S; rewrite Hall; lia|]. apply Z.eqb_neq. intros E. apply He.
  apply set_subseteq_size_eq; [|lia]. intros i Hi. by apply elem_all_chunks, HS.
Qed.

Lemma chunk_paths_sorted k n : 0 <= k -> k + Z.of_nat n <= 10 ^ 6 -> StronglySorted String.le (map getChunkPath (seqZ k (Z.of_nat n))).
Proof.
  revert k. induction n as [|n IH]; intros k Hk Hn; [constructor|].
  rewrite seqZ_cons by lia. simpl map. replace (Z.pred (Z.of_nat (S n))) with (Z.of_nat n) by lia.
  constructor; [apply IH; lia|]. apply Forall_forall. intros name Hin.
  apply list_elem_of_In, in_map_iff in Hin as (j & <- & Hj%list_elem_of_In%elem_of_seqZ).
  apply compare_lt_le, chunk_path_lt; lia.
Qed.

Lemma NoDup_chunk_paths k n : 0 <= k -> k + Z.of_nat n <= 10 ^ 6 -> NoDup (map getChunkPath (seqZ k (Z.of_nat n))).
Proof.
  intros Hk Hn. apply NoDup_alt. intros i j x Hi Hj. rewrite list_lookup_fmap in Hi, Hj.
  destruct (seqZ k (Z.of_nat n) !! i) as [a|] eqn:Ea; [|done]. destruct (seqZ k (Z.of_nat n) !! j) as [b|] eqn:Eb; [|done].
  apply lookup_seqZ in Ea as [-> ?], Eb as [-> ?]. simpl in Hi, Hj. rewrite <- Hj in Hi. apply (inj Some) in Hi.
  apply chunk_path_inj in Hi; lia.
Qed.

(** A complete directory lists its chunks in order. *)
Lemma complete_names f :
  holds f all_chunks -> List.filter is_gz (file_names f) = map getChunkPath (seqZ 0 (Z.of_nat (length chunks))).
Proof.
  intros H. apply (StronglySorted_unique String.le).
  - apply sorted_filter_bool. apply (StronglySorted_merge_sort String.le).
  - apply chunk_paths_sorted; lia.
  - apply NoDup_Permutation.
    + apply NoDup_ListNoDup, List.NoDup_filter, NoDup_ListNoDup. unfold file_names. rewrite merge_sort_Permutation.
      apply NoDup_fst_map_to_list.
    + apply NoDup_chunk_paths; lia.
    + intros name. rewrite (elem_gz_names _ _ _ H), list_elem_of_In, in_map_iff.
      setoid_rewrite <- list_elem_of_In. setoid_rewrite elem_of_seqZ. setoid_rewrite elem_all_chunks. naive_solver lia.
Qed.

Section Reassemble.
Context (gunzip : string -> option string) (io_fails : io_op -> bool).
Hypothesis gunzip_gzip : forall s, gunzip (gzip s) = Some s.
Hypothesis io_works : forall op, io_fails op = false.

Lemma reassemble_from f l : forall k,
  drop k chunks = l -> holds f all_chunks ->
  reassemble gunzip io_fails f (map getChunkPath (seqZ (Z.of_nat k) (Z.of_nat (length l)))) = Ok (concat_all l).
Proof.
  induction l as [|c l IH]; intros k Hk Hf; [done|]. cbn [length].
  rewrite seqZ_cons by lia. cbn [map reassemble]. rewrite io_works.
  assert (Hc : chunks !! k = Some c) by (rewrite <- (Nat.add_0_r k), <- lookup_drop, Hk; done).
  destruct Hf as [H1 H2]. destruct (H1 (Z.of_nat k)) as [_ Hl].
  { apply elem_all_chunks. apply lookup_lt_Some in Hc. lia. }
  rewrite Hl. unfold chunk_file. rewrite Nat2Z.id, Hc. cbn [fmap option_fmap option_map default from_option id].
  rewrite gunzip_gzip. replace (Z.pred (Z.of_nat (S (length l)))) with (Z.of_nat (length l)) by lia.
  replace (Z.succ (Z.of_nat k)) with (Z.of_nat (S k)) by lia. rewrite IH; [done| |done].
  apply drop_S in Hc. congruence.
Qed.

Lemma reassemble_complete f :
  holds f all_chunks -> reassemble gunzip io_fails f (List.filter is_gz (file_names f)) = Ok (concat_all chunks).
Proof. intros H. rewrite (complete_names f H). by apply (reassemble_from f chunks 0). Qed.
End Reassemble.
End Files.

(** ** Receiving *)

Section Receive.
Context {D : Type} (gzip : string -> string) (gunzip : string -> option string) (io_fails : io_op -> bool).
Context (marshal_metadata : Metadata -> string) (unmarshal_metadata : string -> option Metadata).
Context (chainID : string) (restore : string -> proc D string unit).
Implicit Types st : sync_state D.
Notation apply_chunk := (ApplySnapshotChunk gunzip io_fails marshal_metadata unmarshal_metadata chainID restore).

Section Roundtrip.
Context (chunks : list string).
Hypothesis gunzip_gzip : forall s, gunzip (gzip s) = Some s.
Hypothesis metadata_roundtrip : forall m, unmarshal_metadata (marshal_metadata m) = Some m.
Hypothesis io_works : forall op, io_fails op = false.
Hypothesis few_chunks : Z.of_nat (length chunks) <= 10 ^ 6.
Notation all := (all_chunks chunks).

(** The snapshot [sn] is accepted and the chunks in [S] are on disk. *)
Record syncing (sn : Snapshot) (S : gset Z) (d : D) (st : sync_state D) : Prop := {
  sy_height : acceptedSnapshotHeight st = sn_Height sn;
  sy_hash : acceptedSnapshotHash st = Some (sn_Hash sn);
  sy_meta : exists m md, rd_metadata (ss_recon st) = Some (set_metadata m sn) /\
              unmarshal_metadata m = Some md /\ md_ChainID md = chainID;
  sy_files : holds gzip chunks (default ∅ (height_files (wrap64 (sn_Height sn)) st)) S;
  sy_db : ss_db st = d
}.

Lemma syncing_report sn S d st sn' phase n : syncing sn S d st -> syncing sn S d (report_progress sn' phase n st).
Proof. intros []. by split. Qed.

Lemma check_sender_ok sn S d st m md sender :
  syncing sn S d st -> unmarshal_metadata m = Some md -> md_ChainID md = chainID ->
  exists st1, check_sender io_fails marshal_metadata (set_metadata m sn) md sender st = (st1, None) /\ syncing sn S d st1 /\
    ss_recon st1 = mkReconDir (rd_metadata (ss_recon st1)) (rd_heights (ss_recon st)).
Proof.
  intros H Hm Hc. unfold check_sender. destruct (EqualFold _ _).
  { exists st. split_and!; [done..|]. by destruct (ss_recon st). }
  rewrite (sy_height _ _ _ _ H), (sy_hash _ _ _ _ H). simpl. rewrite Z.eqb_refl, String.eqb_refl. simpl.
  unfold StoreOfferedSnapshot. rewrite io_works. eexists. split; [done|]. split; [|done].
  destruct H as [H1 H2 _ H4 H5]. split; simpl; [done|done| |done|done].
  exists (marshal_metadata (mkMetadata sender (md_ChainID md))), (mkMetadata sender (md_ChainID md)). done.
Qed.

Lemma store_ok sn S d st i :
  syncing sn S d st -> 0 <= i < Z.of_nat (length chunks) ->
  exists st2, (if chunkExists (wrap64 (sn_Height sn)) i st then (st, Ok tt)
               else StoreChunkForReconstruction io_fails (wrap64 (sn_Height sn)) i (default "" (chunk_file gzip chunks i)) st)
              = (st2, Ok tt) /\ syncing sn ({[i]} ∪ S) d st2 /\ is_Some (height_files (wrap64 (sn_Height sn)) st2).
Proof.
  intros H Hi. pose proof (holds_insert gzip chunks few_chunks _ S i Hi (sy_files _ _ _ _ H)) as Hh.
  unfold chunkExists. destruct (height_files (wrap64 (sn_Height sn)) st) as [f|] eqn:Ef; simpl in Hh.
  - case_bool_decide as He.
    + exists st. split; [done|]. split; [|by rewrite Ef]. destruct H as [H1 H2 H3 _ H5]. split; [done..| |done]. by rewrite Ef.
    + unfold StoreChunkForReconstruction. rewrite io_works. eexists. split; [done|].
      assert (Hf : height_files (wrap64 (sn_Height sn)) (write_file (wrap64 (sn_Height sn)) (getChunkPath i)
        (default "" (chunk_file gzip chunks i)) st) = Some (<[getChunkPath i := default "" (chunk_file gzip chunks i)]> f)).
      { unfold write_file, height_files. simpl. rewrite lookup_insert_eq. fold (height_files (wrap64 (sn_Height sn)) st). by rewrite Ef. }
      split; [|by rewrite Hf]. destruct H as [H1 H2 H3 _ H5]. split; [done..| |done]. by rewrite Hf.
  - unfold StoreChunkForReconstruction. rewrite io_works. eexists. split; [done|].
    assert (Hf : height_files (wrap64 (sn_Height sn)) (write_file (wrap64 (sn_Height sn)) (getChunkPath i)
      (default "" (chunk_file gzip chunks i)) st) = Some (<[getChunkPath i := default "" (chunk_file gzip chunks i)]> ∅)).
    { unfold write_file, height_files. simpl. rewrite lookup_insert_eq. fold (height_files (wrap64 (sn_Height sn)) st). by rewrite Ef. }
    rewrite bool_decide_false in Hh by (by rewrite lookup_empty; intros []).
    split; [|by rewrite Hf]. destruct H as [H1 H2 H3 _ H5]. split; [done..| |done]. by rewrite Hf.
Qed.

Lemma have_all sn S d st :
  syncing sn S d st -> sn_Chunks sn = Z.of_nat (length chunks) -> is_Some (height_files (wrap64 (sn_Height sn)) st) ->
  haveAllChunks io_fails (wrap64 (sn_Height sn)) (sn_Chunks sn) st = bool_decide (S = all).
Proof.
  intros H Hn [f Hf]. unfold haveAllChunks, read_height. rewrite io_works, Hf, Hn.
  pose proof (sy_files _ _ _ _ H) as Hh. rewrite Hf in Hh. simpl in Hh.
  rewrite (scanned_chunks gzip chunks few_chunks f S Hh). apply complete_size. intros i Hi. by apply Hh.
Qed.

(** The state after a completed sync. *)
Definition synced (d : D) st : Prop :=
  ss_db st = d /\ acceptedSnapshotHeight st = 0 /\ acceptedSnapshotHash st = None /\ ss_recon st = mkReconDir None ∅ /\
  ss_info st = None.

Lemma finish_ok sn d d' st :
  syncing sn all d st -> is_Some (height_files (wrap64 (sn_Height sn)) st) ->
  restore (concat_all chunks) d = (d', Ok tt) ->
  exists st', finish_sync gunzip io_fails restore sn (wrap64 (sn_Height sn)) st = (st', APPLY_ACCEPT) /\ synced d' st'.
Proof.
  intros H [f Hf] Hr. pose proof (sy_files _ _ _ _ H) as Hh. rewrite Hf in Hh. simpl in Hh.
  unfold finish_sync, ReassemblePgDump, read_height.
  change (height_files (wrap64 (sn_Height sn)) (report_progress sn PHASE_RECONSTRUCTING_CHUNKS (sn_Chunks sn) st))
    with (height_files (wrap64 (sn_Height sn)) st).
  rewrite !io_works, Hf. cbn [default from_option id].
  rewrite (reassemble_complete gzip chunks few_chunks gunzip io_fails gunzip_gzip io_works f Hh).
  simpl ss_db. rewrite (sy_db _ _ _ _ H), Hr. unfold CleanupStateSync. rewrite io_works.
  eexists. split; [done|]. by split_and!.
Qed.

(** The chunk [i] as a peer sends it. *)
Notation genuine i := (default "" (chunk_file gzip chunks i)).

Lemma apply_step sn S d d' st i sender :
  syncing sn S d st -> sn_Chunks sn = Z.of_nat (length chunks) -> 0 <= i < Z.of_nat (length chunks) ->
  restore (concat_all chunks) d = (d', Ok tt) ->
  exists st', apply_chunk i (genuine i) sender st = (st', APPLY_ACCEPT) /\
    (if decide ({[i]} ∪ S = all) then synced d' st' else syncing sn ({[i]} ∪ S) d st').
Proof.
  intros H Hn Hi Hr. destruct (sy_meta _ _ _ _ H) as (m & md & Hm & Hmd & Hc).
  unfold ApplySnapshotChunk, GetOfferedSnapshot. rewrite io_works, Hm. cbn [sn_Metadata set_metadata].
  rewrite Hmd, Hc, String.eqb_refl. cbn [negb].
  destruct (check_sender_ok sn S d st m md sender H Hmd Hc) as (st1 & -> & H1 & _).
  change (sn_Height (set_metadata m sn)) with (sn_Height sn). change (sn_Chunks (set_metadata m sn)) with (sn_Chunks sn).
  destruct (store_ok sn S d st1 i H1 Hi) as (st2 & -> & H2 & Hex).
  set (st3 := match countReconstructionChunks _ _ _ with Ok _ => _ | Err _ => _ end).
  assert (H3 : syncing sn ({[i]} ∪ S) d st3 /\ is_Some (height_files (wrap64 (sn_Height sn)) st3)).
  { unfold st3. destruct (countReconstructionChunks _ _ _); split; [by apply syncing_report|done..]. }
  clearbody st3. destruct H3 as [H3 Hex3]. rewrite (have_all sn _ d st3 H3 Hn Hex3), bool_decide_decide.
  destruct (decide ({[i]} ∪ S = all)) as [He|He]; [|by exists st3].
  rewrite He in H3. destruct (finish_ok sn d d' st3 H3 Hex3 Hr) as (st' & Hf & Hs).
  exists st'. split; [|done]. exact Hf.
Qed.

(** Chunks arrive one after the other. *)
Fixpoint deliver (msgs : list (Z * string * string)) (st : sync_state D) : sync_state D * list ApplyResult :=
  match msgs with
  | [] => (st, [])
  | (i, chunk, sender) :: msgs' =>
      let (st1, r) := apply_chunk i chunk sender st in
      let (st2, rs) := deliver msgs' st1 in (st2, r :: rs)
  end.

Definition messages (order : list (Z * string)) : list (Z * string * string) :=
  map (fun m => (m.1, genuine m.1, m.2)) order.

Lemma deliver_all sn d d' order : forall S st,
  syncing sn S d st -> sn_Chunks sn = Z.of_nat (length chunks) -> restore (concat_all chunks) d = (d', Ok tt) ->
  NoDup (map fst order) -> (forall i, i ∈ map fst order <-> i ∈ all /\ i ∉ S) -> order <> [] ->
  exists st', deliver (messages order) st = (st', repeat APPLY_ACCEPT (length order)) /\ synced d' st'.
Proof.
  induction order as [|[i sender] order IH]; intros S st H Hn Hr Hnd Hel Hne; [done|]. simpl in *.
  apply NoDup_cons in Hnd as [Hnotin Hnd].
  assert (Hi : i ∈ all /\ i ∉ S) by (apply Hel; by left). destruct Hi as [Hi HiS].
  destruct (apply_step sn S d d' st i sender H Hn (proj1 (elem_all_chunks chunks i) Hi) Hr) as (st1 & E & Hst1). rewrite E.
  assert (Hrest : forall j, j ∈ map fst order <-> j ∈ all /\ j ∉ {[i]} ∪ S).
  { intros j. rewrite not_elem_of_union, not_elem_of_singleton. split.
    - intros Hj. assert (j ∈ i :: map fst order) as Hj' by (by right). apply Hel in Hj' as [? ?].
      split_and!; [done| |done]. by intros ->.
    - intros (Hja & Hji & HjS). assert (j ∈ i :: map fst order) as [->|?]%elem_of_cons by (by apply Hel); done. }
  destruct (decide ({[i]} ∪ S = all)) as [He|He].
  - assert (order = []) as ->.
    { destruct order as [|[j s'] order]; [done|]. exfalso. assert (j ∈ all /\ j ∉ {[i]} ∪ S) as [H1 H2] by (apply Hrest; by left).
      apply H2. by rewrite He. }
    simpl. by exists st1.
  - destruct (IH ({[i]} ∪ S) st1 Hst1 Hn Hr Hnd Hrest) as (st' & E' & Hs).
    + intros ->. apply He. apply set_eq. intros j. destruct (Hrest j) as [_ Hj].
      split; [|intros Ha; destruct (decide (j ∈ {[i]} ∪ S)); [done|]; exfalso; by apply not_elem_of_nil with (x := j), Hj].
      intros [->%elem_of_singleton|HjS]%elem_of_union; [done|]. apply elem_all_chunks. by apply (sy_files _ _ _ _ H).
    + rewrite E'. by exists st'.
Qed.
End Roundtrip.
End Receive.

(** ** From one node to another *)

(** What gzip and JSON promise: what is written reads back. *)
Class SnapshotLaws (gzip : string -> string) (gunzip : string -> option string)
    (marshal_metadata : Metadata -> string) (unmarshal_metadata : string -> option Metadata) : Prop := {
  gunzip_gzip : forall s, gunzip (gzip s) = Some s;
  metadata_roundtrip : forall m, unmarshal_metadata (marshal_metadata m) = Some m
}.

Section Create.
Context (gzip : string -> string) (gunzip : string -> option string) (io_fails : io_op -> bool).
Context (marshal_metadata : Metadata -> string) (unmarshal_metadata : string -> option Metadata).
Context (chunk_size : Z) (so : snapshot_source) (sv : served).
Hypothesis io_works : forall op, io_fails op = false.
Notation chunks := (dump_chunks chunk_size (so_dump so)).

(** The node can create a snapshot: there is room, it is in sync, and it has none of
    this height. *)
Record can_create : Prop := {
  cc_free : so_min_free so <= so_free so;
  cc_synced : so_catching_up so = false;
  cc_height : 0 < so_height so < 2 ^ 63;
  cc_new : sv !! getHeightDir (so_height so) = None;
  cc_chunks : Z.of_nat (length chunks) <= 10 ^ 6
}.

Definition created_snapshot : Snapshot :=
  mkSnapshot (so_height so) 1 (Z.of_nat (length chunks)) (so_block_hash so)
    (marshal_metadata (mkMetadata (so_sender so) (so_chain so))).

Lemma createSnapshot_ok :
  can_create ->
  createSnapshot gzip io_fails marshal_metadata chunk_size so sv =
    (<[getHeightDir (so_height so) := mkSnapshotDir (Some created_snapshot) (write_chunks gzip chunks)]> sv, Ok tt).
Proof.
  intros []. unfold createSnapshot, snapshotDirHasMinFreeBytes. rewrite !io_works, cc_synced0, cc_new0.
  assert ((if so_min_free so <=? 0 then Ok true else Ok (so_min_free so <=? so_free so)) = (Ok true : res string bool)) as ->.
  { destruct (so_min_free so <=? 0); [done|]. f_equal. by apply Z.leb_le. }
  rewrite (proj2 (Z.leb_gt _ _)) by lia. cbn [orb from_option].
  unfold write_snapshot, chunkPgDump. rewrite !io_works.
  assert (existsb (fun i => io_fails (OpWriteServed (Z.of_nat i))) (seq 0 (length chunks)) = false) as ->.
  { apply not_true_iff_false. intros (? & _ & E)%existsb_exists. by rewrite io_works in E. }
  cbn [guard_err rbind fst snd]. rewrite Z.mod_small by lia. by rewrite (right_id_L ∅ (∪)).
Qed.

Notation sv' := (createSnapshot gzip io_fails marshal_metadata chunk_size so sv).1.

Lemma created_is_listed : can_create ->
  exists l, ListSnapshots io_fails true sv' = Ok l /\ created_snapshot ∈ l.
Proof.
  intros H. rewrite (createSnapshot_ok H). cbn [fst]. unfold ListSnapshots, getStoredSnapshots. rewrite io_works. cbn [negb].
  set (sv2 := <[_ := _]> sv).
  assert (existsb (fun e : string * snapshot_dir => match sd_metadata e.2 with Some _ => io_fails (OpReadMetadata e.1) | None => false end)
    (map_to_list sv2) = false) as ->.
  { apply not_true_iff_false. intros (? & _ & E)%existsb_exists. destruct (sd_metadata _); [|done]. by rewrite io_works in E. }
  eexists. split; [done|]. rewrite merge_sort_Permutation, list_elem_of_In, filter_In, <- list_elem_of_In, list_elem_of_omap.
  split; [|cbn; rewrite (proj2 (Z.eqb_neq _ _)); [done|destruct H; lia]].
  exists (getHeightDir (so_height so), mkSnapshotDir (Some created_snapshot) (write_chunks gzip chunks)). split; [|done].
  apply elem_of_map_to_list. unfold sv2. apply lookup_insert_eq.
Qed.

Lemma created_is_served i : can_create -> 0 <= i < Z.of_nat (length chunks) ->
  LoadSnapshotChunk io_fails (so_height so) i sv' = Ok (default "" (chunk_file gzip chunks i)).
Proof.
  intros H Hi. rewrite (createSnapshot_ok H). cbn [fst]. destruct H. unfold LoadSnapshotChunk, GetChunkByHeight.
  rewrite wrap64_id by (unfold is_int64, int64_min, int64_max; lia).
  rewrite lookup_insert_eq, !io_works. cbn [sd_metadata sd_files]. rewrite (write_chunks_lookup gzip chunks cc_chunks0 i Hi).
  unfold chunk_file. by destruct (lookup_lt_is_Some_2 chunks (Z.to_nat i)) as [c ->]; [lia|].
Qed.
End Create.

(** A disk that works. *)
Definition no_faults (op : io_op) : bool := false.

Section Transfer.
Context {D : Type} (gzip : string -> string) (gunzip : string -> option string).
Context (marshal_metadata : Metadata -> string) (unmarshal_metadata : string -> option Metadata).
Context {laws : SnapshotLaws gzip gunzip marshal_metadata unmarshal_metadata}.
Context (chainID : string) (restore : string -> proc D string unit).
Implicit Types st : sync_state D.

(** A node that has accepted nothing and has no files of this height. *)
Definition fresh_receiver (h : Z) st : Prop := acceptedSnapshotHeight st = 0 /\ height_files h st = None.

Lemma fresh_offer chunks sn m md d st :
  fresh_receiver (wrap64 (sn_Height sn)) st -> sn_Metadata sn = m -> unmarshal_metadata m = Some md -> md_ChainID md = chainID ->
  ss_db st = d ->
  exists st1, OfferSnapshot no_faults sn st = (st1, OFFER_ACCEPT) /\
    syncing gzip unmarshal_metadata chainID chunks sn ∅ d st1.
Proof.
  intros [Ha Hf] Hm Hu Hc Hd. unfold OfferSnapshot. rewrite Ha. unfold StoreOfferedSnapshot, no_faults. cbn [Z.eqb negb].
  eexists. split; [reflexivity|]. split; [done|done| | |done].
  - exists m, md. split; [|done]. cbn. rewrite <- Hm. by destruct sn.
  - change (holds gzip chunks (default ∅ (height_files (wrap64 (sn_Height sn)) st)) ∅). rewrite Hf. apply holds_empty.
Qed.

(** The chunks [order] names with their senders, as the serving node hands them out. *)
Definition served_messages (h : Z) (sv : served) (order : list (Z * string)) : list (Z * string * string) :=
  map (fun m => (m.1, match LoadSnapshotChunk no_faults h m.1 sv with Ok c => c | Err _ => "" end, m.2)) order.

(** C32 -- A snapshot survives the transfer. The serving node has the disk space, is not
    catching up, has no snapshot of that height yet, and its dump is not empty and
    splits into at most 10^6 chunks; the receiving node, of the same chain, has accepted
    no snapshot and has no reconstruction files of that height; no file operation fails
    on either, and restoring the dump succeeds. Then the snapshot is listed among those
    the first node serves, the second accepts the offer, and when the chunks the first
    serves reach it, each once, in any order and forwarded by any peers, it accepts
    every one, restores exactly the dump that was taken and leaves nothing of the sync
    behind. *)
Theorem snapshot_roundtrip chunk_size so sv st d' :
  0 < chunk_size -> so_dump so <> "" -> can_create chunk_size so sv -> so_chain so = chainID ->
  fresh_receiver (so_height so) st -> restore (so_dump so) (ss_db st) = (d', Ok tt) ->
  let sv' := fst (createSnapshot gzip no_faults marshal_metadata chunk_size so sv) in
  exists sn l, ListSnapshots no_faults true sv' = Ok l /\ sn ∈ l /\ sn_Height sn = so_height so /\
    exists st1, OfferSnapshot no_faults sn st = (st1, OFFER_ACCEPT) /\
      forall order, map fst order ≡ₚ seqZ 0 (sn_Chunks sn) ->
        exists st', deliver gunzip no_faults marshal_metadata unmarshal_metadata chainID restore
                      (served_messages (sn_Height sn) sv' order) st1 = (st', repeat APPLY_ACCEPT (length order)) /\
          synced d' st'.
Proof.
  intros Hs Hne Hcan Hchain Hfresh Hr sv'.
  assert (io_works : forall op, no_faults op = false) by done.
  destruct (created_is_listed gzip no_faults marshal_metadata chunk_size so sv io_works Hcan) as (l & Hl & Hin).
  set (chunks := dump_chunks chunk_size (so_dump so)) in *.
  assert (Hcat : concat_all chunks = so_dump so) by (by apply dump_chunks_concat).
  assert (Hw : wrap64 (so_height so) = so_height so)
    by (apply wrap64_id; destruct (cc_height _ _ _ Hcan); unfold is_int64, int64_min, int64_max; lia).
  exists (created_snapshot marshal_metadata chunk_size so), l. split_and!; [done|done|done|].
  destruct (fresh_offer chunks (created_snapshot marshal_metadata chunk_size so) (sn_Metadata (created_snapshot marshal_metadata chunk_size so)) (mkMetadata (so_sender so) (so_chain so)) (ss_db st) st)
    as (st1 & Ho & Hsy); [cbn; by rewrite Hw|done|cbn; apply metadata_roundtrip|done..|].
  exists st1. split; [done|]. intros order Hperm. cbn [sn_Chunks created_snapshot] in Hperm. fold chunks in Hperm.
  assert (Helem : forall i, i ∈ map fst order <-> 0 <= i < Z.of_nat (length chunks)).
  { intros i. rewrite Hperm, elem_of_seqZ. lia. }
  assert (served_messages (sn_Height (created_snapshot marshal_metadata chunk_size so)) sv' order = messages gzip chunks order) as ->.
  { apply map_ext_in. intros [i sender] Hi. cbn [fst snd sn_Height created_snapshot]. unfold sv'.
    rewrite created_is_served; [done..|]. apply Helem, list_elem_of_In, in_map_iff. by exists (i, sender). }
  rewrite <- Hcat in Hr. eapply deliver_all; try done; [apply gunzip_gzip|apply metadata_roundtrip|apply (cc_chunks _ _ _ Hcan)| | |].
  - rewrite Hperm. apply NoDup_seqZ.
  - intros i. rewrite Helem, elem_all_chunks. set_solver.
  - intros ->. apply Hne. rewrite <- Hcat. destruct chunks as [|c cs]; [done|].
    exfalso. apply (not_elem_of_nil (0 : Z)), Helem. cbn [length]. lia.
Qed.
End Transfer.

(** ** A damaged chunk *)

Section Stuck.
Context {D : Type} (gunzip : string -> option string) (io_fails : io_op -> bool).
Context (marshal_metadata : Metadata -> string) (unmarshal_metadata : string -> option Metadata).
Context (chainID : string) (restore : string -> proc D string unit).
Implicit Types st : sync_state D.

Inductive sync_event :=
| Offered (sn : Snapshot)
| Received (index : Z) (chunk sender : string).

Definition sync_step (e : sync_event) st : sync_state D :=
  match e with
  | Offered sn => fst (OfferSnapshot io_fails sn st)
  | Received i c s => fst (ApplySnapshotChunk gunzip io_fails marshal_metadata unmarshal_metadata chainID restore i c s st)
  end.

(** The event concerns height [h]. *)
Definition event_of (h : Z) (e : sync_event) : Prop :=
  match e with Offered sn => wrap64 (sn_Height sn) = h | Received _ _ _ => True end.

(** The file of chunk [i] of height [h] holds [data], and no other height is on offer. *)
Record stored_chunk (h i : Z) (data : string) (d : D) st : Prop := {
  sc_offer : forall sn, rd_metadata (ss_recon st) = Some sn -> wrap64 (sn_Height sn) = h;
  sc_file : exists f, height_files h st = Some f /\ f !! getChunkPath i = Some data;
  sc_db : ss_db st = d
}.

Context (h i : Z) (data : string) (d : D).
Hypothesis damaged : gunzip data = None.
Notation stuck := (stored_chunk h i data d).

Lemma reassemble_damaged f names :
  f !! getChunkPath i = Some data -> getChunkPath i ∈ names -> exists e, reassemble gunzip io_fails f names = Err e.
Proof.
  intros Hf. induction names as [|n names IH]; [by intros ?%not_elem_of_nil|]. intros Hin. cbn [reassemble].
  destruct (io_fails _); [by eexists|].
  destruct (decide (n = getChunkPath i)) as [->|Hne]; [rewrite Hf; cbn; rewrite damaged; by eexists|].
  apply elem_of_cons in Hin as [E|Hin]; [by rewrite E in Hne|]. destruct (IH Hin) as [e ->].
  destruct (gunzip (default "" (f !! n))); by eexists.
Qed.

Lemma stuck_store st sn : wrap64 (sn_Height sn) = h -> stuck st -> stuck (fst (StoreOfferedSnapshot io_fails sn st)).
Proof.
  intros Hh [H1 H2 H3]. unfold StoreOfferedSnapshot. destruct (io_fails _); [by split|].
  split; [|done..]. cbn. by intros ? [= <-].
Qed.

Lemma stuck_finish st sn : stuck st -> stuck (fst (finish_sync gunzip io_fails restore sn h st)).
Proof.
  intros [H1 (f & Hf & Hi) H3]. unfold finish_sync, ReassemblePgDump.
  destruct (io_fails OpCreateDump); [by split; [|exists f|]|]. unfold read_height.
  destruct (io_fails OpReadHeight); [by split; [|exists f|]|].
  change (height_files h (report_progress sn PHASE_RECONSTRUCTING_CHUNKS (sn_Chunks sn) st)) with (height_files h st).
  rewrite Hf. cbn [default from_option id].
  destruct (reassemble_damaged f (List.filter is_gz (file_names f)) Hi) as [e ->]; [|by split; [|exists f|]].
  apply list_elem_of_In, filter_In. split; [|apply chunk_path_gz]. apply list_elem_of_In, elem_file_names. by eexists.
Qed.

Lemma stuck_chunk st idx c :
  stuck st -> stuck (fst (if chunkExists h idx st then (st, Ok tt) else StoreChunkForReconstruction io_fails h idx c st)).
Proof.
  intros [H1 (f & Hf & Hi) H3]. unfold chunkExists. rewrite Hf. case_bool_decide as He; [by split; [|exists f|]|].
  unfold StoreChunkForReconstruction. destruct (io_fails _); [by split; [|exists f|]|].
  split; [done| |done]. eexists. unfold write_file, height_files. cbn. rewrite lookup_insert_eq. split; [done|].
  unfold height_files in Hf. rewrite Hf. cbn. rewrite lookup_insert_ne; [done|]. intros E. apply He. rewrite E. by eexists.
Qed.

Lemma stuck_apply st idx c s :
  stuck st -> stuck (fst (ApplySnapshotChunk gunzip io_fails marshal_metadata unmarshal_metadata chainID restore idx c s st)).
Proof.
  intros H. unfold ApplySnapshotChunk, GetOfferedSnapshot. destruct (io_fails OpGetOffered); [done|].
  destruct (rd_metadata (ss_recon st)) as [sn|] eqn:Em; [|done].
  pose proof (sc_offer _ _ _ _ _ H sn Em) as Hh. destruct (unmarshal_metadata _) as [md|]; [|done].
  destruct (negb _); [done|].
  assert (Hcs : stuck (fst (check_sender io_fails marshal_metadata sn md s st))).
  { unfold check_sender. destruct (EqualFold _ _); [done|]. destruct (_ && _); [by apply stuck_store|done]. }
  destruct (check_sender _ _ _ _ _ _) as [st1 [r|]]; [done|]. cbn [fst] in Hcs. rewrite Hh.
  pose proof (stuck_chunk st1 idx c Hcs) as Hst. destruct (if chunkExists h idx st1 then _ else _) as [st2 [?|?]]; [|done].
  cbn [fst] in Hst. set (st3 := match countReconstructionChunks _ _ _ with Ok _ => _ | Err _ => _ end).
  assert (H3 : stuck st3) by (unfold st3; destruct (countReconstructionChunks _ _ _); [by destruct Hst; split|done]).
  destruct (haveAllChunks _ _ _ _); [by apply stuck_finish|done].
Qed.

Lemma stuck_offer st sn : wrap64 (sn_Height sn) = h -> stuck st -> stuck (fst (OfferSnapshot io_fails sn st)).
Proof.
  intros Hh H. unfold OfferSnapshot. destruct (negb (acceptedSnapshotHeight st =? 0)).
  - set (st1 := if negb _ then _ else st). assert (H1 : stuck st1) by (unfold st1; destruct (negb _); [by destruct H; split|done]).
    clearbody st1. destruct (negb (same_bytes _ _)); [exact H1|]. pose proof (stuck_store st1 sn Hh H1) as H2. destruct H2. by split.
  - pose proof (stuck_store st sn Hh H) as H2. destruct (StoreOfferedSnapshot _ _ _) as [st1 [?|?]]; [|done].
    cbn [fst] in H2. destruct H2. by split.
Qed.
End Stuck.

(** A chunk file that does not decompress is never replaced: the good copy of the same
    chunk is skipped because the file exists, so whatever chunks arrive for the
    offered height, from whichever peers, and however often the snapshot is offered
    again, the file stays and the database is never restored. *)
Theorem damaged_chunk_blocks_sync {D} gunzip io_fails marshal_metadata unmarshal_metadata chainID (restore : string -> proc D string unit)
    h i data (d : D) st events :
  gunzip data = None -> stored_chunk h i data d st -> Forall (event_of h) events ->
  stored_chunk h i data d
    (fold_left (fun s e => sync_step gunzip io_fails marshal_metadata unmarshal_metadata chainID restore e s) events st).
Proof.
  intros Hd H He. revert st H. induction He as [|[sn|idx c s] events Hh _ IH]; intros st H; [done| |]; apply IH.
  - by apply stuck_offer.
  - by apply stuck_apply.
Qed.

(** Once a snapshot is accepted, an offer of another height is rejected (unless its
    hash is empty): the state is cleared for it, but the hash check that follows
    compares it with the cleared hash.  Only a further offer is accepted. *)
Theorem next_offer_is_rejected {D} io_fails (st : sync_state D) sn :
  acceptedSnapshotHeight st <> 0 -> sn_Height sn <> acceptedSnapshotHeight st -> sn_Hash sn <> "" ->
  OfferSnapshot io_fails sn st = (set_accepted 0 None st, OFFER_REJECT) /\
  (forall sn', io_fails OpStoreOffered = false -> snd (OfferSnapshot io_fails sn' (set_accepted 0 None st)) = OFFER_ACCEPT).
Proof.
  intros Ha Hh He. split.
  - unfold OfferSnapshot. rewrite (proj2 (Z.eqb_neq _ _) Ha), (proj2 (Z.eqb_neq _ _) Hh). cbn [negb set_accepted acceptedSnapshotHash].
    assert (same_bytes (sn_Hash sn) None = false) as -> by (by apply String.eqb_neq). done.
  - intros sn' Hio. unfold OfferSnapshot, StoreOfferedSnapshot. cbn. by rewrite Hio.
Qed.

(** ** Pruning *)

Lemma delete_all_lookup {A} (names : list string) (m : gmap string A) k :
  fold_left (fun d name => delete name d) names m !! k = if decide (k ∈ names) then None else m !! k.
Proof.
  revert m. induction names as [|n names IH]; intros m; cbn [fold_left]; [by rewrite decide_False by apply not_elem_of_nil|].
  rewrite IH. destruct (decide (k ∈ names)) as [H|H]; [by rewrite decide_True by (by right)|].
  destruct (decide (k = n)) as [->|Hne]; [rewrite lookup_delete_eq, decide_True by (by left); done|].
  rewrite lookup_delete_ne, decide_False by (try apply not_elem_of_cons; done). done.
Qed.

Lemma elem_dir_names {A} (m : gmap string A) k : k ∈ merge_sort String.le (map fst (map_to_list m)) <-> is_Some (m !! k).
Proof.
  rewrite merge_sort_Permutation. change (k ∈ (map_to_list m).*1 <-> is_Some (m !! k)). rewrite list_elem_of_fmap. split.
  - intros ([k' v] & -> & Hin). apply elem_of_map_to_list in Hin. by exists v.
  - intros [v Hv]. exists (k, v). split; [done|]. by apply elem_of_map_to_list.
Qed.

Lemma sorted_app_le {A} (R : relation A) l1 l2 a b :
  StronglySorted R (l1 ++ l2) -> a ∈ l1 -> b ∈ l2 -> R a b.
Proof.
  induction l1 as [|c l1 IH]; intros Hs Ha Hb; [by apply not_elem_of_nil in Ha|]. inversion Hs as [|? ? Hs' Hc]; subst.
  apply elem_of_cons in Ha as [->|Ha]; [|by apply IH]. rewrite Forall_forall in Hc. apply Hc, elem_of_app. by right.
Qed.

(** Pruning keeps the newest snapshots: it deletes whole snapshots only, leaves
    min(keep, number) of them, and every snapshot it deletes is of a lower height than
    every one it keeps. *)
Theorem prune_keeps_newest io_fails keep (sv : served) :
  io_fails OpReadSnapshots = false -> 0 <= keep ->
  (forall name, is_Some (sv !! name) -> exists h, 0 <= h < 10 ^ 10 /\ name = getHeightDir h) ->
  exists sv', pruneSnapshots io_fails keep sv = (sv', Ok tt) /\ sv' ⊆ sv /\
    Z.of_nat (size sv') = Z.min keep (Z.of_nat (size sv)) /\
    forall h h', 0 <= h < 10 ^ 10 -> 0 <= h' < 10 ^ 10 -> is_Some (sv' !! getHeightDir h) ->
      is_Some (sv !! getHeightDir h') -> sv' !! getHeightDir h' = None -> h' < h.
Proof.
  intros Hio Hk Hnames. unfold pruneSnapshots. rewrite Hio. set (l := merge_sort _ _). set (n := Z.to_nat _).
  assert (Hnd : NoDup l) by (unfold l; rewrite merge_sort_Permutation; apply NoDup_fst_map_to_list).
  assert (Hsort : StronglySorted String.le l) by apply (StronglySorted_merge_sort String.le).
  assert (Hlen : length l = size sv) by (unfold l; rewrite merge_sort_Permutation, length_map; apply length_map_to_list).
  rewrite <- (take_drop n l) in Hnd, Hsort. apply NoDup_app in Hnd as (_ & Hdisj & Hndd).
  set (sv' := fold_left _ _ _). assert (Hlk : forall k, sv' !! k = if decide (k ∈ take n l) then None else sv !! k)
    by (intros; apply delete_all_lookup).
  assert (Hkept : forall k, is_Some (sv' !! k) <-> k ∈ drop n l).
  { intros k. rewrite Hlk. assert (Hl : is_Some (sv !! k) <-> k ∈ take n l \/ k ∈ drop n l)
      by (rewrite <- elem_of_app, take_drop; symmetry; apply elem_dir_names).
    destruct (decide (k ∈ take n l)) as [Ht|Ht]; [|naive_solver]. split; [by intros []|]. intros. by destruct (Hdisj k). }
  exists sv'. split_and!; [done| | |].
  - apply map_subseteq_spec. intros k v. rewrite Hlk. by destruct (decide _).
  - rewrite <- (size_dom (D := gset string)). replace (dom sv') with (list_to_set (drop n l) : gset string).
    + rewrite size_list_to_set by done. rewrite length_drop. unfold n. rewrite Hlen. lia.
    + apply set_eq. intros k. by rewrite elem_of_list_to_set, elem_of_dom, Hkept.
  - intros h h' Hh Hh' Hkeep Hin Hdel. rewrite Hkept in Hkeep. rewrite Hlk in Hdel.
    destruct (decide _) as [Ht|Ht]; [|by rewrite Hdel in Hin; destruct Hin].
    pose proof (sorted_app_le _ _ _ _ _ Hsort Ht Hkeep) as Hle. destruct (Z.lt_total h' h) as [?|[->|Hlt]]; [done| |].
    + by destruct (Hdisj _ Ht).
    + pose proof (height_dir_lt h h' ltac:(lia) Hlt ltac:(lia)) as Hc.
      assert (Heq : getHeightDir h = getHeightDir h') by (apply (anti_symm String.le); [by apply compare_lt_le|done]).
      rewrite Heq in Hkeep. by destruct (Hdisj _ Ht).
Qed.

(** ** Witnesses *)

Module SnapshotExample.
(** A marker byte for gzip; a self-delimiting code for the JSON. *)
Definition gzip (s : string) : string := String "z" s.
Definition gunzip (s : string) : option string := match s with String "z" t => Some t | _ => None end.

Fixpoint encode (s t : string) : string :=
  match s with EmptyString => String "0" t | String c s' => String "1" (String c (encode s' t)) end.
Fixpoint decode (s : string) : option (string * string) :=
  match s with
  | String "0" t => Some ("", t)
  | String "1" (String c s') => match decode s' with Some (a, t) => Some (String c a, t) | None => None end
  | _ => None
  end.

Lemma decode_encode s t : decode (encode s t) = Some (s, t).
Proof. induction s as [|c s IH]; cbn; [done|]. by rewrite IH. Qed.

Definition marshal (m : Metadata) : string := encode (md_Sender m) (md_ChainID m).
Definition unmarshal (s : string) : option Metadata := match decode s with Some (a, t) => Some (mkMetadata a t) | None => None end.

#[export] Instance example_laws : SnapshotLaws gzip gunzip marshal unmarshal.
Proof. split; [done|]. intros [a t]. unfold unmarshal, marshal. cbn. by rewrite decode_encode. Qed.

Definition restore (dump : string) : proc (list string) string unit := fun db => (dump :: db, Ok tt).
Definition source : snapshot_source := mkSource 100 10 false 42 "blockhash" "abcde" "node1" "audius".
Definition receiver : sync_state (list string) := mkSyncState 0 None (mkReconDir None ∅) None ["old"].

(** A chunk that was cut off while it was written. *)
Definition offered : Snapshot := mkSnapshot 42 1 1 "blockhash" (marshal (mkMetadata "node1" "audius")).
Definition damaged_receiver : sync_state (list string) :=
  mkSyncState 42 (Some "blockhash") (mkReconDir (Some offered) {[42 := {[getChunkPath 0 := ""]}]}) None ["old"].

Definition three : served := list_to_map (map (fun h => (getHeightDir h, mkSnapshotDir None ∅)) [9; 100; 10]).
End SnapshotExample.
Import SnapshotExample.

Lemma snapshot_roundtrip_witness :
  exists sn l st1 st', ListSnapshots no_faults true (fst (createSnapshot gzip no_faults marshal 2 source ∅)) = Ok l /\ sn ∈ l /\
    OfferSnapshot no_faults sn receiver = (st1, OFFER_ACCEPT) /\
    deliver gunzip no_faults marshal unmarshal "audius" restore
      (served_messages (sn_Height sn) (fst (createSnapshot gzip no_faults marshal 2 source ∅)) [(2, "p"); (0, "q"); (1, "node1")]) st1
      = (st', [APPLY_ACCEPT; APPLY_ACCEPT; APPLY_ACCEPT]) /\ synced ["abcde"; "old"] st'.
Proof.
  destruct (snapshot_roundtrip gzip gunzip marshal unmarshal "audius" restore 2 source ∅ receiver ["abcde"; "old"])
    as (sn & l & Hl & Hin & Hh & st1 & Ho & Hd);
    [done..|by split; [vm_compute; discriminate|done|vm_compute; auto|done|vm_compute; discriminate]|done|by split|done|].
  assert (Hc : sn_Chunks sn = 3).
  { clear - Hl Hin. vm_compute in Hl. injection Hl as <-. apply list_elem_of_singleton in Hin as ->. done. }
  destruct (Hd [(2, "p"); (0, "q"); (1, "node1")]) as (st' & Hd' & Hs); [rewrite Hc; by apply (Permutation_app_comm [2])|].
  exists sn, l, st1, st'. exact (conj Hl (conj Hin (conj Ho (conj Hd' Hs)))).
Defined.

Lemma damaged_chunk_blocks_sync_witness :
  stored_chunk 42 0 "" ["old"]
    (sync_step gunzip no_faults marshal unmarshal "audius" restore (Received 0 (gzip "abcde") "node1")
      (sync_step gunzip no_faults marshal unmarshal "audius" restore (Offered offered) damaged_receiver)).
Proof.
  apply (damaged_chunk_blocks_sync gunzip no_faults marshal unmarshal "audius" restore 42 0 "" ["old"] damaged_receiver
    [Offered offered; Received 0 (gzip "abcde") "node1"]); [done| |by repeat constructor].
  split; [by intros ? [= <-]| |done]. eexists. split; reflexivity.
Defined.

Lemma next_offer_is_rejected_witness :
  snd (OfferSnapshot no_faults (mkSnapshot 50 1 1 "newer" "") damaged_receiver) = OFFER_REJECT.
Proof. by destruct (next_offer_is_rejected no_faults damaged_receiver (mkSnapshot 50 1 1 "newer" "")) as [-> _]. Defined.

Lemma prune_keeps_newest_witness :
  exists sv', pruneSnapshots no_faults 2 three = (sv', Ok tt) /\ sv' !! getHeightDir 9 = None /\ is_Some (sv' !! getHeightDir 100).
Proof.
  destruct (prune_keeps_newest no_faults 2 three) as (sv' & H & _ & _ & _); [done|done| |].
  { intros name [d Hd]. apply elem_of_list_to_map_2 in Hd.
    apply list_elem_of_In, in_map_iff in Hd.
    destruct Hd as (h & [= <- <-] & Hin). exists h. split; [|done]. cbn in Hin. lia. }
  exists sv'. split; [done|]. assert (E : sv' = fst (pruneSnapshots no_faults 2 three)) by (by rewrite H).
  rewrite E. by split; vm_compute; [|eexists].
Defined.
