(* ===== verification/Rewards.v ===== *)
(** * Reward pools and rewards

    Models pkg/core/server/reward_pools.go, rewards.go, rewards_legacy.go and
    reward_state.go, with pkg/rewards/reward_pool.go: pools of authorities keyed by
    a Solana reward manager, the rewards issued under them, the transactions that
    change them (current and legacy wire format), and their projection by the
    genesis writer. *)

From stdpp Require Import base gmap strings list sorting fin_maps pretty.
From Stdlib Require Import ZArith Lia.
From S2P Require Import Prelude Crypto Rendezvous.

Open Scope string_scope.
Open Scope Z_scope.

(** ** Canonical authorities *)

(** sort.Strings: byte order. *)
Definition sort_strings : list string -> list string := merge_sort String.le.

Definition normalize (a : string) : string := ToLower (TrimSpace a).

(** The loop: [seen] and [out] hold the same names. *)
Fixpoint dedup (authorities out : list string) : list string :=
  match authorities with
  | [] => out
  | a :: rest =>
      let a := normalize a in
      if String.eqb a "" then dedup rest out
      else if bool_decide (a ∈ out) then dedup rest out
      else dedup rest (app out [a])
  end.

Definition CanonicalAuthorities (authorities : list string) : list string := sort_strings (dedup authorities []).

(** ** Messages *)

Record CreateReward := mkCreateReward {
  rw_RewardId : string;
  rw_Name : string;
  rw_Amount : Z;
  rw_RewardsManagerPubkey : string
}.

Inductive reward_action :=
| RewardBody_Create (c : CreateReward)
| RewardBody_Delete (address : string).

Record RewardBody := mkRewardBody {
  rb_Deadline : Z;
  rb_Action : option reward_action
}.

(** [rw_Unknown] are the bytes of fields this version does not know. *)
Record RewardMessage := mkRewardMessage {
  rw_Body : option RewardBody;
  rw_Signature : string;
  rw_Unknown : string
}.

Inductive pool_action :=
| RewardPoolBody_Create (rm : string) (authorities : list string)
| RewardPoolBody_SetAuthorities (rm : string) (authorities : list string).

Record RewardPoolBody := mkRewardPoolBody {
  pb_Deadline : Z;
  pb_Action : option pool_action
}.

Record RewardPoolMessage := mkRewardPoolMessage {
  pm_Body : option RewardPoolBody;
  pm_Signature : string;
  pm_RmOwnerSignature : string
}.

Record LegacyCreateReward := mkLegacyCreateReward {
  lc_RewardId : string;
  lc_Name : string;
  lc_Amount : Z;
  lc_ClaimAuthorities : list (string * string);
  lc_Deadline : Z;
  lc_Signature : string
}.

Record LegacyDeleteReward := mkLegacyDeleteReward {
  ld_Address : string;
  ld_Deadline : Z;
  ld_Signature : string
}.

Inductive legacy_action :=
| LegacyCreate (c : LegacyCreateReward)
| LegacyDelete (d : LegacyDeleteReward).

(** ** Tables *)

Record CoreReward := mkCoreReward {
  cr_Address : string;
  cr_TxHash : string;
  cr_Index : Z;
  cr_Sender : string;
  cr_RewardID : string;
  cr_Name : string;
  cr_Amount : Z;
  cr_RewardsManagerPubkey : option string;
  cr_RawMessage : string;
  cr_BlockHeight : Z
}.

(** core_reward_pools by primary key and core_rewards in insertion order. *)
Record reward_tables := mkRewardTables {
  rt_pools : gmap string (list string);
  rt_rewards : list CoreReward
}.

Inductive reward_query :=
| QGetRewardPool (rm : string)
| QGetReward (address : string)
| QInsertRewardPool (rm : string)
| QUpdateRewardPool (rm : string)
| QUpsertLegacyPool (rm : string)
| QLaunchpad
| QInsertReward (address : string)
| QDeleteReward (address : string).

Inductive reward_error :=
| ErrRewardMessageValidation (msg : string)
| ErrRewardSignatureInvalid
| ErrRewardExpired
| ErrRewardUnauthorized (msg : string)
| ErrRewardPoolOwnerSignatureInvalid
| ErrRewardOther (msg : string).

Definition pool_proc := proc reward_tables reward_error.

Section Rewards.
Context {C : EthCrypto}.
(** Deterministic encodings of the signed bodies and of the raw messages, the
    legacy decoder ([None] on malformed bytes, [Some None] without an action),
    base58, ed25519.Verify, ethcommon.IsHexAddress and json.Marshal of strings. *)
Context (signable_reward : RewardBody -> option string)
        (signable_pool : RewardPoolBody -> option string)
        (marshal_reward_message : RewardMessage -> option string)
        (unmarshal_legacy : string -> option (option legacy_action))
        (marshal_create : CreateReward -> option string)
        (marshal_legacy_create : LegacyCreateReward -> option string)
        (base58_decode : string -> option string)
        (ed25519_verify : string -> string -> string -> bool)
        (IsHexAddress : string -> bool)
        (json_strings : list string -> string).
(** The chain, AudioRewardsManagerPubkey of the environment, the seed table
    launchpad_authority_rm and the failing statements. *)
Context (chainID audioRM : string) (launchpad : list (string * string)) (fault : reward_query -> bool).

(** *** Statements *)

Definition ask {A} (q : reward_query) (a : A) : res reward_error A :=
  if fault q then Err (ErrRewardOther "query failed") else Ok a.

Definition exec (q : reward_query) (f : reward_tables -> res reward_error reward_tables) : pool_proc unit :=
  fun t => if fault q then (t, Err (ErrRewardOther "statement failed"))
           else match f t with
                | Ok t' => (t', Ok tt)
                | Err e => (t, Err e)
                end.

Definition GetRewardPool (rm : string) (t : reward_tables) : res reward_error (option (list string)) :=
  ask (QGetRewardPool rm) (rt_pools t !! rm).

(** The newest row at an address, with the authorities of its pool. *)
Fixpoint newest (rows : list CoreReward) (best : option CoreReward) : option CoreReward :=
  match rows with
  | [] => best
  | r :: rows' =>
      newest rows' (match best with
                    | Some b => if cr_BlockHeight b <? cr_BlockHeight r then Some r else Some b
                    | None => Some r
                    end)
  end.

Definition claim_authorities (t : reward_tables) (r : CoreReward) : list string :=
  default [] (rm ← cr_RewardsManagerPubkey r; rt_pools t !! rm).

Definition GetReward (address : string) (t : reward_tables) :
    res reward_error (option (CoreReward * list string)) :=
  ask (QGetReward address)
    ((fun r => (r, claim_authorities t r)) <$>
       newest (List.filter (fun r => String.eqb (cr_Address r) address) (rt_rewards t)) None).

Definition InsertRewardPool (rm : string) (authorities : list string) : pool_proc unit :=
  exec (QInsertRewardPool rm) (fun t =>
    match rt_pools t !! rm with
    | Some _ => Err (ErrRewardOther "duplicate key value violates unique constraint")
    | None => Ok (mkRewardTables (<[rm := authorities]> (rt_pools t)) (rt_rewards t))
    end).

Definition UpdateRewardPoolAuthorities (rm : string) (authorities : list string) : pool_proc unit :=
  exec (QUpdateRewardPool rm) (fun t =>
    Ok (mkRewardTables (alter (fun _ => authorities) rm (rt_pools t)) (rt_rewards t))).

(** On conflict: the distinct non-empty lowercased names of both sets, in order. *)
Definition UpsertLegacyReplayRewardPool (rm : string) (authorities : list string) : pool_proc unit :=
  exec (QUpsertLegacyPool rm) (fun t =>
    Ok (mkRewardTables
          (<[rm := match rt_pools t !! rm with
                   | Some old => CanonicalAuthorities (app old authorities)
                   | None => authorities
                   end]> (rt_pools t)) (rt_rewards t))).

(** rewards_manager_pubkey references core_reward_pools. *)
Definition InsertCoreReward (r : CoreReward) : pool_proc unit :=
  exec (QInsertReward (cr_Address r)) (fun t =>
    match cr_RewardsManagerPubkey r with
    | Some rm =>
        match rt_pools t !! rm with
        | Some _ => Ok (mkRewardTables (rt_pools t) (app (rt_rewards t) [r]))
        | None => Err (ErrRewardOther "insert violates foreign key constraint")
        end
    | None => Ok (mkRewardTables (rt_pools t) (app (rt_rewards t) [r]))
    end).

Definition DeleteCoreReward (address : string) : pool_proc unit :=
  exec (QDeleteReward address) (fun t =>
    Ok (mkRewardTables (rt_pools t)
          (List.filter (fun r => negb (String.eqb (cr_Address r) address)) (rt_rewards t)))).

(** The smallest reward manager any of the authorities maps to. *)
Definition GetLaunchpadRMByAuthority (authorities : list string) : res reward_error (option string) :=
  ask QLaunchpad
    (head (sort_strings (map snd (List.filter (fun row => bool_decide (row.1 ∈ authorities)) launchpad)))).

(** *** reward_pools.go *)

Definition is_authority (authorities : list string) (signer : string) : bool :=
  bool_decide (normalize signer ∈ authorities).

Definition checkPoolAuthorization (rm signer : string) (t : reward_tables) : res reward_error unit :=
  let? pool := GetRewardPool rm t in
  match pool with
  | None => Err (ErrRewardMessageValidation "pool not found")
  | Some authorities =>
      guard_err (negb (is_authority authorities signer)) (ErrRewardUnauthorized "signer not authorized for pool")
  end.

Definition verifyRewardPoolOwnerSignature (rmPubkey bodyBytes signature : string) : res reward_error unit :=
  let? _ := guard_err (negb (String.length signature =? 64)%nat) ErrRewardPoolOwnerSignatureInvalid in
  match base58_decode rmPubkey with
  | None => Err ErrRewardPoolOwnerSignatureInvalid
  | Some pubkeyBytes =>
      let? _ := guard_err (negb (String.length pubkeyBytes =? 32)%nat) ErrRewardPoolOwnerSignatureInvalid in
      guard_err (negb (ed25519_verify pubkeyBytes bodyBytes signature)) ErrRewardPoolOwnerSignatureInvalid
  end.

Definition solanaPubkeyByteLen : nat := 32.

Definition validateAuthorityList (addrs : list string) : res reward_error unit :=
  let? _ := guard_err (bool_decide (addrs = [])) (ErrRewardMessageValidation "at least one authority is required") in
  guard_err (negb (forallb (fun a => IsHexAddress (TrimSpace a)) addrs))
    (ErrRewardMessageValidation "not a valid eth address").

Definition validateRewardsManagerPubkeyShape (pubkey : string) : res reward_error unit :=
  let? _ := guard_err (String.eqb pubkey "") (ErrRewardMessageValidation "rewards_manager_pubkey is required") in
  let? _ := guard_err (negb (String.eqb pubkey (TrimSpace pubkey)))
              (ErrRewardMessageValidation "rewards_manager_pubkey must not have surrounding whitespace") in
  match base58_decode pubkey with
  | None => Err (ErrRewardMessageValidation "rewards_manager_pubkey is not valid base58")
  | Some bytes =>
      guard_err (negb (String.length bytes =? solanaPubkeyByteLen)%nat)
        (ErrRewardMessageValidation "rewards_manager_pubkey must decode to 32 bytes")
  end.

Definition validateRewardsManagerPubkey (pubkey : string) : res reward_error unit :=
  let? _ := validateRewardsManagerPubkeyShape pubkey in
  let audioRM := TrimSpace audioRM in
  guard_err (negb (String.eqb audioRM "") && String.eqb pubkey audioRM)
    (ErrRewardMessageValidation "rewards_manager_pubkey is reserved").

(** common.ProtoRecover on the signed bytes, after the deadline check. *)
Definition recoverDeadlinedSigner (currentHeight deadlineHeight : Z) (bytes : option string) (signature : string) :
    res reward_error string :=
  let? _ := guard_err (deadlineHeight <? currentHeight) ErrRewardExpired in
  match bytes with
  | None => Err ErrRewardSignatureInvalid
  | Some b =>
      match EthRecover signature b with
      | None => Err ErrRewardSignatureInvalid
      | Some (_, address) => Ok address
      end
  end.

(** The checks CreateRewardPool passes at validation and again at finalization. *)
Definition check_create_pool (envelope : RewardPoolMessage) (body : RewardPoolBody) (rm : string)
    (authorities : list string) (signer : string) : res reward_error unit :=
  let? _ := validateRewardsManagerPubkey rm in
  let? _ := validateAuthorityList authorities in
  match signable_pool body with
  | None => Err ErrRewardPoolOwnerSignatureInvalid
  | Some bodyBytes =>
      let? _ := verifyRewardPoolOwnerSignature rm bodyBytes (pm_RmOwnerSignature envelope) in
      guard_err (negb (is_authority (CanonicalAuthorities authorities) signer))
        (ErrRewardUnauthorized "signer not in initial authorities")
  end.

Definition validateCreateRewardPool (committed : reward_tables) (envelope : RewardPoolMessage) (body : RewardPoolBody)
    (rm : string) (authorities : list string) (signer : string) : res reward_error unit :=
  let? _ := check_create_pool envelope body rm authorities signer in
  let? pool := GetRewardPool rm committed in
  guard_err (bool_decide (is_Some pool)) (ErrRewardMessageValidation "pool already exists").

Definition validateSetRewardPoolAuthorities (committed : reward_tables) (rm : string) (authorities : list string)
    (signer : string) : res reward_error unit :=
  let? _ := validateRewardsManagerPubkeyShape rm in
  let? _ := validateAuthorityList authorities in
  checkPoolAuthorization rm signer committed.

Definition isValidRewardPoolTransaction (committed : reward_tables) (envelope : option RewardPoolMessage)
    (blockHeight : Z) : res reward_error unit :=
  match envelope with
  | Some ({| pm_Body := Some body |} as env) =>
      let? signer := recoverDeadlinedSigner blockHeight (pb_Deadline body) (signable_pool body) (pm_Signature env) in
      match pb_Action body with
      | Some (RewardPoolBody_Create rm auths) => validateCreateRewardPool committed env body rm auths signer
      | Some (RewardPoolBody_SetAuthorities rm auths) => validateSetRewardPoolAuthorities committed rm auths signer
      | None => Err (ErrRewardMessageValidation "unsupported reward pool action type")
      end
  | _ => Err (ErrRewardMessageValidation "reward pool message body is nil")
  end.

(** A check that reads the block's tables. *)
Definition check {A} (f : reward_tables -> res reward_error A) : pool_proc A := query f.
Definition lift {A} (r : res reward_error A) : pool_proc A := fun t => (t, r).

Definition finalizeCreateRewardPool (envelope : RewardPoolMessage) (body : RewardPoolBody) (rm : string)
    (authorities : list string) (signer : string) : pool_proc unit :=
  lift (check_create_pool envelope body rm authorities signer) ;;!
  let! pool := check (GetRewardPool rm) in
  match pool with
  | Some _ => pret tt
  | None => InsertRewardPool rm (CanonicalAuthorities authorities)
  end.

Definition finalizeSetRewardPoolAuthorities (rm : string) (authorities : list string) (signer : string) :
    pool_proc unit :=
  lift (validateRewardsManagerPubkeyShape rm) ;;!
  lift (validateAuthorityList authorities) ;;!
  check (checkPoolAuthorization rm signer) ;;!
  UpdateRewardPoolAuthorities rm (CanonicalAuthorities authorities).

Definition finalizeRewardPoolTransaction (height : Z) (envelope : option RewardPoolMessage) : pool_proc unit :=
  match envelope with
  | Some ({| pm_Body := Some body |} as env) =>
      let! signer := lift (recoverDeadlinedSigner height (pb_Deadline body) (signable_pool body) (pm_Signature env)) in
      match pb_Action body with
      | Some (RewardPoolBody_Create rm auths) => finalizeCreateRewardPool env body rm auths signer
      | Some (RewardPoolBody_SetAuthorities rm auths) => finalizeSetRewardPoolAuthorities rm auths signer
      | None => pfail (ErrRewardOther "unsupported reward pool action type")
      end
  | _ => pfail (ErrRewardOther "reward pool message body not found")
  end.

(** *** rewards_legacy.go *)

Definition tryParseLegacyReward (m : RewardMessage) : res reward_error (option legacy_action) :=
  match rw_Body m with
  | Some _ => Ok None
  | None =>
      match marshal_reward_message m with
      | None => Err (ErrRewardOther "legacy reward: re-marshal")
      | Some raw =>
          if String.eqb raw "" then Ok None
          else match unmarshal_legacy raw with
               | None => Err (ErrRewardOther "legacy reward: unmarshal")
               | Some action => Ok action
               end
      end
  end.

(** pkg/common/legacy_reward_signing.go: hex of a sha256 of the fields. *)
Definition LegacyDeterministicCreateRewardData (c : LegacyCreateReward) : string :=
  let authorities := sort_strings (map (fun a => a.1 +:+ ":" +:+ a.2) (lc_ClaimAuthorities c)) in
  hex_encode (sha256 (lc_RewardId c +:+ "|" +:+ lc_Name c +:+ "|" +:+ pretty (lc_Amount c) +:+ "|"
    +:+ json_strings authorities +:+ "|" +:+ pretty (lc_Deadline c))).

Definition LegacyDeterministicDeleteRewardData (d : LegacyDeleteReward) : string :=
  hex_encode (sha256 (ld_Address d +:+ "|" +:+ pretty (ld_Deadline d))).

Definition LegacyRecoverCreateReward (c : LegacyCreateReward) : option string :=
  dataBytes ← hex_decode (LegacyDeterministicCreateRewardData c);
  snd <$> EthRecover (lc_Signature c) dataBytes.

Definition LegacyRecoverDeleteReward (d : LegacyDeleteReward) : option string :=
  dataBytes ← hex_decode (LegacyDeterministicDeleteRewardData d);
  snd <$> EthRecover (ld_Signature d) dataBytes.

Definition recover_legacy (currentHeight deadline : Z) (recovered : option string) : res reward_error string :=
  let? _ := guard_err (deadline <? currentHeight) ErrRewardExpired in
  match recovered with
  | None => Err ErrRewardSignatureInvalid
  | Some signer => Ok signer
  end.

Definition recoverLegacyCreateRewardSigner (currentHeight : Z) (c : LegacyCreateReward) : res reward_error string :=
  recover_legacy currentHeight (lc_Deadline c) (LegacyRecoverCreateReward c).

Definition recoverLegacyDeleteRewardSigner (currentHeight : Z) (d : LegacyDeleteReward) : res reward_error string :=
  recover_legacy currentHeight (ld_Deadline d) (LegacyRecoverDeleteReward d).

Definition finalizeLegacyCreateReward (height : Z) (txhash : string) (messageIndex : Z) (c : LegacyCreateReward)
    (signer : string) : pool_proc unit :=
  match HexToBytes txhash with
  | None => pfail (ErrRewardOther "invalid txhash")
  | Some txhashBytes =>
      let rewardAddress := CreateAddress txhashBytes chainID height messageIndex "" in
      let canonicalAuthorities := CanonicalAuthorities (map fst (lc_ClaimAuthorities c)) in
      let! rmPubkey :=
        (if bool_decide (canonicalAuthorities = []) then pret None
         else
           let! rm := lift (GetLaunchpadRMByAuthority canonicalAuthorities) in
           match rm with
           | None => pret None
           | Some rm => UpsertLegacyReplayRewardPool rm canonicalAuthorities ;;! pret (Some rm)
           end) in
      match marshal_legacy_create c with
      | None => pfail (ErrRewardOther "failed to marshal legacy create reward")
      | Some rawMessage =>
          InsertCoreReward (mkCoreReward rewardAddress txhash messageIndex signer (lc_RewardId c) (lc_Name c)
            (wrap64 (lc_Amount c)) rmPubkey rawMessage height)
      end
  end.

(** The delete path, shared by both formats. *)
Definition delete_reward (address signer : string) : pool_proc unit :=
  let! existing := check (GetReward address) in
  match existing with
  | None => pfail (ErrRewardMessageValidation "reward not found")
  | Some (_, authorities) =>
      if negb (is_authority authorities signer)
      then pfail (ErrRewardUnauthorized "signer no longer authorized to delete reward")
      else DeleteCoreReward address
  end.

Definition finalizeLegacyDeleteReward (d : LegacyDeleteReward) (signer : string) : pool_proc unit :=
  delete_reward (ld_Address d) signer.

Definition finalizeLegacyRewardTransaction (height : Z) (legacy : legacy_action) (txhash : string) (messageIndex : Z) :
    pool_proc unit :=
  match legacy with
  | LegacyCreate c =>
      let! signer := lift (recoverLegacyCreateRewardSigner height c) in
      finalizeLegacyCreateReward height txhash messageIndex c signer
  | LegacyDelete d =>
      let! signer := lift (recoverLegacyDeleteRewardSigner height d) in
      finalizeLegacyDeleteReward d signer
  end.

(** *** rewards.go *)

Definition validateCreateReward (committed : reward_tables) (c : CreateReward) (signer : string) : res reward_error unit :=
  let? _ := validateRewardsManagerPubkey (rw_RewardsManagerPubkey c) in
  checkPoolAuthorization (rw_RewardsManagerPubkey c) signer committed.

Definition validateDeleteReward (committed : reward_tables) (address signer : string) : res reward_error unit :=
  let? existing := GetReward address committed in
  match existing with
  | None => Err (ErrRewardMessageValidation "reward not found")
  | Some (_, authorities) =>
      guard_err (negb (is_authority authorities signer)) (ErrRewardUnauthorized "signer not authorized to delete reward")
  end.

Definition isValidRewardTransaction (committed : reward_tables) (envelope : option RewardMessage) (blockHeight : Z) :
    res reward_error unit :=
  match envelope with
  | None => Err (ErrRewardMessageValidation "reward message is nil")
  | Some env =>
      match rw_Body env with
      | None =>
          match tryParseLegacyReward env with
          | Ok (Some _) => Err (ErrRewardMessageValidation "legacy reward wire format is not accepted for new transactions")
          | _ => Err (ErrRewardMessageValidation "reward message body is nil")
          end
      | Some body =>
          let? signer := recoverDeadlinedSigner blockHeight (rb_Deadline body) (signable_reward body) (rw_Signature env) in
          match rb_Action body with
          | Some (RewardBody_Create c) => validateCreateReward committed c signer
          | Some (RewardBody_Delete address) => validateDeleteReward committed address signer
          | None => Err (ErrRewardMessageValidation "unsupported reward action type")
          end
      end
  end.

Definition finalizeCreateReward (height : Z) (txhash : string) (messageIndex : Z) (c : CreateReward) (signer : string) :
    pool_proc unit :=
  check (checkPoolAuthorization (rw_RewardsManagerPubkey c) signer) ;;!
  match HexToBytes txhash with
  | None => pfail (ErrRewardOther "invalid txhash")
  | Some txhashBytes =>
      match marshal_create c with
      | None => pfail (ErrRewardOther "failed to marshal create reward message")
      | Some rawMessage =>
          InsertCoreReward (mkCoreReward (CreateAddress txhashBytes chainID height messageIndex "") txhash messageIndex
            signer (rw_RewardId c) (rw_Name c) (wrap64 (rw_Amount c)) (Some (rw_RewardsManagerPubkey c)) rawMessage height)
      end
  end.

Definition finalizeDeleteReward (address signer : string) : pool_proc unit := delete_reward address signer.

Definition finalizeRewards (height : Z) (txhash : string) (messageIndex : Z) (envelope : option RewardMessage) :
    pool_proc unit :=
  match envelope with
  | None => pfail (ErrRewardOther "reward message not found")
  | Some env =>
      match rw_Body env with
      | None =>
          let! legacy := lift (tryParseLegacyReward env) in
          match legacy with
          | None => pfail (ErrRewardOther "reward message body not found")
          | Some l => finalizeLegacyRewardTransaction height l txhash messageIndex
          end
      | Some body =>
          let! signer := lift (recoverDeadlinedSigner height (rb_Deadline body) (signable_reward body) (rw_Signature env)) in
          match rb_Action body with
          | Some (RewardBody_Create c) => finalizeCreateReward height txhash messageIndex c signer
          | Some (RewardBody_Delete address) => finalizeDeleteReward address signer
          | None => pfail (ErrRewardOther "unsupported reward action type")
          end
      end
  end.

Definition finalizeRewardTransaction (height : Z) (envelope : option RewardMessage) (txhash : string) : pool_proc unit :=
  finalizeRewards height txhash 0 envelope.

(** *** reward_state.go *)

Definition projectRewardPool (envelope : RewardPoolMessage) : pool_proc unit :=
  match pm_Body envelope with
  | None => pfail (ErrRewardOther "reward pool message has no body")
  | Some body =>
      match pb_Action body with
      | Some (RewardPoolBody_Create rm auths) => InsertRewardPool rm (CanonicalAuthorities auths)
      | _ => pfail (ErrRewardOther "reward pool projection covers Create only")
      end
  end.

Definition projectReward (msg : RewardMessage) (height messageIndex : Z) (txhash : string) : pool_proc unit :=
  match rw_Body msg with
  | None => pfail (ErrRewardOther "reward message has no body")
  | Some body =>
      match rb_Action body with
      | Some (RewardBody_Create c) =>
          match (b ← signable_reward body; snd <$> EthRecover (rw_Signature msg) b) with
          | None => pfail (ErrRewardOther "recover reward signer")
          | Some signer =>
              match HexToBytes txhash with
              | None => pfail (ErrRewardOther "invalid txhash")
              | Some txhashBytes =>
                  match marshal_create c with
                  | None => pfail (ErrRewardOther "marshal create reward")
                  | Some rawMessage =>
                      InsertCoreReward (mkCoreReward (CreateAddress txhashBytes chainID height messageIndex "") txhash
                        messageIndex signer (rw_RewardId c) (rw_Name c) (wrap64 (rw_Amount c))
                        (Some (rw_RewardsManagerPubkey c)) rawMessage height)
                  end
              end
          end
      | _ => pfail (ErrRewardOther "reward projection covers Create only")
      end
  end.

(** A reward or reward pool transaction of a migrated block. *)
Inductive migration_tx := MigrationPool (m : RewardPoolMessage) | MigrationReward (m : RewardMessage) | MigrationOther.

Definition ProjectMigrationRewardState (tx : migration_tx) (height messageIndex : Z) (txhash : string) : pool_proc bool :=
  match tx with
  | MigrationPool m => projectRewardPool m ;;! pret true
  | MigrationReward m => projectReward m height messageIndex txhash ;;! pret true
  | MigrationOther => pret false
  end.
End Rewards.
