(* ===== verification/RewardsProps.v ===== *)
(** * Reward pools and rewards: theorems

    Canonical authority sets, the invariant of the tables, who can change them,
    and three ways in which pools can be turned against their authorities. *)

From stdpp Require Import base gmap strings list sorting fin_maps.
From Stdlib Require Import ZArith Lia Ascii.
From S2P Require Import Prelude Crypto Rendezvous Rewards.

Open Scope string_scope.
Open Scope Z_scope.

(** ** Canonical authorities *)

Lemma ascii_lower_space c : ascii_space (ascii_lower c) = ascii_space c.
Proof. destruct c as [[] [] [] [] [] [] [] []]; vm_compute; reflexivity. Qed.

Lemma trim_left_lower s : trim_left (ToLower s) = ToLower (trim_left s).
Proof. induction s as [|c s IH]; simpl; [done|]. rewrite ascii_lower_space. by destruct (ascii_space c). Qed.

Lemma trim_right_lower s : trim_right (ToLower s) = ToLower (trim_right s).
Proof.
  induction s as [|c s IH]; simpl; [done|]. rewrite IH, ascii_lower_space.
  destruct (trim_right s); simpl; [by destruct (ascii_space c)|done].
Qed.

Lemma TrimSpace_lower s : TrimSpace (ToLower s) = ToLower (TrimSpace s).
Proof. unfold TrimSpace. by rewrite trim_left_lower, trim_right_lower. Qed.

Lemma trim_left_head s : trim_left s = "" \/ exists c s', trim_left s = String c s' /\ ascii_space c = false.
Proof. induction s as [|c s IH]; simpl; [by left|]. destruct (ascii_space c) eqn:E; [done|right; eauto]. Qed.

Lemma trim_right_idem s : trim_right (trim_right s) = trim_right s.
Proof.
  induction s as [|c s IH]; simpl; [done|].
  destruct (trim_right s) as [|c' t] eqn:E; simpl in *.
  - destruct (ascii_space c) eqn:Ec; simpl; [done|]. by rewrite Ec.
  - by rewrite IH.
Qed.

Lemma TrimSpace_idem s : TrimSpace (TrimSpace s) = TrimSpace s.
Proof.
  unfold TrimSpace. destruct (trim_left_head s) as [->|(c & s' & -> & Hc)]; [done|].
  assert (exists t, trim_right (String c s') = String c t) as [t Ht].
  { simpl. destruct (trim_right s'); rewrite ?Hc; eauto. }
  rewrite Ht. simpl. rewrite Hc. rewrite <-Ht. apply trim_right_idem.
Qed.

Lemma normalize_idem a : normalize (normalize a) = normalize a.
Proof. unfold normalize. by rewrite TrimSpace_lower, ToLower_idem, TrimSpace_idem. Qed.

Lemma elem_of_dedup l out a :
  a ∈ dedup l out <-> a ∈ out \/ exists x, x ∈ l /\ normalize x = a /\ a <> "".
Proof.
  revert out. induction l as [|x l IH]; intros out; simpl; [set_solver|].
  destruct (String.eqb_spec (normalize x) "") as [He|He]; [|case_bool_decide]; rewrite IH; set_unfold; naive_solver.
Qed.

Lemma NoDup_dedup l out : NoDup out -> NoDup (dedup l out).
Proof.
  revert out. induction l as [|x l IH]; intros out Hout; simpl; [done|].
  destruct (String.eqb _ ""); [by apply IH|]. case_bool_decide as Hin; [by apply IH|].
  apply IH. apply NoDup_app. split_and!; [done| |apply NoDup_singleton]. set_solver.
Qed.

(** The form in which authority sets are stored. *)
Definition canonical (l : list string) : Prop :=
  Sorted String.le l /\ NoDup l /\ forall a, a ∈ l -> a <> "" /\ normalize a = a.

Lemma elem_of_CanonicalAuthorities l a :
  a ∈ CanonicalAuthorities l <-> exists x, x ∈ l /\ normalize x = a /\ a <> "".
Proof.
  unfold CanonicalAuthorities, sort_strings. rewrite merge_sort_Permutation, elem_of_dedup. set_solver.
Qed.

Lemma CanonicalAuthorities_canonical l : canonical (CanonicalAuthorities l).
Proof.
  split_and!.
  - apply Sorted_merge_sort. apply _.
  - unfold CanonicalAuthorities, sort_strings. rewrite merge_sort_Permutation. apply NoDup_dedup, NoDup_nil_2.
  - intros a (x & _ & <- & Hne)%elem_of_CanonicalAuthorities. by rewrite normalize_idem.
Qed.

Lemma canonical_unique l l' : canonical l -> canonical l' -> (forall a, a ∈ l <-> a ∈ l') -> l = l'.
Proof.
  intros (Hs & Hn & _) (Hs' & Hn' & _) Heq. apply (Sorted_unique String.le); [done|done|].
  by apply NoDup_Permutation.
Qed.

(** CanonicalAuthorities normalizes: its result is sorted, without duplicates,
    of lowercase trimmed non-empty names, has exactly the names given, and two
    lists with the same names up to case, spaces, order and repetition get the same
    result; a canonical list is left as it is. *)
Theorem CanonicalAuthorities_normalizes l l' :
  canonical (CanonicalAuthorities l) /\
  (forall a, a ∈ CanonicalAuthorities l <-> a <> "" /\ a ∈ map normalize l) /\
  ((forall a, a ∈ map normalize l <-> a ∈ map normalize l') -> CanonicalAuthorities l = CanonicalAuthorities l') /\
  (canonical l -> CanonicalAuthorities l = l).
Proof.
  assert (forall l a, a ∈ CanonicalAuthorities l <-> a <> "" /\ a ∈ map normalize l) as Hmem.
  { intros k a. rewrite elem_of_CanonicalAuthorities. split.
    - intros (x & Hx & <- & Hne). split; [done|]. by apply list_elem_of_fmap_2.
    - intros [Hne (x & -> & Hx)%list_elem_of_fmap]. eauto. }
  split_and!; [apply CanonicalAuthorities_canonical|apply Hmem| |].
  - intros Heq. apply canonical_unique; [apply CanonicalAuthorities_canonical..|].
    intros a. rewrite !Hmem, Heq. done.
  - intros Hc. apply canonical_unique; [apply CanonicalAuthorities_canonical|done|].
    intros a. rewrite elem_of_CanonicalAuthorities. destruct Hc as (_ & _ & Hn). split.
    + intros (x & Hx & <- & _). by destruct (Hn x Hx) as [_ ->].
    + intros Ha. destruct (Hn a Ha). eauto.
Qed.

(** ** Transactions *)

Lemma alter_insert_some {V} (v old : V) (k : string) (m : gmap string V) :
  m !! k = Some old -> alter (fun _ => v) k m = <[k := v]> m.
Proof.
  intros Hk. apply map_eq. intros j. destruct (decide (k = j)) as [<-|Hne].
  - by rewrite lookup_alter_eq, lookup_insert_eq, Hk.
  - by rewrite lookup_alter_ne, lookup_insert_ne.
Qed.

(** A program that stopped without writing. *)
Ltac stopped H := left; by injection H as <- <-.

Section Transactions.
Context {C : EthCrypto}.
Context (signable_reward : RewardBody -> option string)
        (signable_pool : RewardPoolBody -> option string)
        (marshal_reward_message : RewardMessage -> option string)
        (unmarshal_legacy : string -> option (option legacy_action))
        (marshal_create : CreateReward -> option string)
        (marshal_legacy_create : LegacyCreateReward -> option string)
        (base58_decode : string -> option string)
        (ed25519_verify : string -> string -> string -> bool)
        (IsHexAddress : string -> bool)
        (json_strings : list string -> string).
Context (chainID audioRM : string) (launchpad : list (string * string)) (fault : reward_query -> bool).

Notation finalize_pool := (finalizeRewardPoolTransaction signable_pool base58_decode ed25519_verify IsHexAddress audioRM fault).
Notation finalize_reward := (finalizeRewards signable_reward marshal_reward_message unmarshal_legacy marshal_create
  marshal_legacy_create json_strings chainID launchpad fault).

Lemma is_authority_spec l signer : is_authority l signer = true <-> normalize signer ∈ l.
Proof using. unfold is_authority. by rewrite bool_decide_eq_true. Qed.

(** The signer of a body within its deadline. *)
Definition signed_by (height deadline : Z) (bytes : option string) (signature signer : string) : Prop :=
  height <= deadline /\ exists b pk, bytes = Some b /\ EthRecover signature b = Some (pk, signer).

Lemma recoverDeadlinedSigner_ok height deadline bytes signature signer :
  recoverDeadlinedSigner height deadline bytes signature = Ok signer ->
  signed_by height deadline bytes signature signer.
Proof using.
  unfold recoverDeadlinedSigner. intros H. peel_checks H.
  destruct bytes as [b|]; [|done]. destruct (EthRecover signature b) as [[pk a]|] eqn:E; simplify_eq.
  split; [lia|eauto].
Qed.

(** Possession of the secret key whose public key is the reward manager. *)
Definition owner_signed (rm : string) (body : RewardPoolBody) (signature : string) : Prop :=
  exists bytes key, signable_pool body = Some bytes /\ base58_decode rm = Some key /\
    String.length key = 32%nat /\ String.length signature = 64%nat /\ ed25519_verify key bytes signature = true.

(** What a pool transaction may do. *)
Inductive pool_change (env : RewardPoolMessage) (body : RewardPoolBody) (signer : string) (t : reward_tables) :
    reward_tables -> Prop :=
| pool_created rm auths :
    pb_Action body = Some (RewardPoolBody_Create rm auths) ->
    rt_pools t !! rm = None -> (TrimSpace audioRM = "" \/ rm <> TrimSpace audioRM) ->
    owner_signed rm body (pm_RmOwnerSignature env) -> normalize signer ∈ CanonicalAuthorities auths ->
    pool_change env body signer t (mkRewardTables (<[rm := CanonicalAuthorities auths]> (rt_pools t)) (rt_rewards t))
| pool_rotated rm auths old :
    pb_Action body = Some (RewardPoolBody_SetAuthorities rm auths) ->
    rt_pools t !! rm = Some old -> normalize signer ∈ old ->
    auths <> [] -> (forall a, a ∈ auths -> IsHexAddress (TrimSpace a) = true) ->
    pool_change env body signer t (mkRewardTables (<[rm := CanonicalAuthorities auths]> (rt_pools t)) (rt_rewards t)).

(** What a reward transaction of the current format may do. *)
Inductive reward_change (body : RewardBody) (signer : string) (t : reward_tables) : reward_tables -> Prop :=
| reward_created c auths row :
    rb_Action body = Some (RewardBody_Create c) ->
    rt_pools t !! rw_RewardsManagerPubkey c = Some auths -> normalize signer ∈ auths ->
    cr_RewardsManagerPubkey row = Some (rw_RewardsManagerPubkey c) ->
    cr_Sender row = signer -> cr_RewardID row = rw_RewardId c -> cr_Amount row = wrap64 (rw_Amount c) ->
    reward_change body signer t (mkRewardTables (rt_pools t) (app (rt_rewards t) [row]))
| reward_deleted address row :
    rb_Action body = Some (RewardBody_Delete address) ->
    row ∈ rt_rewards t -> cr_Address row = address -> normalize signer ∈ claim_authorities t row ->
    reward_change body signer t
      (mkRewardTables (rt_pools t) (List.filter (fun r => negb (String.eqb (cr_Address r) address)) (rt_rewards t))).

Lemma validateAuthorityList_ok auths u :
  validateAuthorityList IsHexAddress auths = Ok u ->
  auths <> [] /\ forall a, a ∈ auths -> IsHexAddress (TrimSpace a) = true.
Proof using.
  unfold validateAuthorityList. intros H. peel_checks H. apply guard_err_ok in H.
  apply bool_decide_eq_false in Hc. apply negb_false_iff in H. split; [done|].
  rewrite forallb_forall in H. intros a Ha. apply H. by apply list_elem_of_In.
Qed.

Lemma check_create_pool_ok env body rm auths signer u :
  check_create_pool signable_pool base58_decode ed25519_verify IsHexAddress audioRM env body rm auths signer = Ok u ->
  (TrimSpace audioRM = "" \/ rm <> TrimSpace audioRM) /\ owner_signed rm body (pm_RmOwnerSignature env) /\
  normalize signer ∈ CanonicalAuthorities auths.
Proof using.
  unfold check_create_pool, validateRewardsManagerPubkey. intros H.
  apply rbind_ok in H as (? & Hrm & H). apply rbind_ok in Hrm as (? & _ & Hrm). apply guard_err_ok in Hrm.
  apply rbind_ok in H as (? & _ & H). destruct (signable_pool body) as [bytes|] eqn:Eb; [|done].
  apply rbind_ok in H as (? & Hown & H). apply guard_err_ok, negb_false_iff, is_authority_spec in H.
  unfold verifyRewardPoolOwnerSignature in Hown. peel_checks Hown.
  destruct (base58_decode rm) as [key|] eqn:Ek; [|done]. peel_checks Hown. apply guard_err_ok, negb_false_iff in Hown.
  split_and!; [| |done].
  - apply andb_false_iff in Hrm as [Hrm|Hrm].
    + left. by apply negb_false_iff, String.eqb_eq in Hrm.
    + right. by apply String.eqb_neq.
  - exists bytes, key. apply negb_false_iff, Nat.eqb_eq in Hc, Hc0. done.
Qed.

Lemma checkPoolAuthorization_ok rm signer t u :
  checkPoolAuthorization fault rm signer t = Ok u ->
  exists auths, rt_pools t !! rm = Some auths /\ normalize signer ∈ auths.
Proof using.
  unfold checkPoolAuthorization, GetRewardPool, ask. destruct (fault _); [done|]. simpl.
  destruct (rt_pools t !! rm) as [auths|]; [|done]. intros H%guard_err_ok%negb_false_iff%is_authority_spec. eauto.
Qed.

Lemma newest_spec rows best r :
  newest rows best = Some r -> r ∈ rows \/ best = Some r.
Proof using.
  revert best. induction rows as [|x rows IH]; intros best; simpl; [by right|].
  intros [?|H]%IH; [left; by apply elem_of_cons; right|].
  destruct best as [b|]; [destruct (_ <? _)|]; (by right) || (left; injection H as ->; apply elem_of_cons; by left).
Qed.

Lemma GetReward_ok address t row auths :
  GetReward fault address t = Ok (Some (row, auths)) ->
  row ∈ rt_rewards t /\ cr_Address row = address /\ auths = claim_authorities t row.
Proof using.
  unfold GetReward, ask. destruct (fault _); [done|]. intros [= H].
  apply fmap_Some in H as (r & Hn & [= -> ->]). apply newest_spec in Hn as [Hn|]; [|done].
  apply list_elem_of_In, filter_In in Hn as [Hn He]. split_and!; [by apply list_elem_of_In|by apply String.eqb_eq|done].
Qed.

Lemma finalize_pool_changes height env t t' o :
  finalize_pool height env t = (t', o) ->
  t' = t \/ exists e body signer, env = Some e /\ pm_Body e = Some body /\
    signed_by height (pb_Deadline body) (signable_pool body) (pm_Signature e) signer /\ pool_change e body signer t t'.
Proof using.
  intros H. unfold finalizeRewardPoolTransaction in H.
  destruct env as [[[body|] sig own]|]; [|stopped H..].
  unfold pbind, lift in H. destruct (recoverDeadlinedSigner _ _ _ _) as [signer|] eqn:Es; [|stopped H].
  apply recoverDeadlinedSigner_ok in Es. destruct (pb_Action body) as [[rm auths|rm auths]|] eqn:Ea;
    [| |stopped H].
  - unfold finalizeCreateRewardPool, pbind, lift, check, query, GetRewardPool, ask in H.
    destruct (check_create_pool _ _ _ _ _ _ _ _ _ _) as [u|] eqn:Ec; [|stopped H].
    apply check_create_pool_ok in Ec as (Hrm & Hown & Hin). destruct (fault (QGetRewardPool rm)); [stopped H|].
    destruct (rt_pools t !! rm) eqn:Ep; [stopped H|].
    unfold InsertRewardPool, exec in H. destruct (fault _); [stopped H|].
    rewrite Ep in H. injection H as <- <-. right. eexists _, body, signer. split_and!; [done|done|done|]. by econstructor.
  - unfold finalizeSetRewardPoolAuthorities, pbind, lift, check, query in H.
    destruct (validateRewardsManagerPubkeyShape _ _); [|stopped H].
    destruct (validateAuthorityList _ _) eqn:Ev; [|stopped H].
    destruct (checkPoolAuthorization _ _ _ _) eqn:Ec; [|stopped H].
    apply validateAuthorityList_ok in Ev as [Hne Hhex]. apply checkPoolAuthorization_ok in Ec as (old & Hp & Hin).
    unfold UpdateRewardPoolAuthorities, exec in H. destruct (fault _); [stopped H|].
    injection H as <- <-. right. eexists _, body, signer. split_and!; [done|done|done|].
    rewrite (alter_insert_some _ _ _ _ Hp). by eapply pool_rotated.
Qed.

Lemma InsertCoreReward_changes row t t' o :
  InsertCoreReward fault row t = (t', o) ->
  t' = t \/ t' = mkRewardTables (rt_pools t) (app (rt_rewards t) [row]) /\
             (forall rm, cr_RewardsManagerPubkey row = Some rm -> is_Some (rt_pools t !! rm)).
Proof using.
  unfold InsertCoreReward, exec. intros H. destruct (fault _); [stopped H|].
  destruct (cr_RewardsManagerPubkey row) as [rm|]; [|injection H as <- <-; right; split; [done|congruence]].
  destruct (rt_pools t !! rm) eqn:E; [|stopped H]. injection H as <- <-. right. split; [done|].
  intros ? [= <-]. eauto.
Qed.

Lemma delete_reward_changes address signer t t' o :
  delete_reward fault address signer t = (t', o) ->
  t' = t \/ (exists row, row ∈ rt_rewards t /\ cr_Address row = address /\ normalize signer ∈ claim_authorities t row) /\
    t' = mkRewardTables (rt_pools t) (List.filter (fun r => negb (String.eqb (cr_Address r) address)) (rt_rewards t)).
Proof using.
  unfold delete_reward, pbind, check, query. intros H.
  destruct (GetReward fault address t) as [[[row auths]|]|] eqn:E; [|stopped H..].
  apply GetReward_ok in E as (Hin & Ha & ->). destruct (is_authority _ _) eqn:Ei; simpl in H; [|stopped H].
  apply is_authority_spec in Ei. unfold DeleteCoreReward, exec in H. destruct (fault _); [stopped H|].
  injection H as <- <-. right. split; [by exists row|done].
Qed.

Lemma finalize_reward_changes height txhash index env t t' o body :
  rw_Body env = Some body ->
  finalize_reward height txhash index (Some env) t = (t', o) ->
  t' = t \/ exists signer,
    signed_by height (rb_Deadline body) (signable_reward body) (rw_Signature env) signer /\ reward_change body signer t t'.
Proof using.
  intros Hb H. unfold finalizeRewards in H. rewrite Hb in H. unfold pbind, lift in H.
  destruct (recoverDeadlinedSigner _ _ _ _) as [signer|] eqn:Es; [|stopped H].
  apply recoverDeadlinedSigner_ok in Es. destruct (rb_Action body) as [[c|address]|] eqn:Ea; [| |stopped H].
  - unfold finalizeCreateReward, pbind, check, query in H.
    destruct (checkPoolAuthorization _ _ _ _) eqn:Ec; [|stopped H].
    apply checkPoolAuthorization_ok in Ec as (auths & Hp & Hin).
    destruct (HexToBytes txhash); [|stopped H]. destruct (marshal_create c); [|stopped H].
    apply InsertCoreReward_changes in H as [->|[-> _]]; [by left|]. right. exists signer. split; [done|].
    by eapply reward_created.
  - apply delete_reward_changes in H as [->|[(row & Hin & Hadr & Hauth) ->]]; [by left|].
    right. exists signer. split; [done|]. by eapply reward_deleted.
Qed.

(** ** The invariant of the tables *)

(** Authority sets are canonical and non-empty, and every reward bound to a reward
    manager has its pool. *)
Definition tables_ok (t : reward_tables) : Prop :=
  (forall rm auths, rt_pools t !! rm = Some auths -> canonical auths /\ auths <> []) /\
  (forall row rm, row ∈ rt_rewards t -> cr_RewardsManagerPubkey row = Some rm -> is_Some (rt_pools t !! rm)).

Lemma tables_ok_put_pool t rm auths :
  tables_ok t -> canonical auths -> auths <> [] ->
  tables_ok (mkRewardTables (<[rm := auths]> (rt_pools t)) (rt_rewards t)).
Proof using.
  intros [Hp Hr] Hc Hne. split; simpl.
  - intros rm' a [[<- <-]|[_ H]]%lookup_insert_Some; [done|]. by apply (Hp rm').
  - intros row rm' Hin Hrm. destruct (decide (rm = rm')) as [<-|]; [rewrite lookup_insert_eq; eauto|].
    rewrite lookup_insert_ne by done. eauto.
Qed.

Lemma tables_ok_rewards t rows :
  tables_ok t ->
  (forall row rm, row ∈ rows -> cr_RewardsManagerPubkey row = Some rm -> is_Some (rt_pools t !! rm)) ->
  tables_ok (mkRewardTables (rt_pools t) rows).
Proof using. intros [Hp Hr] Hrows. by split. Qed.

Lemma tables_ok_insert t row :
  tables_ok t -> (forall rm, cr_RewardsManagerPubkey row = Some rm -> is_Some (rt_pools t !! rm)) ->
  tables_ok (mkRewardTables (rt_pools t) (app (rt_rewards t) [row])).
Proof using.
  intros Ht Hrow. apply tables_ok_rewards; [done|]. intros r rm [Hin| ->%list_elem_of_singleton]%elem_of_app; [|eauto].
  destruct Ht as [_ Hr]. eauto.
Qed.

Lemma tables_ok_delete t p : tables_ok t -> tables_ok (mkRewardTables (rt_pools t) (List.filter p (rt_rewards t))).
Proof using.
  intros Ht. apply tables_ok_rewards; [done|]. intros r rm Hin. apply list_elem_of_In, filter_In in Hin as [Hin _].
  apply list_elem_of_In in Hin. destruct Ht as [_ Hr]. eauto.
Qed.

Lemma tables_ok_upsert t rm auths t' o :
  tables_ok t -> auths = CanonicalAuthorities auths -> auths <> [] ->
  UpsertLegacyReplayRewardPool fault rm auths t = (t', o) ->
  tables_ok t' /\ (o = Ok tt -> is_Some (rt_pools t' !! rm)).
Proof using.
  intros Ht Hc Hne. unfold UpsertLegacyReplayRewardPool, exec. destruct (fault _); intros [= <- <-]; [done|].
  split; [|intros _; simpl; rewrite lookup_insert_eq; eauto].
  destruct (rt_pools t !! rm) as [old|] eqn:E; apply tables_ok_put_pool; try done.
  - apply CanonicalAuthorities_canonical.
  - destruct auths as [|a l]; [done|]. intros Hnil.
    assert (a ∈ CanonicalAuthorities (a :: l)) as (x & Hx & He)%elem_of_CanonicalAuthorities by (rewrite <-Hc; by left).
    assert (a ∈ CanonicalAuthorities (app old (a :: l))) as Hin.
    { apply elem_of_CanonicalAuthorities. exists x. split; [|done]. apply elem_of_app. by right. }
    rewrite Hnil in Hin. by apply elem_of_nil in Hin.
  - rewrite Hc. apply CanonicalAuthorities_canonical.
Qed.

Lemma CanonicalAuthorities_nonempty auths :
  IsHexAddress "" = false -> auths <> [] -> (forall a, a ∈ auths -> IsHexAddress (TrimSpace a) = true) ->
  CanonicalAuthorities auths <> [].
Proof using.
  intros Hhex Hne Hall Hnil. destruct auths as [|a l]; [done|].
  assert (normalize a ∈ CanonicalAuthorities (a :: l)) as Hin; [|rewrite Hnil in Hin; by apply elem_of_nil in Hin].
  apply elem_of_CanonicalAuthorities. exists a. split_and!; [by left|done|].
  unfold normalize. intros Hn. apply (proj1 (ToLower_empty _)) in Hn. specialize (Hall a ltac:(by left)). rewrite Hn in Hall. congruence.
Qed.

Lemma finalize_pool_ok height env t :
  IsHexAddress "" = false -> tables_ok t -> tables_ok (fst (finalize_pool height env t)).
Proof using.
  intros Hhex Ht. destruct (finalize_pool height env t) as [t' o] eqn:E. simpl.
  apply finalize_pool_changes in E as [->|(e & body & signer & _ & _ & _ & Hch)]; [done|].
  destruct Hch as [rm auths _ _ _ _ Hin|rm auths old _ _ _ Hne Hall];
    (apply tables_ok_put_pool; [done|apply CanonicalAuthorities_canonical|]).
  - intros Hnil. rewrite Hnil in Hin. by apply elem_of_nil in Hin.
  - by apply CanonicalAuthorities_nonempty.
Qed.

Lemma finalize_legacy_create_ok height txhash index c signer t :
  tables_ok t ->
  tables_ok (fst (finalizeLegacyCreateReward marshal_legacy_create chainID launchpad fault height txhash index c signer t)).
Proof using.
  intros Ht. unfold finalizeLegacyCreateReward. destruct (HexToBytes txhash) as [bytes|]; [|done].
  set (auths := CanonicalAuthorities (map fst (lc_ClaimAuthorities c))).
  match goal with |- context [pbind ?m _ t] => destruct (m t) as [t1 o1] eqn:E1; unfold pbind at 1; rewrite E1 end.
  assert (tables_ok t1 /\ forall rm, o1 = Ok (Some rm) -> is_Some (rt_pools t1 !! rm)) as [Ht1 Hrm].
  { case_bool_decide as Hnil; [injection E1 as <- <-; split; [done|congruence]|].
    unfold pbind, lift in E1. destruct (GetLaunchpadRMByAuthority _ _ _) as [[rm|]|];
      [|injection E1 as <- <-; split; [done|congruence]..].
    destruct (UpsertLegacyReplayRewardPool fault rm auths t) as [t2 o2] eqn:E2.
    apply tables_ok_upsert in E2 as [Ht2 Hs]; [|done|symmetry; apply CanonicalAuthorities_normalizes; [exact []|apply CanonicalAuthorities_canonical]|done].
    destruct o2 as [[]|e]; injection E1 as <- <-; (split; [done|]); [|congruence].
    intros ? [= <-]. by apply Hs. }
  destruct o1 as [rm|e]; [|done]. destruct (marshal_legacy_create c) as [raw|]; [|done].
  match goal with |- context [InsertCoreReward _ ?r t1] =>
    destruct (InsertCoreReward fault r t1) as [t2 o2] eqn:E2 end. simpl.
  apply InsertCoreReward_changes in E2 as [->|[-> Hfk]]; [done|]. by apply tables_ok_insert.
Qed.

Lemma finalize_reward_ok height txhash index env t :
  tables_ok t -> tables_ok (fst (finalize_reward height txhash index env t)).
Proof using.
  intros Ht. destruct env as [env|]; [|done]. destruct (rw_Body env) as [body|] eqn:Eb.
  - destruct (finalize_reward height txhash index (Some env) t) as [t' o] eqn:E. simpl.
    eapply finalize_reward_changes in E as [->|(signer & _ & Hch)]; [done| |exact Eb].
    destruct Hch as [c auths row _ Hp _ Hrm _ _ _|]; [|by apply tables_ok_delete].
    apply tables_ok_insert; [done|]. intros rm Hr. rewrite Hrm in Hr. injection Hr as <-. eauto.
  - unfold finalizeRewards. rewrite Eb. unfold pbind, lift. destruct (tryParseLegacyReward _ _ _) as [[l|]|]; [|done..].
    unfold finalizeLegacyRewardTransaction. destruct l as [c|d]; unfold pbind, lift.
    + destruct (recoverLegacyCreateRewardSigner _ _ _); [|done]. by apply finalize_legacy_create_ok.
    + destruct (recoverLegacyDeleteRewardSigner _ _) as [signer|]; [|done].
      destruct (finalizeLegacyDeleteReward fault d signer t) as [t' o] eqn:E. simpl.
      apply delete_reward_changes in E as [->|[_ ->]]; [done|]. by apply tables_ok_delete.
Qed.

(** Blocks of reward transactions, in either format, applied one after another. *)
Inductive reward_step (t : reward_tables) : reward_tables -> Prop :=
| step_pool height env : reward_step t (fst (finalize_pool height env t))
| step_reward height txhash index env : reward_step t (fst (finalize_reward height txhash index env t)).

(** Whatever reward transactions are applied, in the current or the legacy
    format and with any statement failing, starting from empty tables: every
    pool's authorities are a canonical non-empty set, and every reward bound to a
    reward manager has its pool. *)
Theorem reward_tables_stay_well_formed t :
  IsHexAddress "" = false ->
  rtc reward_step (mkRewardTables ∅ []) t -> tables_ok t.
Proof using.
  intros Hhex Hr. assert (tables_ok (mkRewardTables ∅ [])) as H0.
  { split; simpl; [intros ? ? H; by rewrite lookup_empty in H|intros ? ? H; by apply elem_of_nil in H]. }
  induction Hr as [|? ? ? Hs _ IH]; [done|]. apply IH. destruct Hs; [by apply finalize_pool_ok|by apply finalize_reward_ok].
Qed.

(** The pools a legacy creation may leave: the same, or the authorities it names are
    added to the pool the launchpad maps one of them to. *)
Inductive pools_merged (c : LegacyCreateReward) (pools : gmap string (list string)) : gmap string (list string) -> Prop :=
| pools_same : pools_merged c pools pools
| pools_extended rm a :
    let auths := CanonicalAuthorities (map fst (lc_ClaimAuthorities c)) in
    (a, rm) ∈ launchpad -> a ∈ auths ->
    pools_merged c pools
      (<[rm := match pools !! rm with Some old => CanonicalAuthorities (app old auths) | None => auths end]> pools).

(** What a reward transaction of the legacy format may do. *)
Inductive legacy_change (height : Z) (t : reward_tables) : legacy_action -> reward_tables -> Prop :=
| legacy_created c signer pools rewards :
    height <= lc_Deadline c -> LegacyRecoverCreateReward json_strings c = Some signer ->
    pools_merged c (rt_pools t) pools ->
    (rewards = rt_rewards t \/ exists row, cr_Sender row = signer /\ cr_RewardID row = lc_RewardId c /\
       rewards = app (rt_rewards t) [row]) ->
    legacy_change height t (LegacyCreate c) (mkRewardTables pools rewards)
| legacy_deleted d signer row :
    height <= ld_Deadline d -> LegacyRecoverDeleteReward d = Some signer ->
    row ∈ rt_rewards t -> cr_Address row = ld_Address d -> normalize signer ∈ claim_authorities t row ->
    legacy_change height t (LegacyDelete d)
      (mkRewardTables (rt_pools t) (List.filter (fun r => negb (String.eqb (cr_Address r) (ld_Address d))) (rt_rewards t))).

Lemma recover_legacy_ok height deadline r signer :
  recover_legacy height deadline r = Ok signer -> height <= deadline /\ r = Some signer.
Proof using. unfold recover_legacy. intros H. peel_checks H. destruct r; simplify_eq. split; [lia|done]. Qed.

Lemma launchpad_row auths rm :
  GetLaunchpadRMByAuthority launchpad fault auths = Ok (Some rm) -> exists a, (a, rm) ∈ launchpad /\ a ∈ auths.
Proof using.
  unfold GetLaunchpadRMByAuthority, ask. destruct (fault _); [done|]. intros [= Hh].
  assert (Hin : rm ∈ map snd (List.filter (fun row => bool_decide (row.1 ∈ auths)) launchpad)).
  { rewrite <- (merge_sort_Permutation String.le). unfold sort_strings in Hh.
    destruct (merge_sort _ _); [done|]. injection Hh as ->. by left. }
  apply list_elem_of_In, in_map_iff in Hin as ([a r] & <- & [Hr Ha]%filter_In). exists a. split.
  - by apply list_elem_of_In.
  - by apply bool_decide_eq_true in Ha.
Qed.

Lemma legacy_create_changes height txhash index c signer t :
  let t' := fst (finalizeLegacyCreateReward marshal_legacy_create chainID launchpad fault height txhash index c signer t) in
  exists pools rewards, t' = mkRewardTables pools rewards /\ pools_merged c (rt_pools t) pools /\
    (rewards = rt_rewards t \/ exists row, cr_Sender row = signer /\ cr_RewardID row = lc_RewardId c /\
       rewards = app (rt_rewards t) [row]).
Proof using.
  cbn zeta. unfold finalizeLegacyCreateReward. destruct (HexToBytes txhash) as [bytes|].
  2: { exists (rt_pools t), (rt_rewards t). split_and!; [by destruct t|constructor|by left]. }
  set (auths := CanonicalAuthorities (map fst (lc_ClaimAuthorities c))).
  match goal with |- context [pbind ?m _ t] => destruct (m t) as [t1 o1] eqn:E1; unfold pbind at 1; rewrite E1 end.
  assert (pools_merged c (rt_pools t) (rt_pools t1) /\ rt_rewards t1 = rt_rewards t) as [Hp Hrw].
  { case_bool_decide; [injection E1 as <- _; split; [constructor|done]|].
    unfold pbind, lift in E1. destruct (GetLaunchpadRMByAuthority _ _ _) as [[rm|]|] eqn:El;
      [|injection E1 as <- _; split; [constructor|done]..].
    apply launchpad_row in El as (a & Hl & Ha). unfold UpsertLegacyReplayRewardPool, exec in E1.
    destruct (fault _); injection E1 as <- _; (split; [|done]); [constructor|]. by apply (pools_extended _ _ rm a). }
  assert (Hsame : exists pools rewards, t1 = mkRewardTables pools rewards /\ pools_merged c (rt_pools t) pools /\
    (rewards = rt_rewards t \/ exists row, cr_Sender row = signer /\ cr_RewardID row = lc_RewardId c /\
       rewards = app (rt_rewards t) [row])).
  { exists (rt_pools t1), (rt_rewards t1). split_and!; [by destruct t1|done|by left]. }
  destruct o1 as [rm|e]; [|done]. destruct (marshal_legacy_create c) as [raw|]; [|done].
  match goal with |- context [InsertCoreReward _ ?r t1] =>
    set (row := r); destruct (InsertCoreReward fault row t1) as [t2 o2] eqn:E2 end. cbn [fst].
  apply InsertCoreReward_changes in E2 as [->|[-> _]]; [done|].
  exists (rt_pools t1), (app (rt_rewards t1) [row]). split_and!; [done|done|right]. exists row. by rewrite Hrw.
Qed.

Lemma finalize_legacy_changes height txhash index env t :
  rw_Body env = None ->
  let t' := fst (finalize_reward height txhash index (Some env) t) in
  t' <> t -> exists l, tryParseLegacyReward marshal_reward_message unmarshal_legacy env = Ok (Some l) /\
    legacy_change height t l t'.
Proof using.
  intros Hb. cbn zeta. unfold finalizeRewards. rewrite Hb. unfold pbind, lift.
  destruct (tryParseLegacyReward _ _ _) as [[l|]|] eqn:El; [|done..]. intros Hne. exists l. split; [done|].
  revert Hne. unfold finalizeLegacyRewardTransaction. destruct l as [c|d]; unfold pbind, lift.
  - destruct (recoverLegacyCreateRewardSigner _ _ _) as [signer|] eqn:Es; [|done].
    apply recover_legacy_ok in Es as [Hd Hs]. intros _.
    destruct (legacy_create_changes height txhash index c signer t) as (pools & rewards & -> & Hp & Hr).
    by eapply legacy_created.
  - destruct (recoverLegacyDeleteRewardSigner _ _) as [signer|] eqn:Es; [|done].
    apply recover_legacy_ok in Es as [Hd Hs].
    destruct (finalizeLegacyDeleteReward fault d signer t) as [t' o] eqn:E. simpl.
    apply delete_reward_changes in E as [->|[(row & Hin & Hadr & Hauth) ->]]; [done|]. intros _. by eapply legacy_deleted.
Qed.

(** C11 -- What may change pools and rewards, by the format of the transaction.  A pool
    transaction that changes the tables was signed, within its deadline, by the
    recovered signer, and either creates a pool that does not exist, is not the reserved
    one, is owner-signed by the reward manager key and has the signer among its
    authorities, or replaces the authorities of a pool the signer is currently an
    authority of.  A reward transaction of the current format that changes the tables
    was signed by an authority of the reward's pool.  A legacy reward transaction is
    never valid in a new block; one of an old block that is replayed deletes a reward
    only if an authority of it signed, but may create one whoever signed it, and then
    adds the authorities it names to the pool the launchpad maps one of them to, without
    removing any authority. *)
Theorem only_authorities_change_rewards height txhash index penv renv t :
  let t1 := fst (finalize_pool height penv t) in
  let t2 := fst (finalize_reward height txhash index (Some renv) t) in
  (t1 <> t -> exists e body signer, penv = Some e /\ pm_Body e = Some body /\
     signed_by height (pb_Deadline body) (signable_pool body) (pm_Signature e) signer /\
     pool_change e body signer t t1) /\
  (t2 <> t -> rw_Body renv <> None -> exists body signer, rw_Body renv = Some body /\
     signed_by height (rb_Deadline body) (signable_reward body) (rw_Signature renv) signer /\
     reward_change body signer t t2) /\
  (rw_Body renv = None ->
     (forall committed h, exists e, isValidRewardTransaction signable_reward marshal_reward_message unmarshal_legacy
        base58_decode audioRM fault committed (Some renv) h = Err e) /\
     (t2 <> t -> exists l, tryParseLegacyReward marshal_reward_message unmarshal_legacy renv = Ok (Some l) /\
        legacy_change height t l t2)).
Proof using.
  split_and!.
  - intros Hne. destruct (finalize_pool height penv t) as [t' o] eqn:E. simpl in *.
    by apply finalize_pool_changes in E as [->|Hch].
  - intros Hne Hb. destruct (rw_Body renv) as [body|] eqn:Eb; [|done].
    destruct (finalize_reward height txhash index (Some renv) t) as [t' o] eqn:E.
    eapply finalize_reward_changes in E as [->|(signer & ? & ?)]; [done| |exact Eb]. cbn [fst]. eauto.
  - intros Hb. split; [|by apply finalize_legacy_changes].
    intros committed h. unfold isValidRewardTransaction. rewrite Hb.
    destruct (tryParseLegacyReward _ _ _) as [[l|]|]; by eexists.
Qed.
End Transactions.

(** ** Where pools can be turned against their authorities *)

Definition has_0x (s : string) : Prop := exists h, s = "0x" +:+ h.

Lemma normalize_0x s : has_0x s -> has_0x (normalize s).
Proof.
  intros [h ->]. unfold normalize, TrimSpace.
  change ("0x" +:+ h) with (String "0"%char (String "x"%char h)). cbn [trim_left].
  assert (ascii_space "0" = false) as -> by (vm_compute; reflexivity). cbn [trim_right].
  destruct (trim_right h) as [|c t].
  - exists "". vm_compute. reflexivity.
  - exists (ToLower (String c t)). reflexivity.
Qed.

(** A rotation to addresses written without 0x locks the pool: IsHexAddress
    accepts such addresses and they are stored as given, while recovered signers
    always start with 0x, so after the rotation nobody is an authority of the pool,
    which the validation of authority lists is there to rule out. *)
Theorem unprefixed_authorities_lock_pool {C : EthCrypto} signable_pool base58_decode ed25519_verify IsHexAddress audioRM
    fault env body rm auths signer height t old :
  (forall q, fault q = false) ->
  (forall pk, has_0x (PubkeyToAddress pk)) ->
  pm_Body env = Some body -> pb_Action body = Some (RewardPoolBody_SetAuthorities rm auths) ->
  recoverDeadlinedSigner height (pb_Deadline body) (signable_pool body) (pm_Signature env) = Ok signer ->
  validateRewardsManagerPubkeyShape base58_decode rm = Ok tt ->
  rt_pools t !! rm = Some old -> normalize signer ∈ old ->
  auths <> [] -> (forall a, a ∈ auths -> IsHexAddress (TrimSpace a) = true /\ ~ has_0x (normalize a)) ->
  let r := finalizeRewardPoolTransaction signable_pool base58_decode ed25519_verify IsHexAddress audioRM fault
             height (Some env) t in
  snd r = Ok tt /\
  forall sig data pk who, EthRecover sig data = Some (pk, who) ->
    checkPoolAuthorization fault rm who (fst r) = Err (ErrRewardUnauthorized "signer not authorized for pool").
Proof.
  intros Hf H0x Hb Ha Hs Hshape Hp Hin Hne Hall r.
  assert (r = (mkRewardTables (<[rm := CanonicalAuthorities auths]> (rt_pools t)) (rt_rewards t), Ok tt)) as ->.
  { subst r. unfold finalizeRewardPoolTransaction. destruct env as [b sig own]. simpl in Hb, Hs. subst b.
    unfold pbind, lift. simpl. rewrite Hs, Ha.
    unfold finalizeSetRewardPoolAuthorities, pbind, lift, check, query. rewrite Hshape.
    assert (validateAuthorityList IsHexAddress auths = Ok tt) as ->.
    { unfold validateAuthorityList. rewrite bool_decide_false by done. simpl.
      replace (forallb _ auths) with true; [done|]. symmetry. apply forallb_forall. intros a Hina.
      apply Hall. by apply list_elem_of_In. }
    unfold checkPoolAuthorization, GetRewardPool, ask. rewrite Hf, Hp. simpl.
    assert (is_authority old signer = true) as -> by (by apply is_authority_spec). simpl.
    unfold UpdateRewardPoolAuthorities, exec. by rewrite Hf, (alter_insert_some _ _ _ _ Hp). }
  split; [done|]. intros sig data pk who Hrec.
  assert (has_0x who) as Hwho.
  { unfold EthRecover in Hrec. destruct (hex_decode sig); simpl in Hrec; [|done].
    destruct (SigToPub _ _) as [pk'|]; simpl in Hrec; [|done]. injection Hrec as <- <-. apply H0x. }
  unfold checkPoolAuthorization, GetRewardPool, ask. rewrite Hf. simpl. rewrite lookup_insert_eq. simpl.
  destruct (is_authority _ who) eqn:E; [|done]. apply is_authority_spec, elem_of_CanonicalAuthorities in E as (a & Hina & He & _).
  destruct (Hall a Hina) as [_ Hn]. rewrite He in Hn. by apply normalize_0x in Hwho.
Qed.

(** ** A pool, run *)

Module RewardExample.
Definition rm : string := "rm".
Definition b58 (s : string) : option string :=
  if String.eqb s rm then Some (Toy.repeat_byte 32 "k"%char "") else None.
Definition hex_address (s : string) : bool := negb (String.eqb s "").
Definition signable (b : RewardPoolBody) : option string := Some "body".
Definition ok : reward_query -> bool := fun _ => false.
(** Signed by the holder of 0x61. *)
Definition set_to (auths : list string) : RewardPoolMessage :=
  mkRewardPoolMessage (Some (mkRewardPoolBody 100 (Some (RewardPoolBody_SetAuthorities rm auths)))) (hex_encode "a") "".
Definition finalize (height : Z) (m : RewardPoolMessage) (t : reward_tables) : reward_tables * res reward_error unit :=
  finalizeRewardPoolTransaction (C := Toy.crypto) signable b58 (fun _ _ _ => true) hex_address "" ok height (Some m) t.
Definition pool_of (t : reward_tables) : option (list string) := rt_pools t !! rm.
Definition start : reward_tables := mkRewardTables (<[rm := ["0x61"]]> ∅) [].
End RewardExample.

(** Rotations can be replayed: nothing in a signed pool message says that it
    was used.  0x61 adds 0x62 to the pool, then removes it; anyone, 0x62 included,
    submits the first message again before its deadline and 0x62 is back. *)
Theorem rotation_can_be_replayed :
  let add := RewardExample.set_to ["0x61"; "0x62"] in
  let remove := RewardExample.set_to ["0x61"] in
  let t1 := fst (RewardExample.finalize 10 add RewardExample.start) in
  let t2 := fst (RewardExample.finalize 20 remove t1) in
  let '(t3, r) := RewardExample.finalize 30 add t2 in
  RewardExample.pool_of t1 = Some ["0x61"; "0x62"] /\ RewardExample.pool_of t2 = Some ["0x61"] /\
  r = Ok tt /\ RewardExample.pool_of t3 = Some ["0x61"; "0x62"].
Proof. vm_compute. auto. Qed.

Lemma unprefixed_authorities_lock_pool_witness :
  snd (RewardExample.finalize 10 (RewardExample.set_to ["62"]) RewardExample.start) = Ok tt.
Proof.
  apply (unprefixed_authorities_lock_pool (C := Toy.crypto) RewardExample.signable RewardExample.b58 (fun _ _ _ => true)
    RewardExample.hex_address "" RewardExample.ok (RewardExample.set_to ["62"])
    (mkRewardPoolBody 100 (Some (RewardPoolBody_SetAuthorities RewardExample.rm ["62"]))) RewardExample.rm ["62"] "0x61"
    10 RewardExample.start ["0x61"]).
  - reflexivity.
  - intros pk. by eexists.
  - reflexivity.
  - reflexivity.
  - vm_compute. reflexivity.
  - vm_compute. reflexivity.
  - vm_compute. reflexivity.
  - apply list_elem_of_singleton. vm_compute. reflexivity.
  - discriminate.
  - intros a ->%list_elem_of_singleton. split; [vm_compute; reflexivity|].
    intros [h Hh]. vm_compute in Hh. discriminate Hh.
Defined.

Lemma reward_tables_stay_well_formed_witness :
  tables_ok (fst (finalizeRewardPoolTransaction (C := Toy.crypto) RewardExample.signable RewardExample.b58
    (fun _ _ _ => true) RewardExample.hex_address "" RewardExample.ok 10
    (Some (mkRewardPoolMessage
       (Some (mkRewardPoolBody 100 (Some (RewardPoolBody_Create RewardExample.rm ["0x62"; " 0X61"]))))
       (hex_encode "a") (Toy.repeat_byte 64 "s"%char ""))) (mkRewardTables ∅ []))).
Proof.
  apply (reward_tables_stay_well_formed (C := Toy.crypto) (fun _ => Some "body") RewardExample.signable (fun _ => None)
    (fun _ => None) (fun _ => None) (fun _ => None) RewardExample.b58 (fun _ _ _ => true) RewardExample.hex_address
    (fun _ => "") "chain" "" [] RewardExample.ok).
  - reflexivity.
  - apply rtc_once. apply step_pool.
Defined.
