(* ===== verification/Claims.v ===== *)
(** * Claims and sender attestations

    Models pkg/rewards (claims, their signatures, the reward attester, sender
    attestations), the reward table of pkg/core/config/rewards.go, the endpoint
    getRewardAttestation of pkg/core/server/rewards.go and the sender gate of
    pkg/core/server/connect.go. *)

From stdpp Require Import base gmap strings list sorting fin_maps.
From Stdlib Require Import ZArith Lia Ascii.
From S2P Require Import Prelude Crypto Validators Encoding Rendezvous Rewards.

Open Scope string_scope.
Open Scope Z_scope.

(** ** Rewards of the configuration *)

Record Reward := mkReward {
  r_ClaimAuthorities : list (string * string);
  r_Amount : Z;
  r_RewardId : string;
  r_Name : string
}.

Definition BaseRewards : list Reward :=
    [mkReward [] 1 "p" "profile completion";
     mkReward [] 1 "e" "endless listen streak";
     mkReward [] 1 "u" "upload tracks";
     mkReward [] 1 "r" "referrals";
     mkReward [] 1 "rv" "referrals verified";
     mkReward [] 1 "rd" "referred";
     mkReward [] 5 "v" "verified";
     mkReward [] 1 "m" "mobile install";
     mkReward [] 1000 "tt" "trending tracks";
     mkReward [] 1000 "tut" "trending underground";
     mkReward [] 100 "tp" "trending playlist";
     mkReward [] 2 "ft" "first tip";
     mkReward [] 2 "fp" "first playlist";
     mkReward [] 5 "b" "audio match buyer";
     mkReward [] 5 "s" "audio match seller";
     mkReward [] 1 "o" "airdrop 2";
     mkReward [] 1 "c" "first weekly comment";
     mkReward [] 25 "p1" "play count milestone";
     mkReward [] 100 "p2" "play count milestone";
     mkReward [] 1000 "p3" "play count milestone";
     mkReward [] 100 "t" "tastemaker";
     mkReward [] 1000 "dvl" "daily volume leader";
     mkReward [] 10 "cp" "comment pin";
     mkReward [] 1000 "cs" "cosign challenge";
     mkReward [] 1000 "w" "remix contest winner"].

Definition with_authorities (auths : list (string * string)) (r : Reward) : Reward :=
  mkReward auths (r_Amount r) (r_RewardId r) (r_Name r).

Definition MakeRewards (claimAuthorities : list (string * string)) (rewardExtensions : list Reward) : list Reward :=
  app (map (with_authorities claimAuthorities) BaseRewards)
      (map (with_authorities claimAuthorities) rewardExtensions).

(** The environments AudioRewardsManagerPubkey knows. *)
Definition AudioRewardsManagerPubkey (environment : string) : string :=
  if bool_decide (environment ∈ ["prod"; "production"; "mainnet"])
  then "71hWFVYokLaN1PNYzTAWi13EfJ7Xt9VbSWUKsXUT8mxE"
  else if bool_decide (environment ∈ ["dev"; "development"; "devnet"; "local"; "sandbox"])
  then "DJPzVothq58SmkpRb1ATn5ddN2Rpv1j2TcGvM3XsHf1c"
  else "".

(** ** Claims *)

Record RewardClaim := mkRewardClaim {
  RecipientEthAddress : string;
  ClaimAmount : Z;
  ClaimRewardID : string;
  RewardAddress : string;
  Specifier : string;
  ClaimAuthority : string;
  Decimals : Z
}.

(** binary.LittleEndian.PutUint64. *)
Definition le_uint64 (z : Z) : string :=
  let b i := to_byte (z / 2 ^ (8 * i)) in
  String (b 0) (String (b 1) (String (b 2) (String (b 3)
    (String (b 4) (String (b 5) (String (b 6) (String (b 7) ""))))))).

Definition combined_id (c : RewardClaim) : string :=
  if negb (String.eqb (RewardAddress c) "")
  then RewardAddress c +:+ ":" +:+ ClaimRewardID c +:+ ":" +:+ Specifier c
  else ClaimRewardID c +:+ ":" +:+ Specifier c.

Definition claim_decimals (c : RewardClaim) : Z := if Decimals c =? 0 then 8 else Decimals c.
Definition scaled_amount (c : RewardClaim) : Z := ClaimAmount c * 10 ^ claim_decimals c.

Definition Compile (c : RewardClaim) : res string string :=
  let? _ := guard_err (18 <? claim_decimals c) "amount_decimals too large; max 18" in
  let? _ := guard_err (uint64_max <? scaled_amount c) "amount overflows after scaling" in
  match hex_decode (TrimPrefix "0x" (RecipientEthAddress c)) with
  | None => Err "failed to decode user wallet"
  | Some userBytes =>
      let items := userBytes +:+ "_" +:+ le_uint64 (scaled_amount c) +:+ "_" +:+ combined_id c in
      if String.eqb (ClaimAuthority c) "" then Ok items
      else match hex_decode (TrimPrefix "0x" (ClaimAuthority c)) with
           | None => Err "failed to decode oracle address"
           | Some oracleBytes => Ok (items +:+ "_" +:+ oracleBytes)
           end
  end.

Section Claims.
Context {C : EthCrypto}.

(** SignClaim and RewardAttester.Attest sign the same way. *)
Definition sign_claim_data (claimData : string) (key : privkey) : res string string :=
  match crypto_Sign (keccak256 claimData) key with
  | None => Err "failed to sign claim"
  | Some signatureBytes => Ok ("0x" +:+ hex_encode signatureBytes)
  end.

Definition SignClaim (c : RewardClaim) (key : privkey) : res string string :=
  let? claimData := Compile c in sign_claim_data claimData key.

Definition VerifyClaim (c : RewardClaim) (signature : string) : res string string :=
  let? claimData := Compile c in
  match hex_decode (TrimPrefix "0x" signature) with
  | None => Err "failed to decode signature"
  | Some sigBytes =>
      match SigToPub (keccak256 claimData) sigBytes with
      | None => Err "failed to recover public key"
      | Some pk => Ok (PubkeyToAddress pk)
      end
  end.

(** ** The reward attester *)

Record RewardAttester := mkRewardAttester {
  ra_EthereumAddress : string;
  ra_EthereumKey : privkey;
  ra_Rewards : list Reward
}.

Definition NewRewardAttester (key : privkey) (rewards : list Reward) : RewardAttester :=
  mkRewardAttester (PubkeyToAddress (pub_of key)) key rewards.

Definition getRewardById (rs : RewardAttester) (rewardID : string) : res string Reward :=
  match List.find (fun r => String.eqb (r_RewardId r) rewardID) (ra_Rewards rs) with
  | Some r => Ok r
  | None => Err "reward not found"
  end.

Definition Validate (rs : RewardAttester) (claim : RewardClaim) : res string unit :=
  let? reward := getRewardById rs (ClaimRewardID claim) in
  let? _ := guard_err (String.eqb (RecipientEthAddress claim) "") "missing recipient eth address" in
  let? _ := guard_err (String.eqb (Specifier claim) "") "missing specifier" in
  let? _ := guard_err (ClaimAmount claim =? 0) "missing amount" in
  guard_err (r_Amount reward <? ClaimAmount claim) "amount exceeds reward amount".

Definition validClaimAuthority (authorities : list (string * string)) (address : string) : bool :=
  existsb (fun a => EqualFold a.1 address) authorities.

Definition Authenticate (rs : RewardAttester) (claim : RewardClaim) (signature : string) : res string unit :=
  let? reward := getRewardById rs (ClaimRewardID claim) in
  let? recoveredSigner := VerifyClaim claim signature in
  guard_err (negb (validClaimAuthority (r_ClaimAuthorities reward) recoveredSigner)) "address is not a claim authority".

Definition Attest (rs : RewardAttester) (claim : RewardClaim) : res string (string * string) :=
  let? claimData := Compile claim in
  let? signature := sign_claim_data claimData (ra_EthereumKey rs) in
  Ok (claimData, signature).

(** The endpoint: [amount] is the query parameter parsed by strconv.ParseUint, and
    the answer is the owner and the attestation. *)
Definition getRewardAttestation (rs : RewardAttester) (ethRecipientAddress rewardID specifier oracleAddress signature : string)
    (amount : option Z) : res string (string * string) :=
  let? _ := guard_err (String.eqb ethRecipientAddress "") "eth_recipient_address is required" in
  let? _ := guard_err (String.eqb rewardID "") "reward_id is required" in
  let? _ := guard_err (String.eqb specifier "") "specifier is required" in
  let? _ := guard_err (String.eqb oracleAddress "") "oracle_address is required" in
  let? _ := guard_err (String.eqb signature "") "signature is required" in
  match amount with
  | None => Err "amount is invalid"
  | Some amountUint =>
      let claim := mkRewardClaim ethRecipientAddress amountUint rewardID "" specifier oracleAddress 0 in
      let? _ := Validate rs claim in
      let? _ := Authenticate rs claim signature in
      let? attestation := Attest rs claim in
      Ok (ra_EthereumAddress rs, attestation.2)
  end.

(** ** Sender attestations *)

Section Senders.
Context (base58_decode : string -> option string).

Definition AddSenderMessagePrefix : string := "add".
Definition DeleteSenderMessagePrefix : string := "del".

Definition getSenderAttestation (signer : privkey) (messagePrefix senderAddress rewardsManagerAccountPubKey : string) :
    res string (string * string) :=
  let senderAddress := TrimPrefix "0x" senderAddress in
  match base58_decode rewardsManagerAccountPubKey with
  | None => Err "invalid program pubkey"
  | Some programBytes =>
      match hex_decode senderAddress with
      | None => Err "invalid sender address"
      | Some addrBytes =>
          match EthSignKeccak signer (messagePrefix +:+ programBytes +:+ addrBytes) with
          | None => Err "could not sign"
          | Some sig => Ok (PrivKeyToAddress signer, sig)
          end
      end
  end.

Definition GetCreateSenderAttestation (signer : privkey) (newSenderAddress rm : string) :=
  getSenderAttestation signer AddSenderMessagePrefix newSenderAddress rm.
Definition GetDeleteSenderAttestation (signer : privkey) (senderAddress rm : string) :=
  getSenderAttestation signer DeleteSenderMessagePrefix senderAddress rm.

(** The gate of a reward manager: its pool, the network-wide trust set, or none. *)
Inductive sender_gate := PoolGate (authorities : list string) | TrustSetGate.

Section Gate.
(** The configured AUDIO reward manager, the answer of GetRewardPool ([None] when
    the query fails) and the eligible validators and oracles. *)
Context (audioRM : string) (pool : string -> option (option (list string))) (eligible : option (list string)).

Definition senderGateForRM (rm : string) : res string sender_gate :=
  match pool rm with
  | None => Err "failed to load pool"
  | Some (Some authorities) => Ok (PoolGate authorities)
  | Some None =>
      let audioRM := TrimSpace audioRM in
      if negb (String.eqb audioRM "") && String.eqb rm audioRM then Ok TrustSetGate
      else Err "rewards_manager_pubkey has no pool and is not AUDIO"
  end.

(** Whether the gate knows the address. *)
Definition gate_admits (gate : sender_gate) (address : string) : res string bool :=
  match gate with
  | PoolGate authorities => Ok (bool_decide (ToLower address ∈ authorities))
  | TrustSetGate =>
      match eligible with
      | None => Err "error finding validators"
      | Some l => Ok (existsb (fun eth => EqualFold eth address) l)
      end
  end.

Definition validated_request (address rm : string) : res string (string * string) :=
  let address := TrimSpace address in
  let? _ := guard_err (String.eqb address "") "address is required" in
  let rm := TrimSpace rm in
  match validateRewardsManagerPubkeyShape base58_decode rm with
  | Err _ => Err "invalid rewards_manager_pubkey"
  | Ok _ => Ok (address, rm)
  end.

Definition GetRewardSenderAttestation (key : privkey) (address rm : string) : res string (string * string) :=
  let? req := validated_request address rm in
  let? gate := senderGateForRM req.2 in
  let? known := gate_admits gate req.1 in
  if known then GetCreateSenderAttestation key req.1 req.2 else Err "address not eligible".

Definition GetDeleteRewardSenderAttestation (key : privkey) (address rm : string) : res string (string * string) :=
  let? req := validated_request address rm in
  let? gate := senderGateForRM req.2 in
  let? known := gate_admits gate req.1 in
  if known then Err "address is still eligible" else GetDeleteSenderAttestation key req.1 req.2.
End Gate.
End Senders.
End Claims.

(** ** Claims and sender attestations: theorems *)

(** A claim signed with a key verifies to the address of that key. *)
Theorem claim_signature_roundtrip {C : EthCrypto} {L : EthCryptoLaws C} c key sig :
  SignClaim c key = Ok sig -> VerifyClaim c sig = Ok (PrivKeyToAddress key).
Proof.
  unfold SignClaim, VerifyClaim, sign_claim_data. destruct (Compile c) as [data|]; simpl; [|done].
  destruct (crypto_Sign _ key) as [s|] eqn:E; [|done]. intros [= <-].
  rewrite TrimPrefix_0x, hex_decode_encode. by rewrite (SigToPub_Sign _ _ _ E).
Qed.

(** ** The encoding of claims *)

Lemma le_uint64_inj x y : 0 <= x < 2 ^ 64 -> 0 <= y < 2 ^ 64 -> le_uint64 x = le_uint64 y -> x = y.
Proof.
  intros Hx Hy E. apply be_uint64_inj; [done|done|]. unfold le_uint64 in E.
  injection E as E0 E1 E2 E3 E4 E5 E6 E7. unfold be_uint64. congruence.
Qed.

(** Appends of equal length on the right are determined as well. *)
Lemma append_inj_length_r (s s' t t' : string) :
  String.length t = String.length t' -> s +:+ t = s' +:+ t' -> s = s' /\ t = t'.
Proof.
  intros Hl E. apply append_inj_length; [|done].
  assert (String.length (s +:+ t) = String.length (s' +:+ t')) as H by (by rewrite E).
  rewrite !length_append in H. lia.
Qed.

Lemma Compile_ok c b :
  Compile c = Ok b ->
  claim_decimals c <= 18 /\ scaled_amount c <= uint64_max /\
  exists user, hex_decode (TrimPrefix "0x" (RecipientEthAddress c)) = Some user /\
    ((ClaimAuthority c = "" /\ b = user +:+ "_" +:+ le_uint64 (scaled_amount c) +:+ "_" +:+ combined_id c) \/
     (ClaimAuthority c <> "" /\ exists oracle, hex_decode (TrimPrefix "0x" (ClaimAuthority c)) = Some oracle /\
        b = (user +:+ "_" +:+ le_uint64 (scaled_amount c) +:+ "_" +:+ combined_id c) +:+ "_" +:+ oracle)).
Proof.
  unfold Compile. intros H. peel_checks H. apply Z.ltb_ge in Hc, Hc0.
  destruct (hex_decode (TrimPrefix "0x" (RecipientEthAddress c))) as [user|]; [|done].
  split_and!; [done|done|]. exists user. split; [done|].
  destruct (String.eqb_spec (ClaimAuthority c) "") as [He|He]; [left|right]; [by simplify_eq|].
  split; [done|]. destruct (hex_decode (TrimPrefix "0x" (ClaimAuthority c))) as [oracle|]; simplify_eq. eauto.
Qed.

Definition well_formed_claim (c : RewardClaim) : Prop :=
  0 <= ClaimAmount c /\ 0 <= Decimals c /\ ClaimAuthority c <> "" /\
  (forall b, hex_decode (TrimPrefix "0x" (RecipientEthAddress c)) = Some b -> String.length b = 20%nat) /\
  (forall b, hex_decode (TrimPrefix "0x" (ClaimAuthority c)) = Some b -> String.length b = 20%nat).

(** The bytes a claim is signed as are unambiguous: two claims with 20-byte
    recipients and authorities that compile to the same bytes pay the same
    recipient the same amount for the same disbursement under the same
    authority. *)
Theorem compiled_claims_are_unambiguous c c' b :
  well_formed_claim c -> well_formed_claim c' -> Compile c = Ok b -> Compile c' = Ok b ->
  hex_decode (TrimPrefix "0x" (RecipientEthAddress c)) = hex_decode (TrimPrefix "0x" (RecipientEthAddress c')) /\
  scaled_amount c = scaled_amount c' /\ combined_id c = combined_id c' /\
  hex_decode (TrimPrefix "0x" (ClaimAuthority c)) = hex_decode (TrimPrefix "0x" (ClaimAuthority c')).
Proof.
  intros (Ha & Hd & Hau & Hu & Ho) (Ha' & Hd' & Hau' & Hu' & Ho') E E'.
  apply Compile_ok in E as (_ & Hs & user & Euser & [[? _]|(_ & oracle & Eo & Eb)]); [done|].
  apply Compile_ok in E' as (_ & Hs' & user' & Euser' & [[? _]|(_ & oracle' & Eo' & Eb')]); [done|].
  rewrite Eb in Eb'. clear b Eb. specialize (Hu _ Euser). specialize (Hu' _ Euser').
  specialize (Ho _ Eo). specialize (Ho' _ Eo').
  apply append_inj_length_r in Eb' as [E1 E2]; [|by rewrite !length_append, Ho, Ho'].
  apply append_inj_length in E1 as [-> E1]; [|by rewrite Hu, Hu'].
  apply append_inj_length in E1 as [_ E1]; [|done].
  apply append_inj_length in E1 as [Eamt E1]; [|done].
  apply append_inj_length in E1 as [_ E1]; [|done].
  apply append_inj_length in E2 as [_ ->]; [|done].
  split_and!; [congruence| |done|congruence].
  assert (forall x, 0 <= ClaimAmount x -> 0 <= Decimals x -> 0 <= scaled_amount x) as Hpos.
  { intros x Hx Hdx. unfold scaled_amount, claim_decimals. apply Z.mul_nonneg_nonneg; [done|].
    apply Z.pow_nonneg. lia. }
  unfold uint64_max in *. apply le_uint64_inj; [| |done]; split; auto; lia.
Qed.

(** A node attests a claim only within its bounds: if the endpoint answers,
    the reward is one of its rewards, the amount is positive and at most the
    configured amount, and the claim was signed by one of the reward's claim
    authorities; the answer is this node's signature of that same claim. *)
Theorem attested_claims_are_authorized {C : EthCrypto} {L : EthCryptoLaws C} rs recipient rewardID specifier oracle sig amount owner att :
  getRewardAttestation rs recipient rewardID specifier oracle sig (Some amount) = Ok (owner, att) -> 0 <= amount ->
  let claim := mkRewardClaim recipient amount rewardID "" specifier oracle 0 in
  exists r signer,
    r ∈ ra_Rewards rs /\ r_RewardId r = rewardID /\ 0 < amount <= r_Amount r /\
    VerifyClaim claim sig = Ok signer /\ (exists a, a ∈ r_ClaimAuthorities r /\ EqualFold a.1 signer = true) /\
    VerifyClaim claim att = Ok (PrivKeyToAddress (ra_EthereumKey rs)).
Proof.
  intros H Hpos claim. unfold getRewardAttestation in H. peel_checks H.
  fold claim in H. apply rbind_ok in H as (? & Hv & H). apply rbind_ok in H as (? & Ha & H).
  apply rbind_ok in H as ([data s] & Hat & H). simpl in H. injection H as <- <-.
  unfold Validate in Hv. apply rbind_ok in Hv as (r & Hr & Hv). peel_checks Hv. apply guard_err_ok, Z.ltb_ge in Hv.
  unfold Authenticate in Ha. rewrite Hr in Ha. simpl in Ha. apply rbind_ok in Ha as (signer & Hs & Ha).
  apply guard_err_ok, negb_false_iff in Ha. unfold validClaimAuthority in Ha.
  apply existsb_exists in Ha as (a & Hin & He).
  unfold getRewardById in Hr. destruct (find _ _) as [r'|] eqn:Ef; [|done]. injection Hr as ->.
  apply find_some in Ef as [Hinr Hid]. apply String.eqb_eq in Hid. subst claim. cbn in *.
  exists r, signer. split_and!.
  - by apply list_elem_of_In.
  - done.
  - match goal with Hz : (amount =? 0) = false |- _ => apply Z.eqb_neq in Hz end. lia.
  - lia.
  - done.
  - exists a. split; [by apply list_elem_of_In|done].
  - unfold Attest, sign_claim_data in Hat. apply rbind_ok in Hat as (d & Hd & Hat).
    apply rbind_ok in Hat as (sg & Hsg & Hat). injection Hat as <- <-.
    destruct (crypto_Sign _ _) as [sb|] eqn:Esig; [|done]. injection Hsg as <-.
    unfold VerifyClaim. rewrite Hd. simpl. rewrite TrimPrefix_0x, hex_decode_encode.
    by rewrite (SigToPub_Sign _ _ _ Esig).
Qed.

(** The gate that protects current authorities from deletion attestations is
    passed by leaving out 0x: asked about "0x" + h, a current authority of the
    pool, the node refuses; asked about h it signs, and what it signs is the
    deletion of that authority. *)
Theorem delete_gate_ignores_unprefixed_address {C : EthCrypto} base58_decode audioRM pool eligible key rm auths h sig program addr :
  pool rm = Some (Some auths) -> validateRewardsManagerPubkeyShape base58_decode rm = Ok tt ->
  "0x" +:+ h ∈ auths -> h ∉ auths ->
  h <> "" -> TrimSpace h = h -> TrimSpace ("0x" +:+ h) = "0x" +:+ h -> ToLower h = h -> TrimPrefix "0x" h = h ->
  TrimSpace rm = rm -> base58_decode rm = Some program -> hex_decode h = Some addr ->
  EthSignKeccak key ("del" +:+ program +:+ addr) = Some sig ->
  GetDeleteRewardSenderAttestation base58_decode audioRM pool eligible key ("0x" +:+ h) rm = Err "address is still eligible" /\
  GetDeleteRewardSenderAttestation base58_decode audioRM pool eligible key h rm = Ok (PrivKeyToAddress key, sig) /\
  getSenderAttestation base58_decode key "del" ("0x" +:+ h) rm = Ok (PrivKeyToAddress key, sig).
Proof.
  intros Hpool Hshape Hin Hnin Hne Ht Ht0 Hl Hp Hrm Hb Hx Hs.
  assert (getSenderAttestation base58_decode key "del" h rm = Ok (PrivKeyToAddress key, sig)) as Hatt.
  { unfold getSenderAttestation. by rewrite Hp, Hb, Hx, Hs. }
  assert (ToLower ("0x" +:+ h) = "0x" +:+ h) as Hl0.
  { change ("0x" +:+ h) with (String "0"%char (String "x"%char h)). cbn [ToLower]. by rewrite Hl. }
  split_and!.
  - unfold GetDeleteRewardSenderAttestation, validated_request. rewrite Ht0, Hrm, Hshape.
    destruct (String.eqb_spec ("0x" +:+ h) "") as [He|_]; [done|]. simpl.
    unfold senderGateForRM. rewrite Hpool. unfold gate_admits, rbind. by rewrite Hl0, bool_decide_true.
  - unfold GetDeleteRewardSenderAttestation, validated_request. rewrite Ht, Hrm, Hshape.
    destruct (String.eqb_spec h "") as [He|_]; [done|]. simpl.
    unfold senderGateForRM. rewrite Hpool. unfold gate_admits, rbind. by rewrite Hl, bool_decide_false.
  - unfold getSenderAttestation in *. rewrite TrimPrefix_0x. by rewrite Hp in Hatt.
Qed.

(** ** Witnesses *)

Module ClaimExample.
(** A 20-byte address, in hex. *)
Definition addr20 : string := hex_encode (Toy.repeat_byte 20 "a"%char "").
Definition claim : RewardClaim := mkRewardClaim ("0x" +:+ addr20) 5 "v" "" "37364e80" ("0x" +:+ addr20) 0.
(** The same claim with unprefixed addresses and explicit decimals. *)
Definition claim' : RewardClaim := mkRewardClaim addr20 5 "v" "" "37364e80" addr20 8.
Definition key : @privkey Toy.crypto := "k"%char.
(** The claim authority of every base reward is the holder of [key]. *)
Definition attester : @RewardAttester Toy.crypto :=
  NewRewardAttester (C := Toy.crypto) key (MakeRewards [("0x6b", "Audius")] []).
Definition signature : string :=
  match SignClaim (C := Toy.crypto) claim key with Ok s => s | Err _ => "" end.
Definition b58 (s : string) : option string :=
  if String.eqb s "rm" then Some (Toy.repeat_byte 32 "k"%char "") else None.
End ClaimExample.

Lemma claim_signature_roundtrip_witness :
  VerifyClaim (C := Toy.crypto) ClaimExample.claim ClaimExample.signature = Ok "0x6b".
Proof.
  apply (claim_signature_roundtrip (C := Toy.crypto) (L := Toy.laws) ClaimExample.claim ClaimExample.key).
  vm_compute. reflexivity.
Defined.

Lemma compiled_claims_are_unambiguous_witness :
  combined_id ClaimExample.claim = combined_id ClaimExample.claim' /\
  scaled_amount ClaimExample.claim = scaled_amount ClaimExample.claim'.
Proof.
  destruct (compiled_claims_are_unambiguous ClaimExample.claim ClaimExample.claim'
    (match Compile ClaimExample.claim with Ok b => b | Err _ => "" end)) as (_ & H1 & H2 & _).
  - split_and!; [done|done|done|intros b Hb; vm_compute in Hb; by injection Hb as <-..].
  - split_and!; [done|done|done|intros b Hb; vm_compute in Hb; by injection Hb as <-..].
  - vm_compute. reflexivity.
  - vm_compute. reflexivity.
  - auto.
Defined.

Lemma attested_claims_are_authorized_witness :
  exists r signer, r ∈ ra_Rewards ClaimExample.attester /\ r_RewardId r = "v" /\ 0 < 5 <= r_Amount r /\
    VerifyClaim (C := Toy.crypto) ClaimExample.claim ClaimExample.signature = Ok signer.
Proof.
  destruct (attested_claims_are_authorized (C := Toy.crypto) (L := Toy.laws) ClaimExample.attester
    ("0x" +:+ ClaimExample.addr20) "v" "37364e80" ("0x" +:+ ClaimExample.addr20) ClaimExample.signature 5
    "0x6b" ClaimExample.signature) as (r & signer & H1 & H2 & H3 & H4 & _).
  - vm_compute. reflexivity.
  - lia.
  - exists r, signer. auto.
Defined.

Lemma delete_gate_ignores_unprefixed_address_witness :
  exists sig, GetDeleteRewardSenderAttestation (C := Toy.crypto) ClaimExample.b58 ""
    (fun _ => Some (Some ["0x" +:+ ClaimExample.addr20])) None ClaimExample.key ClaimExample.addr20 "rm" = Ok ("0x6b", sig).
Proof.
  eexists. eapply (delete_gate_ignores_unprefixed_address (C := Toy.crypto) ClaimExample.b58 ""
    (fun _ => Some (Some ["0x" +:+ ClaimExample.addr20])) None ClaimExample.key "rm" ["0x" +:+ ClaimExample.addr20]
    ClaimExample.addr20).
  - reflexivity.
  - vm_compute. reflexivity.
  - by left.
  - apply (bool_decide_unpack _). vm_compute. exact I.
  - discriminate.
  - vm_compute. reflexivity.
  - vm_compute. reflexivity.
  - vm_compute. reflexivity.
  - vm_compute. reflexivity.
  - reflexivity.
  - reflexivity.
  - vm_compute. reflexivity.
  - vm_compute. reflexivity.
Defined.
