(* ===== verification/Ledger.v ===== *)
(** * The ledger's transactions

    Instantiates the proposal interface with the components of this development:
    every variant of SignedTransaction and the version 2 transactions are checked by
    the definitions that model their handlers, on one committed state.  The laws of
    the interface hold whenever the database answers, so the agreement of proposers
    and validators applies to this node; the last part shows where it stops. *)

From stdpp Require Import base gmap strings list fin_maps.
From Stdlib Require Import ZArith Lia Ascii.
From S2P Require Import Prelude Upgrades AuthState AuthStores Crypto Validators AuthEnforcement AuthSim AuthSpec AuthRefine AuthAtomic AuthTheorems AuthAgreement Encoding Rendezvous Registration PoS Mempool Proposal BlockDb Rollups Distribution NodeTxs Rewards.

Open Scope string_scope.
Open Scope Z_scope.

(** ** Transactions *)

(** A signed transaction by its variant.  Signatures are kept where a handler reads
    them. *)
Inductive ledger_tx :=
| TxPlays (signature : string) (plays : list TrackPlay)
| TxManageEntity (em : ManageEntityLegacy)
| TxManageEntityMigration (me : ManageEntityLegacyMigration)
| TxAttestation (att : attestation_tx)
| TxLegacyRegistration (signature : string) (vr : ValidatorRegistrationLegacy)
| TxDeregistration (signature : string) (vd : ValidatorMisbehaviorDeregistration)
| TxSlaRollup (rollup : SlaRollup)
| TxStorageProof (signature : string) (sp : StorageProofTx)
| TxStorageProofVerification (spv : StorageProofVerification)
| TxRelease
| TxReward (msg : RewardMessage)
| TxRewardPool (msg : RewardPoolMessage)
| TxContentAttestation (ca : ContentAttestation)
| TxFileUpload (fu : FileUpload)
| TxMediorumOperation (signature : string) (op : MediorumOperation)
| TxEmpty.

Definition ledger_kind (tx : ledger_tx) : option tx_kind :=
  match tx with
  | TxPlays _ _ => Some KPlays
  | TxManageEntity _ => Some KManageEntity
  | TxManageEntityMigration _ => Some KManageEntityMigration
  | TxAttestation _ => Some KAttestation
  | TxLegacyRegistration _ _ => Some KValidatorRegistration
  | TxDeregistration _ _ => Some KValidatorDeregistration
  | TxSlaRollup _ => Some KSlaRollup
  | TxStorageProof _ _ => Some KStorageProof
  | TxStorageProofVerification _ => Some KStorageProofVerification
  | TxRelease => Some KRelease
  | TxReward _ => Some KReward
  | TxRewardPool _ => Some KRewardPool
  | TxContentAttestation _ => Some KContentAttestation
  | TxFileUpload _ => Some KFileUpload
  | TxMediorumOperation _ _ => Some KMediorumOperation
  | TxEmpty => None
  end.

(** A version 2 transaction: [None] without an envelope or without its header. *)
Definition ledger_tx_v2 (Deal P : Type) : Type := option (ddex_envelope Deal P).

Definition envelope_header {Deal P} (tx : ledger_tx_v2 Deal P) : option (string * Z) :=
  (fun env => (env_ChainId env, env_Expiration env)) <$> tx.

(** ** The node *)

(** Code outside the repository: encodings, hashing, parsers. *)
Section Externals.
Context {Deal P : Type}.
Record externals := mkExternals {
  x_unmarshal : string -> option ledger_tx;
  x_unmarshal_v2 : string -> option (ledger_tx_v2 Deal P);
  x_marshal : option ledger_tx -> option string;
  x_marshal_v2 : ledger_tx_v2 Deal P -> option string;
  x_HashStruct : TypedData -> td_struct -> option string;
  x_comet_address : string -> string;
  x_marshal_body : attestation_body -> option string;
  x_marshal_attestation : Attestation -> option string;
  x_marshal_proof : StorageProofTx -> option string;
  x_marshal_content : Z -> list string -> option string;
  x_parse_url : string -> option url_parts;
  x_json_decode : string -> option json;
  x_cpu : arch;
  x_signable_reward : RewardBody -> option string;
  x_marshal_reward : RewardMessage -> option string;
  x_unmarshal_legacy : string -> option (option legacy_action);
  x_signable_pool : RewardPoolBody -> option string;
  x_base58_decode : string -> option string;
  x_ed25519_verify : string -> string -> string -> bool;
  x_IsHexAddress : string -> bool;
  x_marshal_upload_sig : string -> option string;
  x_deal_String : Deal -> string;
  x_ParseStrict : string -> bool;
  x_TableName : string -> string;
  x_unmarshal_records : mediorum_model -> string -> bool;
  x_marshal_op : MediorumOperation -> option string;
  x_marshal_plays : list TrackPlay -> option string;
  x_marshal_misbehavior : ValidatorMisbehaviorDeregistration -> option string;
  x_TextHash : string -> string
}.
End Externals.
Arguments externals : clear implicits.

(** Configuration; the chain id and the schedule are in [nc_Registration]. *)
Record node_config := mkNodeConfig {
  nc_Environment : string;
  nc_Acdc : acdc_config;
  nc_Registration : reg_config;
  nc_AudioRewardsManager : string;
  nc_ProgrammableDistribution : bool;
  nc_SlaRollupInterval : Z
}.

Definition nc_ChainID (cfg : node_config) : string := rc_ChainID (nc_Registration cfg).
Definition nc_Upgrades (cfg : node_config) : option UpgradeSchedule := rc_Upgrades (nc_Registration cfg).

(** The committed tables validation reads. *)
Record ledger_state := mkLedgerState {
  ls_pos : pos_committed;
  ls_rewards : reward_tables;
  ls_sla : sla_db;
  ls_dist : dist_db
}.

Definition ls_validators (st : ledger_state) : list CoreValidator := pc_validators (ls_pos st).

(** The queries that fail, by component. *)
Record ledger_faults := mkLedgerFaults {
  lf_reg : reg_query -> bool;
  lf_pos : pos_query -> bool;
  lf_rewards : reward_query -> bool;
  lf_sla : sla_query -> bool;
  lf_dist : dist_query -> bool;
  lf_registered : string -> bool;
  lf_all_nodes : bool
}.

Definition all_queries_answer : ledger_faults :=
  mkLedgerFaults (fun _ => false) (fun _ => false) (fun _ => false) (fun _ => false) (fun _ => false) (fun _ => false) false.

Section Ledger.
Context {C : EthCrypto} {Deal P : Type}.
Context (x : externals Deal P) (cfg : node_config) (st : ledger_state) (fault : ledger_faults).

Definition not_my_kind : res string unit := Err "unknown tx".

(** ** Validity of each kind on the committed state *)

Definition registered_node (a : string) : option bool :=
  if lf_registered fault a then None else Some (IsRegisteredNodeEthAddress (ls_validators st) a).
Definition all_nodes : option (list CoreValidator) :=
  if lf_all_nodes fault then None else Some (ls_validators st).

Definition ledger_attestation (att : attestation_tx) (height : Z) : res string unit :=
  isValidAttestation (x_comet_address x) (x_marshal_body x) (x_marshal_attestation x) (x_parse_url x)
    (nc_Registration cfg) (lf_reg fault) (ls_validators st) att height.
Definition ledger_reward (msg : RewardMessage) (height : Z) : res reward_error unit :=
  isValidRewardTransaction (x_signable_reward x) (x_marshal_reward x) (x_unmarshal_legacy x) (x_base58_decode x)
    (nc_AudioRewardsManager cfg) (lf_rewards fault) (ls_rewards st) (Some msg) height.
Definition ledger_reward_pool (msg : RewardPoolMessage) (height : Z) : res reward_error unit :=
  isValidRewardPoolTransaction (x_signable_pool x) (x_base58_decode x) (x_ed25519_verify x) (x_IsHexAddress x)
    (nc_AudioRewardsManager cfg) (lf_rewards fault) (ls_rewards st) (Some msg) height.
Definition ledger_operation (signature : string) (op : MediorumOperation) : res string unit :=
  isValidMediorumOperationTx (x_ParseStrict x) (x_TableName x) (x_unmarshal_records x) (x_marshal_op x)
    all_nodes signature (Some op).
Definition ledger_plays (signature : string) (plays : list TrackPlay) : res tx_error unit :=
  isValidPlayTransaction (x_marshal_plays x) (x_TextHash x) registered_node signature (Some plays).
Definition ledger_content (ca : ContentAttestation) : res tx_error unit :=
  isValidContentAttestation (x_marshal_content x) registered_node (Some ca).
Definition ledger_v2 (height : Z) (tx : ledger_tx_v2 Deal P) : res string unit :=
  validateV2Transaction (x_deal_String x) (x_IsHexAddress x) (lf_dist fault) (nc_ProgrammableDistribution cfg)
    (nc_ChainID cfg) (ls_dist st) height tx.
Definition ledger_manage_entity (rules : Rules) (em : ManageEntityLegacy) : proc overlay tx_error unit :=
  validateManageEntityAuth (x_HashStruct x) (nc_Acdc cfg) (x_json_decode x) (x_cpu x) rules em.

#[export] Instance ledger_checks : TxChecks ledger_tx (ledger_tx_v2 Deal P) overlay Timestamp string := {|
  tx_kind_of := ledger_kind;
  unmarshal_signed := x_unmarshal x;
  unmarshal_v2 := x_unmarshal_v2 x;
  marshal_signed := x_marshal x;
  marshal_v2 := x_marshal_v2 x;
  v2_header := envelope_header;
  check_ManageEntity rules tx :=
    match tx with
    | TxManageEntity em => ledger_manage_entity rules em
    | _ => pfail (Rejection (TxRejected "manage entity not present"))
    end;
  check_Attestation tx height :=
    match tx with TxAttestation att => ledger_attestation att height | _ => not_my_kind end;
  check_MisbehavingNode tx misbehavior :=
    match tx with
    | TxDeregistration sig vd =>
        isValidDeregisterMisbehavingNodeTx (x_comet_address x) (lf_reg fault) (ls_validators st) sig vd misbehavior
    | _ => not_my_kind
    end;
  check_Rollup t height tx :=
    match tx with
    | TxSlaRollup r =>
        map_err (fun _ => NodeError)
          (isValidRollup (nc_SlaRollupInterval cfg) (lf_sla fault) (ls_validators st) (ls_sla st) t height r)
    | _ => Ok false
    end;
  check_StorageProof tx height enforce :=
    match tx with
    | TxStorageProof sig sp =>
        isValidStorageProofTx (x_marshal_proof x) (lf_pos fault) (ls_pos st) sig (Some sp) height enforce
    | _ => not_my_kind
    end;
  check_StorageProofVerification tx height :=
    match tx with
    | TxStorageProofVerification spv => isValidStorageProofVerificationTx (lf_pos fault) (ls_pos st) (Some spv) height
    | _ => not_my_kind
    end;
  check_Release tx := isValidReleaseTx tx;
  check_Reward tx height :=
    match tx with
    | TxReward msg => map_err (fun _ => "invalid reward tx") (ledger_reward msg height)
    | _ => not_my_kind
    end;
  check_ContentAttestation tx :=
    match tx with
    | TxContentAttestation ca => ledger_content ca
    | _ => Err (Rejection (TxRejected "content attestation not present"))
    end;
  check_FileUpload tx :=
    match tx with
    | TxFileUpload fu =>
        isValidFileUpload (x_marshal_upload_sig x) (lf_dist fault) (nc_ProgrammableDistribution cfg)
          (ls_validators st) (Some fu)
    | _ => not_my_kind
    end;
  check_RewardPool tx height :=
    match tx with
    | TxRewardPool msg => map_err (fun _ => "invalid reward pool tx") (ledger_reward_pool msg height)
    | _ => not_my_kind
    end;
  check_MediorumOperation tx :=
    match tx with TxMediorumOperation sig op => ledger_operation sig op | _ => not_my_kind end;
  check_V2 := ledger_v2;
  check_Play tx :=
    match tx with
    | TxPlays sig plays => map_err (fun _ => "play tx declined") (ledger_plays sig plays)
    | _ => not_my_kind
    end
|}.

#[export] Instance ledger_checks_laws : TxChecksLaws ledger_checks healthy_base.
Proof.
  split.
  - intros rules tx o o' r Ho E. destruct tx; simpl in E; try (by injection E as <- <-).
    by apply (validateManageEntityAuth_atomic _ _ _ _ _ _ _ _ _ Ho) in E as [? _].
  - intros rules tx o o' e Ho E. destruct tx; simpl in E; try (by injection E as <- <-).
    by apply (validateManageEntityAuth_atomic _ _ _ _ _ _ _ _ _ Ho) in E as [_ [? _]].
Qed.
(** ** What the proposer adds *)

Definition marshal_signed_tx (tx : ledger_tx) : res string string :=
  match x_marshal x (Some tx) with
  | Some b => Ok b
  | None => Err "could not marshal"
  end.

Definition createRollupTx (ts : Timestamp) (height : Z) : res string string :=
  let? rollup := createRollup (lf_sla fault) (ls_validators st) (ls_sla st) ts height in
  marshal_signed_tx (TxSlaRollup rollup).

(** createDeregisterTransaction, its last step included. *)
Definition createDeregisterTx (key : privkey) (address : string) : res string string :=
  let? tx := createDeregisterTransaction (lf_reg fault) (x_marshal_misbehavior x) key (ls_validators st) address in
  marshal_signed_tx (TxDeregistration tx.1 tx.2).

Definition ledger_own (key : privkey) : ProposerTxs Timestamp string := {|
  should_propose_rollup := shouldProposeNewRollup (nc_SlaRollupInterval cfg) (lf_sla fault) (ls_sla st);
  create_rollup_tx := createRollupTx;
  create_deregister_tx := createDeregisterTx key
|}.
End Ledger.

(** ** The proposer's own transactions are valid *)

Section Own.
Context {C : EthCrypto} `{claws : !EthCryptoLaws C} {Deal P : Type}.
Context (x : externals Deal P) (cfg : node_config) (st : ledger_state) (key : privkey).

(** proto.Unmarshal reads back what proto.Marshal wrote. *)
Definition codec_roundtrip : Prop :=
  forall tx b, x_marshal x (Some tx) = Some b -> x_unmarshal x b = Some tx.

(** The registered node with the address, if there is one, is not jailed, and its
    stored key is an ed25519 key with this address. *)
Definition removable (address : string) : Prop :=
  forall node, GetRegisteredNodeByCometAddress (ls_validators st) address = Some node ->
    cv_Jailed node = false /\
    forall pk, base64_decode (cv_CometPubKey node) = Some pk ->
      String.length pk = PubKeySize /\ x_comet_address x pk = address.

Notation validate_tx := (validateBlockTx (checks := ledger_checks x cfg st all_queries_answer)).

Lemma EthSign_nonempty k data sig : EthSign k data = Some sig -> sig <> "".
Proof using claws.
  unfold EthSign. destruct (crypto_Sign _ _) as [s|] eqn:E; simpl; [|done]. intros [= <-].
  destruct (Sign_format _ _ _ E) as [Hl _]. by destruct s.
Qed.

Lemma own_rollup_validates chainID h0 rules ts height mbs o b :
  codec_roundtrip -> 1 <= nc_SlaRollupInterval cfg -> 0 <= height < 2 ^ 63 - 1 ->
  Forall (fun row => 0 <= ro_BlockEnd row < 2 ^ 63 - 1) (sla_rollups (ls_sla st)) ->
  shouldProposeNewRollup (nc_SlaRollupInterval cfg) Rollups.no_faults (ls_sla st) height = true ->
  createRollupTx x st all_queries_answer ts height = Ok b ->
  validate_tx chainID h0 rules ts height mbs b o = (o, Ok true).
Proof using.
  intros Hc Hi Hh Hr Hs E. unfold createRollupTx, marshal_signed_tx in E.
  destruct (createRollup _ _ _ _ _) as [r|] eqn:Er; cbn in E; [|done].
  destruct (x_marshal x _) as [b'|] eqn:Em; simplify_eq. apply Hc in Em.
  unfold validateBlockTx. cbn. rewrite Em. cbn. f_equal.
  pose proof (own_rollup_is_the_valid_one _ Hi _ _ ts height r r Hr Hh Hs Er) as Hv.
  rewrite bool_decide_true in Hv by done. exact (f_equal (map_err (fun _ => NodeError)) Hv).
Qed.

Lemma own_deregistration_validates chainID h0 rules ts height mbs o a b :
  codec_roundtrip -> removable a -> a ∈ mbs ->
  createDeregisterTx x st all_queries_answer key a = Ok b ->
  validate_tx chainID h0 rules ts height mbs b o = (o, Ok true).
Proof using claws.
  intros Hc Hr Ha E. unfold createDeregisterTx, createDeregisterTransaction, marshal_signed_tx, lookup_node in E. cbn in E.
  destruct (GetRegisteredNodeByCometAddress _ a) as [node|] eqn:En; cbn in E; [|done].
  destruct (base64_decode _) as [pk|] eqn:Ek; cbn in E; [|done].
  destruct (x_marshal_misbehavior _ _) as [mb|]; cbn in E; [|done].
  destruct (EthSign key mb) as [sig|] eqn:Es; cbn in E; [|done].
  destruct (x_marshal x _) as [b'|] eqn:Em; simplify_eq. apply Hc in Em.
  destruct (Hr _ En) as [Hj Hk]. destruct (Hk _ Ek) as [Hl Hadr].
  assert (Hsig : String.eqb sig "" = false) by (apply String.eqb_neq; by eapply EthSign_nonempty).
  assert (Hpk : String.eqb pk "" = false) by (apply String.eqb_neq; intros ->; done).
  unfold validateBlockTx. cbn. rewrite Em. cbn. f_equal.
  unfold isValidDeregisterMisbehavingNodeTx, lookup_node. cbn [md_CometAddress md_PubKey].
  rewrite Hsig. cbn. rewrite En. cbn. rewrite Hj, Hpk, Hl, Hadr, String.eqb_refl. cbn.
  replace (existsb (String.eqb a) mbs) with true; [done|].
  symmetry. apply existsb_exists. exists a. split; [by apply list_elem_of_In|apply String.eqb_refl].
Qed.
End Own.

(** C4 -- A proposal the node builds is one it votes for. From the same committed
    state, ProcessProposal accepts what PrepareProposal returns: the rollup when one
    is due, the deregistrations of the validators there is evidence against, and the
    transactions selected from the mempool. The conditions: the database answers;
    protobuf messages are read back as they were written; the rollup interval is
    positive and heights are below the largest int64; every validator named by the
    evidence is either not registered, or is not jailed and is stored with a key of
    its address; and no transaction exceeds the byte budget. Evidence against a
    jailed validator breaks it ([jailed_evidence_breaks_proposal]), and so does a
    transaction dropped for its size ([dropped_tx_breaks_proposal]). *)
Theorem prepared_proposal_is_accepted {C : EthCrypto} `{claws : !EthCryptoLaws C} {Deal P}
    (x : externals Deal P) (cfg : node_config) (st : ledger_state) (key : privkey)
    currentHeight overlay0 mempl blockTime blockHeight misbehavior maxTxBytes :
  let checks := ledger_checks x cfg st all_queries_answer in
  let own := ledger_own x cfg st all_queries_answer key in
  healthy_base overlay0 -> codec_roundtrip x ->
  1 <= nc_SlaRollupInterval cfg -> 0 <= blockHeight < 2 ^ 63 - 1 ->
  Forall (fun row => 0 <= ro_BlockEnd row < 2 ^ 63 - 1) (sla_rollups (ls_sla st)) ->
  (forall a, a ∈ misbehavior -> removable x st a) ->
  (maxTxBytes <= 0 \/
   forall tx, tx ∈ proposal_txs (nc_ChainID cfg) (nc_Upgrades cfg) currentHeight overlay0 mempl
                     blockTime blockHeight misbehavior -> wire_cost tx <= maxTxBytes) ->
  ProcessProposal (nc_ChainID cfg) (nc_Upgrades cfg) currentHeight overlay0 blockTime blockHeight misbehavior
    (PrepareProposal (nc_ChainID cfg) (nc_Upgrades cfg) currentHeight overlay0 mempl
       blockTime blockHeight misbehavior maxTxBytes) = PROPOSAL_ACCEPT.
Proof.
  intros checks own Ho Hc Hi Hh Hr Hm Hfit.
  apply (valid_own_txs_are_enough (checks := checks) healthy_base); [done| |done].
  intros tx o [Hin|Hin]%elem_of_app.
  - cbn [should_propose_rollup create_rollup_tx own ledger_own] in Hin.
    destruct (shouldProposeNewRollup _ _ _ _) eqn:Es; [|by apply elem_of_nil in Hin].
    destruct (createRollupTx _ _ _ _ _) as [b|] eqn:E; [|by apply elem_of_nil in Hin].
    apply list_elem_of_singleton in Hin as ->. by eapply own_rollup_validates.
  - apply list_elem_of_In, in_flat_map in Hin as (a & Ha%list_elem_of_In & Hin).
    cbn [create_deregister_tx own ledger_own] in Hin. destruct (createDeregisterTx _ _ _ _ _) as [b|] eqn:E; [|done].
    destruct Hin as [<-|[]]. by eapply own_deregistration_validates; [..|exact E]; auto.
Qed.

(** ** A proposal, built and judged *)

Module LedgerExample.
Definition create_user : ledger_tx := TxManageEntity (ex_sign 9 "User" 9 "Create" "user").
Definition create_track : ledger_tx := TxManageEntity (ex_sign 9 "Track" 2000009 "Create" "track").

(** External code on a given encoding of transactions. *)
Definition with_codec (unmarshal : string -> option ledger_tx) (marshal : option ledger_tx -> option string) :
    externals unit unit := {|
  x_unmarshal := unmarshal;
  x_unmarshal_v2 _ := None;
  x_marshal := marshal;
  x_marshal_v2 _ := None;
  x_HashStruct := ex_hash;
  x_comet_address k := k;
  x_marshal_body _ := None;
  x_marshal_attestation _ := None;
  x_marshal_proof _ := None;
  x_marshal_content _ _ := None;
  x_parse_url _ := None;
  x_json_decode := ex_json;
  x_cpu := Amd64;
  x_signable_reward body := Some "reward";
  x_marshal_reward _ := None;
  x_unmarshal_legacy _ := None;
  x_signable_pool _ := Some "pool";
  x_base58_decode _ := Some (Toy.repeat_byte 32 "k"%char "");
  x_ed25519_verify _ _ _ := false;
  x_IsHexAddress _ := true;
  x_marshal_upload_sig _ := None;
  x_deal_String _ := "";
  x_ParseStrict _ := true;
  x_TableName n := n;
  x_unmarshal_records _ _ := true;
  x_marshal_op _ := Some "op";
  x_marshal_plays _ := Some "plays";
  x_marshal_misbehavior _ := Some "misbehavior";
  x_TextHash h := h
|}.

(** A validator, its key and address, and the evidence against it. *)
Definition node_key : string := Toy.repeat_byte 32 "v"%char "".
Definition node (jailed : bool) : CoreValidator :=
  mkCoreValidator "pk" "https://v" "0xv" node_key "1" "validator" "1" (base64_encode node_key) jailed.
Definition deregistration : ValidatorMisbehaviorDeregistration := mkMisbehaviorDeregistration node_key node_key.
Definition deregistration_sig : string := default "" (@EthSign Toy.crypto "k"%char "misbehavior").

(** The rollup that is due at height 11. *)
Definition rollup : SlaRollup := mkSlaRollup (mkTimestamp 0 0) 0 10 [mkSlaNodeReport node_key 0].

#[export] Instance ManageEntityLegacy_eq : EqDecision ManageEntityLegacy.
Proof. solve_decision. Defined.
#[export] Instance MisbehaviorDeregistration_eq : EqDecision ValidatorMisbehaviorDeregistration.
Proof. solve_decision. Defined.

Definition user_em : ManageEntityLegacy := ex_sign 9 "User" 9 "Create" "user".
Definition track_em : ManageEntityLegacy := ex_sign 9 "Track" 2000009 "Create" "track".

(** An encoding of the transactions of the example. *)
Definition x : externals unit unit :=
  with_codec
    (fun b => if String.eqb b "a new user with a long biography" then Some create_user
              else if String.eqb b "a track" then Some create_track
              else if String.eqb b "a rollup" then Some (TxSlaRollup rollup)
              else if String.eqb b "a removal" then Some (TxDeregistration deregistration_sig deregistration)
              else None)
    (fun tx => match tx with
               | Some (TxManageEntity em) =>
                   if decide (em = user_em) then Some "a new user with a long biography"
                   else if decide (em = track_em) then Some "a track" else None
               | Some (TxSlaRollup r) => if decide (r = rollup) then Some "a rollup" else None
               | Some (TxDeregistration sig vd) =>
                   if decide (sig = deregistration_sig /\ vd = deregistration) then Some "a removal" else None
               | _ => None
               end).

Lemma x_roundtrip : codec_roundtrip x.
Proof.
  intros tx b. destruct tx as [| em | | | |sig vd|r | | | | | | | | |]; try done;
    cbn [x_marshal x_unmarshal x with_codec].
  - case_decide as H1; [subst em; intros [= <-]; reflexivity|].
    case_decide as H2; [subst em; intros [= <-]; reflexivity|done].
  - case_decide as H1; [destruct H1 as [-> ->]; intros [= <-]; reflexivity|done].
  - case_decide as H1; [subst r; intros [= <-]; reflexivity|done].
Qed.

Definition schedule : option UpgradeSchedule := Some (mkUpgradeSchedule 1 1 1 0 1).
Definition cfg : node_config := mkNodeConfig "prod" ex_cfg (mkRegConfig schedule "chain" 10 1 1 1 1) "" false 10.
Definition st (jailed : bool) : ledger_state :=
  mkLedgerState (mkPosCommitted [node jailed] ∅ ∅) (mkRewardTables ∅ []) (mkSlaDb [] [] 1) (mkDistDb [] [] [] [] (fun _ => [])).

#[export] Instance checks jailed : TxChecks ledger_tx (ledger_tx_v2 unit unit) overlay Timestamp string :=
  ledger_checks (C := Toy.crypto) x cfg (st jailed) all_queries_answer.
#[export] Instance own jailed : ProposerTxs Timestamp string :=
  ledger_own (C := Toy.crypto) x cfg (st jailed) all_queries_answer "k"%char.

Definition pool : Mempool ledger_tx (ledger_tx_v2 unit unit) :=
  let add key tx m := fst (addMempoolTransaction ledger_kind key (mkMempoolTransaction 100 (Some tx) None) m) in
  add "t2" create_track (add "t1" create_user (NewMempool 10)).

Definition prepare (jailed : bool) (height : Z) (misbehavior : list string) (maxTxBytes : Z) : list string :=
  PrepareProposal (checks := checks jailed) (own := own jailed) "chain" schedule 5 (newOverlayAuthStore ex_db) pool
    (mkTimestamp 0 0) height misbehavior maxTxBytes.
Definition judge (jailed : bool) (height : Z) (misbehavior : list string) (txs : list string) : ProcessProposalStatus :=
  ProcessProposal (checks := checks jailed) "chain" schedule 5 (newOverlayAuthStore ex_db) (mkTimestamp 0 0) height
    misbehavior txs.
End LedgerExample.

(** A block with a rollup, a deregistration and two transactions of the pool. *)
Lemma prepared_proposal_is_accepted_witness :
  LedgerExample.prepare false 11 [LedgerExample.node_key] 1000
    = ["a rollup"; "a removal"; "a new user with a long biography"; "a track"] /\
  LedgerExample.judge false 11 [LedgerExample.node_key]
    (LedgerExample.prepare false 11 [LedgerExample.node_key] 1000) = PROPOSAL_ACCEPT.
Proof.
  split; [by vm_compute|].
  apply (prepared_proposal_is_accepted (C := Toy.crypto) (claws := Toy.laws) LedgerExample.x LedgerExample.cfg
    (LedgerExample.st false) "k"%char 5 (newOverlayAuthStore ex_db) LedgerExample.pool (mkTimestamp 0 0) 11
    [LedgerExample.node_key] 1000).
  - intros q. reflexivity.
  - exact LedgerExample.x_roundtrip.
  - vm_compute. discriminate.
  - lia.
  - constructor.
  - intros a ->%list_elem_of_singleton nd. vm_compute. intros [= <-]. split; [reflexivity|].
    intros pk [= <-]. split; reflexivity.
  - right. apply Forall_forall. apply (bool_decide_unpack _). vm_compute. exact I.
Defined.

(** Evidence against a validator that is jailed breaks the proposal: the proposer
    creates a deregistration for every registered node the evidence names, and the
    validators reject the block because the node is already jailed. *)
Theorem jailed_evidence_breaks_proposal :
  LedgerExample.judge true 11 [LedgerExample.node_key]
    (LedgerExample.prepare true 11 [LedgerExample.node_key] 1000) = PROPOSAL_REJECT /\
  "a removal" ∈ LedgerExample.prepare true 11 [LedgerExample.node_key] 1000.
Proof. split; [by vm_compute|]. apply (bool_decide_unpack _). by vm_compute. Qed.

Lemma cap_is_longest_fitting_prefix_witness :
  exists k, capProposalTxs ["abc"; "a transaction that is too long"; "de"; "fgh"] 10
    = take k ["abc"; "de"; "fgh"] /\ total_cost (capProposalTxs ["abc"; "a transaction that is too long"; "de"; "fgh"] 10) <= 10.
Proof.
  destruct (cap_is_longest_fitting_prefix ["abc"; "a transaction that is too long"; "de"; "fgh"] 10) as (k & H1 & H2 & _);
    [lia|]. exists k. split; [exact H1|exact H2].
Defined.

(** A transaction dropped for its size takes the proposal with it: the
    overlay the proposer validates on keeps the effects of a transaction that
    capProposalTxs then drops, so a later transaction that relies on it stays in
    the proposal and every validator rejects the block.  With a budget that fits
    both, the same proposal is accepted. *)
Theorem dropped_tx_breaks_proposal :
  LedgerExample.prepare false 6 [] 20 = ["a track"] /\
  LedgerExample.judge false 6 [] (LedgerExample.prepare false 6 [] 20) = PROPOSAL_REJECT /\
  LedgerExample.prepare false 6 [] 100 = ["a new user with a long biography"; "a track"] /\
  LedgerExample.judge false 6 [] (LedgerExample.prepare false 6 [] 100) = PROPOSAL_ACCEPT.
Proof. vm_compute. auto. Qed.
