(* ===== verification/Admission.v ===== *)
(** * Admission

    How transactions reach the mempool: CheckTx and validateV1Transaction
    (server/abci.go), and the SendTransaction and ForwardTransaction endpoints
    (server/connect.go) up to the point where the transaction is in the pool. *)

From stdpp Require Import base gmap strings list fin_maps.
From Stdlib Require Import ZArith Lia.
From S2P Require Import Prelude Upgrades AuthState AuthStores Crypto Validators AuthEnforcement AuthRefine Encoding Rendezvous Registration PoS Mempool Proposal BlockDb Blocks Rollups Distribution NodeTxs Rewards Ledger.

Open Scope string_scope.
Open Scope Z_scope.

(** ** CheckTx *)

Section CheckTx.
Context {Deal P : Type} (x : externals Deal P).

Definition validateSignedTransactionForCheckTx (msg : ledger_tx) : res string unit :=
  match msg with
  | TxEmpty => Err "transaction has no body"
  | TxManageEntityMigration _ => Err "manage entity migration transactions cannot be submitted"
  | TxLegacyRegistration _ _ => Err "legacy validator registrations cannot be submitted"
  | TxPlays signature plays => map_err (fun _ => "malformed play tx") (validatePlayTransactionShape signature (Some plays))
  | TxStorageProof _ sp =>
      let? _ := guard_err (length (spt_ProverAddresses sp) =? 0)%nat "storage proof has no prover addresses" in
      let? _ := guard_err (String.eqb (spt_Address sp) "") "storage proof has no prover address" in
      guard_err (spt_Height sp =? 0) "storage proof has no height"
  | TxStorageProofVerification spv =>
      let? _ := guard_err (spv_Height spv =? 0) "storage proof verification has no height" in
      guard_err (String.length (spv_Proof spv) =? 0)%nat "storage proof verification has no proof"
  | TxAttestation att =>
      match att_Body (tx_Attestation att) with
      | None => Err "attestation has no body"
      | Some _ => Ok tt
      end
  | TxMediorumOperation _ op =>
      validateMediorumOperationShape (x_ParseStrict x) (x_TableName x) (x_unmarshal_records x) (Some op)
  | _ => Ok tt
  end.

(** The response code. *)
Definition CheckTx (tx : string) : Z :=
  match x_unmarshal x tx with
  | None => 1
  | Some msg =>
      match validateSignedTransactionForCheckTx msg with
      | Err _ => 1
      | Ok _ => CodeTypeOK
      end
  end.
End CheckTx.

(** ** Validation at the endpoints *)

Inductive admission_error :=
| Invalid (msg : string)
| InvalidTx (e : tx_error)
| InvalidReward (e : reward_error)
(** A feature, an encoding or the node is missing. *)
| Refused (msg : string)
| PoolError (e : mempool_error)
(** The request panics on a nil transaction. *)
| NilDereference.

Record tx_request (V2 : Type) := mkTxRequest {
  req_Transaction : option ledger_tx;
  req_Transactionv2 : option V2;
  req_ChainId : string
}.
Arguments mkTxRequest {V2}.
Arguments req_Transaction {V2}.
Arguments req_Transactionv2 {V2}.
Arguments req_ChainId {V2}.

Section Admission.
Context {C : EthCrypto} {Deal P : Type}.
Context (x : externals Deal P) (cfg : node_config) (st : ledger_state) (fault : ledger_faults).
(** newProposalAuthOverlay: an empty overlay on the committed tables. *)
Context (overlay0 : overlay).

Definition validateV1Transaction (currentHeight : Z) (signedTx : ledger_tx) : res admission_error unit :=
  let next := wrap64 (currentHeight + 1) in
  let rules := RulesetAt (nc_Upgrades cfg) next in
  match signedTx with
  | TxAttestation att =>
      map_err Invalid
        (let? _ := boundAttestationSignatures (nc_Registration cfg) (tx_Attestation att) in
         if AttestationDomainEnforced rules then ledger_attestation x cfg st fault att next else Ok tt)
  | TxPlays signature plays => map_err InvalidTx (ledger_plays x st fault signature plays)
  | TxManageEntity em =>
      if AuthEnforced rules
      then map_err InvalidTx (snd (ledger_manage_entity x cfg rules em overlay0))
      else Ok tt
  | TxReward msg => map_err InvalidReward (ledger_reward x cfg st fault msg currentHeight)
  | TxRewardPool msg => map_err InvalidReward (ledger_reward_pool x cfg st fault msg currentHeight)
  | TxMediorumOperation signature op =>
      map_err Invalid
        (let? _ := validateMediorumOperationSubmissionSize (Some op) in ledger_operation x st fault signature op)
  | TxContentAttestation ca =>
      if negb (ContentAuthEnforced rules)
      then Err (Invalid "content attestations are not accepted before content auth is active")
      else map_err InvalidTx (ledger_content x st fault ca)
  | _ => Ok tt
  end.

(** ** Endpoints *)

(** The request uses programmable distribution where it is switched off. *)
Definition is_file_upload (tx : ledger_tx) : bool := match tx with TxFileUpload _ => true | _ => false end.
Definition has_ern (tx : ledger_tx_v2 Deal P) : bool :=
  match tx with
  | Some env => existsb (fun m => match m with DdexErn (Some _) => true | _ => false end) (env_Messages env)
  | None => false
  end.
Definition features_missing (req : tx_request (ledger_tx_v2 Deal P)) : bool :=
  negb (nc_ProgrammableDistribution cfg) &&
  (from_option is_file_upload false (req_Transaction req) || from_option has_ern false (req_Transactionv2 req)).

(** InjectSigner writes the recovered signer into a ManageEntity transaction. *)
Definition inject_signer (tx : ledger_tx) : res admission_error ledger_tx :=
  match tx with
  | TxManageEntity em =>
      match InjectSigner (x_HashStruct x) (nc_Acdc cfg) em with
      | Some em' => Ok (TxManageEntity em')
      | None => Err (Refused "signer not recoverable")
      end
  | _ => Ok tx
  end.

Definition encoded (r : option string) : res admission_error string :=
  match r with
  | Some b => Ok b
  | None => Err (Refused "could not marshal transaction")
  end.

(** The hash of the request's transaction and the transaction the mempool gets; a
    nil transaction encodes to nothing and is dereferenced by validateV1Transaction. *)
Definition admit_v1 (currentHeight : Z) (tx : option ledger_tx) : res admission_error (string * option ledger_tx) :=
  match tx with
  | None => Err NilDereference
  | Some tx =>
      let? tx' := inject_signer tx in
      let? txBytes := encoded (x_marshal x (Some tx')) in
      let? _ := validateV1Transaction currentHeight tx' in
      Ok (ToTxHashFromBytes txBytes, Some tx')
  end.

Definition admit_v2 (currentHeight : Z) (v2 : ledger_tx_v2 Deal P) : res admission_error string :=
  let? txBytes := encoded (x_marshal_v2 x v2) in
  let? _ := map_err Invalid (ledger_v2 x cfg st fault currentHeight v2) in
  Ok (ToTxHashFromBytes txBytes).

(** Transaction is used when it is there, Transactionv2 otherwise. *)
Definition mempool_entry (deadline : Z) (tx : option ledger_tx) (v2 : option (ledger_tx_v2 Deal P)) :
    MempoolTransaction ledger_tx (ledger_tx_v2 Deal P) :=
  match tx with
  | Some t => mkMempoolTransaction deadline (Some t) None
  | None => mkMempoolTransaction deadline None v2
  end.

Definition add_to_pool (admitted : res admission_error (string * option ledger_tx)) (deadline : Z)
    (v2 : option (ledger_tx_v2 Deal P)) : proc (Mempool ledger_tx (ledger_tx_v2 Deal P)) admission_error string :=
  fun m =>
    match admitted with
    | Err e => (m, Err e)
    | Ok (key, tx) =>
        let (m', r) := addMempoolTransaction ledger_kind key (mempool_entry deadline tx v2) m in
        (m', map_err PoolError (let? _ := r in Ok key))
    end.

(** Up to the wait for the transaction's block. *)
Definition SendTransaction (currentHeight : Z) (req : tx_request (ledger_tx_v2 Deal P)) :
    proc (Mempool ledger_tx (ledger_tx_v2 Deal P)) admission_error string :=
  add_to_pool
    (let? _ := guard_err (features_missing req) (Refused "programmable distribution is not enabled") in
     match req_Transactionv2 req with
     | Some v2 =>
         let? _ := guard_err (negb (String.eqb (nc_Environment cfg) "dev")) (Refused "tx v2 in development") in
         let? txhash := admit_v2 currentHeight v2 in
         Ok (txhash, req_Transaction req)
     | None => admit_v1 currentHeight (req_Transaction req)
     end)
    (wrap64 (currentHeight + 10)) (req_Transactionv2 req).

(** [ready] is that the local node runs, [storeHeight] the height of its blocks. *)
Definition ForwardTransaction (ready : bool) (currentHeight storeHeight : Z) (req : tx_request (ledger_tx_v2 Deal P)) :
    proc (Mempool ledger_tx (ledger_tx_v2 Deal P)) admission_error string :=
  add_to_pool
    (let? _ := map_err (fun _ => Refused "forwarded from another chain")
                 (checkForwardChainID (nc_ChainID cfg) (req_ChainId req)) in
     let? _ := guard_err (features_missing req) (Refused "programmable distribution is not enabled") in
     let? admitted :=
       match req_Transactionv2 req with
       | Some v2 =>
           let? mempoolKey := admit_v2 currentHeight v2 in
           let? _ := guard_err (negb (String.eqb (nc_Environment cfg) "dev")) (Refused "received forwarded v2 tx outside of dev") in
           Ok (mempoolKey, req_Transaction req)
       | None =>
           let? _ := match req_Transaction req with
                     | Some (TxMediorumOperation _ op) =>
                         map_err Invalid (validateMediorumOperationSubmissionSize (Some op))
                     | _ => Ok tt
                     end in
           admit_v1 currentHeight (req_Transaction req)
       end in
     let? _ := guard_err (negb ready) (Refused "local rpc not ready") in
     Ok admitted)
    (wrap64 (storeHeight + 10)) (req_Transactionv2 req).
End Admission.
