(* ===== verification/AdmissionProps.v ===== *)
(** * Properties of admission

    Node transactions are signed by registered nodes and judged regardless of
    jailing; what the endpoints submit is validated, filed under its hash and valid
    in the next block; replay-only transactions get in nowhere. *)

From stdpp Require Import base gmap strings list fin_maps.
From Stdlib Require Import ZArith Lia Ascii.
From S2P Require Import Prelude Upgrades AuthState AuthStores Crypto Validators AuthEnforcement AuthRefine AuthTheorems AuthAgreement Encoding Rendezvous Registration PoS Mempool Proposal BlockDb Blocks Rollups Distribution NodeTxs Rewards Ledger Admission.

Open Scope string_scope.
Open Scope Z_scope.

(** ** Node transactions *)

Lemma map_err_ok {E E' A} (f : E -> E') (r : res E A) a : map_err f r = Ok a <-> r = Ok a.
Proof. by destruct r; simpl; split; intros [= ->]. Qed.

Lemma existsb_elem {A} (p : A -> bool) l : existsb p l = true <-> exists a, a ∈ l /\ p a = true.
Proof. rewrite existsb_exists. setoid_rewrite <- list_elem_of_In. done. Qed.

(** Rows up to their jail flag. *)
Definition same_nodes (vs vs' : list CoreValidator) : Prop :=
  map (set_jailed false) vs = map (set_jailed false) vs'.

Lemma existsb_same_nodes (p : CoreValidator -> bool) vs vs' :
  (forall v, p v = p (set_jailed false v)) -> same_nodes vs vs' -> existsb p vs = existsb p vs'.
Proof.
  intros Hp. unfold same_nodes.
  assert (H : forall l, existsb p l = existsb p (map (set_jailed false) l))
    by (induction l as [|v l IH]; simpl; [done|by rewrite <- Hp, IH]).
  intros E. by rewrite H, E, <- H.
Qed.

Section NodeTxs.
Context {C : EthCrypto}.
Context (ParseStrict : string -> bool) (TableName : string -> string)
        (unmarshal_records : mediorum_model -> string -> bool) (marshal_op : MediorumOperation -> option string)
        (marshal_plays : list TrackPlay -> option string) (TextHash : string -> string)
        (marshal_content : Z -> list string -> option string).
Notation valid_op := (isValidMediorumOperationTx ParseStrict TableName unmarshal_records marshal_op).
Notation valid_plays := (isValidPlayTransaction marshal_plays TextHash).
Notation valid_content := (isValidContentAttestation marshal_content).

(** What a node reports is signed by it: a valid play transaction has between
    one and a thousand plays and recovers to the address of a registered node; a
    valid storage operation names a registered table and recovers to the address of
    the node whose endpoint is the operation's host. *)
Theorem node_transactions_are_signed nodes sig plays op :
  (valid_plays (fun a => Some (IsRegisteredNodeEthAddress nodes a)) sig (Some plays) = Ok tt ->
   0 < Z.of_nat (length plays) <= MaxPlaysPerTransaction /\
   exists s body pk node, hex_decode (TrimPrefix "0x" sig) = Some s /\ marshal_plays plays = Some body /\
     SigToPub (TextHash (keccak256 body)) s = Some pk /\ node ∈ nodes /\
     ToLower (cv_EthAddress node) = ToLower (PubkeyToAddress pk)) /\
  (valid_op (Some nodes) sig (Some op) = Ok tt ->
   (exists m, mediorumTableTypes TableName (mo_Table op) = Some m /\ unmarshal_records m (mo_Data op) = true) /\
   exists body pk signer node, marshal_op op = Some body /\ EthRecover sig body = Some (pk, signer) /\ node ∈ nodes /\
     host_of (cv_Endpoint node) = host_of (mo_Host op) /\ ToLower (cv_EthAddress node) = ToLower signer).
Proof.
  split.
  - unfold isValidPlayTransaction. intros ([] & Hshape & H)%rbind_ok. apply rbind_ok in H as (signer & Hs & H).
    apply guard_err_ok, negb_false_iff, existsb_elem in H as (node & Hin & Heq%String.eqb_eq).
    unfold validatePlayTransactionShape in Hshape. peel_checks Hshape. simpl in Hs. unfold recoverPlaysSigner in Hs.
    destruct (hex_decode _) as [s|]; [|done]. apply rbind_ok in Hs as (_ & _ & Hs).
    destruct (marshal_plays plays) as [body|]; [|done]. destruct (SigToPub _ _) as [pk|] eqn:Ek; [|done].
    injection Hs as <-. split; [|by exists s, body, pk, node].
    apply Nat.eqb_neq in Hc. apply Z.ltb_ge in Hc0. lia.
  - unfold isValidMediorumOperationTx. intros ([] & Hshape & H)%rbind_ok. peel_checks H.
    destruct (marshal_op op) as [body|]; [|done]. destruct (EthRecover sig body) as [[pk signer]|] eqn:Er; [|done].
    apply guard_err_ok, negb_false_iff, existsb_elem in H as (node & Hin & [Hh%String.eqb_eq He%EqualFold_spec]%andb_true_iff).
    split; [|by exists body, pk, signer, node].
    simpl in Hshape. unfold ValidateOperation in Hshape. peel_checks Hshape. unfold ValidatePayload in Hshape.
    peel_checks Hshape. destruct (mediorumTableTypes _ _) as [m|]; [|done]. peel_checks Hshape.
    exists m. split; [done|]. by apply guard_err_ok, negb_false_iff in Hshape.
Qed.

(** Jailing does not change verdicts: on validator tables that differ only in
    the jail flags, play transactions, storage operations and content attestations
    get the same verdict with the same reason, so replaying a block judges them as
    its first execution did. *)
Theorem verdicts_ignore_jailing vs vs' sig plays op ca :
  same_nodes vs vs' ->
  let registered vs a := Some (IsRegisteredNodeEthAddress vs a) in
  valid_plays (registered vs) sig plays = valid_plays (registered vs') sig plays /\
  valid_op (Some vs) sig op = valid_op (Some vs') sig op /\
  valid_content (registered vs) ca = valid_content (registered vs') ca.
Proof.
  intros Hs registered.
  assert (Hreg : forall a, registered vs a = registered vs' a)
    by (intros a; unfold registered, IsRegisteredNodeEthAddress; f_equal; by apply existsb_same_nodes).
  clearbody registered. split_and!.
  - unfold isValidPlayTransaction. destruct (validatePlayTransactionShape _ _); [|done].
    destruct (recoverPlaysSigner _ _ _ _); [|done]. simpl. by rewrite Hreg.
  - unfold isValidMediorumOperationTx. destruct (validateMediorumOperationShape _ _ _ _); [|done].
    destruct (String.eqb sig ""); [done|]. simpl. destruct op as [op|]; [|done].
    destruct (marshal_op op); [|done]. destruct (EthRecover _ _) as [[? ?]|]; [|done].
    by rewrite (existsb_same_nodes _ vs vs').
  - unfold isValidContentAttestation. destruct ca; [|done]. by rewrite Hreg.
Qed.
End NodeTxs.

(** ** Admission and blocks *)

Section Admission.
Context {C : EthCrypto} {Deal P : Type}.
Context (x : externals Deal P) (cfg : node_config) (st : ledger_state) (fault : ledger_faults) (overlay0 : overlay).
Notation validate_v1 := (validateV1Transaction x cfg st fault overlay0).
Notation pool := (Mempool ledger_tx (ledger_tx_v2 Deal P)).

(** What a validator says to [bytes] as the first transaction of a block. *)
Definition block_verdict (cached height : Z) (t : Timestamp) (misbehavior : list string) (bytes : string) :
    res tx_error bool :=
  snd (validateBlockTx (checks := ledger_checks x cfg st fault) (nc_ChainID cfg) cached
         (RulesetAt (nc_Upgrades cfg) height) t height misbehavior bytes overlay0).

(** The kinds admission validates in full for the next block. *)
Definition fully_validated (rules : Rules) (tx : ledger_tx) : bool :=
  match tx with
  | TxPlays _ _ | TxManageEntity _ | TxReward _ | TxRewardPool _ | TxMediorumOperation _ _ | TxContentAttestation _ => true
  | TxAttestation _ => AttestationDomainEnforced rules
  | _ => false
  end.

(** The block after which a reward or pool message is void. *)
Definition tx_deadline (tx : ledger_tx) : option Z :=
  match tx with
  | TxReward msg => rb_Deadline <$> rw_Body msg
  | TxRewardPool msg => pb_Deadline <$> pm_Body msg
  | _ => None
  end.

Lemma deadlined_signer_next h deadline bytes sig signer :
  recoverDeadlinedSigner h deadline bytes sig = Ok signer ->
  recoverDeadlinedSigner (h + 1) deadline bytes sig =
    (if decide (deadline = h) then Err ErrRewardExpired else Ok signer).
Proof using.
  unfold recoverDeadlinedSigner. intros (_ & Hd%guard_err_ok%Z.ltb_ge & H)%rbind_ok.
  destruct (decide (deadline = h)) as [->|Hne].
  - by destruct (Z.ltb_spec h (h + 1)); [|lia].
  - destruct (Z.ltb_spec deadline (h + 1)); [lia|]. done.
Qed.

Lemma next_reward_verdict h msg :
  ledger_reward x cfg st fault msg h = Ok tt ->
  (if decide (tx_deadline (TxReward msg) = Some h) then exists e, ledger_reward x cfg st fault msg (h + 1) = Err e
   else ledger_reward x cfg st fault msg (h + 1) = Ok tt).
Proof using.
  unfold ledger_reward, isValidRewardTransaction. simpl. destruct (rw_Body msg) as [body|]; simpl.
  2: { by destruct (tryParseLegacyReward _ _ _) as [[]|]. }
  intros (signer & Hs & H)%rbind_ok. rewrite (deadlined_signer_next _ _ _ _ _ Hs).
  destruct (decide (rb_Deadline body = h)) as [->|Hne].
  - rewrite decide_True by done. by eexists.
  - rewrite decide_False by congruence. exact H.
Qed.

Lemma next_pool_verdict h msg :
  ledger_reward_pool x cfg st fault msg h = Ok tt ->
  (if decide (tx_deadline (TxRewardPool msg) = Some h) then exists e, ledger_reward_pool x cfg st fault msg (h + 1) = Err e
   else ledger_reward_pool x cfg st fault msg (h + 1) = Ok tt).
Proof using.
  unfold ledger_reward_pool, isValidRewardPoolTransaction. simpl. destruct msg as [[body|] sig own]; simpl; [|done].
  intros (signer & Hs & H)%rbind_ok. rewrite (deadlined_signer_next _ _ _ _ _ Hs).
  destruct (decide (pb_Deadline body = h)) as [->|Hne].
  - rewrite decide_True by done. by eexists.
  - rewrite decide_False by congruence. exact H.
Qed.

(** C37 -- Admission predicts the next block for the kinds it validates in full: plays,
    entity management, rewards, reward pools, storage operations, content attestations,
    and attestations once their domain is enforced at the next height. (Rollups,
    uploads, releases, storage proofs and deregistrations, and attestations before that,
    are admitted without this validation, and nothing is said of them.) A transaction of
    one of these kinds that is admitted at height [h] is accepted by the proposer's
    policy, and by the block check at height [h + 1] as the first transaction of the
    block on the same state with the same store answers, except a reward or pool message
    whose deadline is [h], which admission accepts although no block can include it. *)
Theorem admission_predicts_next_block h tx bytes cached t misbehavior :
  0 <= h < 2 ^ 63 - 1 -> x_unmarshal x bytes = Some tx ->
  fully_validated (RulesetAt (nc_Upgrades cfg) (h + 1)) tx = true ->
  validate_v1 h tx = Ok tt ->
  validateProposerPolicy (checks := ledger_checks x cfg st fault) (Some tx) = Ok tt /\
  block_verdict cached (h + 1) t misbehavior bytes = Ok (negb (bool_decide (tx_deadline tx = Some h))).
Proof using.
  intros Hh Hb Hfull Hv. unfold block_verdict, validateBlockTx, validateProposerPolicy.
  cbn [unmarshal_signed ledger_checks tx_kind_of]. rewrite Hb. unfold validateV1Transaction in Hv.
  rewrite wrap64_id in Hv by (unfold is_int64, int64_min, int64_max; lia).
  destruct tx; cbn [fully_validated] in Hfull; try done; cbn [ledger_kind].
  - apply map_err_ok in Hv. unfold check_Play. simpl. by rewrite Hv.
  - simpl. destruct (AuthEnforced _); [|done]. apply map_err_ok in Hv.
    by destruct (ledger_manage_entity _ _ _ _ _) as [o' r]; simpl in Hv; subst r.
  - apply map_err_ok in Hv. apply rbind_ok in Hv as (_ & _ & Hv). rewrite Hfull in Hv. simpl. by rewrite Hv.
  - apply map_err_ok, next_reward_verdict in Hv. split; [done|]. simpl. simpl in Hv.
    rewrite bool_decide_decide. destruct (decide _) as [Hd|Hd]; [destruct Hv as [e Hv]|]; by rewrite Hv.
  - apply map_err_ok, next_pool_verdict in Hv. split; [done|]. simpl. simpl in Hv.
    rewrite bool_decide_decide. destruct (decide _) as [Hd|Hd]; [destruct Hv as [e Hv]|]; by rewrite Hv.
  - destruct (ContentAuthEnforced _); [|done]. apply map_err_ok in Hv. simpl. by rewrite Hv.
  - apply map_err_ok, rbind_ok in Hv as (_ & _ & Hv). simpl. by rewrite Hv.
Qed.
(** ** Endpoints *)

(** Transactions that only a replay of old blocks may apply. *)
Definition replay_only (tx : ledger_tx) : bool :=
  match tx with TxManageEntityMigration _ | TxLegacyRegistration _ _ => true | _ => false end.

(** What an endpoint may do to the pool: nothing, or append one validated
    transaction under the hash of its encoding. *)
Definition pooled (h deadline : Z) (m m' : pool) (r : res admission_error string) : Prop :=
  match r with
  | Err _ => m' = m
  | Ok key =>
      exists tx bytes, x_marshal x (Some tx) = Some bytes /\ key = ToTxHashFromBytes bytes /\
        validate_v1 h tx = Ok tt /\ replay_only tx = false /\
        (is_Some (txMap m !! key) /\ m' = m \/
         exists e, e_value e = mkMempoolTransaction deadline (Some tx) None /\
           deque m' = app (deque m) [e] /\ txMap m' = <[key := e]> (txMap m))
  end.

Lemma mempool_admissible_tx tx : mempoolAdmissible ledger_kind (Some tx) = Ok tt -> replay_only tx = false.
Proof using. by destruct tx. Qed.

(** The pool only gets what an admission step let through. *)
Lemma add_to_pool_pooled h deadline v2 admitted m m' r :
  (forall key tx, admitted = Ok (key, tx) -> exists t bytes, tx = Some t /\ x_marshal x (Some t) = Some bytes /\
     key = ToTxHashFromBytes bytes /\ validate_v1 h t = Ok tt) ->
  add_to_pool admitted deadline v2 m = (m', r) -> pooled h deadline m m' r.
Proof using.
  intros Hadm. unfold add_to_pool. destruct admitted as [[key tx]|e]; [|by intros [= <- <-]].
  destruct (Hadm key tx eq_refl) as (t & bytes & -> & Hb & Hk & Hv). unfold addMempoolTransaction. cbn [Tx mempool_entry].
  destruct (mempoolAdmissible ledger_kind (Some t)) as [[]|msg] eqn:Ea; simpl; [|by intros [= <- <-]].
  apply mempool_admissible_tx in Ea. destruct (_ <=? _); [by intros [= <- <-]|].
  destruct (txMap m !! key) as [e|] eqn:Em; intros [= <- <-]; simpl; exists t, bytes; (do 4 (split; [done|])).
  - left. split; [by rewrite Em; eexists|done].
  - right. by exists (mkElement (next_id m) (mkMempoolTransaction deadline (Some t) None)).
Qed.

Lemma admit_v1_ok h req key tx :
  admit_v1 x cfg st fault overlay0 h req = Ok (key, tx) ->
  exists t bytes, tx = Some t /\ x_marshal x (Some t) = Some bytes /\ key = ToTxHashFromBytes bytes /\
    validate_v1 h t = Ok tt.
Proof using.
  unfold admit_v1. destruct req as [t0|]; [|done]. intros (t & _ & H)%rbind_ok.
  apply rbind_ok in H as (bytes & Hb & H). apply rbind_ok in H as ([] & Hv & H). injection H as <- <-.
  exists t, bytes. split_and!; [done| |done|done]. unfold encoded in Hb. by destruct (x_marshal x (Some t)); simplify_eq.
Qed.

(** C31 -- Outside the development environment, an endpoint leaves the pool alone when
    it fails, and otherwise appends at most one transaction: one that passed
    validateV1Transaction, that may be submitted, under the hash of the encoding
    blocks will carry, which is the key Commit removes it by. *)
Theorem pooled_txs_are_validated ready h storeHeight req m :
  nc_Environment cfg <> "dev" ->
  (let (m', r) := SendTransaction x cfg st fault overlay0 h req m in pooled h (wrap64 (h + 10)) m m' r) /\
  (let (m', r) := ForwardTransaction x cfg st fault overlay0 ready h storeHeight req m in
   pooled h (wrap64 (storeHeight + 10)) m m' r).
Proof using.
  intros Hdev%String.eqb_neq.
  split; [destruct (SendTransaction _ _ _ _ _ _ _ _) as [m' r] eqn:E | destruct (ForwardTransaction _ _ _ _ _ _ _ _ _ _) as [m' r] eqn:E];
    (eapply add_to_pool_pooled; [|exact E]); intros key tx H; rewrite Hdev in H; simpl in H.
  - apply rbind_ok in H as (_ & _ & H). destruct (req_Transactionv2 req); [done|]. by apply admit_v1_ok in H.
  - apply rbind_ok in H as (_ & _ & H). apply rbind_ok in H as (_ & _ & H). apply rbind_ok in H as (a & Ha & H).
    apply rbind_ok in H as (_ & _ & H). injection H as ->. destruct (req_Transactionv2 req).
    { by apply rbind_ok in Ha as (? & _ & Ha). }
    apply rbind_ok in Ha as (_ & _ & Ha). by apply admit_v1_ok in Ha.
Qed.

Lemma add_to_pool_replay admitted deadline v2 tx m :
  (forall key t, admitted = Ok (key, t) -> t = Some tx) -> replay_only tx = true ->
  exists e, add_to_pool (P := P) (Deal := Deal) admitted deadline v2 m = (m, Err e).
Proof using.
  intros Hadm Htx. unfold add_to_pool. destruct admitted as [[key t]|e]; [|by eexists].
  rewrite (Hadm key t eq_refl). destruct tx; try done; simpl; by eexists.
Qed.

Lemma admit_v1_replay h tx key t :
  replay_only tx = true -> admit_v1 x cfg st fault overlay0 h (Some tx) = Ok (key, t) -> t = Some tx.
Proof using.
  intros Htx. unfold admit_v1. destruct tx; try done; simpl;
    intros (? & _ & H)%rbind_ok; by injection H as _ <-.
Qed.

(** Migration transactions and legacy registrations enter nowhere, in any
    environment: CheckTx refuses them, both endpoints leave the pool alone, and once
    authorization is enforced a block that carries one is rejected. *)
Theorem replay_only_txs_are_refused tx bytes ready h storeHeight req m cached height t misbehavior :
  replay_only tx = true -> x_unmarshal x bytes = Some tx -> req_Transaction req = Some tx ->
  AuthEnforced (RulesetAt (nc_Upgrades cfg) height) = true ->
  CheckTx x bytes = 1 /\
  (exists e, SendTransaction x cfg st fault overlay0 h req m = (m, Err e)) /\
  (exists e, ForwardTransaction x cfg st fault overlay0 ready h storeHeight req m = (m, Err e)) /\
  block_verdict cached height t misbehavior bytes = Ok false.
Proof using.
  intros Htx Hb Hreq Hauth. split_and!.
  - unfold CheckTx. rewrite Hb. by destruct tx.
  - apply (add_to_pool_replay _ _ _ tx); [|done]. intros key t' (_ & _ & H)%rbind_ok.
    destruct (req_Transactionv2 req); [|rewrite Hreq in H; by apply admit_v1_replay in H].
    apply rbind_ok in H as (_ & _ & H). apply rbind_ok in H as (? & _ & H). injection H as _ <-. done.
  - apply (add_to_pool_replay _ _ _ tx); [|done]. intros key t' (_ & _ & H)%rbind_ok.
    apply rbind_ok in H as (_ & _ & H). apply rbind_ok in H as (a & Ha & H). apply rbind_ok in H as (_ & _ & H).
    injection H as ->. destruct (req_Transactionv2 req).
    + apply rbind_ok in Ha as (? & _ & Ha). apply rbind_ok in Ha as (_ & _ & Ha). injection Ha as _ <-. done.
    + apply rbind_ok in Ha as (_ & _ & Ha). rewrite Hreq in Ha. by apply admit_v1_replay in Ha.
  - unfold block_verdict, validateBlockTx. cbn [unmarshal_signed ledger_checks tx_kind_of]. rewrite Hb.
    destruct tx; try done; cbn [ledger_kind]; by rewrite ?Hauth.
Qed.
End Admission.

(** ** Examples *)

Module AdmissionExample.
Definition signature : string := hex_encode (Toy.repeat_byte 64 "k"%char (String zero "")).
Definition node (jailed : bool) : CoreValidator := mkCoreValidator "" "https://n/" "0x6B" "A" "" "" "" "" jailed.
Definition plays : ledger_tx := TxPlays signature [mkTrackPlay "1" "2" 0 "sig" "" "" ""].
Definition operation : MediorumOperation := mkMediorumOperation "01JY" "https://N" "update" "Upload" "[]".
(** A rotation of a pool that expires at block 5. *)
Definition rotation : ledger_tx :=
  TxRewardPool (mkRewardPoolMessage (Some (mkRewardPoolBody 5 (Some (RewardPoolBody_SetAuthorities "rm" ["0x6b"])))) signature "").
Definition migration : ledger_tx := TxManageEntityMigration (mkManageEntityLegacyMigration 1 "Track" 2 "Create" "{}" "").

Definition x : externals unit unit :=
  LedgerExample.with_codec
    (fun b => if String.eqb b "plays" then Some plays else if String.eqb b "rotation" then Some rotation
              else if String.eqb b "migration" then Some migration else None)
    (fun tx => match tx with
               | Some (TxPlays _ _) => Some "plays"
               | Some (TxRewardPool _) => Some "rotation"
               | _ => Some ""
               end).
Definition st : ledger_state :=
  mkLedgerState (mkPosCommitted [node true] ∅ ∅) (mkRewardTables {["rm" := ["0x6b"]]} []) (mkSlaDb [] [] 1)
    (mkDistDb [] [] [] [] (fun _ => [])).
Definition overlay0 : overlay := newOverlayAuthStore ex_db.
Definition request (tx : ledger_tx) : tx_request (ledger_tx_v2 unit unit) := mkTxRequest (Some tx) None "chain".
Definition submit (h : Z) (tx : ledger_tx) : res admission_error unit :=
  validateV1Transaction (C := Toy.crypto) x LedgerExample.cfg st all_queries_answer overlay0 h tx.
Definition judge (h : Z) (bytes : string) : res tx_error bool :=
  block_verdict (C := Toy.crypto) x LedgerExample.cfg st all_queries_answer overlay0 5 h (mkTimestamp 0 0) [] bytes.
Definition send := SendTransaction (C := Toy.crypto) x LedgerExample.cfg st all_queries_answer overlay0 5.
End AdmissionExample.

Import AdmissionExample.

Example expiring_rotation_is_admitted : submit 5 rotation = Ok tt /\ judge 6 "rotation" = Ok false.
Proof. vm_compute. auto. Qed.

Lemma admission_predicts_next_block_witness : judge 6 "plays" = Ok true /\ judge 6 "rotation" = Ok false.
Proof.
  split.
  - apply (admission_predicts_next_block (C := Toy.crypto) x LedgerExample.cfg st all_queries_answer overlay0
      5 plays "plays" 5 (mkTimestamp 0 0) []); [lia|reflexivity..|by vm_compute].
  - apply (admission_predicts_next_block (C := Toy.crypto) x LedgerExample.cfg st all_queries_answer overlay0
      5 rotation "rotation" 5 (mkTimestamp 0 0) []); [lia|reflexivity..|by vm_compute].
Defined.

Lemma node_transactions_are_signed_witness :
  exists s body pk n, hex_decode (TrimPrefix "0x" signature) = Some s /\ Some "plays" = Some body /\
    SigToPub (EthCrypto := Toy.crypto) body s = Some pk /\ n ∈ [node true] /\
    ToLower (cv_EthAddress n) = ToLower (PubkeyToAddress (EthCrypto := Toy.crypto) pk).
Proof.
  apply (node_transactions_are_signed (C := Toy.crypto) (fun _ => true) (fun n => n) (fun _ _ => true) (fun _ => Some "op")
    (fun _ => Some "plays") (fun h => h) [node true] signature [mkTrackPlay "1" "2" 0 "sig" "" "" ""] operation).
  vm_compute. reflexivity.
Defined.

Lemma verdicts_ignore_jailing_witness :
  isValidMediorumOperationTx (C := Toy.crypto) (fun _ => true) (fun n => n) (fun _ _ => true) (fun _ => Some "op")
    (Some [node true]) signature (Some operation) = Ok tt.
Proof.
  destruct (verdicts_ignore_jailing (C := Toy.crypto) (fun _ => true) (fun n => n) (fun _ _ => true) (fun _ => Some "op")
    (fun _ => None) (fun h => h) (fun _ _ => None) [node true] [node false] signature None (Some operation) None)
    as (_ & -> & _); [reflexivity|vm_compute; reflexivity].
Defined.

Lemma pooled_txs_are_validated_witness :
  exists m', send (request plays) (NewMempool 10) = (m', Ok (ToTxHashFromBytes (C := Toy.crypto) "plays")) /\
    submit 5 plays = Ok tt /\ length (deque m') = 1%nat.
Proof.
  destruct (pooled_txs_are_validated (C := Toy.crypto) x LedgerExample.cfg st all_queries_answer overlay0
    true 5 5 (request plays) (NewMempool 10)) as [H _]; [discriminate|].
  eexists. split; [vm_compute; reflexivity|]. split; [|reflexivity].
  destruct (SendTransaction _ _ _ _ _ _ _ _) as [m' r] eqn:E.
  assert (r = Ok (ToTxHashFromBytes (C := Toy.crypto) "plays")) as ->
    by (vm_compute in E; injection E as _ <-; reflexivity).
  destruct H as (tx & bytes & _ & _ & Hv & _). by vm_compute.
Defined.

Lemma replay_only_txs_are_refused_witness :
  CheckTx x "migration" = 1 /\ (exists e, send (request migration) (NewMempool 10) = (NewMempool 10, Err e)) /\
  judge 6 "migration" = Ok false.
Proof.
  destruct (replay_only_txs_are_refused (C := Toy.crypto) x LedgerExample.cfg st all_queries_answer overlay0
    migration "migration" true 5 5 (request migration) (NewMempool 10) 5 6 (mkTimestamp 0 0) []) as (H1 & H2 & _ & H3);
    [reflexivity..|]. split_and!; [exact H1|exact H2|exact H3].
Defined.
