(* ===== verification/Crudr.v ===== *)
(** * The replicated operation log of the storage service

    Models pkg/mediorum/crudr: an operation changes rows of a registered table and is
    recorded in the table ops under its ulid, so that every operation takes effect at
    most once however often it is delivered, and carries the state of its submission
    to the chain. *)

From stdpp Require Import base gmap strings list sorting fin_maps.
From Stdlib Require Import ZArith Lia Ascii.
From S2P Require Import Prelude NodeTxs.

Open Scope string_scope.
Open Scope Z_scope.

(** ** Operations *)

Definition ActionCreate : string := "create".
Definition ActionUpdate : string := "update".
Definition ActionDelete : string := "delete".

Definition CoreTxStatusPending : string := "pending".
Definition CoreTxStatusConfirmed : string := "confirmed".
Definition CoreTxStatusLocal : string := "local".
Definition CoreTxStatusError : string := "error".
Definition CoreTxStatusRejected : string := "rejected".

(** Data is the JSON document; times are opaque numbers. *)
Record Op := mkOp {
  op_ULID : string;
  op_Host : string;
  op_Action : string;
  op_Table : string;
  op_Data : string;
  op_Transient : bool;
  op_CoreTxHash : string;
  op_CoreTxStatus : string;
  op_CoreTxError : string;
  op_CoreAttemptedAt : option Z;
  op_CoreConfirmedAt : option Z
}.

(** The columns of ops that follow the submission to the chain. *)
Definition set_core (hash status err : string) (attempted confirmed : option Z) (op : Op) : Op :=
  mkOp (op_ULID op) (op_Host op) (op_Action op) (op_Table op) (op_Data op) (op_Transient op)
    hash status err attempted confirmed.

(** ** The database *)

(** A row: its primary key and the rest. *)
Notation row := (string * string)%type.
Notation table := (gmap string string).

Record crud_db := mkCrudDb {
  db_ops : gmap string Op;
  db_tables : gmap string table;
  db_cursors : gmap string string
}.

Definition set_ops (o : gmap string Op) (db : crud_db) : crud_db := mkCrudDb o (db_tables db) (db_cursors db).
Definition set_table (name : string) (t : table) (db : crud_db) : crud_db :=
  mkCrudDb (db_ops db) (<[name := t]> (db_tables db)) (db_cursors db).
Definition set_cursor (host last : string) (db : crud_db) : crud_db :=
  mkCrudDb (db_ops db) (db_tables db) (<[host := last]> (db_cursors db)).
Definition table_of (name : string) (db : crud_db) : table := default ∅ (db_tables db !! name).

(** What gorm reports for a statement on records: the rows and how many it changed, an
    error before anything is sent, or an error of the database, after which the
    transaction can only be rolled back. *)
Inductive gorm_result :=
| GormOk (t : table) (rowsAffected : Z)
| GormRefused (e : string)
| GormFailed (e : string).

(** gorm's Create with ON CONFLICT DO NOTHING, Create with UpdateAll, and Delete. *)
Class Gorm := {
  create_ignore : list row -> table -> gorm_result;
  create_update : list row -> table -> gorm_result;
  delete_rows : list row -> table -> gorm_result
}.

Inductive crud_query := QInsertOp (ulid : string) | QUpdateOp (ulid : string) | QPending | QGetCursor | QSaveCursor | QCommit (ulid : string).

(** The error values the code compares. *)
Inductive crud_error := ErrDuplicateOp | CrudErr (e : string).

Record Crudr (M : Type) := mkCrudr {
  cr_host : string;
  cr_typeMap : gmap string M
}.
Arguments mkCrudr {M}.
Arguments cr_host {M}.
Arguments cr_typeMap {M}.

(** A row of an upload, as the retry filter reads it. *)
Record upload_row := mkUploadRow {
  ur_Status : string;
  ur_ErrorCount : Z;
  ur_Result320 : string
}.

(** encoding/json on the data of an operation: [unmarshal m] into a slice of the model
    [m], [upload_rows] into the rows the retry filter looks at. *)
Class CrudJson (M : Type) := {
  unmarshal : M -> string -> option (list row);
  upload_rows : string -> option (list upload_row)
}.

Section Crudr.
Context {M : Type} {G : Gorm} {J : CrudJson M}.
Context (fault : crud_query -> bool).
Implicit Types (c : Crudr M) (op : Op) (db : crud_db).

(** New, with the models RegisterModels adds. *)
Definition New (selfHost : string) (models : list (string * M)) : Crudr M :=
  mkCrudr (RemoveTrailingSlash (ToLower selfHost)) (foldl (fun m e => <[e.1 := e.2]> m) ∅ models).

(** [j] is what json.Marshal returns; it is never empty. *)
Definition jsonArrayMarshal (j : string) : string :=
  match j with
  | String "[" _ => j
  | _ => "[" +:+ j +:+ "]"
  end.

(** ulid.Make is the argument [ulid]; the only option is WithTransient. *)
Definition newOp c (ulid action tableName j : string) (transient : bool) : Op :=
  mkOp ulid (cr_host c) action tableName (jsonArrayMarshal j) transient ""
    (if transient then CoreTxStatusLocal else CoreTxStatusPending) "" None None.

Definition KnownType c op : bool := bool_decide (is_Some (cr_typeMap c !! op_Table op)).

Definition recordsForOp c op : res crud_error (list row) :=
  if negb (existsb (String.eqb (op_Action op)) [ActionCreate; ActionUpdate; ActionDelete]) then Err (CrudErr "unknown action")
  else match cr_typeMap c !! op_Table op with
       | None => Err (CrudErr "no type registered")
       | Some elemType =>
           match unmarshal elemType (op_Data op) with
           | None => Err (CrudErr "invalid crud data")
           | Some records => Ok records
           end
       end.

Definition ValidateOp c op : res crud_error unit := let? _ := recordsForOp c op in Ok tt.

Definition legacy_retry_row (r : upload_row) : bool :=
  (String.eqb (ur_Status r) "busy" || String.eqb (ur_Status r) "error") && (5 <? ur_ErrorCount r) && String.eqb (ur_Result320 r) "".

Definition isLegacyTransientUploadRetryOp op : bool :=
  if negb (String.eqb (op_Table op) "uploads") || negb (String.eqb (op_Action op) ActionUpdate) then false
  else match upload_rows (op_Data op) with
       | None | Some [] => false
       | Some rows => forallb legacy_retry_row rows
       end.

Definition shouldPersistOp c op : bool :=
  if op_Transient op then false
  else if String.eqb (op_Host op) (cr_host c) then true
  else negb (isLegacyTransientUploadRetryOp op).

(** The insert of the operation, at the start of the transaction. *)
Definition persist_op c op db : res crud_error crud_db :=
  if shouldPersistOp c op then
    if fault (QInsertOp (op_ULID op)) then Err (CrudErr "insert op")
    else match db_ops db !! op_ULID op with
         | Some _ => Err ErrDuplicateOp
         | None => Ok (set_ops (<[op_ULID op := op]> (db_ops db)) db)
         end
  else Ok db.

(** The statement on the records: a create that affects no row returns nil whatever its
    error, and then a transaction the database has aborted fails to commit. *)
Definition change_records op (records : list row) db : res crud_error crud_db :=
  let t := table_of (op_Table op) db in
  let finish r := match r with
                  | GormOk t' _ => Ok (set_table (op_Table op) t' db)
                  | GormRefused e | GormFailed e => Err (CrudErr e)
                  end in
  if String.eqb (op_Action op) ActionCreate then
    match create_ignore records t with
    | GormOk t' n => if n =? 0 then Ok db else Ok (set_table (op_Table op) t' db)
    | GormRefused _ => Ok db
    | GormFailed e => Err (CrudErr e)
    end
  else if String.eqb (op_Action op) ActionUpdate then finish (create_update records t)
  else finish (delete_rows records t).

Definition apply_tx c op records db : res crud_error crud_db :=
  let? db1 := persist_op c op db in
  let? db2 := change_records op records db1 in
  if fault (QCommit (op_ULID op)) then Err (CrudErr "commit") else Ok db2.

Definition updateDuplicateOpCoreState op : proc crud_db crud_error unit :=
  fun db =>
    if String.eqb (op_CoreTxHash op) "" && String.eqb (op_CoreTxStatus op) "" && String.eqb (op_CoreTxError op) ""
       && negb (bool_decide (is_Some (op_CoreAttemptedAt op))) && negb (bool_decide (is_Some (op_CoreConfirmedAt op)))
    then (db, Ok tt)
    else if fault (QUpdateOp (op_ULID op)) then (db, Err (CrudErr "update op"))
    else
      let upd r := set_core
        (if String.eqb (op_CoreTxHash op) "" then op_CoreTxHash r else op_CoreTxHash op)
        (if String.eqb (op_CoreTxStatus op) "" then op_CoreTxStatus r else op_CoreTxStatus op)
        (if String.eqb (op_CoreTxStatus op) "" && String.eqb (op_CoreTxError op) "" then op_CoreTxError r else op_CoreTxError op)
        (match op_CoreAttemptedAt op with Some t => Some t | None => op_CoreAttemptedAt r end)
        (match op_CoreConfirmedAt op with Some t => Some t | None => op_CoreConfirmedAt r end) r in
      (set_ops (alter upd (op_ULID op) (db_ops db)) db, Ok tt).

(** The result tells whether the callbacks are called. *)
Definition ApplyOp c op : proc crud_db crud_error bool :=
  fun db =>
    match recordsForOp c op with
    | Err e => (db, Err e)
    | Ok records =>
        match apply_tx c op records db with
        | Ok db' => (db', Ok true)
        | Err ErrDuplicateOp =>
            match updateDuplicateOpCoreState op db with
            | (db', Ok _) => (db', Ok false)
            | (db', Err e) => (db', Err e)
            end
        | Err e => (db, Err e)
        end
    end.

(** Create, Update, Patch and Delete, by their action. *)
Definition doOp c (ulid action tableName j : string) (transient : bool) : proc crud_db crud_error bool :=
  ApplyOp c (newOp c ulid action tableName j transient).

(** ** Submission states *)

Definition ulid_le (a b : Op) : Prop := String.le (op_ULID a) (op_ULID b).
#[export] Instance ulid_le_dec : RelDecision ulid_le.
Proof. intros a b. unfold ulid_le. apply _. Defined.

Definition is_pending c op : bool :=
  String.eqb (op_Host op) (cr_host c) &&
  (String.eqb (op_CoreTxStatus op) CoreTxStatusPending || String.eqb (op_CoreTxStatus op) CoreTxStatusError).

Definition PendingCoreOps c (limit : Z) db : res crud_error (list Op) :=
  if fault QPending then Err (CrudErr "pending ops")
  else
    let limit := if limit <=? 0 then 100 else limit in
    Ok (take (Z.to_nat limit) (merge_sort ulid_le (List.filter (is_pending c) (map snd (map_to_list (db_ops db)))))).

Definition mark (ulid : string) (f : Op -> Op) : proc crud_db crud_error unit :=
  fun db => if fault (QUpdateOp ulid) then (db, Err (CrudErr "update op"))
            else (set_ops (alter f ulid (db_ops db)) db, Ok tt).

Definition MarkCoreAttempted op (txHash : string) (attemptedAt : Z) : proc crud_db crud_error unit :=
  mark (op_ULID op) (fun r => set_core txHash CoreTxStatusPending "" (Some attemptedAt) (op_CoreConfirmedAt r) r).

Definition MarkCoreConfirmed op (txHash : string) (confirmedAt : Z) : proc crud_db crud_error unit :=
  mark (op_ULID op) (fun r => set_core txHash CoreTxStatusConfirmed "" (Some confirmedAt) (Some confirmedAt) r).

Definition MarkCoreError op (txHash : string) (attemptedAt : Z) (err : string) : proc crud_db crud_error unit :=
  mark (op_ULID op) (fun r => set_core txHash CoreTxStatusError err (Some attemptedAt) (op_CoreConfirmedAt r) r).

Definition MarkCoreRejected op (rejectedAt : Z) (err : string) : proc crud_db crud_error unit :=
  mark (op_ULID op) (fun r => set_core "" CoreTxStatusRejected err (Some rejectedAt) (op_CoreConfirmedAt r) r).
End Crudr.
