(* ===== verification/CoreOps.v ===== *)
(** * Operations of the storage service on the chain

    Models pkg/mediorum/server/core_ops.go: a node submits the operations of its own
    log as signed transactions, and applies the operations of every block, in order,
    from a cursor it stores. *)

From stdpp Require Import base gmap strings list sorting fin_maps.
From Stdlib Require Import ZArith Lia Ascii.
From S2P Require Import Prelude AuthState Crypto Encoding Validators NodeTxs Crudr.

Open Scope string_scope.
Open Scope Z_scope.

Definition coreOpSubmitBatchSize : Z := 100.
(** A minute, in the unit of the clock. *)
Definition coreOpSubmitRetryBackoff : Z := 60 * 10 ^ 9.
Definition coreOpSyncCursorHost : string := "core_mediorum_blocks".
Definition coreOpSyncInitialLookback : Z := 1000.

Definition mediorumOperationFromOp (op : Op) : MediorumOperation :=
  mkMediorumOperation (op_ULID op) (op_Host op) (op_Action op) (op_Table op) (op_Data op).

Definition opFromMediorumOperation (msg : MediorumOperation) : Op :=
  mkOp (mo_Ulid msg) (mo_Host msg) (mo_Action msg) (mo_Table msg) (mo_Data msg) false "" CoreTxStatusConfirmed "" None None.

(** What a node sees of the chain at some moment: its status, blocks with the hash and
    the operation of each transaction ([None] for the other kinds), the transactions
    it finds, and the answer to a submission. *)
Record core_client := mkCoreClient {
  co_ready : bool;
  co_height : option Z;
  co_block : Z -> option (Z * list (string * option MediorumOperation));
  co_committed : string -> bool;
  co_send : string -> MediorumOperation -> option string
}.

Section CoreOps.
Context {M : Type} {G : Gorm} {J : CrudJson M}.
Context (fault : crud_query -> bool).
(** As in NodeTxs: ulid.ParseStrict, gorm's TableName, json.Unmarshal. *)
Context (ParseStrict : string -> bool) (TableName : string -> string)
        (unmarshal_records : mediorum_model -> string -> bool).
Implicit Types (c : Crudr M) (op : Op) (db : crud_db).
Notation validate msg :=
  (ValidateOperation ParseStrict TableName unmarshal_records (mo_Ulid msg) (mo_Host msg) (mo_Action msg) (mo_Table msg) (mo_Data msg)).

(** ** Applying committed operations *)

(** [now] is the clock. *)
Definition committed_op (msg : MediorumOperation) (txHash : string) (now : Z) : Op :=
  set_core txHash CoreTxStatusConfirmed "" None (Some now) (opFromMediorumOperation msg).

Definition ApplyMediorumOperation c (now : Z) (msg : option MediorumOperation) (txHash : string) : proc crud_db crud_error unit :=
  fun db =>
    match msg with
    | None => (db, Err (CrudErr "mediorum operation is nil"))
    | Some msg =>
        match validate msg with
        | Err e => (db, Err (CrudErr e))
        | Ok _ =>
            match ApplyOp fault c (committed_op msg txHash now) db with
            | (db', Ok _) => (db', Ok tt)
            | (db', Err e) => (db', Err e)
            end
        end
    end.

Definition applyCommittedCoreMediorumOperation c (now : Z) (txHash : string) (msg : MediorumOperation) : proc crud_db crud_error unit :=
  match validate msg with
  | Err _ => pret tt
  | Ok _ => ApplyMediorumOperation c now (Some msg) txHash
  end.

Definition setCoreOpSyncHeight (height : Z) : proc crud_db crud_error unit :=
  fun db => if fault QSaveCursor then (db, Err (CrudErr "save cursor"))
            else (set_cursor coreOpSyncCursorHost (FormatInt height) db, Ok tt).

Definition getCoreOpSyncHeight (currentHeight : Z) : proc crud_db crud_error Z :=
  fun db =>
    if fault QGetCursor then (db, Err (CrudErr "get cursor"))
    else match db_cursors db !! coreOpSyncCursorHost with
         | Some last => match ParseInt last with
                        | Some height => (db, Ok height)
                        | None => (db, Err (CrudErr "parse cursor"))
                        end
         | None =>
             let start := Z.max 0 (wrap64 (currentHeight - coreOpSyncInitialLookback)) in
             match setCoreOpSyncHeight start db with
             | (db', Ok _) => (db', Ok start)
             | (db', Err e) => (db', Err e)
             end
         end.

(** The transactions of a block. *)
Definition apply_block c (now : Z) (txs : list (string * option MediorumOperation)) : proc crud_db crud_error unit :=
  for_each (fun tx => match tx.2 with
                      | None => pret tt
                      | Some msg => applyCommittedCoreMediorumOperation c now tx.1 msg
                      end) txs.

(** The loop from height [h], [n] blocks; a block of negative height ends the pass. *)
Fixpoint sync_blocks c (core : core_client) (now : Z) (h : Z) (n : nat) : proc crud_db crud_error unit :=
  match n with
  | O => pret tt
  | S n' =>
      match co_block core h with
      | None => pfail (CrudErr "get block")
      | Some (height, txs) =>
          if height <? 0 then pret tt
          else apply_block c now txs ;;! setCoreOpSyncHeight h ;;! sync_blocks c core now (h + 1) n'
      end
  end.

Definition syncCoreMediorumOps c (core : core_client) (now : Z) : proc crud_db crud_error unit :=
  if negb (co_ready core) then pret tt
  else match co_height core with
       | None => pfail (CrudErr "get status")
       | Some currentHeight =>
           if currentHeight <=? 0 then pret tt
           else
             let! lastHeight := getCoreOpSyncHeight currentHeight in
             let h := wrap64 (lastHeight + 1) in
             sync_blocks c core now h (Z.to_nat (currentHeight - h + 1))
       end.

(** ** Submitting operations

    The moments of one submission are one [now]. *)

Section Submit.
Context {C : EthCrypto}.
(** proto.Marshal of an operation and of the signed transaction, and comet's hash. *)
Context (marshal_op : MediorumOperation -> option string) (marshal_tx : string -> MediorumOperation -> option string)
        (ToTxHashFromBytes : string -> string).

(** The signature, the operation and the hash of the transaction. *)
Definition signedMediorumOperation op (privateKey : privkey) : res string (string * MediorumOperation * string) :=
  let msg := mediorumOperationFromOp op in
  match marshal_op msg with
  | None => Err "marshal mediorum operation"
  | Some bodyBytes =>
      match EthSign privateKey bodyBytes with
      | None => Err "sign mediorum operation"
      | Some sig =>
          match marshal_tx sig msg with
          | None => Err "marshal signed mediorum operation"
          | Some txBytes => Ok (sig, msg, ToTxHashFromBytes txBytes)
          end
      end
  end.

(** The transaction it sends, if any, is the second component. *)
Definition submitCoreOp (privateKey : privkey) (core : core_client) (now : Z) op db :
    crud_db * option (string * MediorumOperation) :=
  match ValidateCorePayloadSize (op_Data op) with
  | Err e => (fst (MarkCoreRejected fault op now e db), None)
  | Ok _ =>
      match signedMediorumOperation op privateKey with
      | Err e => (fst (MarkCoreError fault op "" now e db), None)
      | Ok (sig, msg, txHash) =>
          if co_committed core txHash then (fst (MarkCoreConfirmed fault op txHash now db), None)
          else match MarkCoreAttempted fault op txHash now db with
               | (db', Err _) => (db', None)
               | (db', Ok _) =>
                   match co_send core sig msg with
                   | Some e => (fst (MarkCoreError fault op txHash now e db'), Some (sig, msg))
                   | None => (fst (MarkCoreConfirmed fault op txHash now db'), Some (sig, msg))
                   end
               end
      end
  end.

Definition backing_off (now : Z) op : bool :=
  match op_CoreAttemptedAt op with
  | Some t => now - t <? coreOpSubmitRetryBackoff
  | None => false
  end.

(** The transactions sent, in order. *)
Fixpoint submit_all (privateKey : privkey) (core : core_client) (now : Z) (ops : list Op) db :
    crud_db * list (string * MediorumOperation) :=
  match ops with
  | [] => (db, [])
  | op :: ops' =>
      if backing_off now op then submit_all privateKey core now ops' db
      else
        let (db1, sent) := submitCoreOp privateKey core now op db in
        let (db2, rest) := submit_all privateKey core now ops' db1 in
        (db2, (option_list sent ++ rest)%list)
  end.

Definition submitPendingCoreOps c (privateKey : privkey) (core : core_client) (now : Z) db :
    crud_db * res crud_error (list (string * MediorumOperation)) :=
  if negb (co_ready core) then (db, Ok [])
  else match PendingCoreOps fault c coreOpSubmitBatchSize db with
       | Err e => (db, Err e)
       | Ok ops => let (db', sent) := submit_all privateKey core now ops db in (db', Ok sent)
       end.
End Submit.
End CoreOps.
