(* ===== verification/CoreOpsProps.v ===== *)
(** * Properties of the operation log

    Synchronizing from the chain, however often it is interrupted and resumed, applies
    each operation once and in chain order; what a node submits is what the chain
    accepts; operations that stop the synchronization, and operations of the node
    itself that are applied out of order. *)

From stdpp Require Import base gmap strings list sorting fin_maps.
From Stdlib Require Import ZArith Lia Ascii.
From S2P Require Import Prelude AuthState Crypto Encoding Validators NodeTxs Crudr CoreOps.

Open Scope string_scope.
Open Scope Z_scope.

(** ** The log as a replay

    The state the log determines: the ulids it has seen and the tables. *)

Definition view (db : crud_db) : gset string * gmap string table := (dom (db_ops db), db_tables db).

Section Replay.
Context {M : Type} {G : Gorm} {J : CrudJson M}.
Context (c : Crudr M).

(** One operation: nothing if its ulid was seen, its effect on its table otherwise;
    [None] when it cannot be applied. *)
Definition replay_op (v : gset string * gmap string table) (msg : MediorumOperation) : option (gset string * gmap string table) :=
  if decide (mo_Ulid msg ∈ v.1) then Some v
  else
    let op := opFromMediorumOperation msg in
    match recordsForOp c op with
    | Err _ => None
    | Ok records =>
        match change_records op records (mkCrudDb ∅ v.2 ∅) with
        | Ok db => Some ({[mo_Ulid msg]} ∪ v.1, db_tables db)
        | Err _ => None
        end
    end.

Definition replay (l : list MediorumOperation) (v : gset string * gmap string table) : option (gset string * gmap string table) :=
  foldl (fun v msg => v ≫= fun v => replay_op v msg) (Some v) l.

Lemma replay_none l : foldl (fun v msg => v ≫= fun v => replay_op v msg) None l = None.
Proof using Type. by induction l. Qed.

Lemma replay_cons m l v : replay (m :: l) v = replay_op v m ≫= replay l.
Proof using Type. unfold replay. cbn. destruct (replay_op v m); [done|]. apply replay_none. Qed.

Lemma replay_app l1 l2 v : replay (l1 ++ l2) v = replay l1 v ≫= replay l2.
Proof using Type.
  unfold replay. rewrite foldl_app. destruct (foldl _ (Some v) l1); [done|]. apply replay_none.
Qed.

Lemma replay_op_seen v m v' : replay_op v m = Some v' -> mo_Ulid m ∈ v'.1 /\ v.1 ⊆ v'.1.
Proof using Type.
  unfold replay_op. destruct (decide _); [by intros [= <-]|]. destruct (recordsForOp _ _); [|done].
  destruct (change_records _ _ _); [|done]. intros [= <-]. cbn. set_solver.
Qed.

Lemma replay_seen l : forall v v', replay l v = Some v' -> v.1 ⊆ v'.1 /\ forall m, m ∈ l -> mo_Ulid m ∈ v'.1.
Proof using Type.
  induction l as [|m l IH]; intros v v'; [intros [= <-]; split; [done|]; by intros m ?%not_elem_of_nil|].
  rewrite replay_cons. destruct (replay_op v m) as [v1|] eqn:E; [|done]. intros H.
  apply replay_op_seen in E as [E1 E2]. destruct (IH v1 v' H) as [H1 H2]. split; [set_solver|].
  intros m' [->|?]%elem_of_cons; [set_solver|by apply H2].
Qed.

Lemma change_records_view op records db :
  match change_records op records db, change_records op records (mkCrudDb ∅ (db_tables db) ∅) with
  | Ok db1, Ok db2 => db_tables db1 = db_tables db2 /\ db_ops db1 = db_ops db /\ db_cursors db1 = db_cursors db
  | Err _, Err _ => True
  | _, _ => False
  end.
Proof using Type.
  unfold change_records. change (table_of (op_Table op) (mkCrudDb ∅ (db_tables db) ∅)) with (table_of (op_Table op) db).
  destruct (String.eqb _ _); [|destruct (String.eqb _ _)].
  - destruct (create_ignore _ _); [destruct (_ =? 0)|..]; done.
  - by destruct (create_update _ _).
  - by destruct (delete_rows _ _).
Qed.

Lemma change_records_not_duplicate op records db : change_records op records db <> Err ErrDuplicateOp.
Proof using Type.
  unfold change_records. destruct (String.eqb _ _); [|destruct (String.eqb _ _)].
  - destruct (create_ignore _ _); [destruct (_ =? 0)|..]; done.
  - by destruct (create_update _ _).
  - by destruct (delete_rows _ _).
Qed.

Section Pass.
Context (ParseStrict : string -> bool) (TableName : string -> string)
        (unmarshal_records : mediorum_model -> string -> bool).
Context (fault : crud_query -> bool).
Notation validate msg :=
  (ValidateOperation ParseStrict TableName unmarshal_records (mo_Ulid msg) (mo_Host msg) (mo_Action msg) (mo_Table msg) (mo_Data msg)).

(** The valid operations of a block's transactions. *)
Definition valid_ops (txs : list (string * option MediorumOperation)) : list MediorumOperation :=
  omap (fun tx => match tx.2 with
                  | Some msg => match validate msg with Ok _ => Some msg | Err _ => None end
                  | None => None
                  end) txs.

(** Only the fields of the message matter for the effect. *)
Lemma change_records_committed msg h now records db :
  change_records (committed_op msg h now) records db = change_records (opFromMediorumOperation msg) records db.
Proof using Type. done. Qed.

Lemma apply_valid_view now h msg db db' r :
  validate msg = Ok tt -> shouldPersistOp c (opFromMediorumOperation msg) = true ->
  applyCommittedCoreMediorumOperation fault ParseStrict TableName unmarshal_records c now h msg db = (db', r) ->
  db_cursors db' = db_cursors db /\
  match r with
  | Ok _ => replay_op (view db) msg = Some (view db')
  | Err _ => view db' = view db
  end.
Proof.
  intros Hv Hp. unfold applyCommittedCoreMediorumOperation, ApplyMediorumOperation. rewrite Hv. unfold ApplyOp.
  unfold replay_op. change (recordsForOp c (committed_op msg h now)) with (recordsForOp c (opFromMediorumOperation msg)).
  destruct (recordsForOp c _) as [records|e]; [|by intros [= <- <-]].
  unfold apply_tx, persist_op. change (shouldPersistOp c (committed_op msg h now)) with (shouldPersistOp c (opFromMediorumOperation msg)).
  rewrite Hp. change (op_ULID (committed_op msg h now)) with (mo_Ulid msg).
  destruct (fault (QInsertOp _)); [by intros [= <- <-]|].
  destruct (db_ops db !! mo_Ulid msg) as [o|] eqn:Eo.
  - cbn [rbind]. unfold updateDuplicateOpCoreState. cbn. rewrite andb_false_r. cbn.
    destruct (fault (QUpdateOp _)); intros [= <- <-]; [done|]. split; [done|].
    rewrite decide_True by (cbn; apply elem_of_dom; by eexists). unfold view, set_ops. cbn. by rewrite dom_alter_L.
  - cbn [rbind]. rewrite change_records_committed.
    pose proof (change_records_view (opFromMediorumOperation msg) records
      (set_ops (<[mo_Ulid msg := committed_op msg h now]> (db_ops db)) db)) as Hc.
    rewrite decide_False by (cbn; apply not_elem_of_dom; done). cbn [view snd]. unfold set_ops in *. cbn [db_tables] in Hc.
    destruct (change_records (opFromMediorumOperation msg) records
      (mkCrudDb (<[mo_Ulid msg := committed_op msg h now]> (db_ops db)) (db_tables db) (db_cursors db))) as [db1|e] eqn:Ech;
    destruct (change_records (opFromMediorumOperation msg) records (mkCrudDb ∅ (db_tables db) ∅)) as [db2|e2]; try done.
    + cbn [rbind]. destruct Hc as (H1 & H2 & H3). destruct (fault (QCommit _)); intros [= <- <-]; [done|]. split; [done|].
      unfold view. rewrite H2. cbn [db_ops]. by rewrite dom_insert_L, H1.
    + cbn [rbind]. destruct e; [by apply change_records_not_duplicate in Ech|]. by intros [= <- <-].
Qed.
End Pass.
End Replay.

(** ** Synchronization *)

Section Sync.
Context {M : Type} {G : Gorm} {J : CrudJson M}.
Context (ParseStrict : string -> bool) (TableName : string -> string)
        (unmarshal_records : mediorum_model -> string -> bool).
Context (c : Crudr M) (chain : Z -> list (string * option MediorumOperation)).
Notation block_ops h := (valid_ops ParseStrict TableName unmarshal_records (chain h)).
Notation sync := (fun fault => syncCoreMediorumOps fault ParseStrict TableName unmarshal_records c).

(** The valid operations of the blocks after [start] up to [h]. *)
Definition chain_ops (start h : Z) : list MediorumOperation := flat_map (fun h => block_ops h) (seqZ (start + 1) (h - start)).

(** A moment of the chain: the blocks that are there are the chain's. *)
Definition sees_chain (core : core_client) : Prop :=
  forall h height txs, co_block core h = Some (height, txs) -> 0 <= height -> txs = chain h.

(** The node keeps every operation of the chain in its log. *)
Definition keeps_ops : Prop := forall h m, m ∈ block_ops h -> shouldPersistOp c (opFromMediorumOperation m) = true.

Definition at_cursor (cur : Z) (db : crud_db) : Prop := db_cursors db !! coreOpSyncCursorHost = Some (FormatInt cur).

(** The chain is applied up to [cur], and [k] operations of the next block, which is
    not above [top]. *)
Definition progress (start top : Z) (v0 : gset string * gmap string table) (cur : Z) (k : nat) (db : crud_db) : Prop :=
  start <= cur <= top /\ (k <> O -> cur < top) /\ at_cursor cur db /\
  replay c (chain_ops start cur ++ take k (block_ops (cur + 1))) v0 = Some (view db).

Hypothesis keeps : keeps_ops.

Lemma chain_ops_succ start cur : start <= cur -> chain_ops start (cur + 1) = (chain_ops start cur ++ block_ops (cur + 1))%list.
Proof.
  intros H. unfold chain_ops. replace (cur + 1 - start) with ((cur - start) + 1) by lia.
  rewrite seqZ_app, flat_map_app by lia. f_equal. replace (start + 1 + (cur - start)) with (cur + 1) by lia.
  rewrite seqZ_cons, seqZ_nil by lia. cbn [flat_map]. by rewrite app_nil_r.
Qed.

Section OnePass.
Context (fault : crud_query -> bool) (now : Z).
Notation apply_txs := (apply_block fault ParseStrict TableName unmarshal_records c now).

Lemma apply_block_progress (l0 b : list MediorumOperation) v0 : forall rest vd k db db' r,
  (forall m, m ∈ b -> shouldPersistOp c (opFromMediorumOperation m) = true) ->
  b = (vd ++ valid_ops ParseStrict TableName unmarshal_records rest)%list -> (length vd <= k)%nat ->
  replay c (l0 ++ take k b) v0 = Some (view db) -> apply_txs rest db = (db', r) ->
  db_cursors db' = db_cursors db /\ exists k', replay c (l0 ++ take k' b) v0 = Some (view db') /\
    (r = Ok tt -> (length b <= k')%nat).
Proof.
  induction rest as [|[h [m|]] rest IH]; intros vd k db db' r Hkeep Hb Hk Hr; cbn [apply_block for_each].
  { intros [= <- <-]. split; [done|]. exists k. split; [done|]. intros _. rewrite Hb, length_app. cbn. lia. }
  2: { unfold pbind, pret. intros H. eapply IH; [done|exact Hb|done..]. }
  cbn [valid_ops omap list_omap snd] in Hb.
  destruct (ValidateOperation _ _ _ _ _ _ _ _) as [[]|e] eqn:Ev.
  2: { unfold pbind, applyCommittedCoreMediorumOperation at 1. cbn [snd]. rewrite Ev. cbn. intros H.
       eapply IH; [done|exact Hb|done..]. }
  unfold pbind. cbn [snd fst]. destruct (applyCommittedCoreMediorumOperation _ _ _ _ _ _ _ _ _) as [db1 r1] eqn:E1.
  assert (Hmb : m ∈ b) by (rewrite Hb; set_solver).
  destruct (apply_valid_view c _ _ _ fault now h m db db1 r1 Ev (Hkeep m Hmb) E1) as [Hc1 Hv1].
  destruct r1 as [[]|e]; [|intros [= <- <-]; split; [done|]; exists k; split; [by rewrite Hv1|done]].
  assert (Hb' : b = ((vd ++ [m]) ++ valid_ops ParseStrict TableName unmarshal_records rest)%list) by (rewrite Hb, <- app_assoc; done).
  assert (Hlk : b !! length vd = Some m) by (rewrite Hb; by apply list_lookup_middle).
  intros Hrest. destruct (decide (length vd < k)%nat) as [Hlt|Hge].
  - assert (Hin : m ∈ take k b) by (apply (list_elem_of_lookup_2 _ (length vd)); by rewrite lookup_take_lt).
    assert (Hseen : mo_Ulid m ∈ (view db).1).
    { apply replay_seen in Hr as [_ Hr]. apply Hr. set_solver. }
    unfold replay_op in Hv1. rewrite decide_True in Hv1 by done. rewrite Hv1 in Hr.
    destruct (IH (vd ++ [m])%list k db1 db' r Hkeep Hb') as [Hc2 Hk2]; [rewrite length_app; cbn; lia|done..|].
    split; [congruence|done].
  - assert (k = length vd) as -> by lia.
    destruct (IH (vd ++ [m])%list (S (length vd)) db1 db' r Hkeep Hb') as [Hc2 Hk2]; [rewrite length_app; cbn; lia| |done|].
    + rewrite (take_S_r _ _ m Hlk), app_assoc, replay_app, Hr. cbn [mbind option_bind].
      rewrite replay_cons, Hv1. done.
    + split; [congruence|done].
Qed.

Lemma set_cursor_progress start top v0 cur db db' r :
  start <= cur -> cur < top ->
  replay c (chain_ops start (cur + 1)) v0 = Some (view db) -> setCoreOpSyncHeight fault (cur + 1) db = (db', r) ->
  r = Ok tt -> progress start top v0 (cur + 1) O db'.
Proof using Type.
  intros H1 H2 Hr. unfold setCoreOpSyncHeight. destruct (fault _); intros [= <- <-]; [done|]. intros _.
  split_and!; [lia..|done| |].
  - unfold at_cursor. cbn. by rewrite lookup_insert_eq.
  - by rewrite take_0, app_nil_r.
Qed.

(** A pass over blocks makes progress, and one without error reaches the last of them. *)
Lemma sync_blocks_progress core start top v0 : forall n cur k db db' r,
  sees_chain core -> cur + Z.of_nat n <= top -> progress start top v0 cur k db ->
  sync_blocks fault ParseStrict TableName unmarshal_records c core now (cur + 1) n db = (db', r) ->
  exists cur' k', cur <= cur' /\ progress start top v0 cur' k' db' /\
    (r = Ok tt -> (forall h height txs, co_block core h = Some (height, txs) -> 0 <= height) -> cur + Z.of_nat n <= cur').
Proof using keeps.
  induction n as [|n IH]; intros cur k db db' r Hcore Htop Hp; cbn [sync_blocks].
  { intros [= <- <-]. exists cur, k. split_and!; [lia|done|]. intros. lia. }
  destruct (co_block core (cur + 1)) as [[height txs]|] eqn:Eb.
  2: { intros [= <- <-]. exists cur, k. by split_and!; [lia|..]. }
  destruct (Z.ltb_spec height 0).
  { intros [= <- <-]. exists cur, k. split_and!; [lia|done|]. intros _ Hn. specialize (Hn _ _ _ Eb). lia. }
  rewrite (Hcore _ _ _ Eb ltac:(lia)). destruct Hp as (Hb & Hk & Hcur & Hr). unfold pbind.
  destruct (apply_txs (chain (cur + 1)) db) as [db1 r1] eqn:E1.
  destruct (apply_block_progress (chain_ops start cur) (block_ops (cur + 1)) v0 (chain (cur + 1)) [] k db db1 r1)
    as (Hc1 & k1 & Hr1 & Hk1); [apply keeps|done|cbn; lia|done..|].
  assert (Hp1 : progress start top v0 cur k1 db1).
  { split_and!; [lia..| |done]. unfold at_cursor. by rewrite Hc1. }
  destruct r1 as [[]|e]; [|intros [= <- <-]; exists cur, k1; by split_and!; [lia|..]].
  specialize (Hk1 eq_refl). rewrite take_ge, <- chain_ops_succ in Hr1 by lia.
  destruct (setCoreOpSyncHeight fault (cur + 1) db1) as [db2 r2] eqn:E2.
  destruct r2 as [[]|e].
  - pose proof (set_cursor_progress start top v0 cur db1 db2 (Ok tt) ltac:(lia) ltac:(lia) Hr1 E2 eq_refl) as Hp2.
    intros H3. destruct (IH (cur + 1) O db2 db' r Hcore ltac:(lia) Hp2 H3) as (cur' & k' & Hle & Hp3 & Hok).
    exists cur', k'. split_and!; [lia|done|]. intros Hr' Hn. specialize (Hok Hr' Hn). lia.
  - unfold setCoreOpSyncHeight in E2. destruct (fault _); [|done]. injection E2 as <- <-.
    intros [= <- <-]. exists cur, k1. by split_and!; [lia|..].
Qed.

Lemma pass_progress core start top v0 cur k db db' r :
  0 <= start -> top < int64_max -> sees_chain core -> (forall h, co_height core = Some h -> h <= top) ->
  progress start top v0 cur k db -> sync fault core now db = (db', r) ->
  exists cur' k', cur <= cur' /\ progress start top v0 cur' k' db' /\
    (r = Ok tt -> co_ready core = true -> (forall h height txs, co_block core h = Some (height, txs) -> 0 <= height) ->
     forall h, co_height core = Some h -> 0 < h -> h <= cur').
Proof using keeps.
  intros Hs Ht Hcore Hh Hp. unfold syncCoreMediorumOps. destruct (co_ready core); cbn [negb].
  2: { intros [= <- <-]. exists cur, k. by split_and!; [lia|..]. }
  destruct (co_height core) as [h|] eqn:Eh; [|intros [= <- <-]; exists cur, k; by split_and!; [lia|..]].
  destruct (Z.leb_spec h 0).
  { intros [= <- <-]. exists cur, k. split_and!; [lia|done|]. intros _ _ _ h' [= <-]. lia. }
  unfold pbind, getCoreOpSyncHeight. destruct (fault QGetCursor).
  { intros [= <- <-]. exists cur, k. by split_and!; [lia|..]. }
  pose proof Hp as (Hb & _ & Hcur & _). unfold at_cursor in Hcur. rewrite Hcur, ParseInt_FormatInt.
  2: { unfold int64_max in Ht. lia. }
  rewrite wrap64_id by (unfold is_int64, int64_min, int64_max in *; lia).
  specialize (Hh h eq_refl). intros Hsync.
  destruct (sync_blocks_progress core start top v0 (Z.to_nat (h - (cur + 1) + 1)) cur k db db' r Hcore) as (cur' & k' & Hle & Hp' & Hok);
    [lia|done|done|].
  exists cur', k'. split_and!; [done|done|]. intros Hr _ Hn h' [= <-] _. specialize (Hok Hr Hn). lia.
Qed.
End OnePass.

(** A pass with its faults, its view of the chain and its time. *)
Notation pass := ((crud_query -> bool) * core_client * Z)%type.
Definition run_passes (passes : list pass) (db : crud_db) : crud_db :=
  foldl (fun db p => fst (sync p.1.1 p.1.2 p.2 db)) db passes.

Lemma passes_progress start top v0 passes : forall cur k db,
  0 <= start -> top < int64_max ->
  Forall (fun p : pass => sees_chain p.1.2 /\ forall h, co_height p.1.2 = Some h -> h <= top) passes ->
  progress start top v0 cur k db -> exists cur' k', progress start top v0 cur' k' (run_passes passes db).
Proof using keeps.
  induction passes as [|[[f core] now] passes IH]; intros cur k db Hs Ht Hall Hp; [by exists cur, k|].
  apply Forall_cons in Hall as [[Hc Hh] Hall]. cbn.
  destruct (sync f core now db) as [db1 r1] eqn:E.
  destruct (pass_progress f now core start top v0 cur k db db1 r1 Hs Ht Hc Hh Hp E) as (cur1 & k1 & _ & Hp1 & _).
  rewrite E. exact (IH cur1 k1 db1 Hs Ht Hall Hp1).
Qed.
End Sync.

(** C6 -- Synchronization replays the chain in order, however often it is interrupted,
    when the node logs every valid operation of the chain ([keeps_ops]: none of them is
    another node's legacy retry of an upload, which shouldPersistOp keeps out of the log).
    A node with a stored cursor runs any sequence of passes; in each, any statements may
    fail and any part of the chain may be visible, as long as the blocks that are visible
    are the chain's. Afterwards the log and the tables are the replay of the valid
    operations of the blocks up to the stored height, followed by some first operations
    of the next block, whose block was interrupted. A further pass that succeeds at the
    greatest height seen, on blocks of non-negative height, leaves the cursor there and
    exactly the replay up to it. *)
Theorem sync_replays_chain {M} {G : Gorm} {J : CrudJson M} ParseStrict TableName unmarshal_records (c : Crudr M) chain start top passes db0 :
  keeps_ops ParseStrict TableName unmarshal_records c chain -> 0 <= start <= top -> top < int64_max -> at_cursor start db0 ->
  Forall (fun p => sees_chain chain p.1.2 /\ forall h, co_height p.1.2 = Some h -> h <= top) passes ->
  let db := run_passes ParseStrict TableName unmarshal_records c passes db0 in
  let ops := chain_ops ParseStrict TableName unmarshal_records chain start in
  (exists cur k, start <= cur <= top /\ at_cursor cur db /\
     replay c (ops cur ++ take k (valid_ops ParseStrict TableName unmarshal_records (chain (cur + 1)))) (view db0) = Some (view db)) /\
  forall fault core now db', sees_chain chain core -> co_ready core = true -> co_height core = Some top -> 0 < top ->
    (forall h height txs, co_block core h = Some (height, txs) -> 0 <= height) ->
    syncCoreMediorumOps fault ParseStrict TableName unmarshal_records c core now db = (db', Ok tt) ->
    at_cursor top db' /\ replay c (ops top) (view db0) = Some (view db').
Proof.
  intros Hkeep Hs Ht Hc0 Hall db ops.
  assert (Hp0 : progress ParseStrict TableName unmarshal_records c chain start top (view db0) start O db0).
  { split_and!; [lia..|done|done|]. unfold chain_ops. rewrite seqZ_nil by lia. by rewrite take_0. }
  destruct (passes_progress ParseStrict TableName unmarshal_records c chain Hkeep start top (view db0) passes start O db0 ltac:(lia) Ht Hall Hp0)
    as (cur & k & Hp).
  split; [destruct Hp as (H1 & _ & H2 & H3); by exists cur, k|].
  intros fault core now db' Hcore Hready Hh Htop Hn Hsync.
  destruct (pass_progress ParseStrict TableName unmarshal_records c chain Hkeep fault now core start top (view db0) cur k db db' (Ok tt))
    as (cur' & k' & _ & (H1 & H2 & H3 & H4) & Hok); [lia|done|done|by rewrite Hh; intros h [= <-]|done..|].
  specialize (Hok eq_refl Hready Hn top Hh Htop). assert (cur' = top) as -> by lia.
  split; [done|]. destruct k'; [|lia]. by rewrite take_0, app_nil_r in H4.
Qed.

(** ** An operation that stops the synchronization *)

(** gorm's documentation: Create returns ErrEmptySlice for an empty slice. *)
Class GormLaws (G : Gorm) : Prop := {
  create_update_empty : forall t, exists e, create_update [] t = GormRefused e
}.

Section Blocked.
Context {M : Type} {G : Gorm} {J : CrudJson M} (c : Crudr M).

Lemma replay_seen_only l : forall v v', replay c l v = Some v' -> forall u, u ∈ v'.1 -> u ∈ v.1 \/ exists m, m ∈ l /\ mo_Ulid m = u.
Proof.
  induction l as [|m l IH]; intros v v'; [intros [= <-]; by left|].
  rewrite replay_cons. destruct (replay_op c v m) as [v1|] eqn:E; [|done]. intros H u Hu.
  destruct (IH v1 v' H u Hu) as [Hv|(m' & Hm & <-)]; [|right; exists m'; split; [by right|done]].
  unfold replay_op in E. destruct (decide _); [injection E as <-; by left|].
  destruct (recordsForOp _ _); [|done]. destruct (change_records _ _ _); [|done]. injection E as <-. cbn in Hv.
  apply elem_of_union in Hv as [->%elem_of_singleton|?]; [|by left]. right. exists m. split; [by left|done].
Qed.

(** An update whose data is an empty array passes validation but cannot be applied. *)
Definition empty_update (m : MediorumOperation) : Prop :=
  mo_Action m = ActionUpdate /\ exists elemType, cr_typeMap c !! mo_Table m = Some elemType /\ unmarshal elemType (mo_Data m) = Some [].

Lemma replay_empty_update {L : GormLaws G} v m : empty_update m -> mo_Ulid m ∉ v.1 -> replay_op c v m = None.
Proof.
  intros (Ha & elemType & Ht & Hu) Hn. unfold replay_op. rewrite decide_False by done.
  unfold recordsForOp, change_records. cbn [op_Action op_Table op_Data opFromMediorumOperation]. rewrite Ha, Ht, Hu. cbn.
  destruct (create_update_empty (table_of (mo_Table m) (mkCrudDb ∅ v.2 ∅))) as [e ->]. done.
Qed.
End Blocked.

Lemma chain_ops_split ParseStrict TableName unmarshal_records chain start h cur :
  start < h <= cur ->
  chain_ops ParseStrict TableName unmarshal_records chain start cur =
  (chain_ops ParseStrict TableName unmarshal_records chain start (h - 1) ++
   valid_ops ParseStrict TableName unmarshal_records (chain h) ++
   chain_ops ParseStrict TableName unmarshal_records chain h cur)%list.
Proof.
  intros H. unfold chain_ops. replace (cur - start) with ((h - 1 - start) + (1 + (cur - h))) by lia.
  rewrite (seqZ_app (start + 1)), flat_map_app by lia. f_equal.
  replace (start + 1 + (h - 1 - start)) with h by lia. rewrite (seqZ_app h 1), flat_map_app by lia.
  rewrite (seqZ_cons h 1), seqZ_nil by lia. cbn [flat_map]. by rewrite app_nil_r.
Qed.

(** An update with an empty array passes every validation, so any registered node
    can get it into a block; but no node can apply it, and synchronization never gets
    past that block, whatever comes later. *)
Theorem empty_update_blocks_sync {M} {G : Gorm} {J : CrudJson M} {L : GormLaws G} ParseStrict TableName unmarshal_records
    (c : Crudr M) chain start top passes db0 h pre m post :
  keeps_ops ParseStrict TableName unmarshal_records c chain -> 0 <= start <= top -> top < int64_max -> at_cursor start db0 ->
  Forall (fun p => sees_chain chain p.1.2 /\ forall h, co_height p.1.2 = Some h -> h <= top) passes ->
  start < h -> valid_ops ParseStrict TableName unmarshal_records (chain h) = (pre ++ m :: post)%list -> empty_update c m ->
  mo_Ulid m ∉ dom (db_ops db0) ->
  (forall m', m' ∈ (chain_ops ParseStrict TableName unmarshal_records chain start (h - 1) ++ pre)%list -> mo_Ulid m' <> mo_Ulid m) ->
  exists cur, cur < h /\ at_cursor cur (run_passes ParseStrict TableName unmarshal_records c passes db0).
Proof.
  intros Hkeep Hs Ht Hc0 Hall Hh Hb Hm Hfresh Hearlier.
  assert (Hp0 : progress ParseStrict TableName unmarshal_records c chain start top (view db0) start O db0).
  { split_and!; [lia..|done|done|]. unfold chain_ops. rewrite seqZ_nil by lia. by rewrite take_0. }
  destruct (passes_progress ParseStrict TableName unmarshal_records c chain Hkeep start top (view db0) passes start O db0 ltac:(lia) Ht Hall Hp0)
    as (cur & k & Hcur & _ & Hat & Hr).
  destruct (Z.lt_ge_cases cur h) as [Hlt|Hge]; [by exists cur|]. exfalso.
  rewrite (chain_ops_split _ _ _ _ start h cur), Hb in Hr by lia.
  rewrite <- !app_assoc in Hr. rewrite app_assoc in Hr. cbn [app] in Hr. rewrite replay_app in Hr.
  destruct (replay c _ (view db0)) as [v|] eqn:Ev; [|done]. cbn [mbind option_bind] in Hr. rewrite replay_cons in Hr.
  rewrite (replay_empty_update c) in Hr; [done|done|]. intros Hin.
  destruct (replay_seen_only c _ _ _ Ev _ Hin) as [?|(m' & Hm' & Eu)]; [done|]. by apply (Hearlier m').
Qed.

(** ** Submission *)

Section Submission.
Context {M : Type} {G : Gorm} {J : CrudJson M} {C : EthCrypto} {L : EthCryptoLaws C}.
Context (fault : crud_query -> bool).
Context (ParseStrict : string -> bool) (TableName : string -> string)
        (unmarshal_records : mediorum_model -> string -> bool).
Context (marshal_op : MediorumOperation -> option string) (marshal_tx : string -> MediorumOperation -> option string)
        (ToTxHashFromBytes : string -> string).

Lemma sent_by_submit key core now op db sig msg :
  snd (submitCoreOp fault marshal_op marshal_tx ToTxHashFromBytes key core now op db) = Some (sig, msg) ->
  msg = mediorumOperationFromOp op /\ Z.of_nat (String.length (op_Data op)) <= MaxCoreOperationDataBytes /\
  exists body, marshal_op msg = Some body /\ EthSign key body = Some sig.
Proof using Type.
  unfold submitCoreOp, ValidateCorePayloadSize. destruct (Z.ltb_spec MaxCoreOperationDataBytes (Z.of_nat (String.length (op_Data op)))); [done|].
  cbn [guard_err]. unfold signedMediorumOperation. destruct (marshal_op _) as [body|] eqn:Eb; [|done].
  destruct (EthSign key body) as [s|] eqn:Es; [|done]. destruct (marshal_tx _ _); [|done].
  destruct (co_committed _ _); [done|]. destruct (MarkCoreAttempted _ _ _ _ _) as [db' [?|?]]; [|done].
  destruct (co_send _ _ _); intros [= <- <-]; (split_and!; [done|lia|by exists body]).
Qed.

Lemma sent_by_submit_all key core now ops : forall db sig msg,
  (sig, msg) ∈ snd (submit_all fault marshal_op marshal_tx ToTxHashFromBytes key core now ops db) ->
  exists op, op ∈ ops /\ backing_off now op = false /\ msg = mediorumOperationFromOp op /\
    Z.of_nat (String.length (op_Data op)) <= MaxCoreOperationDataBytes /\
    exists body, marshal_op msg = Some body /\ EthSign key body = Some sig.
Proof using Type.
  induction ops as [|op ops IH]; intros db sig msg; cbn [submit_all]; [by intros ?%not_elem_of_nil|].
  assert (Hrest : forall db, (sig, msg) ∈ snd (submit_all fault marshal_op marshal_tx ToTxHashFromBytes key core now ops db) ->
    exists op', op' ∈ op :: ops /\ backing_off now op' = false /\ msg = mediorumOperationFromOp op' /\
      Z.of_nat (String.length (op_Data op')) <= MaxCoreOperationDataBytes /\
      exists body, marshal_op msg = Some body /\ EthSign key body = Some sig).
  { intros db1 H. destruct (IH db1 sig msg H) as (op' & Hin & Hx). exists op'. split; [by right|done]. }
  destruct (backing_off now op) eqn:Eb; [apply Hrest|].
  destruct (submitCoreOp _ _ _ _ _ _ _ _ _) as [db1 sent] eqn:E1.
  destruct (submit_all _ _ _ _ _ _ _ _ _) as [db2 rest] eqn:E2. cbn [snd]. intros [Hs|Hr]%elem_of_app.
  - destruct sent as [[s m]|]; cbn in Hs; [|by apply not_elem_of_nil in Hs]. apply list_elem_of_singleton in Hs. injection Hs as -> ->.
    exists op. split; [by left|]. split; [done|]. apply (sent_by_submit key core now op db). by rewrite E1.
  - apply (Hrest db1). by rewrite E2.
Qed.


(** What a node submits is what the chain accepts: every transaction it sends carries
    an operation stored in its own log that is still to be submitted, within the size
    limit, and with the node registered under its host and key the block check accepts
    it exactly when the operation itself is well formed. *)
Theorem submitted_ops_are_accepted (c : Crudr M) key core now db sent sig msg nodes node :
  snd (submitPendingCoreOps fault marshal_op marshal_tx ToTxHashFromBytes c key core now db) = Ok sent -> (sig, msg) ∈ sent ->
  node ∈ nodes -> host_of (cv_Endpoint node) = host_of (cr_host c) -> EqualFold (cv_EthAddress node) (PrivKeyToAddress key) = true ->
  (exists ulid op, db_ops db !! ulid = Some op /\ is_pending c op = true /\ msg = mediorumOperationFromOp op) /\
  validateMediorumOperationSubmissionSize (Some msg) = Ok tt /\
  isValidMediorumOperationTx ParseStrict TableName unmarshal_records marshal_op (Some nodes) sig (Some msg) =
    validateMediorumOperationShape ParseStrict TableName unmarshal_records (Some msg).
Proof using L.
  unfold submitPendingCoreOps. destruct (negb (co_ready core)); [by intros [= <-] ?%not_elem_of_nil|].
  unfold PendingCoreOps. destruct (fault QPending); [done|].
  destruct (submit_all _ _ _ _ _ _ _ _ _) as [db' sent'] eqn:E. cbn [snd]. intros [= <-] Hin Hnode Hhost Haddr.
  set (ops := take _ _) in *. pose proof (sent_by_submit_all key core now ops db sig msg) as Hs. rewrite E in Hs.
  destruct (Hs Hin) as (op & Hop & _ & -> & Hsize & body & Hbody & Hsig).
  assert (Hpend : op ∈ List.filter (is_pending c) (map snd (map_to_list (db_ops db)))).
  { rewrite <- (merge_sort_Permutation ulid_le). unfold ops in Hop. eapply elem_of_take in Hop as (i & Hi & _). by eapply list_elem_of_lookup_2. }
  apply list_elem_of_In, filter_In in Hpend as [Hpend Hown]. apply in_map_iff in Hpend as ([u o] & <- & Hu).
  apply list_elem_of_In, elem_of_map_to_list in Hu. cbn [snd] in *. split_and!.
  - by exists u, o.
  - unfold validateMediorumOperationSubmissionSize, ValidateCorePayloadSize. cbn. by rewrite (proj2 (Z.ltb_ge _ _)) by lia.
  - unfold isValidMediorumOperationTx. destruct (validateMediorumOperationShape _ _ _ _) as [[]|e]; [|done]. cbn [rbind].
    assert (sig <> "") as Hne.
    { unfold EthSign in Hsig. destruct (crypto_Sign _ _) as [s|] eqn:Ec; [|done]. injection Hsig as <-.
      destruct (Sign_format _ _ _ Ec) as [Hl _]. by destruct s. }
    rewrite (proj2 (String.eqb_neq _ _) Hne). cbn [guard_err rbind].
    rewrite Hbody, (EthRecover_EthSign _ _ _ Hsig).
    assert (existsb (fun node => String.eqb (host_of (cv_Endpoint node)) (host_of (mo_Host (mediorumOperationFromOp o)))
      && EqualFold (cv_EthAddress node) (PrivKeyToAddress key)) nodes = true) as ->; [|done].
    apply existsb_exists. exists node. split; [by apply list_elem_of_In|].
    apply andb_true_iff in Hown as [Hh _]. apply String.eqb_eq in Hh. cbn [mo_Host mediorumOperationFromOp].
    by rewrite Hh, Hhost, String.eqb_refl, Haddr.
Qed.
End Submission.

(** ** An example *)

Module CrudExample.
(** Statements on rows as gorm documents them. *)
#[export] Instance gorm : Gorm := {
  create_ignore rows t :=
    if (length rows =? 0)%nat then GormRefused "empty slice found"
    else let t' := t ∪ list_to_map rows in GormOk t' (Z.of_nat (size t') - Z.of_nat (size t));
  create_update rows t :=
    if (length rows =? 0)%nat then GormRefused "empty slice found"
    else GormOk (list_to_map rows ∪ t) (Z.of_nat (length rows));
  delete_rows rows t :=
    if (length rows =? 0)%nat then GormRefused "WHERE conditions required"
    else GormOk (foldr delete t (map fst rows)) (Z.of_nat (length rows))
}.

Lemma gorm_laws : GormLaws gorm.
Proof. split. intros t. by eexists. Qed.

(** An array of one row is its key, one byte, and its content. *)
Definition rows_of (data : string) : option (list row) :=
  match data with
  | "[]" => Some []
  | String "[" (String k v) => Some [(String k "", v)]
  | _ => None
  end.
#[export] Instance json : CrudJson mediorum_model := {
  unmarshal _ data := rows_of data;
  upload_rows _ := None
}.

Definition strict (u : string) : bool := true.
Definition table_name (m : string) : string := m.
Definition decodes (m : mediorum_model) (data : string) : bool := match rows_of data with Some _ => true | None => false end.
Definition works (q : crud_query) : bool := false.

Definition node (host : string) : Crudr mediorum_model := New host [("Upload", Upload)].
Definition start_db : crud_db := mkCrudDb ∅ ∅ {[coreOpSyncCursorHost := FormatInt 0]}.
Definition update (ulid host data : string) : MediorumOperation := mkMediorumOperation ulid host "update" "Upload" data.
Definition op_a : MediorumOperation := update "01A" "https://a" "[k from a]".
Definition op_b : MediorumOperation := update "01B" "https://b" "[k from b]".
Definition blocks (h : Z) : list (string * option MediorumOperation) :=
  if h =? 1 then [("h1", Some op_a); ("h2", None)] else if h =? 2 then [("h3", Some op_b)] else [].
Definition client : core_client :=
  mkCoreClient true (Some 2) (fun h => if (1 <=? h) && (h <=? 2) then Some (h, blocks h) else None) (fun _ => false) (fun _ _ => None).
Definition commit_fails (q : crud_query) : bool := match q with QCommit u => String.eqb u "01B" | _ => false end.

(** A node makes the update of [msg] itself before it sees any block. *)
Definition own (host : string) (msg : MediorumOperation) : crud_db :=
  fst (ApplyOp works (node host) (newOp (node host) (mo_Ulid msg) (mo_Action msg) (mo_Table msg) (mo_Data msg) false) start_db).
Definition caught_up (host : string) (db : crud_db) : crud_db * res crud_error unit :=
  syncCoreMediorumOps works strict table_name decodes (node host) client 0 db.
End CrudExample.
Import CrudExample.

(** A node applies its own operations when it makes them and skips them when they
    come back in a block, while the others apply them in chain order: after two nodes
    update the same row and both have caught up with the same chain, their tables
    differ, and nothing later repairs it. *)
Theorem own_updates_diverge :
  let a := caught_up "https://a" (own "https://a" op_a) in
  let b := caught_up "https://b" (own "https://b" op_b) in
  snd a = Ok tt /\ snd b = Ok tt /\ dom (db_ops (fst a)) = dom (db_ops (fst b)) /\
  table_of "Upload" (fst a) !! "k" = Some " from b]" /\ table_of "Upload" (fst b) !! "k" = Some " from a]".
Proof. vm_compute. split_and!; reflexivity. Qed.

Lemma sees_client : sees_chain blocks client.
Proof.
  intros h height txs. cbn. destruct (_ && _); [|done]. by intros [= <- <-].
Qed.

Lemma keeps_example : keeps_ops strict table_name decodes (node "https://c") blocks.
Proof.
  intros h m. unfold blocks. destruct (h =? 1); [|destruct (h =? 2)]; cbn.
  - by intros ->%list_elem_of_singleton.
  - by intros ->%list_elem_of_singleton.
  - by intros ?%not_elem_of_nil.
Qed.

Lemma sync_replays_chain_witness :
  let passes := [(commit_fails, client, 0); (works, client, 1)] in
  let db := run_passes strict table_name decodes (node "https://c") passes start_db in
  at_cursor 2 (fst (caught_up "https://c" db)) /\
  replay (node "https://c") [op_a; op_b] (view start_db) = Some (view (fst (caught_up "https://c" db))).
Proof.
  intros passes db. destruct (sync_replays_chain strict table_name decodes (node "https://c") blocks 0 2 passes start_db)
    as [_ H]; [exact keeps_example|lia|unfold int64_max; lia|reflexivity| |].
  { repeat constructor; try exact sees_client; cbn; intros h [= <-]; lia. }
  apply (H works client 0 (fst (caught_up "https://c" db))); [exact sees_client|reflexivity|reflexivity|lia| |vm_compute; reflexivity].
  intros h height txs. cbn. destruct (Z.leb_spec 1 h), (h <=? 2); cbn; try done. intros [= <- _]. lia.
Defined.

(** The empty update as the only operation of block 1. *)
Definition op_empty : MediorumOperation := update "01C" "https://b" "[]".
Definition blocks_empty (h : Z) : list (string * option MediorumOperation) := if h =? 1 then [("h1", Some op_empty)] else [].
Definition client_empty : core_client :=
  mkCoreClient true (Some 9) (fun h => Some (9, blocks_empty h)) (fun _ => false) (fun _ _ => None).

Lemma empty_update_blocks_sync_witness :
  exists cur, cur < 1 /\
    at_cursor cur (run_passes strict table_name decodes (node "https://c") [(works, client_empty, 0); (works, client_empty, 1)] start_db).
Proof.
  apply (empty_update_blocks_sync (L := gorm_laws) strict table_name decodes (node "https://c") blocks_empty 0 9 _ start_db 1 [] op_empty []).
  - intros h m. unfold blocks_empty. destruct (h =? 1); cbn; [by intros ->%list_elem_of_singleton|by intros ?%not_elem_of_nil].
  - lia.
  - unfold int64_max; lia.
  - reflexivity.
  - repeat constructor; cbn; try (intros h [= <-]; lia); intros h height txs [= <- <-] _; done.
  - lia.
  - reflexivity.
  - split; [done|]. exists Upload. by split; vm_compute.
  - by apply not_elem_of_dom.
  - cbn. by intros m' ?%not_elem_of_nil.
Defined.

(** A node whose log holds one operation to submit. *)
Definition pending_db : crud_db := own "https://a" op_a.

Definition sig_a : string := default "" (EthSign (C := Toy.crypto) "k"%char "body").
Definition node_a : CoreValidator := mkCoreValidator "" "https://a" "0x6b" "" "" "" "" "" false.

Lemma submitted_ops_are_accepted_witness :
  snd (submitPendingCoreOps (C := Toy.crypto) works (fun _ => Some "body") (fun _ _ => Some "tx") (fun b => b) (node "https://a")
      "k"%char client 0 pending_db) = Ok [(sig_a, op_a)] /\
    isValidMediorumOperationTx (C := Toy.crypto) strict table_name decodes (fun _ => Some "body") (Some [node_a]) sig_a (Some op_a) = Ok tt.
Proof.
  split; [vm_compute; reflexivity|].
  destruct (submitted_ops_are_accepted (C := Toy.crypto) (L := Toy.laws) works strict table_name decodes (fun _ => Some "body")
    (fun _ _ => Some "tx") (fun b => b) (node "https://a") "k"%char client 0 pending_db [(sig_a, op_a)] sig_a op_a [node_a] node_a)
    as (_ & _ & ->); [vm_compute; reflexivity|by left|by left|reflexivity|reflexivity|]. vm_compute. reflexivity.
Defined.
