(* ===== verification/EtlBase.v ===== *)
(** * The indexer: transactions, metadata and validators

    Models pkg/etl/processors/entity_manager/{handler.go, validate.go,
    genre_normalize.go, genre_allowlist.go} and the stateless part of
    developer_app_create.go and oauth_redirect_uris.go: what a handler is given, how it
    reads the metadata, and the checks that do not look at the database. *)

From stdpp Require Import base gmap strings list.
From Stdlib Require Import ZArith Lia Ascii.
From S2P Require Import Prelude AuthState Crypto Encoding.

Open Scope string_scope.
Open Scope Z_scope.

(** ** Strings *)

(** unicode/utf8: the length in bytes of the rune a string starts with; a byte that
    starts no valid encoding is a rune of its own. *)
Definition byte_in (lo hi : N) (c : ascii) : bool := ((lo <=? N_of_ascii c) && (N_of_ascii c <=? hi))%N.
Definition cont : ascii -> bool := byte_in 128 191.

Definition rune_len (s : string) : nat :=
  match s with
  | String a (String b r) =>
      if byte_in 194 223 a then (if cont b then 2 else 1)%nat
      else
        match r with
        | String c r' =>
            if (Ascii.eqb a "224" && byte_in 160 191 b || byte_in 225 236 a && cont b ||
                Ascii.eqb a "237" && byte_in 128 159 b || byte_in 238 239 a && cont b)
            then (if cont c then 3 else 1)%nat
            else
              match r' with
              | String d _ =>
                  if (Ascii.eqb a "240" && byte_in 144 191 b || byte_in 241 243 a && cont b ||
                      Ascii.eqb a "244" && byte_in 128 143 b) && cont c && cont d
                  then 4%nat else 1%nat
              | _ => 1%nat
              end
        | _ => 1%nat
        end
  | _ => 1%nat
  end.

(** The runes of a string, as the bytes that follow a rune's first are skipped. *)
Fixpoint count_runes (skip : nat) (s : string) : Z :=
  match s with
  | EmptyString => 0
  | String _ s' =>
      match skip with
      | O => 1 + count_runes (pred (rune_len s)) s'
      | Datatypes.S k => count_runes k s'
      end
  end.

Definition RuneCountInString : string -> Z := count_runes 0.

Fixpoint str_forallb (p : ascii -> bool) (s : string) : bool :=
  match s with
  | EmptyString => true
  | String c s' => p c && str_forallb p s'
  end.

(** strings.Fields, on ASCII space. *)
Fixpoint fields_acc (word : string) (s : string) : list string :=
  match s with
  | EmptyString => if String.eqb word "" then [] else [word]
  | String c s' =>
      if ascii_space c then (if String.eqb word "" then fields_acc "" s' else word :: fields_acc "" s')
      else fields_acc (word +:+ String c EmptyString) s'
  end.

Definition Fields (s : string) : list string := fields_acc "" s.

(** nullString, nullStringPtr, nullStrPtrFromMeta: the empty string is NULL. *)
Definition nullString (s : string) : option string := if String.eqb s "" then None else Some s.

(** ** Regular expressions

    A regular expression over bytes and matching by derivatives. *)
Inductive re :=
| RNone
| REps
| RChr (p : ascii -> bool)
| RCat (r s : re)
| RAlt (r s : re)
| RStar (r : re).

Fixpoint nullable (r : re) : bool :=
  match r with
  | RNone | RChr _ => false
  | REps | RStar _ => true
  | RCat a b => nullable a && nullable b
  | RAlt a b => nullable a || nullable b
  end.

Fixpoint deriv (c : ascii) (r : re) : re :=
  match r with
  | RNone | REps => RNone
  | RChr p => if p c then REps else RNone
  | RCat a b => if nullable a then RAlt (RCat (deriv c a) b) (deriv c b) else RCat (deriv c a) b
  | RAlt a b => RAlt (deriv c a) (deriv c b)
  | RStar a => RCat (deriv c a) (RStar a)
  end.

Fixpoint MatchString (r : re) (s : string) : bool :=
  match s with
  | EmptyString => nullable r
  | String c s' => MatchString (deriv c r) s'
  end.

Fixpoint rlit (s : string) : re :=
  match s with
  | EmptyString => REps
  | String c s' => RCat (RChr (Ascii.eqb c)) (rlit s')
  end.
Definition ropt (r : re) : re := RAlt r REps.
Definition rplus (r : re) : re := RCat r (RStar r).
Definition rcat (l : list re) : re := foldr RCat REps l.
Definition ralt (l : list re) : re := foldr RAlt RNone l.

Definition is_digit : ascii -> bool := byte_in 48 57.
Definition is_lower : ascii -> bool := byte_in 97 122.
Definition is_word (c : ascii) : bool := is_digit c || is_lower c || byte_in 65 90 c || Ascii.eqb c "_".
(** \S: not one of tab, newline, form feed, carriage return and space. *)
Definition not_space (c : ascii) : bool :=
  negb (byte_in 9 10 c || byte_in 12 13 c || byte_in 32 32 c).

Definition handleRegexp : re :=
  rplus (RChr (fun c => is_lower c || is_digit c || Ascii.eqb c "_" || Ascii.eqb c ".")).

Definition devAppImageURLRegexp : re :=
  let label := rplus (RChr (fun c => is_word c || Ascii.eqb c "-")) in
  rcat [ RAlt REps (RChr (fun c => byte_in 32 32 c || byte_in 9 9 c));
         ropt (rcat [rlit "http"; ropt (rlit "s"); rlit "://"]);
         ralt [ rlit "localhost";
                rcat [rlit "cn"; RChr is_digit; rlit "_creator-node_1:"; rplus (RChr is_digit)];
                rcat [rlit "audius-protocol-creator-node-"; RChr is_digit];
                rcat [rlit "audius-protocol-discovery-provider-"; RChr is_digit];
                rcat [label; rplus (rcat [rlit "."; label])] ];
         ropt (rcat [rlit ":"; rplus (RChr is_digit)]);
         ropt (rcat [rlit "/"; RStar (RChr not_space)]) ].

(** ** Entities, actions and limits *)

Definition EntityTypeUser : string := "User".
Definition EntityTypeTrack : string := "Track".
Definition EntityTypePlaylist : string := "Playlist".
Definition EntityTypeDeveloperApp : string := "DeveloperApp".
Definition EntityTypeGrant : string := "Grant".
Definition EntityTypeEvent : string := "Event".
Definition EntityTypeDashboardWalletUser : string := "DashboardWalletUser".
Definition EntityTypeNotification : string := "Notification".
Definition EntityTypeAssociatedWallet : string := "AssociatedWallet".
Definition EntityTypeComment : string := "Comment".
Definition EntityTypeEncryptedEmail : string := "EncryptedEmail".
Definition EntityTypeEmailAccess : string := "EmailAccess".
Definition EntityTypeTrackCollaborator : string := "TrackCollaborator".
Definition EntityTypePlayCount : string := "PlayCount".
Definition EntityTypeAny : string := "*".

Definition EtlActionCreate : string := "Create".
Definition EtlActionUpdate : string := "Update".
Definition EtlActionDelete : string := "Delete".
Definition ActionFollow : string := "Follow".
Definition ActionUnfollow : string := "Unfollow".
Definition ActionSave : string := "Save".
Definition ActionUnsave : string := "Unsave".
Definition ActionRepost : string := "Repost".
Definition ActionUnrepost : string := "Unrepost".
Definition ActionVerify : string := "Verify".
Definition ActionSubscribe : string := "Subscribe".
Definition ActionUnsubscribe : string := "Unsubscribe".
Definition ActionApprove : string := "Approve".
Definition ActionReject : string := "Reject".
Definition ActionMute : string := "Mute".
Definition ActionUnmute : string := "Unmute".
Definition ActionShare : string := "Share".
Definition ActionView : string := "View".
Definition ActionViewPlaylist : string := "ViewPlaylist".
Definition ActionDownload : string := "Download".
Definition ActionReact : string := "React".
Definition ActionUnreact : string := "Unreact".
Definition ActionPin : string := "Pin".
Definition ActionUnpin : string := "Unpin".
Definition ActionAddEmail : string := "AddEmail".
Definition ActionReport : string := "Report".
Definition ActionReconcile : string := "Reconcile".

Definition UserIDOffset : Z := 3000000.
Definition PlaylistIDOffset : Z := 400000.
Definition TrackIDOffset : Z := 2000000.
Definition CharacterLimitUserBio : Z := 256.
Definition CharacterLimitUserName : Z := 32.
Definition CharacterLimitHandle : Z := 30.
Definition CharacterLimitDescription : Z := 2500.
Definition CharacterLimitCommentBody : Z := 400.
Definition MaxTrackCollaborators : Z := 50.
Definition CharacterLimitAppName : Z := 50.
Definition CharacterLimitAppDescription : Z := 160.
Definition MaxRedirectURIs : Z := 50.
Definition MaxRedirectURILength : Z := 2000.

(** ** Errors

    A ValidationError rejects the transaction; ErrNoRows is pgx's error for a query
    without rows; ErrSql is any other error of the database. *)
Inductive etl_error :=
| EtlValidation (msg : string)
| ErrNoHandler
| ErrNoRows
| ErrSql.

Definition IsValidationError (e : etl_error) : bool :=
  match e with EtlValidation _ => true | _ => false end.

(** ** What a handler is given *)

(** What the handlers use of the Go and Postgres libraries and of the processor:
    encoding/json, time.Parse by layout (in nanoseconds), what Postgres makes of a text
    given for a timestamp, the text it gives back for a jsonb value, hashids, signed text
    messages and ed25519. *)
Class EtlLibs := {
  etl_cpu : arch;
  etl_json_decode : string -> option json;
  json_marshal : json -> string;
  time_parse : string -> string -> option Z;
  pg_timestamp : string -> option Z;
  jsonb_text : json -> string;
  hashids_Decode : string -> option Z;
  etl_crypto :: EthCrypto;
  accounts_TextHash : string -> string;
  ed25519_Verify : string -> string -> string -> bool
}.

(** Metadata is nil, [None], or a map. *)
Record Params := mkParams {
  p_UserID : Z;
  p_EntityID : Z;
  p_EntityType : string;
  p_Action : string;
  p_Signer : string;
  p_Metadata : option (list (string * json));
  p_RawMetadata : string;
  p_BlockNumber : Z;
  p_BlockTime : Z;
  p_BlockHash : string;
  p_TxHash : string
}.

Section Metadata.
Context {J : EtlLibs}.
Implicit Types (p : Params) (key : string).

(** The map json.Unmarshal leaves in [meta], with the "data" envelope taken off. *)
Definition unwrap_metadata (raw : string) : option (list (string * json)) :=
  if String.eqb raw "" then None
  else match etl_json_decode raw with
       | Some (JObj m) =>
           match jlookup "data" m with
           | Some (JObj data) => Some data
           | _ => Some m
           end
       | _ => None
       end.

Definition NewParams (tx : ManageEntityLegacy) (blockNumber blockTime : Z) (blockHash txHash : string) : Params :=
  mkParams (me_UserId tx) (me_EntityId tx) (me_EntityType tx) (me_Action tx) (me_Signer tx)
    (unwrap_metadata (me_Metadata tx)) (me_Metadata tx) blockNumber blockTime blockHash txHash.

Definition MetadataJSON p key : option json := jlookup key (default [] (p_Metadata p)).

Definition MetadataString p key : string :=
  match MetadataJSON p key with
  | Some (JStr s) => s
  | _ => ""
  end.

(** The decoder produces float64 for every number. *)
Definition MetadataInt64 p key : option Z :=
  match MetadataJSON p key with
  | Some (JNum f) => Some (float64_to_int64 etl_cpu f)
  | _ => None
  end.

Definition MetadataFloat64 p key : option float64 :=
  match MetadataJSON p key with
  | Some (JNum f) => Some f
  | _ => None
  end.

Definition MetadataBool p key : option bool :=
  match MetadataJSON p key with
  | Some (JBool b) => Some b
  | _ => None
  end.

Definition MetadataBoolOr p key (def : bool) : bool := default def (MetadataBool p key).

(** ** Validators *)

Definition reservedHandles : list string :=
  [ "admin"; "audius"; "api"; "app"; "blog"; "contact"; "dashboard"; "dev"; "developer";
    "docs"; "download"; "explore"; "faq"; "feed"; "help"; "home"; "jobs"; "legal";
    "library"; "login"; "logout"; "manage"; "media"; "music"; "news"; "notifications";
    "oauth"; "playlist"; "playlists"; "premium"; "press"; "privacy"; "profile"; "register";
    "search"; "settings"; "signup"; "status"; "support"; "terms"; "track"; "tracks";
    "trending"; "upload"; "user"; "users"; "verify" ].

Definition invalid {A} (msg : string) : res etl_error A := Err (EtlValidation msg).
Definition invalid_if (cond : bool) (msg : string) : res etl_error unit := guard_err cond (EtlValidation msg).

Definition ValidateHandle (handle : string) : res etl_error unit :=
  let? _ := invalid_if (String.eqb handle "") "handle is missing" in
  let handle := ToLower handle in
  let? _ := invalid_if (negb (MatchString handleRegexp handle)) "handle contains illegal characters" in
  let? _ := invalid_if (CharacterLimitHandle <? RuneCountInString handle) "handle exceeds character limit" in
  invalid_if (existsb (String.eqb handle) reservedHandles) "handle is reserved".

Definition within_limit (limit : Z) (s msg : string) : res etl_error unit :=
  if String.eqb s "" then Ok tt else invalid_if (limit <? RuneCountInString s) msg.

Definition ValidateUserName (name : string) : res etl_error unit :=
  within_limit CharacterLimitUserName name "name exceeds character limit".
Definition ValidateBio (bio : string) : res etl_error unit :=
  within_limit CharacterLimitUserBio bio "bio exceeds character limit".
Definition ValidateDescription (desc : string) : res etl_error unit :=
  within_limit CharacterLimitDescription desc "description exceeds character limit".
Definition ValidateGenre (genre : string) : res etl_error unit :=
  within_limit 100 genre "genre exceeds 100 character limit".

Definition validMusicalKeys : list string :=
  [ "A major"; "A minor"; "B flat major"; "B flat minor"; "B major"; "B minor"; "C major"; "C minor";
    "D flat major"; "D flat minor"; "D major"; "D minor"; "E flat major"; "E flat minor"; "E major"; "E minor";
    "F major"; "F minor"; "G flat major"; "G flat minor"; "G major"; "G minor"; "A flat major"; "A flat minor";
    "Silence" ].
Definition isValidMusicalKey (s : string) : bool := existsb (String.eqb s) validMusicalKeys.

(** len of a decoded object. *)
Definition obj_len (l : list (string * json)) : Z := Z.of_nat (length (remove_dups l.*1)).

Definition validateUSDCSplits (conditions : json) : res etl_error unit :=
  match conditions with
  | JObj cMap =>
      match jlookup "usdc_purchase" cMap with
      | None => Ok tt
      | Some (JObj uMap) =>
          match jlookup "splits" uMap with
          | None => invalid "usdc_purchase must contain splits"
          | Some (JArr s) => invalid_if (Z.of_nat (length s) =? 0) "usdc_purchase splits cannot be empty"
          | Some (JObj s) => invalid_if (obj_len s =? 0) "usdc_purchase splits cannot be empty"
          | Some _ => invalid "usdc_purchase splits must be an array or object"
          end
      | Some _ => invalid "usdc_purchase must be an object"
      end
  | _ => Ok tt
  end.

Definition jsonEqual (a b : json) : bool := String.eqb (json_marshal a) (json_marshal b).

(** A gated track names exactly one condition. *)
Definition one_condition (conditions : json) (missing many : string) : res etl_error unit :=
  match conditions with
  | JObj m =>
      let? _ := invalid_if (obj_len m =? 0) missing in
      invalid_if (negb (obj_len m =? 1)) many
  | _ => invalid missing
  end.

Definition ValidateAccessConditions p : res etl_error unit :=
  if forallb (fun key => negb (bool_decide (is_Some (MetadataJSON p key))))
       ["is_stream_gated"; "is_download_gated"; "stream_conditions"; "download_conditions"]
  then Ok tt
  else
    let isStreamGated := MetadataBoolOr p "is_stream_gated" false in
    let isDownloadGated := MetadataBoolOr p "is_download_gated" false in
    let streamConditions := default JNull (MetadataJSON p "stream_conditions") in
    let downloadConditions := default JNull (MetadataJSON p "download_conditions") in
    let? _ := match MetadataJSON p "stem_of" with
              | None | Some JNull => Ok tt
              | Some _ => invalid_if (isStreamGated || isDownloadGated) "stem tracks cannot have stream or download gating"
              end in
    let? _ := validateUSDCSplits streamConditions in
    let? _ := validateUSDCSplits downloadConditions in
    if isStreamGated then
      let? _ := one_condition streamConditions "stream gated track must have stream_conditions"
                  "stream_conditions must have exactly one condition type" in
      let? _ := invalid_if (negb isDownloadGated) "stream gated track must also be download gated" in
      invalid_if (negb (jsonEqual streamConditions downloadConditions))
        "stream_conditions must match download_conditions for stream gated tracks"
    else if isDownloadGated then
      one_condition downloadConditions "download gated track must have download_conditions"
        "download_conditions must have exactly one condition type"
    else Ok tt.

(** ** Developer app metadata *)

Definition validatedAppImageURL p : string :=
  let img := MetadataString p "image_url" in
  if negb (String.eqb img "") && MatchString devAppImageURLRegexp img then img else "".

Fixpoint redirect_strings (arr : list json) : option (list string) :=
  match arr with
  | [] => Some []
  | JStr s :: arr' =>
      if MaxRedirectURILength <? RuneCountInString s then None
      else out ← redirect_strings arr'; Some (s :: out)
  | _ :: _ => None
  end.

(** The URIs, [None] when the field is absent or malformed; null is an empty list. *)
Definition extractRedirectURIs p : option (list string) :=
  match MetadataJSON p "redirect_uris" with
  | None => None
  | Some JNull => Some []
  | Some (JArr arr) => out ← redirect_strings arr; Some (take (Z.to_nat MaxRedirectURIs) out)
  | Some _ => None
  end.
End Metadata.

(** ** The dispatcher *)

Section Dispatcher.
Context {S : Type}.

(** Handle returns the parameters it leaves behind, which the hooks are given. *)
Record Handler := mkHandler {
  h_EntityType : string;
  h_Action : string;
  h_Handle : Params -> proc S etl_error Params
}.

Definition PostHook : Type := Params -> proc S etl_error unit.

(** A handler that does not touch its parameters. *)
Definition handler (entityType action : string) (run : Params -> proc S etl_error unit) : Handler :=
  mkHandler entityType action (fun p => run p ;;! pret p).

Record Dispatcher := mkDispatcher {
  handlers : gmap string Handler;
  postHooks : gmap string (list PostHook)
}.
Implicit Types (d : Dispatcher).

Definition NewDispatcher : Dispatcher := mkDispatcher ∅ ∅.

Definition handlerKey (entityType action : string) : string := entityType +:+ ":" +:+ action.

Definition Register (h : Handler) d : Dispatcher :=
  mkDispatcher (<[handlerKey (h_EntityType h) (h_Action h) := h]> (handlers d)) (postHooks d).

Definition RegisterPostHook (entityType action : string) (fn : PostHook) d : Dispatcher :=
  let key := handlerKey entityType action in
  mkDispatcher (handlers d) (<[key := (default [] (postHooks d !! key) ++ [fn])%list]> (postHooks d)).

(** A copy shares nothing with the original, so it is the same value. *)
Definition Clone d : Dispatcher := d.

Fixpoint run_hooks (hooks : list PostHook) (p : Params) (s : S) : S :=
  match hooks with
  | [] => s
  | hook :: hooks' => run_hooks hooks' p (hook p s).1
  end.

Definition runPostHooks d (exactKey fallbackKey : string) (p : Params) (s : S) : S :=
  let hooks := default [] (postHooks d !! exactKey) in
  let hooks := if String.eqb exactKey fallbackKey then hooks
               else (hooks ++ default [] (postHooks d !! fallbackKey))%list in
  run_hooks hooks p s.

(** The handler a transaction goes to, with the key it was found under. *)
Definition route d (entityType action : string) : option (string * Handler) :=
  let key := handlerKey entityType action in
  match handlers d !! key with
  | Some h => Some (key, h)
  | None =>
      let key := handlerKey EntityTypeAny action in
      match handlers d !! key with
      | Some h => Some (key, h)
      | None => None
      end
  end.

Definition Dispatch d (p : Params) : proc S etl_error unit :=
  match route d (p_EntityType p) (p_Action p) with
  | None => pfail ErrNoHandler
  | Some (hookKey, h) => fun s =>
      match h_Handle h p s with
      | (s', Err e) => (s', Err e)
      | (s', Ok p') => (runPostHooks d (handlerKey (p_EntityType p) (p_Action p)) hookKey p' s', Ok tt)
      end
  end.

Definition HasHandler d (entityType action : string) : bool :=
  bool_decide (is_Some (handlers d !! handlerKey entityType action)) ||
  bool_decide (is_Some (handlers d !! handlerKey EntityTypeAny action)).

Definition HandlerCount d : Z := Z.of_nat (size (handlers d)).
End Dispatcher.
Arguments Handler : clear implicits.
Arguments PostHook : clear implicits.
Arguments Dispatcher : clear implicits.

Lemma route_HasHandler {S} (d : Dispatcher S) t a :
  HasHandler d t a = true <-> is_Some (route d t a).
Proof.
  unfold HasHandler, route. rewrite orb_true_iff, !bool_decide_eq_true.
  destruct (handlers d !! handlerKey t a), (handlers d !! handlerKey EntityTypeAny a);
    split; intros; naive_solver eauto using mk_is_Some.
Qed.
