(* ===== verification/EtlDb.v ===== *)
(** * The indexer's database

    The tables of pkg/etl/db/sql/migrations that the modelled handlers read and write,
    with their primary keys and partial unique indexes, and the transaction a handler
    runs in: a statement that fails on the server leaves the transaction aborted, and
    every later statement of it fails. *)

From stdpp Require Import base gmap strings list.
From Stdlib Require Import ZArith Lia.
From S2P Require Import Prelude AuthState Crypto EtlBase.

Open Scope string_scope.
Open Scope Z_scope.

(** ** Rows

    Nullable columns are options, times are numbers.  [u_text] holds the nullable text
    columns by name (name, bio, location, the pictures, the social handles, website,
    donation, spl_usdc_payout_wallet, coin_flair_mint); a NULL is absent. *)
Record user_row := mkUserRow {
  u_user_id : Z;
  u_handle : option string;
  u_handle_lc : option string;
  u_wallet : option string;
  u_text : gmap string string;
  u_playlist_library : option string;
  u_artist_pick_track_id : option Z;
  u_allow_ai_attribution : bool;
  u_profile_type : option string;
  u_is_current : bool;
  u_is_verified : bool;
  u_is_deactivated : bool;
  u_is_available : bool;
  u_verified_with_twitter : bool;
  u_verified_with_instagram : bool;
  u_verified_with_tiktok : bool;
  u_created_at : Z;
  u_updated_at : Z;
  u_txhash : string;
  u_blockhash : string;
  u_blocknumber : Z
}.

Record grant_row := mkGrantRow {
  g_grantee_address : string;
  g_user_id : Z;
  g_is_revoked : bool;
  g_is_current : bool;
  g_is_approved : option bool;
  g_created_at : Z;
  g_updated_at : Z;
  g_txhash : string;
  g_blocknumber : Z
}.

Record app_row := mkAppRow {
  a_address : string;
  a_user_id : Z;
  a_name : string;
  a_description : option string;
  a_image_url : option string;
  a_is_personal_access : bool;
  a_is_current : bool;
  a_is_delete : bool;
  a_created_at : Z;
  a_updated_at : Z;
  a_txhash : string;
  a_blocknumber : Z
}.

Record muted_row := mkMutedRow {
  m_muted_user_id : Z;
  m_user_id : Z;
  m_is_delete : option bool;
  m_created_at : Z;
  m_updated_at : Z;
  m_txhash : string;
  m_blockhash : string;
  m_blocknumber : Z
}.

(** follows, saves, reposts and subscriptions share a shape: the identity the partial
    unique index is on, the flags, one more column, and the audit columns. *)
Record social_row (K X : Type) := mkSocialRow {
  s_key : K;
  s_is_current : bool;
  s_is_delete : bool;
  s_extra : X;
  s_created_at : Z;
  s_txhash : string;
  s_blocknumber : Z
}.
Arguments mkSocialRow {K X}.
Arguments s_key {K X}.
Arguments s_is_current {K X}.
Arguments s_is_delete {K X}.
Arguments s_extra {K X}.
Arguments s_created_at {K X}.
Arguments s_txhash {K X}.
Arguments s_blocknumber {K X}.

Record share_row := mkShareRow {
  sh_user_id : Z;
  sh_item_id : Z;
  sh_type : string;
  sh_created_at : Z;
  sh_txhash : string;
  sh_blocknumber : Z
}.

(** ** Rows of content

    As with users, the nullable text columns of tracks and playlists are held by name in a
    map, the boolean ones (none of them NULL) in another, and the jsonb and floating-point
    ones likewise. *)
Record track_row := mkTrackRow {
  t_track_id : Z;
  t_owner_id : Z;
  t_is_current : bool;
  t_is_delete : bool;
  t_title : option string;
  t_text : gmap string string;
  t_flags : gmap string bool;
  t_json : gmap string json;
  t_nums : gmap string float64;
  t_duration : Z;
  t_release_date : option Z;
  t_ai_attribution_user_id : option Z;
  t_route_id : option string;
  t_allowed_api_keys : option (list string);
  t_access_authorities : option (list string);
  t_playlists_containing_track : list Z;
  t_playlists_previously_containing_track : gmap Z Z;
  t_pinned_comment_id : option Z;
  t_created_at : Z;
  t_updated_at : Z;
  t_txhash : string;
  t_blocknumber : Z
}.

Record playlist_row := mkPlaylistRow {
  pl_playlist_id : Z;
  pl_owner_id : Z;
  pl_is_current : bool;
  pl_is_delete : bool;
  pl_text : gmap string string;
  pl_flags : gmap string bool;
  pl_json : gmap string json;
  pl_contents : json;
  pl_release_date : option Z;
  pl_last_added_to : option Z;
  pl_created_at : Z;
  pl_updated_at : Z;
  pl_txhash : string;
  pl_blocknumber : Z
}.

Record event_row := mkEventRow {
  ev_event_id : Z;
  ev_event_type : string;
  ev_user_id : Z;
  ev_entity_type : option string;
  ev_entity_id : option Z;
  ev_end_date : option Z;
  ev_event_data : option json;
  ev_is_deleted : bool;
  ev_created_at : Z;
  ev_updated_at : Z;
  ev_txhash : string;
  ev_blockhash : string;
  ev_blocknumber : Z
}.

Record comment_row := mkCommentRow {
  cm_comment_id : Z;
  cm_text : string;
  cm_user_id : Z;
  cm_entity_id : Z;
  cm_entity_type : string;
  cm_track_timestamp_s : option Z;
  cm_created_at : Z;
  cm_updated_at : Z;
  cm_is_delete : option bool;
  cm_is_visible : bool;
  cm_is_edited : bool;
  cm_is_members_only : bool;
  cm_video_url : option string;
  cm_txhash : string;
  cm_blockhash : string;
  cm_blocknumber : Z
}.

(** comment_reactions, comment_reports and comment_mentions. *)
Record mark_row := mkMarkRow {
  mk_comment_id : Z;
  mk_user_id : Z;
  mk_created_at : Z;
  mk_updated_at : Z;
  mk_is_delete : bool;
  mk_txhash : string;
  mk_blockhash : string;
  mk_blocknumber : Z
}.

Record setting_row := mkSettingRow {
  ns_user_id : Z;
  ns_entity_id : Z;
  ns_entity_type : string;
  ns_is_muted : bool;
  ns_created_at : Z;
  ns_updated_at : Z
}.

(** track_routes and playlist_routes. *)
Record route_row := mkRouteRow {
  rt_slug : string;
  rt_title_slug : string;
  rt_collision_id : Z;
  rt_owner_id : Z;
  rt_item_id : Z;
  rt_is_current : bool;
  rt_blockhash : string;
  rt_blocknumber : Z;
  rt_txhash : string
}.

Record collaborator_row := mkCollaboratorRow {
  co_track_id : Z;
  co_user_id : Z;
  co_invited_by : Z;
  co_status : string;
  co_created_at : Z;
  co_updated_at : Z;
  co_txhash : string;
  co_blocknumber : Z
}.

(** track_price_history and album_price_history; albums have no access column. *)
Record price_row := mkPriceRow {
  ph_item_id : Z;
  ph_splits : json;
  ph_total_price_cents : Z;
  ph_blocknumber : Z;
  ph_block_timestamp : Z;
  ph_access : string
}.

Record member_row := mkMemberRow {
  pt_playlist_id : Z;
  pt_track_id : Z;
  pt_is_removed : bool;
  pt_created_at : Z;
  pt_updated_at : Z
}.

Record associated_row := mkAssociatedRow {
  aw_user_id : Z;
  aw_wallet : string;
  aw_chain : string;
  aw_is_current : bool;
  aw_is_delete : bool;
  aw_blockhash : string;
  aw_blocknumber : Z;
  aw_created_at : Z;
  aw_updated_at : Z
}.

Record dashboard_row := mkDashboardRow {
  dw_wallet : string;
  dw_user_id : Z;
  dw_is_delete : bool;
  dw_txhash : string;
  dw_blocknumber : Z;
  dw_created_at : Z;
  dw_updated_at : Z
}.

Record access_row := mkAccessRow {
  ea_email_owner_user_id : Z;
  ea_receiving_user_id : Z;
  ea_grantor_user_id : Z;
  ea_encrypted_key : string;
  ea_is_initial : bool
}.

Record notification_row := mkNotificationRow {
  no_specifier : string;
  no_group_id : string;
  no_type : string;
  no_blocknumber : Z;
  no_timestamp : Z;
  no_data : string
}.

(** notification_seen, with no playlist, and playlist_seen. *)
Record seen_row := mkSeenRow {
  se_user_id : Z;
  se_playlist_id : option Z;
  se_seen_at : Z;
  se_txhash : string;
  se_blocknumber : Z
}.

Record download_row := mkDownloadRow {
  dl_txhash : string;
  dl_blocknumber : Z;
  dl_parent_track_id : Z;
  dl_track_id : Z;
  dl_user_id : Z;
  dl_city : option string;
  dl_region : option string;
  dl_country : option string;
  dl_created_at : Z
}.

(** ** Tables *)

(** Comments. *)
Record talk_db := mkTalkDb {
  comments : list comment_row;
  comment_mentions : list mark_row;
  comment_reactions : list mark_row;
  comment_reports : list mark_row;
  comment_threads : list (Z * Z);
  comment_notification_settings : list setting_row
}.

Definition set_comments (x : list comment_row) (d : talk_db) : talk_db :=
  mkTalkDb x (comment_mentions d) (comment_reactions d) (comment_reports d) (comment_threads d) (comment_notification_settings d).
Definition set_comment_mentions (x : list mark_row) (d : talk_db) : talk_db :=
  mkTalkDb (comments d) x (comment_reactions d) (comment_reports d) (comment_threads d) (comment_notification_settings d).
Definition set_comment_reactions (x : list mark_row) (d : talk_db) : talk_db :=
  mkTalkDb (comments d) (comment_mentions d) x (comment_reports d) (comment_threads d) (comment_notification_settings d).
Definition set_comment_reports (x : list mark_row) (d : talk_db) : talk_db :=
  mkTalkDb (comments d) (comment_mentions d) (comment_reactions d) x (comment_threads d) (comment_notification_settings d).
Definition set_comment_threads (x : list (Z * Z)) (d : talk_db) : talk_db :=
  mkTalkDb (comments d) (comment_mentions d) (comment_reactions d) (comment_reports d) x (comment_notification_settings d).
Definition set_comment_notification_settings (x : list setting_row) (d : talk_db) : talk_db :=
  mkTalkDb (comments d) (comment_mentions d) (comment_reactions d) (comment_reports d) (comment_threads d) x.

(** Wallets, emails, notifications, downloads and play counts; aggregate_plays exists only
    where a consumer of the indexer created it. *)
Record desk_db := mkDeskDb {
  associated_wallets : list associated_row;
  dashboard_wallet_users : list dashboard_row;
  encrypted_emails : list (Z * string);
  email_access : list access_row;
  notification : list notification_row;
  notification_seen : list seen_row;
  playlist_seen : list seen_row;
  track_downloads : list download_row;
  aggregate_plays : option (list (Z * Z))
}.

Definition set_associated_wallets (x : list associated_row) (d : desk_db) : desk_db :=
  mkDeskDb x (dashboard_wallet_users d) (encrypted_emails d) (email_access d) (notification d) (notification_seen d) (playlist_seen d) (track_downloads d) (aggregate_plays d).
Definition set_dashboard_wallet_users (x : list dashboard_row) (d : desk_db) : desk_db :=
  mkDeskDb (associated_wallets d) x (encrypted_emails d) (email_access d) (notification d) (notification_seen d) (playlist_seen d) (track_downloads d) (aggregate_plays d).
Definition set_encrypted_emails (x : list (Z * string)) (d : desk_db) : desk_db :=
  mkDeskDb (associated_wallets d) (dashboard_wallet_users d) x (email_access d) (notification d) (notification_seen d) (playlist_seen d) (track_downloads d) (aggregate_plays d).
Definition set_email_access (x : list access_row) (d : desk_db) : desk_db :=
  mkDeskDb (associated_wallets d) (dashboard_wallet_users d) (encrypted_emails d) x (notification d) (notification_seen d) (playlist_seen d) (track_downloads d) (aggregate_plays d).
Definition set_notification (x : list notification_row) (d : desk_db) : desk_db :=
  mkDeskDb (associated_wallets d) (dashboard_wallet_users d) (encrypted_emails d) (email_access d) x (notification_seen d) (playlist_seen d) (track_downloads d) (aggregate_plays d).
Definition set_notification_seen (x : list seen_row) (d : desk_db) : desk_db :=
  mkDeskDb (associated_wallets d) (dashboard_wallet_users d) (encrypted_emails d) (email_access d) (notification d) x (playlist_seen d) (track_downloads d) (aggregate_plays d).
Definition set_playlist_seen (x : list seen_row) (d : desk_db) : desk_db :=
  mkDeskDb (associated_wallets d) (dashboard_wallet_users d) (encrypted_emails d) (email_access d) (notification d) (notification_seen d) x (track_downloads d) (aggregate_plays d).
Definition set_track_downloads (x : list download_row) (d : desk_db) : desk_db :=
  mkDeskDb (associated_wallets d) (dashboard_wallet_users d) (encrypted_emails d) (email_access d) (notification d) (notification_seen d) (playlist_seen d) x (aggregate_plays d).
Definition set_aggregate_plays (x : option (list (Z * Z))) (d : desk_db) : desk_db :=
  mkDeskDb (associated_wallets d) (dashboard_wallet_users d) (encrypted_emails d) (email_access d) (notification d) (notification_seen d) (playlist_seen d) (track_downloads d) x.

(** The tables that go with tracks and playlists. *)
Record shelf_db := mkShelfDb {
  track_routes : list route_row;
  stems : list (Z * Z);
  remixes : list (Z * Z);
  track_collaborators : list collaborator_row;
  track_price_history : list price_row;
  playlist_routes : list route_row;
  playlist_tracks : list member_row;
  album_price_history : list price_row
}.

Definition set_track_routes (x : list route_row) (d : shelf_db) : shelf_db :=
  mkShelfDb x (stems d) (remixes d) (track_collaborators d) (track_price_history d) (playlist_routes d) (playlist_tracks d) (album_price_history d).
Definition set_stems (x : list (Z * Z)) (d : shelf_db) : shelf_db :=
  mkShelfDb (track_routes d) x (remixes d) (track_collaborators d) (track_price_history d) (playlist_routes d) (playlist_tracks d) (album_price_history d).
Definition set_remixes (x : list (Z * Z)) (d : shelf_db) : shelf_db :=
  mkShelfDb (track_routes d) (stems d) x (track_collaborators d) (track_price_history d) (playlist_routes d) (playlist_tracks d) (album_price_history d).
Definition set_track_collaborators (x : list collaborator_row) (d : shelf_db) : shelf_db :=
  mkShelfDb (track_routes d) (stems d) (remixes d) x (track_price_history d) (playlist_routes d) (playlist_tracks d) (album_price_history d).
Definition set_track_price_history (x : list price_row) (d : shelf_db) : shelf_db :=
  mkShelfDb (track_routes d) (stems d) (remixes d) (track_collaborators d) x (playlist_routes d) (playlist_tracks d) (album_price_history d).
Definition set_playlist_routes (x : list route_row) (d : shelf_db) : shelf_db :=
  mkShelfDb (track_routes d) (stems d) (remixes d) (track_collaborators d) (track_price_history d) x (playlist_tracks d) (album_price_history d).
Definition set_playlist_tracks (x : list member_row) (d : shelf_db) : shelf_db :=
  mkShelfDb (track_routes d) (stems d) (remixes d) (track_collaborators d) (track_price_history d) (playlist_routes d) x (album_price_history d).
Definition set_album_price_history (x : list price_row) (d : shelf_db) : shelf_db :=
  mkShelfDb (track_routes d) (stems d) (remixes d) (track_collaborators d) (track_price_history d) (playlist_routes d) (playlist_tracks d) x.

Record em_db := mkEmDb {
  users : list user_row;
  grants : list grant_row;
  developer_apps : list app_row;
  oauth_redirect_uris : list (string * string);
  muted_users : list muted_row;
  follows : list (social_row (Z * Z) unit);
  saves : list (social_row (Z * Z * string) bool);
  reposts : list (social_row (Z * Z * string) bool);
  subscriptions : list (social_row (Z * Z * string) Z);
  shares : list share_row;
  tracks : list track_row;
  playlists : list playlist_row;
  events : list event_row;
  talk : talk_db;
  desk : desk_db;
  shelf : shelf_db
}.

Definition set_users (x : list user_row) (d : em_db) : em_db :=
  mkEmDb x (grants d) (developer_apps d) (oauth_redirect_uris d) (muted_users d) (follows d) (saves d) (reposts d) (subscriptions d) (shares d) (tracks d) (playlists d) (events d) (talk d) (desk d) (shelf d).
Definition set_grants (x : list grant_row) (d : em_db) : em_db :=
  mkEmDb (users d) x (developer_apps d) (oauth_redirect_uris d) (muted_users d) (follows d) (saves d) (reposts d) (subscriptions d) (shares d) (tracks d) (playlists d) (events d) (talk d) (desk d) (shelf d).
Definition set_developer_apps (x : list app_row) (d : em_db) : em_db :=
  mkEmDb (users d) (grants d) x (oauth_redirect_uris d) (muted_users d) (follows d) (saves d) (reposts d) (subscriptions d) (shares d) (tracks d) (playlists d) (events d) (talk d) (desk d) (shelf d).
Definition set_oauth_redirect_uris (x : list (string * string)) (d : em_db) : em_db :=
  mkEmDb (users d) (grants d) (developer_apps d) x (muted_users d) (follows d) (saves d) (reposts d) (subscriptions d) (shares d) (tracks d) (playlists d) (events d) (talk d) (desk d) (shelf d).
Definition set_muted_users (x : list muted_row) (d : em_db) : em_db :=
  mkEmDb (users d) (grants d) (developer_apps d) (oauth_redirect_uris d) x (follows d) (saves d) (reposts d) (subscriptions d) (shares d) (tracks d) (playlists d) (events d) (talk d) (desk d) (shelf d).
Definition set_follows (x : list (social_row (Z * Z) unit)) (d : em_db) : em_db :=
  mkEmDb (users d) (grants d) (developer_apps d) (oauth_redirect_uris d) (muted_users d) x (saves d) (reposts d) (subscriptions d) (shares d) (tracks d) (playlists d) (events d) (talk d) (desk d) (shelf d).
Definition set_saves (x : list (social_row (Z * Z * string) bool)) (d : em_db) : em_db :=
  mkEmDb (users d) (grants d) (developer_apps d) (oauth_redirect_uris d) (muted_users d) (follows d) x (reposts d) (subscriptions d) (shares d) (tracks d) (playlists d) (events d) (talk d) (desk d) (shelf d).
Definition set_reposts (x : list (social_row (Z * Z * string) bool)) (d : em_db) : em_db :=
  mkEmDb (users d) (grants d) (developer_apps d) (oauth_redirect_uris d) (muted_users d) (follows d) (saves d) x (subscriptions d) (shares d) (tracks d) (playlists d) (events d) (talk d) (desk d) (shelf d).
Definition set_subscriptions (x : list (social_row (Z * Z * string) Z)) (d : em_db) : em_db :=
  mkEmDb (users d) (grants d) (developer_apps d) (oauth_redirect_uris d) (muted_users d) (follows d) (saves d) (reposts d) x (shares d) (tracks d) (playlists d) (events d) (talk d) (desk d) (shelf d).
Definition set_shares (x : list share_row) (d : em_db) : em_db :=
  mkEmDb (users d) (grants d) (developer_apps d) (oauth_redirect_uris d) (muted_users d) (follows d) (saves d) (reposts d) (subscriptions d) x (tracks d) (playlists d) (events d) (talk d) (desk d) (shelf d).
Definition set_tracks (x : list track_row) (d : em_db) : em_db :=
  mkEmDb (users d) (grants d) (developer_apps d) (oauth_redirect_uris d) (muted_users d) (follows d) (saves d) (reposts d) (subscriptions d) (shares d) x (playlists d) (events d) (talk d) (desk d) (shelf d).
Definition set_playlists (x : list playlist_row) (d : em_db) : em_db :=
  mkEmDb (users d) (grants d) (developer_apps d) (oauth_redirect_uris d) (muted_users d) (follows d) (saves d) (reposts d) (subscriptions d) (shares d) (tracks d) x (events d) (talk d) (desk d) (shelf d).
Definition set_events (x : list event_row) (d : em_db) : em_db :=
  mkEmDb (users d) (grants d) (developer_apps d) (oauth_redirect_uris d) (muted_users d) (follows d) (saves d) (reposts d) (subscriptions d) (shares d) (tracks d) (playlists d) x (talk d) (desk d) (shelf d).
Definition set_talk (x : talk_db) (d : em_db) : em_db :=
  mkEmDb (users d) (grants d) (developer_apps d) (oauth_redirect_uris d) (muted_users d) (follows d) (saves d) (reposts d) (subscriptions d) (shares d) (tracks d) (playlists d) (events d) x (desk d) (shelf d).
Definition set_desk (x : desk_db) (d : em_db) : em_db :=
  mkEmDb (users d) (grants d) (developer_apps d) (oauth_redirect_uris d) (muted_users d) (follows d) (saves d) (reposts d) (subscriptions d) (shares d) (tracks d) (playlists d) (events d) (talk d) x (shelf d).
Definition set_shelf (x : shelf_db) (d : em_db) : em_db :=
  mkEmDb (users d) (grants d) (developer_apps d) (oauth_redirect_uris d) (muted_users d) (follows d) (saves d) (reposts d) (subscriptions d) (shares d) (tracks d) (playlists d) (events d) (talk d) (desk d) x.

Definition on_talk (f : talk_db -> option talk_db) (d : em_db) : option em_db := t ← f (talk d); Some (set_talk t d).
Definition on_desk (f : desk_db -> option desk_db) (d : em_db) : option em_db := t ← f (desk d); Some (set_desk t d).
Definition on_shelf (f : shelf_db -> option shelf_db) (d : em_db) : option em_db := t ← f (shelf d); Some (set_shelf t d).

(** ** Chain tables *)

Record block_row := mkBlockRow { b_blockhash : string; b_parenthash : option string; b_number : Z }.

Record tx_row := mkTxRow {
  tx_hash : string;
  tx_block_height : Z;
  tx_index : Z;
  tx_type : string;
  tx_address : option string;
  tx_created_at : Z
}.

Record me_row := mkMeRow {
  mer_entity_type : string;
  mer_entity_id : Z;
  mer_action : string;
  mer_metadata : option string;
  mer_signature : string;
  mer_signer : string;
  mer_nonce : string;
  mer_block_height : Z;
  mer_tx_hash : string;
  mer_created_at : Z
}.

Record play_row := mkPlayRow {
  pr_user_id : string;
  pr_track_id : string;
  pr_city : string;
  pr_region : string;
  pr_country : string;
  pr_played_at : Z;
  pr_block_height : Z;
  pr_tx_hash : string;
  pr_recorded_at : Z
}.

Record vreg_row := mkVregRow {
  vr_address : string;
  vr_endpoint : string;
  vr_comet_address : string;
  vr_eth_block : Z;
  vr_node_type : string;
  vr_spid : string;
  vr_comet_pubkey : string;
  vr_voting_power : Z;
  vr_block_height : Z;
  vr_tx_hash : string
}.

Record vdereg_row := mkVderegRow {
  vd_comet_address : string;
  vd_pub_key : string;
  vd_block_height : Z;
  vd_tx_hash : string
}.

Record validator_row := mkValidatorRow {
  v_address : string;
  v_endpoint : string;
  v_comet_address : string;
  v_node_type : string;
  v_spid : string;
  v_voting_power : Z;
  v_status : string;
  v_registered_at : Z;
  v_deregistered_at : option Z;
  v_created_at : Z;
  v_updated_at : Z
}.

Record proof_row := mkProofRow {
  sp_height : Z;
  sp_address : string;
  sp_prover_addresses : list string;
  sp_cid : string;
  sp_proof_signature : option string;
  sp_proof : option string;
  sp_status : string;
  sp_block_height : Z;
  sp_tx_hash : string;
  sp_created_at : Z
}.

Record verification_row := mkVerificationRow {
  pv_height : Z;
  pv_proof : string;
  pv_block_height : Z;
  pv_tx_hash : string;
  pv_created_at : Z
}.

(** The columns bps and tps, two floating-point rates for display, are left out. *)
Record sla_row := mkSlaRow {
  sla_id : Z;
  sla_block_start : Z;
  sla_block_end : Z;
  sla_block_height : Z;
  sla_validator_count : Z;
  sla_block_quota : Z;
  sla_tx_hash : string;
  sla_created_at : Z
}.

Record node_report_row := mkNodeReportRow {
  nr_sla_rollup_id : Z;
  nr_address : string;
  nr_num_blocks_proposed : Z;
  nr_challenges_received : Z;
  nr_challenges_failed : Z;
  nr_block_height : Z;
  nr_tx_hash : string;
  nr_created_at : Z
}.

Record chain_db := mkChainDb {
  etl_addresses : list (string * Z * Z);
  etl_blocks : list (string * Z * Z);
  blocks : list block_row;
  core_indexed_blocks : gmap (string * Z) (string * option Z);
  etl_transactions : list tx_row;
  etl_manage_entities : list me_row;
  etl_plays : list play_row;
  etl_validator_registrations : list vreg_row;
  etl_validator_deregistrations : list vdereg_row;
  etl_misbehavior_deregistrations : list vdereg_row;
  etl_validators : list validator_row;
  etl_storage_proofs : list proof_row;
  etl_storage_proof_verifications : list verification_row;
  etl_sla_rollups : list sla_row;
  etl_sla_node_reports : list node_report_row
}.

Definition set_etl_addresses (x : list (string * Z * Z)) (d : chain_db) : chain_db :=
  mkChainDb x (etl_blocks d) (blocks d) (core_indexed_blocks d) (etl_transactions d) (etl_manage_entities d) (etl_plays d) (etl_validator_registrations d) (etl_validator_deregistrations d) (etl_misbehavior_deregistrations d) (etl_validators d) (etl_storage_proofs d) (etl_storage_proof_verifications d) (etl_sla_rollups d) (etl_sla_node_reports d).
Definition set_etl_blocks (x : list (string * Z * Z)) (d : chain_db) : chain_db :=
  mkChainDb (etl_addresses d) x (blocks d) (core_indexed_blocks d) (etl_transactions d) (etl_manage_entities d) (etl_plays d) (etl_validator_registrations d) (etl_validator_deregistrations d) (etl_misbehavior_deregistrations d) (etl_validators d) (etl_storage_proofs d) (etl_storage_proof_verifications d) (etl_sla_rollups d) (etl_sla_node_reports d).
Definition set_blocks (x : list block_row) (d : chain_db) : chain_db :=
  mkChainDb (etl_addresses d) (etl_blocks d) x (core_indexed_blocks d) (etl_transactions d) (etl_manage_entities d) (etl_plays d) (etl_validator_registrations d) (etl_validator_deregistrations d) (etl_misbehavior_deregistrations d) (etl_validators d) (etl_storage_proofs d) (etl_storage_proof_verifications d) (etl_sla_rollups d) (etl_sla_node_reports d).
Definition set_core_indexed_blocks (x : gmap (string * Z) (string * option Z)) (d : chain_db) : chain_db :=
  mkChainDb (etl_addresses d) (etl_blocks d) (blocks d) x (etl_transactions d) (etl_manage_entities d) (etl_plays d) (etl_validator_registrations d) (etl_validator_deregistrations d) (etl_misbehavior_deregistrations d) (etl_validators d) (etl_storage_proofs d) (etl_storage_proof_verifications d) (etl_sla_rollups d) (etl_sla_node_reports d).
Definition set_etl_transactions (x : list tx_row) (d : chain_db) : chain_db :=
  mkChainDb (etl_addresses d) (etl_blocks d) (blocks d) (core_indexed_blocks d) x (etl_manage_entities d) (etl_plays d) (etl_validator_registrations d) (etl_validator_deregistrations d) (etl_misbehavior_deregistrations d) (etl_validators d) (etl_storage_proofs d) (etl_storage_proof_verifications d) (etl_sla_rollups d) (etl_sla_node_reports d).
Definition set_etl_manage_entities (x : list me_row) (d : chain_db) : chain_db :=
  mkChainDb (etl_addresses d) (etl_blocks d) (blocks d) (core_indexed_blocks d) (etl_transactions d) x (etl_plays d) (etl_validator_registrations d) (etl_validator_deregistrations d) (etl_misbehavior_deregistrations d) (etl_validators d) (etl_storage_proofs d) (etl_storage_proof_verifications d) (etl_sla_rollups d) (etl_sla_node_reports d).
Definition set_etl_plays (x : list play_row) (d : chain_db) : chain_db :=
  mkChainDb (etl_addresses d) (etl_blocks d) (blocks d) (core_indexed_blocks d) (etl_transactions d) (etl_manage_entities d) x (etl_validator_registrations d) (etl_validator_deregistrations d) (etl_misbehavior_deregistrations d) (etl_validators d) (etl_storage_proofs d) (etl_storage_proof_verifications d) (etl_sla_rollups d) (etl_sla_node_reports d).
Definition set_etl_validator_registrations (x : list vreg_row) (d : chain_db) : chain_db :=
  mkChainDb (etl_addresses d) (etl_blocks d) (blocks d) (core_indexed_blocks d) (etl_transactions d) (etl_manage_entities d) (etl_plays d) x (etl_validator_deregistrations d) (etl_misbehavior_deregistrations d) (etl_validators d) (etl_storage_proofs d) (etl_storage_proof_verifications d) (etl_sla_rollups d) (etl_sla_node_reports d).
Definition set_etl_validator_deregistrations (x : list vdereg_row) (d : chain_db) : chain_db :=
  mkChainDb (etl_addresses d) (etl_blocks d) (blocks d) (core_indexed_blocks d) (etl_transactions d) (etl_manage_entities d) (etl_plays d) (etl_validator_registrations d) x (etl_misbehavior_deregistrations d) (etl_validators d) (etl_storage_proofs d) (etl_storage_proof_verifications d) (etl_sla_rollups d) (etl_sla_node_reports d).
Definition set_etl_misbehavior_deregistrations (x : list vdereg_row) (d : chain_db) : chain_db :=
  mkChainDb (etl_addresses d) (etl_blocks d) (blocks d) (core_indexed_blocks d) (etl_transactions d) (etl_manage_entities d) (etl_plays d) (etl_validator_registrations d) (etl_validator_deregistrations d) x (etl_validators d) (etl_storage_proofs d) (etl_storage_proof_verifications d) (etl_sla_rollups d) (etl_sla_node_reports d).
Definition set_etl_validators (x : list validator_row) (d : chain_db) : chain_db :=
  mkChainDb (etl_addresses d) (etl_blocks d) (blocks d) (core_indexed_blocks d) (etl_transactions d) (etl_manage_entities d) (etl_plays d) (etl_validator_registrations d) (etl_validator_deregistrations d) (etl_misbehavior_deregistrations d) x (etl_storage_proofs d) (etl_storage_proof_verifications d) (etl_sla_rollups d) (etl_sla_node_reports d).
Definition set_etl_storage_proofs (x : list proof_row) (d : chain_db) : chain_db :=
  mkChainDb (etl_addresses d) (etl_blocks d) (blocks d) (core_indexed_blocks d) (etl_transactions d) (etl_manage_entities d) (etl_plays d) (etl_validator_registrations d) (etl_validator_deregistrations d) (etl_misbehavior_deregistrations d) (etl_validators d) x (etl_storage_proof_verifications d) (etl_sla_rollups d) (etl_sla_node_reports d).
Definition set_etl_storage_proof_verifications (x : list verification_row) (d : chain_db) : chain_db :=
  mkChainDb (etl_addresses d) (etl_blocks d) (blocks d) (core_indexed_blocks d) (etl_transactions d) (etl_manage_entities d) (etl_plays d) (etl_validator_registrations d) (etl_validator_deregistrations d) (etl_misbehavior_deregistrations d) (etl_validators d) (etl_storage_proofs d) x (etl_sla_rollups d) (etl_sla_node_reports d).
Definition set_etl_sla_rollups (x : list sla_row) (d : chain_db) : chain_db :=
  mkChainDb (etl_addresses d) (etl_blocks d) (blocks d) (core_indexed_blocks d) (etl_transactions d) (etl_manage_entities d) (etl_plays d) (etl_validator_registrations d) (etl_validator_deregistrations d) (etl_misbehavior_deregistrations d) (etl_validators d) (etl_storage_proofs d) (etl_storage_proof_verifications d) x (etl_sla_node_reports d).
Definition set_etl_sla_node_reports (x : list node_report_row) (d : chain_db) : chain_db :=
  mkChainDb (etl_addresses d) (etl_blocks d) (blocks d) (core_indexed_blocks d) (etl_transactions d) (etl_manage_entities d) (etl_plays d) (etl_validator_registrations d) (etl_validator_deregistrations d) (etl_misbehavior_deregistrations d) (etl_validators d) (etl_storage_proofs d) (etl_storage_proof_verifications d) (etl_sla_rollups d) x.

Record etl_db := mkEtlDb { em : em_db; chain : chain_db }.
Definition on_em (f : em_db -> em_db) (d : etl_db) : etl_db := mkEtlDb (f (em d)) (chain d).
Definition on_chain (f : chain_db -> chain_db) (d : etl_db) : etl_db := mkEtlDb (em d) (f (chain d)).

(** ** Transactions *)

(** A statement fails before it is sent, or at the server. *)
Inductive sql_failure := Refused | Failed.

(** What the database does, by statement: whether the statement fails, and the row a
    SELECT with LIMIT 1 and no ORDER BY returns; and what the process remembers of an
    earlier look for the table aggregate_plays. *)
Class EtlSql := {
  sql_fault : nat -> option sql_failure;
  sql_choose : nat -> nat;
  play_count_cache : option bool
}.

(** The transaction's view of the database, whether it is aborted, and how many
    statements it has run. *)
Record conn := mkConn { c_db : etl_db; c_aborted : bool; c_clock : nat }.

Section Statements.
Context {E : EtlSql}.

Definition statement {A} (run : etl_db -> etl_db * bool * res etl_error A) : proc conn etl_error A := fun c =>
  let next := S (c_clock c) in
  if c_aborted c then (mkConn (c_db c) true next, Err ErrSql)
  else match sql_fault (c_clock c) with
       | Some Refused => (mkConn (c_db c) false next, Err ErrSql)
       | Some Failed => (mkConn (c_db c) true next, Err ErrSql)
       | None => match run (c_db c) with (d, ab, r) => (mkConn d ab next, r) end
       end.

(** A query for one value. *)
Definition ask {A} (f : etl_db -> A) : proc conn etl_error A :=
  statement (fun d => (d, false, Ok (f d))).

(** The one row of LIMIT 1 among those that match. *)
Definition pick {A} (n : nat) (rows : list A) : option A := rows !! (sql_choose n `mod` length rows)%nat.

Definition ask_row {A} (f : etl_db -> list A) : proc conn etl_error A := fun c =>
  statement (fun d => (d, false, match pick (c_clock c) (f d) with Some r => Ok r | None => Err ErrNoRows end)) c.

(** A change; [None] when a constraint refuses it, which aborts the transaction. *)
Definition exec (f : etl_db -> option etl_db) : proc conn etl_error unit :=
  statement (fun d => match f d with Some d' => (d', false, Ok tt) | None => (d, true, Err ErrSql) end).

Definition exec_em (f : em_db -> option em_db) : proc conn etl_error unit :=
  exec (fun d => e ← f (em d); Some (mkEtlDb e (chain d))).
Definition exec_chain (f : chain_db -> option chain_db) : proc conn etl_error unit :=
  exec (fun d => c ← f (chain d); Some (mkEtlDb (em d) c)).

(** The error is dropped, with what the code falls back to. *)
Definition ignore {A} (dflt : A) (m : proc conn etl_error A) : proc conn etl_error A := fun c =>
  match m c with (c', Ok a) => (c', Ok a) | (c', Err _) => (c', Ok dflt) end.

(** A check that does not touch the database. *)
Definition check {A} (r : res etl_error A) : proc conn etl_error A := fun c => (c, r).
Definition reject {A} (msg : string) : proc conn etl_error A := check (invalid msg).
Definition reject_when (cond : bool) (msg : string) : proc conn etl_error unit := check (invalid_if cond msg).
End Statements.

(** ** Constraints *)

(** INSERT into a table with a primary key. *)
Definition insert_key {R K} `{EqDecision K} (key : R -> K) (r : R) (t : list R) : option (list R) :=
  if bool_decide (key r ∈ map key t) then None else Some (t ++ [r])%list.

(** INSERT ... ON CONFLICT (key) DO NOTHING. *)
Definition insert_ignore {R K} `{EqDecision K} (key : R -> K) (r : R) (t : list R) : list R :=
  if bool_decide (key r ∈ map key t) then t else (t ++ [r])%list.

(** INSERT ... ON CONFLICT (key) DO UPDATE. *)
Definition upsert {R} (same : R -> bool) (update : R -> R) (r : R) (t : list R) : list R :=
  if existsb same t then map (fun x => if same x then update x else x) t else (t ++ [r])%list.

(** UPDATE ... WHERE, refused when a primary key would repeat. *)
Definition update_where {R} (cond : R -> bool) (f : R -> R) (t : list R) : list R :=
  map (fun x => if cond x then f x else x) t.
Definition update_key {R K} `{EqDecision K} (key : R -> K) (cond : R -> bool) (f : R -> R) (t : list R) : option (list R) :=
  let t' := update_where cond f t in
  if bool_decide (NoDup (map key t')) then Some t' else None.
