(* ===== verification/EtlAccounts.v ===== *)
(** * The indexer: accounts and who may act for them

    Models pkg/etl/processors/entity_manager/{validate.go (signers), user_create.go,
    user_update.go, user_verify.go, grant_create.go, grant_revoke.go,
    developer_app_create.go, developer_app_update.go, developer_app_delete.go,
    oauth_redirect_uris.go, muted_user.go} and the account handlers of migration.go. *)

From stdpp Require Import base gmap strings list.
From Stdlib Require Import ZArith Lia.
From S2P Require Import Prelude AuthState EtlBase EtlDb.

Open Scope string_scope.
Open Scope Z_scope.

Section Accounts.
Context {J : EtlLibs} {E : EtlSql}.
Implicit Types (p : Params) (uid : Z).

(** ** Queries *)

Definition current_user uid (u : user_row) : bool := (u_user_id u =? uid) && u_is_current u.
Definition wallet_is (wallet : string) (u : user_row) : bool := bool_decide (u_wallet u = Some wallet).

Definition userExists uid : proc conn etl_error bool :=
  ask (fun d => existsb (current_user uid) (users (em d))).

Definition walletExists (wallet : string) : proc conn etl_error bool :=
  ask (fun d => existsb (wallet_is (ToLower wallet)) (users (em d))).

Definition active_wallet (wallet : string) (u : user_row) : bool :=
  wallet_is wallet u && u_is_current u && negb (u_is_deactivated u).

Definition activeUserWalletExists (wallet : string) : proc conn etl_error bool :=
  ask (fun d => existsb (active_wallet (ToLower wallet)) (users (em d))).

Definition handleExists (handleLC : string) : proc conn etl_error bool :=
  ask (fun d => existsb (fun u => bool_decide (u_handle_lc u = Some handleLC) && u_is_current u) (users (em d))).

Definition undeleted_app (address : string) (a : app_row) : bool :=
  String.eqb (a_address a) address && negb (a_is_delete a).

Definition developerAppExists (address : string) : proc conn etl_error bool :=
  ask (fun d => existsb (undeleted_app (ToLower address)) (developer_apps (em d))).

Definition current_grant (granteeAddress : string) uid (g : grant_row) : bool :=
  String.eqb (g_grantee_address g) granteeAddress && (g_user_id g =? uid) && g_is_current g.

Definition getActiveGrant (granteeAddress : string) uid : proc conn etl_error grant_row :=
  ask_row (fun d => List.filter (current_grant granteeAddress uid) (grants (em d))).

Definition activeGrantExists (granteeAddress : string) uid : proc conn etl_error bool :=
  ask (fun d => existsb (fun g => current_grant granteeAddress uid g && negb (g_is_revoked g)) (grants (em d))).

(** Every error, a NULL wallet included, is reported as the empty wallet. *)
Definition getUserWallet uid : proc conn etl_error string :=
  ignore "" (let! w := ask_row (fun d => u_wallet <$> List.filter (current_user uid) (users (em d))) in
             match w with Some w => pret w | None => pfail ErrSql end).

Definition activeUserIDByWallet (wallet : string) : proc conn etl_error (option Z) := fun c =>
  match ask_row (fun d => u_user_id <$> List.filter (active_wallet (ToLower wallet)) (users (em d))) c with
  | (c', Ok uid) => (c', Ok (Some uid))
  | (c', Err ErrNoRows) => (c', Ok None)
  | (c', Err e) => (c', Err e)
  end.

(** pgx.ErrNoRows turned into a rejection. *)
Definition no_rows {A} (msg : string) (m : proc conn etl_error A) : proc conn etl_error A := fun c =>
  match m c with
  | (c', Err ErrNoRows) => (c', Err (EtlValidation msg))
  | r => r
  end.

(** Any error turned into a rejection. *)
Definition or_reject {A} (msg : string) (m : proc conn etl_error A) : proc conn etl_error A := fun c =>
  match m c with
  | (c', Err _) => (c', Err (EtlValidation msg))
  | r => r
  end.

(** ** Signers *)

Definition validateSignerForUser p uid : proc conn etl_error unit :=
  let! wallet := getUserWallet uid in
  reject_when (String.eqb wallet "") "user does not exist" ;;!
  if EqualFold wallet (p_Signer p) then pret tt
  else
    let signer := ToLower (p_Signer p) in
    let! grant := no_rows "signer is not authorized for user" (getActiveGrant signer uid) in
    reject_when (g_is_revoked grant) "signer grant for user is revoked" ;;!
    let! isApp := developerAppExists signer in
    let! isUser := activeUserWalletExists signer in
    reject_when (negb isApp && negb isUser) "signer is no longer a valid developer app or active user" ;;!
    let approved := isApp || default false (g_is_approved grant) in
    reject_when (negb approved) "signer grant for user is not approved".

Definition ValidateSigner p : proc conn etl_error unit := validateSignerForUser p (p_UserID p).

(** ** Users *)

(** The text columns a profile edit may set. *)
Definition profile_columns : list string :=
  [ "name"; "bio"; "location"; "profile_picture"; "profile_picture_sizes"; "cover_photo";
    "cover_photo_sizes"; "twitter_handle"; "instagram_handle"; "tiktok_handle"; "website";
    "donation"; "spl_usdc_payout_wallet"; "coin_flair_mint" ].

Definition put_text (column : string) (v : option string) (t : gmap string string) : gmap string string :=
  match v with Some v => <[column := v]> t | None => delete column t end.

Definition isKnownProfileType (v : string) : bool := String.eqb v "label".

(** userState, less the two text columns, which are read with the others. *)
Record userState := mkUserState {
  us_IsVerified : bool;
  us_IsDeactivated : bool;
  us_IsAvailable : bool;
  us_PlaylistLibrary : option string;
  us_ArtistPickTrackID : option Z;
  us_AllowAIAttribution : bool;
  us_ProfileType : option string
}.

Definition meta_library p : option string :=
  match MetadataJSON p "playlist_library" with
  | None | Some JNull => None
  | Some v => Some (json_marshal v)
  end.

Definition meta_profile_type p : option string :=
  let v := MetadataString p "profile_type" in
  if isKnownProfileType v then Some v else None.

Definition users_conflict (r x : user_row) : bool :=
  (u_user_id x =? u_user_id r) && (u_is_current x || String.eqb (u_txhash x) (u_txhash r)).

Definition insertUserWithState p (state : userState) : proc conn etl_error unit :=
  let handle := MetadataString p "handle" in
  let text := foldl (fun t c => put_text c (nullString (MetadataString p c)) t) ∅ profile_columns in
  let row := mkUserRow (p_UserID p) (nullString handle) (ToLower <$> nullString handle) (Some (ToLower (p_Signer p)))
    text (us_PlaylistLibrary state) (us_ArtistPickTrackID state) (us_AllowAIAttribution state) (us_ProfileType state)
    true (us_IsVerified state) (us_IsDeactivated state) (us_IsAvailable state) false false false
    (p_BlockTime p) (p_BlockTime p) (p_TxHash p) (p_BlockHash p) (p_BlockNumber p) in
  exec_em (fun d => Some (set_users (if existsb (users_conflict row) (users d) then users d else (users d ++ [row])%list) d)).

Definition insertUser p : proc conn etl_error unit :=
  insertUserWithState p (mkUserState false false true (meta_library p) None
    (MetadataBoolOr p "allow_ai_attribution" false) (meta_profile_type p)).


Definition validate_meta_handle p : res etl_error unit :=
  let handle := MetadataString p "handle" in
  if String.eqb handle "" then Ok tt else ValidateHandle handle.

Definition validateUserCreate p : proc conn etl_error unit :=
  reject_when (negb (String.eqb (p_EntityType p) EntityTypeUser)) "wrong entity type" ;;!
  reject_when (p_UserID p <? UserIDOffset) "user id below offset" ;;!
  check (ValidateBio (MetadataString p "bio")) ;;!
  check (validate_meta_handle p) ;;!
  check (ValidateUserName (MetadataString p "name")) ;;!
  let! exists_ := userExists (p_UserID p) in
  reject_when exists_ "user already exists" ;;!
  let! walletUsed := walletExists (p_Signer p) in
  reject_when walletUsed "wallet already in use" ;;!
  let! isDeveloperApp := developerAppExists (p_Signer p) in
  reject_when isDeveloperApp "developer app cannot create user" ;;!
  let handle := MetadataString p "handle" in
  if String.eqb handle "" then pret tt
  else
    let! handleTaken := handleExists (ToLower handle) in
    reject_when handleTaken "handle already exists".

Definition userCreate p : proc conn etl_error unit := validateUserCreate p ;;! insertUser p.

(** A migrated create collapses the account's history into one transaction. *)
Definition migratedUserCreate p : proc conn etl_error unit :=
  reject_when (negb (String.eqb (p_EntityType p) EntityTypeUser)) "wrong entity type" ;;!
  let! exists_ := userExists (p_UserID p) in
  reject_when exists_ "user already exists" ;;!
  insertUserWithState p (mkUserState (MetadataBoolOr p "is_verified" false) (MetadataBoolOr p "is_deactivated" false)
    (MetadataBoolOr p "is_available" true) (meta_library p) (MetadataInt64 p "artist_pick_track_id")
    (MetadataBoolOr p "allow_ai_attribution" false) (meta_profile_type p)).

Definition getUserHandle uid : proc conn etl_error string := fun c =>
  match ask_row (fun d => u_handle_lc <$> List.filter (current_user uid) (users (em d))) c with
  | (c', Ok h) => (c', Ok (default "" h))
  | (c', Err ErrNoRows) => (c', Ok "")
  | (c', Err e) => (c', Err e)
  end.

Definition trackExistsAndOwnedBy (trackID ownerID : Z) : proc conn etl_error bool :=
  ask (fun d => existsb (fun t => (t_track_id t =? trackID) && (t_owner_id t =? ownerID) &&
                                  t_is_current t && negb (t_is_delete t)) (tracks (em d))).

Definition validateUserUpdate p : proc conn etl_error unit :=
  reject_when (negb (String.eqb (p_EntityType p) EntityTypeUser)) "wrong entity type" ;;!
  reject_when (negb (String.eqb (p_Action p) EtlActionUpdate)) "wrong action" ;;!
  check (ValidateBio (MetadataString p "bio")) ;;!
  check (ValidateUserName (MetadataString p "name")) ;;!
  check (validate_meta_handle p) ;;!
  ValidateSigner p ;;!
  let! exists_ := userExists (p_UserID p) in
  reject_when (negb exists_) "user does not exist" ;;!
  let handle := MetadataString p "handle" in
  if String.eqb handle "" then pret tt
  else
    let! existingHandle := getUserHandle (p_UserID p) in
    let newHandleLC := ToLower handle in
    if String.eqb existingHandle newHandleLC then pret tt
    else
      let! handleTaken := handleExists newHandleLC in
      reject_when handleTaken "handle already exists".

(** The empty string means no change. *)
Definition mergeNullStr p (key : string) (existing : option string) : option string :=
  match MetadataJSON p key with
  | None => existing
  | Some _ =>
      let s := MetadataString p key in
      if String.eqb s "" then existing else Some s
  end.

Definition getCurrentUser uid : proc conn etl_error user_row :=
  ask_row (fun d => List.filter (current_user uid) (users (em d))).

Definition resolveArtistPick p (existing : option Z) : proc conn etl_error (option Z) :=
  let pick :=
    match MetadataJSON p "artist_pick_track_id" with
    | None => existing
    | Some JNull => None
    | Some _ =>
        match MetadataInt64 p "artist_pick_track_id" with
        | Some trackID => if trackID =? 0 then None else Some trackID
        | None => existing
        end
    end in
  match pick with
  | None => pret None
  | Some trackID =>
      let! owned := trackExistsAndOwnedBy trackID (p_UserID p) in
      pret (if owned then Some trackID else None)
  end.

(** users_pkey is on (user_id, txhash). *)
Definition users_key (u : user_row) : Z * string := (u_user_id u, u_txhash u).

Definition update_users uid (f : user_row -> user_row) : proc conn etl_error unit :=
  exec_em (fun d => t ← update_key users_key (current_user uid) f (users d); Some (set_users t d)).

Definition updateUser p : proc conn etl_error unit :=
  let! existing := getCurrentUser (p_UserID p) in
  let handle := mergeNullStr p "handle" (u_handle existing) in
  let handleLC := match handle with Some h => Some (ToLower h) | None => u_handle_lc existing end in
  let text := foldl (fun t c => put_text c (mergeNullStr p c (u_text existing !! c)) t) (u_text existing) profile_columns in
  let profileType := match meta_profile_type p with Some v => Some v | None => u_profile_type existing end in
  let! artistPickTrackID := resolveArtistPick p (u_artist_pick_track_id existing) in
  let allowAIAttribution := MetadataBoolOr p "allow_ai_attribution" (u_allow_ai_attribution existing) in
  let isDeactivated := MetadataBoolOr p "is_deactivated" (u_is_deactivated existing) in
  let playlistLibrary := match meta_library p with Some l => Some l | None => u_playlist_library existing end in
  update_users (p_UserID p) (fun u =>
    mkUserRow (u_user_id u) handle handleLC (u_wallet u) text playlistLibrary artistPickTrackID allowAIAttribution
      profileType (u_is_current u) (u_is_verified u) isDeactivated (u_is_available u) (u_verified_with_twitter u)
      (u_verified_with_instagram u) (u_verified_with_tiktok u) (u_created_at u) (p_BlockTime p) (p_TxHash p)
      (u_blockhash u) (p_BlockNumber p)).

Definition userUpdate p : proc conn etl_error unit := validateUserUpdate p ;;! updateUser p.

Definition VerifiedAddress : string := "0xbeef8E42e8B5964fDD2b7ca8efA0d9aef38AA996".

Definition validateUserVerify p : proc conn etl_error unit :=
  reject_when (negb (String.eqb (p_EntityType p) EntityTypeUser)) "wrong entity type" ;;!
  reject_when (negb (String.eqb (p_Action p) ActionVerify)) "wrong action" ;;!
  let! exists_ := userExists (p_UserID p) in
  reject_when (negb exists_) "user does not exist" ;;!
  reject_when (negb (String.eqb VerifiedAddress "") && negb (EqualFold (p_Signer p) VerifiedAddress))
    "signer does not match verified address".

Definition verifyUser p : proc conn etl_error unit :=
  let! existing := getCurrentUser (p_UserID p) in
  let isVerified := u_is_verified existing || MetadataBoolOr p "is_verified" false in
  let merged c := mergeNullStr p c (u_text existing !! c) in
  let verified_with c already := already || isVerified && bool_decide (is_Some (merged c)) in
  update_users (p_UserID p) (fun u =>
    mkUserRow (u_user_id u) (u_handle u) (u_handle_lc u) (u_wallet u)
      (foldl (fun t c => put_text c (merged c) t) (u_text u) ["twitter_handle"; "instagram_handle"; "tiktok_handle"])
      (u_playlist_library u) (u_artist_pick_track_id u) (u_allow_ai_attribution u) (u_profile_type u)
      (u_is_current u) isVerified (u_is_deactivated u) (u_is_available u)
      (verified_with "twitter_handle" (u_verified_with_twitter existing))
      (verified_with "instagram_handle" (u_verified_with_instagram existing))
      (verified_with "tiktok_handle" (u_verified_with_tiktok existing))
      (u_created_at u) (p_BlockTime p) (p_TxHash p) (u_blockhash u) (p_BlockNumber p)).

Definition userVerify p : proc conn etl_error unit := validateUserVerify p ;;! verifyUser p.

(** ** Grants *)

(** grants_pkey is on (grantee_address, user_id, txhash). *)
Definition grants_key (g : grant_row) : string * Z * string := (g_grantee_address g, g_user_id g, g_txhash g).

Definition insert_grant (row : grant_row) : proc conn etl_error unit :=
  exec_em (fun d => t ← insert_key grants_key row (grants d); Some (set_grants t d)).

Definition grantee p : string := ToLower (MetadataString p "grantee_address").

Definition validateGrantCreate p : proc conn etl_error unit :=
  ValidateSigner p ;;!
  reject_when (String.eqb (grantee p) "") "grantee_address is required for grant creation" ;;!
  let! isApp := developerAppExists (grantee p) in
  let! isUser := walletExists (grantee p) in
  reject_when (negb isApp && negb isUser) "grantee is not a developer app or user wallet" ;;!
  let! active := activeGrantExists (grantee p) (p_UserID p) in
  reject_when active "active grant already exists".

(** grantState is (IsRevoked, IsApproved). *)
Definition insertGrantWithState p (isRevoked : bool) (stateApproved : option bool) : proc conn etl_error unit :=
  let! isApproved :=
    match stateApproved with
    | Some a => pret (Some a)
    | None =>
        let! isApp := ignore false (developerAppExists (grantee p)) in
        pret (if isApp then Some true else None)
    end in
  insert_grant (mkGrantRow (grantee p) (p_UserID p) isRevoked true isApproved (p_BlockTime p) (p_BlockTime p)
    (p_TxHash p) (p_BlockNumber p)).

Definition insertGrant p : proc conn etl_error unit := insertGrantWithState p false None.
Definition grantCreate p : proc conn etl_error unit := validateGrantCreate p ;;! insertGrant p.
Definition migratedGrantCreate p : proc conn etl_error unit :=
  insertGrantWithState p (MetadataBoolOr p "is_revoked" false) (MetadataBool p "is_approved").

Definition set_current_grant (b : bool) (g : grant_row) : grant_row :=
  mkGrantRow (g_grantee_address g) (g_user_id g) (g_is_revoked g) b (g_is_approved g) (g_created_at g)
    (g_updated_at g) (g_txhash g) (g_blocknumber g).

Definition setGrantRevoked (granteeAddress : string) uid (isApproved : option bool) (isRevoked : bool)
    (blockTime : Z) (txHash : string) (blockNumber : Z) : proc conn etl_error unit :=
  let! grant := getActiveGrant granteeAddress uid in
  exec_em (fun d => Some (set_grants (update_where (current_grant granteeAddress uid) (set_current_grant false) (grants d)) d)) ;;!
  let approved := match isApproved with Some a => Some a | None => g_is_approved grant end in
  insert_grant (mkGrantRow granteeAddress uid isRevoked true approved (g_created_at grant) blockTime txHash blockNumber).

(** [err == nil]. *)
Definition succeeds (m : proc conn etl_error unit) : proc conn etl_error bool :=
  ignore false (m ;;! pret true).

Definition validateGrantDelete p : proc conn etl_error unit :=
  reject_when (String.eqb (grantee p) "") "grantee_address is required for grant revoke" ;;!
  let! active := activeGrantExists (grantee p) (p_UserID p) in
  reject_when (negb active) "no active grant" ;;!
  let! grantor := succeeds (ValidateSigner p) in
  if grantor then pret tt
  else
    let! granteeUserID := activeUserIDByWallet (grantee p) in
    match granteeUserID with
    | None => reject "signer is not authorized to revoke the grant"
    | Some granteeUserID =>
        let! ok := succeeds (validateSignerForUser p granteeUserID) in
        if ok then pret tt else reject "signer is not authorized to revoke the grant"
    end.

Definition revokeGrant p : proc conn etl_error unit :=
  setGrantRevoked (grantee p) (p_UserID p) None true (p_BlockTime p) (p_TxHash p) (p_BlockNumber p).

Definition grantDelete p : proc conn etl_error unit := validateGrantDelete p ;;! revokeGrant p.

(** validateGrantApprove and validateGrantReject differ only in their messages. *)
Definition validateGrantDecision p : proc conn etl_error unit :=
  ValidateSigner p ;;!
  reject_when (String.eqb (grantee p) "") "grantee_address is required" ;;!
  match MetadataInt64 p "grantor_user_id" with
  | None => reject "grantor_user_id is required"
  | Some grantor =>
      let! grant := or_reject "grant not found" (getActiveGrant (grantee p) grantor) in
      reject_when (g_is_revoked grant) "grant is already revoked" ;;!
      reject_when (default false (g_is_approved grant)) "grant is already approved"
  end.

Definition grantor p : Z := default 0 (MetadataInt64 p "grantor_user_id").

Definition approveGrant p : proc conn etl_error unit :=
  setGrantRevoked (grantee p) (grantor p) (Some true) false (p_BlockTime p) (p_TxHash p) (p_BlockNumber p).
Definition rejectGrant p : proc conn etl_error unit :=
  setGrantRevoked (grantee p) (grantor p) (Some false) true (p_BlockTime p) (p_TxHash p) (p_BlockNumber p).

Definition grantApprove p : proc conn etl_error unit := validateGrantDecision p ;;! approveGrant p.
Definition grantReject p : proc conn etl_error unit := validateGrantDecision p ;;! rejectGrant p.

(** ** Developer apps *)

(** developer_apps_pkey is on (address, txhash). *)
Definition apps_key (a : app_row) : string * string := (a_address a, a_txhash a).

Definition insert_app (row : app_row) : proc conn etl_error unit :=
  exec_em (fun d => t ← insert_key apps_key row (developer_apps d); Some (set_developer_apps t d)).

Definition address p : string := ToLower (MetadataString p "address").

Definition validate_app_metadata p : proc conn etl_error unit :=
  reject_when (bool_decide (p_Metadata p = None)) "metadata is required" ;;!
  let name := MetadataString p "name" in
  reject_when (String.eqb name "") "name is required for developer app" ;;!
  reject_when (CharacterLimitAppName <? RuneCountInString name) "name exceeds character limit" ;;!
  let desc := MetadataString p "description" in
  if String.eqb desc "" then pret tt
  else reject_when (CharacterLimitAppDescription <? RuneCountInString desc) "description exceeds character limit".

Definition validateDeveloperAppCreate p : proc conn etl_error unit :=
  validate_app_metadata p ;;!
  ValidateSigner p ;;!
  reject_when (String.eqb (address p) "") "address is required for developer app" ;;!
  let! exists_ := developerAppExists (address p) in
  reject_when exists_ "developer app already exists" ;;!
  let! walletUsed := walletExists (address p) in
  reject_when walletUsed "address is already a user wallet".

Definition replaceRedirectURIs (clientID : string) (uris : list string) : proc conn etl_error unit :=
  exec_em (fun d => Some (set_oauth_redirect_uris
    (List.filter (fun r => negb (String.eqb r.1 clientID)) (oauth_redirect_uris d)) d)) ;;!
  for_each (fun uri => exec_em (fun d =>
    Some (set_oauth_redirect_uris (oauth_redirect_uris d ++ [(clientID, uri)])%list d))) uris.

Definition insertDeveloperAppWithState p (isDelete : bool) : proc conn etl_error unit :=
  insert_app (mkAppRow (address p) (p_UserID p) (MetadataString p "name") (nullString (MetadataString p "description"))
    (nullString (validatedAppImageURL p)) (MetadataBoolOr p "is_personal_access" false) true isDelete
    (p_BlockTime p) (p_BlockTime p) (p_TxHash p) (p_BlockNumber p)) ;;!
  match extractRedirectURIs p with
  | Some ((_ :: _) as uris) => replaceRedirectURIs (address p) uris
  | _ => pret tt
  end.

Definition insertDeveloperApp p : proc conn etl_error unit := insertDeveloperAppWithState p false.
Definition developerAppCreate p : proc conn etl_error unit := validateDeveloperAppCreate p ;;! insertDeveloperApp p.
Definition migratedDeveloperAppCreate p : proc conn etl_error unit :=
  insertDeveloperAppWithState p (MetadataBoolOr p "is_delete" false).

Definition getDeveloperAppOwner (addr : string) : proc conn etl_error Z :=
  ask_row (fun d => a_user_id <$> List.filter (undeleted_app addr) (developer_apps (em d))).

(** The rows an ORDER BY created_at LIMIT 1 chooses from. *)
Definition oldest (rows : list app_row) : list app_row :=
  List.filter (fun a => forallb (fun b => a_created_at a <=? a_created_at b) rows) rows.

Definition app_at (addr : string) (a : app_row) : bool := String.eqb (a_address a) addr.

(** is_personal_access and created_at. *)
Definition getDeveloperAppDetails (addr : string) : proc conn etl_error (bool * Z) :=
  let! a := ask_row (fun d => oldest (List.filter (app_at addr) (developer_apps (em d)))) in
  pret (a_is_personal_access a, a_created_at a).

(** The checks validateDeveloperAppUpdate and validateDeveloperAppDelete share. *)
Definition validate_app_owner p : proc conn etl_error unit :=
  ValidateSigner p ;;!
  reject_when (String.eqb (address p) "") "address is required" ;;!
  let! exists_ := developerAppExists (address p) in
  reject_when (negb exists_) "developer app does not exist" ;;!
  let! ownerID := getDeveloperAppOwner (address p) in
  reject_when (negb (ownerID =? p_UserID p)) "developer app does not match user".

Definition validateDeveloperAppUpdate p : proc conn etl_error unit := validate_app_metadata p ;;! validate_app_owner p.
Definition validateDeveloperAppDelete p : proc conn etl_error unit := validate_app_owner p.

Definition set_current_app (b : bool) (a : app_row) : app_row :=
  mkAppRow (a_address a) (a_user_id a) (a_name a) (a_description a) (a_image_url a) (a_is_personal_access a)
    b (a_is_delete a) (a_created_at a) (a_updated_at a) (a_txhash a) (a_blocknumber a).

Definition demote_apps (addr : string) : proc conn etl_error unit :=
  exec_em (fun d => Some (set_developer_apps
    (update_where (fun a => app_at addr a && a_is_current a) (set_current_app false) (developer_apps d)) d)).

Definition updateDeveloperApp p : proc conn etl_error unit :=
  demote_apps (address p) ;;!
  let! details := getDeveloperAppDetails (address p) in
  insert_app (mkAppRow (address p) (p_UserID p) (MetadataString p "name") (nullString (MetadataString p "description"))
    (nullString (validatedAppImageURL p)) details.1 true false details.2 (p_BlockTime p) (p_TxHash p) (p_BlockNumber p)) ;;!
  match extractRedirectURIs p with
  | Some uris => replaceRedirectURIs (address p) uris
  | None => pret tt
  end.

Definition developerAppUpdate p : proc conn etl_error unit := validateDeveloperAppUpdate p ;;! updateDeveloperApp p.

Definition deleteDeveloperApp p : proc conn etl_error unit :=
  demote_apps (address p) ;;!
  let! details := getDeveloperAppDetails (address p) in
  insert_app (mkAppRow (address p) (p_UserID p) "" None None details.1 true true details.2 (p_BlockTime p)
    (p_TxHash p) (p_BlockNumber p)).

Definition developerAppDelete p : proc conn etl_error unit := validateDeveloperAppDelete p ;;! deleteDeveloperApp p.

(** ** Muted users *)

Definition same_mute uid (mutedUserID : Z) (m : muted_row) : bool :=
  (m_user_id m =? uid) && (m_muted_user_id m =? mutedUserID).

Definition mutedUserExists uid (mutedUserID : Z) : proc conn etl_error bool :=
  ask (fun d => existsb (fun m => same_mute uid mutedUserID m && negb (default false (m_is_delete m))) (muted_users (em d))).

Definition insertMutedUser p (isDelete : bool) : proc conn etl_error unit :=
  let row := mkMutedRow (p_EntityID p) (p_UserID p) (Some isDelete) (p_BlockTime p) (p_BlockTime p) (p_TxHash p)
               (p_BlockHash p) (p_BlockNumber p) in
  let update m := mkMutedRow (m_muted_user_id m) (m_user_id m) (Some isDelete) (m_created_at m) (p_BlockTime p)
                    (p_TxHash p) (p_BlockHash p) (p_BlockNumber p) in
  exec_em (fun d => Some (set_muted_users (upsert (same_mute (p_UserID p) (p_EntityID p)) update row (muted_users d)) d)).

Definition muteUser p : proc conn etl_error unit :=
  ValidateSigner p ;;!
  let! exists_ := userExists (p_EntityID p) in
  reject_when (negb exists_) "muted user does not exist" ;;!
  reject_when (p_UserID p =? p_EntityID p) "user cannot mute themselves" ;;!
  let! dup := mutedUserExists (p_UserID p) (p_EntityID p) in
  reject_when dup "user already muted" ;;!
  insertMutedUser p false.

Definition unmuteUser p : proc conn etl_error unit :=
  ValidateSigner p ;;!
  let! exists_ := mutedUserExists (p_UserID p) (p_EntityID p) in
  reject_when (negb exists_) "no active mute" ;;!
  insertMutedUser p true.
End Accounts.
