(* ===== verification/EtlSocial.v ===== *)
(** * The indexer: follows, saves, reposts, subscriptions and shares

    Models pkg/etl/processors/entity_manager/social_*.go and the social handlers of
    migration.go.  A follow, save, repost or subscription is one current row that is
    inserted the first time and updated in place afterwards; deleting it sets
    is_delete on the same row. *)

From stdpp Require Import base gmap strings list.
From Stdlib Require Import ZArith Lia.
From S2P Require Import Prelude AuthState EtlBase EtlDb EtlAccounts.

Open Scope string_scope.
Open Scope Z_scope.

(** ** Current rows *)

Section SocialTable.
Context {K X : Type} `{EqDecision K}.

Definition current_row (k : K) (r : social_row K X) : bool := bool_decide (s_key r = k) && s_is_current r.

(** DO UPDATE SET of everything but the identity. *)
Definition touch (isDelete : bool) (x : X) (p : Params) (r : social_row K X) : social_row K X :=
  mkSocialRow (s_key r) (s_is_current r) isDelete x (p_BlockTime p) (p_TxHash p) (p_BlockNumber p).

(** INSERT with the partial unique index on current rows as arbiter. *)
Definition upsert_current (k : K) (isDelete : bool) (x : X) (p : Params) (t : list (social_row K X)) :
    list (social_row K X) :=
  upsert (current_row k) (touch isDelete x p)
    (mkSocialRow k true isDelete x (p_BlockTime p) (p_TxHash p) (p_BlockNumber p)) t.

Definition active_row (k : K) (t : list (social_row K X)) : bool :=
  existsb (fun r => current_row k r && negb (s_is_delete r)) t.
End SocialTable.

Section Social.
Context {J : EtlLibs} {E : EtlSql}.
Implicit Types (p : Params).

(** ** Targets *)

Definition trackExists (trackID : Z) : proc conn etl_error bool :=
  ask (fun d => existsb (fun t => (t_track_id t =? trackID) && t_is_current t) (tracks (em d))).

Definition playlistExists (playlistID : Z) : proc conn etl_error bool :=
  ask (fun d => existsb (fun l => pl_playlist_id l =? playlistID) (playlists (em d))).

Definition eventExists (eventID : Z) : proc conn etl_error bool :=
  ask (fun d => existsb (fun e => (ev_event_id e =? eventID) && negb (ev_is_deleted e)) (events (em d))).

Definition saveTypeFromEntityType (entityType : string) : string :=
  let t := ToLower entityType in
  if String.eqb t "track" then "track"
  else if String.eqb t "playlist" || String.eqb t "album" then "playlist"
  else "".

Definition repostTypeFromEntityType (entityType : string) : string := saveTypeFromEntityType entityType.

(** A query that fails leaves the answer at false. *)
Definition inferSaveType (entityID : Z) : proc conn etl_error string :=
  let! isTrack := ignore false (ask (fun d => existsb (fun t => t_track_id t =? entityID) (tracks (em d)))) in
  if isTrack then pret "track"
  else
    let! isPlaylist := ignore false (ask (fun d => existsb (fun l => pl_playlist_id l =? entityID) (playlists (em d)))) in
    pret (if isPlaylist then "playlist" else "").

Definition inferRepostType (entityID : Z) : proc conn etl_error string := inferSaveType entityID.

(** The first of the names that is not empty, else the database. *)
Definition resolve_type (names : list string) (entityID : Z) : proc conn etl_error string :=
  match List.find (fun t => negb (String.eqb t "")) (saveTypeFromEntityType <$> names) with
  | Some t => pret t
  | None => inferSaveType entityID
  end.

Definition resolveSaveType p : proc conn etl_error string :=
  resolve_type [MetadataString p "type"; p_EntityType p] (p_EntityID p).
Definition resolveRepostType p : proc conn etl_error string :=
  resolve_type [MetadataString p "type"; p_EntityType p] (p_EntityID p).

(** validateSaveTarget, validateRepostTarget and validateShareTarget. *)
Definition validate_target (entityID : Z) (itemType : string) : proc conn etl_error unit :=
  let! exists_ :=
    if String.eqb itemType "track" then trackExists entityID
    else if String.eqb itemType "playlist" || String.eqb itemType "album" then playlistExists entityID
    else pret false in
  reject_when (negb exists_) "target does not exist".

(** ** Follows *)

Definition followExists (followerID followeeID : Z) : proc conn etl_error bool :=
  ask (fun d => active_row (followerID, followeeID) (follows (em d))).

Definition validateFollow p : proc conn etl_error unit :=
  reject_when (p_UserID p =? p_EntityID p) "user cannot follow themselves" ;;!
  ValidateSigner p ;;!
  let! exists_ := userExists (p_EntityID p) in
  reject_when (negb exists_) "followee user does not exist" ;;!
  let! dup := followExists (p_UserID p) (p_EntityID p) in
  reject_when dup "follow already exists".

Definition validateUnfollow p : proc conn etl_error unit :=
  ValidateSigner p ;;!
  let! dup := followExists (p_UserID p) (p_EntityID p) in
  reject_when (negb dup) "no active follow".

Definition insertFollowRow p (isDelete : bool) : proc conn etl_error unit :=
  exec_em (fun d => Some (set_follows (upsert_current (p_UserID p, p_EntityID p) isDelete tt p (follows d)) d)).

(** The last column is entity_id. *)
Definition upsert_subscription p (entityType : string) (isDelete : bool) : proc conn etl_error unit :=
  exec_em (fun d => Some (set_subscriptions
    (upsert_current (p_UserID p, p_EntityID p, entityType) isDelete (p_EntityID p) p (subscriptions d)) d)).

Definition insertImpliedSubscription p (isDelete : bool) : proc conn etl_error unit :=
  upsert_subscription p EntityTypeUser isDelete.

Definition insertFollow p (isDelete : bool) : proc conn etl_error unit :=
  insertFollowRow p isDelete ;;! insertImpliedSubscription p isDelete.
Definition insertMigratedFollow p (isDelete : bool) : proc conn etl_error unit := insertFollowRow p isDelete.

Definition follow p : proc conn etl_error unit := validateFollow p ;;! insertFollow p false.
Definition unfollow p : proc conn etl_error unit := validateUnfollow p ;;! insertFollow p true.

(** ** Saves *)

Definition saveExists (userID itemID : Z) (saveType : string) : proc conn etl_error bool :=
  ask (fun d => active_row (userID, itemID, saveType) (saves (em d))).

Definition validateSave p : proc conn etl_error unit :=
  ValidateSigner p ;;!
  let! saveType := resolveSaveType p in
  reject_when (String.eqb saveType "") "cannot determine save type" ;;!
  validate_target (p_EntityID p) saveType ;;!
  let! dup := saveExists (p_UserID p) (p_EntityID p) saveType in
  reject_when dup "save already exists".

(** The type of the transaction comes first here, the metadata's second. *)
Definition validateUnsave p : proc conn etl_error unit :=
  ValidateSigner p ;;!
  let! saveType := resolve_type [p_EntityType p; MetadataString p "type"] (p_EntityID p) in
  reject_when (String.eqb saveType "") "cannot determine save type" ;;!
  let! dup := saveExists (p_UserID p) (p_EntityID p) saveType in
  reject_when (negb dup) "no active save".

(** The type is cast to the enum savetype, which has no empty label. *)
Definition insertSave p (isDelete : bool) : proc conn etl_error unit :=
  let! saveType := resolveSaveType p in
  let isSaveOfRepost := MetadataBoolOr p "is_save_of_repost" false in
  exec_em (fun d =>
    if String.eqb saveType "" then None
    else Some (set_saves (upsert_current (p_UserID p, p_EntityID p, saveType) isDelete isSaveOfRepost p (saves d)) d)).

Definition save p : proc conn etl_error unit := validateSave p ;;! insertSave p false.
Definition unsave p : proc conn etl_error unit := validateUnsave p ;;! insertSave p true.

(** ** Reposts *)

Definition repostExists (userID itemID : Z) (repostType : string) : proc conn etl_error bool :=
  ask (fun d => active_row (userID, itemID, repostType) (reposts (em d))).

Definition validateRepost p : proc conn etl_error unit :=
  ValidateSigner p ;;!
  let! repostType := resolveRepostType p in
  reject_when (String.eqb repostType "") "cannot determine repost type" ;;!
  validate_target (p_EntityID p) repostType ;;!
  let! dup := repostExists (p_UserID p) (p_EntityID p) repostType in
  reject_when dup "repost already exists".

Definition validateUnrepost p : proc conn etl_error unit :=
  ValidateSigner p ;;!
  let! repostType := resolveRepostType p in
  reject_when (String.eqb repostType "") "cannot determine repost type" ;;!
  let! dup := repostExists (p_UserID p) (p_EntityID p) repostType in
  reject_when (negb dup) "no active repost".

Definition insertRepost p (isDelete : bool) : proc conn etl_error unit :=
  let! repostType := resolveRepostType p in
  let isRepostOfRepost := MetadataBoolOr p "is_repost_of_repost" false in
  exec_em (fun d =>
    if String.eqb repostType "" then None
    else Some (set_reposts (upsert_current (p_UserID p, p_EntityID p, repostType) isDelete isRepostOfRepost p (reposts d)) d)).

Definition repost p : proc conn etl_error unit := validateRepost p ;;! insertRepost p false.
Definition unrepost p : proc conn etl_error unit := validateUnrepost p ;;! insertRepost p true.

(** ** Subscriptions *)

Definition subscriptionEntityType p : string :=
  if String.eqb (p_EntityType p) EntityTypeEvent then EntityTypeEvent else EntityTypeUser.

Definition subscriptionTargetExists p : proc conn etl_error bool :=
  if String.eqb (subscriptionEntityType p) EntityTypeEvent then eventExists (p_EntityID p) else userExists (p_EntityID p).

Definition subscriptionExists (subscriberID userID : Z) (entityType : string) : proc conn etl_error bool :=
  ask (fun d => active_row (subscriberID, userID, entityType) (subscriptions (em d))).

Definition validateSubscribe p : proc conn etl_error unit :=
  let entityType := subscriptionEntityType p in
  reject_when (String.eqb entityType EntityTypeUser && (p_UserID p =? p_EntityID p)) "user cannot subscribe to themselves" ;;!
  ValidateSigner p ;;!
  let! exists_ := subscriptionTargetExists p in
  reject_when (negb exists_) "subscription target does not exist" ;;!
  let! dup := subscriptionExists (p_UserID p) (p_EntityID p) entityType in
  reject_when dup "subscription already exists".

Definition validateUnsubscribe p : proc conn etl_error unit :=
  ValidateSigner p ;;!
  let! dup := subscriptionExists (p_UserID p) (p_EntityID p) (subscriptionEntityType p) in
  reject_when (negb dup) "no active subscription".

Definition insertSubscription p (isDelete : bool) : proc conn etl_error unit :=
  upsert_subscription p (subscriptionEntityType p) isDelete.

Definition subscribe p : proc conn etl_error unit := validateSubscribe p ;;! insertSubscription p false.
Definition unsubscribe p : proc conn etl_error unit := validateUnsubscribe p ;;! insertSubscription p true.

(** ** Shares *)

Definition shareTypeFromEntityType (entityType : string) : string :=
  let t := ToLower entityType in
  if existsb (String.eqb t) ["track"; "playlist"; "album"] then t else "".

Definition share p : proc conn etl_error unit :=
  ValidateSigner p ;;!
  let shareType :=
    let t := shareTypeFromEntityType (p_EntityType p) in
    if String.eqb t "" then shareTypeFromEntityType (MetadataString p "type") else t in
  reject_when (String.eqb shareType "") "cannot determine share type" ;;!
  validate_target (p_EntityID p) shareType ;;!
  exec_em (fun d => Some (set_shares (insert_ignore
    (fun r => (sh_user_id r, sh_item_id r, sh_type r, sh_txhash r))
    (mkShareRow (p_UserID p) (p_EntityID p) shareType (p_BlockTime p) (p_TxHash p) (p_BlockNumber p)) (shares d)) d)).

(** migratedSocialHandler: the production checks and write, with is_delete from the row. *)
Definition migratedSocial (validate : Params -> proc conn etl_error unit)
    (insert : Params -> bool -> proc conn etl_error unit) p : proc conn etl_error unit :=
  validate p ;;! insert p (MetadataBoolOr p "is_delete" false).

End Social.
