(* ===== verification/EtlComments.v ===== *)
(** * The indexer: comments

    Models pkg/etl/processors/entity_manager/comment_*.go, track_mute.go and the comment
    handler of migration.go: comments with their mentions and threads, reactions, reports,
    pins, and the notification settings of comments and tracks. *)

From stdpp Require Import base gmap strings list.
From Stdlib Require Import ZArith Lia.
From S2P Require Import Prelude AuthState EtlBase EtlDb EtlAccounts EtlSocial.

Open Scope string_scope.
Open Scope Z_scope.

Section Comments.
Context {J : EtlLibs} {E : EtlSql}.
Implicit Types (p : Params) (commentID userID trackID : Z).

(** ** Queries *)

Definition comment_is commentID (r : comment_row) : bool := cm_comment_id r =? commentID.
Definition undeleted_comment (r : comment_row) : bool := negb (default false (cm_is_delete r)).

Definition commentExists commentID : proc conn etl_error bool :=
  ask (fun d => existsb (comment_is commentID) (comments (talk (em d)))).

Definition commentExistsActive commentID : proc conn etl_error bool :=
  ask (fun d => existsb (fun r => comment_is commentID r && undeleted_comment r) (comments (talk (em d)))).

Definition mark_is commentID userID (r : mark_row) : bool := (mk_comment_id r =? commentID) && (mk_user_id r =? userID).

Definition commentReactionExists userID commentID : proc conn etl_error bool :=
  ask (fun d => existsb (fun r => mark_is commentID userID r && negb (mk_is_delete r)) (comment_reactions (talk (em d)))).

Definition commentReportExists userID commentID : proc conn etl_error bool :=
  ask (fun d => existsb (mark_is commentID userID) (comment_reports (talk (em d)))).

Definition getCommentOwner commentID : proc conn etl_error Z :=
  ask_row (fun d => cm_user_id <$> List.filter (fun r => comment_is commentID r && undeleted_comment r) (comments (talk (em d)))).

Definition getCommentEntityID commentID : proc conn etl_error Z :=
  ask_row (fun d => cm_entity_id <$> List.filter (comment_is commentID) (comments (talk (em d)))).

Definition current_track trackID (t : track_row) : bool := (t_track_id t =? trackID) && t_is_current t.

Definition getTrackOwner trackID : proc conn etl_error Z :=
  ask_row (fun d => t_owner_id <$> List.filter (current_track trackID) (tracks (em d))).

(** ** Metadata *)

(** The ids of the first ten mentions that are numbers, unless there are none. *)
Definition getMetadataMentions p : option (list Z) :=
  match MetadataJSON p "mentions" with
  | Some (JArr arr) =>
      match omap (fun v => match v with JNum f => Some (float64_to_int64 etl_cpu f) | _ => None end) (take 10 arr) with
      | [] => None
      | ids => Some ids
      end
  | _ => None
  end.

Definition positive_id p (key : string) : option Z :=
  match MetadataInt64 p key with
  | Some id => if 0 <? id then Some id else None
  | None => None
  end.

Definition getCommentParentID p : option Z :=
  match positive_id p "parent_comment_id" with
  | Some id => Some id
  | None => positive_id p "parent_id"
  end.

(** entity_type as it is stored: a comment is on a track by default. *)
Definition comment_entity_type p : string :=
  let et := MetadataString p "entity_type" in if String.eqb et "" then EntityTypeTrack else et.

(** ** Creating and editing *)

(** The parent is a comment on the same entity, and not yet a parent of this one. *)
Definition validate_parent p (entityID parentID : Z) : proc conn etl_error unit :=
  let! parent := no_rows "parent comment does not exist"
    (ask_row (fun d => (fun r => (cm_entity_type r, cm_entity_id r)) <$> List.filter (comment_is parentID) (comments (talk (em d))))) in
  reject_when (negb (String.eqb parent.1 (comment_entity_type p)) || negb (parent.2 =? entityID))
    "parent comment does not belong to the entity" ;;!
  let! dup := ask (fun d => bool_decide ((parentID, p_EntityID p) ∈ comment_threads (talk (em d)))) in
  reject_when dup "comment_thread already exists".

Definition validateCommentWrite p (isCreate : bool) : proc conn etl_error unit :=
  ValidateSigner p ;;!
  (if isCreate then
     let! exists_ := commentExists (p_EntityID p) in
     reject_when exists_ "comment already exists"
   else
     let! exists_ := commentExistsActive (p_EntityID p) in
     reject_when (negb exists_) "comment does not exist or is deleted") ;;!
  let et := MetadataString p "entity_type" in
  reject_when (negb (existsb (String.eqb et) [""; EntityTypeTrack; "FanClub"; EntityTypeEvent]))
    "entity type is not supported for comments" ;;!
  match MetadataInt64 p "entity_id" with
  | None => reject "entity_id is required for comment"
  | Some entityID =>
      (if String.eqb et "" || String.eqb et EntityTypeTrack then
         let! exists_ := trackExists entityID in
         reject_when (negb exists_) "track does not exist"
       else pret tt) ;;!
      (if String.eqb et EntityTypeEvent then
         let! exists_ := eventExists entityID in
         reject_when (negb exists_) "event does not exist"
       else pret tt) ;;!
      let body := MetadataString p "body" in
      reject_when (String.eqb body "") "comment body is empty" ;;!
      reject_when (CharacterLimitCommentBody <? RuneCountInString body) "comment body exceeds character limit" ;;!
      reject_when (isCreate && MetadataBoolOr p "is_members_only" false && negb (String.eqb (comment_entity_type p) "FanClub"))
        "is_members_only requires entity_type=FanClub" ;;!
      reject_when (2000 <? RuneCountInString (MetadataString p "video_url")) "video_url exceeds 2000 character limit" ;;!
      match getCommentParentID p with
      | Some parentID => if isCreate then validate_parent p entityID parentID else pret tt
      | None => pret tt
      end
  end.

(** ON CONFLICT (comment_id, user_id) DO UPDATE: a deleted row is revived. *)
Definition revive_mark p (r : mark_row) : mark_row :=
  mkMarkRow (mk_comment_id r) (mk_user_id r) (mk_created_at r) (p_BlockTime p) false (p_TxHash p) (mk_blockhash r) (p_BlockNumber p).
Definition new_mark p userID : mark_row :=
  mkMarkRow (p_EntityID p) userID (p_BlockTime p) (p_BlockTime p) false (p_TxHash p) (p_BlockHash p) (p_BlockNumber p).
Definition upsert_mark p userID (t : list mark_row) : list mark_row :=
  upsert (mark_is (p_EntityID p) userID) (revive_mark p) (new_mark p userID) t.
Definition delete_mark p (r : mark_row) : mark_row :=
  mkMarkRow (mk_comment_id r) (mk_user_id r) (mk_created_at r) (p_BlockTime p) true (p_TxHash p) (mk_blockhash r) (p_BlockNumber p).

Definition insertCommentWithState p (isDelete isEdited : bool) : proc conn etl_error unit :=
  let entityType := comment_entity_type p in
  let row := mkCommentRow (p_EntityID p) (MetadataString p "body") (p_UserID p) (default 0 (MetadataInt64 p "entity_id"))
    entityType (MetadataInt64 p "track_timestamp_s") (p_BlockTime p) (p_BlockTime p) (Some isDelete) true isEdited
    (String.eqb entityType "FanClub" && MetadataBoolOr p "is_members_only" false) (nullString (MetadataString p "video_url"))
    (p_TxHash p) (p_BlockHash p) (p_BlockNumber p) in
  exec_em (on_talk (fun d => t ← insert_key cm_comment_id row (comments d); Some (set_comments t d))) ;;!
  match getMetadataMentions p with
  | Some mentions =>
      exec_em (on_talk (fun d =>
        Some (set_comment_mentions (foldl (fun t uid => upsert_mark p uid t) (comment_mentions d) (remove_dups mentions)) d)))
  | None => pret tt
  end ;;!
  match getCommentParentID p with
  | Some parentID =>
      exec_em (on_talk (fun d => Some (set_comment_threads (insert_ignore id (parentID, p_EntityID p) (comment_threads d)) d)))
  | None => pret tt
  end.

Definition commentCreate p : proc conn etl_error unit :=
  validateCommentWrite p true ;;! insertCommentWithState p false false.
Definition migratedCommentCreate p : proc conn etl_error unit :=
  validateCommentWrite p true ;;!
  insertCommentWithState p (MetadataBoolOr p "is_delete" false) (MetadataBoolOr p "is_edited" false).

Definition update_comment commentID (f : comment_row -> comment_row) : proc conn etl_error unit :=
  exec_em (on_talk (fun d => Some (set_comments (update_where (comment_is commentID) f (comments d)) d))).

Definition commentUpdate p : proc conn etl_error unit :=
  validateCommentWrite p false ;;!
  let! commentOwner := getCommentOwner (p_EntityID p) in
  reject_when (negb (p_UserID p =? commentOwner)) "only comment owner can update comment" ;;!
  let videoURL := match MetadataJSON p "video_url" with Some _ => Some (MetadataString p "video_url") | None => None end in
  update_comment (p_EntityID p) (fun r =>
    mkCommentRow (cm_comment_id r) (MetadataString p "body") (cm_user_id r) (cm_entity_id r) (cm_entity_type r)
      (cm_track_timestamp_s r) (cm_created_at r) (p_BlockTime p) (cm_is_delete r) (cm_is_visible r) true (cm_is_members_only r)
      (match videoURL with Some v => Some v | None => cm_video_url r end) (p_TxHash p) (cm_blockhash r) (p_BlockNumber p)) ;;!
  match getMetadataMentions p with
  | Some mentions =>
      exec_em (on_talk (fun d => Some (set_comment_mentions
        (update_where (fun r => (mk_comment_id r =? p_EntityID p) && negb (mk_is_delete r)) (delete_mark p) (comment_mentions d)) d))) ;;!
      for_each (fun uid => exec_em (on_talk (fun d => Some (set_comment_mentions (upsert_mark p uid (comment_mentions d)) d)))) mentions
  | None => pret tt
  end.

(** The owner of the comment or, taking the entity for a track, of the track. *)
Definition commentDelete p : proc conn etl_error unit :=
  ValidateSigner p ;;!
  let! exists_ := commentExists (p_EntityID p) in
  reject_when (negb exists_) "comment does not exist" ;;!
  let! commentOwner := getCommentOwner (p_EntityID p) in
  (if p_UserID p =? commentOwner then pret tt
   else
     let! entityID := getCommentEntityID (p_EntityID p) in
     let! trackOwner := getTrackOwner entityID in
     reject_when (negb (p_UserID p =? trackOwner)) "only comment owner or track owner can delete comment") ;;!
  update_comment (p_EntityID p) (fun r =>
    mkCommentRow (cm_comment_id r) (cm_text r) (cm_user_id r) (cm_entity_id r) (cm_entity_type r) (cm_track_timestamp_s r)
      (cm_created_at r) (p_BlockTime p) (Some true) (cm_is_visible r) (cm_is_edited r) (cm_is_members_only r) (cm_video_url r)
      (p_TxHash p) (cm_blockhash r) (p_BlockNumber p)).

(** ** Reactions and reports *)

Definition commentReact p : proc conn etl_error unit :=
  ValidateSigner p ;;!
  let! exists_ := commentExistsActive (p_EntityID p) in
  reject_when (negb exists_) "comment does not exist or is deleted" ;;!
  let! dup := commentReactionExists (p_UserID p) (p_EntityID p) in
  reject_when dup "user already reacted to comment" ;;!
  exec_em (on_talk (fun d => Some (set_comment_reactions (upsert_mark p (p_UserID p) (comment_reactions d)) d))).

Definition commentUnreact p : proc conn etl_error unit :=
  ValidateSigner p ;;!
  let! exists_ := commentReactionExists (p_UserID p) (p_EntityID p) in
  reject_when (negb exists_) "user has not reacted to comment" ;;!
  exec_em (on_talk (fun d => Some (set_comment_reactions
    (update_where (mark_is (p_EntityID p) (p_UserID p)) (delete_mark p) (comment_reactions d)) d))).

Definition commentReport p : proc conn etl_error unit :=
  ValidateSigner p ;;!
  let! dup := commentReportExists (p_UserID p) (p_EntityID p) in
  reject_when dup "user already reported comment" ;;!
  exec_em (on_talk (fun d =>
    t ← insert_key (fun r => (mk_comment_id r, mk_user_id r)) (new_mark p (p_UserID p)) (comment_reports d);
    Some (set_comment_reports t d))).

(** ** Pins *)

Definition set_pinned (pin : option Z) (now : Z) (t : track_row) : track_row :=
  mkTrackRow (t_track_id t) (t_owner_id t) (t_is_current t) (t_is_delete t) (t_title t) (t_text t) (t_flags t) (t_json t)
    (t_nums t) (t_duration t) (t_release_date t) (t_ai_attribution_user_id t) (t_route_id t) (t_allowed_api_keys t)
    (t_access_authorities t) (t_playlists_containing_track t) (t_playlists_previously_containing_track t) pin
    (t_created_at t) now (t_txhash t) (t_blocknumber t).

Definition validatePinTx p (isPin : bool) : proc conn etl_error unit :=
  ValidateSigner p ;;!
  let! exists_ := commentExists (p_EntityID p) in
  reject_when (negb exists_) "comment does not exist" ;;!
  match MetadataInt64 p "entity_id" with
  | None => reject "entity_id is required for pin/unpin"
  | Some trackID =>
      let! trackOwner := or_reject "track does not exist" (getTrackOwner trackID) in
      reject_when (negb (p_UserID p =? trackOwner)) "only track owner can pin/unpin comments" ;;!
      let! pinned := ask_row (fun d => t_pinned_comment_id <$> List.filter (current_track trackID) (tracks (em d))) in
      let isPinned := bool_decide (pinned = Some (p_EntityID p)) in
      reject_when (isPin && isPinned) "comment is already pinned" ;;!
      reject_when (negb isPin && negb isPinned) "comment is not pinned"
  end.

Definition update_tracks trackID (f : track_row -> track_row) : proc conn etl_error unit :=
  exec_em (fun d => Some (set_tracks (update_where (current_track trackID) f (tracks d)) d)).

Definition pinned_track p : Z := default 0 (MetadataInt64 p "entity_id").

Definition commentPin p : proc conn etl_error unit :=
  validatePinTx p true ;;! update_tracks (pinned_track p) (set_pinned (Some (p_EntityID p)) (p_BlockTime p)).
Definition commentUnpin p : proc conn etl_error unit :=
  validatePinTx p false ;;! update_tracks (pinned_track p) (set_pinned None (p_BlockTime p)).

(** ** Notification settings, of comments and of tracks *)

Definition upsertCommentNotificationSetting p (isMuted : bool) : proc conn etl_error unit :=
  ValidateSigner p ;;!
  exec_em (on_talk (fun d => Some (set_comment_notification_settings
    (upsert (fun r => (ns_user_id r =? p_UserID p) && (ns_entity_id r =? p_EntityID p) && String.eqb (ns_entity_type r) (p_EntityType p))
       (fun r => mkSettingRow (ns_user_id r) (ns_entity_id r) (ns_entity_type r) isMuted (ns_created_at r) (p_BlockTime p))
       (mkSettingRow (p_UserID p) (p_EntityID p) (p_EntityType p) isMuted (p_BlockTime p) (p_BlockTime p))
       (comment_notification_settings d)) d))).

Definition commentMute p : proc conn etl_error unit := upsertCommentNotificationSetting p true.
Definition commentUnmute p : proc conn etl_error unit := upsertCommentNotificationSetting p false.
Definition trackMute p : proc conn etl_error unit := upsertCommentNotificationSetting p true.
Definition trackUnmute p : proc conn etl_error unit := upsertCommentNotificationSetting p false.
End Comments.
