(* ===== verification/EtlEvents.v ===== *)
(** * The indexer: events, linked wallets, emails, notifications and counts

    Models pkg/etl/processors/entity_manager/{event_*.go, associated_wallet.go,
    dashboard_wallet.go, crypto.go, email.go, notification.go, play_count.go,
    track_download.go} and the handlers of migration.go for events and wallets. *)

From stdpp Require Import base gmap strings list.
From Stdlib Require Import ZArith Lia Ascii.
From S2P Require Import Prelude AuthState Crypto Encoding EtlBase EtlDb EtlAccounts EtlSocial EtlComments.

Open Scope string_scope.
Open Scope Z_scope.

Section Events.
Context {J : EtlLibs} {E : EtlSql}.
Implicit Types (p : Params) (eventID trackID : Z).

(** ** Events *)

Definition open_event eventID (e : event_row) : bool := (ev_event_id e =? eventID) && negb (ev_is_deleted e).

Definition eventOwner eventID : proc conn etl_error Z :=
  ask_row (fun d => ev_user_id <$> List.filter (open_event eventID) (events (em d))).

Definition eventTypeAndEndDate eventID : proc conn etl_error (string * option Z) :=
  ask_row (fun d => (fun e => (ev_event_type e, ev_end_date e)) <$> List.filter (open_event eventID) (events (em d))).

Definition trackOwner trackID : proc conn etl_error Z :=
  ask_row (fun d => t_owner_id <$> List.filter (current_track trackID) (tracks (em d))).

Definition parseEventEndDate (s : string) : res etl_error Z :=
  match time_parse "2006-01-02T15:04:05Z07:00" s with
  | Some t => Ok t
  | None => match time_parse "2006-01-02T15:04:05" s with
            | Some t => Ok t
            | None => invalid "end_date is not a valid iso format"
            end
  end.

(** An event on a track is its owner's. *)
Definition validate_event_track p (entityType : string) (entityID : option Z) : proc conn etl_error unit :=
  match entityID with
  | Some trackID =>
      if String.eqb entityType "track" then
        let! trackOK := trackExists trackID in
        reject_when (negb trackOK) "track does not exist" ;;!
        let! ownerID := trackOwner trackID in
        reject_when (negb (ownerID =? p_UserID p)) "user is not the owner of track"
      else pret tt
  | None => pret tt
  end.

Definition validateEventCreateShape p : proc conn etl_error Z :=
  ValidateSigner p ;;!
  let! exists_ := eventExists (p_EntityID p) in
  reject_when exists_ "event already exists" ;;!
  let eventType := MetadataString p "event_type" in
  reject_when (String.eqb eventType "") "missing required field: event_type" ;;!
  let endDateStr := MetadataString p "end_date" in
  reject_when (String.eqb endDateStr "") "missing required field: end_date" ;;!
  let! endDate := check (parseEventEndDate endDateStr) in
  let! userOK := userExists (p_UserID p) in
  reject_when (negb userOK) "user does not exist" ;;!
  let entityType := MetadataString p "entity_type" in
  let entityID := MetadataInt64 p "entity_id" in
  validate_event_track p entityType entityID ;;!
  reject_when (String.eqb eventType "remix_contest" && (bool_decide (entityID = None) || String.eqb entityType ""))
    "for remix competitions, entity_id and entity_type must be provided" ;;!
  pret endDate.

Definition running_contest (entityID now : Z) (e : event_row) : bool :=
  bool_decide (ev_entity_id e = Some entityID) && String.eqb (ev_event_type e) "remix_contest" && negb (ev_is_deleted e) &&
  match ev_end_date e with Some t => now <? t | None => false end.

Definition validateRemixContestOpening p (entityID : Z) : proc conn etl_error unit :=
  let! contestExists := ask (fun d => existsb (running_contest entityID (p_BlockTime p)) (events (em d))) in
  reject_when contestExists "an existing remix contest already exists" ;;!
  let! remixOf := ignore None (ask_row (fun d => (fun t => t_json t !! "remix_of") <$> List.filter (current_track entityID) (tracks (em d)))) in
  reject_when (match remixOf with
               | Some v => let s := jsonb_text v in negb (String.eqb s "null") && negb (String.eqb s "")
               | None => false
               end) "track is a remix and cannot host a remix contest".

Definition validateCreateEvent p : proc conn etl_error unit :=
  let! endDate := validateEventCreateShape p in
  reject_when (endDate <? p_BlockTime p) "end_date cannot be in the past" ;;!
  if String.eqb (MetadataString p "event_type") "remix_contest"
  then validateRemixContestOpening p (default 0 (MetadataInt64 p "entity_id"))
  else pret tt.

(** The text of the end date is Postgres's to read. *)
Definition insertEvent p : proc conn etl_error unit :=
  exec_em (fun d =>
    endDate ← pg_timestamp (MetadataString p "end_date");
    t ← insert_key ev_event_id
          (mkEventRow (p_EntityID p) (MetadataString p "event_type") (p_UserID p) (Some (MetadataString p "entity_type"))
             (Some (default 0 (MetadataInt64 p "entity_id"))) (Some endDate) (MetadataJSON p "event_data") false
             (p_BlockTime p) (p_BlockTime p) (p_TxHash p) (p_BlockHash p) (p_BlockNumber p)) (events d);
    Some (set_events t d)).

Definition eventCreate p : proc conn etl_error unit := validateCreateEvent p ;;! insertEvent p.

Definition migratedEventCreate p : proc conn etl_error unit :=
  reject_when (negb (String.eqb (p_EntityType p) EntityTypeEvent)) "wrong entity type" ;;!
  let! _ := validateEventCreateShape p in
  insertEvent p.

(** The checks validateUpdateEvent and validateDeleteEvent start with. *)
Definition validate_event_owner p : proc conn etl_error unit :=
  ValidateSigner p ;;!
  let! exists_ := eventExists (p_EntityID p) in
  reject_when (negb exists_) "event does not exist" ;;!
  let! ownerID := eventOwner (p_EntityID p) in
  reject_when (negb (ownerID =? p_UserID p)) "only event owner can change the event".

Definition validateUpdateEvent p : proc conn etl_error unit :=
  validate_event_owner p ;;!
  let endDateStr := MetadataString p "end_date" in
  if String.eqb endDateStr "" then pret tt
  else
    let! endDate := check (parseEventEndDate endDateStr) in
    let! cur := eventTypeAndEndDate (p_EntityID p) in
    match cur with
    | (evtType, Some curEndDate) =>
        if String.eqb evtType "remix_contest"
        then reject_when (endDate <? curEndDate) "end_date cannot be before the current end_date of the remix contest"
        else reject_when (endDate <? p_BlockTime p) "end_date cannot be in the past"
    | (_, None) => reject_when (endDate <? p_BlockTime p) "end_date cannot be in the past"
    end.

Definition event_is eventID (e : event_row) : bool := ev_event_id e =? eventID.

Definition eventUpdate p : proc conn etl_error unit :=
  validateUpdateEvent p ;;!
  let endDateStr := MetadataString p "end_date" in
  exec_em (fun d =>
    endDate ← (if String.eqb endDateStr "" then Some None else Some <$> pg_timestamp endDateStr);
    Some (set_events (update_where (event_is (p_EntityID p)) (fun e =>
      mkEventRow (ev_event_id e) (ev_event_type e) (ev_user_id e) (ev_entity_type e) (ev_entity_id e)
        (match endDate with Some t => Some t | None => ev_end_date e end)
        (match MetadataJSON p "event_data" with Some v => Some v | None => ev_event_data e end)
        (ev_is_deleted e) (ev_created_at e) (p_BlockTime p) (p_TxHash p) (ev_blockhash e) (p_BlockNumber p)) (events d)) d)).

Definition validateDeleteEvent p : proc conn etl_error unit := validate_event_owner p.

Definition eventDelete p : proc conn etl_error unit :=
  validateDeleteEvent p ;;!
  exec_em (fun d => Some (set_events (update_where (event_is (p_EntityID p)) (fun e =>
    mkEventRow (ev_event_id e) (ev_event_type e) (ev_user_id e) (ev_entity_type e) (ev_entity_id e) (ev_end_date e)
      (ev_event_data e) true (ev_created_at e) (p_BlockTime p) (p_TxHash p) (ev_blockhash e) (p_BlockNumber p)) (events d)) d)).

(** ** Proofs of ownership of a wallet *)

Definition recoverETHAddress (message signatureHex : string) : option string :=
  sigBytes ← hex_decode (TrimPrefix "0x" signatureHex);
  if negb (Nat.eqb (String.length sigBytes) 65) then None
  else
    let adjusted := update_byte 64 (fun v => if (27 <=? N_of_ascii v)%N then byte_sub 27 v else v) sigBytes in
    PubkeyToAddress <$> SigToPub (accounts_TextHash message) adjusted.

Definition base58_alphabet : string := "123456789ABCDEFGHJKLMNPQRSTUVWXYZabcdefghijkmnopqrstuvwxyz".

Fixpoint index_byte (s : string) (c : ascii) (i : Z) : option Z :=
  match s with
  | EmptyString => None
  | String c' s' => if Ascii.eqb c c' then Some i else index_byte s' c (i + 1)
  end.

(** The little-endian bytes times 58 plus a carry. *)
Fixpoint base58_mul (bytes : list Z) (carry : Z) : list Z * Z :=
  match bytes with
  | [] => ([], carry)
  | b :: bytes' =>
      let c := carry + b * 58 in
      let r := base58_mul bytes' (Z.shiftr c 8) in
      (Z.land c 255 :: r.1, r.2)
  end.

(** The bytes of what is left of the carry, which is below 58. *)
Definition base58_push (bytes : list Z) (carry : Z) : list Z :=
  if 0 <? carry then (bytes ++ [Z.land carry 255])%list else bytes.

Fixpoint base58_digits (s : string) (result : list Z) : option (list Z) :=
  match s with
  | EmptyString => Some result
  | String c s' =>
      carry ← index_byte base58_alphabet c 0;
      let r := base58_mul result carry in
      base58_digits s' (base58_push r.1 r.2)
  end.

Fixpoint leading_ones (s : string) : nat :=
  match s with
  | String c s' => if Ascii.eqb c "1" then S (leading_ones s') else O
  | EmptyString => O
  end.

Definition bytes_string (l : list Z) : string := foldr (fun b s => String (to_byte b) s) "" l.

Definition base58Decode (s : string) : option string :=
  result ← base58_digits s [0];
  Some (bytes_string (rev (result ++ replicate (leading_ones s) 0)%list)).

Definition verifySolSignature (message signatureB64 walletB58 : string) : bool :=
  match base58Decode walletB58 with
  | None => false
  | Some pubKeyBytes =>
      if negb (Nat.eqb (String.length pubKeyBytes) 32) then false
      else
        match (match base64_decode signatureB64 with Some b => Some b | None => base58Decode signatureB64 end) with
        | None => false
        | Some sigBytes => Nat.eqb (String.length sigBytes) 64 && ed25519_Verify pubKeyBytes message sigBytes
        end
  end.

(** The message and the signature of a metadata field. *)
Definition extractSignature p (key : string) : option (string * string) :=
  match MetadataJSON p key with
  | Some (JObj obj) =>
      match jlookup "message" obj, jlookup "signature" obj with
      | Some (JStr msg), Some (JStr sig) => if String.eqb msg "" || String.eqb sig "" then None else Some (msg, sig)
      | _, _ => None
      end
  | _ => None
  end.

Definition signed_by (sig : string * string) (wallet msg : string) : res etl_error unit :=
  match recoverETHAddress sig.1 sig.2 with
  | None => invalid "invalid signature"
  | Some recovered => invalid_if (negb (EqualFold recovered wallet)) msg
  end.

(** ** Associated wallets *)

Definition canonicalizeWallet (wallet chain : string) : string :=
  if String.eqb chain "eth" || HasPrefix "0x" wallet || HasPrefix "0X" wallet then ToLower wallet else wallet.

Definition wallet_chain p : string := MetadataString p "chain".
Definition associated_wallet p : string := canonicalizeWallet (MetadataString p "wallet") (wallet_chain p).

Definition validateAssociatedWalletShape (wallet chain : string) : res etl_error unit :=
  let? _ := invalid_if (String.eqb wallet "") "wallet address is required" in
  let? _ := invalid_if (String.eqb chain "") "chain is required" in
  invalid_if (negb (String.eqb chain "eth") && negb (String.eqb chain "sol")) "chain must be eth or sol".

Definition verifyAssociatedWalletSignature p (wallet chain : string) : res etl_error unit :=
  match extractSignature p "wallet_signature" with
  | None => invalid "wallet_signature is required"
  | Some sig =>
      if String.eqb chain "eth" then signed_by sig wallet "wallet_signature was not signed by wallet"
      else if String.eqb chain "sol" then invalid_if (negb (verifySolSignature sig.1 sig.2 wallet)) "invalid sol wallet_signature"
      else Ok tt
  end.

Definition validateAssociatedWalletCreate p (wallet chain : string) : proc conn etl_error unit :=
  ValidateSigner p ;;!
  check (validateAssociatedWalletShape wallet chain) ;;!
  check (verifyAssociatedWalletSignature p wallet chain).

Definition set_link (current delete_ : bool) (now : Z) (r : associated_row) : associated_row :=
  mkAssociatedRow (aw_user_id r) (aw_wallet r) (aw_chain r) current delete_ (aw_blockhash r) (aw_blocknumber r) (aw_created_at r) now.

Definition current_link (wallet chain : string) (r : associated_row) : bool :=
  String.eqb (aw_wallet r) wallet && String.eqb (aw_chain r) chain && aw_is_current r.

Definition insertAssociatedWalletWithState p (wallet chain : string) (isDelete : bool) : proc conn etl_error unit :=
  exec_em (on_desk (fun d => Some (set_associated_wallets (update_where
    (fun r => current_link wallet chain r && negb (aw_user_id r =? p_UserID p))
    (fun r => set_link false true (aw_updated_at r) r) (associated_wallets d)) d))) ;;!
  exec_em (on_desk (fun d => Some (set_associated_wallets (update_where
    (fun r => current_link wallet chain r && (aw_user_id r =? p_UserID p))
    (fun r => set_link false (aw_is_delete r) (aw_updated_at r) r) (associated_wallets d)) d))) ;;!
  exec_em (on_desk (fun d => Some (set_associated_wallets (associated_wallets d ++
    [mkAssociatedRow (p_UserID p) wallet chain true isDelete (p_BlockHash p) (p_BlockNumber p) (p_BlockTime p) (p_BlockTime p)])%list d))).

Definition insertAssociatedWallet p (wallet chain : string) : proc conn etl_error unit :=
  insertAssociatedWalletWithState p wallet chain false.

Definition associatedWalletCreate p : proc conn etl_error unit :=
  validateAssociatedWalletCreate p (associated_wallet p) (wallet_chain p) ;;!
  insertAssociatedWallet p (associated_wallet p) (wallet_chain p).

Definition migratedAssociatedWalletCreate p : proc conn etl_error unit :=
  ValidateSigner p ;;!
  check (validateAssociatedWalletShape (associated_wallet p) (wallet_chain p)) ;;!
  insertAssociatedWalletWithState p (associated_wallet p) (wallet_chain p) (MetadataBoolOr p "is_delete" false).

Definition own_link p (wallet : string) (r : associated_row) : bool :=
  (aw_user_id r =? p_UserID p) && String.eqb (aw_wallet r) wallet && aw_is_current r.

Definition validateAssociatedWalletDelete p (wallet : string) : proc conn etl_error unit :=
  ValidateSigner p ;;!
  reject_when (String.eqb wallet "") "wallet address is required" ;;!
  let! exists_ := ask (fun d => existsb (fun r => own_link p wallet r && negb (aw_is_delete r)) (associated_wallets (desk (em d)))) in
  reject_when (negb exists_) "associated wallet not found".

Definition associatedWalletDelete p : proc conn etl_error unit :=
  validateAssociatedWalletDelete p (associated_wallet p) ;;!
  exec_em (on_desk (fun d => Some (set_associated_wallets
    (update_where (own_link p (associated_wallet p)) (set_link false true (p_BlockTime p)) (associated_wallets d)) d))).

(** ** Dashboard wallets *)

Definition dashboard_wallet p : string := ToLower (MetadataString p "wallet").
Definition dashboard_is (wallet : string) (r : dashboard_row) : bool := String.eqb (dw_wallet r) wallet.

(** The wallet of the user. *)
Definition validateDashboardWalletAssignment p (wallet : string) : proc conn etl_error string :=
  let! exists_ := userExists (p_UserID p) in
  reject_when (negb exists_) "user does not exist" ;;!
  let! userWallet := getUserWallet (p_UserID p) in
  reject_when (negb (EqualFold userWallet (p_Signer p)) && negb (EqualFold wallet (p_Signer p)))
    "signer does not match user or dashboard wallet" ;;!
  let! taken := ignore false
    (let! isDelete := ask_row (fun d => dw_is_delete <$> List.filter (dashboard_is wallet) (dashboard_wallet_users (desk (em d)))) in
     pret (negb isDelete)) in
  reject_when taken "dashboard wallet already has an assigned user" ;;!
  pret userWallet.

Definition verifyDashboardWalletSignatures p (wallet userWallet : string) : res etl_error unit :=
  let walletSig := extractSignature p "wallet_signature" in
  let userSig := extractSignature p "user_signature" in
  let? _ := invalid_if (bool_decide (walletSig = None) && bool_decide (userSig = None))
              "wallet signature or user signature is required" in
  let? _ := match walletSig with
            | Some sig => signed_by sig wallet "wallet_signature was not signed by the dashboard wallet"
            | None => Ok tt
            end in
  match userSig with
  | Some sig => signed_by sig userWallet "user_signature was not signed by the user wallet"
  | None => Ok tt
  end.

Definition validateDashboardWalletCreate p (wallet : string) : proc conn etl_error unit :=
  let! userWallet := validateDashboardWalletAssignment p wallet in
  check (verifyDashboardWalletSignatures p wallet userWallet).

Definition insertDashboardWalletUserWithState p (wallet : string) (isDelete : bool) : proc conn etl_error unit :=
  exec_em (on_desk (fun d => Some (set_dashboard_wallet_users
    (upsert (dashboard_is wallet)
       (fun r => mkDashboardRow (dw_wallet r) (p_UserID p) isDelete (p_TxHash p) (p_BlockNumber p) (dw_created_at r) (p_BlockTime p))
       (mkDashboardRow wallet (p_UserID p) isDelete (p_TxHash p) (p_BlockNumber p) (p_BlockTime p) (p_BlockTime p))
       (dashboard_wallet_users d)) d))).

Definition insertDashboardWalletUser p (wallet : string) : proc conn etl_error unit :=
  insertDashboardWalletUserWithState p wallet false.

Definition dashboardWalletCreate p : proc conn etl_error unit :=
  reject_when (String.eqb (dashboard_wallet p) "") "dashboard wallet address is required" ;;!
  validateDashboardWalletCreate p (dashboard_wallet p) ;;!
  insertDashboardWalletUser p (dashboard_wallet p).

Definition migratedDashboardWalletCreate p : proc conn etl_error unit :=
  reject_when (String.eqb (dashboard_wallet p) "") "dashboard wallet address is required" ;;!
  let! _ := validateDashboardWalletAssignment p (dashboard_wallet p) in
  insertDashboardWalletUserWithState p (dashboard_wallet p) (MetadataBoolOr p "is_delete" false).

Definition validateDashboardWalletDelete p (wallet : string) : proc conn etl_error unit :=
  let! exists_ := userExists (p_UserID p) in
  reject_when (negb exists_) "user does not exist" ;;!
  let! row := or_reject "dashboard wallet does not exist"
    (ask_row (fun d => (fun r => (dw_user_id r, dw_is_delete r)) <$> List.filter (dashboard_is wallet) (dashboard_wallet_users (desk (em d))))) in
  reject_when row.2 "dashboard wallet is already deleted" ;;!
  let! userWallet := getUserWallet (p_UserID p) in
  let signerIsUser := EqualFold userWallet (p_Signer p) in
  reject_when (negb signerIsUser && negb (EqualFold wallet (p_Signer p))) "signer does not match user or dashboard wallet" ;;!
  reject_when (signerIsUser && negb (row.1 =? p_UserID p)) "user is not assigned to this wallet".

Definition dashboardWalletDelete p : proc conn etl_error unit :=
  reject_when (String.eqb (dashboard_wallet p) "") "dashboard wallet address is required" ;;!
  validateDashboardWalletDelete p (dashboard_wallet p) ;;!
  exec_em (on_desk (fun d => Some (set_dashboard_wallet_users (update_where (dashboard_is (dashboard_wallet p))
    (fun r => mkDashboardRow (dw_wallet r) (dw_user_id r) true (p_TxHash p) (p_BlockNumber p) (dw_created_at r) (p_BlockTime p))
    (dashboard_wallet_users d)) d))).

(** ** Emails *)

Definition accessGrant : Type := Z * Z * string * bool.

Definition parse_access_grant (g : json) : res etl_error accessGrant :=
  match g with
  | JObj gMap =>
      match jlookup "receiving_user_id" gMap with
      | None => invalid "each access grant must contain receiving_user_id"
      | Some receivingRaw =>
          match jlookup "grantor_user_id" gMap with
          | None => invalid "each access grant must contain grantor_user_id"
          | Some grantorRaw =>
              match jlookup "encrypted_key" gMap with
              | Some (JStr encKey) =>
                  if String.eqb encKey "" then invalid "each access grant must contain encrypted_key"
                  else match receivingRaw, grantorRaw with
                       | JNum r, JNum g =>
                           Ok (float64_to_int64 etl_cpu r, float64_to_int64 etl_cpu g, encKey,
                               match jlookup "is_initial" gMap with Some (JBool b) => b | _ => false end)
                       | JNum _, _ => invalid "grantor_user_id must be a number"
                       | _, _ => invalid "receiving_user_id must be a number"
                       end
              | _ => invalid "each access grant must contain encrypted_key"
              end
          end
      end
  | _ => invalid "each access grant must be a dict"
  end.

Fixpoint parse_access_grants (l : list json) : res etl_error (list accessGrant) :=
  match l with
  | [] => Ok []
  | g :: l' => let? x := parse_access_grant g in let? xs := parse_access_grants l' in Ok (x :: xs)
  end.

Definition parseAccessGrants p : res etl_error (list accessGrant) :=
  match MetadataJSON p "access_grants" with
  | None => invalid "missing required field: access_grants"
  | Some (JArr l) => parse_access_grants l
  | Some _ => invalid "access_grants must be a list"
  end.

Definition insert_access (ownerID : Z) (g : accessGrant) : proc conn etl_error unit :=
  match g with
  | (receiving, grantor, key, isInitial) =>
      exec_em (on_desk (fun d => Some (set_email_access
        (insert_ignore (fun r => (ea_email_owner_user_id r, ea_receiving_user_id r, ea_grantor_user_id r))
           (mkAccessRow ownerID receiving grantor key isInitial) (email_access d)) d)))
  end.

Definition email_owner p : proc conn etl_error Z :=
  reject_when (bool_decide (p_Metadata p = None)) "email metadata must be a dictionary" ;;!
  match MetadataInt64 p "email_owner_user_id" with
  | None => reject "missing required field: email_owner_user_id"
  | Some ownerID => pret ownerID
  end.

Definition encryptedEmailCreate p : proc conn etl_error unit :=
  let! ownerID := email_owner p in
  let encryptedEmail := MetadataString p "encrypted_email" in
  reject_when (String.eqb encryptedEmail "") "missing required field: encrypted_email" ;;!
  let! grantList := check (parseAccessGrants p) in
  let! exists_ := ask (fun d => bool_decide (ownerID ∈ (encrypted_emails (desk (em d))).*1)) in
  if exists_ then pret tt
  else
    exec_em (on_desk (fun d => t ← insert_key fst (ownerID, encryptedEmail) (encrypted_emails d); Some (set_encrypted_emails t d))) ;;!
    for_each (insert_access ownerID) grantList.

Definition grant_access (ownerID : Z) (g : accessGrant) : proc conn etl_error unit :=
  let! grantorHasAccess := ask (fun d => existsb (fun r => (ea_email_owner_user_id r =? ownerID) && (ea_receiving_user_id r =? g.1.1.2))
                                          (email_access (desk (em d)))) in
  reject_when (negb grantorHasAccess) "grantor does not have access to the email" ;;!
  insert_access ownerID g.

Definition emailAccessUpdate p : proc conn etl_error unit :=
  let! ownerID := email_owner p in
  let! grantList := check (parseAccessGrants p) in
  for_each (grant_access ownerID) grantList.

(** ** Notifications *)

Definition notificationCreate p : proc conn etl_error unit :=
  reject_when (String.eqb (p_RawMetadata p) "") "notification metadata is empty" ;;!
  reject_when (bool_decide (etl_json_decode (p_RawMetadata p) ≫= unmarshal_map = None)) "invalid notification metadata JSON" ;;!
  exec_em (on_desk (fun d => Some (set_notification
    (insert_ignore (fun r => (no_group_id r, no_specifier r))
       (mkNotificationRow "" ("announcement:blocknumber:" +:+ FormatInt (p_BlockNumber p)) "announcement" (p_BlockNumber p)
          (p_BlockTime p) (p_RawMetadata p)) (notification d)) d))).

Definition existing_user p : proc conn etl_error unit :=
  let! exists_ := userExists (p_UserID p) in
  reject_when (negb exists_) "user does not exist" ;;!
  ValidateSigner p.

Definition notificationView p : proc conn etl_error unit :=
  existing_user p ;;!
  exec_em (on_desk (fun d => Some (set_notification_seen
    (insert_ignore (fun r => (se_user_id r, se_seen_at r))
       (mkSeenRow (p_UserID p) None (p_BlockTime p) (p_TxHash p) (p_BlockNumber p)) (notification_seen d)) d))).

Definition playlistExistsAny (playlistID : Z) : proc conn etl_error bool :=
  ask (fun d => existsb (fun l => (pl_playlist_id l =? playlistID) && pl_is_current l) (playlists (em d))).

Definition notificationViewPlaylist p : proc conn etl_error unit :=
  existing_user p ;;!
  let! plExists := playlistExistsAny (p_EntityID p) in
  reject_when (negb plExists) "playlist does not exist" ;;!
  exec_em (on_desk (fun d => Some (set_playlist_seen
    (insert_ignore (fun r => (se_user_id r, se_playlist_id r, se_seen_at r))
       (mkSeenRow (p_UserID p) (Some (p_EntityID p)) (p_BlockTime p) (p_TxHash p) (p_BlockNumber p)) (playlist_seen d)) d))).

(** ** Play counts and downloads *)

Definition aggregateTableExists : proc conn etl_error bool :=
  match play_count_cache with
  | Some b => pret b
  | None => ignore false (ask (fun d => bool_decide (is_Some (aggregate_plays (desk (em d))))))
  end.

Definition playCountReconcile p : proc conn etl_error unit :=
  match MetadataInt64 p "delta" with
  | None => reject "delta is required for PlayCount/Reconcile"
  | Some delta =>
      let! present := aggregateTableExists in
      if negb present then pret tt
      else exec_em (on_desk (fun d =>
        t ← aggregate_plays d;
        Some (set_aggregate_plays (Some (upsert (fun r : Z * Z => r.1 =? p_EntityID p)
          (fun r => (r.1, r.2 + delta)) (p_EntityID p, delta) t)) d)))
  end.

(** The parent of a stem, the track itself otherwise. *)
Definition parent_track trackID (stemOf : option json) : Z :=
  match (v ← stemOf; etl_json_decode (jsonb_text v) ≫= unmarshal_map) with
  | Some m => match jlookup "parent_track_id" m with Some (JNum f) => float64_to_int64 etl_cpu f | _ => trackID end
  | None => trackID
  end.

Definition trackDownload p : proc conn etl_error unit :=
  ValidateSigner p ;;!
  let trackID := p_EntityID p in
  let! exists_ := trackExists trackID in
  reject_when (negb exists_) "track does not exist" ;;!
  let! stemOf := ignore None (ask_row (fun d => (fun t => t_json t !! "stem_of") <$> List.filter (current_track trackID) (tracks (em d)))) in
  let parentTrackID := parent_track trackID stemOf in
  let! dup := ask (fun d => existsb (fun r => (dl_parent_track_id r =? parentTrackID) && (dl_track_id r =? trackID) &&
                                              String.eqb (dl_txhash r) (p_TxHash p)) (track_downloads (desk (em d)))) in
  if dup then pret tt
  else exec_em (on_desk (fun d =>
    t ← insert_key (fun r => (dl_parent_track_id r, dl_track_id r, dl_txhash r))
          (mkDownloadRow (p_TxHash p) (p_BlockNumber p) parentTrackID trackID (p_UserID p) (nullString (MetadataString p "city"))
             (nullString (MetadataString p "region")) (nullString (MetadataString p "country")) (p_BlockTime p)) (track_downloads d);
    Some (set_track_downloads t d))).
End Events.
