(* ===== verification/EtlRoutes.v ===== *)
(** * The indexer: slugs, routes, genres and release dates

    Models pkg/etl/processors/entity_manager/{slug.go, track_routes.go,
    playlist_queries.go (slugs), genre_normalize.go, genre_allowlist.go, release_date.go}.
    A title becomes a slug, and the slug a route no other item of the owner has.  White
    space, case and digits are those of ASCII. *)

From stdpp Require Import base gmap strings list.
From Stdlib Require Import ZArith Lia Ascii.
From S2P Require Import Prelude AuthState Crypto Encoding EtlBase EtlDb EtlAccounts.

Open Scope string_scope.
Open Scope Z_scope.

(** ** Text *)

Definition code (c : ascii) : Z := Z.of_N (N_of_ascii c).

(** ReplaceAllString(s, "") for a set of bytes, and for the three bytes of a right single
    quotation mark when [quote] is set. *)
Fixpoint strip_bytes (quote : bool) (bytes : list Z) (s : string) : string :=
  match s with
  | EmptyString => EmptyString
  | String c s' =>
      match s' with
      | String c1 (String c2 s3) =>
          if quote && (code c =? 226) && (code c1 =? 128) && (code c2 =? 153) then strip_bytes quote bytes s3
          else if existsb (Z.eqb (code c)) bytes then strip_bytes quote bytes s' else String c (strip_bytes quote bytes s')
      | _ => if existsb (Z.eqb (code c)) bytes then strip_bytes quote bytes s' else String c (strip_bytes quote bytes s')
      end
  end.

(** Runs of bytes that satisfy a predicate become one dash. *)
Fixpoint squeeze (f : ascii -> bool) (inside : bool) (s : string) : string :=
  match s with
  | EmptyString => EmptyString
  | String c s' =>
      if f c then (if inside then squeeze f true s' else String "-" (squeeze f true s'))
      else String c (squeeze f false s')
  end.

(** The class \s of package regexp. *)
Definition regexp_space (c : ascii) : bool := existsb (Z.eqb (code c)) [9; 10; 12; 13; 32].
Definition is_dash (c : ascii) : bool := Ascii.eqb c "-".
Definition dashes (s : string) : string := squeeze is_dash false (squeeze regexp_space false s).

(** slugStripRegexp, less its one letter outside ASCII. *)
Definition slug_strip : list Z :=
  [33; 37; 35; 36; 38; 39; 40; 41; 42; 43; 44; 47; 58; 59; 61; 63; 64; 91; 93; 0; 94; 46; 123; 125; 34; 126].
(** routeIDStripRegexp. *)
Definition route_id_strip : list Z :=
  [33; 37; 96; 35; 36; 38; 39; 40; 41; 42; 43; 44; 47; 58; 59; 61; 63; 64; 91; 93; 0].

Definition SanitizeSlug (title : string) (recordID collisionID : Z) : string :=
  let sanitized := ToLower (dashes (TrimSpace (strip_bytes true slug_strip title))) in
  let sanitized := if String.eqb sanitized "" then FormatInt recordID else sanitized in
  if 0 <? collisionID then sanitized +:+ "-" +:+ FormatInt collisionID else sanitized.

Definition CreateTrackRouteID (title handle : string) : string :=
  ToLower handle +:+ "/" +:+ ToLower (dashes (strip_bytes false route_id_strip title)).

Fixpoint utf8LastRuneIsDigit (s : string) : bool :=
  match s with
  | EmptyString => false
  | String c EmptyString => is_digit c
  | String _ s' => utf8LastRuneIsDigit s'
  end.

(** ** Genres *)

Definition GenreAllowlist : list string :=
  [ "Acoustic"; "Alternative"; "Ambient"; "Audiobooks"; "Blues"; "Classical"; "Comedy"; "Country"; "Dancehall";
    "Deep House"; "Devotional"; "Disco"; "Downtempo"; "Drum & Bass"; "Dubstep"; "Electro"; "Electronic";
    "Experimental"; "Folk"; "Funk"; "Future Bass"; "Future House"; "Glitch Hop"; "Hardstyle"; "Hip-Hop/Rap";
    "House"; "Hyperpop"; "Jazz"; "Jersey Club"; "Jungle"; "Kids"; "Latin"; "Lo-Fi"; "Metal"; "Moombahton";
    "Podcasts"; "Pop"; "Progressive House"; "Punk"; "R&B/Soul"; "Reggae"; "Rock"; "Soundtrack"; "Spoken Word";
    "Tech House"; "Techno"; "Trance"; "Trap"; "Tropical House"; "Vaporwave"; "World" ].

Definition collapseGenre (s : string) : string := String.concat " " (Fields (ToLower s)).

Definition genre_variants : list (string * string) :=
  [ ("hip-hop", "Hip-Hop/Rap"); ("hiphop", "Hip-Hop/Rap"); ("hip hop", "Hip-Hop/Rap"); ("hip hop/rap", "Hip-Hop/Rap");
    ("rap", "Hip-Hop/Rap"); ("r&b", "R&B/Soul"); ("rnb", "R&B/Soul"); ("r and b", "R&B/Soul"); ("r&b/soul", "R&B/Soul");
    ("r&b soul", "R&B/Soul"); ("drum and bass", "Drum & Bass"); ("drum&bass", "Drum & Bass"); ("dnb", "Drum & Bass");
    ("d&b", "Drum & Bass"); ("edm", "Electronic"); ("electronic dance music", "Electronic"); ("lofi", "Lo-Fi");
    ("lo fi", "Lo-Fi") ].

(** genreVariants: a community variant, or a canonical spelling. *)
Definition buildGenreVariants (key : string) : option string :=
  match List.find (fun v : string * string => String.eqb v.1 key) genre_variants with
  | Some v => Some v.2
  | None => List.find (fun g => String.eqb (collapseGenre g) key) GenreAllowlist
  end.

Definition upper_first (s : string) : string :=
  match s with
  | String c s' => let n := N_of_ascii c in
                   String (if ((97 <=? n) && (n <=? 122))%N then ascii_of_N (n - 32) else c) s'
  | EmptyString => EmptyString
  end.

Definition titleCaseGenre (s : string) : string :=
  String.concat " " ((fun w => upper_first (ToLower w)) <$> Fields s).

Definition NormalizeGenre (genre : string) : string :=
  let key := collapseGenre genre in
  if String.eqb key "" then ""
  else match buildGenreVariants key with
       | Some canonical => canonical
       | None => titleCaseGenre genre
       end.

Section Routes.
Context {J : EtlLibs} {E : EtlSql}.
Implicit Types (p : Params) (ownerID itemID : Z).

(** ** Release dates *)

Definition releaseDateLayouts : list string :=
  [ "Mon Jan 02 2006 15:04:05 GMT-0700"; "2006-01-02T15:04:05.999999999Z07:00"; "2006-01-02T15:04:05Z07:00" ].

(** In nanoseconds; a bare number is in seconds. *)
Definition parseReleaseDate (s : string) : option Z :=
  if String.eqb s "" then None
  else match foldl (fun found layout => match found with Some t => Some t | None => time_parse layout s end) None releaseDateLayouts with
       | Some t => Some t
       | None => (fun n => n * 10 ^ 9) <$> ParseInt s
       end.

Definition releaseDateOrDefault (raw : string) (blockTime : Z) : Z := default blockTime (parseReleaseDate raw).

(** ** Routes

    [routes] is track_routes or playlist_routes. *)
Section Table.
Context (routes : shelf_db -> list route_row).

Definition route_of ownerID (slug : string) (r : route_row) : bool := (rt_owner_id r =? ownerID) && String.eqb (rt_slug r) slug.

(** trackRouteSlugExists and playlistRouteSlugExists. *)
Definition route_slug_exists ownerID (slug : string) : proc conn etl_error bool :=
  ask (fun d => existsb (route_of ownerID slug) (routes (shelf (em d)))).

Definition max_collision ownerID (titleSlug : string) (t : list route_row) : option Z :=
  foldl (fun best r => Some (match best with Some m => Z.max m (rt_collision_id r) | None => rt_collision_id r end)) None
    (List.filter (fun r => (rt_owner_id r =? ownerID) && String.eqb (rt_title_slug r) titleSlug) t).

(** The loop that counts up to a free slug; [None] when the fuel is not enough. *)
Fixpoint slug_loop (fuel : nat) ownerID itemID (title : string) (collisionID : Z) : proc conn etl_error (option (string * Z)) :=
  match fuel with
  | O => pret None
  | S fuel' =>
      let newCollisionID := collisionID + 1 in
      let newSlug := SanitizeSlug title itemID newCollisionID in
      let! existingRoute := route_slug_exists ownerID newSlug in
      if existingRoute then slug_loop fuel' ownerID itemID title newCollisionID else pret (Some (newSlug, newCollisionID))
  end.

(** One round more than there are routes. *)
Definition slug_search ownerID itemID (title : string) (collisionID : Z) : proc conn etl_error (option (string * Z)) := fun c =>
  slug_loop (S (length (routes (shelf (em (c_db c)))))) ownerID itemID title collisionID c.

(** The slug, the slug of the title and the collision id. *)
Definition GenerateSlugAndCollisionID ownerID itemID (title : string) : proc conn etl_error (string * string * Z) :=
  let titleSlug := SanitizeSlug title itemID 0 in
  let! maxCollisionID := ask (fun d => max_collision ownerID titleSlug (routes (shelf (em d)))) in
  let! existingRoute := if utf8LastRuneIsDigit titleSlug then route_slug_exists ownerID titleSlug else pret false in
  match maxCollisionID, existingRoute with
  | None, false => pret (titleSlug, titleSlug, 0)
  | _, _ =>
      let! found := slug_search ownerID itemID title (default 0 maxCollisionID) in
      match found with
      | Some (slug, collisionID) => pret (slug, titleSlug, collisionID)
      | None => pfail ErrSql
      end
  end.
End Table.

Definition GeneratePlaylistSlugAndCollisionID ownerID playlistID (name : string) : proc conn etl_error (string * string * Z) :=
  GenerateSlugAndCollisionID playlist_routes ownerID playlistID name.

Definition routes_key (r : route_row) : Z * string := (rt_owner_id r, rt_slug r).

(** A current route of the item of the transaction. *)
Definition new_route p (route : string * string * Z) (isCurrent : bool) : route_row :=
  mkRouteRow route.1.1 route.1.2 route.2 (p_UserID p) (p_EntityID p) isCurrent (p_BlockHash p) (p_BlockNumber p) (p_TxHash p).

Definition insert_track_route (r : route_row) : proc conn etl_error unit :=
  exec_em (on_shelf (fun d => t ← insert_key routes_key r (track_routes d); Some (set_track_routes t d))).
Definition insert_playlist_route (r : route_row) : proc conn etl_error unit :=
  exec_em (on_shelf (fun d => t ← insert_key routes_key r (playlist_routes d); Some (set_playlist_routes t d))).

Definition retire_route (r : route_row) : route_row :=
  mkRouteRow (rt_slug r) (rt_title_slug r) (rt_collision_id r) (rt_owner_id r) (rt_item_id r) false (rt_blockhash r)
    (rt_blocknumber r) (rt_txhash r).
Definition retire_routes itemID (t : list route_row) : list route_row :=
  update_where (fun r => (rt_item_id r =? itemID) && rt_is_current r) retire_route t.

(** The route a replayed create carries, if it carries one. *)
Definition migrated_route p : option (string * string * Z) :=
  let slug := MetadataString p "route_slug" in
  if String.eqb slug "" then None
  else
    let titleSlug := MetadataString p "route_title_slug" in
    Some (slug, if String.eqb titleSlug "" then slug else titleSlug, default 0 (MetadataInt64 p "route_collision_id")).
End Routes.

Example slug_of_title :
  (SanitizeSlug "  Hello, World!  (live)" 7 0, SanitizeSlug "???" 7 2, NormalizeGenre " hip  HOP", NormalizeGenre "dark  wave")
  = ("hello-world-live", "7-2", "Hip-Hop/Rap", "Dark Wave").
Proof. vm_compute. reflexivity. Qed.
