(* ===== verification/EtlTracks.v ===== *)
(** * The indexer: tracks

    Models pkg/etl/processors/entity_manager/{track_create.go, track_row.go,
    track_update.go, track_delete.go, track_stems.go, track_remixes.go,
    track_collaborators.go, track_collaborator_approve.go, track_contest_subscribe.go,
    price_history.go, access_authorities.go, immutable_fields.go} and the track handler of
    migration.go. *)

From stdpp Require Import base gmap strings list.
From Stdlib Require Import ZArith Lia.
From S2P Require Import Prelude AuthState Crypto Encoding EtlBase EtlDb EtlAccounts EtlSocial EtlComments EtlRoutes.

Open Scope string_scope.
Open Scope Z_scope.

(** ** Rows *)

Definition set_route_id (routeID : string) (t : track_row) : track_row :=
  mkTrackRow (t_track_id t) (t_owner_id t) (t_is_current t) (t_is_delete t) (t_title t) (t_text t) (t_flags t)
    (t_json t) (t_nums t) (t_duration t) (t_release_date t) (t_ai_attribution_user_id t) (Some routeID)
    (t_allowed_api_keys t) (t_access_authorities t) (t_playlists_containing_track t)
    (t_playlists_previously_containing_track t) (t_pinned_comment_id t) (t_created_at t) (t_updated_at t)
    (t_txhash t) (t_blocknumber t).
Definition set_allowed_api_keys (keys : option (list string)) (t : track_row) : track_row :=
  mkTrackRow (t_track_id t) (t_owner_id t) (t_is_current t) (t_is_delete t) (t_title t) (t_text t) (t_flags t)
    (t_json t) (t_nums t) (t_duration t) (t_release_date t) (t_ai_attribution_user_id t) (t_route_id t) keys
    (t_access_authorities t) (t_playlists_containing_track t) (t_playlists_previously_containing_track t)
    (t_pinned_comment_id t) (t_created_at t) (t_updated_at t) (t_txhash t) (t_blocknumber t).
Definition set_access_authorities (wallets : option (list string)) (t : track_row) : track_row :=
  mkTrackRow (t_track_id t) (t_owner_id t) (t_is_current t) (t_is_delete t) (t_title t) (t_text t) (t_flags t)
    (t_json t) (t_nums t) (t_duration t) (t_release_date t) (t_ai_attribution_user_id t) (t_route_id t)
    (t_allowed_api_keys t) wallets (t_playlists_containing_track t)
    (t_playlists_previously_containing_track t) (t_pinned_comment_id t) (t_created_at t) (t_updated_at t)
    (t_txhash t) (t_blocknumber t).
Definition set_playlist_index (containing : list Z) (previously : gmap Z Z) (now : Z) (t : track_row) : track_row :=
  mkTrackRow (t_track_id t) (t_owner_id t) (t_is_current t) (t_is_delete t) (t_title t) (t_text t) (t_flags t)
    (t_json t) (t_nums t) (t_duration t) (t_release_date t) (t_ai_attribution_user_id t) (t_route_id t)
    (t_allowed_api_keys t) (t_access_authorities t) containing previously (t_pinned_comment_id t)
    (t_created_at t) now (t_txhash t) (t_blocknumber t).
(** UPDATE tracks SET is_delete = true, stem_of = NULL. *)
Definition set_deleted (p : Params) (t : track_row) : track_row :=
  mkTrackRow (t_track_id t) (t_owner_id t) (t_is_current t) true (t_title t) (t_text t) (t_flags t)
    (delete "stem_of" (t_json t)) (t_nums t) (t_duration t) (t_release_date t) (t_ai_attribution_user_id t)
    (t_route_id t) (t_allowed_api_keys t) (t_access_authorities t) (t_playlists_containing_track t)
    (t_playlists_previously_containing_track t) (t_pinned_comment_id t) (t_created_at t) (p_BlockTime p)
    (p_TxHash p) (p_BlockNumber p).
(** UPDATE tracks SET of the columns of a trackRow. *)
Definition set_columns (r : track_row) (p : Params) (t : track_row) : track_row :=
  mkTrackRow (t_track_id t) (t_owner_id t) (t_is_current t) (t_is_delete t) (Some (default "" (t_title r))) (t_text r)
    (t_flags r) (t_json r) (t_nums r) (t_duration r) (t_release_date r) (t_ai_attribution_user_id r)
    (t_route_id t) (t_allowed_api_keys t) (t_access_authorities t) (t_playlists_containing_track t)
    (t_playlists_previously_containing_track t) (t_pinned_comment_id t) (t_created_at t) (p_BlockTime p)
    (p_TxHash p) (p_BlockNumber p).
(** The row an update writes: the stored columns with new values. *)
Definition with_columns (title : option string) (text : gmap string string) (flags : gmap string bool) (js : gmap string json)
    (nums : gmap string float64) (duration : Z) (releaseDate aiAttr : option Z) (t : track_row) : track_row :=
  mkTrackRow (t_track_id t) (t_owner_id t) (t_is_current t) (t_is_delete t) title text flags js nums duration
    releaseDate aiAttr (t_route_id t) (t_allowed_api_keys t) (t_access_authorities t)
    (t_playlists_containing_track t) (t_playlists_previously_containing_track t) (t_pinned_comment_id t)
    (t_created_at t) (t_updated_at t) (t_txhash t) (t_blocknumber t).

(** The nullable text columns a create fills from the metadata, and the flags, which are
    false unless the metadata says so. *)
Definition track_texts : list string :=
  [ "genre"; "mood"; "tags"; "description"; "cover_art"; "cover_art_sizes"; "track_cid"; "preview_cid"; "orig_file_cid";
    "ddex_app"; "audio_upload_id"; "license"; "isrc"; "iswc"; "cover_original_song_title"; "cover_original_artist";
    "orig_filename"; "parental_warning_type" ].
Definition track_flags : list string :=
  [ "is_unlisted"; "is_downloadable"; "is_download_gated"; "is_stream_gated"; "is_scheduled_release"; "is_playlist_upload";
    "is_custom_bpm"; "is_custom_musical_key"; "comments_disabled"; "no_ai_use"; "is_original_available" ].
Definition track_jsons : list string :=
  [ "field_visibility"; "remix_of"; "stem_of"; "download_conditions"; "stream_conditions"; "ddex_release_ids"; "artists";
    "resource_contributors"; "indirect_resource_contributors"; "rights_controller"; "copyright_line"; "producer_copyright_line" ].

(** The columns mergeTrackFromMetadata clears when the metadata has an empty value, and
    those it never clears. *)
Definition clearable_texts : list string :=
  [ "genre"; "mood"; "tags"; "description"; "cover_art"; "cover_art_sizes"; "preview_cid"; "ddex_app"; "parental_warning_type";
    "license"; "isrc"; "iswc"; "cover_original_song_title"; "cover_original_artist" ].
Definition content_texts : list string := [ "track_cid"; "orig_file_cid"; "orig_filename"; "audio_upload_id" ].
Definition merged_flags : list string := "is_available" :: track_flags.
Definition clearable_jsons : list string :=
  [ "artists"; "resource_contributors"; "indirect_resource_contributors"; "rights_controller"; "copyright_line";
    "producer_copyright_line"; "field_visibility"; "remix_of"; "download_conditions"; "stream_conditions"; "ddex_release_ids" ].

Definition put_opt {V} (column : string) (v : option V) (m : gmap string V) : gmap string V :=
  match v with Some v => <[column := v]> m | None => delete column m end.

(** ** Immutable fields *)

Definition immutableFields : list string :=
  [ "blocknumber"; "blockhash"; "txhash"; "created_at"; "updated_at"; "slot"; "metadata_multihash"; "is_current"; "is_delete" ].
Definition immutableTrackFields : list string := (immutableFields ++ ["track_id"; "owner_id"; "is_available"; "ddex_app"])%list.
Definition immutablePlaylistFields : list string :=
  (immutableFields ++ ["playlist_id"; "playlist_owner_id"; "is_album"; "ddex_app"])%list.

Definition set_metadata (p : Params) (m : option (list (string * json))) : Params :=
  mkParams (p_UserID p) (p_EntityID p) (p_EntityType p) (p_Action p) (p_Signer p) m (p_RawMetadata p) (p_BlockNumber p)
    (p_BlockTime p) (p_BlockHash p) (p_TxHash p).

Definition stripImmutableFields (p : Params) (immutable : list string) : Params :=
  set_metadata p (List.filter (fun kv : string * json => negb (existsb (String.eqb kv.1) immutable)) <$> p_Metadata p).

(** [params.Metadata[key] = v]. *)
Definition put_metadata (p : Params) (key : string) (v : json) : Params :=
  set_metadata p ((fun m => (m ++ [(key, v)])%list) <$> p_Metadata p).

Section Tracks.
Context {J : EtlLibs} {E : EtlSql}.
Implicit Types (p : Params) (trackID : Z).

(** A field that is present and not null. *)
Definition metadataJSONRaw p (key : string) : option json :=
  match MetadataJSON p key with
  | None | Some JNull => None
  | Some v => Some v
  end.
Definition marshalJSONOrNil (v : json) : option json := match v with JNull => None | _ => Some v end.

Definition nonzero (f : float64) : bool := match f with F64 m _ => negb (m =? 0) end.

Definition metadataMapInt64 (m : list (string * json)) (key : string) : option Z :=
  match jlookup key m with
  | Some (JNum f) => Some (float64_to_int64 etl_cpu f)
  | _ => None
  end.

Definition obj_field p (key : string) : option (list (string * json)) :=
  match MetadataJSON p key with Some (JObj m) => Some m | _ => None end.

(** ** Stems and remixes *)

Definition upsertStemRow (parentTrackID childTrackID : Z) : proc conn etl_error unit :=
  exec_em (on_shelf (fun d => Some (set_stems (insert_ignore id (parentTrackID, childTrackID) (stems d)) d))).

Definition updateStemsTable p : proc conn etl_error unit :=
  match (m ← obj_field p "stem_of"; metadataMapInt64 m "parent_track_id") with
  | Some parentID => upsertStemRow parentID (p_EntityID p)
  | None => pret tt
  end.

Definition deleteStemsForChild (childTrackID : Z) : proc conn etl_error unit :=
  exec_em (on_shelf (fun d => Some (set_stems (List.filter (fun r : Z * Z => negb (r.2 =? childTrackID)) (stems d)) d))).

Definition getRemixParentTrackIDs p : list Z :=
  match (m ← obj_field p "remix_of"; jlookup "tracks" m) with
  | Some (JArr l) => omap (fun t => match t with JObj entry => metadataMapInt64 entry "parent_track_id" | _ => None end) l
  | _ => []
  end.

Definition updateRemixesTable p : proc conn etl_error unit :=
  exec_em (on_shelf (fun d => Some (set_remixes (List.filter (fun r : Z * Z => negb (r.2 =? p_EntityID p)) (remixes d)) d))) ;;!
  for_each (fun parentID =>
    exec_em (on_shelf (fun d => Some (set_remixes (insert_ignore id (parentID, p_EntityID p) (remixes d)) d))))
    (getRemixParentTrackIDs p).

(** ** Collaborators *)

Definition collaborator_id (item : json) : Z :=
  match item with
  | JNum f => float64_to_int64 etl_cpu f
  | JObj m => default 0 (metadataMapInt64 m "user_id")
  | _ => 0
  end.

Fixpoint collect_ids (ownerID : Z) (items : list json) (ids : list Z) : list Z :=
  match items with
  | [] => ids
  | item :: items' =>
      let cid := collaborator_id item in
      if (cid =? 0) || (cid =? ownerID) || bool_decide (cid ∈ ids) then collect_ids ownerID items' ids
      else
        let ids' := (ids ++ [cid])%list in
        if MaxTrackCollaborators <=? Z.of_nat (length ids') then ids' else collect_ids ownerID items' ids'
  end.

Definition getCollaboratorUserIDs p (ownerID : Z) : list Z :=
  match MetadataJSON p "collaborators" with
  | Some (JArr l) => collect_ids ownerID l []
  | _ => []
  end.

Definition collaborators_key (r : collaborator_row) : Z * Z := (co_track_id r, co_user_id r).

Definition updateTrackCollaboratorsTable p (ownerID : Z) : proc conn etl_error unit :=
  let desired := getCollaboratorUserIDs p ownerID in
  exec_em (on_shelf (fun d => Some (set_track_collaborators (List.filter
    (fun r => negb ((co_track_id r =? p_EntityID p) && negb (bool_decide (co_user_id r ∈ desired)))) (track_collaborators d)) d))) ;;!
  exec_em (on_shelf (fun d => Some (set_track_collaborators (foldl (fun t uid => insert_ignore collaborators_key
    (mkCollaboratorRow (p_EntityID p) uid ownerID "pending" (p_BlockTime p) (p_BlockTime p) (p_TxHash p) (p_BlockNumber p)) t)
    (track_collaborators d) desired) d))).

Definition own_credit p (r : collaborator_row) : bool := (co_track_id r =? p_EntityID p) && (co_user_id r =? p_UserID p).

Definition getTrackCollaboratorStatus p : proc conn etl_error string :=
  ask_row (fun d => co_status <$> List.filter (own_credit p) (track_collaborators (shelf (em d)))).

Definition setTrackCollaboratorStatus p (status : string) : proc conn etl_error unit :=
  exec_em (on_shelf (fun d => Some (set_track_collaborators (update_where (own_credit p)
    (fun r => mkCollaboratorRow (co_track_id r) (co_user_id r) (co_invited_by r) status (co_created_at r) (p_BlockTime p)
                (co_txhash r) (co_blocknumber r)) (track_collaborators d)) d))).

Definition validateTrackCollaboratorPending p : proc conn etl_error unit :=
  ValidateSigner p ;;!
  let! status := or_reject "no collaborator invite" (getTrackCollaboratorStatus p) in
  reject_when (negb (String.eqb status "pending")) "collaborator invite is not pending".
Definition validateTrackCollaboratorActive p : proc conn etl_error unit :=
  ValidateSigner p ;;!
  let! status := or_reject "no collaborator invite" (getTrackCollaboratorStatus p) in
  reject_when (negb (String.eqb status "pending") && negb (String.eqb status "accepted")) "collaborator credit is not active".

Definition trackCollaboratorApprove p : proc conn etl_error unit :=
  validateTrackCollaboratorPending p ;;! setTrackCollaboratorStatus p "accepted".
Definition trackCollaboratorReject p : proc conn etl_error unit :=
  validateTrackCollaboratorActive p ;;! setTrackCollaboratorStatus p "rejected".

(** ** Contest submissions *)

Definition open_contest (parentTrackID now : Z) (e : event_row) : bool :=
  String.eqb (ev_event_type e) "remix_contest" && bool_decide (ev_entity_id e = Some parentTrackID) && negb (ev_is_deleted e) &&
  match ev_end_date e with Some t => now <? t | None => true end.

Definition contestEventSubscriptionExists (subscriberID eventID : Z) : proc conn etl_error bool :=
  subscriptionExists subscriberID eventID EntityTypeEvent.

(** The INSERT yields to the primary key (subscriber_id, user_id, txhash) only; the unique
    index on current rows refuses it. *)
Definition insert_subscription (k : Z * Z * string) (txhash : string) p (t : list (social_row (Z * Z * string) Z)) :
    option (list (social_row (Z * Z * string) Z)) :=
  if existsb (fun r => bool_decide (((s_key r).1, s_txhash r) = (k.1, txhash))) t then Some t
  else if existsb (current_row k) t then None
  else Some (t ++ [mkSocialRow k true false k.1.2 (p_BlockTime p) txhash (p_BlockNumber p)])%list.

Definition autoSubscribeToContestOnSubmission p : proc conn etl_error unit :=
  match obj_field p "stem_of" with
  | Some _ => pret tt
  | None =>
      match getRemixParentTrackIDs p with
      | [] => pret tt
      | parentTrackID :: _ => fun c =>
          match ask_row (fun d => (fun e => (ev_event_id e, ev_user_id e)) <$>
                                   List.filter (open_contest parentTrackID (p_BlockTime p)) (events (em d))) c with
          | (c', Err ErrNoRows) => (c', Ok tt)
          | (c', Err e) => (c', Err e)
          | (c', Ok (eventID, hostID)) =>
              (if p_UserID p =? hostID then pret tt
               else
                 let! already := contestEventSubscriptionExists (p_UserID p) eventID in
                 if already then pret tt
                 else
                   let txhash := str_take 200 ("auto_e" +:+ FormatInt eventID +:+ "_" +:+ p_TxHash p) in
                   exec_em (fun d => t ← insert_subscription (p_UserID p, eventID, EntityTypeEvent) txhash p (subscriptions d);
                                     Some (set_subscriptions t d))) c'
          end
      end
  end.

(** ** Price history *)

Definition metadataBoolOr p (key : string) (def : bool) : bool := MetadataBoolOr p key def.

Definition pickPriceConditions p : option (string * list (string * json)) :=
  match (if metadataBoolOr p "is_stream_gated" false then obj_field p "stream_conditions" else None) with
  | Some c => Some ("stream", c)
  | None =>
      match (if metadataBoolOr p "is_download_gated" false then obj_field p "download_conditions" else None) with
      | Some c => Some ("download", c)
      | None => None
      end
  end.

(** The price and splits of a USDC condition: none, incomplete, or complete. *)
Definition usdc_price (conditions : list (string * json)) : res etl_error (option (Z * json)) :=
  match jlookup "usdc_purchase" conditions with
  | Some (JObj usdc) =>
      match metadataMapInt64 usdc "price" with
      | None => invalid "usdc_purchase missing or non-int price"
      | Some priceCents =>
          match jlookup "splits" usdc with
          | None => invalid "usdc_purchase missing splits"
          | Some splits => Ok (Some (priceCents, splits))
          end
      end
  | _ => Ok None
  end.

(** The newest row of an item. *)
Definition newest_price (itemID : Z) (t : list price_row) : list price_row :=
  let rows := List.filter (fun r => ph_item_id r =? itemID) t in
  List.filter (fun r => forallb (fun r' => ph_block_timestamp r' <=? ph_block_timestamp r) rows) rows.

(** The stored splits come back as Postgres writes jsonb. *)
Definition last_price_matches (history : shelf_db -> list price_row) (itemID priceCents : Z) (splits : json) (access : string) :
    proc conn etl_error bool :=
  ignore false
    (let! r := ask_row (fun d => newest_price itemID (history (shelf (em d)))) in
     pret ((ph_total_price_cents r =? priceCents) && String.eqb (jsonb_text (ph_splits r)) (json_marshal splits) &&
           String.eqb (ph_access r) access)).

Definition price_key (r : price_row) : Z * Z := (ph_item_id r, ph_block_timestamp r).

Definition lastTrackPriceMatches (trackID priceCents : Z) (splits : json) (access : string) : proc conn etl_error bool :=
  last_price_matches track_price_history trackID priceCents splits access.

Definition updateTrackPriceHistory p : proc conn etl_error unit :=
  match pickPriceConditions p with
  | None => pret tt
  | Some (access, conditions) =>
      let! price := check (usdc_price conditions) in
      match price with
      | None => pret tt
      | Some (priceCents, splits) =>
          let! same := lastTrackPriceMatches (p_EntityID p) priceCents splits access in
          if same then pret tt
          else exec_em (on_shelf (fun d => Some (set_track_price_history (insert_ignore price_key
                 (mkPriceRow (p_EntityID p) splits priceCents (p_BlockNumber p) (p_BlockTime p) access) (track_price_history d)) d)))
      end
  end.

(** ** Access *)

(** Absent, null, or a list of strings. *)
Definition string_list (f : string -> string) (l : list json) : list string :=
  omap (fun v => match v with JStr s => Some (f s) | _ => None end) l.

Definition normalizeAllowedAPIKeys (m : list (string * json)) : option (option (list string)) :=
  match jlookup "allowed_api_keys" m with
  | None => None
  | Some (JArr l) => Some (Some (string_list ToLower l))
  | Some _ => Some None
  end.

Definition normalizeAccessAuthorities (m : list (string * json)) : option (option (list string)) :=
  match jlookup "access_authorities" m with
  | None => None
  | Some JNull => Some None
  | Some (JArr l) => Some (Some (string_list TrimSpace l))
  | Some _ => None
  end.

Definition parseEnvelopeRoot (raw : string) : option (list (string * json)) :=
  if String.eqb raw "" then None else etl_json_decode raw ≫= unmarshal_map.

Definition authority_source p (metadata : list (string * json)) : list (string * json) :=
  match parseEnvelopeRoot (p_RawMetadata p) with
  | Some root => match jlookup "access_authorities" root with Some _ => root | None => metadata end
  | None => metadata
  end.

Definition applyAccessNormalization p : proc conn etl_error unit :=
  match p_Metadata p with
  | None => pret tt
  | Some metadata =>
      match normalizeAllowedAPIKeys metadata with
      | Some keys => update_tracks (p_EntityID p) (set_allowed_api_keys keys)
      | None => pret tt
      end ;;!
      match normalizeAccessAuthorities (authority_source p metadata) with
      | Some wallets => update_tracks (p_EntityID p) (set_access_authorities wallets)
      | None => pret tt
      end
  end.

(** ** Creating *)

Definition getTrackOwnerHandle (userID : Z) : proc conn etl_error string := fun c =>
  match ask_row (fun d => u_handle <$> List.filter (current_user userID) (users (em d))) c with
  | (c', Ok (Some h)) => (c', Ok (if String.eqb h "" then "user-" +:+ FormatInt userID else h))
  | (c', Ok None) | (c', Err ErrNoRows) => (c', Ok ("user-" +:+ FormatInt userID))
  | (c', Err e) => (c', Err e)
  end.

(** Genre is replaced by its canonical form in the metadata. *)
Definition normalize_genre p : Params :=
  let genre := MetadataString p "genre" in
  if String.eqb genre "" then p else put_metadata p "genre" (JStr (NormalizeGenre genre)).

Definition validateTrackCreate p : proc conn etl_error Params :=
  reject_when (negb (String.eqb (p_EntityType p) EntityTypeTrack)) "wrong entity type" ;;!
  reject_when (negb (String.eqb (p_Action p) EtlActionCreate)) "wrong action" ;;!
  reject_when (p_EntityID p <? TrackIDOffset) "track id below offset" ;;!
  reject_when (bool_decide (p_Metadata p = None)) "metadata is required for track creation" ;;!
  reject_when (String.eqb (MetadataString p "title") "") "title is required for track creation" ;;!
  match MetadataInt64 p "owner_id" with
  | None => reject "owner_id is required in metadata for track creation"
  | Some ownerID =>
      reject_when (negb (ownerID =? p_UserID p)) "metadata owner_id must match transaction user id" ;;!
      check (ValidateDescription (MetadataString p "description")) ;;!
      check (ValidateGenre (MetadataString p "genre")) ;;!
      let p := normalize_genre p in
      check (ValidateAccessConditions p) ;;!
      ValidateSigner p ;;!
      let! exists_ := trackExists (p_EntityID p) in
      reject_when exists_ "track already exists" ;;!
      pret p
  end.

Definition create_nums p : gmap string float64 :=
  let bpm := match MetadataFloat64 p "bpm" with Some v => if nonzero v then Some v else None | None => None end in
  put_opt "bpm" bpm (put_opt "preview_start_seconds" (MetadataFloat64 p "preview_start_seconds") ∅).

Definition positive_duration p : option Z :=
  match MetadataInt64 p "duration" with Some d => if 0 <? d then Some d else None | None => None end.

(** The row a create inserts. *)
Definition created_track p (routeID : string) (isDelete : bool) : track_row :=
  let texts := foldl (fun t c => put_text c (nullString (MetadataString p c)) t) ∅ track_texts in
  let key := MetadataString p "musical_key" in
  let flags := foldl (fun t c => <[c := MetadataBoolOr p c false]> t) ∅ track_flags in
  mkTrackRow (p_EntityID p) (p_UserID p) true isDelete (Some (MetadataString p "title"))
    (put_text "musical_key" (if isValidMusicalKey key then nullString key else None) texts)
    (<["is_available" := MetadataBoolOr p "is_available" true]> flags)
    (foldl (fun t c => put_opt c (metadataJSONRaw p c) t) ∅ track_jsons)
    (create_nums p) (default 0 (positive_duration p))
    (Some (releaseDateOrDefault (MetadataString p "release_date") (p_BlockTime p))) (MetadataInt64 p "ai_attribution_user_id")
    (Some routeID) None None [] ∅ None (p_BlockTime p) (p_BlockTime p) (p_TxHash p) (p_BlockNumber p).

(** tracks_pkey is on (track_id, txhash). *)
Definition tracks_key (t : track_row) : Z * string := (t_track_id t, t_txhash t).

Definition insert_track (row : track_row) : proc conn etl_error unit :=
  exec_em (fun d => t ← insert_key tracks_key row (tracks d); Some (set_tracks t d)).

(** The rows that go with a new track, between the track and its route. *)
Definition insert_track_extras p : proc conn etl_error unit :=
  updateStemsTable p ;;!
  (if bool_decide (getRemixParentTrackIDs p = []) then pret tt else updateRemixesTable p) ;;!
  (if bool_decide (getCollaboratorUserIDs p (p_UserID p) = []) then pret tt else updateTrackCollaboratorsTable p (p_UserID p)) ;;!
  autoSubscribeToContestOnSubmission p ;;!
  updateTrackPriceHistory p ;;!
  applyAccessNormalization p.

Definition insertTrackAndRouteWithState p (isDelete : bool) (route : option (string * string * Z)) : proc conn etl_error unit :=
  let title := MetadataString p "title" in
  let! handle := getTrackOwnerHandle (p_UserID p) in
  insert_track (created_track p (CreateTrackRouteID title handle) isDelete) ;;!
  insert_track_extras p ;;!
  let! r := match route with
            | Some r => pret r
            | None => GenerateSlugAndCollisionID track_routes (p_UserID p) (p_EntityID p) title
            end in
  insert_track_route (new_route p r true).

Definition insertTrackAndRoute p : proc conn etl_error unit := insertTrackAndRouteWithState p false None.

Definition trackCreate p : proc conn etl_error Params :=
  let! p' := validateTrackCreate p in
  insertTrackAndRoute p' ;;!
  pret p'.

Definition migratedTrackCreate p : proc conn etl_error Params :=
  reject_when (negb (String.eqb (p_EntityType p) EntityTypeTrack)) "wrong entity type" ;;!
  reject_when (bool_decide (p_Metadata p = None)) "metadata is required for track creation" ;;!
  match MetadataInt64 p "owner_id" with
  | None => reject "owner_id is required in metadata for track creation"
  | Some ownerID =>
      reject_when (negb (ownerID =? p_UserID p)) "metadata owner_id must match transaction user id" ;;!
      let p := normalize_genre p in
      ValidateSigner p ;;!
      let! exists_ := trackExists (p_EntityID p) in
      reject_when exists_ "track already exists" ;;!
      insertTrackAndRouteWithState p (MetadataBoolOr p "is_delete" false) (migrated_route p) ;;!
      pret p
  end.

(** ** Editing *)

Definition live_track trackID (t : track_row) : bool := current_track trackID t && negb (t_is_delete t).

Definition loadCurrentTrackRow trackID : proc conn etl_error track_row :=
  no_rows "track is deleted or does not exist" (ask_row (fun d => List.filter (live_track trackID) (tracks (em d)))).

(** The checks validateTrackUpdate and validateTrackDelete share. *)
Definition validate_track_owner p : proc conn etl_error unit :=
  ValidateSigner p ;;!
  let! ok := trackExists (p_EntityID p) in
  reject_when (negb ok) "track does not exist" ;;!
  let! row := loadCurrentTrackRow (p_EntityID p) in
  reject_when (negb (t_owner_id row =? p_UserID p)) "track does not match user".

Definition validateTrackUpdate p : proc conn etl_error Params :=
  reject_when (negb (String.eqb (p_EntityType p) EntityTypeTrack)) "wrong entity type" ;;!
  reject_when (negb (String.eqb (p_Action p) EtlActionUpdate)) "wrong action" ;;!
  check (ValidateDescription (MetadataString p "description")) ;;!
  check (ValidateGenre (MetadataString p "genre")) ;;!
  let p := normalize_genre p in
  check (ValidateAccessConditions p) ;;!
  validate_track_owner p ;;!
  pret p.

Definition merge_text p (t : gmap string string) (c : string) : gmap string string :=
  match MetadataJSON p c with
  | None => t
  | Some _ => put_text c (nullString (MetadataString p c)) t
  end.
Definition merge_content p (t : gmap string string) (c : string) : gmap string string :=
  let s := MetadataString p c in if String.eqb s "" then t else <[c := s]> t.
Definition merge_flag p (t : gmap string bool) (c : string) : gmap string bool :=
  match MetadataBool p c with Some v => <[c := v]> t | None => t end.
Definition merge_json p (t : gmap string json) (c : string) : gmap string json :=
  match MetadataJSON p c with Some v => put_opt c (marshalJSONOrNil v) t | None => t end.
Definition merge_key p (t : gmap string string) : gmap string string :=
  match MetadataJSON p "musical_key" with
  | Some JNull => delete "musical_key" t
  | Some (JStr s) => if isValidMusicalKey s then <["musical_key" := s]> t else t
  | _ => t
  end.
(** An explicit null clears, a number that is accepted sets, anything else is ignored. *)
Definition merge_num p (accept : float64 -> bool) (c : string) (t : gmap string float64) : gmap string float64 :=
  match MetadataJSON p c with
  | Some JNull => delete c t
  | Some (JNum v) => if accept v then <[c := v]> t else t
  | _ => t
  end.

Definition mergeTrackFromMetadata p (base : track_row) : track_row :=
  let title := MetadataString p "title" in
  let texts := foldl (merge_content p) (foldl (merge_text p) (t_text base) clearable_texts) content_texts in
  let jsons := foldl (merge_json p) (t_json base) clearable_jsons in
  with_columns
    (if String.eqb title "" then t_title base else Some title)
    (merge_key p texts)
    (foldl (merge_flag p) (t_flags base) merged_flags)
    (match metadataJSONRaw p "stem_of" with Some v => <["stem_of" := v]> jsons | None => jsons end)
    (merge_num p nonzero "bpm" (merge_num p (fun _ => true) "preview_start_seconds" (t_nums base)))
    (default (t_duration base) (positive_duration p))
    (match parseReleaseDate (MetadataString p "release_date") with Some t => Some t | None => t_release_date base end)
    (match MetadataInt64 p "ai_attribution_user_id" with Some v => Some v | None => t_ai_attribution_user_id base end)
    base.

Definition updateTrackRow p (r : track_row) : proc conn etl_error unit :=
  exec_em (fun d => t ← update_key tracks_key (current_track (t_track_id r)) (set_columns r p) (tracks d);
                    Some (set_tracks t d)).

Definition has_key p (key : string) : bool := bool_decide (is_Some (MetadataJSON p key)).

(** The route of a track whose title changed. *)
Definition move_track_route p (merged : track_row) : proc conn etl_error unit :=
  let title := default "" (t_title merged) in
  let! handle := getTrackOwnerHandle (t_owner_id merged) in
  update_tracks (p_EntityID p) (set_route_id (CreateTrackRouteID title handle)) ;;!
  exec_em (on_shelf (fun d => Some (set_track_routes (retire_routes (p_EntityID p) (track_routes d)) d))) ;;!
  let! r := GenerateSlugAndCollisionID track_routes (p_UserID p) (p_EntityID p) title in
  insert_track_route (new_route p r true).

Definition updateTrack p : proc conn etl_error Params :=
  let! base := loadCurrentTrackRow (p_EntityID p) in
  let p := stripImmutableFields p immutableTrackFields in
  let merged := mergeTrackFromMetadata p base in
  let titleChanged := negb (String.eqb (MetadataString p "title") "") &&
                      negb (String.eqb (default "" (t_title merged)) (default "" (t_title base))) in
  updateTrackRow p merged ;;!
  (if has_key p "remix_of" then updateRemixesTable p else pret tt) ;;!
  updateStemsTable p ;;!
  (if has_key p "collaborators" then updateTrackCollaboratorsTable p (t_owner_id merged) else pret tt) ;;!
  updateTrackPriceHistory p ;;!
  applyAccessNormalization p ;;!
  (if titleChanged then move_track_route p merged else pret tt) ;;!
  pret p.

Definition trackUpdate p : proc conn etl_error Params :=
  let! p' := validateTrackUpdate p in
  updateTrack p'.

(** ** Deleting *)

Definition validateTrackDelete p : proc conn etl_error unit :=
  reject_when (negb (String.eqb (p_EntityType p) EntityTypeTrack)) "wrong entity type" ;;!
  reject_when (negb (String.eqb (p_Action p) EtlActionDelete)) "wrong action" ;;!
  validate_track_owner p.

Definition deleteTrack p : proc conn etl_error unit :=
  exec_em (fun d => t ← update_key tracks_key (current_track (p_EntityID p)) (set_deleted p) (tracks d); Some (set_tracks t d)) ;;!
  deleteStemsForChild (p_EntityID p).

Definition trackDelete p : proc conn etl_error unit := validateTrackDelete p ;;! deleteTrack p.
End Tracks.
