(* ===== verification/EtlPlaylists.v ===== *)
(** * The indexer: playlists

    Models pkg/etl/processors/entity_manager/{playlist_create.go, playlist_row.go,
    playlist_update.go, playlist_delete.go, playlist_tracks.go, playlist_tombstones.go},
    the album part of price_history.go and the playlist handler of migration.go: a
    playlist, its contents, the membership of each track and the reverse index on tracks
    that says which playlists a track is and was in. *)

From stdpp Require Import base gmap strings list sorting.
From Stdlib Require Import ZArith Lia.
From S2P Require Import Prelude AuthState Crypto Encoding EtlBase EtlDb EtlAccounts EtlSocial EtlComments EtlRoutes EtlTracks.

Open Scope string_scope.
Open Scope Z_scope.

(** ** Rows *)

Definition playlist_texts : list string :=
  [ "playlist_name"; "description"; "playlist_image_multihash"; "playlist_image_sizes_multihash"; "upc"; "ddex_app";
    "parental_warning_type" ].
Definition playlist_flags : list string :=
  [ "is_album"; "is_private"; "is_image_autogenerated"; "is_stream_gated"; "is_scheduled_release" ].
Definition playlist_jsons : list string :=
  [ "stream_conditions"; "ddex_release_ids"; "artists"; "copyright_line"; "producer_copyright_line" ].

Definition with_playlist_columns (text : gmap string string) (flags : gmap string bool) (js : gmap string json) (contents : json)
    (releaseDate lastAddedTo : option Z) (l : playlist_row) : playlist_row :=
  mkPlaylistRow (pl_playlist_id l) (pl_owner_id l) (pl_is_current l) (pl_is_delete l) text flags js contents releaseDate
    lastAddedTo (pl_created_at l) (pl_updated_at l) (pl_txhash l) (pl_blocknumber l).
(** UPDATE playlists SET of the columns of a playlistRow. *)
Definition set_playlist_columns (r : playlist_row) (p : Params) (l : playlist_row) : playlist_row :=
  mkPlaylistRow (pl_playlist_id l) (pl_owner_id l) (pl_is_current l) (pl_is_delete l) (pl_text r) (pl_flags r) (pl_json r)
    (pl_contents r) (pl_release_date r) (pl_last_added_to r) (pl_created_at l) (p_BlockTime p) (p_TxHash p) (p_BlockNumber p).
Definition set_playlist_deleted (p : Params) (l : playlist_row) : playlist_row :=
  mkPlaylistRow (pl_playlist_id l) (pl_owner_id l) (pl_is_current l) true (pl_text l) (pl_flags l) (pl_json l) (pl_contents l)
    (pl_release_date l) (pl_last_added_to l) (pl_created_at l) (p_BlockTime p) (p_TxHash p) (p_BlockNumber p).

Section Playlists.
Context {J : EtlLibs} {E : EtlSql}.
Implicit Types (p : Params) (playlistID trackID : Z).

(** ** Contents *)

(** hashes.MaybeDecode. *)
Definition MaybeDecode (s : string) : option Z :=
  match hashids_Decode s with Some z => Some z | None => ParseInt s end.

Definition track_id_value (v : json) : option Z :=
  match v with
  | JNum f => Some (float64_to_int64 etl_cpu f)
  | JStr s => if String.eqb s "" then None else MaybeDecode s
  | _ => None
  end.

Definition pickPlaylistTrackID (entry : list (string * json)) : option Z :=
  match jlookup "track_id" entry ≫= track_id_value with
  | Some z => Some z
  | None => jlookup "track" entry ≫= track_id_value
  end.

(** The entries of playlist_contents, in either of its forms. *)
Definition content_entries (contents : json) : option (list json) :=
  match contents with
  | JObj m => match jlookup "track_ids" m with Some (JArr l) => Some l | _ => None end
  | JArr l => Some l
  | _ => None
  end.

Definition entry_track_ids (entries : list json) : list Z :=
  omap (fun e => match e with JObj entry => pickPlaylistTrackID entry | _ => None end) entries.

Definition contents_track_ids (contents : json) : list Z := entry_track_ids (default [] (content_entries contents)).

Definition extractPlaylistTrackIDs p : list Z :=
  match MetadataJSON p "playlist_contents" with
  | None => []
  | Some contents => contents_track_ids contents
  end.

(** The track ids of stored contents, read back as text. *)
Definition playlistContentsTrackIDs (stored : json) : list Z :=
  match etl_json_decode (jsonb_text stored) ≫= unmarshal_map with
  | Some m => contents_track_ids (JObj m)
  | None => []
  end.

Fixpoint pickJSONInt (entry : list (string * json)) (keys : list string) : option Z :=
  match keys with
  | [] => None
  | k :: keys' =>
      match jlookup k entry with
      | Some (JNum f) => Some (float64_to_int64 etl_cpu f)
      | _ => pickJSONInt entry keys'
      end
  end.

Definition positive_time (entry : list (string * json)) : option Z :=
  match pickJSONInt entry ["time"; "timestamp"] with Some t => if 0 <? t then Some t else None | None => None end.

(** The stored times by track; a later entry wins, and an entry that is not an object
    makes the whole blob unreadable. *)
Definition playlistContentsTimes (stored : option json) : gmap Z Z :=
  match (v ← stored; etl_json_decode (jsonb_text v)) with
  | Some (JObj m) =>
      match jlookup "track_ids" m with
      | Some (JArr l) =>
          if forallb (fun e => match e with JObj _ | JNull => true | _ => false end) l then
            foldl (fun times e =>
              match e with
              | JObj entry => match pickPlaylistTrackID entry, positive_time entry with
                              | Some z, Some t => <[z := t]> times
                              | _, _ => times
                              end
              | _ => times
              end) ∅ l
          else ∅
      | _ => ∅
      end
  | _ => ∅
  end.

(** An integer as a JSON number. *)
Definition json_int (z : Z) : json := JNum (F64 z 0).

(** Seconds of a time in nanoseconds. *)
Definition unix (t : Z) : Z := t / 10 ^ 9.

(** A block has a time, so that an entry always gets one. *)
Definition canonicalizePlaylistEntry (entry : list (string * json)) (blockTime : Z) (priorTimes : gmap Z Z) : option json :=
  trackID ← pickPlaylistTrackID entry;
  let time := match positive_time entry with
              | Some t => t
              | None => default (unix blockTime) (priorTimes !! trackID)
              end in
  Some (JObj ([("track", json_int trackID); ("time", json_int time)] ++
    match pickJSONInt entry ["metadata_time"; "metadata_timestamp"] with
    | Some t => [("metadata_time", json_int t)]
    | None => []
    end)%list).

Definition track_ids_json (entries : list json) : json := JObj [("track_ids", JArr entries)].

Definition normalizePlaylistContentsJSON p (prior : option json) : json :=
  match MetadataJSON p "playlist_contents" with
  | None | Some JNull => track_ids_json []
  | Some raw =>
      let priorTimes := playlistContentsTimes prior in
      track_ids_json (omap (fun e => match e with
                                     | JObj entry => canonicalizePlaylistEntry entry (p_BlockTime p) priorTimes
                                     | _ => None
                                     end) (default [] (content_entries raw)))
  end.

Definition metadataPlaylistContentsJSON p : json := normalizePlaylistContentsJSON p None.

Definition playlistAddedTrack p (oldContents : json) : bool :=
  let old := playlistContentsTrackIDs oldContents in
  existsb (fun z => negb (bool_decide (z ∈ old))) (extractPlaylistTrackIDs p).

(** ** Membership *)

Definition member_is playlistID trackID (r : member_row) : bool := (pt_playlist_id r =? playlistID) && (pt_track_id r =? trackID).
Definition members_key (r : member_row) : Z * Z := (pt_playlist_id r, pt_track_id r).

Definition set_removed (removed : bool) (now : Z) (r : member_row) : member_row :=
  mkMemberRow (pt_playlist_id r) (pt_track_id r) removed (pt_created_at r) now.

Definition set_member playlistID (removed : bool) (now : Z) trackID : proc conn etl_error unit :=
  exec_em (on_shelf (fun d => Some (set_playlist_tracks
    (update_where (member_is playlistID trackID) (set_removed removed now) (playlist_tracks d)) d))).

Definition add_member playlistID (now : Z) trackID : proc conn etl_error unit :=
  exec_em (on_shelf (fun d => Some (set_playlist_tracks
    (insert_ignore members_key (mkMemberRow playlistID trackID false now now) (playlist_tracks d)) d))).

(** The tracks that joined: their index gains the playlist and loses its removal. *)
Definition index_added playlistID (now : Z) (t : track_row) : track_row :=
  set_playlist_index
    (if bool_decide (playlistID ∈ t_playlists_containing_track t) then t_playlists_containing_track t
     else (t_playlists_containing_track t ++ [playlistID])%list)
    (delete playlistID (t_playlists_previously_containing_track t)) now t.

Definition index_removed playlistID (now : Z) (t : track_row) : track_row :=
  set_playlist_index
    (List.filter (fun z => negb (z =? playlistID)) (t_playlists_containing_track t))
    (match t_playlists_previously_containing_track t !! playlistID with
     | Some _ => t_playlists_previously_containing_track t
     | None => <[playlistID := unix now]> (t_playlists_previously_containing_track t)
     end) now t.

Definition among (ids : list Z) (t : track_row) : bool := bool_decide (t_track_id t ∈ ids) && t_is_current t.
Definition in_index playlistID (t : track_row) : bool := bool_decide (playlistID ∈ t_playlists_containing_track t).
Definition was_in_index playlistID (t : track_row) : bool := bool_decide (is_Some (t_playlists_previously_containing_track t !! playlistID)).

Definition index_joined playlistID (added : list Z) (now : Z) : proc conn etl_error unit :=
  if bool_decide (added = []) then pret tt
  else exec_em (fun d => Some (set_tracks (update_where
         (fun t => among added t && (negb (in_index playlistID t) || was_in_index playlistID t)) (index_added playlistID now) (tracks d)) d)).

Definition index_left playlistID (removed : list Z) (now : Z) : proc conn etl_error unit :=
  if bool_decide (removed = []) then pret tt
  else exec_em (fun d => Some (set_tracks (update_where
         (fun t => among removed t && (in_index playlistID t || negb (was_in_index playlistID t))) (index_removed playlistID now) (tracks d)) d)).

Definition updateTrackPlaylistIndex playlistID (added removed : list Z) (now : Z) : proc conn etl_error unit :=
  index_joined playlistID added now ;;! index_left playlistID removed now.

(** The rows of the playlist: track and is_removed.  The code keeps them in a map, whose
    order its loop does not depend on: the statements are about one track each. *)
Definition members_of playlistID (t : list member_row) : list (Z * bool) :=
  (fun r => (pt_track_id r, pt_is_removed r)) <$> List.filter (fun r => pt_playlist_id r =? playlistID) t.

(** What the statements over the stored members are: those that rejoin and those that leave. *)
Definition rejoining (updated : list Z) (existing : list (Z * bool)) : list Z :=
  fst <$> List.filter (fun r : Z * bool => bool_decide (r.1 ∈ updated) && r.2) existing.
Definition leaving (updated : list Z) (existing : list (Z * bool)) : list Z :=
  fst <$> List.filter (fun r : Z * bool => negb (bool_decide (r.1 ∈ updated)) && negb r.2) existing.
Definition joining (updated : list Z) (existing : list (Z * bool)) : list Z :=
  List.filter (fun z => negb (bool_decide (z ∈ existing.*1))) updated.

(** The loop over the stored members: recover one that is listed again, mark one that is
    not listed any more. *)
Definition keep_member playlistID (updated : list Z) (now : Z) (r : Z * bool) : proc conn etl_error unit :=
  if bool_decide (r.1 ∈ updated) then (if r.2 then set_member playlistID false now r.1 else pret tt)
  else (if r.2 then pret tt else set_member playlistID true now r.1).

Definition updatePlaylistTracks p : proc conn etl_error unit :=
  let playlistID := p_EntityID p in
  let now := p_BlockTime p in
  let updated := extractPlaylistTrackIDs p in
  let! existing := ask (fun d => members_of playlistID (playlist_tracks (shelf (em d)))) in
  for_each (keep_member playlistID updated now) existing ;;!
  for_each (add_member playlistID now) (joining updated existing) ;;!
  updateTrackPlaylistIndex playlistID (rejoining updated existing ++ joining updated existing)%list (leaving updated existing) now.

(** ** Removed tracks of a replayed playlist: track, joined, left *)

Definition removedPlaylistTrack : Type := Z * option Z * option Z.

Definition stringField (obj : list (string * json)) (key : string) : string :=
  match jlookup key obj with Some (JStr s) => s | _ => "" end.

Definition migratedPlaylistRemovedTracks p : list removedPlaylistTrack :=
  match MetadataJSON p "removed_tracks" with
  | Some (JArr l) =>
      omap (fun e => match e with
                     | JObj obj => trackID ← pickPlaylistTrackID obj;
                                   Some (trackID, parseReleaseDate (stringField obj "created_at"), parseReleaseDate (stringField obj "updated_at"))
                     | _ => None
                     end) l
  | _ => []
  end.

(** Each track once, none of the current ones, with both times: track, joined, left. *)
Fixpoint pending_tombstones (seen : list Z) (removals : list removedPlaylistTrack) (blockTime : Z) : list (Z * Z * Z) :=
  match removals with
  | [] => []
  | (trackID, createdAt, updatedAt) :: rest =>
      if bool_decide (trackID ∈ seen) then pending_tombstones seen rest blockTime
      else
        let left := default blockTime updatedAt in
        (trackID, default left createdAt, left) :: pending_tombstones (trackID :: seen) rest blockTime
  end.

Definition tombstone_le (a b : Z * Z * Z) : Prop := a.2 < b.2 \/ (a.2 = b.2 /\ a.1.1 <= b.1.1).
#[global] Instance tombstone_le_dec a b : Decision (tombstone_le a b).
Proof. unfold tombstone_le. apply _. Defined.

(** The distinct removal times in order. *)
Definition removal_times (pending : list (Z * Z * Z)) : list Z := remove_dups (snd <$> pending).

Definition insertPlaylistTrackTombstones p (removals : list removedPlaylistTrack) (current : list Z) : proc conn etl_error unit :=
  let playlistID := p_EntityID p in
  let pending := merge_sort tombstone_le (pending_tombstones current removals (p_BlockTime p)) in
  for_each (fun r : Z * Z * Z => exec_em (on_shelf (fun d => Some (set_playlist_tracks (insert_ignore members_key
    (mkMemberRow playlistID r.1.1 true r.1.2 r.2) (playlist_tracks d)) d)))) pending ;;!
  for_each (fun t => updateTrackPlaylistIndex playlistID []
    (fst <$> (fst <$> List.filter (fun r : Z * Z * Z => r.2 =? t) pending)) t) (removal_times pending).

(** ** Album prices *)

Definition lastAlbumPriceMatches (playlistID priceCents : Z) (splits : json) : proc conn etl_error bool :=
  last_price_matches album_price_history playlistID priceCents splits "".

Definition updateAlbumPriceHistory p : proc conn etl_error unit :=
  if negb (metadataBoolOr p "is_stream_gated" false) then pret tt
  else match obj_field p "stream_conditions" with
       | None => pret tt
       | Some conditions =>
           let! price := check (usdc_price conditions) in
           match price with
           | None => pret tt
           | Some (priceCents, splits) =>
               let! same := lastAlbumPriceMatches (p_EntityID p) priceCents splits in
               if same then pret tt
               else exec_em (on_shelf (fun d => Some (set_album_price_history (insert_ignore price_key
                      (mkPriceRow (p_EntityID p) splits priceCents (p_BlockNumber p) (p_BlockTime p) "") (album_price_history d)) d)))
           end
       end.

(** ** Creating *)

Definition validatePlaylistCreate p : proc conn etl_error unit :=
  reject_when (negb (String.eqb (p_EntityType p) EntityTypePlaylist)) "wrong entity type" ;;!
  reject_when (negb (String.eqb (p_Action p) EtlActionCreate)) "wrong action" ;;!
  reject_when (p_EntityID p <? PlaylistIDOffset) "playlist id below offset" ;;!
  reject_when (bool_decide (p_Metadata p = None)) "metadata is required for playlist creation" ;;!
  check (ValidateDescription (MetadataString p "description")) ;;!
  ValidateSigner p ;;!
  let! exists_ := playlistExists (p_EntityID p) in
  reject_when exists_ "playlist already exists".

Definition created_playlist p (isDelete : bool) : playlist_row :=
  mkPlaylistRow (p_EntityID p) (p_UserID p) true isDelete
    (foldl (fun t c => put_text c (nullString (MetadataString p c)) t) ∅ playlist_texts)
    (foldl (fun t c => <[c := MetadataBoolOr p c false]> t) ∅ playlist_flags)
    (foldl (fun t c => put_opt c (metadataJSONRaw p c) t) ∅ playlist_jsons)
    (metadataPlaylistContentsJSON p)
    (Some (releaseDateOrDefault (MetadataString p "release_date") (p_BlockTime p)))
    (if bool_decide (extractPlaylistTrackIDs p = []) then None else Some (p_BlockTime p))
    (p_BlockTime p) (p_BlockTime p) (p_TxHash p) (p_BlockNumber p).

(** playlists_pkey is on (playlist_id, txhash). *)
Definition playlists_key (l : playlist_row) : Z * string := (pl_playlist_id l, pl_txhash l).

Definition insertPlaylistRow (row : playlist_row) : proc conn etl_error unit :=
  exec_em (fun d => t ← insert_key playlists_key row (playlists d); Some (set_playlists t d)).

(** The current route, and the form of the URL before there were slugs. *)
Definition insert_playlist_routes p (route : option (string * string * Z)) : proc conn etl_error unit :=
  let name := MetadataString p "playlist_name" in
  if String.eqb name "" then pret tt
  else
    let! r := match route with
              | Some r => pret r
              | None => GeneratePlaylistSlugAndCollisionID (p_UserID p) (p_EntityID p) name
              end in
    insert_playlist_route (new_route p r true) ;;!
    let legacyIDSlug := SanitizeSlug name (p_EntityID p) (p_EntityID p) in
    if String.eqb legacyIDSlug r.1.1 then pret tt
    else exec_em (on_shelf (fun d => Some (set_playlist_routes
           (insert_ignore routes_key (new_route p (legacyIDSlug, legacyIDSlug, r.2) false) (playlist_routes d)) d))).

Definition insertPlaylistAndRouteWithState p (isDelete : bool) (route : option (string * string * Z))
    (removedTracks : list removedPlaylistTrack) : proc conn etl_error unit :=
  insertPlaylistRow (created_playlist p isDelete) ;;!
  updatePlaylistTracks p ;;!
  insertPlaylistTrackTombstones p removedTracks (extractPlaylistTrackIDs p) ;;!
  updateAlbumPriceHistory p ;;!
  insert_playlist_routes p route.

Definition insertPlaylistAndRoute p : proc conn etl_error unit := insertPlaylistAndRouteWithState p false None [].

Definition playlistCreate p : proc conn etl_error unit := validatePlaylistCreate p ;;! insertPlaylistAndRoute p.

Definition migratedPlaylistCreate p : proc conn etl_error unit :=
  reject_when (negb (String.eqb (p_EntityType p) EntityTypePlaylist)) "wrong entity type" ;;!
  reject_when (bool_decide (p_Metadata p = None)) "metadata is required for playlist creation" ;;!
  ValidateSigner p ;;!
  let! exists_ := playlistExists (p_EntityID p) in
  reject_when exists_ "playlist already exists" ;;!
  insertPlaylistAndRouteWithState p (MetadataBoolOr p "is_delete" false) (migrated_route p) (migratedPlaylistRemovedTracks p).

(** ** Editing and deleting *)

Definition current_playlist playlistID (l : playlist_row) : bool := (pl_playlist_id l =? playlistID) && pl_is_current l.

Definition loadCurrentPlaylistRow playlistID : proc conn etl_error playlist_row :=
  no_rows "playlist is deleted or does not exist"
    (ask_row (fun d => List.filter (fun l => current_playlist playlistID l && negb (pl_is_delete l)) (playlists (em d)))).

(** The checks validatePlaylistUpdate and validatePlaylistDelete share. *)
Definition validate_playlist_owner p : proc conn etl_error unit :=
  ValidateSigner p ;;!
  let! ok := playlistExists (p_EntityID p) in
  reject_when (negb ok) "playlist does not exist" ;;!
  let! row := loadCurrentPlaylistRow (p_EntityID p) in
  reject_when (negb (pl_owner_id row =? p_UserID p)) "playlist does not match user".

Definition validatePlaylistUpdate p : proc conn etl_error unit :=
  reject_when (negb (String.eqb (p_EntityType p) EntityTypePlaylist)) "wrong entity type" ;;!
  reject_when (negb (String.eqb (p_Action p) EtlActionUpdate)) "wrong action" ;;!
  check (ValidateDescription (MetadataString p "description")) ;;!
  validate_playlist_owner p.

Definition mergePlaylistFromMetadata p (base : playlist_row) : playlist_row :=
  with_playlist_columns
    (foldl (merge_text p) (pl_text base) playlist_texts)
    (foldl (merge_flag p) (pl_flags base) playlist_flags)
    (foldl (merge_json p) (pl_json base) playlist_jsons)
    (if has_key p "playlist_contents" then normalizePlaylistContentsJSON p (Some (pl_contents base)) else pl_contents base)
    (match parseReleaseDate (MetadataString p "release_date") with Some t => Some t | None => pl_release_date base end)
    (if has_key p "playlist_contents" && playlistAddedTrack p (pl_contents base) then Some (p_BlockTime p) else pl_last_added_to base)
    base.

Definition update_playlists playlistID (f : playlist_row -> playlist_row) : proc conn etl_error unit :=
  exec_em (fun d => t ← update_key playlists_key (current_playlist playlistID) f (playlists d); Some (set_playlists t d)).

Definition updatePlaylistRow p (r : playlist_row) : proc conn etl_error unit :=
  update_playlists (pl_playlist_id r) (set_playlist_columns r p).

Definition updatePlaylist p : proc conn etl_error Params :=
  let! base := loadCurrentPlaylistRow (p_EntityID p) in
  let p := stripImmutableFields p immutablePlaylistFields in
  let merged := mergePlaylistFromMetadata p base in
  let newName := default "" (pl_text merged !! "playlist_name") in
  updatePlaylistRow p merged ;;!
  (if has_key p "playlist_contents" then updatePlaylistTracks p else pret tt) ;;!
  updateAlbumPriceHistory p ;;!
  (if negb (String.eqb (MetadataString p "playlist_name") "") &&
      negb (String.eqb newName (default "" (pl_text base !! "playlist_name"))) then
     exec_em (on_shelf (fun d => Some (set_playlist_routes (retire_routes (p_EntityID p) (playlist_routes d)) d))) ;;!
     let! r := GeneratePlaylistSlugAndCollisionID (p_UserID p) (p_EntityID p) newName in
     insert_playlist_route (new_route p r true)
   else pret tt) ;;!
  pret p.

Definition playlistUpdate p : proc conn etl_error Params :=
  validatePlaylistUpdate p ;;! updatePlaylist p.

Definition validatePlaylistDelete p : proc conn etl_error unit :=
  reject_when (negb (String.eqb (p_EntityType p) EntityTypePlaylist)) "wrong entity type" ;;!
  reject_when (negb (String.eqb (p_Action p) EtlActionDelete)) "wrong action" ;;!
  validate_playlist_owner p.

Definition deletePlaylist p : proc conn etl_error unit := update_playlists (p_EntityID p) (set_playlist_deleted p).

Definition playlistDelete p : proc conn etl_error unit := validatePlaylistDelete p ;;! deletePlaylist p.
End Playlists.
