(* ===== verification/EtlRegistry.v ===== *)
(** * The indexer: registration of the handlers

    Models the part of Run of pkg/etl/indexer.go that fills the dispatcher,
    IsDataTypeEnabled of config.go and RegisterMigrationOverrides of migration.go. *)

From stdpp Require Import base gmap strings list.
From Stdlib Require Import ZArith Lia.
From S2P Require Import Prelude AuthState EtlBase EtlDb EtlAccounts EtlSocial EtlComments EtlEvents EtlRoutes EtlTracks EtlPlaylists.

Open Scope string_scope.
Open Scope Z_scope.

(** Config.DataTypes: nil, or the types to index. *)
Definition IsDataTypeEnabled (dataTypes : option (list string)) (entityType : string) : bool :=
  match dataTypes with
  | None => true
  | Some l => existsb (fun t => EqualFold t entityType) l
  end.

Section Registry.
Context {J : EtlLibs} {E : EtlSql}.
Implicit Types (types : option (list string)).

Definition user_handlers : list (Handler conn) :=
  [ handler EntityTypeUser EtlActionCreate userCreate;
    handler EntityTypeUser EtlActionUpdate userUpdate;
    handler EntityTypeUser ActionVerify userVerify;
    handler EntityTypeUser ActionMute muteUser;
    handler EntityTypeUser ActionUnmute unmuteUser ].

Definition track_handlers : list (Handler conn) :=
  [ mkHandler EntityTypeTrack EtlActionCreate trackCreate;
    mkHandler EntityTypeTrack EtlActionUpdate trackUpdate;
    handler EntityTypeTrack EtlActionDelete trackDelete;
    handler EntityTypeTrack ActionDownload trackDownload;
    handler EntityTypeTrack ActionMute trackMute;
    handler EntityTypeTrack ActionUnmute trackUnmute;
    handler EntityTypeTrackCollaborator ActionApprove trackCollaboratorApprove;
    handler EntityTypeTrackCollaborator ActionReject trackCollaboratorReject ].

Definition playlist_handlers : list (Handler conn) :=
  [ handler EntityTypePlaylist EtlActionCreate playlistCreate;
    mkHandler EntityTypePlaylist EtlActionUpdate playlistUpdate;
    handler EntityTypePlaylist EtlActionDelete playlistDelete ].

Definition social_handlers : list (Handler conn) :=
  [ handler EntityTypeAny ActionFollow follow;
    handler EntityTypeAny ActionUnfollow unfollow;
    handler EntityTypeAny ActionSave save;
    handler EntityTypeAny ActionUnsave unsave;
    handler EntityTypeAny ActionRepost repost;
    handler EntityTypeAny ActionUnrepost unrepost;
    handler EntityTypeAny ActionSubscribe subscribe;
    handler EntityTypeAny ActionUnsubscribe unsubscribe;
    handler EntityTypeAny ActionShare share ].

Definition app_handlers : list (Handler conn) :=
  [ handler EntityTypeDeveloperApp EtlActionCreate developerAppCreate;
    handler EntityTypeDeveloperApp EtlActionUpdate developerAppUpdate;
    handler EntityTypeDeveloperApp EtlActionDelete developerAppDelete ].

Definition grant_handlers : list (Handler conn) :=
  [ handler EntityTypeGrant EtlActionCreate grantCreate;
    handler EntityTypeGrant EtlActionDelete grantDelete;
    handler EntityTypeGrant ActionApprove grantApprove;
    handler EntityTypeGrant ActionReject grantReject ].

Definition event_handlers : list (Handler conn) :=
  [ handler EntityTypeEvent EtlActionCreate eventCreate;
    handler EntityTypeEvent EtlActionUpdate eventUpdate;
    handler EntityTypeEvent EtlActionDelete eventDelete ].

Definition associated_wallet_handlers : list (Handler conn) :=
  [ handler EntityTypeAssociatedWallet EtlActionCreate associatedWalletCreate;
    handler EntityTypeAssociatedWallet EtlActionDelete associatedWalletDelete ].

Definition dashboard_wallet_handlers : list (Handler conn) :=
  [ handler EntityTypeDashboardWalletUser EtlActionCreate dashboardWalletCreate;
    handler EntityTypeDashboardWalletUser EtlActionDelete dashboardWalletDelete ].

Definition email_handlers : list (Handler conn) := [ handler EntityTypeEncryptedEmail ActionAddEmail encryptedEmailCreate ].
Definition email_access_handlers : list (Handler conn) := [ handler EntityTypeEmailAccess EtlActionUpdate emailAccessUpdate ].

Definition notification_handlers : list (Handler conn) :=
  [ handler EntityTypeNotification EtlActionCreate notificationCreate;
    handler EntityTypeNotification ActionView notificationView;
    handler EntityTypeNotification ActionViewPlaylist notificationViewPlaylist ].

Definition comment_handlers : list (Handler conn) :=
  [ handler EntityTypeComment EtlActionCreate commentCreate;
    handler EntityTypeComment EtlActionUpdate commentUpdate;
    handler EntityTypeComment EtlActionDelete commentDelete;
    handler EntityTypeComment ActionReact commentReact;
    handler EntityTypeComment ActionUnreact commentUnreact;
    handler EntityTypeComment ActionPin commentPin;
    handler EntityTypeComment ActionUnpin commentUnpin;
    handler EntityTypeComment ActionReport commentReport;
    handler EntityTypeComment ActionMute commentMute;
    handler EntityTypeComment ActionUnmute commentUnmute ].

(** The handlers of a data type, if it is enabled. *)
Definition group types (entityType : string) (hs : list (Handler conn)) : list (Handler conn) :=
  if IsDataTypeEnabled types entityType then hs else [].

Definition live_handlers types : list (Handler conn) :=
  (group types EntityTypeUser user_handlers ++
   group types EntityTypeTrack track_handlers ++
   group types EntityTypePlaylist playlist_handlers ++
   social_handlers ++
   group types EntityTypeDeveloperApp app_handlers ++
   group types EntityTypeGrant grant_handlers ++
   group types EntityTypeEvent event_handlers ++
   group types EntityTypeAssociatedWallet associated_wallet_handlers ++
   group types EntityTypeDashboardWalletUser dashboard_wallet_handlers ++
   group types EntityTypeEncryptedEmail email_handlers ++
   group types EntityTypeEmailAccess email_access_handlers ++
   group types EntityTypeNotification notification_handlers ++
   group types EntityTypeComment comment_handlers ++
   [handler EntityTypePlayCount ActionReconcile playCountReconcile])%list.

Definition migration_overrides : list (Handler conn) :=
  [ handler EntityTypeUser EtlActionCreate migratedUserCreate;
    mkHandler EntityTypeTrack EtlActionCreate migratedTrackCreate;
    handler EntityTypePlaylist EtlActionCreate migratedPlaylistCreate;
    handler EntityTypeComment EtlActionCreate migratedCommentCreate;
    handler EntityTypeEvent EtlActionCreate migratedEventCreate;
    handler EntityTypeDeveloperApp EtlActionCreate migratedDeveloperAppCreate;
    handler EntityTypeGrant EtlActionCreate migratedGrantCreate;
    handler EntityTypeAssociatedWallet EtlActionCreate migratedAssociatedWalletCreate;
    handler EntityTypeDashboardWalletUser EtlActionCreate migratedDashboardWalletCreate;
    handler EntityTypeAny ActionFollow (migratedSocial validateFollow insertMigratedFollow);
    handler EntityTypeAny ActionSave (migratedSocial validateSave insertSave);
    handler EntityTypeAny ActionRepost (migratedSocial validateRepost insertRepost);
    handler EntityTypeAny ActionSubscribe (migratedSocial validateSubscribe insertSubscription) ].

Definition register_all (hs : list (Handler conn)) (d : Dispatcher conn) : Dispatcher conn :=
  foldl (fun d h => Register h d) d hs.

Definition live_dispatcher types : Dispatcher conn := register_all (live_handlers types) NewDispatcher.
Definition RegisterMigrationOverrides (d : Dispatcher conn) : Dispatcher conn := register_all migration_overrides d.
Definition migration_dispatcher types : Dispatcher conn := RegisterMigrationOverrides (Clone (live_dispatcher types)).
End Registry.
