(* ===== verification/EtlSteps.v ===== *)
(** * The indexer: steps of a handler

    What the steps of a handler may do to the database -- read only, fail without
    rejecting, reject without writing, leave a table alone, succeed only where a
    condition holds -- and the tactics that peel a handler into its steps. *)

From stdpp Require Import base gmap strings list.
From Stdlib Require Import ZArith Lia.
From S2P Require Import Prelude AuthState EtlBase EtlDb EtlAccounts.

Open Scope string_scope.
Open Scope Z_scope.

(** ** What a step of a handler may do *)

(** The errors that keep a transaction's savepoint. *)
Definition is_rejection (e : etl_error) : bool := match e with EtlValidation _ | ErrNoHandler => true | _ => false end.

(** Reads only. *)
Definition quiet {A} (m : proc conn etl_error A) : Prop := forall c, c_db (m c).1 = c_db c.
(** Fails only with an error of the database. *)
Definition never_rejects {A} (m : proc conn etl_error A) : Prop :=
  forall c c' e, m c = (c', Err e) -> is_rejection e = false.
(** Leaves the database alone when it rejects. *)
Definition clean {A} (m : proc conn etl_error A) : Prop :=
  forall c c' e, m c = (c', Err e) -> is_rejection e = true -> c_db c' = c_db c.
(** Leaves a part of the database alone. *)
Definition keeps {A B} (f : etl_db -> B) (m : proc conn etl_error A) : Prop :=
  forall c, f (c_db (m c).1) = f (c_db c).

Create HintDb etl.

Section Steps.
Context {E : EtlSql}.

Lemma quiet_bind {A B} (m : proc conn etl_error A) (k : A -> proc conn etl_error B) :
  quiet m -> (forall a, quiet (k a)) -> quiet (pbind m k).
Proof.
  intros Hm Hk c. unfold pbind. specialize (Hm c). destruct (m c) as [c' [a|e]]; simpl in *; [|done].
  by rewrite Hk.
Qed.

Lemma quiet_ret {A} (a : A) : quiet (pret a).
Proof. done. Qed.
Lemma quiet_fail {A} e : quiet (@pfail _ _ A e).
Proof. done. Qed.
Lemma quiet_check {A} (r : res etl_error A) : quiet (check r).
Proof. done. Qed.
Lemma quiet_reject_when b msg : quiet (reject_when b msg).
Proof. done. Qed.
Lemma quiet_ask {A} (f : etl_db -> A) : quiet (ask f).
Proof. intros c. unfold ask, statement. by repeat case_match; simplify_eq/=. Qed.
Lemma quiet_ask_row {A} (f : etl_db -> list A) : quiet (ask_row f).
Proof. intros c. unfold ask_row, statement. by repeat case_match; simplify_eq/=. Qed.
Lemma quiet_ignore {A} (a : A) m : quiet m -> quiet (ignore a m).
Proof. intros Hm c. specialize (Hm c). unfold ignore. by destruct (m c) as [? []]. Qed.
Lemma quiet_no_rows {A} msg (m : proc conn etl_error A) : quiet m -> quiet (no_rows msg m).
Proof. intros Hm c. specialize (Hm c). unfold no_rows. by destruct (m c) as [? [|[]]]. Qed.
Lemma quiet_or_reject {A} msg (m : proc conn etl_error A) : quiet m -> quiet (or_reject msg m).
Proof. intros Hm c. specialize (Hm c). unfold or_reject. by destruct (m c) as [? []]. Qed.

Lemma never_rejects_bind {A B} (m : proc conn etl_error A) (k : A -> proc conn etl_error B) :
  never_rejects m -> (forall a, never_rejects (k a)) -> never_rejects (pbind m k).
Proof.
  intros Hm Hk c c' e. unfold pbind. specialize (Hm c). destruct (m c) as [c1 [a|e1]]; [apply Hk|].
  intros [= -> ->]. by eapply Hm.
Qed.
Lemma never_rejects_ret {A} (a : A) : never_rejects (pret a).
Proof. by intros ? ? ? ?. Qed.
Lemma never_rejects_ask {A} (f : etl_db -> A) : never_rejects (ask f).
Proof. intros c c' e. unfold ask, statement. by repeat case_match; intros; simplify_eq/=. Qed.
Lemma never_rejects_ask_row {A} (f : etl_db -> list A) : never_rejects (ask_row f).
Proof. intros c c' e. unfold ask_row, statement. by repeat case_match; intros; simplify_eq/=. Qed.
Lemma never_rejects_exec f : never_rejects (exec f).
Proof. intros c c' e. unfold exec, statement. by repeat case_match; intros; simplify_eq/=. Qed.
Lemma never_rejects_ignore {A} (a : A) m : never_rejects (ignore a m).
Proof. intros c c' e. unfold ignore. by destruct (m c) as [? []]. Qed.
Lemma never_rejects_for_each {A} (f : A -> proc conn etl_error unit) l :
  (forall a, never_rejects (f a)) -> never_rejects (for_each f l).
Proof.
  intros Hf. induction l as [|a l IH]; simpl; [apply never_rejects_ret|].
  apply never_rejects_bind; auto.
Qed.

Lemma clean_quiet {A} (m : proc conn etl_error A) : quiet m -> clean m.
Proof. intros Hm c c' e Hc _. specialize (Hm c). by rewrite Hc in Hm. Qed.
Lemma clean_never {A} (m : proc conn etl_error A) : never_rejects m -> clean m.
Proof. intros Hm c c' e Hc He. apply Hm in Hc. congruence. Qed.
Lemma clean_bind {A B} (m : proc conn etl_error A) (k : A -> proc conn etl_error B) :
  quiet m -> (forall a, clean (k a)) -> clean (pbind m k).
Proof.
  intros Hm Hk c c' e. unfold pbind. specialize (Hm c). destruct (m c) as [c1 [a|e1]]; simpl in *.
  - intros Hc He. pose proof (Hk a _ _ _ Hc He). congruence.
  - by intros [= -> ->].
Qed.

Lemma keep_bind {A B C} (f : etl_db -> C) (m : proc conn etl_error A) (k : A -> proc conn etl_error B) :
  keeps f m -> (forall a, keeps f (k a)) -> keeps f (pbind m k).
Proof.
  intros Hm Hk c. unfold pbind. specialize (Hm c). destruct (m c) as [c' [a|e]]; simpl in *; [|done].
  by rewrite Hk.
Qed.
Lemma keeps_quiet {A B} (f : etl_db -> B) (m : proc conn etl_error A) : quiet m -> keeps f m.
Proof. intros Hm c. by rewrite Hm. Qed.
Lemma keep_exec {B} (f : etl_db -> B) g :
  (forall d d', g d = Some d' -> f d' = f d) -> keeps f (exec g).
Proof.
  intros Hg c. unfold exec, statement. destruct (g (c_db c)) as [d|] eqn:Hd; repeat case_match; simplify_eq/=; auto.
Qed.
Lemma keeps_exec_em {B} (f : etl_db -> B) g :
  (forall d d', g (em d) = Some d' -> f (mkEtlDb d' (chain d)) = f d) -> keeps f (exec_em g).
Proof. intros Hg. apply keep_exec. intros d d' Hd. simplify_option_eq. auto. Qed.
Lemma keep_for_each {A B} (f : etl_db -> B) (g : A -> proc conn etl_error unit) l :
  (forall a, keeps f (g a)) -> keeps f (for_each g l).
Proof.
  intros Hg. induction l as [|a l IH]; simpl; [by apply keeps_quiet, quiet_ret|].
  apply keep_bind; auto.
Qed.
Lemma keeps_ignore {A B} (f : etl_db -> B) (a : A) m : keeps f m -> keeps f (ignore a m).
Proof. intros Hm c. specialize (Hm c). unfold ignore. by destruct (m c) as [? []]. Qed.
Lemma never_rejects_fail {A} e : is_rejection e = false -> never_rejects (@pfail _ _ A e).
Proof. intros He c c' e' [= <- <-]. done. Qed.
Lemma never_rejects_check {A} (r : res etl_error A) :
  (forall e, r = Err e -> is_rejection e = false) -> never_rejects (check r).
Proof. intros Hr c c' e [= <- ->]. auto. Qed.
Lemma clean_for_each {A} (f : A -> proc conn etl_error unit) l :
  (forall a, never_rejects (f a)) -> clean (for_each f l).
Proof. intros Hf. by apply clean_never, never_rejects_for_each. Qed.
End Steps.

#[export] Hint Resolve quiet_ret quiet_fail quiet_check quiet_reject_when quiet_ask quiet_ask_row quiet_ignore quiet_no_rows
  quiet_or_reject never_rejects_ret never_rejects_ask never_rejects_ask_row never_rejects_exec
  never_rejects_ignore : etl.

(** The function a step is a call of. *)
Ltac head_of t := lazymatch t with ?f _ => head_of f | _ => t end.
Ltac unfold_head m := let h := head_of m in unfold h.

(** Peel a handler's steps with the lemmas above, opening the functions it calls. *)
Ltac quiet_steps :=
  repeat first [ progress cbv zeta | solve [auto with etl] | apply quiet_bind; [|intros ?] | apply quiet_ignore
               | apply quiet_no_rows | apply quiet_or_reject | case_match
               | match goal with |- quiet ?m => unfold_head m end ].
Ltac never_steps :=
  repeat first [ progress cbv zeta | solve [auto with etl] | apply never_rejects_bind; [|intros ?]
               | apply never_rejects_for_each; intros ? | apply never_rejects_exec
               | apply never_rejects_fail; reflexivity | case_match
               | match goal with |- never_rejects ?m => unfold_head m end ].
Ltac clean_steps :=
  repeat first [ progress cbv zeta | solve [apply clean_never; never_steps] | solve [apply clean_quiet; quiet_steps] | apply clean_bind; [solve [quiet_steps]|intros ?]
               | case_match | match goal with |- clean ?m => unfold_head m end ].
(** Peel a handler whose writes leave [f] alone. *)
Ltac keeps_steps :=
  repeat first [ progress cbv zeta | solve [auto with etl] | solve [apply keeps_quiet; auto with etl]
               | apply keep_bind; [|intros ?] | apply keep_for_each; intros ? | apply keeps_ignore
               | apply keeps_exec_em; intros ? ? ?; unfold on_talk, on_desk, on_shelf in *; simplify_option_eq; done
               | case_match | solve [apply keeps_quiet; quiet_steps] | match goal with |- keeps _ ?m => unfold_head m end ].

(** ** What a step that succeeds has found *)

(** A step that succeeds only where [P] holds. *)
Definition needs {A} (P : em_db -> Prop) (m : proc conn etl_error A) : Prop :=
  forall c c' a, m c = (c', Ok a) -> P (em (c_db c)).

Section Found.
Context {E : EtlSql}.
Implicit Types (P : em_db -> Prop).

Lemma pbind_ok {A B} (m : proc conn etl_error A) (k : A -> proc conn etl_error B) c c' b :
  pbind m k c = (c', Ok b) -> exists c1 a, m c = (c1, Ok a) /\ k a c1 = (c', Ok b).
Proof. unfold pbind. destruct (m c) as [c1 [a|e]]; [eauto|done]. Qed.

Lemma ask_ok {A} (f : etl_db -> A) c c' a : ask f c = (c', Ok a) -> a = f (c_db c) /\ c_db c' = c_db c.
Proof. unfold ask, statement. repeat case_match; intros; by simplify_eq/=. Qed.

Lemma ask_row_ok {A} (f : etl_db -> list A) c c' a :
  ask_row f c = (c', Ok a) -> a ∈ f (c_db c) /\ c_db c' = c_db c.
Proof.
  unfold ask_row, statement, pick. repeat case_match; intros; simplify_eq/=; try done.
  split; [|done]. by eapply list_elem_of_lookup_2.
Qed.

Lemma reject_when_ok cond msg c c' u : reject_when cond msg c = (c', Ok u) -> cond = false /\ c' = c.
Proof. unfold reject_when, check, invalid_if, guard_err. destruct cond; intros; by simplify_eq. Qed.

Lemma no_rows_ok {A} msg (m : proc conn etl_error A) c c' a : no_rows msg m c = (c', Ok a) -> m c = (c', Ok a).
Proof. unfold no_rows. by destruct (m c) as [? [|[]]]. Qed.

Lemma needs_bind_l {A B} P (m : proc conn etl_error A) (k : A -> proc conn etl_error B) :
  needs P m -> needs P (pbind m k).
Proof. intros Hm c c' b H. apply pbind_ok in H as (c1 & a & Ha & _). by eapply Hm. Qed.

Lemma needs_bind_r {A B} P (m : proc conn etl_error A) (k : A -> proc conn etl_error B) :
  quiet m -> (forall a, needs P (k a)) -> needs P (pbind m k).
Proof.
  intros Hm Hk c c' b H. apply pbind_ok in H as (c1 & a & Ha & H). apply Hk in H.
  specialize (Hm c). rewrite Ha in Hm. simpl in Hm. congruence.
Qed.

Lemma needs_weaken {A} P (Q : em_db -> Prop) (m : proc conn etl_error A) : (forall d, P d -> Q d) -> needs P m -> needs Q m.
Proof. intros HPQ Hm c c' a H. eauto. Qed.

Lemma needs_reject_when {A} P cond msg (k : unit -> proc conn etl_error A) :
  (cond = false -> needs P (k tt)) -> needs P (pbind (reject_when cond msg) k).
Proof.
  intros Hk c c' a H. apply pbind_ok in H as (c1 & [] & Hr & H). apply reject_when_ok in Hr as [Hc ->]. by eapply Hk.
Qed.

Lemma needs_ask {A B} P (f : etl_db -> A) (k : A -> proc conn etl_error B) :
  (forall x, needs (fun d => (exists c, f (mkEtlDb d c) = x) -> P d) (k x)) -> needs P (pbind (ask f) k).
Proof.
  intros Hk c c' a H. apply pbind_ok in H as (c1 & x & Hx & H). apply ask_ok in Hx as [-> Hdb].
  apply Hk in H. rewrite Hdb in H. apply H. exists (chain (c_db c)). by destruct (c_db c).
Qed.

(** A statement changes nothing, or does what it says. *)
Lemma exec_em_cases f c :
  c_db (exec_em f c).1 = c_db c \/ exists d, f (em (c_db c)) = Some d /\ em (c_db (exec_em f c).1) = d.
Proof.
  unfold exec_em, exec, statement. destruct (f (em (c_db c))) as [d|] eqn:Hf; simpl; repeat case_match; simplify_eq/=; eauto.
Qed.

End Found.
