(* ===== verification/EtlRejections.v ===== *)
(** * The indexer: rejections and routing

    Every handler checks first and writes afterwards, but for the few that find a price or
    a grantor wanting once rows are written; and a transaction goes to the one handler
    registered for it. *)

From stdpp Require Import base gmap strings list.
From Stdlib Require Import ZArith Lia Ascii.
From S2P Require Import Prelude AuthState EtlBase EtlDb EtlAccounts EtlSocial EtlComments EtlEvents EtlRoutes EtlTracks EtlPlaylists.
From S2P Require Import EtlRegistry EtlSteps.

Open Scope string_scope.
Open Scope Z_scope.

(** The handlers of a set one by one. *)
Ltac handler_cases H :=
  unfold user_handlers, track_handlers, playlist_handlers, social_handlers, app_handlers, grant_handlers, event_handlers,
    associated_wallet_handlers, dashboard_wallet_handlers, email_handlers, email_access_handlers, notification_handlers,
    comment_handlers, migration_overrides, group in H;
  cbn [IsDataTypeEnabled] in H;
  rewrite ?elem_of_app, ?elem_of_cons, ?elem_of_nil in H; decompose [or] H; clear H; subst; try done.

Section Rejections.
Context {J : EtlLibs} {E : EtlSql}.
Implicit Types (p : Params).

Lemma quiet_activeUserIDByWallet w : quiet (activeUserIDByWallet w).
Proof.
  intros c. unfold activeUserIDByWallet.
  match goal with |- context [ask_row ?f c] => pose proof (quiet_ask_row f c); destruct (ask_row f c) as [? [|[]]] end; done.
Qed.
Lemma quiet_getUserHandle uid : quiet (getUserHandle uid).
Proof.
  intros c. unfold getUserHandle.
  match goal with |- context [ask_row ?f c] => pose proof (quiet_ask_row f c); destruct (ask_row f c) as [? [|[]]] end; done.
Qed.
Lemma quiet_getTrackOwnerHandle uid : quiet (getTrackOwnerHandle uid).
Proof.
  intros c. unfold getTrackOwnerHandle.
  match goal with |- context [ask_row ?f c] => pose proof (quiet_ask_row f c); destruct (ask_row f c) as [? [[]|[]]] end; done.
Qed.
Lemma never_rejects_getTrackOwnerHandle uid : never_rejects (getTrackOwnerHandle uid).
Proof.
  intros c c' e. unfold getTrackOwnerHandle.
  match goal with |- context [ask_row ?f c] =>
    pose proof (never_rejects_ask_row f c) as Hn; destruct (ask_row f c) as [? [[]|e1]]; try done;
    specialize (Hn _ _ eq_refl) end; destruct e1; intros; by simplify_eq.
Qed.

Section Slugs.
Context (routes : shelf_db -> list route_row).
Lemma quiet_slug_loop fuel o i title n : quiet (slug_loop routes fuel o i title n).
Proof. revert n. induction fuel as [|fuel IH]; intros n; simpl; quiet_steps. Qed.
Lemma never_rejects_slug_loop fuel o i title n : never_rejects (slug_loop routes fuel o i title n).
Proof. revert n. induction fuel as [|fuel IH]; intros n; simpl; never_steps. Qed.
Lemma quiet_slug_search o i title n : quiet (slug_search routes o i title n).
Proof. intros c. apply quiet_slug_loop. Qed.
Lemma never_rejects_slug_search o i title n : never_rejects (slug_search routes o i title n).
Proof. intros c. apply never_rejects_slug_loop. Qed.
End Slugs.

Hint Resolve quiet_activeUserIDByWallet quiet_getUserHandle quiet_getTrackOwnerHandle quiet_slug_search
  never_rejects_getTrackOwnerHandle never_rejects_slug_search : etl.

Lemma quiet_getUserWallet uid : quiet (getUserWallet uid).
Proof. quiet_steps. Qed.
Lemma quiet_validateSignerForUser p uid : quiet (validateSignerForUser p uid).
Proof. quiet_steps. Qed.
Lemma quiet_ValidateSigner p : quiet (ValidateSigner p).
Proof. apply quiet_validateSignerForUser. Qed.
Hint Resolve quiet_getUserWallet quiet_validateSignerForUser quiet_ValidateSigner : etl.
Lemma quiet_validate_app_owner p : quiet (validate_app_owner p).
Proof. quiet_steps. Qed.

(** A remix's subscription to the contest of its parent. *)
Lemma never_rejects_autoSubscribe p : never_rejects (autoSubscribeToContestOnSubmission p).
Proof.
  unfold autoSubscribeToContestOnSubmission. case_match; [never_steps|]. case_match; [never_steps|]. intros c c' e.
  match goal with |- context [ask_row ?f c] =>
    pose proof (never_rejects_ask_row f c) as Hn; destruct (ask_row f c) as [c1 [[eventID hostID]|e1]] end.
  - match goal with |- ?m c1 = _ -> _ => enough (never_rejects m) as Hm by (intros Hc; by eapply Hm) end.
    case_match; never_steps.
  - specialize (Hn _ _ eq_refl). destruct e1; intros; by simplify_eq.
Qed.
Hint Resolve never_rejects_autoSubscribe : etl.

(** ** Prices, which are checked late *)

(** The conditions under a key carry a USDC purchase without a whole price or without splits. *)
Definition incomplete_price p (key : string) : bool :=
  match obj_field p key with
  | Some conditions => match usdc_price conditions with Ok _ => false | Err _ => true end
  | None => false
  end.

(** The transactions that may be rejected when rows are written: tracks and playlists
    with an incomplete price, and grants of access to an email. *)
Definition checked_late p : bool :=
  (existsb (String.eqb (p_EntityType p)) [EntityTypeTrack; EntityTypePlaylist] &&
   existsb (String.eqb (p_Action p)) [EtlActionCreate; EtlActionUpdate] &&
   (incomplete_price p "stream_conditions" || incomplete_price p "download_conditions")) ||
  (String.eqb (p_EntityType p) EntityTypeEmailAccess && String.eqb (p_Action p) EtlActionUpdate).

Definition complete_prices p : Prop :=
  incomplete_price p "stream_conditions" = false /\ incomplete_price p "download_conditions" = false.

Lemma MetadataJSON_put p key key' v : key' <> key -> MetadataJSON (put_metadata p key' v) key = MetadataJSON p key.
Proof.
  intros Hne. unfold MetadataJSON, put_metadata. simpl. destruct (p_Metadata p) as [m|]; simpl; [|done].
  induction m as [|[k w] m IH]; simpl; [|by rewrite IH].
  by destruct (String.eqb_spec key key').
Qed.

Lemma MetadataJSON_strip p immutable key :
  existsb (String.eqb key) immutable = false -> MetadataJSON (stripImmutableFields p immutable) key = MetadataJSON p key.
Proof.
  intros Hne. unfold MetadataJSON, stripImmutableFields. simpl. destruct (p_Metadata p) as [m|]; simpl; [|done].
  induction m as [|[k w] m IH]; simpl; [done|]. destruct (String.eqb_spec key k) as [<-|Hk].
  - rewrite Hne. simpl. rewrite String.eqb_refl, IH. done.
  - rewrite <- IH. apply String.eqb_neq in Hk. case_match; simpl; rewrite ?Hk; by destruct (jlookup key _).
Qed.

Lemma complete_prices_ext p p' :
  MetadataJSON p' "stream_conditions" = MetadataJSON p "stream_conditions" ->
  MetadataJSON p' "download_conditions" = MetadataJSON p "download_conditions" ->
  complete_prices p -> complete_prices p'.
Proof. unfold complete_prices, incomplete_price, obj_field. by intros -> ->. Qed.

Lemma complete_prices_genre p : complete_prices p -> complete_prices (normalize_genre p).
Proof. intros H. unfold normalize_genre. case_match; [done|]. by apply (complete_prices_ext p); rewrite ?MetadataJSON_put. Qed.

Lemma never_rejects_price p : complete_prices p -> never_rejects (updateTrackPriceHistory p).
Proof.
  intros [Hs Hd]. unfold updateTrackPriceHistory, pickPriceConditions, incomplete_price in *.
  repeat case_match; simplify_eq/=; try solve [never_steps];
    (apply never_rejects_bind; [apply never_rejects_check; congruence|intros [[]|]; never_steps]).
Qed.

Lemma never_rejects_album_price p : complete_prices p -> never_rejects (updateAlbumPriceHistory p).
Proof.
  intros [Hs Hd]. unfold updateAlbumPriceHistory, incomplete_price in *.
  repeat case_match; simplify_eq/=; try solve [never_steps];
    (apply never_rejects_bind; [apply never_rejects_check; congruence|intros [[]|]; never_steps]).
Qed.
Hint Resolve never_rejects_price never_rejects_album_price : etl.

(** ** Every handler *)

Lemma clean_handler t a run p : clean (run p) -> clean (h_Handle (handler t a run) p).
Proof.
  intros Hr c c' e. simpl. unfold pbind, pret. destruct (run p c) as [c1 [[]|e1]] eqn:Hc; [done|].
  intros [= -> ->]. by eapply Hr.
Qed.


(** The parameters a validator hands on. *)
Definition yields {A} (Q : A -> Prop) (m : proc conn etl_error A) : Prop := forall c c' a, m c = (c', Ok a) -> Q a.

Lemma yields_bind {A B} (Q : B -> Prop) (m : proc conn etl_error A) (k : A -> proc conn etl_error B) :
  (forall a, yields Q (k a)) -> yields Q (pbind m k).
Proof. intros Hk c c' b H. apply pbind_ok in H as (c1 & a & _ & H). by eapply Hk. Qed.

Lemma clean_bind_yields {A B} (Q : A -> Prop) (m : proc conn etl_error A) (k : A -> proc conn etl_error B) :
  quiet m -> yields Q m -> (forall a, Q a -> clean (k a)) -> clean (pbind m k).
Proof.
  intros Hm HQ Hk c c' e. unfold pbind. specialize (Hm c). destruct (m c) as [c1 [a|e1]] eqn:Ha; simpl in *.
  - intros Hc He. pose proof (Hk a (HQ _ _ _ Ha) _ _ _ Hc He). congruence.
  - by intros [= -> ->].
Qed.

Ltac yields_steps := repeat first [ by intros ? ? ? [= _ <-] | apply yields_bind; intros ? | case_match
                                  | match goal with |- yields _ ?m => unfold_head m end ].

Lemma validateTrackCreate_yields p : yields (fun p' => p' = normalize_genre p) (validateTrackCreate p).
Proof. yields_steps. Qed.
Lemma validateTrackUpdate_yields p : yields (fun p' => p' = normalize_genre p) (validateTrackUpdate p).
Proof. yields_steps. Qed.

Lemma clean_trackCreate p : complete_prices p -> clean (trackCreate p).
Proof.
  intros Hp. eapply clean_bind_yields; [quiet_steps|apply validateTrackCreate_yields|intros ? ->].
  apply complete_prices_genre in Hp. clean_steps.
Qed.

Lemma clean_migratedTrackCreate p : complete_prices p -> clean (migratedTrackCreate p).
Proof. intros Hp. apply complete_prices_genre in Hp. clean_steps. Qed.

Lemma clean_trackUpdate p : complete_prices p -> clean (trackUpdate p).
Proof.
  intros Hp. eapply clean_bind_yields; [quiet_steps|apply validateTrackUpdate_yields|intros ? ->].
  apply complete_prices_genre in Hp. unfold updateTrack. apply clean_bind; [quiet_steps|intros base].
  assert (complete_prices (stripImmutableFields (normalize_genre p) immutableTrackFields))
    by (apply (complete_prices_ext (normalize_genre p)); rewrite ?MetadataJSON_strip; done).
  clean_steps.
Qed.

Lemma clean_playlistCreate p : complete_prices p -> clean (playlistCreate p).
Proof. intros Hp. clean_steps. Qed.

Lemma clean_migratedPlaylistCreate p : complete_prices p -> clean (migratedPlaylistCreate p).
Proof. intros Hp. clean_steps. Qed.

Lemma clean_playlistUpdate p : complete_prices p -> clean (playlistUpdate p).
Proof.
  intros Hp. unfold playlistUpdate, updatePlaylist. do 2 (apply clean_bind; [solve [quiet_steps]|intros ?]).
  assert (complete_prices (stripImmutableFields p immutablePlaylistFields))
    by (apply (complete_prices_ext p); rewrite ?MetadataJSON_strip; done).
  clean_steps.
Qed.

(** A disabled data type only takes handlers away. *)
Lemma elem_of_group types t hs h : h ∈ group types t hs -> h ∈ hs.
Proof. unfold group. case_match; [done|by intros ?%elem_of_nil]. Qed.
Lemma live_handlers_enabled types h : h ∈ live_handlers types -> h ∈ live_handlers None.
Proof.
  unfold live_handlers. rewrite !elem_of_app. change (group None) with (fun _ : string => @id (list (Handler conn))).
  unfold id. intros Hh. decompose [or] Hh; clear Hh;
    try match goal with H : _ ∈ group _ _ _ |- _ => apply elem_of_group in H end; auto 20.
Qed.

(** What the migration dispatcher may run: the live set and the overrides. *)
Definition all_handlers : list (Handler conn) := (live_handlers None ++ migration_overrides)%list.

Lemma live_in_all types h : h ∈ live_handlers types -> h ∈ all_handlers.
Proof. intros Hh. apply elem_of_app. left. by eapply live_handlers_enabled. Qed.

Lemma complete_unless_late p :
  checked_late p = false -> p_EntityType p = EntityTypeTrack \/ p_EntityType p = EntityTypePlaylist ->
  p_Action p = EtlActionCreate \/ p_Action p = EtlActionUpdate -> complete_prices p.
Proof.
  unfold checked_late. intros [Hl _]%orb_false_iff Ht Ha. rewrite !andb_false_iff in Hl.
  destruct Hl as [[Hl|Hl]|Hl%orb_false_iff]; [destruct Ht as [Ht|Ht]; by rewrite Ht in Hl|destruct Ha as [Ha|Ha]; by rewrite Ha in Hl|done].
Qed.

(** Every handler checks first and writes afterwards, when it is not one of those. *)
Lemma all_handlers_clean h p :
  h ∈ all_handlers -> h_Action h = p_Action p -> h_EntityType h = p_EntityType p \/ h_EntityType h = EntityTypeAny ->
  checked_late p = false -> clean (h_Handle h p).
Proof.
  intros Hh Ha Ht Hl. unfold all_handlers, live_handlers in Hh. pose proof (complete_unless_late p Hl) as Hp.
  handler_cases Hh; simpl in Ha, Ht; (destruct Ht as [Ht|Ht]; [|try done]);
    rewrite <- ?Ht, <- ?Ha in Hp; try specialize (Hp ltac:(auto) ltac:(auto));
    try solve [by apply clean_trackCreate | by apply clean_trackUpdate | by apply clean_migratedTrackCreate | by apply clean_playlistUpdate];
    apply clean_handler;
    try solve [by apply clean_playlistCreate | by apply clean_migratedPlaylistCreate];
    try solve [clean_steps].
  unfold checked_late in Hl. by rewrite <- Ht, <- Ha in Hl.
Qed.
End Rejections.

#[export] Hint Resolve quiet_activeUserIDByWallet quiet_getUserHandle quiet_getTrackOwnerHandle quiet_slug_search
  quiet_getUserWallet quiet_validateSignerForUser quiet_ValidateSigner never_rejects_getTrackOwnerHandle
  never_rejects_slug_search never_rejects_autoSubscribe : etl.

(** ** Routing *)

Fixpoint no_colon (s : string) : bool :=
  match s with
  | EmptyString => true
  | String c s' => negb (Ascii.eqb c ":"%char) && no_colon s'
  end.

Lemma append_nil s : "" +:+ s = s.
Proof. done. Qed.
Lemma append_cons c s t : String c s +:+ t = String c (s +:+ t).
Proof. done. Qed.

Lemma no_colon_app s t : no_colon (s +:+ ":" +:+ t) = false.
Proof.
  rewrite append_cons, append_nil. induction s as [|c s IH]; [done|].
  rewrite append_cons. simpl. rewrite IH. by rewrite andb_false_r.
Qed.

(** A key of two names without a colon comes from those two names only. *)
Lemma handlerKey_inj t a t' a' :
  no_colon t = true -> no_colon a = true -> handlerKey t a = handlerKey t' a' -> t = t' /\ a = a'.
Proof.
  unfold handlerKey. intros Ht Ha. revert t'.
  induction t as [|c t IH]; intros [|c' t']; rewrite ?append_nil, ?(append_cons _ _ (":" +:+ _)); intros Heq.
  - change (String ":" a = String ":" a') in Heq. by injection Heq as ->.
  - change (":" +:+ a) with (String ":" a) in Heq. injection Heq as <- ->. by rewrite no_colon_app in Ha.
  - change (":" +:+ a') with (String ":" a') in Heq. injection Heq as -> _. done.
  - simpl in Ht. apply andb_true_iff in Ht as [_ Ht]. injection Heq as -> Heq.
    by destruct (IH Ht t' Heq) as [-> ->].
Qed.

Section Routing.
Context {J : EtlLibs} {E : EtlSql}.
Implicit Types (p : Params) (h : Handler conn).

Definition plain_names h : bool := no_colon (h_EntityType h) && no_colon (h_Action h).

Lemma register_all_lookup hs d k h :
  handlers (register_all hs d) !! k = Some h ->
  (h ∈ hs /\ k = handlerKey (h_EntityType h) (h_Action h)) \/ handlers d !! k = Some h.
Proof.
  unfold register_all. revert d. induction hs as [|h0 hs IH]; intros d; simpl; [auto|].
  intros Hk. apply IH in Hk as [[Hh ->]|Hk].
  - left. split; [set_solver|done].
  - simpl in Hk. apply lookup_insert_Some in Hk as [[<- <-]|[_ Hk]]; [|auto].
    left. split; [set_solver|done].
Qed.

Lemma register_all_hooks hs d : postHooks (register_all hs d) = postHooks d.
Proof. unfold register_all. revert d. induction hs as [|h0 hs IH]; intros d; simpl; [done|]. by rewrite IH. Qed.

Lemma run_no_hooks d k k' p (c : conn) : postHooks d = ∅ -> runPostHooks d k k' p c = c.
Proof. intros Hd. unfold runPostHooks. rewrite Hd, !lookup_empty. by case_match. Qed.

(** A transaction goes to no handler, or to one of the set registered for its type, or
    for any type, and its action. *)
Lemma Dispatch_register_all hs p c :
  Forall (fun h => plain_names h = true) hs ->
  (Dispatch (register_all hs NewDispatcher) p c = (c, Err ErrNoHandler)) \/
  (exists h, h ∈ hs /\ h_Action h = p_Action p /\
    (h_EntityType h = p_EntityType p \/ h_EntityType h = EntityTypeAny) /\
    Dispatch (register_all hs NewDispatcher) p c =
      ((h_Handle h p c).1, let? _ := (h_Handle h p c).2 in Ok tt)).
Proof.
  intros Hplain. set (d := register_all hs NewDispatcher).
  assert (Hhooks : postHooks d = ∅) by apply register_all_hooks.
  assert (Hfound : forall t h, handlers d !! handlerKey t (p_Action p) = Some h ->
            h ∈ hs /\ h_Action h = p_Action p /\ h_EntityType h = t).
  { intros t h Hh. apply register_all_lookup in Hh as [[Hh Hk]|Hh]; [|by simpl in Hh; rewrite lookup_empty in Hh].
    pose proof (proj1 (Forall_forall _ _) Hplain h Hh) as Hp.
    apply andb_true_iff in Hp as [? ?]. symmetry in Hk. apply handlerKey_inj in Hk as [-> ->]; auto. }
  assert (Hrun : forall k h, (match h_Handle h p c with
                   | (s', Err e) => (s', Err e)
                   | (s', Ok p') => (runPostHooks d (handlerKey (p_EntityType p) (p_Action p)) k p' s', Ok tt)
                   end : conn * res etl_error unit) = ((h_Handle h p c).1, let? _ := (h_Handle h p c).2 in Ok tt)).
  { intros k h. destruct (h_Handle h p c) as [s [p'|e]]; simpl; [by rewrite run_no_hooks|done]. }
  unfold Dispatch, route.
  destruct (handlers d !! handlerKey (p_EntityType p) (p_Action p)) as [h|] eqn:He.
  { right. exists h. apply Hfound in He as (? & ? & ?). auto 6. }
  destruct (handlers d !! handlerKey EntityTypeAny (p_Action p)) as [h|] eqn:Ha; [|by left].
  right. exists h. apply Hfound in Ha as (? & ? & ?). auto 6.
Qed.

Lemma all_handlers_plain : Forall (fun h => plain_names h = true) all_handlers.
Proof. repeat constructor. Qed.
Lemma live_handlers_plain types : Forall (fun h => plain_names h = true) (live_handlers types).
Proof. apply Forall_forall. intros h Hh%live_in_all. revert h Hh. apply Forall_forall, all_handlers_plain. Qed.

(** The handlers of a replay. *)
Definition migration_handlers types : list (Handler conn) := (live_handlers types ++ migration_overrides)%list.

Lemma migration_dispatcher_all types : migration_dispatcher types = register_all (migration_handlers types) NewDispatcher.
Proof. unfold migration_dispatcher, RegisterMigrationOverrides, migration_handlers, register_all. by rewrite foldl_app. Qed.
Lemma migration_in_all types h : h ∈ migration_handlers types -> h ∈ all_handlers.
Proof. unfold migration_handlers, all_handlers. rewrite !elem_of_app. intros [?%live_handlers_enabled|?]; auto. Qed.
Lemma migration_handlers_plain types : Forall (fun h => plain_names h = true) (migration_handlers types).
Proof. apply Forall_forall. intros h Hh%migration_in_all. revert h Hh. apply Forall_forall, all_handlers_plain. Qed.

(** Handlers among those known make a dispatcher that rejects without writing. *)
Lemma Dispatch_clean hs p :
  Forall (fun h => plain_names h = true) hs -> (forall h, h ∈ hs -> h ∈ all_handlers) -> checked_late p = false ->
  clean (Dispatch (register_all hs NewDispatcher) p).
Proof.
  intros Hplain Hall Hl c c' e Hd He.
  destruct (Dispatch_register_all hs p c Hplain) as [Hn|(h & Hh & Ha & Ht & Hr)]; [congruence|].
  rewrite Hr in Hd. destruct (h_Handle h p c) as [c1 [p'|e1]] eqn:Hc; simpl in Hd; [done|].
  injection Hd as -> ->. by eapply (all_handlers_clean h p); auto.
Qed.

(** C20 -- A transaction the indexer rejects writes nothing: when dispatch, live or in a
    replay and with whatever data types enabled, ends in a ValidationError or finds no
    handler, the database is the one it started from, whatever statements failed on the
    way.  The savepoint of such a transaction is kept, so this is what makes a rejection a
    no-op.  Not covered are the handlers that go on checking once they have written: a
    track or playlist with an incomplete USDC price, and grants of access to an email. *)
Theorem rejected_txs_write_nothing types p c c' e :
  Dispatch (live_dispatcher types) p c = (c', Err e) \/ Dispatch (migration_dispatcher types) p c = (c', Err e) ->
  IsValidationError e = true \/ e = ErrNoHandler ->
  checked_late p = false ->
  c_db c' = c_db c.
Proof.
  intros Hd He Hl. assert (Hr : is_rejection e = true) by (destruct He as [He| ->]; [by destruct e|done]).
  rewrite migration_dispatcher_all in Hd. destruct Hd as [Hd|Hd].
  - eapply (Dispatch_clean _ p (live_handlers_plain types)); eauto using live_in_all.
  - eapply (Dispatch_clean _ p (migration_handlers_plain types)); eauto using migration_in_all.
Qed.
End Routing.
