(* ===== verification/EtlProps.v ===== *)
(** * The indexer: who may act, and what stays true of accounts

    An accepted transaction was signed for; wallets and handles name one account; and the
    handlers leave the chain's own tables alone. *)

From stdpp Require Import base gmap strings list.
From Stdlib Require Import ZArith Lia Ascii.
From S2P Require Import Prelude AuthState EtlBase EtlDb EtlAccounts EtlSocial EtlComments EtlEvents EtlRoutes EtlTracks EtlPlaylists.
From S2P Require Import EtlRegistry EtlSteps EtlRejections.

Open Scope string_scope.
Open Scope Z_scope.

(** ** Signatures *)

(** The signer is the user's wallet, or holds a current unrevoked grant of the user as a
    developer app with an undeleted row, or an approved one as an active user. *)
Definition etl_authorized (d : em_db) (uid : Z) (signer : string) : Prop :=
  exists u w, u ∈ users d /\ current_user uid u = true /\ u_wallet u = Some w /\ w <> "" /\
    (ToLower w = ToLower signer \/
     exists g, g ∈ grants d /\ current_grant (ToLower signer) uid g = true /\ g_is_revoked g = false /\
       (existsb (undeleted_app (ToLower signer)) (developer_apps d) = true \/
        existsb (active_wallet (ToLower signer)) (users d) = true /\ g_is_approved g = Some true)).

Section Signatures.
Context {J : EtlLibs} {E : EtlSql}.
Implicit Types (p : Params) (P : em_db -> Prop).

Lemma getUserWallet_ok uid c c' w :
  getUserWallet uid c = (c', Ok w) ->
  c_db c' = c_db c /\
  (w <> "" -> exists u, u ∈ users (em (c_db c)) /\ current_user uid u = true /\ u_wallet u = Some w).
Proof.
  intros Hw. split; [pose proof (quiet_getUserWallet uid c) as Hq; by rewrite Hw in Hq|]. intros Hne.
  unfold getUserWallet, ignore in Hw. destruct (pbind _ _ c) as [c1 [w1|e]] eqn:Hb; simplify_eq.
  apply pbind_ok in Hb as (c2 & [w2|] & Hr & Hk); simpl in Hk; [|done]. injection Hk as -> ->.
  apply ask_row_ok in Hr as [Hin _]. apply list_elem_of_fmap in Hin as (u & Hu & Hin).
  apply list_elem_of_In, filter_In in Hin as [Hin Hcur]. exists u. rewrite list_elem_of_In. auto.
Qed.

Lemma validateSignerForUser_ok p uid :
  needs (fun d => etl_authorized d uid (p_Signer p)) (validateSignerForUser p uid).
Proof.
  intros c c' [] H. unfold validateSignerForUser in H.
  apply pbind_ok in H as (c1 & w & Hw & H). apply getUserWallet_ok in Hw as [Hdb Hw].
  apply pbind_ok in H as (c2 & ? & Hr & H). apply reject_when_ok in Hr as [Hne ->].
  apply String.eqb_neq in Hne. destruct (Hw Hne) as (u & Hu & Hcur & Hwal).
  exists u, w. split_and!; try done.
  destruct (EqualFold w (p_Signer p)) eqn:Hf; [left; by apply EqualFold_spec|right].
  apply pbind_ok in H as (c3 & g & Hg & H). apply no_rows_ok, ask_row_ok in Hg as [Hg Hdb3].
  apply list_elem_of_In, filter_In in Hg as [Hg Hgc]. rewrite Hdb in Hg. exists g.
  apply pbind_ok in H as (c4 & ? & Hr & H). apply reject_when_ok in Hr as [Hrev ->].
  apply pbind_ok in H as (c5 & isApp & Ha & H). apply ask_ok in Ha as [-> Hdb5].
  apply pbind_ok in H as (c6 & isUser & Hs & H). apply ask_ok in Hs as [-> Hdb6].
  apply pbind_ok in H as (c7 & ? & Hr & H). apply reject_when_ok in Hr as [Hvalid ->].
  apply reject_when_ok in H as [Happ _].
  rewrite ToLower_idem, Hdb3, Hdb in Hvalid. rewrite !ToLower_idem, ?Hdb5, ?Hdb3, ?Hdb in *.
  split_and!; [by apply list_elem_of_In|done|done|].
  destruct (existsb (undeleted_app _) _); [by left|right]. simpl in *.
  destruct (existsb (active_wallet _) _); [|done]. split; [done|].
  by destruct (g_is_approved g) as [[]|].
Qed.

End Signatures.

(** The user's wallet, or the wallet that is linked. *)
Definition dashboard_party {J : EtlLibs} (p : Params) (d : em_db) : Prop :=
  p_Signer p = "" \/ EqualFold (dashboard_wallet p) (p_Signer p) = true \/
  exists u w, u ∈ users d /\ current_user (p_UserID p) u = true /\ u_wallet u = Some w /\ ToLower w = ToLower (p_Signer p).

(** The transactions whose handlers ask for no signer. *)
Definition unsigned (p : Params) : bool :=
  existsb (fun ta : string * string => String.eqb ta.1 (p_EntityType p) && String.eqb ta.2 (p_Action p))
    [ (EntityTypePlayCount, ActionReconcile); (EntityTypeNotification, EtlActionCreate);
      (EntityTypeEncryptedEmail, ActionAddEmail); (EntityTypeEmailAccess, EtlActionUpdate) ].

(** Who may have signed an accepted transaction: someone authorized for its user; the
    fresh wallet of a new account; the verifier; for the revocation of a grant, someone
    authorized for the user the grant is to; a party to a dashboard wallet; anyone, for
    the transactions that are not checked. *)
Inductive may_act {J : EtlLibs} (p : Params) (d : em_db) : Prop :=
| act_signed : etl_authorized d (p_UserID p) (p_Signer p) -> may_act p d
| act_new_account :
    p_EntityType p = EntityTypeUser -> p_Action p = EtlActionCreate ->
    existsb (current_user (p_UserID p)) (users d) = false ->
    existsb (wallet_is (ToLower (p_Signer p))) (users d) = false -> may_act p d
| act_verifier :
    p_EntityType p = EntityTypeUser -> p_Action p = ActionVerify -> EqualFold (p_Signer p) VerifiedAddress = true -> may_act p d
| act_grantee u :
    p_EntityType p = EntityTypeGrant -> p_Action p = EtlActionDelete ->
    u ∈ users d -> active_wallet (grantee p) u = true -> etl_authorized d (u_user_id u) (p_Signer p) -> may_act p d
| act_dashboard : p_EntityType p = EntityTypeDashboardWalletUser -> dashboard_party p d -> may_act p d
| act_unsigned : unsigned p = true -> may_act p d.

Section Accepted.
Context {J : EtlLibs} {E : EtlSql}.
Implicit Types (p : Params).

Lemma ValidateSigner_ok p : needs (fun d => etl_authorized d (p_UserID p) (p_Signer p)) (ValidateSigner p).
Proof. apply validateSignerForUser_ok. Qed.

Lemma succeeds_ok m c c' : succeeds m c = (c', Ok true) -> exists c1, m c = (c1, Ok tt).
Proof.
  unfold succeeds, ignore, pbind, pret. destruct (m c) as [c1 [[]|e]]; intros; simplify_eq. eauto.
Qed.

(** The current rows that hold a handle. *)
Definition holds_handle (h : string) (u : user_row) : bool := bool_decide (u_handle_lc u = Some h) && u_is_current u.

Lemma validateUserCreate_needs p :
  needs (fun d => existsb (current_user (p_UserID p)) (users d) = false /\
                  existsb (wallet_is (ToLower (p_Signer p))) (users d) = false /\
                  (MetadataString p "handle" <> "" ->
                   existsb (holds_handle (ToLower (MetadataString p "handle"))) (users d) = false)) (validateUserCreate p).
Proof.
  unfold validateUserCreate. do 2 (apply needs_bind_r; [auto with etl|intros _]).
  do 3 (apply needs_bind_r; [auto with etl|intros _]).
  apply needs_ask. intros x. apply needs_reject_when. intros ->.
  apply needs_ask. intros y. apply needs_reject_when. intros ->.
  apply needs_bind_r; [apply quiet_ask|intros z]. apply needs_bind_r; [auto with etl|intros _].
  case_match eqn:He.
  - apply String.eqb_eq in He. by intros c c' a _ [c1 Hw] [c2 Hu].
  - apply needs_ask. intros h c c' a H [c3 Hh] [c1 Hw] [c2 Hu]. by apply reject_when_ok in H as [-> _].
Qed.

Lemma userCreate_needs p :
  needs (fun d => existsb (current_user (p_UserID p)) (users d) = false /\
                  existsb (wallet_is (ToLower (p_Signer p))) (users d) = false) (userCreate p).
Proof.
  unfold userCreate. apply needs_bind_l. eapply needs_weaken; [|apply validateUserCreate_needs]. naive_solver.
Qed.

Lemma userVerify_needs p : needs (fun d => EqualFold (p_Signer p) VerifiedAddress = true) (userVerify p).
Proof.
  unfold userVerify, validateUserVerify. apply needs_bind_l. do 2 (apply needs_bind_r; [auto with etl|intros _]).
  apply needs_bind_r; [apply quiet_ask|intros x]. apply needs_bind_r; [auto with etl|intros _].
  intros c c' a H. apply reject_when_ok in H as [H _]. by destruct (EqualFold _ _).
Qed.

Lemma activeUserIDByWallet_ok w c c' uid :
  activeUserIDByWallet w c = (c', Ok (Some uid)) ->
  exists u, u ∈ users (em (c_db c)) /\ active_wallet (ToLower w) u = true /\ u_user_id u = uid.
Proof.
  unfold activeUserIDByWallet. destruct (ask_row _ c) as [c1 [x|[]]] eqn:Hr; intros; simplify_eq.
  apply ask_row_ok in Hr as [Hin _]. apply list_elem_of_fmap in Hin as (u & -> & Hin).
  apply list_elem_of_In, filter_In in Hin as [Hin Ha]. exists u. by rewrite list_elem_of_In.
Qed.

Lemma grantDelete_needs p :
  needs (fun d => etl_authorized d (p_UserID p) (p_Signer p) \/
    exists u, u ∈ users d /\ active_wallet (grantee p) u = true /\ etl_authorized d (u_user_id u) (p_Signer p)) (grantDelete p).
Proof.
  unfold grantDelete, validateGrantDelete. apply needs_bind_l.
  apply needs_bind_r; [auto with etl|intros _]. apply needs_bind_r; [apply quiet_ask|intros x].
  apply needs_bind_r; [auto with etl|intros _].
  intros c c' a H. apply pbind_ok in H as (c1 & ok & Hs & H).
  assert (Hdb : c_db c1 = c_db c).
  { assert (quiet (succeeds (ValidateSigner p))) as Hq
      by (apply quiet_ignore, quiet_bind; auto with etl).
    specialize (Hq c). by rewrite Hs in Hq. }
  destruct ok; [apply succeeds_ok in Hs as [c2 Hs]; left; by eapply ValidateSigner_ok|].
  apply pbind_ok in H as (c2 & [uid|] & Hu & H); [|done].
  pose proof (quiet_activeUserIDByWallet (grantee p) c1) as Hq. rewrite Hu in Hq. simpl in Hq.
  apply activeUserIDByWallet_ok in Hu as (u & Hin & Ha & <-).
  apply pbind_ok in H as (c3 & [] & Hok & H); [|done]. apply succeeds_ok in Hok as [c4 Hok].
  apply validateSignerForUser_ok in Hok. right. exists u.
  unfold grantee in *. rewrite ToLower_idem in Ha. rewrite Hq, Hdb in Hok. by rewrite Hdb in Hin.
Qed.

Lemma handler_ok t a (run : Params -> proc conn etl_error unit) p c c' p' :
  h_Handle (handler t a run) p c = (c', Ok p') -> exists c1, run p c = (c1, Ok tt).
Proof. simpl. intros H. apply pbind_ok in H as (c1 & [] & Hr & _). eauto. Qed.

Lemma signed_use {A} p (m : proc conn etl_error A) c c1 a :
  needs (fun d => etl_authorized d (p_UserID p) (p_Signer p)) m ->
  m c = (c1, Ok a) -> etl_authorized (em (c_db c)) (p_UserID p) (p_Signer p).
Proof. intros Hm. apply Hm. Qed.

Lemma ValidateSigner_genre p :
  needs (fun d => etl_authorized d (p_UserID p) (p_Signer p)) (ValidateSigner (normalize_genre p)).
Proof. pose proof (ValidateSigner_ok (normalize_genre p)) as H. unfold normalize_genre in *. by destruct (String.eqb _ _). Qed.

Lemma needs_reject {A} P msg : needs P (@reject A msg).
Proof. done. Qed.

Lemma getUserWallet_party p c c' w :
  getUserWallet (p_UserID p) c = (c', Ok w) -> EqualFold w (p_Signer p) = true -> dashboard_party p (em (c_db c)).
Proof.
  intros [_ Hw]%getUserWallet_ok Heq%EqualFold_spec. unfold dashboard_party. destruct (String.eqb_spec w "") as [->|Hne].
  - left. by apply (ToLower_empty (p_Signer p)).
  - right; right. destruct (Hw Hne) as (u & ? & ? & ?). by exists u, w.
Qed.

Lemma dashboard_signer {A} p msg (k : string -> unit -> proc conn etl_error A) :
  needs (dashboard_party p)
    (let! w := getUserWallet (p_UserID p) in
     let! u := reject_when (negb (EqualFold w (p_Signer p)) && negb (EqualFold (dashboard_wallet p) (p_Signer p))) msg in
     k w u).
Proof.
  intros c c' a H. apply pbind_ok in H as (c1 & w & Hw & H). apply pbind_ok in H as (c2 & ? & Hr & _).
  apply reject_when_ok in Hr as [[Hr|Hr]%andb_false_iff _]; apply negb_false_iff in Hr.
  - by eapply getUserWallet_party.
  - right; by left.
Qed.

Lemma dashboardWalletCreate_needs p : needs (dashboard_party p) (dashboardWalletCreate p).
Proof.
  unfold dashboardWalletCreate, validateDashboardWalletCreate, validateDashboardWalletAssignment.
  apply needs_bind_r; [auto with etl|intros _]. do 2 apply needs_bind_l.
  do 2 (apply needs_bind_r; [solve [quiet_steps]|intros ?]). apply dashboard_signer.
Qed.

Lemma dashboardWalletDelete_needs p : needs (dashboard_party p) (dashboardWalletDelete p).
Proof.
  unfold dashboardWalletDelete, validateDashboardWalletDelete.
  apply needs_bind_r; [auto with etl|intros _]. apply needs_bind_l.
  do 4 (apply needs_bind_r; [solve [quiet_steps]|intros ?]). apply dashboard_signer.
Qed.

(** Find the signer check among a handler's steps, behind steps that only read. *)
Ltac signer_check :=
  first [ exact (ValidateSigner_ok _) | exact (ValidateSigner_genre _) | apply needs_reject
        | apply needs_bind_l; solve [signer_check]
        | apply needs_bind_r; [solve [quiet_steps]|intros ?]; signer_check
        | case_match; signer_check
        | match goal with |- needs _ ?m => unfold_head m end; cbv zeta; signer_check ].

(** C7 -- An accepted transaction was signed for: whenever a handler takes effect, with
    whatever data types enabled, the signer was authorized for the user it acts for in the
    database as it stood -- the user's own wallet, or an unrevoked grant of the user held
    by a developer app or, approved, by an active user.  The exceptions are the creation
    of an account by a wallet that has none, verification by the verifier's key, the
    revocation of a grant by the user it was given to, dashboard wallets, which either
    party links and unlinks, and four actions whose handlers ask for no signer: play
    counts, announcements, and encrypted emails with the access to them. *)
Theorem accepted_txs_are_authorized types p c c' :
  Dispatch (live_dispatcher types) p c = (c', Ok tt) -> may_act p (em (c_db c)).
Proof.
  intros Hd. unfold live_dispatcher in Hd.
  destruct (Dispatch_register_all (live_handlers types) p c (live_handlers_plain types)) as [Hn|(h & Hh & Ha & Ht & Hr)];
    [congruence|].
  rewrite Hr in Hd. destruct (h_Handle h p c) as [c1 [p'|e1]] eqn:Hc; [|done]. clear Hd Hr.
  apply live_handlers_enabled in Hh. unfold live_handlers in Hh.
  handler_cases Hh; (apply handler_ok in Hc as [c2 Hc] || cbn [h_Handle] in Hc); simpl in Ha, Ht;
    destruct Ht as [Ht|Ht]; try done;
    first [ apply act_unsigned; unfold unsigned; rewrite <- Ht, <- Ha; reflexivity
          | apply userCreate_needs in Hc as (? & ?); by apply act_new_account
          | apply userVerify_needs in Hc; by apply act_verifier
          | apply grantDelete_needs in Hc as [?|(u & ? & ? & ?)]; [by apply act_signed|by eapply act_grantee]
          | apply dashboardWalletCreate_needs in Hc; by apply act_dashboard
          | apply dashboardWalletDelete_needs in Hc; by apply act_dashboard
          | apply act_signed; revert Hc; apply signed_use; signer_check ].
Qed.
End Accepted.

(** ** Accounts *)

Local Open Scope list_scope.

(** One current row per account, a wallet and a handle name one account, and the handle
    that is searched is the lower case of the one that is shown. *)
Record users_ok (t : list user_row) : Prop := {
  one_current u v : u ∈ t -> v ∈ t -> u_is_current u = true -> u_is_current v = true -> u_user_id u = u_user_id v -> u = v;
  one_wallet u v w : u ∈ t -> v ∈ t -> u_wallet u = Some w -> u_wallet v = Some w -> u_user_id u = u_user_id v;
  one_handle u v h : u ∈ t -> v ∈ t -> u_is_current u = true -> u_is_current v = true ->
    u_handle_lc u = Some h -> u_handle_lc v = Some h -> u_user_id u = u_user_id v;
  handle_lower u : u ∈ t -> u_is_current u = true -> u_handle_lc u = ToLower <$> u_handle u
}.

Lemma users_ok_nil : users_ok [].
Proof. split; intros; set_solver. Qed.

(** A new row for an id, a wallet and a handle nobody has. *)
Lemma users_ok_insert t r :
  users_ok t ->
  (forall v, v ∈ t -> u_is_current v = true -> u_user_id v <> u_user_id r) ->
  (forall v, v ∈ t -> is_Some (u_wallet r) -> u_wallet v <> u_wallet r) ->
  (forall v, v ∈ t -> u_is_current v = true -> is_Some (u_handle_lc r) -> u_handle_lc v <> u_handle_lc r) ->
  u_handle_lc r = ToLower <$> u_handle r ->
  users_ok (t ++ [r]).
Proof.
  intros [Hc Hw Hh Hl] Hid Hwal Hhan Hlow.
  assert (Hin : forall u, u ∈ t ++ [r] -> u ∈ t \/ u = r) by set_solver.
  split.
  - intros u v Hu Hv Cu Cv Huv. destruct (Hin u Hu) as [Hu'| ->], (Hin v Hv) as [Hv'| ->]; try done; [by eapply Hc|..];
      exfalso; eapply Hid; eauto.
  - intros u v w Hu Hv Wu Wv. destruct (Hin u Hu) as [Hu'| ->], (Hin v Hv) as [Hv'| ->]; try done; [by eapply Hw|..];
      exfalso; eapply Hwal; eauto; congruence.
  - intros u v h Hu Hv Cu Cv Lu Lv. destruct (Hin u Hu) as [Hu'| ->], (Hin v Hv) as [Hv'| ->]; try done; [by eapply Hh|..];
      exfalso; eapply Hhan; eauto; congruence.
  - intros u Hu Cu. destruct (Hin u Hu) as [Hu'| ->]; [by apply Hl|done].
Qed.

(** An edit of the current row of an account that keeps its id and wallet, and takes a
    handle that was its own or nobody's. *)
Lemma users_ok_update t uid f :
  users_ok t ->
  (forall u, u_user_id (f u) = u_user_id u) -> (forall u, u_is_current (f u) = u_is_current u) ->
  (forall u, u_wallet (f u) = u_wallet u) ->
  (forall u, u ∈ t -> current_user uid u = true -> u_handle_lc (f u) = ToLower <$> u_handle (f u) /\
     (u_handle_lc (f u) = u_handle_lc u \/
      forall v, v ∈ t -> u_is_current v = true -> u_handle_lc v <> u_handle_lc (f u))) ->
  users_ok (update_where (current_user uid) f t).
Proof.
  intros [Hc Hw Hh Hl] Fid Fcur Fwal Fh. unfold update_where.
  set (g := fun x => if current_user uid x then f x else x).
  assert (Gid : forall u, u_user_id (g u) = u_user_id u) by (intros u; unfold g; case_match; auto).
  assert (Gcur : forall u, u_is_current (g u) = u_is_current u) by (intros u; unfold g; case_match; auto).
  assert (Gwal : forall u, u_wallet (g u) = u_wallet u) by (intros u; unfold g; case_match; auto).
  assert (Hin : forall u, u ∈ map g t -> exists u0, u0 ∈ t /\ u = g u0).
  { intros u Hu. apply list_elem_of_fmap in Hu as (u0 & -> & Hu). eauto. }
  split.
  - intros u v Hu Hv. destruct (Hin u Hu) as (u0 & Hu0 & ->), (Hin v Hv) as (v0 & Hv0 & ->).
    rewrite !Gcur, !Gid. intros Cu Cv Huv. by rewrite (Hc u0 v0).
  - intros u v w Hu Hv. destruct (Hin u Hu) as (u0 & Hu0 & ->), (Hin v Hv) as (v0 & Hv0 & ->).
    rewrite !Gwal, !Gid. eauto.
  - intros u v h Hu Hv. destruct (Hin u Hu) as (u0 & Hu0 & ->), (Hin v Hv) as (v0 & Hv0 & ->).
    rewrite !Gcur, !Gid. intros Cu Cv. unfold g.
    destruct (current_user uid u0) eqn:E1, (current_user uid v0) eqn:E2; [|..|eauto].
    + apply andb_true_iff in E1 as [E1%Z.eqb_eq _], E2 as [E2%Z.eqb_eq _]. congruence.
    + destruct (Fh u0 Hu0 E1) as [_ [-> | Hn]]; [by eauto|]. intros H1 H2. exfalso. eapply Hn; eauto. congruence.
    + destruct (Fh v0 Hv0 E2) as [_ [-> | Hn]]; [by eauto|]. intros H1 H2. exfalso. eapply Hn; [exact Hu0|..]; eauto. congruence.
  - intros u Hu. destruct (Hin u Hu) as (u0 & Hu0 & ->). rewrite Gcur. intros Cu. unfold g.
    destruct (current_user uid u0) eqn:E1; [by apply Fh|auto].
Qed.

Section AccountsOk.
Context {J : EtlLibs} {E : EtlSql}.
Implicit Types (p : Params).

Lemma keeps_autoSubscribe {B} (f : etl_db -> B) p :
  (forall d t, f (mkEtlDb (set_subscriptions t (em d)) (chain d)) = f d) -> keeps f (autoSubscribeToContestOnSubmission p).
Proof.
  intros Hf. unfold autoSubscribeToContestOnSubmission. case_match; [by apply keeps_quiet|]. case_match; [by apply keeps_quiet|].
  intros c. match goal with |- context [ask_row ?q c] =>
    pose proof (quiet_ask_row q c) as Hq; destruct (ask_row q c) as [c1 [[eventID hostID]|e1]] end; simpl in Hq.
  - rewrite <- Hq. match goal with |- f (c_db (?m c1).1) = _ => enough (keeps f m) as Hm by apply Hm end.
    case_match; [by apply keeps_quiet|]. apply keep_bind; [apply keeps_quiet, quiet_ask|intros []]; [by apply keeps_quiet|].
    apply keeps_exec_em. intros d d' Hd. simplify_option_eq. apply Hf.
  - destruct e1; simpl; by rewrite Hq.
Qed.

Lemma users_autoSubscribe p : keeps (fun d => users (em d)) (autoSubscribeToContestOnSubmission p).
Proof. by apply keeps_autoSubscribe. Qed.
Lemma chain_autoSubscribe p : keeps chain (autoSubscribeToContestOnSubmission p).
Proof. by apply keeps_autoSubscribe. Qed.
Hint Resolve users_autoSubscribe chain_autoSubscribe : etl.

Lemma chain_exec_em g : keeps chain (exec_em g).
Proof. by apply keeps_exec_em. Qed.
Hint Resolve chain_exec_em : etl.

Definition keeps_ok {A} (m : proc conn etl_error A) : Prop :=
  forall c, users_ok (users (em (c_db c))) -> users_ok (users (em (c_db (m c).1))).

Lemma keeps_ok_users {A} (m : proc conn etl_error A) : keeps (fun d => users (em d)) m -> keeps_ok m.
Proof. intros Hm c. specialize (Hm c). simpl in Hm. by rewrite Hm. Qed.

(** Checks, and then a write that may rely on what they established. *)
Lemma keeps_ok_bind {A B} P (v : proc conn etl_error A) (w : A -> proc conn etl_error B) :
  quiet v -> needs P v ->
  (forall a c, P (em (c_db c)) -> users_ok (users (em (c_db c))) -> users_ok (users (em (c_db (w a c).1)))) ->
  keeps_ok (pbind v w).
Proof.
  intros Hq Hn Hw c Hok. unfold pbind. specialize (Hq c). destruct (v c) as [c1 [a|e]] eqn:Hv; simpl in *; [|by rewrite Hq].
  apply Hw; rewrite Hq; [by eapply Hn|done].
Qed.

Lemma existsb_false_in {A} (f : A -> bool) l x : existsb f l = false -> x ∈ l -> f x = false.
Proof.
  intros Hf Hx. destruct (f x) eqn:Hfx; [|done].
  enough (existsb f l = true) by congruence. apply existsb_exists. exists x. by rewrite <- list_elem_of_In.
Qed.

Lemma userCreate_keeps_ok p : keeps_ok (userCreate p).
Proof.
  unfold userCreate. eapply keeps_ok_bind; [|apply validateUserCreate_needs|].
  { unfold validateUserCreate, userExists, walletExists, developerAppExists, handleExists. quiet_steps. }
  intros _ c (Hid & Hwal & Hhan) Hok. unfold insertUser, insertUserWithState.
  match goal with |- context [exec_em ?f c] => destruct (exec_em_cases f c) as [-> | (d & [= <-] & ->)] end; [done|].
  simpl. case_match; [done|]. apply users_ok_insert; [done|..|done]; simpl; intros v Hv.
  - intros Hc Heq. apply (existsb_false_in _ _ v) in Hid; [|done]. unfold current_user in Hid.
    by rewrite Heq, Z.eqb_refl, Hc in Hid.
  - intros _ Heq. apply (existsb_false_in _ _ v) in Hwal; [|done]. by apply bool_decide_eq_false in Hwal.
  - intros Hc [h Hh] Heq. unfold nullString in *. destruct (String.eqb (MetadataString p "handle") "") eqn:He; [done|].
    apply String.eqb_neq in He. apply Hhan in He. apply (existsb_false_in _ _ v) in He; [|done].
    unfold holds_handle in He. by rewrite Heq, Hc, bool_decide_eq_true_2 in He.
Qed.

(** An UPDATE of the current row of an account. *)
Lemma update_users_ok uid f c :
  users_ok (users (em (c_db c))) -> users_ok (update_where (current_user uid) f (users (em (c_db c)))) ->
  users_ok (users (em (c_db (update_users uid f c).1))).
Proof.
  intros Hok Hup. unfold update_users.
  match goal with |- context [exec_em ?f c] => destruct (exec_em_cases f c) as [-> | (d & Hd & ->)] end; [done|].
  unfold update_key in Hd. case_bool_decide; [|done]. by simplify_eq/=.
Qed.

Lemma getCurrentUser_ok uid c c' u :
  getCurrentUser uid c = (c', Ok u) -> u ∈ users (em (c_db c)) /\ current_user uid u = true /\ c_db c' = c_db c.
Proof.
  intros Hu. apply ask_row_ok in Hu as [Hin Hdb]. apply list_elem_of_In, filter_In in Hin as [Hin Hc].
  by rewrite list_elem_of_In.
Qed.

Lemma current_user_unique t uid u v :
  users_ok t -> u ∈ t -> v ∈ t -> current_user uid u = true -> current_user uid v = true -> u = v.
Proof.
  intros Hok Hu Hv [Iu%Z.eqb_eq Cu]%andb_true_iff [Iv%Z.eqb_eq Cv]%andb_true_iff.
  eapply one_current; eauto. congruence.
Qed.

Lemma userVerify_keeps_ok p : keeps_ok (userVerify p).
Proof.
  unfold userVerify. apply (keeps_ok_bind (fun _ => True)); [|done|].
  { unfold validateUserVerify, userExists. quiet_steps. }
  intros _ c _ Hok. unfold verifyUser, pbind at 1.
  pose proof (getCurrentUser_ok (p_UserID p) c) as Hget.
  assert (Hq : quiet (getCurrentUser (p_UserID p))) by (unfold getCurrentUser; auto with etl). specialize (Hq c).
  destruct (getCurrentUser (p_UserID p) c) as [c1 [u|e]]; simpl in Hq; [|simpl; by rewrite Hq].
  apply update_users_ok; rewrite Hq; [done|]. apply users_ok_update; try done.
  intros v Hv Hcv. simpl. split; [|by left]. apply (handle_lower _ Hok v Hv). by apply andb_true_iff in Hcv as [_ ?].
Qed.

Lemma getUserHandle_ok uid c c' h :
  getUserHandle uid c = (c', Ok h) -> h <> "" ->
  exists u, u ∈ users (em (c_db c)) /\ current_user uid u = true /\ u_handle_lc u = Some h.
Proof.
  unfold getUserHandle. destruct (ask_row _ c) as [c1 [x|[]]] eqn:Hr; intros Hx Hne; simplify_eq.
  apply ask_row_ok in Hr as [Hin _]. apply list_elem_of_fmap in Hin as (u & -> & Hin).
  apply list_elem_of_In, filter_In in Hin as [Hin Hc]. exists u. rewrite list_elem_of_In.
  by destruct (u_handle_lc u).
Qed.

(** The handle asked for is the account's own, or free. *)
Definition handle_available p (d : em_db) : Prop :=
  let h := ToLower (MetadataString p "handle") in
  MetadataString p "handle" <> "" ->
  (exists u, u ∈ users d /\ current_user (p_UserID p) u = true /\ u_handle_lc u = Some h) \/
  existsb (holds_handle h) (users d) = false.

Lemma validateUserUpdate_needs p : needs (handle_available p) (validateUserUpdate p).
Proof.
  unfold validateUserUpdate. do 6 (apply needs_bind_r; [auto with etl|intros _]).
  apply needs_bind_r; [apply quiet_ask|intros x]. apply needs_bind_r; [auto with etl|intros _].
  case_match eqn:He; [apply String.eqb_eq in He; by intros c c' a _ ?|]. apply String.eqb_neq in He.
  intros c c' a H _. apply pbind_ok in H as (c1 & h & Hh & H).
  pose proof (quiet_getUserHandle (p_UserID p) c) as Hq. rewrite Hh in Hq. simpl in Hq.
  destruct (String.eqb h _) eqn:Heq.
  - apply String.eqb_eq in Heq as ->. left. eapply getUserHandle_ok; [done|]. by rewrite ToLower_empty.
  - right. apply pbind_ok in H as (c2 & b & Hb & H). apply ask_ok in Hb as [-> _].
    apply reject_when_ok in H as [H _]. by rewrite Hq in H.
Qed.

Lemma mergeNullStr_handle p existing :
  mergeNullStr p "handle" existing =
  (if String.eqb (MetadataString p "handle") "" then existing else Some (MetadataString p "handle")).
Proof. unfold mergeNullStr, MetadataString. by destruct (MetadataJSON p "handle"). Qed.

Lemma quiet_resolveArtistPick p x : quiet (resolveArtistPick p x).
Proof. unfold resolveArtistPick, trackExistsAndOwnedBy. quiet_steps. Qed.

Lemma userUpdate_keeps_ok p : keeps_ok (userUpdate p).
Proof.
  unfold userUpdate. eapply keeps_ok_bind; [|apply validateUserUpdate_needs|].
  { unfold validateUserUpdate, userExists, handleExists.
    repeat (apply quiet_bind; [auto with etl|intros _ || intros ?]).
    quiet_steps. }
  intros _ c Hav Hok. unfold updateUser, pbind at 1.
  pose proof (getCurrentUser_ok (p_UserID p) c) as Hget.
  assert (Hq : quiet (getCurrentUser (p_UserID p))) by (unfold getCurrentUser; auto with etl). specialize (Hq c).
  destruct (getCurrentUser (p_UserID p) c) as [c1 [u|e]]; simpl in Hq; [|simpl; by rewrite Hq].
  destruct (Hget _ _ eq_refl) as (Hu & Hcu & _).
  unfold pbind. pose proof (quiet_resolveArtistPick p (u_artist_pick_track_id u) c1) as Hq2.
  destruct (resolveArtistPick p (u_artist_pick_track_id u) c1) as [c2 [pk|e]]; simpl in Hq2; [|simpl; by rewrite Hq2, Hq].
  rewrite Hq in Hq2. apply update_users_ok; rewrite Hq2; [done|]. apply users_ok_update; try done.
  intros v Hv Hcv. simpl. pose proof (current_user_unique _ _ u v Hok Hu Hv Hcu Hcv) as <-.
  assert (Hlow : u_handle_lc u = ToLower <$> u_handle u).
  { apply (handle_lower _ Hok u Hu). by apply andb_true_iff in Hcu as [_ ?]. }
  rewrite mergeNullStr_handle. destruct (String.eqb (MetadataString p "handle") "") eqn:He.
  { rewrite Hlow. destruct (u_handle u); simpl; auto. }
  apply String.eqb_neq in He. split; [done|].
  destruct (Hav He) as [(u' & Hu' & Hcu' & Hh)|Hfree].
  - left. by rewrite (current_user_unique _ _ u u' Hok Hu Hu' Hcu Hcu'), Hh.
  - right. intros v Hv' Hc Hh. apply (existsb_false_in _ _ v) in Hfree; [|done].
    unfold holds_handle in Hfree. by rewrite Hh, Hc, bool_decide_eq_true_2 in Hfree.
Qed.

Lemma handler_keeps_ok t a (run : Params -> proc conn etl_error unit) p :
  keeps_ok (run p) -> keeps_ok (h_Handle (handler t a run) p).
Proof.
  intros Hr c Hok. simpl. unfold pbind, pret. specialize (Hr c Hok). by destruct (run p c) as [c1 [|]].
Qed.

Lemma live_handlers_keep_ok h p : h ∈ live_handlers None -> keeps_ok (h_Handle h p).
Proof.
  unfold live_handlers. intros Hh. handler_cases Hh;
    try solve [apply handler_keeps_ok; first [apply userCreate_keeps_ok | apply userUpdate_keeps_ok | apply userVerify_keeps_ok]];
    apply keeps_ok_users; keeps_steps.
Qed.

Lemma all_handlers_keep_chain h p : h ∈ all_handlers -> keeps chain (h_Handle h p).
Proof. unfold all_handlers, live_handlers. intros Hh. handler_cases Hh; keeps_steps. Qed.
End AccountsOk.

(** The databases live indexing reaches: from one without accounts, by dispatched
    transactions, whatever the database refuses, and by anything that leaves the
    accounts alone. *)
Inductive live_reachable {J : EtlLibs} : etl_db -> Prop :=
| live_start d : users (em d) = [] -> live_reachable d
| live_tx (E : EtlSql) types d p aborted n :
    live_reachable d -> live_reachable (c_db (Dispatch (live_dispatcher types) p (mkConn d aborted n)).1)
| live_other d d' : live_reachable d -> users (em d') = users (em d) -> live_reachable d'.

Lemma Dispatch_keeps_ok {J : EtlLibs} {E : EtlSql} types p c :
  users_ok (users (em (c_db c))) -> users_ok (users (em (c_db (Dispatch (live_dispatcher types) p c).1))).
Proof.
  intros Hok. unfold live_dispatcher.
  destruct (Dispatch_register_all _ p c (live_handlers_plain types)) as [->|(h & Hh & _ & _ & ->)]; [done|].
  apply live_handlers_keep_ok; [|done]. by eapply live_handlers_enabled.
Qed.

(** C8 -- Wallets and handles name one account: in every database live indexing reaches, in
    whatever order transactions arrive and whichever statements fail, two rows with the
    same wallet belong to the same account, and two current rows with the same account id
    or the same lower-cased handle are one row.  The tables have no constraint on wallets
    or handles; only the handlers' checks keep them apart. *)
Theorem wallets_and_handles_name_one_account {J : EtlLibs} d u v :
  live_reachable d -> u ∈ users (em d) -> v ∈ users (em d) ->
  (forall w, u_wallet u = Some w -> u_wallet v = Some w -> u_user_id u = u_user_id v) /\
  (u_is_current u = true -> u_is_current v = true ->
   u_user_id u = u_user_id v \/ (is_Some (u_handle_lc u) /\ u_handle_lc u = u_handle_lc v) -> u = v).
Proof.
  intros Hr Hu Hv. assert (Hok : users_ok (users (em d))).
  { clear Hu Hv. induction Hr as [d Hd|E types d p ab n _ IH|d d' _ IH Hd].
    - rewrite Hd. apply users_ok_nil.
    - by apply Dispatch_keeps_ok.
    - by rewrite Hd. }
  split; [intros w; by apply (one_wallet _ Hok)|].
  intros Cu Cv Huv. apply (one_current _ Hok); try done.
  destruct Huv as [?|[[h Hh] Heq]]; [done|]. apply (one_handle _ Hok u v h); congruence.
Qed.

(** ** The handlers of a replay *)

Section Migration.
Context {J : EtlLibs} {E : EtlSql}.
Implicit Types (p : Params).

Lemma Dispatch_keeps {B} (f : etl_db -> B) hs p :
  Forall (fun h => plain_names h = true) hs -> (forall h, h ∈ hs -> keeps f (h_Handle h p)) ->
  keeps f (Dispatch (register_all hs NewDispatcher) p).
Proof.
  intros Hplain Hk c. destruct (Dispatch_register_all hs p c Hplain) as [->|(h & Hh & _ & _ & ->)]; [done|].
  by apply Hk.
Qed.
End Migration.
