(* ===== verification/EtlSigners.v ===== *)
(** * The indexer and the chain on who may sign

    Both decide whether a signer may act for a user, from tables of their own: the chain
    from core_auth_*, one row per key, the indexer from its versioned tables.  Where the
    tables agree so do the verdicts; the indexer's deletion of a developer app and its
    re-creation of a revoked grant make them disagree. *)

From stdpp Require Import base gmap strings list.
From Stdlib Require Import ZArith Lia.
From S2P Require Import Prelude Upgrades AuthState AuthStores AuthSpec EtlBase EtlDb EtlAccounts EtlSocial EtlRegistry EtlSteps EtlRejections EtlProps.

Open Scope string_scope.
Open Scope Z_scope.

(** No statement fails. *)
Definition reliable (E : EtlSql) : Prop := forall n, sql_fault n = None.

(** The rows of the indexer a decision reads, against the chain's. *)
Record agree (d : em_db) (s : dbAuthStore) : Prop := {
  agree_users uid :
    match core_auth_users s !! uid with
    | Some r => exists u, List.filter (current_user uid) (users d) = [u] /\ u_wallet u = Some (dbu_wallet r) /\
                  u_is_deactivated u = dbu_is_deactivated r
    | None => List.filter (current_user uid) (users d) = []
    end;
  agree_grants a uid :
    match core_auth_grants s !! (a, uid) with
    | Some r => exists g, List.filter (current_grant a uid) (grants d) = [g] /\ g_is_revoked g = dbg_is_revoked r /\
                  g_is_approved g = dbg_is_approved r
    | None => List.filter (current_grant a uid) (grants d) = []
    end;
  agree_apps a : existsb (undeleted_app a) (developer_apps d) = true <-> live_app s a
}.

Section Verdicts.
Context {J : EtlLibs} {E : EtlSql} (HE : reliable E).
Implicit Types (c : conn).

Lemma ask_reliable {A} (f : etl_db -> A) c :
  c_aborted c = false -> ask f c = (mkConn (c_db c) false (S (c_clock c)), Ok (f (c_db c))).
Proof using HE. intros Hc. unfold ask, statement. by rewrite Hc, HE. Qed.

Lemma ask_row_one {A} (f : etl_db -> list A) c x :
  c_aborted c = false -> f (c_db c) = [x] -> ask_row f c = (mkConn (c_db c) false (S (c_clock c)), Ok x).
Proof using HE. intros Hc Hf. unfold ask_row, statement, pick. rewrite Hc, HE, Hf. simpl length. by rewrite Nat.mod_1_r. Qed.

Lemma in_filter {A} (f : A -> bool) l x : x ∈ l -> f x = true -> x ∈ List.filter f l.
Proof. intros Hx Hf. apply list_elem_of_In, filter_In. by rewrite <- list_elem_of_In. Qed.

Lemma filter_in {A} (f : A -> bool) l x : x ∈ List.filter f l -> x ∈ l /\ f x = true.
Proof. intros Hx. apply list_elem_of_In, filter_In in Hx. by rewrite list_elem_of_In. Qed.

Lemma agree_user_in d s uid u :
  agree d s -> u ∈ users d -> current_user uid u = true ->
  exists r, core_auth_users s !! uid = Some r /\ u_wallet u = Some (dbu_wallet r) /\ u_is_deactivated u = dbu_is_deactivated r.
Proof.
  intros Ha Hu Hc. pose proof (in_filter _ _ _ Hu Hc) as Hf. pose proof (agree_users _ _ Ha uid) as Hr.
  destruct (core_auth_users s !! uid) as [r|]; [|rewrite Hr in Hf; by apply elem_of_nil in Hf].
  destruct Hr as (u' & Hu' & Hw & Hd). rewrite Hu' in Hf. apply list_elem_of_singleton in Hf as ->. eauto.
Qed.

Lemma agree_active d s w : agree d s -> existsb (active_wallet w) (users d) = true <-> wallet_active s w.
Proof.
  intros Ha. rewrite existsb_exists. split.
  - intros (u & Hu & Hact). unfold active_wallet, wallet_is in Hact. rewrite !andb_true_iff in Hact.
    destruct Hact as [[Hw%bool_decide_eq_true Hc] Hd%negb_true_iff]. apply list_elem_of_In in Hu.
    destruct (agree_user_in _ _ (u_user_id u) u Ha Hu) as (r & Hr & Hw' & Hd').
    { unfold current_user. by rewrite Z.eqb_refl. }
    exists (u_user_id u), r. split_and!; [done|congruence|congruence].
  - intros (uid & r & Hr & <- & Hd). pose proof (agree_users _ _ Ha uid) as Hu. rewrite Hr in Hu.
    destruct Hu as (u & Hf & Hw & Hd'). assert (Hin : u ∈ List.filter (current_user uid) (users d)) by (rewrite Hf; set_solver).
    apply filter_in in Hin as [Hin Hc]. exists u. rewrite <- list_elem_of_In. split; [done|].
    unfold active_wallet, wallet_is. rewrite Hw, bool_decide_eq_true_2 by done.
    apply andb_true_iff in Hc as [_ ->]. by rewrite Hd', Hd.
Qed.

Lemma agree_authorized d s uid signer :
  agree d s -> ToLower signer <> "" -> etl_authorized d uid signer -> authorized s uid signer.
Proof.
  intros Ha Hs (u & w & Hu & Hc & Hw & Hne & Hauth). destruct (agree_user_in _ _ _ _ Ha Hu Hc) as (r & Hr & Hw' & _).
  rewrite Hw in Hw'. injection Hw' as ->. exists r. split_and!; [done..|].
  destruct Hauth as [?|(g & Hg & Hgc & Hrev & Hhow)]; [by left|right]. split; [done|].
  pose proof (in_filter _ _ _ Hg Hgc) as Hf. pose proof (agree_grants _ _ Ha (ToLower signer) uid) as Hgr.
  destruct (core_auth_grants s !! (ToLower signer, uid)) as [gr|]; [|rewrite Hgr in Hf; by apply elem_of_nil in Hf].
  destruct Hgr as (g' & Hg' & Hrev' & Happ'). rewrite Hg' in Hf. apply list_elem_of_singleton in Hf as ->.
  exists gr. split_and!; [done|congruence|]. rewrite (agree_apps _ _ Ha), (agree_active _ _ _ Ha) in Hhow.
  destruct Hhow as [?|[? ?]]; [by left|right]. split; [done|congruence].
Qed.

(** Where the rows agree, an authorized signer passes. *)
Lemma agree_accepts s p uid c :
  agree (em (c_db c)) s -> c_aborted c = false -> authorized s uid (p_Signer p) ->
  (validateSignerForUser p uid c).2 = Ok tt.
Proof using HE.
  intros Ha Hc (r & Hr & Hne & Hauth). pose proof (agree_users _ _ Ha uid) as Hu. rewrite Hr in Hu.
  destruct Hu as (u & Hf & Hw & _). unfold validateSignerForUser, pbind at 1, getUserWallet, ignore, pbind at 1.
  rewrite (ask_row_one _ c (u_wallet u)) by (rewrite ?Hf; done). rewrite Hw. unfold pret at 1.
  unfold pbind at 1, reject_when, check, invalid_if, guard_err. apply String.eqb_neq in Hne as ->.
  destruct (EqualFold (dbu_wallet r) (p_Signer p)) eqn:Heq; [done|].
  destruct Hauth as [Hsame|(Hs & g & Hg & Hrev & Hhow)]; [by apply EqualFold_spec in Hsame; congruence|].
  pose proof (agree_grants _ _ Ha (ToLower (p_Signer p)) uid) as Hgr. rewrite Hg in Hgr.
  destruct Hgr as (row & Hrow & Hrev' & Happ'). unfold pbind at 1, no_rows, getActiveGrant.
  rewrite (ask_row_one _ _ row) by done. simpl. unfold pbind at 1. rewrite Hrev', Hrev.
  unfold developerAppExists, activeUserWalletExists, pbind at 1. rewrite ask_reliable by done. unfold pbind at 1.
  rewrite ask_reliable by done. simpl. rewrite !ToLower_idem. unfold pbind.
  destruct Hhow as [Happ|[Hact Happr]].
  - apply (agree_apps _ _ Ha) in Happ as ->. done.
  - apply (agree_active _ _ _ Ha) in Hact as ->. rewrite Happ', Happr. simpl. rewrite andb_false_r, orb_true_r. done.
Qed.

(** C19 -- The indexer and the chain agree on who may sign: when the indexer's current rows
    are the chain's -- one current row per user and per grant, and an undeleted row
    exactly for a live app -- a named signer passes the indexer's check for a user exactly
    when it passes the chain's. *)
Theorem indexer_and_chain_agree_on_signers s p uid c :
  agree (em (c_db c)) s -> healthy s -> c_aborted c = false -> ToLower (p_Signer p) <> "" ->
  (validateSignerForUser p uid c).2 = Ok tt <-> validateAuthSigner s uid (p_Signer p) = Ok tt.
Proof using HE.
  intros Ha Hs Hc Hne. destruct (decides_signer s Hs uid (p_Signer p)) as [[Hauth Hok]|[Hauth [r Hr]]].
  - unfold check_signer, query in Hok. injection Hok as Hok. split; intros _; [done|by eapply agree_accepts].
  - unfold check_signer, query in Hr. injection Hr as Hr. split; [|congruence]. intros Hok. exfalso. apply Hauth.
    eapply agree_authorized; [done..|]. destruct (validateSignerForUser p uid c) as [c' v] eqn:Hv. simpl in Hok. subst v.
    by eapply validateSignerForUser_ok.
Qed.
End Verdicts.

(** ** Deleting a developer app *)

(** Two connections a signer check cannot tell apart. *)
Record sees (c1 c2 : conn) : Prop := {
  sees_aborted : c_aborted c1 = c_aborted c2;
  sees_clock : c_clock c1 = c_clock c2;
  sees_users : users (em (c_db c1)) = users (em (c_db c2));
  sees_grants : grants (em (c_db c1)) = grants (em (c_db c2));
  sees_apps a : existsb (undeleted_app a) (developer_apps (em (c_db c1))) =
                existsb (undeleted_app a) (developer_apps (em (c_db c2)))
}.

Definition respects {A} (m : proc conn etl_error A) : Prop :=
  forall c1 c2, sees c1 c2 -> sees (m c1).1 (m c2).1 /\ (m c1).2 = (m c2).2.

Section Respect.
Context {J : EtlLibs} {E : EtlSql}.

Lemma respects_bind {A B} (m : proc conn etl_error A) (k : A -> proc conn etl_error B) :
  respects m -> (forall a, respects (k a)) -> respects (pbind m k).
Proof.
  intros Hm Hk c1 c2 Hs. destruct (Hm c1 c2 Hs) as [Hs' Hr]. unfold pbind.
  destruct (m c1) as [c1' r1], (m c2) as [c2' r2]. simpl in *. subst r2. destruct r1; [by apply Hk|done].
Qed.

Lemma respects_pure {A} (r : res etl_error A) : respects (fun c => (c, r)).
Proof. by intros c1 c2 Hs. Qed.

Lemma respects_statement {A} (f : etl_db -> res etl_error A) :
  (forall c1 c2, sees c1 c2 -> f (c_db c1) = f (c_db c2)) -> respects (statement (fun d => (d, false, f d))).
Proof.
  intros Hf c1 c2 Hs. unfold statement. rewrite <- (sees_aborted _ _ Hs), <- (sees_clock _ _ Hs), (Hf c1 c2 Hs).
  destruct Hs. by repeat case_match; split.
Qed.

Lemma respects_ask {A} (f : etl_db -> A) :
  (forall c1 c2, sees c1 c2 -> f (c_db c1) = f (c_db c2)) -> respects (ask f).
Proof. intros Hf. apply respects_statement. intros c1 c2 Hs. by rewrite (Hf c1 c2). Qed.

Lemma respects_ask_row {A} (f : etl_db -> list A) :
  (forall c1 c2, sees c1 c2 -> f (c_db c1) = f (c_db c2)) -> respects (ask_row f).
Proof.
  intros Hf c1 c2 Hs. unfold ask_row. rewrite <- (sees_clock _ _ Hs). apply respects_statement; [|done].
  intros c3 c4 Hs'. by rewrite (Hf c3 c4).
Qed.

Lemma respects_ignore {A} (a : A) m : respects m -> respects (ignore a m).
Proof.
  intros Hm c1 c2 Hs. destruct (Hm c1 c2 Hs) as [Hs' Hr]. unfold ignore.
  destruct (m c1) as [c1' r1], (m c2) as [c2' r2]. simpl in *. subst r2. by destruct r1.
Qed.

Lemma respects_no_rows {A} msg (m : proc conn etl_error A) : respects m -> respects (no_rows msg m).
Proof.
  intros Hm c1 c2 Hs. destruct (Hm c1 c2 Hs) as [Hs' Hr]. unfold no_rows.
  destruct (m c1) as [c1' r1], (m c2) as [c2' r2]. simpl in *. subst r2. by destruct r1 as [|[]].
Qed.

Lemma respects_validateSignerForUser p uid : respects (validateSignerForUser p uid).
Proof.
  unfold validateSignerForUser, getUserWallet, getActiveGrant, developerAppExists, activeUserWalletExists.
  apply respects_bind.
  { apply respects_ignore, respects_bind; [apply respects_ask_row|intros [?|]; apply respects_pure].
    intros c1 c2 Hs. by rewrite (sees_users _ _ Hs). }
  intros w. apply respects_bind; [apply respects_pure|intros _]. case_match; [apply respects_pure|].
  apply respects_bind; [apply respects_no_rows, respects_ask_row; intros c1 c2 Hs; by rewrite (sees_grants _ _ Hs)|intros g].
  apply respects_bind; [apply respects_pure|intros _].
  apply respects_bind; [apply respects_ask; intros c1 c2 Hs; by rewrite (sees_apps _ _ Hs)|intros isApp].
  apply respects_bind; [apply respects_ask; intros c1 c2 Hs; by rewrite (sees_users _ _ Hs)|intros isUser].
  apply respects_bind; [apply respects_pure|intros _]. apply respects_pure.
Qed.

Lemma existsb_update_where {R} (q cond : R -> bool) f t :
  (forall x, q (f x) = q x) -> existsb q (update_where cond f t) = existsb q t.
Proof. intros Hf. induction t as [|x t IH]; simpl; [done|]. rewrite IH. by case_match; rewrite ?Hf. Qed.

Lemma exec_em_ok f c c' u :
  exec_em f c = (c', Ok u) -> exists d, f (em (c_db c)) = Some d /\ em (c_db c') = d /\ chain (c_db c') = chain (c_db c).
Proof.
  unfold exec_em, exec, statement. destruct (f (em (c_db c))) as [d|] eqn:Hf; simpl; repeat case_match; intros; simplify_eq/=; eauto.
Qed.

Lemma validate_app_owner_needs p :
  needs (fun d => existsb (undeleted_app (address p)) (developer_apps d) = true) (validate_app_owner p).
Proof.
  unfold validate_app_owner. apply needs_bind_r; [auto with etl|intros _]. apply needs_bind_r; [auto with etl|intros _].
  apply needs_ask. intros x. apply needs_reject_when. intros ->%negb_false_iff c2 c3 a _ [ch Hx].
  unfold address in *. by rewrite ToLower_idem in Hx.
Qed.

(** What an indexed deletion leaves: other tables untouched, and every address with an
    undeleted row still with one. *)
Lemma deleteDeveloperApp_ok p c c' :
  deleteDeveloperApp p c = (c', Ok tt) ->
  users (em (c_db c')) = users (em (c_db c)) /\ grants (em (c_db c')) = grants (em (c_db c)) /\
  forall a, existsb (undeleted_app a) (developer_apps (em (c_db c'))) = existsb (undeleted_app a) (developer_apps (em (c_db c))).
Proof.
  unfold deleteDeveloperApp. intros H. apply pbind_ok in H as (c2 & [] & Hd & H).
  apply exec_em_ok in Hd as (d2 & [= <-] & Hd2 & _). apply pbind_ok in H as (c3 & det & Hdet & H).
  assert (Hq3 : c_db c3 = c_db c2).
  { assert (Hq3 : quiet (getDeveloperAppDetails (address p))) by (unfold getDeveloperAppDetails; quiet_steps).
    specialize (Hq3 c2). by rewrite Hdet in Hq3. }
  apply exec_em_ok in H as (d4 & Hd4 & -> & _). rewrite Hq3, Hd2 in Hd4.
  unfold insert_key in Hd4. simplify_option_eq. split_and!; [done..|]. intros a.
  rewrite existsb_app. simpl. unfold undeleted_app at 2. simpl. rewrite !andb_false_r, !orb_false_r. by apply existsb_update_where.
Qed.

(** Deleting a developer app does not end its authority in the indexer: once the
    deletion is indexed, every signer check for every user gives the verdict it gave
    before, the app still counts as existing, so that its address cannot be registered
    again, and no state of the chain in which the app is deleted agrees with the indexer.
    The deletion adds a deleted row but leaves the old one undeleted, and the lookup does
    not ask for the current row. *)
Theorem deleted_app_keeps_authority p c c' :
  developerAppDelete p c = (c', Ok tt) ->
  (forall q uid n, (validateSignerForUser q uid (mkConn (c_db c') false n)).2 =
                   (validateSignerForUser q uid (mkConn (c_db c) false n)).2) /\
  existsb (undeleted_app (address p)) (developer_apps (em (c_db c'))) = true /\
  (forall s r, core_auth_developer_apps s !! address p = Some r -> AppDeleted r = true -> ~ agree (em (c_db c')) s).
Proof.
  intros H. unfold developerAppDelete in H. apply pbind_ok in H as (c1 & [] & Hv & H).
  pose proof (validate_app_owner_needs p c c1 tt Hv) as Hex.
  pose proof (quiet_validate_app_owner p c) as Hq. unfold validateDeveloperAppDelete in Hv. rewrite Hv in Hq. simpl in Hq.
  apply deleteDeveloperApp_ok in H as (Hu & Hg & Happs). rewrite Hq in *. split_and!.
  - intros q uid n. by apply respects_validateSignerForUser.
  - rewrite Happs. exact Hex.
  - intros s r Hr Hdel Ha. simpl in Hex. rewrite <- Happs in Hex. apply (agree_apps _ _ Ha) in Hex as (r' & Hr' & Hnd). congruence.
Qed.
End Respect.
