(* ===== verification/EtlIndexer.v ===== *)
(** * The indexer: blocks

    Models pkg/etl/indexer.go and pkg/etl/processors/{play.go, manage_entity.go,
    manage_entity_migration.go}: how a block of the chain becomes one database
    transaction, each of its transactions a savepoint of it. *)

From stdpp Require Import base gmap strings list.
From Stdlib Require Import ZArith Lia.
From S2P Require Import Prelude AuthState EtlBase EtlDb EtlAccounts EtlSocial EtlRegistry.

Open Scope string_scope.
Open Scope Z_scope.

(** ** Transactions of the chain *)

Record track_play := mkTrackPlay {
  tp_UserId : string;
  tp_TrackId : string;
  tp_City : string;
  tp_Region : string;
  tp_Country : string;
  tp_Timestamp : Z
}.

Record val_registration := mkValRegistration {
  reg_DelegateWallet : string;
  reg_Endpoint : string;
  reg_CometAddress : string;
  reg_EthBlock : Z;
  reg_NodeType : string;
  reg_SpId : string;
  reg_PubKey : string;
  reg_Power : Z
}.

(** The members of SignedTransaction; a proof's signature is nil or bytes. *)
Inductive etl_tx :=
| TxPlays (plays : list track_play)
| TxManageEntity (me : ManageEntityLegacy)
| TxManageEntityMigration (me : ManageEntityLegacy)
| TxValidatorRegistration
| TxValidatorDeregistration (cometAddress pubKey : string)
| TxSlaRollup (timestamp blockStart blockEnd : Z) (reports : list (string * Z))
| TxStorageProof (height : Z) (address : string) (provers : list string) (cid : string) (signature : option string)
| TxStorageProofVerification (height : Z) (proof : string)
| TxAttestation (registration : option val_registration) (deregistration : option (string * string))
| TxOther.

Record etl_block := mkEtlBlock {
  bk_Hash : string;
  bk_Height : Z;
  bk_Proposer : string;
  bk_Timestamp : Z;
  bk_Transactions : list (string * etl_tx)
}.

Definition TxTypePlay : string := "play".
Definition TxTypeManageEntity : string := "manage_entity".
Definition TxTypeValidatorRegistration : string := "validator_registration".
Definition TxTypeValidatorDeregistration : string := "validator_deregistration".
Definition TxTypeValidatorRegistrationLegacy : string := "validator_registration_legacy".
Definition TxTypeSlaRollup : string := "sla_rollup".
Definition TxTypeValidatorMisbehaviorDereg : string := "validator_misbehavior_deregistration".
Definition TxTypeStorageProof : string := "storage_proof".
Definition TxTypeStorageProofVerification : string := "storage_proof_verification".
Definition TxTypeManageEntityMigration : string := "manage_entity_migration".

(** blockResult without the elapsed time. *)
Record blockResult := mkBlockResult { emTxCount : Z; emRejectCount : Z; emUnroutedCount : Z }.

Definition count_tx (r : blockResult) : blockResult := mkBlockResult (emTxCount r + 1) (emRejectCount r) (emUnroutedCount r).
Definition count_reject (r : blockResult) : blockResult := mkBlockResult (emTxCount r) (emRejectCount r + 1) (emUnroutedCount r).
Definition count_unrouted (r : blockResult) : blockResult := mkBlockResult (emTxCount r) (emRejectCount r) (emUnroutedCount r + 1).

(** The value of an int32 expression. *)
Definition wrap32 (z : Z) : Z := (z + 2 ^ 31) mod 2 ^ 32 - 2 ^ 31.

(** The hooks run on the transaction a Plays transaction is written in. *)
Definition PlaysHook : Type := list track_play -> etl_block -> string -> proc conn etl_error unit.

Record Indexer := mkIndexer {
  ix_ChainID : string;
  ix_dispatcher : EtlSql -> Dispatcher conn;
  ix_migrationDispatcher : EtlSql -> Dispatcher conn;
  ix_playsHooks : EtlSql -> list PlaysHook
}.

(** What the database does during one attempt at a block: to the statements, and to
    BEGIN, to the SAVEPOINT of each transaction and to COMMIT. *)
Record attempt_env := mkAttemptEnv {
  at_sql : EtlSql;
  at_begin_ok : bool;
  at_savepoint_ok : nat -> bool;
  at_commit_ok : bool
}.

Section OneTx.
Context {J : EtlLibs} {E : EtlSql}.
Context (e : Indexer) (block : etl_block).
Implicit Types (c : conn).

(** ROLLBACK TO SAVEPOINT: the view and the state of the transaction at the savepoint. *)
Definition rollback_to (saved c : conn) : conn := mkConn (c_db saved) (c_aborted saved) (c_clock c).

(** ** Plays *)

Definition play_rows (txHash : string) (plays : list track_play) : list play_row :=
  (fun p => mkPlayRow (tp_UserId p) (tp_TrackId p) (tp_City p) (tp_Region p) (tp_Country p) (tp_Timestamp p)
              (bk_Height block) txHash (bk_Timestamp block)) <$> plays.

Definition set_tx (type : string) (addr : option string) (row : tx_row) : tx_row :=
  mkTxRow (tx_hash row) (tx_block_height row) (tx_index row) type addr (tx_created_at row).

Definition playProcess (row : tx_row) (plays : list track_play) : proc conn etl_error tx_row :=
  match plays with
  | [] => pret (set_tx TxTypePlay (tx_address row) row)
  | p0 :: _ =>
      exec_chain (fun d => Some (set_etl_plays (etl_plays d ++ play_rows (tx_hash row) plays)%list d)) ;;!
      pret (set_tx TxTypePlay (Some (tp_UserId p0)) row)
  end.

(** A hook that fails, or leaves its savepoint unusable, is undone. *)
Fixpoint firePlaysHooks (hooks : list PlaysHook) (plays : list track_play) (txHash : string) c : conn :=
  match hooks with
  | [] => c
  | hook :: hooks' =>
      let c' :=
        if c_aborted c then c
        else match hook plays block txHash c with
             | (c1, Ok _) => if c_aborted c1 then rollback_to c c1 else c1
             | (c1, Err _) => rollback_to c c1
             end in
      firePlaysHooks hooks' plays txHash c'
  end.

(** ** ManageEntity *)

Definition manageEntityProcess (type : string) (row : tx_row) (me : ManageEntityLegacy) : proc conn etl_error tx_row :=
  exec_chain (fun d => Some (set_etl_addresses (etl_addresses d ++ [(me_Signer me, bk_Height block, bk_Timestamp block)])%list d)) ;;!
  exec_chain (fun d => Some (set_etl_manage_entities (etl_manage_entities d ++
    [mkMeRow (me_EntityType me) (me_EntityId me) (me_Action me) (nullString (me_Metadata me)) (me_Signature me)
       (me_Signer me) (me_Nonce me) (bk_Height block) (tx_hash row) (bk_Timestamp block)])%list d)) ;;!
  pret (set_tx type (Some (me_Signer me)) row).

Definition parseMigrationTimestamp (v : option json) : option Z :=
  match v with
  | Some (JStr s) =>
      if String.eqb s "" then None
      else foldl (fun found layout => match found with Some t => Some t | None => time_parse layout s end) None
             ["2006-01-02T15:04:05.999999999Z07:00"; "2006-01-02T15:04:05Z07:00"; "2006-01-02 15:04:05.999999"; "2006-01-02 15:04:05"]
  | _ => None
  end.

Definition migrationBlockTime (metadata : string) (fallback : Z) : Z :=
  if String.eqb metadata "" then fallback
  else match etl_json_decode metadata ≫= unmarshal_map with
       | None => fallback
       | Some m =>
           let inner := match jlookup "data" m with
                        | Some (JObj inner) => parseMigrationTimestamp (jlookup "created_at" inner)
                        | _ => None
                        end in
           match inner with
           | Some ts => ts
           | None => default fallback (parseMigrationTimestamp (jlookup "created_at" m))
           end
       end.

(** ** Storage proofs *)

(** The provers whose proof could be marked as passed. *)
Fixpoint mark_passed (height : Z) (proof : string) (proofs : list proof_row) : proc conn etl_error (list string) :=
  match proofs with
  | [] => pret []
  | sp :: proofs' =>
      let! ok :=
        if negb (String.eqb (sp_address sp) "") && bool_decide (is_Some (sp_proof_signature sp)) then
          succeeds (exec_chain (fun d => Some (set_etl_storage_proofs
            (update_where (fun r => (sp_height r =? height) && String.eqb (sp_address r) (sp_address sp))
               (fun r => mkProofRow (sp_height r) (sp_address r) (sp_prover_addresses r) (sp_cid r) (sp_proof_signature r)
                  (Some proof) "pass" (sp_block_height r) (sp_tx_hash r) (sp_created_at r))
               (etl_storage_proofs d)) d)))
        else pret false in
      let! rest := mark_passed height proof proofs' in
      pret (if ok then sp_address sp :: rest else rest)
  end.

(** How often the proofs name a prover. *)
Definition votes (proofs : list proof_row) (prover : string) : Z :=
  Z.of_nat (length (List.filter (String.eqb prover) (mjoin (sp_prover_addresses <$> proofs)))).

(** The provers a majority expected, in some order. *)
Definition expected_provers (proofs : list proof_row) : list string :=
  List.filter (fun a => Z.quot (Z.of_nat (length proofs)) 2 <? votes proofs a)
    (remove_dups (mjoin (sp_prover_addresses <$> proofs))).

Definition processStorageProofConsensus (height : Z) (proof txHash : string) : proc conn etl_error unit :=
  let! proofs := ask (fun d => List.filter (fun r => sp_height r =? height) (etl_storage_proofs (chain d))) in
  match proofs with
  | [] => pret tt
  | _ =>
      let! passed := mark_passed height proof proofs in
      for_each (fun prover =>
        if bool_decide (prover ∈ passed) then pret tt
        else ignore tt (exec_chain (fun d => Some (set_etl_storage_proofs (etl_storage_proofs d ++
               [mkProofRow height prover [] "" None None "fail" (bk_Height block) txHash (bk_Timestamp block)])%list d))))
        (expected_provers proofs)
  end.

(** ** SLA rollups *)

(** Challenges received and failed, by address; no statistics on an error. *)
Definition calculateChallengeStatistics (blockStart blockEnd : Z) : proc conn etl_error (string -> Z * Z) :=
  ignore (fun _ => (0, 0)) (ask (fun d addr =>
    let rows := List.filter (fun r => (blockStart <=? sp_height r) && (sp_height r <=? blockEnd) &&
                                      String.eqb (sp_address r) addr) (etl_storage_proofs (chain d)) in
    (wrap32 (Z.of_nat (length rows)),
     wrap32 (Z.of_nat (length (List.filter (fun r => String.eqb (sp_status r) "fail") rows)))))).

(** The serial id of the next row. *)
Definition next_sla_id (d : chain_db) : Z := 1 + foldr Z.max 0 (sla_id <$> etl_sla_rollups d).

Definition process_sla (timestamp blockStart blockEnd : Z) (reports : list (string * Z)) (txHash : string) :
    proc conn etl_error unit :=
  let validatorCount := wrap32 (Z.of_nat (length reports)) in
  let blockRange := wrap64 (blockEnd - blockStart) in
  let blockQuota := if (blockStart <? blockEnd) && (0 <? validatorCount)
                    then Z.quot (wrap32 blockRange) validatorCount else 0 in
  (if 0 <? blockRange then
     for_each (fun _ => ignore tt (ask (fun _ => tt))) (seqZ blockStart (blockEnd - blockStart + 1)) ;;!
     ignore tt (ask (fun _ => tt))
   else pret tt) ;;!
  let! rollupId := statement (fun d =>
    let id := next_sla_id (chain d) in
    (on_chain (fun ch => set_etl_sla_rollups (etl_sla_rollups ch ++
       [mkSlaRow id blockStart blockEnd (bk_Height block) validatorCount blockQuota txHash timestamp])%list ch) d, false, Ok id)) in
  let! stats := calculateChallengeStatistics blockStart blockEnd in
  for_each (fun report : string * Z =>
    exec_chain (fun d => Some (set_etl_sla_node_reports (etl_sla_node_reports d ++
      [mkNodeReportRow rollupId report.1 report.2 (stats report.1).1 (stats report.1).2 (bk_Height block) txHash timestamp])%list d)))
    reports.

(** ** Validators *)

Definition insert_registration (vr : val_registration) (txHash : string) : proc conn etl_error unit :=
  exec_chain (fun d => Some (set_etl_validator_registrations (etl_validator_registrations d ++
    [mkVregRow (reg_DelegateWallet vr) (reg_Endpoint vr) (reg_CometAddress vr) (reg_EthBlock vr) (reg_NodeType vr)
       (reg_SpId vr) (reg_PubKey vr) (reg_Power vr) (bk_Height block) txHash])%list d)) ;;!
  exec_chain (fun d => Some (set_etl_validators (insert_ignore v_endpoint
    (mkValidatorRow (reg_DelegateWallet vr) (reg_Endpoint vr) (reg_CometAddress vr) (reg_NodeType vr) (reg_SpId vr)
       (reg_Power vr) "active" (bk_Height block) None (bk_Timestamp block) (bk_Timestamp block)) (etl_validators d)) d)).

Definition insert_deregistration (cometAddress pubKey txHash : string) : proc conn etl_error unit :=
  exec_chain (fun d => Some (set_etl_validator_deregistrations (etl_validator_deregistrations d ++
    [mkVderegRow cometAddress pubKey (bk_Height block) txHash])%list d)) ;;!
  exec_chain (fun d => Some (set_etl_validators (update_where (fun v => String.eqb (v_comet_address v) cometAddress)
    (fun v => mkValidatorRow (v_address v) (v_endpoint v) (v_comet_address v) (v_node_type v) (v_spid v) (v_voting_power v)
                "deregistered" (v_registered_at v) (Some (bk_Height block)) (v_created_at v) (bk_Timestamp block))
    (etl_validators d)) d)).

(** ** One transaction *)

(** Whether the savepoint is still there, the audit row and the counts. *)
Definition tx_outcome : Type := bool * tx_row * blockResult.

(** Fail, with the audit row as it stands, or go on. *)
Definition or_rollback {A} (row : tx_row) (res : blockResult) (m : proc conn etl_error A)
    (k : A -> conn -> conn * tx_outcome) c : conn * tx_outcome :=
  match m c with
  | (c', Err _) => (c', (false, row, res))
  | (c', Ok a) => k a c'
  end.

Definition dispatch_live (emBlock : Z) (row : tx_row) (me : ManageEntityLegacy) (res : blockResult) c : conn * tx_outcome :=
  let p := NewParams me emBlock (bk_Timestamp block) (bk_Hash block) (tx_hash row) in
  match Dispatch (ix_dispatcher e E) p c with
  | (c', Ok _) => (c', (true, row, res))
  | (c', Err ErrNoHandler) => (c', (true, row, count_unrouted res))
  | (c', Err err) => (c', (IsValidationError err, row, count_reject res))
  end.

Definition dispatch_migration (emBlock : Z) (row : tx_row) (me : ManageEntityLegacy) (res : blockResult) c : conn * tx_outcome :=
  let p := NewParams me emBlock (migrationBlockTime (me_Metadata me) (bk_Timestamp block)) (bk_Hash block) (tx_hash row) in
  match Dispatch (ix_migrationDispatcher e E) p c with
  | (c', Ok _) => (c', (true, row, res))
  | (c', Err ErrNoHandler) => (c', (true, row, count_reject res))
  | (c', Err err) => (c', (IsValidationError err, row, count_reject res))
  end.

Definition processOneTx (emBlock : Z) (row : tx_row) (t : etl_tx) (res : blockResult) : conn -> conn * tx_outcome :=
  let done row' := fun (_ : unit) c => (c, (true, row', res)) in
  match t with
  | TxPlays plays =>
      or_rollback row res (playProcess row plays)
        (fun row' c => (firePlaysHooks (ix_playsHooks e E) plays (tx_hash row) c, (true, row', res)))
  | TxManageEntity me =>
      or_rollback row (count_tx res) (manageEntityProcess TxTypeManageEntity row me)
        (fun row' => dispatch_live emBlock row' me (count_tx res))
  | TxManageEntityMigration me =>
      or_rollback row (count_tx res) (manageEntityProcess TxTypeManageEntityMigration row me)
        (fun row' => dispatch_migration emBlock row' me (count_tx res))
  | TxValidatorRegistration => done (set_tx TxTypeValidatorRegistrationLegacy (tx_address row) row) tt
  | TxValidatorDeregistration cometAddress pubKey =>
      let row := set_tx TxTypeValidatorMisbehaviorDereg (Some cometAddress) row in
      or_rollback row res (exec_chain (fun d => Some (set_etl_misbehavior_deregistrations
        (etl_misbehavior_deregistrations d ++ [mkVderegRow cometAddress pubKey (bk_Height block) (tx_hash row)])%list d))) (done row)
  | TxSlaRollup timestamp blockStart blockEnd reports =>
      let row := set_tx TxTypeSlaRollup (tx_address row) row in
      or_rollback row res (process_sla timestamp blockStart blockEnd reports (tx_hash row)) (done row)
  | TxStorageProof height address provers cid signature =>
      let row := set_tx TxTypeStorageProof (Some address) row in
      or_rollback row res (exec_chain (fun d => Some (set_etl_storage_proofs (etl_storage_proofs d ++
        [mkProofRow height address provers cid signature None "unresolved" (bk_Height block) (tx_hash row)
           (bk_Timestamp block)])%list d))) (done row)
  | TxStorageProofVerification height proof =>
      let row := set_tx TxTypeStorageProofVerification (tx_address row) row in
      or_rollback row res
        (exec_chain (fun d => Some (set_etl_storage_proof_verifications (etl_storage_proof_verifications d ++
           [mkVerificationRow height proof (bk_Height block) (tx_hash row) (bk_Timestamp block)])%list d)) ;;!
         processStorageProofConsensus height proof (tx_hash row)) (done row)
  | TxAttestation registration deregistration => fun c =>
      let row1 := match registration with
                  | Some vr => set_tx TxTypeValidatorRegistration (Some (reg_DelegateWallet vr)) row
                  | None => row
                  end in
      let row2 := match deregistration with
                  | Some vd => set_tx TxTypeValidatorDeregistration (Some vd.1) row1
                  | None => row1
                  end in
      or_rollback row1 res (match registration with Some vr => insert_registration vr (tx_hash row) | None => pret tt end)
        (fun _ => or_rollback row2 res
           (match deregistration with Some vd => insert_deregistration vd.1 vd.2 (tx_hash row) | None => pret tt end)
           (done row2)) c
  | TxOther => done row tt
  end.

Definition InsertTransaction (row : tx_row) : proc conn etl_error unit :=
  exec_chain (fun d => Some (set_etl_transactions (insert_ignore tx_hash row (etl_transactions d)) d)).

(** ** Block numbers *)

(** The row with the highest number. *)
Definition last_block (t : list block_row) : option block_row :=
  foldl (fun best b => match best with
                       | Some m => if b_number m <? b_number b then Some b else Some m
                       | None => Some b
                       end) None t.

(** ON CONFLICT DO NOTHING covers the hash and the number. *)
Definition insert_next_block (blockHash : string) (t : list block_row) : list block_row :=
  let prev := last_block t in
  let row := mkBlockRow blockHash (b_blockhash <$> prev) (default 0 (b_number <$> prev) + 1) in
  if existsb (fun b => String.eqb (b_blockhash b) blockHash || (b_number b =? b_number row)) t then t else (t ++ [row])%list.

Definition resolveBlockNumber (blockHash : string) : proc conn etl_error Z :=
  exec_chain (fun d => Some (set_blocks (insert_next_block blockHash (blocks d)) d)) ;;!
  ask_row (fun d => b_number <$> List.filter (fun b => String.eqb (b_blockhash b) blockHash) (blocks (chain d))).
End OneTx.

(** ** One block *)

(** errNeedSavepoints, or any other failure of the block. *)
Inductive block_error := ErrNeedSavepoints | ErrBlock.

Definition is_manage_entity (t : etl_tx) : bool :=
  match t with TxManageEntity _ | TxManageEntityMigration _ => true | _ => false end.

Definition migrationOnlyBlock (block : etl_block) : bool :=
  match bk_Transactions block with
  | [] => false
  | txs => forallb (fun t : string * etl_tx => match t.2 with TxManageEntityMigration _ => true | _ => false end) txs
  end.

Section Block.
Context {J : EtlLibs}.
Context (e : Indexer).

(** The loop over the transactions: a savepoint each, or none at all. *)
Fixpoint tx_loop (env : attempt_env) (block : etl_block) (useSavepoints : bool) (emBlock : Z) (index : nat)
    (txs : list (string * etl_tx)) (res : blockResult) (c : conn) : Prelude.res block_error (conn * blockResult) :=
  match txs with
  | [] => Ok (c, res)
  | (hash, t) :: txs' =>
      let row := mkTxRow hash (bk_Height block) (wrap32 (Z.of_nat index)) "" None (bk_Timestamp block) in
      let continue := tx_loop env block useSavepoints emBlock (S index) txs' in
      if useSavepoints && (c_aborted c || negb (at_savepoint_ok env index)) then Err ErrBlock
      else match processOneTx (E := at_sql env) e block emBlock row t res c with
           | (c1, (true, row', res')) =>
               match InsertTransaction (E := at_sql env) row' c1 with
               | (c2, Ok _) => continue res' c2
               | (c2, Err _) => if useSavepoints then continue res' (rollback_to c c2) else Err ErrNeedSavepoints
               end
           | (c1, (false, row', res')) =>
               if useSavepoints then continue res' (InsertTransaction (E := at_sql env) row' (rollback_to c c1)).1
               else Err ErrNeedSavepoints
           end
  end.

(** The writes before the loop: the block's row, its number and the height reached. *)
Definition open_block (block : etl_block) `{EtlSql} : proc conn etl_error Z :=
  exec_chain (fun d => Some (set_etl_blocks (etl_blocks d ++ [(bk_Proposer block, bk_Height block, bk_Timestamp block)])%list d)) ;;!
  let hasEM := existsb (fun t : string * etl_tx => is_manage_entity t.2) (bk_Transactions block) in
  let! emBlock := if hasEM then fun c => match resolveBlockNumber (bk_Hash block) c with
                                         | (c', Ok n) => (c', Ok n)
                                         | (c', Err _) => resolveBlockNumber (bk_Hash block) c'
                                         end
                  else pret 0 in
  exec_chain (fun d => Some (set_core_indexed_blocks
    (<[(ix_ChainID e, bk_Height block) := (bk_Hash block, if hasEM then Some emBlock else None)]> (core_indexed_blocks d)) d)) ;;!
  pret emBlock.

(** The database is the one the transaction leaves, or the old one on an error. *)
Definition processBlockAttempt (env : attempt_env) (block : etl_block) (useSavepoints : bool) (db : etl_db) :
    res block_error (etl_db * blockResult) :=
  if negb (at_begin_ok env) then Err ErrBlock
  else match open_block block (H := at_sql env) (mkConn db false 0) with
       | (_, Err _) => Err ErrBlock
       | (c, Ok emBlock) =>
           match tx_loop env block useSavepoints emBlock 0 (bk_Transactions block) (mkBlockResult 0 0 0) c with
           | Err err => Err err
           | Ok (c', res) => if c_aborted c' || negb (at_commit_ok env) then Err ErrBlock else Ok (c_db c', res)
           end
       end.

(** The first attempt and the second run at different times. *)
Definition processBlock (env1 env2 : attempt_env) (block : etl_block) (db : etl_db) : res block_error (etl_db * blockResult) :=
  if migrationOnlyBlock block then
    match processBlockAttempt env1 block false db with
    | Err ErrNeedSavepoints => processBlockAttempt env2 block true db
    | r => r
    end
  else processBlockAttempt env2 block true db.

(** ** The chain *)

(** GetLatestIndexedBlock. *)
Definition GetLatestIndexedBlock (db : etl_db) : option Z :=
  foldl (fun best (b : string * Z * Z) => Some (match best with Some m => Z.max m b.1.2 | None => b.1.2 end)) None
    (etl_blocks (chain db)).

(** MAX(height) of core_indexed_blocks for the chain. *)
Definition max_core_height (db : etl_db) : Z :=
  map_fold (fun (k : string * Z) _ best => if String.eqb k.1 (ix_ChainID e) then Z.max k.2 best else best) 0
    (core_indexed_blocks (chain db)).

(** The height indexing starts from; [startingBlockHeight] is 0 to resume. *)
Definition start_height (startingBlockHeight : Z) (db : etl_db) : Z :=
  if 0 <? startingBlockHeight then startingBlockHeight
  else match GetLatestIndexedBlock db with
       | Some h => h + 1
       | None => max_core_height db + 1
       end.

(** The loop over the blocks of the source; a block that fails is logged and passed over. *)
Fixpoint indexBlocks (endingBlockHeight : Z) (bs : list (etl_block * attempt_env * attempt_env)) (db : etl_db) : etl_db :=
  match bs with
  | [] => db
  | (block, env1, env2) :: bs' =>
      match processBlock env1 env2 block db with
      | Err _ => indexBlocks endingBlockHeight bs' db
      | Ok (db', _) =>
          if (0 <? endingBlockHeight) && (endingBlockHeight <=? bk_Height block) then db'
          else indexBlocks endingBlockHeight bs' db'
      end
  end.
End Block.
