(* ===== verification/EtlIndexerProps.v ===== *)
(** * The indexer: what a block does to the database

    The attempt without savepoints commits what the one with savepoints would; a block
    changes the entity tables by its accepted transactions alone; and a block that fails
    is passed over for good. *)

From stdpp Require Import base gmap strings list.
From Stdlib Require Import ZArith Lia.
From S2P Require Import Prelude AuthState EtlBase EtlDb EtlAccounts EtlSocial EtlRegistry EtlSteps EtlRejections EtlProps EtlIndexer.

Open Scope string_scope.
Open Scope Z_scope.

(** The indexer with the handlers of the enabled data types and no hooks. *)
Definition plain_indexer `{EtlLibs} (types : option (list string)) (chainID : string) : Indexer :=
  mkIndexer chainID (fun E => @live_dispatcher _ E types) (fun E => @migration_dispatcher _ E types) (fun _ => []).

Section Savepoints.
Context {J : EtlLibs} (e : Indexer).
Implicit Types (env : attempt_env) (block : etl_block) (c : conn).

Lemma exec_ok_alive {E : EtlSql} f c c' u : exec f c = (c', Ok u) -> c_aborted c' = false.
Proof. unfold exec, statement. repeat case_match; intros; by simplify_eq/=. Qed.

Lemma tx_loop_savepoints env block emBlock txs index r c out :
  (forall i, at_savepoint_ok env i = true) -> c_aborted c = false ->
  tx_loop e env block false emBlock index txs r c = Ok out ->
  tx_loop e env block true emBlock index txs r c = Ok out.
Proof.
  intros Hsp. revert index r c. induction txs as [|[hash t] txs IH]; intros index r c Hc; simpl; [done|].
  rewrite Hc, Hsp. simpl.
  destruct (processOneTx _ _ _ _ _ _ _) as [c1 [[[] row'] r']]; [|done].
  destruct (InsertTransaction row' c1) as [c2 [u|]] eqn:Hi; [|done]. apply IH. by eapply exec_ok_alive.
Qed.

Lemma open_block_alive {E : EtlSql} block c c' n : open_block e block c = (c', Ok n) -> c_aborted c' = false.
Proof.
  unfold open_block. intros H. apply pbind_ok in H as (c1 & [] & _ & H). apply pbind_ok in H as (c2 & m & _ & H).
  apply pbind_ok in H as (c3 & [] & Hx & H). injection H as <- _. by eapply exec_ok_alive.
Qed.

Lemma attempt_savepoints env block db out :
  (forall i, at_savepoint_ok env i = true) ->
  processBlockAttempt e env block false db = Ok out -> processBlockAttempt e env block true db = Ok out.
Proof.
  intros Hsp. unfold processBlockAttempt. destruct (at_begin_ok env); simpl; [|done].
  destruct (open_block _ _ _) as [c [n|]] eqn:Ho; [|done].
  destruct (tx_loop e env block false _ _ _ _ _) as [[c' r]|err] eqn:Hl; [|done].
  by rewrite (tx_loop_savepoints _ _ _ _ _ _ _ _ Hsp (open_block_alive _ _ _ _ Ho) Hl).
Qed.

(** C21 -- The fast path of a genesis replay is equivalent to the safe one: whatever
    processBlock commits for a block -- with or without a savepoint per transaction -- is,
    to the row and to the counts, what an attempt with a savepoint per transaction commits
    on the same database, as long as the database accepts the savepoints. *)
Theorem fast_path_commits_what_savepoints_would env1 env2 block db out :
  (forall i, at_savepoint_ok env1 i = true) ->
  processBlock e env1 env2 block db = Ok out ->
  processBlockAttempt e env1 block true db = Ok out \/ processBlockAttempt e env2 block true db = Ok out.
Proof.
  intros Hsp. unfold processBlock. destruct (migrationOnlyBlock block); [|auto].
  destruct (processBlockAttempt e env1 block false db) as [out'|[]] eqn:Ha; [|auto|done].
  intros [= <-]. left. by apply attempt_savepoints.
Qed.
End Savepoints.

(** ** The effect of a block *)

Section Effect.
Context {J : EtlLibs} (types : option (list string)).
Implicit Types (env : attempt_env) (block : etl_block) (c : conn).

(** The dispatcher and the parameters of a transaction that acts on entities. *)
Definition tx_dispatch (E : EtlSql) block (emBlock : Z) (hash : string) (t : etl_tx) : option (Dispatcher conn * Params) :=
  match t with
  | TxManageEntity me =>
      Some (live_dispatcher types, NewParams me emBlock (bk_Timestamp block) (bk_Hash block) hash)
  | TxManageEntityMigration me =>
      Some (migration_dispatcher types,
            NewParams me emBlock (migrationBlockTime (me_Metadata me) (bk_Timestamp block)) (bk_Hash block) hash)
  | _ => None
  end.

(** A dispatch whose writes are meant to last: it was accepted, or it was rejected by a
    handler that checks late. *)
Definition settles (p : Params) (r : res etl_error unit) : Prop :=
  r = Ok tt \/ (checked_late p = true /\ exists err, r = Err err /\ is_rejection err = true).

(** What the transactions of a block do to the entity tables, in order.  A transaction
    of another kind does nothing.  An entity transaction is dispatched on the tables its
    predecessors left; if that settles, its writes are taken.  It does nothing only when
    its dispatch does not settle or leaves the database transaction aborted, or when the
    database fails a statement. *)
Inductive accepted_steps (E : EtlSql) block (emBlock : Z) : list (string * etl_tx) -> em_db -> em_db -> Prop :=
| steps_nil d : accepted_steps E block emBlock [] d d
| steps_other hash t txs d d' :
    is_manage_entity t = false ->
    accepted_steps E block emBlock txs d d' -> accepted_steps E block emBlock ((hash, t) :: txs) d d'
| steps_take hash t txs disp p c c' r d' :
    tx_dispatch E block emBlock hash t = Some (disp, p) -> c_aborted c = false ->
    Dispatch disp p c = (c', r) -> settles p r -> c_aborted c' = false ->
    accepted_steps E block emBlock txs (em (c_db c')) d' ->
    accepted_steps E block emBlock ((hash, t) :: txs) (em (c_db c)) d'
| steps_refused hash t txs disp p c c' r d' :
    tx_dispatch E block emBlock hash t = Some (disp, p) -> c_aborted c = false ->
    Dispatch disp p c = (c', r) -> ~ settles p r \/ c_aborted c' = true ->
    accepted_steps E block emBlock txs (em (c_db c)) d' ->
    accepted_steps E block emBlock ((hash, t) :: txs) (em (c_db c)) d'
| steps_lost hash t txs d d' n :
    sql_fault (EtlSql := E) n <> None ->
    accepted_steps E block emBlock txs d d' -> accepted_steps E block emBlock ((hash, t) :: txs) d d'.

Lemma keeps_exec_chain {E : EtlSql} {B} (f : etl_db -> B) g :
  (forall d d', g (chain d) = Some d' -> f (mkEtlDb (em d) d') = f d) -> keeps f (exec_chain g).
Proof. intros Hg. apply keep_exec. intros d d' Hd. simplify_option_eq. auto. Qed.

(** The entity tables and the heights indexed: what the chain's own tables of a
    transaction do not touch. *)
Definition settled (d : etl_db) : em_db * list (string * Z * Z) := (em d, etl_blocks (chain d)).

Section Writes.
Context {E : EtlSql}.

Lemma keeps_statement {A B} (f : etl_db -> B) (run : etl_db -> etl_db * bool * res etl_error A) :
  (forall d, f (run d).1.1 = f d) -> keeps f (statement run).
Proof.
  intros Hr c. unfold statement. specialize (Hr (c_db c)). repeat case_match; by simplify_eq/=.
Qed.

Ltac settled_steps :=
  repeat first [ solve [apply keeps_quiet; quiet_steps] | apply keep_bind; [|intros ?] | apply keep_for_each; intros ?
               | apply keeps_ignore | apply keeps_exec_chain; intros ? ? ?; simplify_eq; done
               | apply keeps_statement; done | case_match ].

Lemma settled_playProcess block row plays : keeps settled (playProcess block row plays).
Proof. unfold playProcess. settled_steps. Qed.

Lemma settled_manageEntityProcess block type row me : keeps settled (manageEntityProcess block type row me).
Proof. unfold manageEntityProcess. settled_steps. Qed.

Lemma settled_mark_passed height proof proofs : keeps settled (mark_passed height proof proofs).
Proof.
  induction proofs as [|sp proofs IH]; simpl; [settled_steps|].
  apply keep_bind; [unfold succeeds; settled_steps|intros ok]. apply keep_bind; [done|intros rest]. settled_steps.
Qed.

Lemma settled_consensus block height proof txHash : keeps settled (processStorageProofConsensus block height proof txHash).
Proof.
  unfold processStorageProofConsensus. apply keep_bind; [settled_steps|intros [|sp proofs]]; [settled_steps|].
  apply keep_bind; [apply settled_mark_passed|intros passed]. settled_steps.
Qed.

Lemma settled_process_sla block ts bs be reports txHash : keeps settled (process_sla block ts bs be reports txHash).
Proof. unfold process_sla, calculateChallengeStatistics. settled_steps. Qed.

Lemma settled_registration block vr txHash : keeps settled (insert_registration block vr txHash).
Proof. unfold insert_registration. settled_steps. Qed.

Lemma settled_deregistration block a k txHash : keeps settled (insert_deregistration block a k txHash).
Proof. unfold insert_deregistration. settled_steps. Qed.

Lemma settled_InsertTransaction row : keeps settled (InsertTransaction row).
Proof. unfold InsertTransaction. settled_steps. Qed.

(** A step before the continuation of a transaction. *)
Lemma or_rollback_settled {A} row r (m : proc conn etl_error A) k c c1 o :
  keeps settled m -> or_rollback row r m k c = (c1, o) ->
  settled (c_db c1) = settled (c_db c) \/
  exists a c0, settled (c_db c0) = settled (c_db c) /\ k a c0 = (c1, o).
Proof.
  intros Hm. unfold or_rollback. specialize (Hm c). destruct (m c) as [c0 [a|err]]; simpl in Hm; [eauto|].
  intros [= <- <-]. auto.
Qed.
End Writes.

Section Plain.
Context (chainID : string) {E : EtlSql}.
Notation ix := (plain_indexer types chainID).

(** How a dispatch on the tables of [c] ended, and whether its savepoint was kept. *)
Definition dispatched (disp : Dispatcher conn) (p : Params) c c1 (kept : bool) : Prop :=
  exists c0 r, em (c_db c0) = em (c_db c) /\ c_aborted c0 = false /\ Dispatch disp p c0 = (c1, r) /\
    (kept = true /\ settles p r \/ ~ settles p r /\ (kept = true -> em (c_db c1) = em (c_db c))).

(** What one transaction leaves. *)
Definition tx_fate block (emBlock : Z) (hash : string) (t : etl_tx) c c1 (kept : bool) : Prop :=
  (is_manage_entity t = false /\ em (c_db c1) = em (c_db c)) \/
  (kept = false /\ exists n, sql_fault n <> None) \/
  exists disp p, tx_dispatch E block emBlock hash t = Some (disp, p) /\ dispatched disp p c c1 kept.

(** A statement on the chain's tables fails when the transaction is aborted or the
    database fails it. *)
Lemma exec_chain_err f c c' err :
  (forall d, is_Some (f d)) -> exec_chain f c = (c', Err err) ->
  c_aborted c = true \/ sql_fault (c_clock c) <> None.
Proof.
  intros Hf. unfold exec_chain, exec, statement. destruct (c_aborted c); [by left|].
  destruct (sql_fault (c_clock c)); [by right|]. destruct (Hf (chain (c_db c))) as [d ->]. done.
Qed.

Lemma manageEntityProcess_alive block type row me c c1 r :
  c_aborted c = false -> manageEntityProcess block type row me c = (c1, r) ->
  match r with Ok _ => c_aborted c1 = false | Err _ => exists n, sql_fault n <> None end.
Proof.
  intros Hc H. unfold manageEntityProcess, pbind in H.
  destruct (exec_chain _ c) as [c2 [[]|e]] eqn:H1.
  - apply exec_ok_alive in H1. destruct (exec_chain _ c2) as [c3 [[]|e]] eqn:H2; simplify_eq/=.
    + cbn in H. injection H as <- <-. by eapply exec_ok_alive.
    + apply exec_chain_err in H2 as [?|?]; [congruence|eauto|intros; by eexists].
  - simplify_eq. apply exec_chain_err in H1 as [?|?]; [congruence|eauto|intros; by eexists].
Qed.

(** What a dispatcher of the indexer guarantees. *)
Definition guarded (disp : Dispatcher conn) (p : Params) : Prop :=
  keeps chain (Dispatch disp p) /\ (checked_late p = false -> clean (Dispatch disp p)).

Lemma guarded_register_all hs p :
  Forall (fun h => plain_names h = true) hs -> (forall h, h ∈ hs -> h ∈ all_handlers) ->
  guarded (register_all hs NewDispatcher) p.
Proof. intros Hp Hall. split; [|by apply Dispatch_clean]. apply Dispatch_keeps; eauto using all_handlers_keep_chain. Qed.

Lemma guarded_live p : guarded (live_dispatcher types) p.
Proof. apply guarded_register_all; [apply live_handlers_plain|intros h; apply live_in_all]. Qed.

Lemma guarded_migration p : guarded (migration_dispatcher types) p.
Proof.
  rewrite migration_dispatcher_all. apply guarded_register_all; [apply migration_handlers_plain|intros h; apply migration_in_all].
Qed.

(** A dispatch that keeps its savepoint settles or wrote nothing. *)
Lemma dispatch_kept disp p c c1 r :
  guarded disp p -> Dispatch disp p c = (c1, r) ->
  chain (c_db c1) = chain (c_db c) /\
  (settles p r /\ (forall err, r = Err err -> is_rejection err = true) \/
   ~ settles p r /\ (exists err, r = Err err /\ (is_rejection err = true -> em (c_db c1) = em (c_db c)))).
Proof.
  intros [Hk Hc] Hd. specialize (Hk c). rewrite Hd in Hk. split; [done|].
  destruct r as [[]|err]; [left; split; [by left|done]|].
  destruct (is_rejection err) eqn:Hr.
  - destruct (checked_late p) eqn:Hl; [left; split; [right; eauto|intros ? [= <-]; done]|right].
    split; [intros [?|(? & _)]; congruence|]. exists err. split; [done|]. intros _. by rewrite (Hc eq_refl _ _ _ Hd Hr).
  - right. split; [intros [?|(_ & e & ? & ?)]; congruence|]. exists err. split; [done|congruence].
Qed.

Lemma settled_eq (d d' : etl_db) :
  settled d = settled d' -> em d = em d' /\ etl_blocks (chain d) = etl_blocks (chain d').
Proof. by intros [= -> ->]. Qed.

Lemma manageEntityProcess_row block type row me c c1 row' :
  manageEntityProcess block type row me c = (c1, Ok row') -> tx_hash row' = tx_hash row.
Proof.
  unfold manageEntityProcess. intros H. apply pbind_ok in H as (c2 & [] & _ & H).
  apply pbind_ok in H as (c3 & [] & _ & H). by injection H as _ <-.
Qed.

(** The two kinds of entity transactions: recorded, then dispatched. *)
Lemma entity_tx_effect block type row me r (k : tx_row -> conn -> conn * tx_outcome) disp p c c1 ok row' r' :
  or_rollback row r (manageEntityProcess block type row me) k c = (c1, (ok, row', r')) ->
  c_aborted c = false -> guarded disp p ->
  (forall row1 c0, tx_hash row1 = tx_hash row ->
     exists row2 r2, k row1 c0 =
       match Dispatch disp p c0 with
       | (c2, Ok _) => (c2, (true, row2, r2))
       | (c2, Err err) => (c2, (is_rejection err, row2, r2))
       end) ->
  etl_blocks (chain (c_db c1)) = etl_blocks (chain (c_db c)) /\
  ((ok = false /\ exists n, sql_fault n <> None) \/ dispatched disp p c c1 ok).
Proof.
  intros H Hc Hfacts Hk. unfold or_rollback in H. pose proof (settled_manageEntityProcess block type row me c) as Hs.
  destruct (manageEntityProcess block type row me c) as [c0 [row1|err]] eqn:Hm; simpl in Hs; apply settled_eq in Hs as [Hem Heb];
    pose proof (manageEntityProcess_alive _ _ _ _ _ _ _ Hc Hm) as Ha; cbn in Ha;
    [|injection H as <- <- _ _; auto].
  destruct (Hk row1 c0 (manageEntityProcess_row _ _ _ _ _ _ _ Hm)) as (row2 & r2 & Hk'). rewrite Hk' in H.
  destruct (Dispatch disp p c0) as [c2 rr] eqn:Hd. destruct (dispatch_kept _ _ _ _ _ Hfacts Hd) as [Hch Hr].
  assert (c1 = c2 /\ ok = match rr with Ok _ => true | Err err => is_rejection err end) as [-> ->].
  { destruct rr as [u|err]; by injection H as <- <- _ _. }
  rewrite Hch. split; [done|]. right. exists c0, rr. split_and!; try done.
  destruct Hr as [[Hset Hrej]|[Hn (err & -> & Hrej)]]; [left|right; split; [done|]].
  - split; [destruct rr; [done|by apply Hrej]|done].
  - intros He. rewrite Hrej by done. done.
Qed.

Lemma dispatch_live_shape block emBlock row me r c :
  exists row2 r2, dispatch_live ix block emBlock row me r c =
    match Dispatch (live_dispatcher types) (NewParams me emBlock (bk_Timestamp block) (bk_Hash block) (tx_hash row)) c with
    | (c2, Ok _) => (c2, (true, row2, r2))
    | (c2, Err err) => (c2, (is_rejection err, row2, r2))
    end.
Proof.
  unfold dispatch_live. change (ix_dispatcher ix E) with (@live_dispatcher J E types).
  destruct (Dispatch _ _ _) as [c2 [u|[]]]; eexists _, _; reflexivity.
Qed.

Lemma dispatch_migration_shape block emBlock row me r c :
  exists row2 r2, dispatch_migration ix block emBlock row me r c =
    match Dispatch (migration_dispatcher types) (NewParams me emBlock (migrationBlockTime (me_Metadata me) (bk_Timestamp block))
                                           (bk_Hash block) (tx_hash row)) c with
    | (c2, Ok _) => (c2, (true, row2, r2))
    | (c2, Err err) => (c2, (is_rejection err, row2, r2))
    end.
Proof.
  unfold dispatch_migration. change (ix_migrationDispatcher ix E) with (@migration_dispatcher J E types).
  destruct (Dispatch _ _ _) as [c2 [u|[]]]; eexists _, _; reflexivity.
Qed.

(** Every other kind leaves the entity tables and the indexed heights alone. *)
Lemma other_tx_settled block emBlock row t r c c1 o :
  is_manage_entity t = false -> processOneTx ix block emBlock row t r c = (c1, o) -> settled (c_db c1) = settled (c_db c).
Proof.
  intros Ht H. destruct t as [plays|me|me| |a k|ts bs be reports|h a ps cid sg|h pf|vr vd|]; try done; simpl in H.
  - apply or_rollback_settled in H as [?|(row' & c0 & Hs & [= <- _])]; [done|done|apply settled_playProcess].
  - by injection H as <- _.
  - apply or_rollback_settled in H as [?|([] & c0 & Hs & [= <- _])]; [done|done|]. by apply keeps_exec_chain; intros; simplify_eq.
  - apply or_rollback_settled in H as [?|([] & c0 & Hs & [= <- _])]; [done|done|apply settled_process_sla].
  - apply or_rollback_settled in H as [?|([] & c0 & Hs & [= <- _])]; [done|done|]. by apply keeps_exec_chain; intros; simplify_eq.
  - apply or_rollback_settled in H as [?|([] & c0 & Hs & [= <- _])]; [done|done|].
    apply keep_bind; [by apply keeps_exec_chain; intros; simplify_eq|intros _; apply settled_consensus].
  - apply or_rollback_settled in H as [?|([] & c0 & Hs & H)]; [done| |].
    + apply or_rollback_settled in H as [->|([] & c2 & Hs2 & [= <- _])]; [done|congruence|].
      destruct vd; [apply settled_deregistration|by apply keeps_quiet, quiet_ret].
    + destruct vr; [apply settled_registration|by apply keeps_quiet, quiet_ret].
  - by injection H as <- _.
Qed.

Lemma processOneTx_effect block emBlock row t r c c1 ok row' r' :
  c_aborted c = false -> processOneTx ix block emBlock row t r c = (c1, (ok, row', r')) ->
  etl_blocks (chain (c_db c1)) = etl_blocks (chain (c_db c)) /\ tx_fate block emBlock (tx_hash row) t c c1 ok.
Proof.
  intros Hc H. destruct (is_manage_entity t) eqn:Ht.
  2: { apply other_tx_settled in H; [|done]. apply settled_eq in H as [Hem Heb]. split; [done|]. by left. }
  destruct t as [|me|me| | | | | | |]; try done; unfold processOneTx in H.
  - eapply (entity_tx_effect _ _ _ _ _ _ (live_dispatcher types)
              (NewParams me emBlock (bk_Timestamp block) (bk_Hash block) (tx_hash row))) in H as [Heb Hem].
    + split; [done|]. right. destruct Hem as [?|?]; [by left|right]. by eexists _, _.
    + done.
    + apply guarded_live.
    + intros row1 c0 Hh. rewrite <- Hh. apply dispatch_live_shape.
  - eapply (entity_tx_effect _ _ _ _ _ _ (migration_dispatcher types)
              (NewParams me emBlock (migrationBlockTime (me_Metadata me) (bk_Timestamp block)) (bk_Hash block) (tx_hash row)))
      in H as [Heb Hem].
    + split; [done|]. right. destruct Hem as [?|?]; [by left|right]. by eexists _, _.
    + done.
    + apply guarded_migration.
    + intros row1 c0 Hh. rewrite <- Hh. apply dispatch_migration_shape.
Qed.
End Plain.

Section Blocks.
Context (chainID : string).
Notation ix := (plain_indexer types chainID).

Lemma InsertTransaction_settled {E : EtlSql} row c : settled (c_db (InsertTransaction row c).1) = settled (c_db c).
Proof. apply settled_InsertTransaction. Qed.

(** The step of one transaction, kept or rolled back, before the steps of the rest. *)
Lemma kept_step {E : EtlSql} block emBlock hash t txs c c1 d' :
  tx_fate block emBlock hash t c c1 true -> c_aborted c1 = false ->
  accepted_steps E block emBlock txs (em (c_db c1)) d' -> accepted_steps E block emBlock ((hash, t) :: txs) (em (c_db c)) d'.
Proof.
  intros [[Ht Hem]|[[? _]|(disp & p & Ht & c0 & r & Hem & Ha & Hd & Hr)]] Hc1 Hs; [|done|].
  - rewrite Hem in Hs. by constructor.
  - rewrite <- Hem. destruct Hr as [[_ Hr]|[Hr Hk]]; [by eapply steps_take|].
    eapply steps_refused; [done|done|done|by left|]. by rewrite Hem, <- Hk.
Qed.

Lemma dropped_step {E : EtlSql} block emBlock hash t txs c c1 ok d' :
  tx_fate block emBlock hash t c c1 ok -> (ok = true -> c_aborted c1 = true \/ exists n, sql_fault n <> None) ->
  accepted_steps E block emBlock txs (em (c_db c)) d' -> accepted_steps E block emBlock ((hash, t) :: txs) (em (c_db c)) d'.
Proof.
  intros Hf Hwhy Hs. destruct Hf as [[Ht Hem]|[[_ [n Hn]]|(disp & p & Ht & c0 & r & Hem & Ha & Hd & Hr)]];
    [by constructor|by eapply steps_lost|].
  destruct ok; [destruct (Hwhy eq_refl) as [Hb|[n Hn]]; [|by eapply steps_lost]|].
  - rewrite <- Hem in Hs |- *. eapply steps_refused; [done|done|done|by right|done].
  - rewrite <- Hem in Hs |- *. destruct Hr as [[? _]|[Hr _]]; [done|]. eapply steps_refused; [done|done|done|by left|done].
Qed.

Lemma tx_loop_effect env block emBlock txs index r c c' r' :
  tx_loop ix env block true emBlock index txs r c = Ok (c', r') ->
  etl_blocks (chain (c_db c')) = etl_blocks (chain (c_db c)) /\
  accepted_steps (at_sql env) block emBlock txs (em (c_db c)) (em (c_db c')).
Proof.
  revert index r c. induction txs as [|[hash t] txs IH]; intros index r c.
  { intros [= <- <-]. split; [done|constructor]. }
  cbn [tx_loop]. case_match eqn:Hab; [done|]. apply andb_false_iff in Hab as [?|[Hab _]%orb_false_iff]; [done|].
  set (row := mkTxRow _ _ _ _ _ _).
  destruct (processOneTx ix block emBlock row t r c) as [c1 [[ok row'] r1]] eqn:Hp.
  apply processOneTx_effect in Hp as [Heb Hfate]; [|done]. change (tx_hash row) with hash in Hfate.
  destruct ok; intros Hl.
  - pose proof (InsertTransaction_settled (E := at_sql env) row' c1) as Hs.
    destruct (InsertTransaction row' c1) as [c2 [u|err]] eqn:Hi; simpl in Hs; apply settled_eq in Hs as [Hem2 Heb2];
      apply IH in Hl as [Heb3 Hsteps].
    + split; [congruence|]. rewrite Hem2 in Hsteps. eapply kept_step; [exact Hfate| |exact Hsteps].
      unfold InsertTransaction, exec_chain, exec, statement in Hi. by destruct (c_aborted c1).
    + split; [done|]. eapply dropped_step; [exact Hfate| |exact Hsteps]. intros _.
      apply exec_chain_err in Hi as [?|?]; [by left|right; eauto|intros; by eexists].
  - apply IH in Hl as [Heb3 Hsteps].
    pose proof (InsertTransaction_settled (E := at_sql env) row' (rollback_to c c1)) as Hs. apply settled_eq in Hs as [Hem2 Heb2].
    rewrite Heb2 in Heb3. rewrite Hem2 in Hsteps. split; [done|]. by eapply dropped_step; [exact Hfate|done|].
Qed.

Lemma exec_chain_ok {E : EtlSql} f c c' u :
  exec_chain f c = (c', Ok u) -> exists d, f (chain (c_db c)) = Some d /\ c_db c' = mkEtlDb (em (c_db c)) d.
Proof.
  unfold exec_chain, exec, statement. destruct (f (chain (c_db c))) as [d|] eqn:Hf; simpl; repeat case_match;
    intros; simplify_eq/=; eauto.
Qed.

Lemma open_block_effect {E : EtlSql} block c c' n :
  open_block ix block c = (c', Ok n) ->
  em (c_db c') = em (c_db c) /\
  etl_blocks (chain (c_db c')) = (etl_blocks (chain (c_db c)) ++ [(bk_Proposer block, bk_Height block, bk_Timestamp block)])%list.
Proof.
  unfold open_block. intros H. apply pbind_ok in H as (c1 & [] & H1 & H). apply pbind_ok in H as (c2 & m & H2 & H).
  apply pbind_ok in H as (c3 & [] & H3 & H). injection H as <- _.
  assert (Hn : settled (c_db c2) = settled (c_db c1)).
  { assert (Hr : forall c, settled (c_db (resolveBlockNumber (bk_Hash block) c).1) = settled (c_db c)).
    { apply keep_bind; [by apply keeps_exec_chain; intros; simplify_eq|intros _; by apply keeps_quiet, quiet_ask_row]. }
    revert H2. case_match; [|by intros [= <- _]].
    pose proof (Hr c1) as Hr1. destruct (resolveBlockNumber _ c1) as [c4 [n4|err]]; simpl in Hr1; [by intros [= <- _]|].
    intros H2. pose proof (Hr c4) as Hr4. rewrite H2 in Hr4. simpl in Hr4. congruence. }
  assert (H3' : settled (c_db c3) = settled (c_db c2)).
  { apply exec_chain_ok in H3 as (d & [= <-] & ->). done. }
  rewrite Hn in H3'. apply settled_eq in H3' as [-> ->].
  apply exec_chain_ok in H1 as (d & [= <-] & ->). done.
Qed.

Lemma attempt_effect env block db db' r :
  processBlockAttempt ix env block true db = Ok (db', r) ->
  (exists emBlock, accepted_steps (at_sql env) block emBlock (bk_Transactions block) (em db) (em db')) /\
  etl_blocks (chain db') = (etl_blocks (chain db) ++ [(bk_Proposer block, bk_Height block, bk_Timestamp block)])%list.
Proof.
  unfold processBlockAttempt. destruct (at_begin_ok env); simpl; [|done].
  destruct (open_block _ _ _) as [c [n|]] eqn:Ho; [|done]. apply open_block_effect in Ho as [Hem Heb]. simpl in Hem, Heb.
  destruct (tx_loop _ _ _ _ _ _ _ _ _) as [[c' r']|] eqn:Hl; [|done]. case_match; [done|]. intros [= <- <-].
  apply tx_loop_effect in Hl as [Heb' Hsteps]. rewrite Hem in Hsteps. split; [eauto|congruence].
Qed.

(** C5 -- An indexed block changes the entity tables exactly as its accepted ManageEntity
    transactions do, one after the other, for an indexer without hooks of an embedding
    program and with a database that accepts the savepoints of the first attempt.  Each
    entity transaction is dispatched on the tables its predecessors left.  If its handler
    accepts it, its writes are taken; if the handler rejects it, nobody handles it or it
    fails part way, it leaves no trace in these tables, and neither does any transaction of
    another kind.  An accepted transaction is left out only when the database fails a
    statement or its own statements leave the database transaction aborted.  The one
    exception are rejections by the handlers that check late ([checked_late]), whose writes
    stay. *)
Theorem block_is_its_accepted_transactions env1 env2 block db db' r :
  (forall i, at_savepoint_ok env1 i = true) ->
  processBlock ix env1 env2 block db = Ok (db', r) ->
  exists env emBlock, (env = env1 \/ env = env2) /\
    accepted_steps (at_sql env) block emBlock (bk_Transactions block) (em db) (em db').
Proof.
  intros Hsp H. unfold processBlock in H. destruct (migrationOnlyBlock block).
  - destruct (processBlockAttempt ix env1 block false db) as [out|[]] eqn:Ha;
      [|apply attempt_effect in H as [[n ?] _]; eauto 6|done].
    injection H as ->. apply (attempt_savepoints ix env1) in Ha; [|done]. apply attempt_effect in Ha as [[n ?] _]. eauto 6.
  - apply attempt_effect in H as [[n ?] _]. eauto 6.
Qed.

Lemma latest_ge t best :
  let m := foldl (fun best (b : string * Z * Z) => Some (match best with Some m => Z.max m b.1.2 | None => b.1.2 end)) best t in
  (forall b, best = Some b -> exists z, m = Some z /\ b <= z) /\ (forall b, b ∈ t -> exists z, m = Some z /\ b.1.2 <= z).
Proof.
  revert best. induction t as [|x t IH]; intros best; simpl; [split; [eauto using Z.le_refl|intros ? []%elem_of_nil]|].
  destruct (IH (Some (match best with Some m => Z.max m x.1.2 | None => x.1.2 end))) as [H1 H2].
  destruct (H1 _ eq_refl) as (z & Hz & Hle). split.
  - intros b ->. exists z. split; [done|lia].
  - intros b [->|Hb]%elem_of_cons; [|eauto]. exists z. split; [done|]. destruct best; lia.
Qed.

Lemma block_rows env1 env2 block db db' r :
  (forall i, at_savepoint_ok env1 i = true) -> processBlock ix env1 env2 block db = Ok (db', r) ->
  etl_blocks (chain db') = (etl_blocks (chain db) ++ [(bk_Proposer block, bk_Height block, bk_Timestamp block)])%list.
Proof.
  intros Hsp H. unfold processBlock in H. destruct (migrationOnlyBlock block); [|by apply attempt_effect in H as [_ ?]].
  destruct (processBlockAttempt ix env1 block false db) as [out|[]] eqn:Ha; [|by apply attempt_effect in H as [_ ?]|done].
  injection H as ->. apply (attempt_savepoints ix env1) in Ha; [|done]. by apply attempt_effect in Ha as [_ ?].
Qed.

(** A block that fails is passed over for good: when a block cannot be indexed -- a
    database that is briefly unavailable is enough -- and the next one can, the loop goes
    on, no row records the failed height, and a restart resumes above it, so the block's
    transactions are never indexed unless an operator asks for that height. *)
Theorem failed_block_is_passed_over b b' e1 e2 e1' e2' db db1 err r :
  processBlock ix e1 e2 b db = Err err ->
  processBlock ix e1' e2' b' db = Ok (db1, r) ->
  (forall i, at_savepoint_ok e1' i = true) -> bk_Height b < bk_Height b' ->
  indexBlocks ix 0 [(b, e1, e2); (b', e1', e2')] db = db1 /\
  (forall row, row ∈ etl_blocks (chain db1) -> row.1.2 = bk_Height b -> row ∈ etl_blocks (chain db)) /\
  bk_Height b < start_height ix 0 db1.
Proof.
  intros Hb Hb' Hsp Hlt. pose proof (block_rows _ _ _ _ _ _ Hsp Hb') as Hrows. split_and!.
  - cbn [indexBlocks]. by rewrite Hb, Hb'.
  - intros row. rewrite Hrows, elem_of_app, list_elem_of_singleton. intros [?| ->]; [done|]. simpl. lia.
  - unfold start_height, GetLatestIndexedBlock.
    destruct (latest_ge (etl_blocks (chain db1)) None) as [_ H].
    destruct (H (bk_Proposer b', bk_Height b', bk_Timestamp b')) as (z & Hz & Hle); [rewrite Hrows; set_solver|].
    simpl in Hle. simpl in Hz. rewrite Hz. simpl. lia.
Qed.
End Blocks.
End Effect.
