(* ===== verification/EtlExamples.v ===== *)
(** * The indexer on a small database

    One account, its developer app and transactions over them: the theorems of EtlProps
    and EtlSigners at concrete inputs, and a run in which a renewed grant is shadowed by
    the revoked one. *)

From stdpp Require Import base gmap strings list.
From Stdlib Require Import ZArith Lia.
From S2P Require Import Prelude Upgrades Crypto AuthState AuthStores AuthSpec EtlBase EtlDb EtlAccounts EtlSocial EtlRegistry EtlSteps EtlRejections EtlProps EtlSigners EtlIndexer.
From S2P Require Import EtlIndexerProps.

Open Scope string_scope.
Open Scope Z_scope.

Module EtlEx.
#[export] Instance ex_json : EtlLibs :=
  {| etl_cpu := Amd64; etl_json_decode := fun _ => None; json_marshal := fun _ => "{}"; time_parse := fun _ _ => None;
     pg_timestamp := fun _ => None; jsonb_text := fun _ => "{}"; hashids_Decode := fun _ => None; etl_crypto := Toy.crypto;
     accounts_TextHash := fun m => m; ed25519_Verify := fun _ _ _ => false |}.

(** A database that never fails and answers LIMIT 1 with its n-th row. *)
Definition ex_sql (n : nat) : EtlSql := {| sql_fault := fun _ => None; sql_choose := fun _ => n; play_count_cache := None |}.
#[export] Instance ex_sql0 : EtlSql := ex_sql 0.

Definition ex_user (id : Z) (wallet handle : string) : user_row :=
  mkUserRow id (Some handle) (Some handle) (Some wallet) ∅ None None false None true false false true
    false false false 10 10 "tx" "bh" 1.
Definition ex_app : app_row := mkAppRow "0xapp" 1 "app" None None false true false 10 10 "tx" 1.

Definition ex_track (id owner : Z) : track_row :=
  mkTrackRow id owner true false (Some "Song") ∅ ∅ ∅ ∅ 0 None None None None None [] ∅ None 10 10 "tx" 1.
Definition ex_playlist (id owner : Z) : playlist_row :=
  mkPlaylistRow id owner true false ∅ ∅ ∅ (JObj []) None None 10 10 "tx" 1.

Definition ex_em : em_db :=
  mkEmDb [ex_user 1 "0xa" "alice"; ex_user 2 "0xb" "bob"] [] [ex_app] [] [] [] [] [] [] [] [] [] []
    (mkTalkDb [] [] [] [] [] []) (mkDeskDb [] [] [] [] [] [] [] [] None) (mkShelfDb [] [] [] [] [] [] [] []).
Definition ex_chain : chain_db := mkChainDb [] [] [] ∅ [] [] [] [] [] [] [] [] [] [] [].
Definition ex_db : etl_db := mkEtlDb ex_em ex_chain.
Definition ex_conn : conn := mkConn ex_db false 0.

Definition ex_params (uid id : Z) (type action signer : string) (md : list (string * json)) (txhash : string) : Params :=
  mkParams uid id type action signer (Some md) "" 5 50 "bh" txhash.

Definition follow_self : Params := ex_params 1 1 "User" "Follow" "0xA" [] "t1".
Definition follow_bob : Params := ex_params 1 2 "User" "Follow" "0xA" [] "t1".
Definition create_carol : Params :=
  ex_params 3000001 0 "User" "Create" "0xC" [("handle", JStr "Carol")] "t1".
Definition delete_app : Params := ex_params 1 0 "DeveloperApp" "Delete" "0xA" [("address", JStr "0xAPP")] "t1".
Definition grant_app (action txhash : string) : Params :=
  ex_params 1 0 "Grant" action "0xA" [("grantee_address", JStr "0xAPP")] txhash.
Definition by_app : Params := ex_params 1 2 "User" "Follow" "0xApp" [] "t9".
End EtlEx.
Import EtlEx.

Lemma rejected_txs_write_nothing_witness :
  (Dispatch (live_dispatcher None) follow_self ex_conn).2 = Err (EtlValidation "user cannot follow themselves") /\
  c_db (Dispatch (live_dispatcher None) follow_self ex_conn).1 = c_db ex_conn.
Proof.
  split; [vm_compute; reflexivity|].
  refine (@rejected_txs_write_nothing _ ex_sql0 None follow_self ex_conn (Dispatch (live_dispatcher None) follow_self ex_conn).1
           (EtlValidation "user cannot follow themselves") (or_introl _) (or_introl eq_refl) eq_refl). vm_compute. reflexivity.
Defined.

Lemma accepted_txs_are_authorized_witness :
  (Dispatch (live_dispatcher None) follow_bob ex_conn).2 = Ok tt /\ may_act follow_bob ex_em.
Proof.
  split; [vm_compute; reflexivity|].
  refine (@accepted_txs_are_authorized _ ex_sql0 None follow_bob ex_conn (Dispatch (live_dispatcher None) follow_bob ex_conn).1 _).
  vm_compute. reflexivity.
Defined.

(** The row that transaction writes into a database without accounts. *)
Definition carol : user_row :=
  mkUserRow 3000001 (Some "Carol") (Some "carol") (Some "0xc") ∅ None None false None true false false true
    false false false 50 50 "t1" "bh" 5.
Definition no_accounts : etl_db := mkEtlDb (set_users [] ex_em) ex_chain.
Definition carol_db : etl_db := mkEtlDb (set_users [carol] ex_em) ex_chain.

Lemma carol_reachable : live_reachable carol_db.
Proof.
  apply (live_other (c_db (Dispatch (live_dispatcher None) create_carol (mkConn no_accounts false 0)).1)).
  - apply live_tx, live_start. reflexivity.
  - vm_compute. reflexivity.
Qed.

Lemma wallets_and_handles_name_one_account_witness :
  live_reachable carol_db /\
  (forall w, u_wallet carol = Some w -> u_wallet carol = Some w -> u_user_id carol = u_user_id carol).
Proof.
  split; [exact carol_reachable|].
  assert (Hin : carol ∈ users (em carol_db)) by (apply list_elem_of_singleton; reflexivity).
  exact (proj1 (wallets_and_handles_name_one_account carol_db carol carol carol_reachable Hin Hin)).
Defined.

Lemma deleted_app_keeps_authority_witness :
  (developerAppDelete delete_app ex_conn).2 = Ok tt /\
  existsb (undeleted_app "0xapp") (developer_apps (em (c_db (developerAppDelete delete_app ex_conn).1))) = true.
Proof.
  split; [vm_compute; reflexivity|].
  refine (proj1 (proj2 (@deleted_app_keeps_authority ex_sql0 delete_app ex_conn
                          (developerAppDelete delete_app ex_conn).1 _))).
  vm_compute. reflexivity.
Defined.

(** The chain's tables for the same account and app. *)
Definition ex_core : dbAuthStore :=
  mkDbAuthStore (<[1 := mkDbUser "0xa" (Some "alice") false]> {[2 := mkDbUser "0xb" (Some "bob") false]}) ∅
    {["0xapp" := mkAuthAppRow 1 false]} ∅ ∅ (fun _ => false).

Lemma ex_agree : agree ex_em ex_core.
Proof.
  split.
  - intros uid. unfold current_user. cbn -[Z.eqb lookup]. rewrite !andb_true_r.
    destruct (decide (uid = 1)) as [->|H1]; [rewrite lookup_insert_eq; simpl; eauto|].
    rewrite lookup_insert_ne by done. destruct (decide (uid = 2)) as [->|H2]; [rewrite lookup_singleton_eq; simpl; eauto|].
    rewrite lookup_singleton_ne by done.
    destruct (Z.eqb_spec 1 uid); [congruence|]. destruct (Z.eqb_spec 2 uid); [congruence|]. done.
  - intros a uid. simpl. by rewrite lookup_empty.
  - intros a. unfold undeleted_app, live_app. cbn -[String.eqb lookup]. rewrite andb_true_r, orb_false_r, String.eqb_eq. split.
    + intros <-. rewrite lookup_singleton_eq. eauto.
    + intros (r & Hr & _). by apply lookup_singleton_Some in Hr as [? _].
Qed.

Lemma indexer_and_chain_agree_on_signers_witness :
  (validateSignerForUser follow_bob 1 ex_conn).2 = Ok tt <-> validateAuthSigner ex_core 1 "0xA" = Ok tt.
Proof.
  refine (indexer_and_chain_agree_on_signers (fun _ => eq_refl) ex_core follow_bob 1 ex_conn ex_agree _ _ _);
    [by intros ?|reflexivity|discriminate].
Defined.

(** A grant that is revoked and given again may stay revoked: the user grants an app,
    revokes the grant and grants it again, and every transaction is accepted, but the
    second grant does not retire the revoked row.  Both rows are current, the signer
    check takes either one, and depending on it the app's next transaction is refused as
    revoked or accepted -- so two indexers of the same chain can differ. *)
Theorem renewed_grant_is_shadowed :
  let step p d := c_db (Dispatch (live_dispatcher None) p (mkConn d false 0)).1 in
  let ok p d := (Dispatch (live_dispatcher None) p (mkConn d false 0)).2 = Ok tt in
  let d1 := step (grant_app "Create" "t1") ex_db in
  let d2 := step (grant_app "Delete" "t2") d1 in
  let d3 := step (grant_app "Create" "t3") d2 in
  ok (grant_app "Create" "t1") ex_db /\ ok (grant_app "Delete" "t2") d1 /\ ok (grant_app "Create" "t3") d2 /\
  length (List.filter (current_grant "0xapp" 1) (grants (em d3))) = 2%nat /\
  (Dispatch (@live_dispatcher _ (ex_sql 0) None) by_app (mkConn d3 false 0)).2 =
    Err (EtlValidation "signer grant for user is revoked") /\
  (Dispatch (@live_dispatcher _ (ex_sql 1) None) by_app (mkConn d3 false 0)).2 = Ok tt.
Proof. vm_compute. split_and!; reflexivity. Qed.

(** ** Blocks *)


(** A healthy database, and one that refuses to commit. *)
Definition ok_env : attempt_env := mkAttemptEnv ex_sql0 true (fun _ => true) true.
Definition no_commit : attempt_env := mkAttemptEnv ex_sql0 true (fun _ => true) false.

Definition me_tx (uid id : Z) (type action signer : string) : ManageEntityLegacy :=
  mkManageEntityLegacy uid type id action "" "sig" "n" signer.

(** A replayed account, and a follow beside a transaction nobody handles. *)
Definition replay_block : etl_block :=
  mkEtlBlock "h1" 7 "p" 70 [("m1", TxManageEntityMigration (me_tx 9 0 "User" "Create" "0xD"))].
Definition live_block : etl_block :=
  mkEtlBlock "h2" 8 "p" 80 [("m2", TxManageEntity (me_tx 1 2 "User" "Follow" "0xA"));
                            ("m3", TxManageEntity (me_tx 1 2 "Tip" "Create" "0xA"))].

Definition replayed : res block_error (etl_db * blockResult) :=
  Eval vm_compute in processBlock (plain_indexer None "c") ok_env ok_env replay_block ex_db.
Definition indexed : res block_error (etl_db * blockResult) :=
  Eval vm_compute in processBlock (plain_indexer None "c") ok_env ok_env live_block ex_db.

Definition committed (r : res block_error (etl_db * blockResult)) : etl_db * blockResult :=
  match r with Ok out => out | Err _ => (ex_db, mkBlockResult 0 0 0) end.

Lemma fast_path_commits_what_savepoints_would_witness :
  emTxCount (committed replayed).2 = 1 /\
  (processBlockAttempt (plain_indexer None "c") ok_env replay_block true ex_db = Ok (committed replayed) \/
   processBlockAttempt (plain_indexer None "c") ok_env replay_block true ex_db = Ok (committed replayed)).
Proof.
  split; [reflexivity|].
  refine (fast_path_commits_what_savepoints_would (plain_indexer None "c") ok_env ok_env replay_block ex_db (committed replayed)
            (fun _ => eq_refl) _). vm_compute. reflexivity.
Defined.

Lemma block_is_its_accepted_transactions_witness :
  (committed indexed).2 = mkBlockResult 2 0 1 /\ length (follows (em (committed indexed).1)) = 1%nat /\
  exists env emBlock, (env = ok_env \/ env = ok_env) /\
    accepted_steps None (at_sql env) live_block emBlock (bk_Transactions live_block) ex_em (em (committed indexed).1).
Proof.
  split; [reflexivity|]. split; [reflexivity|].
  refine (block_is_its_accepted_transactions None "c" ok_env ok_env live_block ex_db _ (committed indexed).2 (fun _ => eq_refl) _).
  vm_compute. reflexivity.
Defined.

Lemma failed_block_is_passed_over_witness :
  indexBlocks (plain_indexer None "c") 0 [(replay_block, no_commit, no_commit); (live_block, ok_env, ok_env)] ex_db =
    (committed indexed).1 /\ 7 < start_height (plain_indexer None "c") 0 (committed indexed).1.
Proof.
  destruct (failed_block_is_passed_over None "c" replay_block live_block no_commit no_commit ok_env ok_env ex_db
    (committed indexed).1 ErrBlock (committed indexed).2) as (H1 & _ & H2);
    [vm_compute; reflexivity|vm_compute; reflexivity|reflexivity|reflexivity|].
  exact (conj H1 H2).
Defined.
