(* ===== verification/EtlSocialProps.v ===== *)
(** * The indexer: relations between users and content

    A relation is in force exactly when the last accepted transaction about it created
    it, one row records it, and other relations are left alone; and the case in which
    undoing a save undoes another one. *)

From stdpp Require Import base gmap strings list.
From Stdlib Require Import ZArith Lia.
From S2P Require Import Prelude AuthState EtlBase EtlDb EtlAccounts EtlSocial EtlRegistry EtlSteps EtlRejections EtlProps EtlSigners EtlExamples.

Open Scope string_scope.
Open Scope Z_scope.

Section Rows.
Context {K X : Type} `{EqDecision K}.
Implicit Types (t : list (social_row K X)) (k : K).

(** How many current rows record a relation. *)
Definition current_rows k t : nat := length (List.filter (current_row k) t).

Lemma current_row_other k k' (r : social_row K X) : current_row k r = true -> k' <> k -> current_row k' r = false.
Proof.
  unfold current_row. intros [<-%bool_decide_eq_true _]%andb_true_iff Hne. by rewrite bool_decide_eq_false_2.
Qed.

Lemma touched_active k k' del x p t :
  active_row k' (map (fun r => if current_row k r then touch del x p r else r) t) =
  if decide (k' = k) then existsb (current_row k) t && negb del else active_row k' t.
Proof.
  unfold active_row. induction t as [|y t IH]; simpl; [by case_decide|]. rewrite IH. clear IH.
  destruct (current_row k y) eqn:Hy; [change (current_row k' (touch del x p y)) with (current_row k' y)|].
  - case_decide as Hk; [subst k'; rewrite Hy; by destruct del, (existsb _ t)|]. by rewrite (current_row_other _ _ _ Hy Hk).
  - case_decide as Hk; [subst k'; by rewrite Hy|done].
Qed.

Lemma upsert_active k k' del x p t :
  active_row k' (upsert_current k del x p t) =
  if decide (k' = k) then negb del else active_row k' t.
Proof.
  unfold upsert_current, upsert. destruct (existsb (current_row k) t) eqn:He.
  - rewrite touched_active, He. by case_decide.
  - unfold active_row. rewrite existsb_app. cbn [existsb]. rewrite orb_false_r.
    replace (current_row k' _) with (bool_decide (k = k')) by (unfold current_row; simpl; by rewrite andb_true_r).
    cbn [s_is_delete]. case_decide as Hk.
    + subst k'. rewrite bool_decide_eq_true_2 by done.
      destruct (existsb (fun r => current_row k r && negb (s_is_delete r)) t) eqn:Ha; [|done].
      apply existsb_exists in Ha as (r & Hr & [Hc _]%andb_true_iff).
      assert (existsb (current_row k) t = true) by (apply existsb_exists; eauto). congruence.
    + by rewrite bool_decide_eq_false_2, orb_false_r by done.
Qed.

Lemma touched_current k k' del x p t :
  current_rows k' (map (fun r => if current_row k r then touch del x p r else r) t) = current_rows k' t.
Proof.
  unfold current_rows. induction t as [|y t IH]; [done|]. simpl.
  assert (Hsame : current_row k' (if current_row k y then touch del x p y else y) = current_row k' y) by (by case_match).
  rewrite Hsame. destruct (current_row k' y); simpl; by rewrite IH.
Qed.

Lemma no_current_rows k t : existsb (current_row k) t = false -> current_rows k t = 0%nat.
Proof.
  unfold current_rows. induction t as [|y t IH]; [done|]. simpl. intros [Hy He]%orb_false_iff. rewrite Hy. auto.
Qed.

Lemma upsert_current_rows k k' del x p t :
  (current_rows k' t <= 1)%nat -> (current_rows k' (upsert_current k del x p t) <= 1)%nat.
Proof.
  unfold upsert_current, upsert. intros Hle. destruct (existsb (current_row k) t) eqn:He; [by rewrite touched_current|].
  unfold current_rows in *. rewrite List.filter_app, length_app. destruct (decide (k' = k)) as [->|Hne].
  - apply no_current_rows in He. unfold current_rows in He. rewrite He. simpl. case_match; simpl; lia.
  - simpl. unfold current_row at 2. simpl. rewrite bool_decide_eq_false_2 by done. simpl. lia.
Qed.
End Rows.

Section Follows.
Context {J : EtlLibs} {E : EtlSql}.
Implicit Types (p : Params).

Lemma followExists_needs p (b : bool) c c' u :
  (if b then validateUnfollow p else validateFollow p) c = (c', Ok u) ->
  active_row (p_UserID p, p_EntityID p) (follows (em (c_db c))) = b /\ c_db c' = c_db c.
Proof.
  intros H. assert (Hq : quiet (if b then validateUnfollow p else validateFollow p)).
  { destruct b; unfold validateUnfollow, validateFollow, userExists, followExists; quiet_steps. }
  specialize (Hq c). rewrite H in Hq. simpl in Hq. split; [|done]. destruct b.
  - unfold validateUnfollow in H. apply pbind_ok in H as (c1 & [] & Hs & H).
    pose proof (quiet_ValidateSigner p c) as Hq1. rewrite Hs in Hq1. simpl in Hq1.
    apply pbind_ok in H as (c2 & x & Hx & H). apply ask_ok in Hx as [-> _]. apply reject_when_ok in H as [H _].
    rewrite Hq1 in H. by apply negb_false_iff in H.
  - unfold validateFollow in H. apply pbind_ok in H as (c0 & [] & H0 & H). apply reject_when_ok in H0 as [_ ->].
    apply pbind_ok in H as (c1 & [] & Hs & H). pose proof (quiet_ValidateSigner p c) as Hq1. rewrite Hs in Hq1. simpl in Hq1.
    apply pbind_ok in H as (c2 & x & Hx & H). apply ask_ok in Hx as [-> Hq2].
    apply pbind_ok in H as (c3 & [] & H3 & H). apply reject_when_ok in H3 as [_ ->].
    apply pbind_ok in H as (c4 & x & Hx & H). apply ask_ok in Hx as [-> _]. apply reject_when_ok in H as [H _].
    by rewrite Hq2, Hq1 in H.
Qed.

(** A follow is in force from the transaction that creates it to the one that undoes
    it: an accepted Follow found none in force and an accepted Unfollow found one;
    afterwards the follow and the subscription it implies are in force or not
    accordingly, every other follow is as it was, and a relation recorded by at most one
    current row still is, whatever other users do. *)
Theorem follow_is_in_force_until_undone p (undo : bool) c c' :
  (if undo then unfollow p else follow p) c = (c', Ok tt) ->
  let key := (p_UserID p, p_EntityID p) in
  active_row key (follows (em (c_db c))) = undo /\
  (forall k, active_row k (follows (em (c_db c'))) = if decide (k = key) then negb undo else active_row k (follows (em (c_db c)))) /\
  active_row (key, EntityTypeUser) (subscriptions (em (c_db c'))) = negb undo /\
  (forall k, (current_rows k (follows (em (c_db c))) <= 1)%nat -> (current_rows k (follows (em (c_db c'))) <= 1)%nat).
Proof.
  intros H key. assert (Hsplit : exists c1, (if undo then validateUnfollow p else validateFollow p) c = (c1, Ok tt) /\
    insertFollow p undo c1 = (c', Ok tt)).
  { destruct undo; apply pbind_ok in H as (c1 & [] & Hv & Hi); eauto. }
  destruct Hsplit as (c1 & Hv & Hi). apply followExists_needs in Hv as [Hact Hdb].
  unfold insertFollow in Hi. apply pbind_ok in Hi as (c2 & [] & Hf & Hs).
  apply exec_em_ok in Hf as (d2 & [= <-] & Hd2 & _). apply exec_em_ok in Hs as (d3 & [= <-] & Hd3 & _).
  rewrite Hd3, Hd2, Hdb. simpl. split_and!; [done|..].
  - intros k. by rewrite upsert_active.
  - rewrite upsert_active. by destruct (decide _).
  - intros k. apply upsert_current_rows.
Qed.
End Follows.

Import EtlEx.

Lemma follow_is_in_force_until_undone_witness :
  let c' := (follow follow_bob ex_conn).1 in
  (follow follow_bob ex_conn).2 = Ok tt /\ active_row (1, 2) (follows (em (c_db ex_conn))) = false /\
  active_row (1, 2, EntityTypeUser) (subscriptions (em (c_db c'))) = true.
Proof.
  intros c'. destruct (@follow_is_in_force_until_undone ex_sql0 follow_bob false ex_conn c') as (H1 & _ & H2 & _).
  - vm_compute. reflexivity.
  - split; [vm_compute; reflexivity|]. exact (conj H1 H2).
Defined.

(** A playlist and a track with the same number; the playlist is saved. *)
Definition saved_db : etl_db :=
  let row type := mkSocialRow (1, 5, type) true false false 10 "s" 1 in
  mkEtlDb (set_saves [row "playlist"] (set_playlists [ex_playlist 5 2] (set_tracks [ex_track 5 2] ex_em)))
    ex_chain.

Definition unsave_playlist : Params := ex_params 1 5 "Playlist" "Unsave" "0xA" [("type", JStr "track")] "t1".

(** Undoing a save can leave it in force: an Unsave of a playlist whose metadata names
    another type is checked against the playlist's save but written to the other type's --
    the check reads the transaction's entity type first, the write the metadata's -- so
    the accepted transaction deletes a save of the track that was never made and the
    playlist stays saved. *)
Theorem unsave_can_leave_the_save_in_force :
  let c' := (Dispatch (live_dispatcher None) unsave_playlist (mkConn saved_db false 0)).1 in
  (Dispatch (live_dispatcher None) unsave_playlist (mkConn saved_db false 0)).2 = Ok tt /\
  active_row (1, 5, "playlist") (saves (em (c_db c'))) = true /\
  current_rows (1, 5, "track") (saves (em saved_db)) = 0%nat /\
  current_rows (1, 5, "track") (saves (em (c_db c'))) = 1%nat.
Proof. vm_compute. split_and!; reflexivity. Qed.
