(* ===== verification/EtlRoutesProps.v ===== *)
(** * The indexer: routes

    The search for the slug of a title ends, since no owner has more routes than there are
    numbers to try, and the slug is free unless an odd route has it: one whose slug is
    neither that of its title nor ends in a digit.  The search gives out no odd routes;
    a migrated create can, and such a route blocks the title. *)

From stdpp Require Import base gmap strings list.
From Stdlib Require Import ZArith Lia Ascii.
From S2P Require Import Prelude AuthState Crypto Encoding EtlBase EtlDb EtlAccounts EtlRoutes EtlSteps EtlSigners EtlExamples.

Open Scope string_scope.
Open Scope Z_scope.

(** ** Slugs with a number *)

Lemma utf8Last_cons c s : s <> "" -> utf8LastRuneIsDigit (String c s) = utf8LastRuneIsDigit s.
Proof. by destruct s. Qed.

Lemma utf8Last_app s t : t <> "" -> utf8LastRuneIsDigit (s +:+ t) = utf8LastRuneIsDigit t.
Proof.
  intros Ht. induction s as [|c s IH]; [done|]. change (String c s +:+ t) with (String c (s +:+ t)).
  rewrite utf8Last_cons; [done|]. by destruct s.
Qed.

Lemma digit_is_digit d : 0 <= d < 10 -> is_digit (to_byte (48 + d)) = true.
Proof. intros Hd. assert (d ∈ seqZ 0 10) as Hin by (apply elem_of_seqZ; lia). repeat (apply elem_of_cons in Hin as [->|Hin]; [done|]). by apply elem_of_nil in Hin. Qed.

Lemma decimal_last fuel : forall z s, 0 <= z -> (s <> "" -> utf8LastRuneIsDigit s = true) -> (0 < fuel)%nat ->
  utf8LastRuneIsDigit (decimal fuel z s) = true /\ decimal fuel z s <> "".
Proof.
  induction fuel as [|fuel IH]; intros z s Hz Hs Hf; [lia|]. cbn [decimal].
  assert (Hc : forall d, 0 <= d < 10 -> utf8LastRuneIsDigit (String (to_byte (48 + d)) s) = true).
  { intros d Hd. destruct s as [|c s]; [by apply digit_is_digit|]. rewrite utf8Last_cons by done. by apply Hs. }
  destruct (Z.ltb_spec z 10); [split; [apply Hc; lia|done]|].
  pose proof (Z.mod_pos_bound z 10 ltac:(lia)). destruct fuel as [|fuel]; [split; [apply Hc; lia|done]|].
  apply IH; [apply Z.div_pos; lia|intros _; apply Hc; lia|lia].
Qed.

Lemma FormatInt_last z : 0 <= z -> utf8LastRuneIsDigit (FormatInt z) = true /\ FormatInt z <> "".
Proof. intros Hz. unfold FormatInt. rewrite (proj2 (Z.ltb_ge _ _)) by lia. by apply decimal_last; [|done|lia]. Qed.

Lemma SanitizeSlug_numbered title i k :
  0 < k -> SanitizeSlug title i k = SanitizeSlug title i 0 +:+ "-" +:+ FormatInt k.
Proof. intros Hk. unfold SanitizeSlug. by rewrite (proj2 (Z.ltb_lt _ _)). Qed.

Lemma numbered_last title i k : 0 < k -> utf8LastRuneIsDigit (SanitizeSlug title i k) = true.
Proof.
  intros Hk. rewrite SanitizeSlug_numbered by done. rewrite utf8Last_app by done.
  destruct (FormatInt_last k ltac:(lia)) as [Hl Hn]. by rewrite (utf8Last_app "-").
Qed.

Lemma numbered_inj title i a b :
  0 < a < 2 ^ 63 -> 0 < b < 2 ^ 63 -> SanitizeSlug title i a = SanitizeSlug title i b -> a = b.
Proof.
  intros Ha Hb. rewrite (SanitizeSlug_numbered _ _ a), (SanitizeSlug_numbered _ _ b) by lia. intros H.
  apply FormatInt_inj; [lia..|]. apply append_inj_length in H as [_ H]; [|done]. by apply append_inj_length in H as [_ ?].
Qed.

(** ** The search *)

(** A route the search cannot foresee: its slug is neither that of its title nor ends in
    a digit. *)
Definition odd_route (slug titleSlug : string) : Prop := slug <> titleSlug /\ utf8LastRuneIsDigit slug = false.

(** The numbers of a table of routes. *)
Record routes_ok (t : list route_row) : Prop := {
  routes_collisions r : r ∈ t -> 0 <= rt_collision_id r < 2 ^ 31;
  routes_few : Z.of_nat (length t) < 2 ^ 31
}.

(** No route of the owner has the slug. *)
Definition slug_free ownerID (slug : string) (t : list route_row) : Prop := existsb (route_of ownerID slug) t = false.

Section Search.
Context {J : EtlLibs} {E : EtlSql} (HE : reliable E) (routes : shelf_db -> list route_row).
Implicit Types (c : conn) (title : string) (ownerID itemID : Z).
Notation table c := (routes (shelf (em (c_db c)))).

Lemma taken_in ownerID slug t : existsb (route_of ownerID slug) t = true -> slug ∈ map rt_slug t.
Proof.
  intros (r & Hr & [_ <-%String.eqb_eq]%andb_true_iff)%existsb_exists. apply list_elem_of_fmap. exists r.
  by rewrite list_elem_of_In.
Qed.

(** Among one number more than there are routes, one gives a free slug. *)
Lemma some_number_free ownerID itemID title n t :
  0 <= n -> n + Z.of_nat (length t) + 1 < 2 ^ 63 ->
  exists k, (k <= length t)%nat /\ slug_free ownerID (SanitizeSlug title itemID (n + 1 + Z.of_nat k)) t.
Proof.
  intros Hn Hb. set (cand := fun k : nat => SanitizeSlug title itemID (n + 1 + Z.of_nat k)).
  destruct (decide (Forall (fun k => existsb (route_of ownerID (cand k)) t = true) (seq 0 (S (length t))))) as [Hall|Hnot].
  - exfalso. rewrite Forall_forall in Hall.
    assert (Hsub : incl (map cand (seq 0 (S (length t)))) (map rt_slug t)).
    { intros x (k & <- & Hk)%in_map_iff. apply list_elem_of_In. eapply taken_in, Hall. by apply list_elem_of_In. }
    apply NoDup_incl_length in Hsub; [rewrite !length_map, length_seq in Hsub; lia|].
    apply NoDup_ListNoDup, NoDup_fmap_2_strong; [|apply NoDup_seq].
    intros a b Ha%elem_of_seq Hb'%elem_of_seq Heq. apply numbered_inj in Heq; lia.
  - apply not_Forall_Exists in Hnot; [|intros ?; apply _]. apply Exists_exists in Hnot as (k & Hk%elem_of_seq & Hfree).
    exists k. split; [lia|]. by apply not_true_iff_false.
Qed.

(** The loop finds a free slug among the numbers it tries, if one is. *)
Lemma slug_loop_finds ownerID itemID title fuel : forall n c k,
  c_aborted c = false -> (k < fuel)%nat ->
  slug_free ownerID (SanitizeSlug title itemID (n + 1 + Z.of_nat k)) (table c) ->
  exists c' m, slug_loop routes fuel ownerID itemID title n c = (c', Ok (Some (SanitizeSlug title itemID m, m))) /\
    c_db c' = c_db c /\ c_aborted c' = false /\ n < m <= n + Z.of_nat fuel /\
    slug_free ownerID (SanitizeSlug title itemID m) (table c).
Proof using HE.
  induction fuel as [|fuel IH]; intros n c k Hc Hk Hfree; [lia|]. cbn [slug_loop]. unfold pbind, route_slug_exists.
  rewrite (ask_reliable HE) by done. destruct (existsb _ _) eqn:Hx.
  - destruct k as [|k]; [unfold slug_free in Hfree; rewrite Z.add_0_r in Hfree; congruence|].
    destruct (IH (n + 1) (mkConn (c_db c) false (S (c_clock c))) k) as (c' & m & Hl & Hdb & Hab & Hm & Hf); [done|lia|..].
    { simpl. by replace (n + 1 + 1 + Z.of_nat k) with (n + 1 + Z.of_nat (S k)) by lia. }
    exists c', m. split_and!; try done; lia.
  - eexists _, (n + 1). split; [done|]. split_and!; try done; lia.
Qed.

Lemma slug_search_finds ownerID itemID title n c :
  c_aborted c = false -> 0 <= n -> n + Z.of_nat (length (table c)) + 1 < 2 ^ 63 ->
  exists c' m, slug_search routes ownerID itemID title n c = (c', Ok (Some (SanitizeSlug title itemID m, m))) /\
    c_db c' = c_db c /\ n < m <= n + Z.of_nat (length (table c)) + 1 /\
    slug_free ownerID (SanitizeSlug title itemID m) (table c).
Proof using HE.
  intros Hc Hn Hb. destruct (some_number_free ownerID itemID title n (table c) Hn Hb) as (k & Hk & Hf).
  destruct (slug_loop_finds ownerID itemID title (S (length (table c))) n c k) as (c' & m & Hl & Hdb & _ & Hm & Hfree); [done|lia|done|].
  exists c', m. split_and!; try done; lia.
Qed.

Lemma max_collision_bounds ownerID slug t m :
  routes_ok t -> max_collision ownerID slug t = Some m -> 0 <= m < 2 ^ 31.
Proof.
  intros Hok. unfold max_collision. set (rows := List.filter _ t).
  assert (Hrows : forall r, r ∈ rows -> 0 <= rt_collision_id r < 2 ^ 31).
  { intros r [Hr _]%filter_in. by apply (routes_collisions _ Hok). }
  clearbody rows. assert (Hinit : forall b, None = Some b -> 0 <= b < 2 ^ 31) by done. revert Hinit.
  generalize (None : option Z). induction rows as [|r rows IH]; intros best Hbest Hm; simpl in *; [auto|].
  eapply IH; [set_solver| |exact Hm]. intros b [= <-]. pose proof (Hrows r ltac:(set_solver)).
  destruct best as [b0|]; [specialize (Hbest b0 eq_refl)|]; lia.
Qed.

Lemma max_collision_none ownerID slug t r :
  max_collision ownerID slug t = None -> r ∈ t -> rt_owner_id r = ownerID -> rt_title_slug r <> slug.
Proof.
  unfold max_collision. intros Hnone Hr Ho Hs. assert (Hin : r ∈ List.filter (fun r => (rt_owner_id r =? ownerID) && String.eqb (rt_title_slug r) slug) t).
  { apply in_filter; [done|]. by rewrite Ho, Hs, Z.eqb_refl, String.eqb_refl. }
  set (rows := List.filter _ t) in *. clearbody rows.
  assert (Hsome : forall (l : list route_row) b, is_Some (foldl (fun best r => Some (match best with Some m => Z.max m (rt_collision_id r) | None => rt_collision_id r end)) (Some b) l)).
  { induction l as [|x l IH]; intros b; simpl; [eauto|]. apply IH. }
  destruct rows as [|x rows]; [by apply elem_of_nil in Hin|]. simpl in Hnone.
  destruct (Hsome rows (rt_collision_id x)) as [? Hx]. congruence.
Qed.

(** A slug that ends in no digit and is the slug of no route's title is free but for odd
    routes. *)
Lemma unnumbered_free ownerID slug t r :
  utf8LastRuneIsDigit slug = false -> max_collision ownerID slug t = None ->
  r ∈ t -> rt_owner_id r = ownerID -> rt_slug r = slug -> odd_route (rt_slug r) (rt_title_slug r).
Proof.
  intros Hd Hnone Hr Ho Hs. pose proof (max_collision_none _ _ _ _ Hnone Hr Ho). split; congruence.
Qed.

(** Among the routes of a free slug every one is odd: there is none. *)
Lemma free_but_odd ownerID slug t r :
  slug_free ownerID slug t -> r ∈ t -> rt_owner_id r = ownerID -> rt_slug r = slug -> odd_route (rt_slug r) (rt_title_slug r).
Proof.
  intros Hf Hr Ho Hs. exfalso. assert (existsb (route_of ownerID slug) t = true) as Hx; [|unfold slug_free in Hf; congruence].
  apply existsb_exists. exists r. split; [by apply list_elem_of_In|]. unfold route_of. by rewrite Ho, Hs, Z.eqb_refl, String.eqb_refl.
Qed.

(** C39 -- The search for the route of a title ends, and only odd routes can spoil it.
    The database answers, the transaction is not
    aborted, and the table has fewer than 2^31 routes, with collision ids from 0 to
    2^31 - 1.  Then the search for a slug ends, after at most one number more than
    there are routes, and changes nothing.  A route of the owner that already has the
    slug, so that the INSERT of the new one is refused, is an odd one, whose slug is
    neither that of its title nor ends in a digit: a table without such routes gives a
    free slug.  The search itself never gives out an odd route; a migrated create, whose
    slug is whatever its metadata says, may have. *)
Theorem generated_slug_is_free ownerID itemID title c :
  c_aborted c = false -> routes_ok (table c) ->
  exists c' slug n, GenerateSlugAndCollisionID routes ownerID itemID title c = (c', Ok (slug, SanitizeSlug title itemID 0, n)) /\
    c_db c' = c_db c /\
    (forall r, r ∈ table c -> rt_owner_id r = ownerID -> rt_slug r = slug -> odd_route (rt_slug r) (rt_title_slug r)) /\
    0 <= n <= 2 ^ 31 + Z.of_nat (length (table c)) /\
    ~ odd_route slug (SanitizeSlug title itemID 0).
Proof using HE.
  intros Hc Hok. unfold GenerateSlugAndCollisionID, pbind at 1. rewrite (ask_reliable HE) by done.
  set (c1 := mkConn _ _ _). set (titleSlug := SanitizeSlug title itemID 0).
  pose proof (routes_few _ Hok) as Hfew.
  assert (Hsearch : forall c2 n, c_db c2 = c_db c -> c_aborted c2 = false -> 0 <= n < 2 ^ 31 ->
    exists c' slug m, (let! found := slug_search routes ownerID itemID title n in
       match found with Some (slug, collisionID) => pret (slug, titleSlug, collisionID) | None => pfail ErrSql end) c2 =
         (c', Ok (slug, titleSlug, m)) /\ c_db c' = c_db c /\
       (forall r, r ∈ table c -> rt_owner_id r = ownerID -> rt_slug r = slug -> odd_route (rt_slug r) (rt_title_slug r)) /\
       0 <= m <= 2 ^ 31 + Z.of_nat (length (table c)) /\ ~ odd_route slug titleSlug).
  { intros c2 n Hdb Hab Hn. destruct (slug_search_finds ownerID itemID title n c2) as (c' & m & Hl & Hdb' & Hm & Hf);
      [done|lia|rewrite Hdb; lia|]. unfold pbind. rewrite Hl. rewrite Hdb in *. eexists c', _, m.
    split; [done|]. split_and!; try done; [by intros r; apply free_but_odd|lia..|].
    intros [_ Hnd]. rewrite numbered_last in Hnd by lia. done. }
  destruct (utf8LastRuneIsDigit titleSlug) eqn:Hd; unfold pbind at 1.
  - unfold route_slug_exists. rewrite (ask_reliable HE) by done. simpl c_db.
    destruct (max_collision _ _ _) as [m|] eqn:Hm; [apply Hsearch; try done; by eapply max_collision_bounds|].
    destruct (existsb _ _) eqn:Hx; [by apply Hsearch|].
    eexists _, titleSlug, 0. split; [done|]. split_and!; try done; [by intros r; apply free_but_odd|lia|by intros [? _]].
  - destruct (max_collision _ _ _) as [m|] eqn:Hm; [apply Hsearch; try done; by eapply max_collision_bounds|].
    eexists _, titleSlug, 0. split; [done|]. split_and!; try done; [by intros r; apply unnumbered_free|lia|by intros [? _]].
Qed.
End Search.

Import EtlEx.

(** Two routes of one title. *)
Definition two_routes : list route_row :=
  [ mkRouteRow "song" "song" 0 1 7 true "bh" 1 "tx"; mkRouteRow "song-1" "song" 1 1 8 true "bh" 1 "ty" ].
Definition routes_conn : conn :=
  mkConn (mkEtlDb (set_shelf (set_track_routes two_routes (shelf ex_em)) ex_em) ex_chain) false 0.

Lemma two_routes_ok : routes_ok two_routes.
Proof.
  split; [intros r Hr|vm_compute; reflexivity]; unfold two_routes in Hr;
    rewrite !elem_of_cons, elem_of_nil in Hr; destruct Hr as [->|[->|[]]]; simpl; auto; lia.
Qed.

Lemma generated_slug_is_free_witness :
  (GenerateSlugAndCollisionID track_routes 1 9 "Song" routes_conn).2 = Ok ("song-2", "song", 2) /\
  exists c' slug n, GenerateSlugAndCollisionID track_routes 1 9 "Song" routes_conn = (c', Ok (slug, SanitizeSlug "Song" 9 0, n)) /\
    c_db c' = c_db routes_conn /\
    (forall r, r ∈ two_routes -> rt_owner_id r = 1 -> rt_slug r = slug -> odd_route (rt_slug r) (rt_title_slug r)) /\
    0 <= n <= 2 ^ 31 + 2 /\ ~ odd_route slug (SanitizeSlug "Song" 9 0).
Proof.
  split; [vm_compute; reflexivity|].
  exact (generated_slug_is_free (fun _ => eq_refl) track_routes 1 9 "Song" routes_conn eq_refl two_routes_ok).
Defined.

(** The route of a migrated track, under a slug its title does not give. *)
Definition migrated_conn : conn :=
  mkConn (mkEtlDb (set_shelf (set_track_routes [mkRouteRow "song" "my-song" 0 1 7 true "bh" 1 "tx"] (shelf ex_em)) ex_em) ex_chain) false 0.

(** It blocks the title: the slug of a new track of that title is taken, and the INSERT
    of its route is refused. *)
Theorem migrated_route_blocks_a_title :
  (GenerateSlugAndCollisionID track_routes 1 9 "Song" migrated_conn).2 = Ok ("song", "song", 0) /\
  exists e, (insert_track_route (mkRouteRow "song" "song" 0 1 9 true "bh" 2 "ty") migrated_conn).2 = Err e.
Proof. split; [vm_compute; reflexivity|]. eexists. vm_compute. reflexivity. Qed.
