(* ===== verification/EtlCatalogProps.v ===== *)
(** * The indexer: tracks and playlists

    A playlist's membership rows are its contents, and the index on tracks agrees with
    them; an edit of a track keeps what identifies its audio; and transactions that are
    rejected, or lost, half way. *)

From stdpp Require Import base gmap strings list.
From Stdlib Require Import ZArith Lia.
From S2P Require Import Prelude AuthState Crypto EtlBase EtlDb EtlAccounts EtlSocial EtlComments EtlEvents EtlRoutes EtlTracks EtlPlaylists.
From S2P Require Import EtlRegistry EtlSteps EtlRejections EtlProps EtlSigners EtlIndexer EtlIndexerProps EtlExamples.

Open Scope string_scope.
Open Scope Z_scope.

(** ** Membership *)

(** The track is listed by the playlist. *)
Definition member_active playlistID trackID (t : list member_row) : bool :=
  existsb (fun r => member_is playlistID trackID r && negb (pt_is_removed r)) t.

(** The index on the tracks says which of them the playlist lists. *)
Definition index_agrees (d : em_db) playlistID : Prop :=
  forall t, t ∈ tracks d -> t_is_current t = true ->
    playlistID ∈ t_playlists_containing_track t <-> member_active playlistID (t_track_id t) (playlist_tracks (shelf d)) = true.

Section Membership.
Context {J : EtlLibs} {E : EtlSql}.
Implicit Types (p : Params) (playlistID trackID : Z) (t : list member_row) (updated : list Z).

(** A loop of steps, each of which does [h] to a part of the database. *)
Lemma for_each_proj {A B} (f : em_db -> B) (h : A -> B -> B) (step : A -> proc conn etl_error unit) l : forall c c',
  (forall x c c', step x c = (c', Ok tt) -> f (em (c_db c')) = h x (f (em (c_db c)))) ->
  for_each step l c = (c', Ok tt) -> f (em (c_db c')) = foldl (fun b x => h x b) (f (em (c_db c))) l.
Proof.
  induction l as [|x l IH]; intros c c' Hs; simpl; [by intros [= <-]|].
  intros H. apply pbind_ok in H as (c1 & [] & Hx & Hl). rewrite <- (Hs _ _ _ Hx). by apply IH.
Qed.

Lemma member_is_same playlistID trackID r : member_is playlistID trackID r = true <-> members_key r = (playlistID, trackID).
Proof. unfold member_is, members_key. rewrite andb_true_iff, !Z.eqb_eq. split; [intros [-> ->]; done|by intros [= -> ->]]. Qed.

Lemma member_other playlistID trackID id z r :
  member_is playlistID trackID r = true -> (id, z) <> (playlistID, trackID) -> member_is id z r = false.
Proof. intros Hm Hne. apply not_true_iff_false. rewrite member_is_same in *. congruence. Qed.

Lemma set_member_exists playlistID trackID removed now id z t :
  existsb (member_is id z) (update_where (member_is playlistID trackID) (set_removed removed now) t) = existsb (member_is id z) t.
Proof. by apply existsb_update_where. Qed.

Lemma set_member_active playlistID trackID removed now id z t :
  member_active id z (update_where (member_is playlistID trackID) (set_removed removed now) t) =
  if decide ((id, z) = (playlistID, trackID)) then existsb (member_is playlistID trackID) t && negb removed else member_active id z t.
Proof.
  unfold member_active, update_where. induction t as [|r t IH]; simpl; [by case_decide|]. rewrite IH. clear IH.
  destruct (member_is playlistID trackID r) eqn:Hr.
  - change (member_is id z (set_removed removed now r)) with (member_is id z r). case_decide as Hk.
    + injection Hk as -> ->. rewrite Hr. simpl. by destruct removed, (existsb _ t).
    + by rewrite (member_other _ _ _ _ _ Hr Hk).
  - case_decide as Hk; [injection Hk as -> ->; by rewrite Hr|done].
Qed.

Lemma add_member_exists row t id z :
  existsb (member_is id z) (insert_ignore members_key row t) = existsb (member_is id z) t || member_is id z row.
Proof.
  unfold insert_ignore. case_bool_decide as Hin; [|rewrite existsb_app; simpl; by rewrite orb_false_r].
  destruct (member_is id z row) eqn:Hm; [|by rewrite orb_false_r]. rewrite orb_true_r.
  apply list_elem_of_fmap in Hin as (r & Hk & Hr). apply existsb_exists. exists r. rewrite <- list_elem_of_In.
  split; [done|]. apply member_is_same. apply member_is_same in Hm. congruence.
Qed.

Lemma add_member_active row t id z :
  pt_is_removed row = false ->
  member_active id z (insert_ignore members_key row t) =
  member_active id z t || (member_is id z row && negb (existsb (member_is id z) t)).
Proof.
  intros Hrow. unfold insert_ignore, member_active. case_bool_decide as Hin.
  - destruct (member_is id z row) eqn:Hm; [|by rewrite orb_false_r].
    assert (existsb (member_is id z) t = true) as ->; [|by rewrite orb_false_r].
    apply list_elem_of_fmap in Hin as (r & Hk & Hr). apply existsb_exists. exists r. rewrite <- list_elem_of_In.
    split; [done|]. apply member_is_same. apply member_is_same in Hm. congruence.
  - rewrite existsb_app. simpl. rewrite Hrow, orb_false_r. destruct (member_is id z row) eqn:Hm; [|done]. simpl.
    assert (existsb (member_is id z) t = false) as ->; [|done].
    apply not_true_iff_false. intros (r & Hr & Hm')%existsb_exists. apply Hin. apply list_elem_of_fmap. exists r.
    apply member_is_same in Hm. apply member_is_same in Hm'. rewrite list_elem_of_In. split; [congruence|done].
Qed.

(** The loop over the stored members, on the table. *)
Definition keep_row playlistID updated (now : Z) (r : Z * bool) t : list member_row :=
  if bool_decide (r.1 ∈ updated) then (if r.2 then update_where (member_is playlistID r.1) (set_removed false now) t else t)
  else (if r.2 then t else update_where (member_is playlistID r.1) (set_removed true now) t).

Lemma keep_rows_exists playlistID updated now l id z : forall t,
  existsb (member_is id z) (foldl (fun t r => keep_row playlistID updated now r t) t l) = existsb (member_is id z) t.
Proof.
  induction l as [|[w b] l IH]; intros t; simpl; [done|]. rewrite IH. unfold keep_row. simpl.
  destruct (bool_decide _), b; rewrite ?set_member_exists; done.
Qed.

Lemma keep_rows_active playlistID updated now l z : forall t,
  (forall r, r ∈ l -> existsb (member_is playlistID r.1) t = true) ->
  member_active playlistID z (foldl (fun t r => keep_row playlistID updated now r t) t l) =
  if bool_decide (z ∈ updated) then member_active playlistID z t || existsb (fun r : Z * bool => (r.1 =? z) && r.2) l
  else member_active playlistID z t && negb (existsb (fun r : Z * bool => (r.1 =? z) && negb r.2) l).
Proof.
  induction l as [|[w b] l IH]; intros t Hl; simpl.
  { rewrite orb_false_r, andb_true_r. by destruct (bool_decide _). }
  assert (Hw : existsb (member_is playlistID w) t = true) by (apply (Hl (w, b)); set_solver).
  rewrite IH. 2: { intros r Hr. pose proof (keep_rows_exists playlistID updated now [(w, b)] playlistID r.1 t) as Hx. simpl in Hx.
    rewrite Hx. apply Hl. set_solver. }
  unfold keep_row. simpl. destruct (Z.eqb_spec w z) as [->|Hne].
  - destruct (bool_decide (z ∈ updated)), b; simpl; rewrite ?set_member_active, ?decide_True, ?Hw by done; simpl; try done.
    by rewrite orb_true_r. by rewrite andb_false_r.
  - assert ((playlistID, z) <> (playlistID, w)) by congruence.
    destruct (bool_decide (w ∈ updated)), b; simpl; by rewrite ?set_member_active, ?decide_False.
Qed.

Lemma keep_rows_other playlistID updated now l id z : forall t,
  id <> playlistID -> member_active id z (foldl (fun t r => keep_row playlistID updated now r t) t l) = member_active id z t.
Proof.
  induction l as [|[w b] l IH]; intros t Hne; simpl; [done|]. rewrite IH by done. unfold keep_row. simpl.
  destruct (bool_decide _), b; rewrite ?set_member_active, ?decide_False by congruence; done.
Qed.

Lemma add_rows_active playlistID now l id z : forall t,
  member_active id z (foldl (fun t w => insert_ignore members_key (mkMemberRow playlistID w false now now) t) t l) =
  member_active id z t || (bool_decide (id = playlistID /\ z ∈ l) && negb (existsb (member_is id z) t)).
Proof.
  induction l as [|w l IH]; intros t; simpl.
  { rewrite bool_decide_eq_false_2 by set_solver. by rewrite orb_false_r. }
  rewrite IH, add_member_active, add_member_exists by done.
  assert (Hm : member_is id z (mkMemberRow playlistID w false now now) = bool_decide (id = playlistID /\ z = w)).
  { apply eq_true_iff_eq. rewrite member_is_same, bool_decide_eq_true. unfold members_key. simpl. split; [by intros [= -> ->]|by intros [-> ->]]. }
  rewrite Hm. destruct (member_active id z t), (existsb (member_is id z) t); simpl; rewrite ?andb_false_r, ?andb_true_r; try done.
  repeat case_bool_decide; set_solver.
Qed.

(** ** The index *)

Lemma index_added_in playlistID now row id :
  id ∈ t_playlists_containing_track (index_added playlistID now row) <-> id = playlistID \/ id ∈ t_playlists_containing_track row.
Proof. simpl. case_bool_decide; [naive_solver|]. rewrite elem_of_app, list_elem_of_singleton. naive_solver. Qed.

Lemma index_removed_in playlistID now row id :
  id ∈ t_playlists_containing_track (index_removed playlistID now row) <-> id <> playlistID /\ id ∈ t_playlists_containing_track row.
Proof. simpl. rewrite list_elem_of_In, filter_In, <- list_elem_of_In, negb_true_iff, Z.eqb_neq. naive_solver. Qed.

(** Rows of the same track, with the playlists they name. *)
Definition reindexed (d d' : em_db) (names : track_row -> Z -> Prop) : Prop :=
  shelf d' = shelf d /\
  forall row', row' ∈ tracks d' -> exists row, row ∈ tracks d /\
    t_track_id row' = t_track_id row /\ t_is_current row' = t_is_current row /\
    forall id, id ∈ t_playlists_containing_track row' <-> names row id.

Lemma reindexed_refl d names :
  (forall row id, id ∈ t_playlists_containing_track row <-> names row id) -> reindexed d d names.
Proof. intros Hn. split; [done|]. intros row Hr. by exists row. Qed.

Lemma reindexed_update d (cond : track_row -> bool) f names :
  (forall row, t_track_id (f row) = t_track_id row /\ t_is_current (f row) = t_is_current row) ->
  (forall row id, id ∈ t_playlists_containing_track (if cond row then f row else row) <-> names row id) ->
  reindexed d (set_tracks (update_where cond f (tracks d)) d) names.
Proof.
  intros Hf Hn. split; [done|]. intros row' (row & -> & Hr)%list_elem_of_fmap. exists row. destruct (Hf row).
  split_and!; try done; by case_match.
Qed.

Lemma among_nil row : among [] row = false.
Proof. unfold among. by rewrite bool_decide_eq_false_2 by set_solver. Qed.

Lemma index_joined_rows playlistID added now c c' :
  index_joined playlistID added now c = (c', Ok tt) ->
  reindexed (em (c_db c)) (em (c_db c')) (fun row id =>
    id ∈ t_playlists_containing_track row \/ (id = playlistID /\ among added row = true)).
Proof.
  unfold index_joined. case_bool_decide as Hnil.
  { intros [= <-]. apply reindexed_refl. intros row id. rewrite Hnil, among_nil. naive_solver. }
  intros (d & [= <-] & -> & _)%exec_em_ok. apply reindexed_update; [done|]. intros row id. unfold in_index.
  destruct (among added row); cbn [negb andb orb]; [|naive_solver]. case_bool_decide; cbn [negb orb]; [case_match|];
    rewrite ?index_added_in; naive_solver.
Qed.

Lemma index_left_rows playlistID removed now c c' :
  index_left playlistID removed now c = (c', Ok tt) ->
  reindexed (em (c_db c)) (em (c_db c')) (fun row id =>
    id ∈ t_playlists_containing_track row /\ ~ (id = playlistID /\ among removed row = true)).
Proof.
  unfold index_left. case_bool_decide as Hnil.
  { intros [= <-]. apply reindexed_refl. intros row id. rewrite Hnil, among_nil. naive_solver. }
  intros (d & [= <-] & -> & _)%exec_em_ok. apply reindexed_update; [done|]. intros row id. unfold in_index.
  destruct (among removed row); cbn [negb andb orb]; [|naive_solver]. case_bool_decide; cbn [negb orb]; [|case_match];
    rewrite ?index_removed_in; naive_solver.
Qed.

Lemma index_rows playlistID added removed now c c' :
  updateTrackPlaylistIndex playlistID added removed now c = (c', Ok tt) ->
  reindexed (em (c_db c)) (em (c_db c')) (fun row id =>
    if decide (id = playlistID) then (id ∈ t_playlists_containing_track row \/ among added row = true) /\ among removed row = false
    else id ∈ t_playlists_containing_track row).
Proof.
  intros H. apply pbind_ok in H as (c1 & [] & Hj & Hl). apply index_joined_rows in Hj as [Hs1 Hj]. apply index_left_rows in Hl as [Hs2 Hl].
  split; [congruence|]. intros row'' (row' & Hr' & Hi' & Hc' & Hid')%Hl. destruct (Hj row' Hr') as (row & Hr & Hi & Hc & Hid).
  exists row. split_and!; [done|congruence..|]. intros id. rewrite Hid', Hid.
  assert (among removed row' = among removed row) as -> by (unfold among; by rewrite Hi, Hc).
  case_decide; destruct (among added row), (among removed row); intuition congruence.
Qed.

(** ** Contents *)

Lemma rejoining_in updated existing z :
  z ∈ rejoining updated existing <-> z ∈ updated /\ (z, true) ∈ existing.
Proof.
  unfold rejoining. rewrite list_elem_of_fmap. split.
  - intros ([w b] & -> & [Hin [Hu%bool_decide_eq_true Hb]%andb_true_iff]%filter_in). simpl in *. by subst b.
  - intros [Hu Hin]. exists (z, true). split; [done|]. apply in_filter; [done|]. simpl. by rewrite bool_decide_eq_true_2.
Qed.

Lemma leaving_in updated existing z :
  z ∈ leaving updated existing <-> z ∉ updated /\ (z, false) ∈ existing.
Proof.
  unfold leaving. rewrite list_elem_of_fmap. split.
  - intros ([w b] & -> & [Hin [Hu%negb_true_iff%bool_decide_eq_false Hb%negb_true_iff]%andb_true_iff]%filter_in). simpl in *. by subst b.
  - intros [Hu Hin]. exists (z, false). split; [done|]. apply in_filter; [done|]. simpl. by rewrite bool_decide_eq_false_2.
Qed.

Lemma joining_in updated existing z : z ∈ joining updated existing <-> z ∈ updated /\ z ∉ existing.*1.
Proof.
  unfold joining. split.
  - by intros [Hin Hu%negb_true_iff%bool_decide_eq_false]%filter_in.
  - intros [Hu Hin]. apply in_filter; [done|]. by rewrite bool_decide_eq_false_2.
Qed.

Lemma members_of_in playlistID t z b :
  (z, b) ∈ members_of playlistID t <-> exists r, r ∈ t /\ member_is playlistID z r = true /\ pt_is_removed r = b.
Proof.
  unfold members_of. rewrite list_elem_of_fmap. split.
  - intros (r & [= -> ->] & [Hr Hp]%filter_in). exists r. unfold member_is. by rewrite Hp, Z.eqb_refl.
  - intros (r & Hr & [Hp <-%Z.eqb_eq]%andb_true_iff & <-). exists r. split; [done|]. by apply in_filter.
Qed.

Lemma member_active_in playlistID t z : member_active playlistID z t = true <-> (z, false) ∈ members_of playlistID t.
Proof.
  rewrite members_of_in. unfold member_active. rewrite existsb_exists. split.
  - intros (r & Hr & [Hm Hn%negb_true_iff]%andb_true_iff). exists r. by rewrite list_elem_of_In.
  - intros (r & Hr & Hm & Hn). exists r. by rewrite <- list_elem_of_In, Hm, Hn.
Qed.

Lemma member_exists_in playlistID t z : existsb (member_is playlistID z) t = true <-> z ∈ (members_of playlistID t).*1.
Proof.
  rewrite list_elem_of_fmap, existsb_exists. split.
  - intros (r & Hr & Hm). exists (z, pt_is_removed r). split; [done|]. apply members_of_in. exists r. by rewrite list_elem_of_In.
  - intros ([w b] & -> & (r & Hr & Hm & _)%members_of_in). exists r. by rewrite <- list_elem_of_In.
Qed.

(** The table when both loops are done. *)
Definition relisted playlistID updated (now : Z) t : list member_row :=
  let existing := members_of playlistID t in
  foldl (fun t w => insert_ignore members_key (mkMemberRow playlistID w false now now) t)
    (foldl (fun t r => keep_row playlistID updated now r t) t existing) (joining updated existing).

Lemma relisted_active playlistID updated now t z :
  member_active playlistID z (relisted playlistID updated now t) = bool_decide (z ∈ updated).
Proof.
  unfold relisted. rewrite add_rows_active, keep_rows_exists, keep_rows_active.
  2: { intros [w b] Hr. apply member_exists_in, list_elem_of_fmap. by exists (w, b). }
  apply eq_true_iff_eq. rewrite bool_decide_eq_true, orb_true_iff, andb_true_iff, negb_true_iff, <- not_true_iff_false,
    member_exists_in, bool_decide_eq_true, joining_in.
  case_bool_decide as Hu.
  - rewrite orb_true_iff, member_active_in, existsb_exists. destruct (decide (z ∈ (members_of playlistID t).*1)) as [Hin|Hout]; [|naive_solver].
    split; [done|intros _; left]. apply list_elem_of_fmap in Hin as ([w []] & -> & Hr); [right|by left].
    exists (w, true). simpl. by rewrite <- list_elem_of_In, Z.eqb_refl.
  - split; [|done]. intros [[Ha%member_active_in Hn%negb_true_iff]%andb_true_iff|[[_ [? _]] _]]; [|done]. exfalso.
    apply (existsb_false_in _ _ (z, false)) in Hn; [|done]. simpl in Hn. by rewrite Z.eqb_refl in Hn.
Qed.

Lemma relisted_other playlistID updated now t id z :
  id <> playlistID -> member_active id z (relisted playlistID updated now t) = member_active id z t.
Proof.
  intros Hne. unfold relisted. rewrite add_rows_active, keep_rows_other by done.
  rewrite bool_decide_eq_false_2 by naive_solver. by rewrite orb_false_r.
Qed.

Lemma keep_member_row playlistID updated now r c c' :
  keep_member playlistID updated now r c = (c', Ok tt) ->
  (fun d => (playlist_tracks (shelf d), tracks d)) (em (c_db c')) =
  (fun r b => (keep_row playlistID updated now r b.1, b.2)) r ((fun d => (playlist_tracks (shelf d), tracks d)) (em (c_db c))).
Proof.
  unfold keep_member, keep_row. repeat case_match; try (intros [= <-]; done);
    intros (d & [= <-] & -> & _)%exec_em_ok; done.
Qed.

Lemma add_member_row playlistID now w c c' :
  add_member playlistID now w c = (c', Ok tt) ->
  (fun d => (playlist_tracks (shelf d), tracks d)) (em (c_db c')) =
  (fun w b => (insert_ignore members_key (mkMemberRow playlistID w false now now) b.1, b.2)) w
    ((fun d => (playlist_tracks (shelf d), tracks d)) (em (c_db c))).
Proof. by intros (d & [= <-] & -> & _)%exec_em_ok. Qed.

Lemma foldl_fst {A B C} (h : A -> B -> B) (b : B) (x : C) l :
  foldl (fun b a => (h a b.1, b.2)) (b, x) l = (foldl (fun b a => h a b) b l, x).
Proof. revert b. induction l as [|a l IH]; intros b; simpl; [done|]. by rewrite IH. Qed.

(** What a run of updatePlaylistTracks does to the two tables. *)
Lemma updatePlaylistTracks_rows p c c' :
  updatePlaylistTracks p c = (c', Ok tt) ->
  let updated := extractPlaylistTrackIDs p in
  let existing := members_of (p_EntityID p) (playlist_tracks (shelf (em (c_db c)))) in
  exists d, tracks d = tracks (em (c_db c)) /\
    playlist_tracks (shelf d) = relisted (p_EntityID p) updated (p_BlockTime p) (playlist_tracks (shelf (em (c_db c)))) /\
    reindexed d (em (c_db c')) (fun row id =>
      if decide (id = p_EntityID p)
      then (id ∈ t_playlists_containing_track row \/ among (rejoining updated existing ++ joining updated existing)%list row = true) /\
           among (leaving updated existing) row = false
      else id ∈ t_playlists_containing_track row).
Proof.
  unfold updatePlaylistTracks. intros H. apply pbind_ok in H as (c1 & existing & [-> Hdb]%ask_ok & H).
  apply pbind_ok in H as (c2 & [] & H1 & H). apply pbind_ok in H as (c3 & [] & H2 & H3).
  apply (for_each_proj _ _ _ _ _ _ (keep_member_row _ _ _)) in H1. apply (for_each_proj _ _ _ _ _ _ (add_member_row _ _)) in H2.
  rewrite foldl_fst, Hdb in H1. rewrite H1 in H2. cbv beta in H2.
  rewrite (foldl_fst (fun w t => insert_ignore members_key (mkMemberRow (p_EntityID p) w false (p_BlockTime p) (p_BlockTime p)) t)) in H2. injection H2 as H2 H2'. apply index_rows in H3.
  exists (em (c_db c3)). by split_and!.
Qed.

(** C40 -- A playlist's rows are its contents.  When the contents of a playlist have
    been indexed and no statement of that failed, a track has an unremoved row of the
    playlist exactly when the contents list it, whatever rows there were before; a track
    has an unremoved row of another playlist exactly when it had one; and if the index
    on the current rows of tracks, which names the playlists a track is in, agreed with
    the rows of a playlist before, it agrees with them now, for this and for every other
    playlist. *)
Theorem playlist_rows_are_its_contents p c c' :
  updatePlaylistTracks p c = (c', Ok tt) ->
  (forall z, member_active (p_EntityID p) z (playlist_tracks (shelf (em (c_db c')))) = bool_decide (z ∈ extractPlaylistTrackIDs p)) /\
  (forall id z, id <> p_EntityID p -> member_active id z (playlist_tracks (shelf (em (c_db c')))) =
                                      member_active id z (playlist_tracks (shelf (em (c_db c))))) /\
  (forall id, index_agrees (em (c_db c)) id -> index_agrees (em (c_db c')) id).
Proof.
  intros H. apply updatePlaylistTracks_rows in H as (d & Htr & Hpt & Hs & Hrows). rewrite Hs, Hpt. split_and!.
  - intros z. apply relisted_active.
  - intros id z. apply relisted_other.
  - intros id Hag row' Hr' Hc'. destruct (Hrows row' Hr') as (row & Hr & Hi & Hc & Hid). rewrite Hid, Hi, Hs, Hpt.
    rewrite Htr in Hr. rewrite Hc in Hc'. specialize (Hag row Hr Hc').
    case_decide as Heq; [subst id|by rewrite relisted_other].
    rewrite relisted_active, bool_decide_eq_true, Hag, member_active_in. unfold among. rewrite Hc', !andb_true_r.
    rewrite bool_decide_eq_true, bool_decide_eq_false, elem_of_app, rejoining_in, joining_in, leaving_in.
    set (t := playlist_tracks _). set (z := t_track_id row).
    destruct (decide (z ∈ extractPlaylistTrackIDs p)) as [Hu|Hu]; [|naive_solver].
    destruct (decide (z ∈ (members_of (p_EntityID p) t).*1)) as [Hin|Hout]; [|naive_solver].
    apply list_elem_of_fmap in Hin as ([w []] & Hz & Hm); simpl in Hz; subst w; naive_solver.
Qed.
End Membership.

(** ** Edits of a track *)

(** What later steps of an edit leave alone. *)
Definition core_columns (t : track_row) :=
  (t_track_id t, t_owner_id t, t_is_current t, t_is_delete t, t_text t, t_flags t, t_json t, t_created_at t).

Definition touched trackID (t t' : track_row) : Prop :=
  core_columns t' = core_columns t /\ (current_track trackID t = false -> t' = t).

(** What an edit keeps of a track: what it is and whose; the columns that say what its
    audio is, once they are set; and those no edit changes. *)
Record same_track (t t' : track_row) : Prop := {
  same_identity : (t_track_id t', t_owner_id t', t_is_current t', t_is_delete t', t_created_at t') =
                  (t_track_id t, t_owner_id t, t_is_current t, t_is_delete t, t_created_at t);
  same_content column : column ∈ content_texts -> is_Some (t_text t !! column) -> is_Some (t_text t' !! column);
  same_stem : is_Some (t_json t !! "stem_of") -> is_Some (t_json t' !! "stem_of");
  same_available : t_flags t' !! "is_available" = t_flags t !! "is_available";
  same_ddex : t_text t' !! "ddex_app" = t_text t !! "ddex_app"
}.

Section Edits.
Context {J : EtlLibs} {E : EtlSql}.
Implicit Types (p : Params) (trackID : Z) (column : string).

Lemma merge_text_ne p m l column :
  column ∉ l \/ MetadataJSON p column = None -> foldl (merge_text p) m l !! column = m !! column.
Proof.
  revert m. induction l as [|x l IH]; intros m H; simpl; [done|]. rewrite IH by set_solver. unfold merge_text.
  destruct (MetadataJSON p x) eqn:Hx; [|done]. assert (x <> column) by set_solver.
  unfold put_text. case_match; [by rewrite lookup_insert_ne|by rewrite lookup_delete_ne].
Qed.

Lemma merge_content_ne p m l column : column ∉ l -> foldl (merge_content p) m l !! column = m !! column.
Proof.
  revert m. induction l as [|x l IH]; intros m H; simpl; [done|]. rewrite IH by set_solver. unfold merge_content.
  case_match; [done|]. rewrite lookup_insert_ne; set_solver.
Qed.

Lemma merge_content_some p m l column : is_Some (m !! column) -> is_Some (foldl (merge_content p) m l !! column).
Proof.
  revert m. induction l as [|x l IH]; intros m H; simpl; [done|]. apply IH. unfold merge_content.
  case_match; [done|]. destruct (decide (x = column)) as [->|]; [rewrite lookup_insert_eq; eauto|by rewrite lookup_insert_ne].
Qed.

Lemma merge_key_ne p m column : column <> "musical_key" -> merge_key p m !! column = m !! column.
Proof. intros H. unfold merge_key. repeat case_match; try done; [by rewrite lookup_delete_ne|by rewrite lookup_insert_ne]. Qed.

Lemma merge_flag_ne p m l column :
  MetadataBool p column = None -> foldl (merge_flag p) m l !! column = m !! column.
Proof.
  intros H. revert m. induction l as [|x l IH]; intros m; simpl; [done|]. rewrite IH. unfold merge_flag.
  destruct (MetadataBool p x) eqn:Hx; [|done]. rewrite lookup_insert_ne; [done|congruence].
Qed.

Lemma merge_json_ne p m l column : column ∉ l -> foldl (merge_json p) m l !! column = m !! column.
Proof.
  revert m. induction l as [|x l IH]; intros m H; simpl; [done|]. rewrite IH by set_solver. unfold merge_json.
  case_match; [|done]. unfold put_opt. assert (x <> column) by set_solver.
  case_match; [by rewrite lookup_insert_ne|by rewrite lookup_delete_ne].
Qed.

Lemma MetadataJSON_stripped p immutable key :
  existsb (String.eqb key) immutable = true -> MetadataJSON (stripImmutableFields p immutable) key = None.
Proof.
  intros Hk. unfold MetadataJSON, stripImmutableFields. simpl. destruct (p_Metadata p) as [m|]; simpl; [|done].
  induction m as [|[k w] m IH]; simpl; [done|]. destruct (String.eqb_spec key k) as [<-|Hne].
  - by rewrite Hk.
  - case_match; simpl; [|done]. rewrite IH. by apply String.eqb_neq in Hne as ->.
Qed.

(** The merge of metadata without the immutable fields. *)
Lemma merged_same p base q :
  same_track base (set_columns (mergeTrackFromMetadata (stripImmutableFields p immutableTrackFields) base) q base).
Proof.
  set (p1 := stripImmutableFields p immutableTrackFields). unfold mergeTrackFromMetadata.
  split; cbn [t_text t_flags t_json set_columns with_columns].
  - done.
  - intros column Hc Hs.
    assert (column ∉ clearable_texts /\ column <> "musical_key") as [Hcl Hk].
    { unfold content_texts in Hc. rewrite !elem_of_cons, elem_of_nil in Hc.
      destruct Hc as [->|[->|[->|[->|[]]]]]; (split; [by apply (bool_decide_unpack _)|done]). }
    rewrite merge_key_ne by done. apply merge_content_some. by rewrite merge_text_ne by auto.
  - intros Hs. case_match; [rewrite lookup_insert_eq; eauto|]. rewrite merge_json_ne; [done|].
    by apply (bool_decide_unpack _).
  - rewrite merge_flag_ne; [done|]. unfold MetadataBool, p1. by rewrite MetadataJSON_stripped.
  - rewrite merge_key_ne by done. rewrite merge_content_ne by (by apply (bool_decide_unpack _)).
    rewrite merge_text_ne; [done|right]. unfold p1. by rewrite MetadataJSON_stripped.
Qed.

(** Steps that only touch the track. *)
Definition touches {A} trackID (m : proc conn etl_error A) : Prop :=
  forall c c' a, m c = (c', Ok a) -> Forall2 (touched trackID) (tracks (em (c_db c))) (tracks (em (c_db c'))).

Lemma current_core trackID t t' : core_columns t' = core_columns t -> current_track trackID t' = current_track trackID t.
Proof. unfold current_track. by intros [= -> _ -> _ _ _ _ _]. Qed.

Lemma touched_trans trackID l1 l2 l3 :
  Forall2 (touched trackID) l1 l2 -> Forall2 (touched trackID) l2 l3 -> Forall2 (touched trackID) l1 l3.
Proof.
  intros H12. revert l3. induction H12 as [|t1 t2 l1 l2 [Hc Hn] _ IH]; intros l3 H23; inversion H23 as [|? t3 ? ? [Hc' Hn'] Hl]; subst; constructor; [|auto].
  split; [congruence|]. intros Hf. rewrite Hn' by (by rewrite (current_core _ _ _ Hc)). auto.
Qed.

Lemma touches_bind {A B} trackID (m : proc conn etl_error A) (k : A -> proc conn etl_error B) :
  touches trackID m -> (forall a, touches trackID (k a)) -> touches trackID (pbind m k).
Proof. intros Hm Hk c c' b H. apply pbind_ok in H as (c1 & a & Ha & H). eapply touched_trans; [by eapply Hm|by eapply Hk]. Qed.

Lemma touches_keeps {A} trackID (m : proc conn etl_error A) : keeps (fun d => tracks (em d)) m -> touches trackID m.
Proof.
  intros Hm c c' a H. specialize (Hm c). rewrite H in Hm. simpl in Hm. rewrite Hm.
  by apply Forall2_same_length_lookup_2; [|intros i x y ? ?; simplify_eq].
Qed.

Lemma touches_update trackID f : (forall t, core_columns (f t) = core_columns t) -> touches trackID (update_tracks trackID f).
Proof.
  intros Hf c c' [] (d & [= <-] & -> & _)%exec_em_ok. simpl. unfold update_where.
  induction (tracks (em (c_db c))) as [|t l IH]; simpl; constructor; [|done]. unfold touched. by case_match; split.
Qed.

Ltac touches_steps :=
  repeat first [ progress cbv zeta | apply touches_bind; [|intros ?] | apply touches_update; reflexivity
               | solve [apply touches_keeps; keeps_steps] | case_match
               | match goal with |- touches _ ?m => unfold_head m end ].

(** The steps of an edit behind the UPDATE of the row. *)
Lemma updateTrack_later p (merged : track_row) (title_changed : bool) :
  touches (p_EntityID p)
    ((if has_key p "remix_of" then updateRemixesTable p else pret tt) ;;!
     updateStemsTable p ;;!
     (if has_key p "collaborators" then updateTrackCollaboratorsTable p (t_owner_id merged) else pret tt) ;;!
     updateTrackPriceHistory p ;;!
     applyAccessNormalization p ;;!
     (if title_changed then move_track_route p merged else pret tt) ;;!
     pret p).
Proof. touches_steps. Qed.

Lemma loadCurrentTrackRow_ok trackID c c' row :
  loadCurrentTrackRow trackID c = (c', Ok row) ->
  row ∈ tracks (em (c_db c)) /\ current_track trackID row = true /\ c_db c' = c_db c.
Proof.
  unfold loadCurrentTrackRow. intros [[Hin [Hc _]%andb_true_iff]%filter_in Hdb]%no_rows_ok%ask_row_ok. done.
Qed.

Lemma validateTrackUpdate_owner p :
  needs (fun d => exists row, row ∈ tracks d /\ current_track (p_EntityID p) row = true /\ t_owner_id row = p_UserID p) (validateTrackUpdate p).
Proof.
  unfold validateTrackUpdate. do 5 (apply needs_bind_r; [solve [quiet_steps]|intros _]). apply needs_bind_l.
  assert (Hsame : p_EntityID (normalize_genre p) = p_EntityID p /\ p_UserID (normalize_genre p) = p_UserID p)
    by (unfold normalize_genre; by case_match). destruct Hsame as [<- <-].
  unfold validate_track_owner. do 3 (apply needs_bind_r; [solve [quiet_steps]|intros ?]).
  intros c c' u H. apply pbind_ok in H as (c1 & row & (Hin & Hc & _)%loadCurrentTrackRow_ok & [Ho%negb_false_iff%Z.eqb_eq _]%reject_when_ok).
  eauto.
Qed.

Lemma updateTrackRow_rows p r c c' :
  updateTrackRow p r c = (c', Ok tt) ->
  tracks (em (c_db c')) = update_where (current_track (t_track_id r)) (set_columns r p) (tracks (em (c_db c))).
Proof.
  intros (d & Hd & -> & _)%exec_em_ok. unfold update_key in Hd. case_bool_decide; [|done]. by simplify_eq/=.
Qed.

Lemma Forall2_impl_in {A B} (P Q : A -> B -> Prop) l k :
  Forall2 P l k -> (forall x y, x ∈ l -> P x y -> Q x y) -> Forall2 Q l k.
Proof. induction 1 as [|x y l k Hxy _ IH]; intros HPQ; constructor; [apply HPQ; set_solver|]. apply IH. set_solver. Qed.

Lemma same_track_core t t1 t' : same_track t t1 -> core_columns t' = core_columns t1 -> same_track t t'.
Proof. intros [H1 H2 H3 H4 H5] [= E1 E2 E3 E4 E5 E6 E7 E8]. split; rewrite ?E1, ?E2, ?E3, ?E4, ?E5, ?E6, ?E7, ?E8; done. Qed.

(** An edit of a track keeps what the track is: when a Track Update is accepted, the
    track was the user's and stays theirs, under the same id; the columns that identify
    its audio -- the CIDs, the upload and the original file name -- and its place as a stem
    are never cleared, whatever the metadata holds; its availability and DDEX app do not
    change; and no other track is touched.  (One current row per track is assumed.) *)
Theorem track_update_keeps_the_track p c c' p' :
  trackUpdate p c = (c', Ok p') ->
  (forall t1 t2, t1 ∈ tracks (em (c_db c)) -> t2 ∈ tracks (em (c_db c)) ->
     current_track (p_EntityID p) t1 = true -> current_track (p_EntityID p) t2 = true -> t1 = t2) ->
  Forall2 (fun t t' => if current_track (p_EntityID p) t then t_owner_id t = p_UserID p /\ same_track t t' else t' = t)
    (tracks (em (c_db c))) (tracks (em (c_db c'))).
Proof.
  intros H Huniq. apply pbind_ok in H as (c1 & p1 & Hv & H).
  pose proof (validateTrackUpdate_owner p _ _ _ Hv) as (row & Hrow & Hcur & Howner).
  assert (Hq : quiet (validateTrackUpdate p)) by quiet_steps. specialize (Hq c). rewrite Hv in Hq. simpl in Hq.
  apply validateTrackUpdate_yields in Hv as ->.
  assert (Hid : p_EntityID (normalize_genre p) = p_EntityID p) by (unfold normalize_genre; by case_match).
  unfold updateTrack in H. apply pbind_ok in H as (c2 & base & (Hin & Hbc & Hq2)%loadCurrentTrackRow_ok & H).
  rewrite Hid in Hbc. cbv zeta in H. set (p2 := stripImmutableFields _ _) in H. apply pbind_ok in H as (c3 & [] & Hu & H).
  apply updateTrackRow_rows in Hu. apply updateTrack_later in H. change (p_EntityID p2) with (p_EntityID (normalize_genre p)) in H.
  rewrite Hid in H. rewrite Hq2, Hq in Hu. rewrite Hq in Hin. rewrite Hu in H.
  assert (Hbid : t_track_id (mergeTrackFromMetadata p2 base) = p_EntityID p)
    by (by apply andb_true_iff in Hbc as [?%Z.eqb_eq _]). rewrite Hbid in H.
  unfold update_where in H.
  match type of H with Forall2 _ (map ?f ?l) _ => apply (Forall2_fmap_l f _ l) in H end. cbv beta in H. eapply Forall2_impl_in; [exact H|].
  intros t t' Ht [Hcore Hsame]. destruct (current_track (p_EntityID p) t) eqn:Hct; [|auto].
  pose proof (Huniq t row Ht Hrow Hct Hcur) as <-. pose proof (Huniq base t Hin Ht Hbc Hct) as ->. split; [done|].
  eapply same_track_core; [apply merged_same|exact Hcore].
Qed.
End Edits.

(** ** A small catalogue *)

Module Shop.
Import EtlEx.

(** The metadata of a gated track with and without a price. *)
Definition gated (price : list (string * json)) : list (string * json) :=
  [ ("title", JStr "Song"); ("owner_id", json_int 1); ("is_stream_gated", JBool true); ("is_download_gated", JBool true);
    ("stream_conditions", JObj [("usdc_purchase", JObj (("splits", JArr [JObj []]) :: price))]);
    ("download_conditions", JObj [("usdc_purchase", JObj (("splits", JArr [JObj []]) :: price))]) ].

(** encoding/json on the one text the example uses. *)
#[export] Instance libs : EtlLibs :=
  {| etl_cpu := Amd64;
     etl_json_decode := fun s => if String.eqb s "gated" then Some (JObj (gated [])) else None;
     json_marshal := fun _ => "{}"; time_parse := fun _ _ => None; pg_timestamp := fun _ => None; jsonb_text := fun _ => "{}";
     hashids_Decode := fun _ => None; etl_crypto := Toy.crypto; accounts_TextHash := fun m => m;
     ed25519_Verify := fun _ _ _ => false |}.

Definition unpriced_block : etl_block :=
  mkEtlBlock "h1" 7 "p" 70
    [("m1", TxManageEntity (mkManageEntityLegacy 1 "Track" 2000001 "Create" "gated" "sig" "n" "0xA"))].

Definition remix_metadata : list (string * json) :=
  [ ("title", JStr "Remix"); ("owner_id", json_int 1);
    ("remix_of", JObj [("tracks", JArr [JObj [("parent_track_id", json_int 5)]])]) ].
Definition remix : Params := ex_params 1 2000001 "Track" "Create" "0xA" remix_metadata "t1".

(** A contest on another user's track, and a subscriber who left it. *)
Definition contest : event_row :=
  mkEventRow 3 "remix_contest" 2 (Some "track") (Some 5) (Some 100) None false 10 10 "tx" "bh" 1.
Definition contest_db (subs : list (social_row (Z * Z * string) Z)) : etl_db :=
  mkEtlDb (set_subscriptions subs (set_events [contest] (set_tracks [ex_track 5 2] ex_em))) ex_chain.
Definition left_contest : social_row (Z * Z * string) Z := mkSocialRow (1, 3, "Event") true true 3 10 "u" 1.

(** A playlist that lists one track of two, and an edit that lists the other. *)
Definition shop_db : etl_db :=
  mkEtlDb (set_tracks [set_playlist_index [9] ∅ 10 (ex_track 5 1); ex_track 6 1]
    (set_shelf (set_playlist_tracks [mkMemberRow 9 5 false 10 10] (shelf ex_em)) ex_em)) ex_chain.
Definition relist : Params :=
  ex_params 1 9 "Playlist" "Update" "0xA" [("playlist_contents", JArr [JObj [("track_id", json_int 6)]])] "t1".
Definition retitle : Params :=
  ex_params 1 6 "Track" "Update" "0xA" [("description", JStr "new"); ("track_cid", JNull); ("owner_id", json_int 2)] "t1".
End Shop.
Import EtlEx Shop.

Lemma playlist_rows_are_its_contents_witness :
  let c' := (updatePlaylistTracks relist (mkConn shop_db false 0)).1 in
  (updatePlaylistTracks relist (mkConn shop_db false 0)).2 = Ok tt /\
  member_active 9 6 (playlist_tracks (shelf (em (c_db c')))) = true /\
  member_active 9 5 (playlist_tracks (shelf (em (c_db c')))) = false.
Proof.
  intros c'. destruct (playlist_rows_are_its_contents relist (mkConn shop_db false 0) c') as (H & _ & _); [vm_compute; reflexivity|].
  split; [vm_compute; reflexivity|]. split; [refine (eq_trans (H 6) _)|refine (eq_trans (H 5) _)]; vm_compute; reflexivity.
Defined.

Lemma track_update_keeps_the_track_witness :
  let c' := (trackUpdate retitle (mkConn shop_db false 0)).1 in
  Forall2 (fun t t' => if current_track 6 t then t_owner_id t = 1 /\ same_track t t' else t' = t)
    (tracks (em shop_db)) (tracks (em (c_db c'))).
Proof.
  intros c'.
  refine (track_update_keeps_the_track retitle (mkConn shop_db false 0) c'
            (match (trackUpdate retitle (mkConn shop_db false 0)).2 with Ok p' => p' | Err _ => retitle end) _ _).
  - vm_compute. reflexivity.
  - intros t1 t2 H1 H2 C1 C2. simpl in H1, H2. rewrite !elem_of_cons, elem_of_nil in H1, H2.
    destruct H1 as [->|[->|[]]], H2 as [->|[->|[]]]; first [reflexivity | discriminate].
Defined.

(** A rejected track is left half written: the price of a gated track is read when
    its row and its relations are already there, so that a USDC condition without a price
    makes the handler reject a track it has inserted; the indexer takes a ValidationError
    for a rejection without effect and keeps the savepoint, and the block commits a current
    track that has no route, no price and no access keys. *)
Theorem rejected_track_is_half_written :
  exists db' r, processBlock (plain_indexer None "c") ok_env ok_env unpriced_block ex_db = Ok (db', r) /\
    (map (fun t => (t_track_id t, t_is_current t, t_is_delete t)) (tracks (em db')) = [(2000001, true, false)]) /\
    track_routes (shelf (em db')) = [] /\ track_price_history (shelf (em db')) = [] /\
    (Dispatch (live_dispatcher None) (ex_params 1 2000001 "Track" "Create" "0xA" (gated []) "m1") ex_conn).2 =
      Err (EtlValidation "usdc_purchase missing or non-int price").
Proof.
  destruct (processBlock (plain_indexer None "c") ok_env ok_env unpriced_block ex_db) as [[db' r]|] eqn:H;
    vm_compute in H; [|discriminate].
  exists db', r. injection H as <- <-. split; [reflexivity|]. vm_compute. split_and!; reflexivity.
Qed.

(** A remix by someone who left its contest cannot be indexed: the handler subscribes the
    author to the contest unless a subscription is in force; one that was undone is not,
    but its row is still the current one, so that the INSERT meets the unique index, the
    transaction fails, and the track is lost.  Without the old row it is accepted. *)
Theorem remix_after_leaving_a_contest_is_lost :
  (Dispatch (live_dispatcher None) remix (mkConn (contest_db []) false 0)).2 = Ok tt /\
  (Dispatch (live_dispatcher None) remix (mkConn (contest_db [left_contest]) false 0)).2 = Err ErrSql /\
  c_aborted (Dispatch (live_dispatcher None) remix (mkConn (contest_db [left_contest]) false 0)).1 = true.
Proof. vm_compute. split_and!; reflexivity. Qed.
