(* ===== verification/EtlWalletProps.v ===== *)
(** * The indexer: linked wallets

    A linked wallet has one owner and proved it; but the proof names no account, so that
    whoever has seen it can take the wallet over. *)

From stdpp Require Import base gmap strings list.
From Stdlib Require Import ZArith Lia Ascii.
From S2P Require Import Prelude AuthState Crypto EtlBase EtlDb EtlAccounts EtlSocial EtlComments EtlEvents EtlRegistry EtlSteps.
From S2P Require Import EtlRejections EtlProps EtlSigners EtlIndexer EtlIndexerProps EtlExamples.

Open Scope string_scope.
Open Scope Z_scope.

Section Links.
Context {J : EtlLibs} {E : EtlSql}.
Implicit Types (p q : Params) (wallet chain : string) (t : list associated_row).

Definition links (d : em_db) : list associated_row := associated_wallets (desk d).

(** The link a create adds. *)
Definition new_link p wallet chain (isDelete : bool) : associated_row :=
  mkAssociatedRow (p_UserID p) wallet chain true isDelete (p_BlockHash p) (p_BlockNumber p) (p_BlockTime p) (p_BlockTime p).

Lemma current_link_spec wallet chain r :
  current_link wallet chain r = true <-> aw_wallet r = wallet /\ aw_chain r = chain /\ aw_is_current r = true.
Proof. unfold current_link. rewrite !andb_true_iff, !String.eqb_eq. tauto. Qed.

(** Retiring rows of a wallet takes them from its current rows and from no other's. *)
Lemma retired_filter w ch wallet chain (cond : associated_row -> bool) (f : associated_row -> associated_row) t :
  (forall r, cond r = true -> current_link wallet chain r = true /\ aw_is_current (f r) = false) ->
  List.filter (current_link w ch) (update_where cond f t) =
  if decide ((w, ch) = (wallet, chain)) then List.filter (fun r => current_link w ch r && negb (cond r)) t
  else List.filter (current_link w ch) t.
Proof.
  intros Hf. induction t as [|r t IH]; simpl; [by case_decide|]. rewrite IH. clear IH. destruct (cond r) eqn:Hr.
  - destruct (Hf r Hr) as [Hc Hfr].
    assert (current_link w ch (f r) = false) as -> by (unfold current_link; by rewrite Hfr, andb_false_r).
    rewrite andb_false_r. case_decide as Hk; [done|].
    assert (current_link w ch r = false) as ->; [|done].
    apply not_true_iff_false. rewrite current_link_spec in *. naive_solver.
  - rewrite andb_true_r. by case_decide.
Qed.

Lemma insert_link_rows p wallet chain isDelete c c' w ch :
  insertAssociatedWalletWithState p wallet chain isDelete c = (c', Ok tt) ->
  List.filter (current_link w ch) (links (em (c_db c'))) =
  if decide ((w, ch) = (wallet, chain)) then [new_link p wallet chain isDelete] else List.filter (current_link w ch) (links (em (c_db c))).
Proof.
  unfold insertAssociatedWalletWithState, links. intros H. apply pbind_ok in H as (c1 & [] & (d1 & [= <-] & H1 & _)%exec_em_ok & H).
  apply pbind_ok in H as (c2 & [] & (d2 & [= <-] & H2 & _)%exec_em_ok & (d3 & [= <-] & H3 & _)%exec_em_ok).
  rewrite H3. simpl. rewrite H2, List.filter_app. simpl. rewrite H1. simpl. clear H1 H2 H3.
  assert (Hnew : current_link w ch (new_link p wallet chain isDelete) = bool_decide ((w, ch) = (wallet, chain))).
  { apply eq_true_iff_eq. rewrite current_link_spec, bool_decide_eq_true. simpl. split; [by intros (-> & -> & _)|by intros [= -> ->]]. }
  unfold new_link in Hnew. rewrite Hnew.
  rewrite (retired_filter w ch wallet chain) by (intros r [Hr _]%andb_true_iff; done). case_decide as Hk.
  - rewrite bool_decide_eq_true_2 by done. injection Hk as -> ->. unfold new_link.
    match goal with |- (?l ++ _)%list = _ => enough (l = []) as -> by done end.
    apply elem_of_nil_inv. intros x [(r & -> & _)%list_elem_of_fmap [Hx Hn%negb_true_iff]%andb_true_iff]%filter_in.
    destruct (current_link wallet chain r && negb (aw_user_id r =? p_UserID p)) eqn:Hr.
    + apply current_link_spec in Hx as (_ & _ & ?). done.
    + rewrite Hx in *. simpl in *. by destruct (aw_user_id r =? p_UserID p).
  - rewrite bool_decide_eq_false_2, app_nil_r by done. rewrite (retired_filter w ch wallet chain) by (intros r [Hr _]%andb_true_iff; done).
    by rewrite !decide_False by done.
Qed.

(** A linked wallet has one owner, who proved it: an accepted link was signed for by
    the account, and by the wallet itself, and leaves the wallet with exactly one current
    link on its chain, to that account and undeleted, whoever had it before; the links of
    other wallets are as they were. *)
Theorem linked_wallet_has_one_owner p c c' :
  associatedWalletCreate p c = (c', Ok tt) ->
  etl_authorized (em (c_db c)) (p_UserID p) (p_Signer p) /\
  verifyAssociatedWalletSignature p (associated_wallet p) (wallet_chain p) = Ok tt /\
  (wallet_chain p = "eth" \/ wallet_chain p = "sol") /\
  forall w ch, List.filter (current_link w ch) (links (em (c_db c'))) =
    if decide ((w, ch) = (associated_wallet p, wallet_chain p)) then [new_link p (associated_wallet p) (wallet_chain p) false]
    else List.filter (current_link w ch) (links (em (c_db c))).
Proof.
  intros H. apply pbind_ok in H as (c1 & [] & Hv & Hi).
  assert (Hq : quiet (validateAssociatedWalletCreate p (associated_wallet p) (wallet_chain p))) by quiet_steps.
  specialize (Hq c). rewrite Hv in Hq. simpl in Hq. unfold validateAssociatedWalletCreate in Hv.
  apply pbind_ok in Hv as (c2 & [] & Hs%ValidateSigner_ok & Hv). apply pbind_ok in Hv as (c3 & [] & Hshape & Hv).
  unfold check in Hshape, Hv. injection Hshape as _ Hshape. injection Hv as _ Hsig. split_and!; [done..| |].
  - unfold validateAssociatedWalletShape, invalid_if, guard_err in Hshape.
    destruct (String.eqb (associated_wallet p) ""); [done|]. destruct (String.eqb (wallet_chain p) ""); [done|]. simpl in Hshape.
    destruct (String.eqb_spec (wallet_chain p) "eth"); [by left|]. destruct (String.eqb_spec (wallet_chain p) "sol"); [by right|done].
  - intros w ch. unfold insertAssociatedWallet in Hi. apply (insert_link_rows _ _ _ _ _ _ w ch) in Hi. by rewrite Hi, Hq.
Qed.

(** ** The proof is anyone's *)

(** The wallet's signature is checked against the metadata alone. *)
Lemma proof_of_metadata p q :
  p_Metadata q = p_Metadata p ->
  associated_wallet q = associated_wallet p /\ wallet_chain q = wallet_chain p /\
  verifyAssociatedWalletSignature q (associated_wallet q) (wallet_chain q) =
  verifyAssociatedWalletSignature p (associated_wallet p) (wallet_chain p).
Proof.
  intros Hm. assert (Hj : forall key, MetadataJSON q key = MetadataJSON p key) by (intros key; unfold MetadataJSON; by rewrite Hm).
  assert (Hs : forall key, MetadataString q key = MetadataString p key) by (intros key; unfold MetadataString; by rewrite Hj).
  assert (Hw : associated_wallet q = associated_wallet p) by (unfold associated_wallet, wallet_chain; by rewrite !Hs).
  assert (Hc : wallet_chain q = wallet_chain p) by apply Hs.
  split_and!; [done..|]. rewrite Hw, Hc. unfold verifyAssociatedWalletSignature, extractSignature. by rewrite Hj.
Qed.

Definition alive {A} (m : proc conn etl_error A) : Prop := forall c, c_aborted c = false -> c_aborted (m c).1 = false.

Lemma alive_bind {A B} (m : proc conn etl_error A) (k : A -> proc conn etl_error B) :
  alive m -> (forall a, alive (k a)) -> alive (pbind m k).
Proof.
  intros Hm Hk c Hc. unfold pbind. specialize (Hm c Hc). destruct (m c) as [c1 [a|e]]; simpl in *; [by apply Hk|done].
Qed.
Lemma alive_ignore {A} (a : A) m : alive m -> alive (ignore a m).
Proof. intros Hm c Hc. specialize (Hm c Hc). unfold ignore. by destruct (m c) as [? []]. Qed.
Lemma alive_no_rows {A} msg (m : proc conn etl_error A) : alive m -> alive (no_rows msg m).
Proof. intros Hm c Hc. specialize (Hm c Hc). unfold no_rows. by destruct (m c) as [? [|[]]]. Qed.

Section Reliable.
Context (HE : reliable E).

Lemma alive_ask {A} (f : etl_db -> A) : alive (ask f).
Proof using HE. intros c Hc. by rewrite ask_reliable. Qed.
Lemma alive_ask_row {A} (f : etl_db -> list A) : alive (ask_row f).
Proof using HE. intros c Hc. unfold ask_row, statement. rewrite Hc, HE. done. Qed.

Lemma alive_ValidateSigner p : alive (ValidateSigner p).
Proof using HE.
  unfold ValidateSigner, validateSignerForUser, getUserWallet, getActiveGrant, developerAppExists, activeUserWalletExists.
  repeat first [apply alive_bind; [|intros ?] | apply alive_ignore | apply alive_no_rows | apply alive_ask | apply alive_ask_row | by intros ? ?
               | case_match].
Qed.

Lemma exec_em_reliable f d c :
  c_aborted c = false -> f (em (c_db c)) = Some d ->
  exec_em f c = (mkConn (mkEtlDb d (chain (c_db c))) false (S (c_clock c)), Ok tt).
Proof using HE. intros Hc Hf. unfold exec_em, exec, statement. by rewrite Hc, HE, Hf. Qed.

(** A proof of ownership of a wallet can be used by anyone who has seen it: once a
    link was accepted, the same metadata -- it is in the transaction -- is accepted from
    any other account that signs for itself, at any later time, and the wallet is then
    that account's: the signed message is not tied to the account, the chain or a nonce. *)
Theorem wallet_proof_can_be_replayed p q c c' c1 :
  associatedWalletCreate p c = (c', Ok tt) ->
  p_Metadata q = p_Metadata p ->
  c_aborted c1 = false -> (ValidateSigner q c1).2 = Ok tt ->
  exists c2, associatedWalletCreate q c1 = (c2, Ok tt) /\
    List.filter (current_link (associated_wallet p) (wallet_chain p)) (links (em (c_db c2))) =
      [new_link q (associated_wallet p) (wallet_chain p) false].
Proof using HE.
  intros H Hm Hc1 Hs. destruct (proof_of_metadata p q Hm) as (Hw & Hch & Hv). rewrite <- Hw, <- Hch.
  apply pbind_ok in H as (c3 & [] & H & _). unfold validateAssociatedWalletCreate in H. apply pbind_ok in H as (c4 & [] & _ & H).
  apply pbind_ok in H as (c5 & [] & Hshape & H). unfold check in Hshape, H. injection Hshape as _ Hshape. injection H as _ Hsig.
  rewrite <- Hw, <- Hch in Hshape. rewrite <- Hv in Hsig.
  assert (Hok : exists c2, associatedWalletCreate q c1 = (c2, Ok tt)).
  { pose proof (alive_ValidateSigner q c1 Hc1) as Ha. unfold associatedWalletCreate, validateAssociatedWalletCreate, pbind at 1 2.
    destruct (ValidateSigner q c1) as [c6 r]. simpl in Hs, Ha. subst r. unfold pbind at 1, check at 1. rewrite Hshape.
    unfold check. rewrite Hsig. unfold insertAssociatedWallet, insertAssociatedWalletWithState, pbind.
    do 3 (erewrite exec_em_reliable by done). eauto. }
  destruct Hok as [c2 Hok]. exists c2. split; [done|]. apply pbind_ok in Hok as (c6 & [] & _ & Hi).
  unfold insertAssociatedWallet in Hi. apply (insert_link_rows _ _ _ _ _ _ (associated_wallet q) (wallet_chain q)) in Hi.
  by rewrite decide_True in Hi.
Qed.
End Reliable.
End Links.

Import EtlEx.

(** ** A wallet that changes hands *)

(** Its link, signed by the wallet's key and sent by an account. *)
Definition link_metadata : list (string * json) :=
  [ ("wallet", JStr "0x41"); ("chain", JStr "eth");
    ("wallet_signature", JObj [("message", JStr "mine"); ("signature", JStr (hex_encode (Toy.repeat_byte 64 "A"%char (String Ascii.zero ""))))]) ].
Definition link_wallet (uid : Z) (signer : string) : Params :=
  ex_params uid 0 "AssociatedWallet" "Create" signer link_metadata "t1".

Lemma linked_wallet_has_one_owner_witness :
  (associatedWalletCreate (link_wallet 1 "0xA") ex_conn).2 = Ok tt /\
  List.filter (current_link "0x41" "eth") (links (em (c_db (associatedWalletCreate (link_wallet 1 "0xA") ex_conn).1))) =
    [new_link (link_wallet 1 "0xA") "0x41" "eth" false].
Proof.
  split; [vm_compute; reflexivity|].
  destruct (linked_wallet_has_one_owner (link_wallet 1 "0xA") ex_conn (associatedWalletCreate (link_wallet 1 "0xA") ex_conn).1)
    as (_ & _ & _ & H); [vm_compute; reflexivity|]. exact (H "0x41" "eth").
Defined.

Lemma wallet_proof_can_be_replayed_witness :
  let c' := (associatedWalletCreate (link_wallet 1 "0xA") ex_conn).1 in
  exists c2, associatedWalletCreate (link_wallet 2 "0xB") c' = (c2, Ok tt) /\
    List.filter (current_link "0x41" "eth") (links (em (c_db c2))) = [new_link (link_wallet 2 "0xB") "0x41" "eth" false].
Proof.
  refine (wallet_proof_can_be_replayed (fun _ => eq_refl) (link_wallet 1 "0xA") (link_wallet 2 "0xB") ex_conn _ _ _ eq_refl _ _);
    vm_compute; reflexivity.
Defined.

(** The zero key of Solana, thirty-two ones, is decoded to one byte too many, so that an
    address of zeros is never accepted as a public key. *)
Example all_ones_has_a_byte_too_many :
  String.length <$> base58Decode "11111111111111111111111111111111" = Some 33%nat.
Proof. vm_compute. reflexivity. Qed.
