(* ===== verification/MediaStore.v ===== *)
(** * Blobs of a storage node

    Models pkg/mediorum/cidutil/cidutil.go (keys of content identifiers),
    server/placement.go and server/bucket_select.go (which node, and which bucket of
    a node, holds a CID), the local part of server/replicate.go (writing, dropping
    and moving blobs, free disk space), and the records a node keeps of what it
    holds: the knownPresent cache and server/blob_presence_store.go. *)

From stdpp Require Import base gmap strings list sorting fin_maps countable.
From Stdlib Require Import ZArith Lia Ascii.
From S2P Require Import Prelude Crypto Rendezvous Snapshots.

Open Scope string_scope.
Open Scope Z_scope.

Definition media_second : Z := 10 ^ 9.
Definition media_hour : Z := 3600 * media_second.
Definition media_day : Z := 24 * media_hour.

(** ** Paths and content identifiers *)

(** strings.Split(s, "/"). *)
Fixpoint path_segments (s : string) : list string :=
  match s with
  | EmptyString => [""]
  | String c s' =>
      if Ascii.eqb c "/" then "" :: path_segments s'
      else match path_segments s' with
           | seg :: rest => String c seg :: rest
           | [] => [String c ""]
           end
  end.

(** The elements filepath.Clean keeps, the last one first. *)
Fixpoint clean_segments (rooted : bool) (segs out : list string) : list string :=
  match segs with
  | [] => out
  | seg :: segs' =>
      clean_segments rooted segs'
        (if String.eqb seg "" || String.eqb seg "." then out
         else if String.eqb seg ".." then
           match out with
           | top :: out' => if String.eqb top ".." then seg :: out else out'
           | [] => if rooted then [] else [seg]
           end
         else seg :: out)
  end.

Definition path_clean (s : string) : string :=
  let rooted := HasPrefix "/" s in
  let body := String.concat "/" (reverse (clean_segments rooted (path_segments s) [])) in
  if rooted then "/" +:+ body else if String.eqb body "" then "." else body.

(** filepath.Join: the elements that are not empty, separated and cleaned. *)
Definition path_join (elems : list string) : string :=
  match List.filter (fun s => negb (String.eqb s "")) elems with
  | [] => ""
  | elems' => path_clean (String.concat "/" elems')
  end.

(** filepath.Dir of a clean path: everything before its last "/", "." without one. *)
Fixpoint dir_of (s : string) : option string :=
  match s with
  | EmptyString => None
  | String c s' =>
      match dir_of s' with
      | Some d => Some (String c d)
      | None => if Ascii.eqb c "/" then Some "" else None
      end
  end.
Definition path_dir (s : string) : string := default "." (dir_of s).

Definition IsLegacyCID (cid : string) : bool := HasPrefix "Qm" cid.
Definition IsLegacyCIDStrict (cid : string) : bool := IsLegacyCID cid && (String.length cid =? 46)%nat.

(** [s[i:j]], which panics ([None]) when the indices are out of range. *)
Definition str_slice (i j : Z) (s : string) : option string :=
  if (i <? 0) || (j <? i) || (Z.of_nat (String.length s) <? j) then None
  else Some (String.substring (Z.to_nat i) (Z.to_nat (j - i)) s).

Definition shardLegacyCID (cid : string) : option string :=
  let n := Z.of_nat (String.length cid) in
  shard ← str_slice (n - 4) (n - 1) cid; Some (path_join [shard; cid]).

Definition shardCIDV1 (cid : string) : option string :=
  let n := Z.of_nat (String.length cid) in
  shard ← str_slice (n - 5) n cid; Some (path_join [shard; cid]).

Definition ShardCID (cidStr : string) : option string :=
  if IsLegacyCIDStrict cidStr then shardLegacyCID cidStr
  else if HasPrefix "ba" cidStr then shardCIDV1 cidStr
  else Some cidStr.

Definition ImageVariantPath (id variant : string) : option string :=
  shard ← ShardCID id; Some (path_join ["img"; shard; variant]).

(** ** The node *)

(** The two buckets; whether there is an archive is part of the server. *)
Inductive bucket := Primary | Archive.
#[export] Instance bucket_eq_dec : EqDecision bucket.
Proof. solve_decision. Defined.
#[export] Instance bucket_countable : Countable bucket :=
  inj_countable' (fun b => match b with Primary => true | Archive => false end)
                 (fun x => if x then Primary else Archive) ltac:(by intros []).

(** The part of MediorumConfig read here. *)
Record MediorumConfig := mkMediorumConfig {
  Self_Host : string;
  ReplicationFactor : Z;
  StoreAll : bool;
  StoreRecent : bool;
  StoreRecentTTL : Z;
  Env : string;
  BlobStoreDSN : string;
  ArchiveBlobStoreDSN : string;
  PresenceStoreEnabled : bool
}.

(** [archiveBucket] and [pgPool] say whether the pointer is not nil. *)
Record MediorumServer := mkMediorumServer {
  Config : MediorumConfig;
  archiveBucket : bool;
  pgPool : bool;
  rendezvousHasher : RendezvousHasher
}.

(** An object: its bytes and when they were written. *)
Record blob := mkBlob { content : string; ModTime : Z }.
Definition blob_size (b : blob) : Z := Z.of_nat (String.length (content b)).

(** A row of blob_presence, keyed by the label of the bucket and the key. *)
Record BlobPresence := mkBlobPresence { bp_Size : Z; bp_ModTime : Z }.
(** A row of blob_presence_state, keyed by the label of the bucket. *)
Record BlobPresenceState := mkBlobPresenceState { WalkedAt : Z; Entries : Z }.

(** What a node keeps about its blobs: the buckets, the files a file:// bucket holds
    besides (no key of a blob ends in .tmp), the cache of blobs known to be there
    and the tables of the presence store. *)
Record media := mkMedia {
  blobs : gmap (bucket * string) blob;
  files : gmap (bucket * string) blob;
  knownPresent : gmap string Z;
  blob_presence : gmap (string * string) BlobPresence;
  blob_presence_state : gmap string BlobPresenceState
}.
Definition set_blobs f (m : media) : media :=
  mkMedia (f (blobs m)) (files m) (knownPresent m) (blob_presence m) (blob_presence_state m).
Definition set_files f (m : media) : media :=
  mkMedia (blobs m) (f (files m)) (knownPresent m) (blob_presence m) (blob_presence_state m).
Definition set_knownPresent f (m : media) : media :=
  mkMedia (blobs m) (files m) (f (knownPresent m)) (blob_presence m) (blob_presence_state m).
Definition set_presence f (m : media) : media :=
  mkMedia (blobs m) (files m) (knownPresent m) (f (blob_presence m)) (blob_presence_state m).
Definition set_walked f (m : media) : media :=
  mkMedia (blobs m) (files m) (knownPresent m) (blob_presence m) (f (blob_presence_state m)).

(** What the storage driver, the file system and the database are asked to do. *)
Inductive media_io :=
| IoAttributes (b : bucket) (key : string)
| IoExists (b : bucket) (key : string)
| IoNewReader (b : bucket) (key : string)
| IoBody (b : bucket) (key : string)
| IoNewWriter (b : bucket) (key : string)
| IoDelete (b : bucket) (key : string)
| IoList (b : bucket)
| IoRoot (b : bucket)
| IoReadDir (b : bucket) (dir : string)
| IoStat (b : bucket) (path : string)
| IoRemove (b : bucket) (path : string)
| SqlPresence (label : string)
| SqlWalked (label : string)
| SqlLive (label : string)
| SqlBatch
| SqlLoss (cid : string)
| SqlReschedule (cid : string)
| SqlDeclare (cid : string)
| SqlFailing
| SqlSkips
| SqlUploads
| SqlPreviews
| SqlQm
| SqlTracker
| SqlLastRun
| SqlPrune (cid : string)
| IoStaging (cid : string)
| SqlMissed
| SqlRow (id : string)
| SqlUpdateRow (id : string).

(** The answer of a writer's Close: what was written is stored, or an error that may
    come after it was stored. *)
Inductive close_result := Closed | CloseFailed (stored : bool).

(** The part of an uploads row read here; [None] is the zero time. *)
Record Upload := mkUpload {
  ID : string;
  Template : string;
  OrigFileCID : string;
  PlacementHosts : list string;
  TranscodeResults : gmap string string;
  CreatedAt : option Z
}.
Record AudioPreview := mkAudioPreview { ap_CID : string; ap_CreatedAt : option Z }.

(** The part of a peer's health read here. *)
Record PeerHealth := mkPeerHealth { ph_StoreAll : bool; LastHealthy : Z }.

(** The rest of the world while an operation runs: the clock, whether the context is
    cancelled, which requests fail
    (with an error other than NotFound), after how many bytes a write fails, the
    answer of Close ([complete] when the copy before it ended without an error), free
    bytes of a directory and as last measured, and what a peer answers to a request
    for a blob: an error, or a body that ends ([true]) or breaks off; then the health
    of the peers and the replicated tables a node reads. *)
Record world := mkWorld {
  now : Z;
  ctx_done : bool;
  io_fault : media_io -> bool;
  io_short : bucket -> string -> option nat;
  io_close : bucket -> string -> bool -> close_result;
  statfs : string -> option Z;
  diskFree : Z * Z;
  fetch : string -> string -> option (string * bool);
  peerHealths : gmap string PeerHealth;
  uploads : list Upload;
  audio_previews : list AudioPreview;
  qm_cids : list string
}.

Inductive media_error :=
| MPanic
| MCanceled
| MNotFound
| MErr (msg : string).

Definition from_panic {S A} (o : option A) : proc S media_error A :=
  match o with Some a => pret a | None => pfail MPanic end.

Section Media.
Context (sha256 : string -> string).
(** url.Parse: the host and the path. *)
Context (url_parse : string -> option (string * string)).
Context (ss : MediorumServer) (w : world).

Notation Rank key := (Rank sha256 (rendezvousHasher ss) key).

(** ** Placement *)

(** slices.Index: -1 when absent. *)
Fixpoint index_from (i : Z) (l : list string) (x : string) : Z :=
  match l with
  | [] => -1
  | y :: l' => if String.eqb y x then i else index_from (i + 1) l' x
  end.
Definition slices_Index (l : list string) (x : string) : Z := index_from 0 l x.

Definition rendezvousAllHosts (key : string) : list string * bool :=
  let orderedHosts := Rank key in
  let myRank := slices_Index orderedHosts (Self_Host (Config ss)) in
  let isMine := (0 <=? myRank) && (myRank <? ReplicationFactor (Config ss)) in
  (orderedHosts, isMine || StoreAll (Config ss)).

Definition bucketForCID (cid : string) (placementHosts : list string) : bucket :=
  if negb (archiveBucket ss) then Primary
  else if negb (StoreAll (Config ss)) then Primary
  else if bool_decide (placementHosts <> []) then Primary
  else
    let orderedHosts := Rank cid in
    let myRank := slices_Index orderedHosts (Self_Host (Config ss)) in
    if (myRank <? 0) || (myRank <? ReplicationFactor (Config ss)) then Primary else Archive.

Definition otherBucket (b : bucket) : option bucket :=
  if negb (archiveBucket ss) then None
  else match b with Archive => Some Primary | Primary => Some Archive end.

Definition isArchiveCID (cid : string) (placementHosts : list string) : bool :=
  archiveBucket ss && bool_decide (bucketForCID cid placementHosts = Archive).

Definition presenceCacheKey (key : string) (b : bucket) : string :=
  match b with Archive => "a:" +:+ key | Primary => "p:" +:+ key end.

(** ** Reading *)

Definition Attributes (b : bucket) (key : string) (m : media) : res media_error blob :=
  if io_fault w (IoAttributes b key) then Err (MErr "attributes")
  else match blobs m !! (b, key) with Some x => Ok x | None => Err MNotFound end.

Definition NewReader (b : bucket) (key : string) (m : media) : res media_error blob :=
  if io_fault w (IoNewReader b key) then Err (MErr "reader")
  else match blobs m !! (b, key) with Some x => Ok x | None => Err MNotFound end.

(** The boolean Exists returns, false beside an error. *)
Definition Exists (b : bucket) (key : string) (m : media) : bool :=
  negb (io_fault w (IoExists b key)) && bool_decide (is_Some (blobs m !! (b, key))).

(** blobAttrs and readBlob: the primary first, the archive when the primary has not
    found it. *)
Definition hot_first (get : bucket -> res media_error blob) : res media_error (blob * bucket) :=
  match get Primary with
  | Ok x => Ok (x, Primary)
  | Err MNotFound =>
      if negb (archiveBucket ss) then Err MNotFound
      else match get Archive with
           | Ok x => Ok (x, Archive)
           | Err e => Err e
           end
  | Err e => Err e
  end.
Definition blobAttrs (key : string) (m : media) : res media_error (blob * bucket) :=
  hot_first (fun b => Attributes b key m).
Definition readBlob (key : string) (m : media) : res media_error (blob * bucket) :=
  hot_first (fun b => NewReader b key m).

Definition blobExists (key : string) (m : media) : bool :=
  Exists Primary key m || (archiveBucket ss && Exists Archive key m).

(** ** The presence store *)

Definition bucketLabel (b : bucket) : string :=
  match b with Archive => "archive" | Primary => "primary" end.

Definition bucketForLabel (label : string) : option bucket :=
  if String.eqb label "archive" then (if archiveBucket ss then Some Archive else None) else Some Primary.

Definition bucketDSN (b : bucket) : string :=
  match b with Archive => ArchiveBlobStoreDSN (Config ss) | Primary => BlobStoreDSN (Config ss) end.

Definition fileBucketDir (dsn : string) : option string :=
  if negb (HasPrefix "file://" dsn) then None
  else match url_parse dsn with
       | None => None
       | Some (host, path) =>
           let path := if String.eqb host "." then TrimPrefix "/" path else path in
           if String.eqb path "" then None else Some path
       end.

Definition presenceStoreEnabled (b : bucket) : bool :=
  pgPool ss && PresenceStoreEnabled (Config ss) && bool_decide (is_Some (fileBucketDir (bucketDSN b))).

Definition recordBlobPresent (b : bucket) (key : string) (size : Z) (m : media) : media :=
  if negb (presenceStoreEnabled b) then m
  else if io_fault w (SqlPresence (bucketLabel b)) then m
  else set_presence <[(bucketLabel b, key) := mkBlobPresence size (now w)]> m.

Definition forgetBlobPresent (b : bucket) (key : string) (m : media) : media :=
  if negb (presenceStoreEnabled b) then m
  else if io_fault w (SqlPresence (bucketLabel b)) then m
  else set_presence (delete (bucketLabel b, key)) m.

(** ** Orphaned temporary files *)

Definition DefaultStaleTempFileAge : Z := media_hour.

(** [strings.Split(s, "?")[0]]. *)
Fixpoint before_query (s : string) : string :=
  match s with
  | EmptyString => ""
  | String c s' => if Ascii.eqb c "?" then "" else String c (before_query s')
  end.

(** persistence.FileDirFromDSN. *)
Definition FileDirFromDSN (dsn : string) : option string :=
  if HasPrefix "file://" dsn then
    let path := before_query (str_drop 7 dsn) in
    if String.eqb path "" then None else Some path
  else None.

(** A temporary file is removed when it is old and can be examined and removed. *)
Definition stale_temp (b : bucket) (path : string) (mtime : Z) : bool :=
  HasSuffix ".tmp" path && negb (io_fault w (IoStat b path)) &&
  (mtime <=? now w - DefaultStaleTempFileAge).

Definition cleanupStaleTempsNearKey (b : bucket) (key : string) (m : media) : media :=
  match FileDirFromDSN (bucketDSN b) with
  | None => m
  | Some _ =>
      let dir := path_dir key in
      if io_fault w (IoReadDir b dir) then m
      else set_files (filter (fun '((b', path), f) =>
             ~ (b' = b /\ path_dir path = dir /\ stale_temp b path (ModTime f) = true /\
                io_fault w (IoRemove b path) = false))) m
  end.

(** ** Writing *)

(** What io.Copy passes on to a writer of [key] and whether it ends without an
    error. *)
Definition io_copy (b : bucket) (key : string) (src : string * bool) : string * bool :=
  match io_short w b key with
  | Some n => if (n <? String.length src.1)%nat then (str_take n src.1, false) else src
  | None => src
  end.

Definition store_blob (b : bucket) (key bytes : string) (m : media) : media :=
  set_blobs <[(b, key) := mkBlob bytes (now w)]> m.

(** NewWriter, io.Copy and Close; after a failed copy the writer is closed all the
    same. *)
Definition write_blob (b : bucket) (key : string) (src : string * bool) : proc media media_error Z :=
  fun m =>
    if io_fault w (IoNewWriter b key) then (m, Err (MErr "writer"))
    else
      let '(bytes, complete) := io_copy b key src in
      match io_close w b key complete with
      | Closed => (store_blob b key bytes m,
                   if complete then Ok (Z.of_nat (String.length bytes)) else Err (MErr "copy"))
      | CloseFailed stored =>
          (if stored then store_blob b key bytes m else m,
           Err (MErr (if complete then "close" else "copy")))
      end.

Definition replicateToMyBucket (fileName : string) (file : string * bool) (placementHosts : list string) : proc media media_error unit :=
  let! key := from_panic (ShardCID fileName) in
  let b := bucketForCID fileName placementHosts in
  let! n := write_blob b key file in
  fun m =>
    let m := set_knownPresent <[presenceCacheKey key b := n]> m in
    let m := recordBlobPresent b key n m in
    (cleanupStaleTempsNearKey b key m, Ok tt).

(** Bucket.Delete: whether it succeeded or had nothing to delete. *)
Definition bucket_delete (b : bucket) (key : string) (m : media) : media * res media_error unit :=
  if io_fault w (IoDelete b key) then (m, Err (MErr "delete"))
  else match blobs m !! (b, key) with
       | Some _ => (set_blobs (delete (b, key)) m, Ok tt)
       | None => (m, Err MNotFound)
       end.

(** The closure of dropFromMyBucket. *)
Definition deleteFrom (key : string) (b : bucket) (m : media) : media :=
  match bucket_delete b key m with
  | (m', Ok _) | (m', Err MNotFound) =>
      forgetBlobPresent b key (set_knownPresent (delete (presenceCacheKey key b)) m')
  | (m', Err _) => m'
  end.

Definition dropFromMyBucket (fileName : string) : proc media media_error unit :=
  let! key := from_panic (ShardCID fileName) in
  fun m =>
    let m := deleteFrom key Primary m in
    ((if archiveBucket ss then deleteFrom key Archive m else m), Ok tt).

Definition dropFromBucket (b : bucket) (key : string) : proc media media_error unit :=
  fun m =>
    match bucket_delete b key m with
    | (m', Ok _) | (m', Err MNotFound) => (set_knownPresent (delete (presenceCacheKey key b)) m', Ok tt)
    | (m', Err e) => (m', Err e)
    end.

Definition relocateBetweenBuckets (key : string) (dst src : bucket) : proc media media_error Z :=
  let! r := query (NewReader src key) in
  let! n := write_blob dst key (content r, negb (io_fault w (IoBody src key))) in
  fun m =>
    let m := set_knownPresent <[presenceCacheKey key dst := n]> m in
    ((dropFromBucket src key m).1, Ok n).

Definition haveInMyBucket (fileName : string) (m : media) : res media_error bool :=
  match ShardCID fileName with
  | None => Err MPanic
  | Some key => Ok (blobExists key m)
  end.

Definition pullFileFromHost (host cid : string) (placementHosts : list string) : proc media media_error unit :=
  if String.eqb host (Self_Host (Config ss)) then pfail (MErr "should not pull blob from self")
  else match fetch w host cid with
       | None => pfail (MErr "fetch")
       | Some body => replicateToMyBucket cid body placementHosts
       end.

(** ** Free disk space *)

(** More than 10 GB; [free] is a uint64. *)
Definition enough_free (free : Z) : bool := 10 <? free / 10 ^ 9.

(** The DSN has the prefix, so strings.Cut finds its separator. *)
Definition dsnHasSpace (dsn : string) (fallbackFreeBytes : Z) : bool :=
  if negb (HasPrefix "file://" dsn) then true
  else match statfs w (before_query (str_drop 7 dsn)) with
       | None => enough_free fallbackFreeBytes
       | Some free => enough_free free
       end.

Definition diskHasSpace : bool :=
  if negb (String.eqb (Env (Config ss)) "prod") then true
  else
    let '(primaryFree, archiveFree) := diskFree w in
    if negb (dsnHasSpace (BlobStoreDSN (Config ss)) primaryFree) then false
    else if archiveBucket ss && StoreAll (Config ss) then dsnHasSpace (ArchiveBlobStoreDSN (Config ss)) archiveFree
    else true.

Definition diskHasSpaceForCID (cid : string) (placementHosts : list string) : bool :=
  if negb (String.eqb (Env (Config ss)) "prod") then true
  else
    let '(primaryFree, archiveFree) := diskFree w in
    if archiveBucket ss && bool_decide (bucketForCID cid placementHosts = Archive)
    then dsnHasSpace (ArchiveBlobStoreDSN (Config ss)) archiveFree
    else dsnHasSpace (BlobStoreDSN (Config ss)) primaryFree.
End Media.
