(* ===== verification/MediaPresence.v ===== *)
(** * Which blobs a node holds

    Models pkg/mediorum/server/repair_presence_index.go (the index a repair cycle
    builds by listing its buckets) and the rest of blob_presence_store.go (the same
    index, read per batch from the database), and the peers a pull may fall back to
    (peer_health.go). *)

From stdpp Require Import base gmap strings list sorting fin_maps.
From Stdlib Require Import ZArith Lia Ascii.
From S2P Require Import Prelude Crypto Rendezvous Snapshots MediaStore.

Open Scope string_scope.
Open Scope Z_scope.

Record presenceEntry := mkPresenceEntry { pe_Size : Z; pe_ModTime : Z }.

Definition repairPresenceIndex : Type := gmap (string * bucket) presenceEntry.

Definition index_add (key : string) (b : bucket) (e : presenceEntry) (idx : repairPresenceIndex) : repairPresenceIndex :=
  <[(key, b) := e]> idx.

Definition dropBucket (b : bucket) (idx : repairPresenceIndex) : repairPresenceIndex :=
  filter (fun '((_, b'), _) => b' <> b) idx.

Definition Lookup (idx : repairPresenceIndex) (key : string) (wantBucket : bucket) : option presenceEntry :=
  idx !! (key, wantBucket).

Definition entry_of (x : blob) : presenceEntry := mkPresenceEntry (blob_size x) (ModTime x).

(** What a bucket holds, by key. *)
Definition bucket_entries (b : bucket) (objs : gmap (bucket * string) blob) : list (string * blob) :=
  omap (fun '((b', key), x) => if bool_decide (b' = b) then Some (key, x) else None) (map_to_list objs).

Section Presence.
Context (sha256 : string -> string).
Context (url_parse : string -> option (string * string)).
Context (ss : MediorumServer) (w : world).

Definition blobPresentIn (idx : option repairPresenceIndex) (b : option bucket) (key : string) (m : media) : bool :=
  match b with
  | None => false
  | Some b =>
      match idx with
      | Some idx => bool_decide (is_Some (Lookup idx key b))
      | None => Exists w b key m
      end
  end.

(** ** Listing *)

Definition listIntoIndex (b : bucket) (idx : repairPresenceIndex) (m : media) : res media_error repairPresenceIndex :=
  if io_fault w (IoList b) then Err (MErr "list")
  else Ok (foldl (fun idx '(key, x) => index_add key b (entry_of x) idx) idx (bucket_entries b (blobs m))).

Definition fileblobAttrsExt : string := ".attrs".
Definition fileblobEscapeMarker : string := "__0x".

(** The callback of the walk, over the files in the order they are met; true when a
    path is escaped, which ends the walk. *)
Fixpoint walk_entries (b : bucket) (entries : list (string * blob)) (idx : repairPresenceIndex) : bool * repairPresenceIndex :=
  match entries with
  | [] => (false, idx)
  | (path, x) :: es =>
      if HasSuffix fileblobAttrsExt path then walk_entries b es idx
      else if Contains path fileblobEscapeMarker then (true, idx)
      else if io_fault w (IoStat b path) then walk_entries b es idx
      else walk_entries b es (index_add path b (entry_of x) idx)
  end.

(** The files of a bucket: its blobs and what else lies in its directory. *)
Definition walkFileBucketSerial (b : bucket) (idx : repairPresenceIndex) (m : media) : res media_error (bool * repairPresenceIndex) :=
  if io_fault w (IoRoot b) then Err (MErr "blob dir is not readable")
  else if ctx_done w then Err MCanceled
  else Ok (walk_entries b (app (bucket_entries b (blobs m)) (bucket_entries b (files m))) idx).

(** One transaction: the rows of the bucket are those of the index. *)
Definition savePresenceStore (b : bucket) (idx : repairPresenceIndex) (m : media) : media :=
  let label := bucketLabel b in
  if io_fault w (SqlWalked label) then m
  else
    let keys := omap (fun '((key, b'), e) => if bool_decide (b' = b) then Some (key, e) else None) (map_to_list idx) in
    let kept := filter (fun '((label', _), _) => label' <> label) (blob_presence m) in
    let rows := foldl (fun t '(key, e) => <[(label, key) := mkBlobPresence (pe_Size e) (now w)]> t) kept keys in
    set_walked <[label := mkBlobPresenceState (now w) (Z.of_nat (length keys))]> (set_presence (fun _ => rows) m).

Definition listBucketIntoIndex (b : bucket) (idx : repairPresenceIndex) : proc media media_error repairPresenceIndex :=
  fun m =>
    match fileBucketDir url_parse (bucketDSN ss b) with
    | None => (m, listIntoIndex b idx m)
    | Some _ =>
        match walkFileBucketSerial b idx m with
        | Err e => (m, Err e)
        | Ok (false, idx') =>
            (if presenceStoreEnabled url_parse ss b then savePresenceStore b idx' m else m, Ok idx')
        | Ok (true, idx') => (m, listIntoIndex b (dropBucket b idx') m)
        end
    end.

Definition buildRepairPresenceIndex : proc media media_error repairPresenceIndex :=
  let! idx := listBucketIntoIndex Primary ∅ in
  if archiveBucket ss && StoreAll (Config ss) then listBucketIntoIndex Archive idx else pret idx.

(** ** Reading presence from the database *)

Definition repairBuckets : list bucket :=
  if archiveBucket ss && StoreAll (Config ss) then [Primary; Archive] else [Primary].

Definition presenceLivenessSample : nat := 64.

(** The rows of a query without an order: those of the map. *)
Definition sampled_keys (b : bucket) (m : media) : list string :=
  take presenceLivenessSample
    (omap (fun '((label, key), _) => if String.eqb label (bucketLabel b) then Some key else None)
       (map_to_list (blob_presence m))).

Definition file_missing (b : bucket) (m : media) (key : string) : bool :=
  io_fault w (IoStat b key) ||
  (bool_decide (blobs m !! (b, key) = None) && bool_decide (files m !! (b, key) = None)).

(** More than a quarter of the sample is missing. *)
Definition verifyPresenceStoreLiveness (b : bucket) (m : media) : res media_error unit :=
  if io_fault w (IoRoot b) then Err (MErr "presence store not ready: blob dir is not readable")
  else if io_fault w (SqlLive (bucketLabel b)) then Err (MErr "query")
  else
    let keys := sampled_keys b m in
    let missing := List.filter (file_missing b m) keys in
    if Z.of_nat (length keys) <? 4 * Z.of_nat (length missing)
    then Err (MErr "presence store not ready: sampled keys missing") else Ok tt.

Fixpoint stores_ready (bs : list bucket) (m : media) : res media_error unit :=
  match bs with
  | [] => Ok tt
  | b :: bs' =>
      if negb (presenceStoreEnabled url_parse ss b) then Err (MErr "presence store not ready: disabled")
      else if io_fault w (SqlWalked (bucketLabel b)) then Err (MErr "query")
      else match blob_presence_state m !! bucketLabel b with
           | None => Err (MErr "presence store not ready: never walked")
           | Some _ => let? _ := verifyPresenceStoreLiveness b m in stores_ready bs' m
           end
  end.
Definition presenceStoreReady (m : media) : res media_error unit := stores_ready repairBuckets m.

(** The keys of the CIDs that are not empty, without duplicates; a CID that cannot be
    sharded panics. *)
Fixpoint batch_keys (cids : list string) (keys : list string) : option (list string) :=
  match cids with
  | [] => Some keys
  | cid :: cids' =>
      if String.eqb cid "" then batch_keys cids' keys
      else key ← ShardCID cid;
           batch_keys cids' (if bool_decide (key ∈ keys) then keys else app keys [key])
  end.

Definition presence_rows (keys : list string) (m : media) : repairPresenceIndex :=
  foldl (fun idx '((label, key), r) =>
           if bool_decide (label ∈ ["primary"; "archive"]) && bool_decide (key ∈ keys)
           then match bucketForLabel ss label with
                | Some b => index_add key b (mkPresenceEntry (bp_Size r) (bp_ModTime r)) idx
                | None => idx
                end
           else idx) ∅ (map_to_list (blob_presence m)).

Definition presenceForCIDs (cids : list string) (m : media) : res media_error repairPresenceIndex :=
  match batch_keys cids [] with
  | None => Err MPanic
  | Some [] => Ok ∅
  | Some keys => if io_fault w SqlBatch then Err (MErr "query") else Ok (presence_rows keys m)
  end.

(** ** Peers *)

(** fnv.New32a over a string. *)
Fixpoint fnv32a (h : Z) (s : string) : Z :=
  match s with
  | EmptyString => h
  | String c s' => fnv32a (Z.lxor h (Z.of_N (N_of_ascii c)) * 16777619 mod 2 ^ 32) s'
  end.
Definition fnv_hash (s : string) : Z := fnv32a 2166136261 s.

Definition findStoreAllPeers (key : string) (aliveInLast limit : Z) : list string :=
  if limit <? 1 then []
  else
    let alive := omap (fun '(host, h) =>
        if String.eqb host (Self_Host (Config ss)) then None
        else if ph_StoreAll h && (now w - LastHealthy h <? aliveInLast) then Some host else None)
        (map_to_list (peerHealths w)) in
    let candidates := merge_sort String.le alive in
    let n := length candidates in
    let candidates :=
      if (1 <? n)%nat then
        let offset := Z.to_nat (fnv_hash key mod Z.of_nat n) in
        app (drop offset candidates) (take offset candidates)
      else candidates in
    take (Z.to_nat limit) candidates.

(** In no particular order. *)
Definition findHealthyPeers (aliveInLast : Z) : list string :=
  omap (fun '(host, h) => if now w - LastHealthy h <? aliveInLast then Some host else None)
    (map_to_list (peerHealths w)).
End Presence.
