(* ===== verification/MediaRepair.v ===== *)
(** * Repair

    Models pkg/mediorum/server/repair.go, repair_retention.go and
    repair_data_loss.go: a cycle visits every CID the node knows of, pulls what it
    should hold and lacks, removes what it should not hold, and banks the pulls that
    failed everywhere until they amount to a declared loss.  The workers of a batch
    are run one after another. *)

From stdpp Require Import base gmap strings list sorting fin_maps.
From Stdlib Require Import ZArith Lia Ascii.
From S2P Require Import Prelude Crypto Rendezvous Snapshots MediaStore MediaPresence.

Open Scope string_scope.
Open Scope Z_scope.

Definition uploadScanBatchSize : nat := 1000.
Definition pullAttemptMargin : Z := 4.
Definition storeAllFallbackHosts : Z := 2.
Definition abortContextCanceled : string := "CONTEXT_CANCELED".

(** ** The tracker of a cycle *)

Record seenKeyResult := mkSeenKeyResult { alreadyHave : bool; sk_size : Z }.

Record RepairTracker := mkRepairTracker {
  StartedAt : Z;
  UpdatedAt : Z;
  FinishedAt : option Z;
  CleanupMode : bool;
  CursorI : Z;
  CursorUploadID : string;
  CursorPreviewCID : string;
  CursorQmCID : string;
  Counters : gmap string Z;
  ContentSize : Z;
  AbortedReason : string;
  SeenKeys : gmap string seenKeyResult;
  PruneSkips : gset string;
  HealthyPeerCount : Z;
  FailingCIDs : gmap string Z
}.

Definition set_counters f (t : RepairTracker) : RepairTracker :=
  mkRepairTracker (StartedAt t) (UpdatedAt t) (FinishedAt t) (CleanupMode t) (CursorI t) (CursorUploadID t)
    (CursorPreviewCID t) (CursorQmCID t) (f (Counters t)) (ContentSize t) (AbortedReason t) (SeenKeys t)
    (PruneSkips t) (HealthyPeerCount t) (FailingCIDs t).
Definition add_size (n : Z) (t : RepairTracker) : RepairTracker :=
  mkRepairTracker (StartedAt t) (UpdatedAt t) (FinishedAt t) (CleanupMode t) (CursorI t) (CursorUploadID t)
    (CursorPreviewCID t) (CursorQmCID t) (Counters t) (wrap64 (ContentSize t + n)) (AbortedReason t) (SeenKeys t)
    (PruneSkips t) (HealthyPeerCount t) (FailingCIDs t).
Definition set_seen (key : string) (r : seenKeyResult) (t : RepairTracker) : RepairTracker :=
  mkRepairTracker (StartedAt t) (UpdatedAt t) (FinishedAt t) (CleanupMode t) (CursorI t) (CursorUploadID t)
    (CursorPreviewCID t) (CursorQmCID t) (Counters t) (ContentSize t) (AbortedReason t) (<[key := r]> (SeenKeys t))
    (PruneSkips t) (HealthyPeerCount t) (FailingCIDs t).
Definition set_aborted (why : string) (t : RepairTracker) : RepairTracker :=
  mkRepairTracker (StartedAt t) (UpdatedAt t) (FinishedAt t) (CleanupMode t) (CursorI t) (CursorUploadID t)
    (CursorPreviewCID t) (CursorQmCID t) (Counters t) (ContentSize t) why (SeenKeys t)
    (PruneSkips t) (HealthyPeerCount t) (FailingCIDs t).
Definition set_finished (fin : Z) (t : RepairTracker) : RepairTracker :=
  mkRepairTracker (StartedAt t) (UpdatedAt t) (Some fin) (CleanupMode t) (CursorI t) (CursorUploadID t)
    (CursorPreviewCID t) (CursorQmCID t) (Counters t) (ContentSize t) (AbortedReason t) (SeenKeys t)
    (PruneSkips t) (HealthyPeerCount t) (FailingCIDs t).
Definition set_updated (now : Z) (t : RepairTracker) : RepairTracker :=
  mkRepairTracker (StartedAt t) now (FinishedAt t) (CleanupMode t) (CursorI t) (CursorUploadID t)
    (CursorPreviewCID t) (CursorQmCID t) (Counters t) (ContentSize t) (AbortedReason t) (SeenKeys t)
    (PruneSkips t) (HealthyPeerCount t) (FailingCIDs t).
Definition set_evidence (skips : gset string) (failing : gmap string Z) (t : RepairTracker) : RepairTracker :=
  mkRepairTracker (StartedAt t) (UpdatedAt t) (FinishedAt t) (CleanupMode t) (CursorI t) (CursorUploadID t)
    (CursorPreviewCID t) (CursorQmCID t) (Counters t) (ContentSize t) (AbortedReason t) (SeenKeys t)
    skips (HealthyPeerCount t) failing.
Definition set_peers (n : Z) (t : RepairTracker) : RepairTracker :=
  mkRepairTracker (StartedAt t) (UpdatedAt t) (FinishedAt t) (CleanupMode t) (CursorI t) (CursorUploadID t)
    (CursorPreviewCID t) (CursorQmCID t) (Counters t) (ContentSize t) (AbortedReason t) (SeenKeys t)
    (PruneSkips t) n (FailingCIDs t).
(** The three cursors, by the table they scroll. *)
Inductive repair_table := TUploads | TPreviews | TQm.
Definition cursor (tb : repair_table) (t : RepairTracker) : string :=
  match tb with TUploads => CursorUploadID t | TPreviews => CursorPreviewCID t | TQm => CursorQmCID t end.
Definition set_cursor (tb : repair_table) (c : string) (t : RepairTracker) : RepairTracker :=
  mkRepairTracker (StartedAt t) (UpdatedAt t) (FinishedAt t) (CleanupMode t) (CursorI t)
    (match tb with TUploads => c | _ => CursorUploadID t end)
    (match tb with TPreviews => c | _ => CursorPreviewCID t end)
    (match tb with TQm => c | _ => CursorQmCID t end)
    (Counters t) (ContentSize t) (AbortedReason t) (SeenKeys t) (PruneSkips t) (HealthyPeerCount t) (FailingCIDs t).
(** What the database keeps of a tracker. *)
Definition stored_tracker (t : RepairTracker) : RepairTracker :=
  mkRepairTracker (StartedAt t) (UpdatedAt t) (FinishedAt t) (CleanupMode t) (CursorI t) (CursorUploadID t)
    (CursorPreviewCID t) (CursorQmCID t) (Counters t) (ContentSize t) (AbortedReason t) ∅ ∅ 0 ∅.

Definition failedCycles (t : RepairTracker) (cid : string) : Z := default 0 (FailingCIDs t !! cid).

(** ** State *)

(** A row of repair_data_loss. *)
Record loss_row := mkLossRow {
  first_failed_at : Z;
  last_failed_at : Z;
  failed_cycles : Z;
  last_attempt_exhaustive : bool;
  declared_at : option Z;
  recheck_after : option Z;
  recovered_at : option Z
}.

Record node := mkNode {
  n_media : media;
  repair_data_loss : gmap string loss_row;
  prune_skips : gmap string string;
  repair_trackers : gmap Z RepairTracker;
  tracker : RepairTracker
}.
Definition set_media (m : media) (n : node) : node :=
  mkNode m (repair_data_loss n) (prune_skips n) (repair_trackers n) (tracker n).
Definition set_loss f (n : node) : node :=
  mkNode (n_media n) (f (repair_data_loss n)) (prune_skips n) (repair_trackers n) (tracker n).
Definition set_skips f (n : node) : node :=
  mkNode (n_media n) (repair_data_loss n) (f (prune_skips n)) (repair_trackers n) (tracker n).
Definition set_trackers f (n : node) : node :=
  mkNode (n_media n) (repair_data_loss n) (prune_skips n) (f (repair_trackers n)) (tracker n).
Definition set_tracker f (n : node) : node :=
  mkNode (n_media n) (repair_data_loss n) (prune_skips n) (repair_trackers n) (f (tracker n)).

(** [tracker.Counters[k]++]. *)
Definition bump (k : string) (n : node) : node :=
  set_tracker (set_counters (fun c => <[k := default 0 (c !! k) + 1]> c)) n.
(** [tracker.Counters[k] = v]. *)
Definition put_counter (k : string) (v : nat) (n : node) : node :=
  set_tracker (set_counters <[k := Z.of_nat v]>) n.
Definition bump_if (c : bool) (k : string) (n : node) : node := if c then bump k n else n.

Definition on_media {A} (f : proc media media_error A) : proc node media_error A :=
  fun n => match f (n_media n) with (m, r) => (set_media m n, r) end.

(** ** Data loss *)

Definition dataLossMinCycles : Z := 5.
Definition dataLossMinElapsed : Z := 7 * media_day.
Definition dataLossEscalateAfter : Z := 3.
Definition dataLossMinHealthyPeers : Z := 5.
Definition dataLossRecheckAfter : Z := 30 * media_day.

(** The upsert of a failure. *)
Definition bank_failure (now : Z) (exhaustive : bool) (old : option loss_row) : loss_row :=
  match old with
  | None => mkLossRow now now 1 exhaustive None None None
  | Some r => mkLossRow (first_failed_at r) now (failed_cycles r + 1) exhaustive (declared_at r) (recheck_after r) None
  end.
Definition reschedule (now : Z) (r : loss_row) : loss_row :=
  mkLossRow (first_failed_at r) (last_failed_at r) (failed_cycles r) (last_attempt_exhaustive r) (declared_at r)
    (Some (now + dataLossRecheckAfter)) (recovered_at r).
Definition declare_loss (now : Z) (r : loss_row) : loss_row :=
  match declared_at r with
  | Some _ => r
  | None => mkLossRow (first_failed_at r) (last_failed_at r) (failed_cycles r) (last_attempt_exhaustive r) (Some now)
              (Some (now + dataLossRecheckAfter)) (recovered_at r)
  end.

Definition recordRepairFailure (w : world) (cid : string) (exhaustive : bool) (n : node) : node :=
  if HealthyPeerCount (tracker n) <? dataLossMinHealthyPeers then bump "data_loss_evidence_discarded" n
  else if io_fault w (SqlLoss cid) then n
  else
    let r := bank_failure (now w) exhaustive (repair_data_loss n !! cid) in
    let n := set_loss <[cid := r]> n in
    match declared_at r with
    | Some _ =>
        bump "data_loss_recheck_failed"
          (if io_fault w (SqlReschedule cid) then n else set_loss <[cid := reschedule (now w) r]> n)
    | None =>
        if (failed_cycles r <? dataLossMinCycles) || (now w - first_failed_at r <? dataLossMinElapsed) then n
        else if negb exhaustive then bump "data_loss_awaiting_full_sweep" n
        else if io_fault w (SqlDeclare cid) then n
        else bump "data_loss_declared" (set_loss <[cid := declare_loss (now w) r]> n)
    end.

Definition clearRepairFailure (w : world) (cid : string) (n : node) : node :=
  if io_fault w (SqlLoss cid) then n
  else match repair_data_loss n !! cid with
       | Some r =>
           match recovered_at r with
           | Some _ => n
           | None =>
               let r' := mkLossRow (first_failed_at r) (last_failed_at r) (failed_cycles r) (last_attempt_exhaustive r)
                           (declared_at r) None (Some (now w)) in
               bump_if (bool_decide (is_Some (declared_at r))) "data_loss_recovered" (set_loss <[cid := r']> n)
           end
       | None => n
       end.

Definition loadPruneSkips (n : node) : gset string := dom (prune_skips n).

(** Declared, not recovered and not due for a recheck. *)
Definition skipped_loss (now : Z) (r : loss_row) : bool :=
  bool_decide (is_Some (declared_at r)) && bool_decide (recovered_at r = None) &&
  match recheck_after r with None => true | Some t => now <? t end.

Definition loadRepairSkips (w : world) (n : node) : res media_error (gset string) :=
  if io_fault w SqlSkips then Err (MErr "query")
  else Ok (loadPruneSkips n ∪ dom (filter (fun '(_, r) => skipped_loss (now w) r = true) (repair_data_loss n))).

Definition loadFailingCIDs (w : world) (n : node) : res media_error (gmap string Z) :=
  if io_fault w SqlFailing then Err (MErr "query")
  else Ok (failed_cycles <$> filter (fun '(_, r) => recovered_at r = None /\ declared_at r = None) (repair_data_loss n)).

Record DataLossSummary := mkDataLossSummary {
  Total : Z; PendingRecheck : Z; Recovered : Z; Accumulating : Z; DeclaredLast24 : Z
}.
Definition count_rows (p : loss_row -> bool) (n : node) : Z :=
  Z.of_nat (length (List.filter (fun '(_, r) => p r) (map_to_list (repair_data_loss n)))).
(** The counts of serveDataLoss. *)
Definition serveDataLoss (w : world) (n : node) : DataLossSummary :=
  let declared r := bool_decide (is_Some (declared_at r)) in
  let open r := bool_decide (recovered_at r = None) in
  mkDataLossSummary
    (count_rows (fun r => declared r && open r) n)
    (count_rows (fun r => declared r && open r && match recheck_after r with Some t => t <=? now w | None => false end) n)
    (count_rows (fun r => negb (open r)) n)
    (count_rows (fun r => negb (declared r) && open r) n)
    (count_rows (fun r => match declared_at r with Some t => now w - media_day <? t | None => false end) n).

(** ** Retention *)

Definition DefaultStoreRecentTTL : Z := 365 * media_day.

Record repairRetentionPolicy := mkRetention { rp_storeAll : bool; rp_storeRecent : bool; rp_ttl : Z; rp_now : Z }.

Definition newRepairRetentionPolicy (config : MediorumConfig) (now : Z) : repairRetentionPolicy :=
  let ttl := if StoreRecentTTL config <=? 0 then DefaultStoreRecentTTL else StoreRecentTTL config in
  mkRetention (StoreAll config) (StoreRecent config) ttl now.

Definition shouldStoreRecent (p : repairRetentionPolicy) (createdAt : option Z) : bool :=
  if rp_storeAll p || negb (rp_storeRecent p) then false
  else match createdAt with
       | None => false
       | Some t => negb (t <? rp_now p - rp_ttl p)
       end.

Section Repair.
Context (sha256 : string -> string).
Context (url_parse : string -> option (string * string)).
(** cidutil.ComputeFileCID on bytes that can be read. *)
Context (compute_cid : string -> string).
Context (ss : MediorumServer).

Definition maxPullAttempts : Z :=
  let n := ReplicationFactor (Config ss) + pullAttemptMargin in if n <? 1 then 1 else n.

Section OneCid.
Context (w : world).

(** ** One CID *)

(** What a repair has worked out about its CID before it looks at the bucket. *)
Record cid_job := mkCidJob {
  j_cid : string;
  j_key : string;
  j_placement : list string;
  j_preferred : list string;
  j_mine : bool;
  j_recent : bool;
  j_bucket : bucket
}.
Definition isArchive (j : cid_job) : bool := archiveBucket ss && bool_decide (j_bucket j = Archive).
Definition presenceKey (j : cid_job) : string := presenceCacheKey (j_key j) (j_bucket j).

(** Presence: [None] when the blob is not there or could not be examined. *)
Definition resolve_presence (idx : option repairPresenceIndex) (j : cid_job) (n : node) : node * option presenceEntry :=
  match idx with
  | Some idx =>
      match Lookup idx (j_key j) (j_bucket j) with
      | Some e => (bump_if (isArchive j) "archive_blob_present" (bump "qm_cids_list_index_hit" n), Some e)
      | None => (bump "qm_cids_list_index_miss" n, None)
      end
  | None =>
      match Attributes w (j_bucket j) (j_key j) (n_media n) with
      | Ok x => (bump_if (isArchive j) "archive_blob_present" n, Some (entry_of x))
      | Err MNotFound => (n, None)
      | Err _ => (bump_if (isArchive j) "archive_blob_attrs_fail" (bump "read_attrs_fail" n), None)
      end
  end.

Definition forget_blob (key : string) (b : bucket) (m : media) : media :=
  forgetBlobPresent url_parse ss w b key (set_knownPresent (delete (presenceCacheKey key b)) m).

(** In cleanup mode a blob is hashed and deleted when it is not what its CID says;
    true when the repair goes on. *)
Definition validate_blob (have : bool) (j : cid_job) : proc node media_error bool :=
  fun n =>
    if negb (CleanupMode (tracker n) && have && negb (IsLegacyCID (j_cid j))) then (n, Ok true)
    else match NewReader w (j_bucket j) (j_key j) (n_media n) with
         | Err e => (bump "read_blob_fail" n, Err e)
         | Ok x =>
             if io_fault w (IoBody (j_bucket j) (j_key j)) then (bump "validate_read_fail" n, Ok true)
             else if String.eqb (compute_cid (content x)) (j_cid j) then (n, Ok true)
             else
               let n := bump "delete_invalid_needed" n in
               match bucket_delete w (j_bucket j) (j_key j) (n_media n) with
               | (m, Ok _) =>
                   let n := set_tracker (set_seen (j_key j) (mkSeenKeyResult false 0))
                              (bump "delete_invalid_success" (set_media m n)) in
                   (set_media (forget_blob (j_key j) (j_bucket j) (n_media n)) n, Ok false)
               | (m, Err _) => (bump "delete_invalid_fail" (set_media m n), Ok false)
               end
         end.

Definition is_variant (cid : string) : bool := HasSuffix ".jpg" cid && negb (HasSuffix "original.jpg" cid).

(** A derived image is only a cache, always in the primary bucket. *)
Definition drop_variant (have : bool) (j : cid_job) (n : node) : node :=
  if negb (CleanupMode (tracker n) && have) then n
  else match bucket_delete w Primary (j_key j) (n_media n) with
       | (m, Ok _) | (m, Err MNotFound) =>
           bump "delete_resized_image_ok" (set_media (forget_blob (j_key j) Primary m) n)
       | (m, Err _) => bump "delete_resized_image_failed" (set_media m n)
       end.

Definition mark_present (e : presenceEntry) (j : cid_job) (n : node) : node :=
  let n := set_media (set_knownPresent <[presenceKey j := pe_Size e]> (n_media n)) n in
  set_tracker (add_size (pe_Size e)) (bump "already_have" n).

(** The primary copy of a blob the archive holds. *)
Definition drop_duplicate (idx : option repairPresenceIndex) (have : bool) (j : cid_job) (n : node) : node :=
  if CleanupMode (tracker n) && have && isArchive j && blobPresentIn w idx (Some Primary) (j_key j) (n_media n) then
    let n := bump "archive_primary_duplicate_needed" n in
    match dropFromBucket w Primary (j_key j) (n_media n) with
    | (m, Ok _) => bump "archive_primary_duplicate_dropped" (set_media m n)
    | (m, Err _) => bump "archive_primary_duplicate_fail" (set_media m n)
    end
  else n.

(** The hosts a pull asks, in order. *)
Definition pull_candidates (exhaustive : bool) (j : cid_job) : list string :=
  let candidates := if exhaustive then j_preferred j else take (Z.to_nat maxPullAttempts) (j_preferred j) in
  foldl (fun c host => if bool_decide (host ∈ c) then c else app c [host]) candidates
    (findStoreAllPeers ss w (j_cid j) media_hour storeAllFallbackHosts).

(** Ask each host in turn, the node itself excepted; true once one has served. *)
Fixpoint pull_from (hosts : list string) (j : cid_job) : proc node media_error bool :=
  fun n =>
    match hosts with
    | [] => (n, Ok false)
    | host :: hosts' =>
        if String.eqb host (Self_Host (Config ss)) then pull_from hosts' j n
        else match on_media (pullFileFromHost sha256 url_parse ss w host (j_cid j) (j_placement j)) n with
             | (n, Err MPanic) => (n, Err MPanic)
             | (n, Err _) => pull_from hosts' j (bump "pull_mine_fail" n)
             | (n, Ok _) =>
                 let n := clearRepairFailure w (j_cid j)
                            (bump_if (isArchive j) "archive_blob_pulled" (bump "pull_mine_success" n)) in
                 (match Attributes w (j_bucket j) (j_key j) (n_media n) with
                  | Ok x => set_tracker (add_size (blob_size x)) n
                  | Err _ => n
                  end, Ok true)
             end
    end.

Definition pull_mine (j : cid_job) : proc node media_error unit :=
  fun n =>
    let n := bump "pull_mine_needed" n in
    let exhaustive := dataLossEscalateAfter <=? failedCycles (tracker n) (j_cid j) in
    let candidates := pull_candidates exhaustive j in
    let n := bump_if exhaustive "pull_escalated_full_network" n in
    let tier1 := if exhaustive then length (j_preferred j)
                 else Nat.min (length (j_preferred j)) (Z.to_nat maxPullAttempts) in
    let n := bump_if (tier1 <? length candidates)%nat "pull_store_all_fallback_offered" n in
    match pull_from candidates j n with
    | (n, Err e) => (n, Err e)
    | (n, Ok true) => (n, Ok tt)
    | (n, Ok false) =>
        (recordRepairFailure w (j_cid j) exhaustive (bump "pull_mine_gave_up" n), Err (MErr "failed to pull from any host"))
    end.

(** Move the blob from the other bucket, or pull it. *)
Definition get_missing (idx : option repairPresenceIndex) (j : cid_job) : proc node media_error unit :=
  fun n =>
    let src := otherBucket ss (j_bucket j) in
    if blobPresentIn w idx src (j_key j) (n_media n) then
      match src with
      | None => pull_mine j n
      | Some src =>
          match on_media (relocateBetweenBuckets w (j_key j) (j_bucket j) src) n with
          | (n, Ok size) =>
              (set_tracker (set_seen (j_key j) (mkSeenKeyResult true size))
                 (set_tracker (add_size size) (bump "relocated_between_buckets" n)), Ok tt)
          | (n, Err _) => pull_mine j (bump "relocate_between_buckets_fail" n)
          end
      end
    else pull_mine j n.

(** A blob outside the replica set goes after a week. *)
Definition drop_over_replicated (e : option presenceEntry) (j : cid_job) : proc node media_error unit :=
  fun n =>
    let myRank := slices_Index (j_preferred j) (Self_Host (Config ss)) in
    match e with
    | Some e =>
        let wasReplicatedThisWeek := now w - 7 * media_day <? pe_ModTime e in
        if bool_decide (j_placement j = []) && negb (StoreAll (Config ss)) && negb (j_recent j) && CleanupMode (tracker n) &&
           (ReplicationFactor (Config ss) <=? myRank) && negb wasReplicatedThisWeek then
          let n := bump "delete_over_replicated_needed" n in
          match on_media (dropFromMyBucket url_parse ss w (j_cid j)) n with
          | (n, Err e) => (bump "delete_over_replicated_fail" n, Err e)
          | (n, Ok _) => (set_tracker (add_size (- pe_Size e)) (bump "delete_over_replicated_success" n), Ok tt)
          end
        else (n, Ok tt)
    | None => (n, Ok tt)
    end.

(** From the presence check on. *)
Definition repair_blob (idx : option repairPresenceIndex) (j : cid_job) : proc node media_error unit :=
  fun n =>
    let '(n, e) := resolve_presence idx j n in
    let have := bool_decide (is_Some e) in
    let n := set_tracker (set_seen (j_key j) (mkSeenKeyResult have (default 0 (pe_Size <$> e)))) n in
    match validate_blob have j n with
    | (n, Err e) => (n, Err e)
    | (n, Ok false) => (n, Ok tt)
    | (n, Ok true) =>
        if is_variant (j_cid j) then (drop_variant have j n, Ok tt)
        else
          let n := match e with Some e => mark_present e j n | None => n end in
          let n := drop_duplicate idx have j n in
          if j_mine j && negb have && diskHasSpaceForCID sha256 ss w (j_cid j) (j_placement j)
          then get_missing idx j n
          else drop_over_replicated e j n
    end.

Definition repair_known (idx : option repairPresenceIndex) (j : cid_job) : proc node media_error unit :=
  fun n =>
    match (if j_recent j then None else SeenKeys (tracker n) !! j_key j) with
    | Some prev =>
        let n := bump "repair_deduped" n in
        (if alreadyHave prev then set_tracker (add_size (sk_size prev)) (bump "already_have" n) else n, Ok tt)
    | None =>
        match (if CleanupMode (tracker n) then None else knownPresent (n_media n) !! presenceKey j) with
        | Some size =>
            (set_tracker (add_size size) (bump "repair_known_present" (bump "already_have"
               (set_tracker (set_seen (j_key j) (mkSeenKeyResult true size)) n))), Ok tt)
        | None => repair_blob idx j n
        end
    end.

Definition repairCidWithPolicy (cid : string) (placementHosts : list string) (presenceIndex : option repairPresenceIndex)
    (retentionPolicy : repairRetentionPolicy) (createdAt : option Z) : proc node media_error unit :=
  fun n =>
    if String.eqb cid "" then (n, Ok tt)
    else
      let '(preferredHosts, isMine) := rendezvousAllHosts sha256 ss cid in
      let storeRecent := shouldStoreRecent retentionPolicy createdAt in
      let isPlaced := bool_decide (placementHosts <> []) in
      if isPlaced && bool_decide (Self_Host (Config ss) ∉ placementHosts) then (n, Ok tt)
      else
        let preferredHosts := if isPlaced then placementHosts else preferredHosts in
        let isMine := isPlaced || isMine || storeRecent in
        if negb (CleanupMode (tracker n)) && negb isMine then (n, Ok tt)
        else if bool_decide (cid ∈ PruneSkips (tracker n)) then (bump "prune_skipped" n, Ok tt)
        else
          let n := bump "total_checked" n in
          match ShardCID cid with
          | None => (n, Err MPanic)
          | Some key =>
              repair_known presenceIndex
                (mkCidJob cid key placementHosts preferredHosts isMine storeRecent (bucketForCID sha256 ss cid placementHosts)) n
          end.
End OneCid.

(** ** A cycle *)

(** repairCidWithPolicy as a worker calls it: its error is dropped, a panic is not. *)
Definition repair_worker (idx : option repairPresenceIndex) (pol : repairRetentionPolicy)
    (w : world) (cid : string) (placementHosts : list string) (createdAt : option Z) : proc node media_error unit :=
  fun n =>
    match repairCidWithPolicy w cid placementHosts idx pol createdAt n with
    | (n, Err MPanic) => (n, Err MPanic)
    | (n, _) => (n, Ok tt)
    end.

Definition JobTemplateAudio : string := "audio".

(** The CIDs of an upload that repair looks at; a map is ranged over in no
    particular order. *)
Definition transcoded_cids (u : Upload) : list string :=
  if String.eqb (Template u) JobTemplateAudio then (map_to_list (TranscodeResults u)).*2 else [].

Section Cycle.
(** The policy of the cycle and the index it built, if any. *)
Context (pol : repairRetentionPolicy) (cycleIndex : option repairPresenceIndex).

Fixpoint repair_cids (idx : repairPresenceIndex) (w : world) (cids : list string) (placementHosts : list string)
    (createdAt : option Z) : proc node media_error unit :=
  match cids with
  | [] => pret tt
  | cid :: cids' =>
      if ctx_done w then pret tt
      else repair_worker (Some idx) pol w cid placementHosts createdAt ;;!
           repair_cids idx w cids' placementHosts createdAt
  end.

Definition repair_upload (idx : repairPresenceIndex) (w : world) (u : Upload) : proc node media_error unit :=
  repair_worker (Some idx) pol w (OrigFileCID u) (PlacementHosts u) (CreatedAt u) ;;!
  repair_cids idx w (transcoded_cids u) (PlacementHosts u) (CreatedAt u).

Definition repair_preview (idx : repairPresenceIndex) (w : world) (p : AudioPreview) : proc node media_error unit :=
  repair_worker (Some idx) pol w (ap_CID p) [] (ap_CreatedAt p).

Definition repair_qm (idx : repairPresenceIndex) (w : world) (cid : string) : proc node media_error unit :=
  repair_worker (Some idx) pol w cid [] None.

(** One of the three tables: where it is, the key it is scrolled by, the CIDs of a
    row and the repair of a row. *)
Record scroll_table (A : Type) := mkScrollTable {
  st_table : repair_table;
  st_query : media_io;
  st_rows : world -> list A;
  st_key : A -> string;
  st_cids : A -> list string;
  st_repair : repairPresenceIndex -> world -> A -> proc node media_error unit
}.
Arguments mkScrollTable {A}.
Arguments st_table {A}. Arguments st_query {A}. Arguments st_rows {A}.
Arguments st_key {A}. Arguments st_cids {A}. Arguments st_repair {A}.

Definition scroll_uploads : scroll_table Upload :=
  mkScrollTable TUploads SqlUploads uploads ID (fun u => OrigFileCID u :: transcoded_cids u) repair_upload.
Definition scroll_previews : scroll_table AudioPreview :=
  mkScrollTable TPreviews SqlPreviews audio_previews ap_CID (fun p => [ap_CID p]) repair_preview.
Definition scroll_qm : scroll_table string :=
  mkScrollTable TQm SqlQm qm_cids id (fun c => [c]) repair_qm.

(** [where key > cursor order by key limit n]; keys are compared byte by byte. *)
Definition row_le {A} (key : A -> string) (x y : A) : Prop := String.le (key x) (key y).
#[local] Instance row_le_dec {A} (key : A -> string) x y : Decision (row_le key x y).
Proof. unfold row_le. apply _. Defined.

Definition next_batch {A} (key : A -> string) (cur : string) (limit : nat) (rows : list A) : list A :=
  take limit (merge_sort (row_le key) (List.filter (fun r => String.ltb cur (key r)) rows)).

Definition nextUploadBatch (w : world) (cur : string) (limit : nat) : res media_error (list Upload) :=
  if io_fault w SqlUploads then Err (MErr "query") else Ok (next_batch ID cur limit (uploads w)).

Definition saveTracker (w : world) (n : node) : node :=
  let n := set_tracker (set_updated (now w)) n in
  if io_fault w SqlTracker then n
  else set_trackers <[StartedAt (tracker n) := stored_tracker (tracker n)]> n.

(** [gatherCIDs] is the CIDs of the batch. *)
Definition presenceForBatch (w : world) (gatherCIDs : list string) : proc node media_error repairPresenceIndex :=
  fun n =>
    match cycleIndex with
    | Some idx => (n, Ok idx)
    | None =>
        match presenceForCIDs ss w gatherCIDs (n_media n) with
        | Err e => (n, Err e)
        | Ok idx => (bump "presence_batch_queries" n, Ok idx)
        end
    end.

(** The rows of a batch; [ws j] is the world while row [j] is repaired. *)
Fixpoint repair_rows {A} (t : scroll_table A) (idx : repairPresenceIndex) (ws : nat -> world) (j : nat) (rows : list A) : proc node media_error unit :=
  match rows with
  | [] => pret tt
  | r :: rows' =>
      if ctx_done (ws j) then pret tt
      else st_repair t idx (ws j) r ;;! repair_rows t idx ws (S j) rows'
  end.

(** How a loop goes on: another batch, or the loop is left. *)
Inductive scroll_step := More | Break.

(** One turn of a loop; [ws 0] is the world at its top, [ws (S j)] that of row [j] and
    the last one that of the end of the turn. *)
Definition scroll_batch {A} (t : scroll_table A) (ws : nat -> world) : proc node media_error scroll_step :=
  fun n =>
    let w := ws 0%nat in
    if ctx_done w then (saveTracker w (set_tracker (set_aborted abortContextCanceled) n), Err MCanceled)
    else if negb (diskHasSpace ss w) && negb (CleanupMode (tracker n)) then
      (saveTracker w (set_tracker (set_aborted "DISK_FULL") n), Ok Break)
    else if io_fault w (st_query t) then (n, Err (MErr "query"))
    else
      let rows := next_batch (st_key t) (cursor (st_table t) (tracker n)) uploadScanBatchSize (st_rows t w) in
      match last rows with
      | None => (n, Ok Break)
      | Some final =>
          match presenceForBatch w (rows ≫= st_cids t) n with
          | (n, Err e) => (n, Err e)
          | (n, Ok idx) =>
              match repair_rows t idx (fun j => ws (S j)) 0 rows n with
              | (n, Err e) => (n, Err e)
              | (n, Ok _) =>
                  let w' := ws (S (length rows)) in
                  let n := set_tracker (if ctx_done w' then set_aborted abortContextCanceled
                                        else set_cursor (st_table t) (st_key t final)) n in
                  (saveTracker w' n, Ok More)
              end
          end
      end.

(** A loop, at most [fuel] turns; [Ok false] when they did not suffice. *)
Fixpoint scroll {A} (fuel : nat) (t : scroll_table A) (W : nat -> nat -> world) (i : nat) : proc node media_error bool :=
  match fuel with
  | O => pret false
  | S fuel' =>
      let! s := scroll_batch t (W i) in
      match s with
      | Break => pret true
      | More => scroll fuel' t W (S i)
      end
  end.
End Cycle.

(** The presence index of a cycle: [None] when presence is read per batch. *)
Definition cycle_index (w : world) : proc node media_error (option repairPresenceIndex) :=
  fun n =>
    let from_store := negb (CleanupMode (tracker n)) &&
      match presenceStoreReady url_parse ss w (n_media n) with Ok _ => true | Err _ => false end in
    if from_store then (put_counter "presence_from_store" 1 n, Ok None)
    else match on_media (buildRepairPresenceIndex url_parse ss w) n with
         | (n, Err _) => (bump "qm_cids_list_index_build_fail" n, Ok None)
         | (n, Ok idx) => (put_counter "qm_cids_list_index_entries" (size idx) n, Ok (Some idx))
         end.

(** What earlier cycles have left; a query that fails leaves nothing. *)
Definition load_evidence (w : world) (n : node) : node :=
  let failing := match loadFailingCIDs w n with Ok f => f | Err _ => FailingCIDs (tracker n) end in
  let skips := match loadRepairSkips w n with Ok s => s | Err _ => PruneSkips (tracker n) end in
  let n := set_tracker (set_evidence skips failing) n in
  let n := if bool_decide (failing = ∅) then n else put_counter "repair_failing_cids" (size failing) n in
  if bool_decide (skips = ∅) then n else put_counter "repair_skips_loaded" (size skips) n.

(** The worlds of a cycle: its start, each turn of the three loops, its end. *)
Record cycle_worlds := mkCycleWorlds {
  cw_start : world;
  cw_uploads : nat -> nat -> world;
  cw_previews : nat -> nat -> world;
  cw_qm : nat -> nat -> world;
  cw_end : world
}.

Definition runRepair (fuel : nat) (cw : cycle_worlds) : proc node media_error bool :=
  fun n =>
    let w := cw_start cw in
    let pol := newRepairRetentionPolicy (Config ss) (now w) in
    (let! idx := cycle_index w in
     let! a := scroll idx fuel (scroll_uploads pol) (cw_uploads cw) 0 in
     if negb a then pret false
     else let! b := scroll idx fuel (scroll_previews pol) (cw_previews cw) 0 in
     if negb b then pret false
     else let! c := scroll idx fuel (scroll_qm pol) (cw_qm cw) 0 in
     if negb c then pret false
     else if ctx_done (cw_end cw) then pfail MCanceled else pret true) (load_evidence w n).

(** ** The schedule *)

(** The most recent tracker in the database; a query that fails finds none. *)
Definition last_run (w : world) (n : node) : option RepairTracker :=
  if io_fault w SqlLastRun then None
  else match merge_sort (fun x y => x >= y) (elements (dom (repair_trackers n))) with
  | [] => None
  | t :: _ => repair_trackers n !! t
  end.

Definition new_tracker (started : Z) (cleanup : bool) (i : Z) : RepairTracker :=
  mkRepairTracker started 0 None cleanup i "" "" "" ∅ 0 "" ∅ ∅ 0 ∅.

(** The tracker a tick of the repairer starts with. *)
Definition next_tracker (now : Z) (last : option RepairTracker) : RepairTracker :=
  match last with
  | None => new_tracker now true 1
  | Some lastRun =>
      match FinishedAt lastRun with
      | None => lastRun
      | Some _ =>
          let i := if 4 <? CursorI lastRun + 1 then 1 else CursorI lastRun + 1 in
          new_tracker now (i =? 1) i
      end
  end.

(** One tick of startRepairer; a loop out of fuel is reported as [false]. *)
Definition repair_tick (fuel : nat) (cw : cycle_worlds) (n : node) : node * bool :=
  let w := cw_start cw in
  let n := set_tracker (fun _ => next_tracker (now w) (last_run w n)) n in
  let n := if CleanupMode (tracker n) then set_media (set_knownPresent (fun _ => ∅) (n_media n)) n else n in
  let healthyPeers := findHealthyPeers w media_hour in
  if (length healthyPeers <? 1)%nat then
    (saveTracker w (set_tracker (fun t => set_finished (now w) (set_aborted "NOT_ENOUGH_PEERS" t)) n), true)
  else if negb (diskHasSpace ss w) && negb (CleanupMode (tracker n)) then
    (saveTracker w (set_tracker (fun t => set_finished (now w) (set_aborted "DISK_FULL" t)) n), true)
  else
    let n := set_tracker (set_peers (Z.of_nat (length healthyPeers))) n in
    let w' := cw_end cw in
    match runRepair fuel cw n with
    | (n, Ok false) => (n, false)
    | (n, Ok true) => (saveTracker w' (set_tracker (set_finished (now w')) n), true)
    | (n, Err MCanceled) => (saveTracker w' n, true)
    | (n, Err MPanic) => (n, true)
    | (n, Err (MErr e)) => (saveTracker w' (set_tracker (fun t => set_aborted e (set_finished (now w') t)) n), true)
    | (n, Err MNotFound) => (saveTracker w' (set_tracker (fun t => set_aborted "not found" (set_finished (now w') t)) n), true)
    end.
End Repair.
Arguments mkScrollTable {A}.
Arguments st_table {A}. Arguments st_query {A}. Arguments st_rows {A}.
Arguments st_key {A}. Arguments st_cids {A}. Arguments st_repair {A}.
