(* ===== verification/MediaProps.v ===== *)
(** * What repair does to blobs

    How each operation of MediaStore changes the buckets, and that a repair never
    costs a node a good copy of a blob it is required to hold. *)

From stdpp Require Import base gmap strings list sorting fin_maps.
From Stdlib Require Import ZArith Lia Ascii.
From S2P Require Import Prelude Crypto Rendezvous Snapshots MediaStore MediaPresence MediaRepair.

Open Scope string_scope.
Open Scope Z_scope.

Notation held_blobs n := (blobs (n_media n)).

Section Stores.
Context (sha256 : string -> string) (url_parse : string -> option (string * string)).
Context (compute_cid : string -> string) (ss : MediorumServer) (w : world).

(** ** Buckets *)

Lemma record_blobs b key k m : blobs (recordBlobPresent url_parse ss w b key k m) = blobs m.
Proof using. unfold recordBlobPresent. by repeat case_match. Qed.

Lemma forget_blobs b key m : blobs (forgetBlobPresent url_parse ss w b key m) = blobs m.
Proof using. unfold forgetBlobPresent. by repeat case_match. Qed.

Lemma cleanup_blobs b key m : blobs (cleanupStaleTempsNearKey ss w b key m) = blobs m.
Proof using. unfold cleanupStaleTempsNearKey. by repeat case_match. Qed.

Lemma bucket_delete_blobs b key m :
  blobs (bucket_delete w b key m).1 = if io_fault w (IoDelete b key) then blobs m else delete (b, key) (blobs m).
Proof using.
  unfold bucket_delete. destruct (io_fault w (IoDelete b key)); [done|].
  destruct (blobs m !! (b, key)) eqn:E; [done|]. cbn. by rewrite delete_id.
Qed.

Lemma deleteFrom_blobs key b m :
  blobs (deleteFrom url_parse ss w key b m) = if io_fault w (IoDelete b key) then blobs m else delete (b, key) (blobs m).
Proof using.
  rewrite <- bucket_delete_blobs. unfold deleteFrom.
  destruct (bucket_delete w b key m) as [m' [[]|[]]]; cbn; by rewrite ?forget_blobs.
Qed.

Lemma dropFromBucket_blobs b key m :
  blobs (dropFromBucket w b key m).1 = if io_fault w (IoDelete b key) then blobs m else delete (b, key) (blobs m).
Proof using.
  rewrite <- bucket_delete_blobs. unfold dropFromBucket.
  by destruct (bucket_delete w b key m) as [m' [[]|[]]].
Qed.

(** [touches b key m m'] : nothing but the blob [key] of [b] may have changed. *)
Definition touches (b : bucket) (key : string) (m m' : gmap (bucket * string) blob) : Prop :=
  forall bk, bk <> (b, key) -> m' !! bk = m !! bk.

Lemma touches_refl b key m : touches b key m m.
Proof using. by intros bk. Qed.
Lemma touches_trans b key m1 m2 m3 : touches b key m1 m2 -> touches b key m2 m3 -> touches b key m1 m3.
Proof using. intros H1 H2 bk Hk. by rewrite H2, H1. Qed.
Lemma touches_insert b key x m : touches b key m (<[(b, key) := x]> m).
Proof using. intros bk Hk. by rewrite lookup_insert_ne. Qed.
Lemma touches_delete b key m : touches b key m (delete (b, key) m).
Proof using. intros bk Hk. by rewrite lookup_delete_ne. Qed.

(** ** Writing *)

Lemma write_blob_touches b key src m : touches b key (blobs m) (blobs (write_blob w b key src m).1).
Proof using.
  unfold write_blob, store_blob. repeat case_match; cbn; auto using touches_refl, touches_insert.
Qed.

Lemma io_copy_complete b key src bytes : io_copy w b key src = (bytes, true) -> src = (bytes, true).
Proof using. unfold io_copy. intros. repeat case_match; simplify_eq; done. Qed.

Lemma write_blob_ok b key src m m' k :
  write_blob w b key src m = (m', Ok k) ->
  src.2 = true /\ k = Z.of_nat (String.length src.1) /\ blobs m' = <[(b, key) := mkBlob src.1 (now w)]> (blobs m).
Proof using.
  unfold write_blob. intros H. repeat case_match; simplify_eq.
  match goal with E : io_copy _ _ _ _ = _ |- _ => apply io_copy_complete in E; by subst end.
Qed.

(** What a write needs to succeed. *)
Definition writable (b : bucket) (key : string) : Prop :=
  io_fault w (IoNewWriter b key) = false /\ io_short w b key = None /\ io_close w b key true = Closed.

Lemma write_blob_writable b key bytes m :
  writable b key ->
  write_blob w b key (bytes, true) m = (store_blob w b key bytes m, Ok (Z.of_nat (String.length bytes))).
Proof using. intros (H1 & H2 & H3). unfold write_blob, io_copy. by rewrite H1, H2, H3. Qed.

Lemma replicate_touches cid key file placement m :
  ShardCID cid = Some key ->
  touches (bucketForCID sha256 ss cid placement) key (blobs m)
    (blobs (replicateToMyBucket sha256 url_parse ss w cid file placement m).1).
Proof using.
  intros Hk. unfold replicateToMyBucket. rewrite Hk. cbn. unfold pbind.
  pose proof (write_blob_touches (bucketForCID sha256 ss cid placement) key file m) as H.
  destruct (write_blob _ _ _ _ m) as [m' []]; cbn in *; by rewrite ?cleanup_blobs, ?record_blobs.
Qed.

Lemma replicate_writable cid key bytes placement m :
  ShardCID cid = Some key -> writable (bucketForCID sha256 ss cid placement) key ->
  exists m', replicateToMyBucket sha256 url_parse ss w cid (bytes, true) placement m = (m', Ok tt) /\
    blobs m' = <[(bucketForCID sha256 ss cid placement, key) := mkBlob bytes (now w)]> (blobs m).
Proof using.
  intros Hk Hw. unfold replicateToMyBucket. rewrite Hk. cbn. unfold pbind.
  rewrite write_blob_writable by done. eexists. split; [done|]. by rewrite cleanup_blobs, record_blobs.
Qed.

Lemma replicate_ok cid key file placement m m' :
  ShardCID cid = Some key ->
  replicateToMyBucket sha256 url_parse ss w cid file placement m = (m', Ok tt) ->
  file.2 = true /\ blobs m' = <[(bucketForCID sha256 ss cid placement, key) := mkBlob file.1 (now w)]> (blobs m).
Proof using.
  intros Hk. unfold replicateToMyBucket. rewrite Hk. cbn. unfold pbind. intros H.
  destruct (write_blob _ _ _ _ m) as [m1 [k|]] eqn:E; [|done]. apply write_blob_ok in E as (? & _ & E).
  simplify_eq. by rewrite cleanup_blobs, record_blobs.
Qed.

(** ** Moving *)

Lemma relocate_ok key dst src m m' k :
  dst <> src -> relocateBetweenBuckets w key dst src m = (m', Ok k) ->
  exists x, blobs m !! (src, key) = Some x /\ blobs m' !! (dst, key) = Some (mkBlob (content x) (now w)) /\
    forall bk, bk.2 <> key -> blobs m' !! bk = blobs m !! bk.
Proof using.
  intros Hne. unfold relocateBetweenBuckets, pbind, query, NewReader. intros H.
  destruct (io_fault w _); [done|]. destruct (blobs m !! (src, key)) as [x|] eqn:Ex; [|done].
  destruct (write_blob _ _ _ _ m) as [m1 [k1|]] eqn:E; [|done].
  apply write_blob_ok in E as (_ & _ & E). injection H as <- <-. exists x. split; [done|].
  rewrite dropFromBucket_blobs. cbn [blobs set_knownPresent]. rewrite E. cbn.
  split.
  - destruct (io_fault w (IoDelete src key)); [by simplify_map_eq|]. rewrite lookup_delete_ne by congruence. by simplify_map_eq.
  - intros [b' k'] Hk. cbn in Hk.
    destruct (io_fault w (IoDelete src key)); rewrite ?lookup_delete_ne, lookup_insert_ne by congruence; done.
Qed.

Lemma relocate_err key dst src m m' e :
  relocateBetweenBuckets w key dst src m = (m', Err e) -> touches dst key (blobs m) (blobs m').
Proof using.
  unfold relocateBetweenBuckets, pbind, query, NewReader. intros H.
  destruct (io_fault w _); [simplify_eq; apply touches_refl|].
  destruct (blobs m !! (src, key)) as [x|]; [|simplify_eq; apply touches_refl].
  match type of H with context [write_blob w dst key ?s m] => pose proof (write_blob_touches dst key s m) as Ht;
    destruct (write_blob w dst key s m) as [m1 [k1|]] end; by simplify_eq.
Qed.
End Stores.

Ltac node_step :=
  cbn [n_media set_media set_tracker set_loss set_skips set_trackers bump_if bump put_counter tracker blobs
       set_knownPresent] in *.

(** ** The stages of a repair *)

Section Stages.
Context (sha256 : string -> string) (url_parse : string -> option (string * string)).
Context (compute_cid : string -> string) (ss : MediorumServer) (w : world).

Lemma bump_media k n : n_media (bump k n) = n_media n.
Proof using. done. Qed.
Lemma bump_if_media c k n : n_media (bump_if c k n) = n_media n.
Proof using. by destruct c. Qed.
Lemma record_failure_media cid ex n : n_media (recordRepairFailure w cid ex n) = n_media n.
Proof using. unfold recordRepairFailure. by repeat case_match. Qed.
Lemma clear_failure_media cid n : n_media (clearRepairFailure w cid n) = n_media n.
Proof using. unfold clearRepairFailure. repeat case_match; rewrite ?bump_if_media; done. Qed.
Lemma resolve_media idx j n : n_media (resolve_presence ss w idx j n).1 = n_media n.
Proof using. unfold resolve_presence. repeat case_match; cbn; rewrite ?bump_if_media; done. Qed.

(** The job is about its CID. *)
Definition job_wf (j : cid_job) : Prop :=
  ShardCID (j_cid j) = Some (j_key j) /\ j_bucket j = bucketForCID sha256 ss (j_cid j) (j_placement j).

Notation only_target j n n' := (touches (j_bucket j) (j_key j) (held_blobs n) (held_blobs n')).

Lemma pull_host_touches host j n :
  job_wf j -> only_target j n (on_media (pullFileFromHost sha256 url_parse ss w host (j_cid j) (j_placement j)) n).1.
Proof using.
  intros [Hk Hb]. unfold on_media, pullFileFromHost.
  destruct (String.eqb host _); [cbn; apply touches_refl|].
  destruct (fetch w host (j_cid j)) as [body|]; [|cbn; apply touches_refl].
  pose proof (replicate_touches sha256 url_parse ss w (j_cid j) (j_key j) body (j_placement j) (n_media n) Hk) as H.
  rewrite <- Hb in H. by destruct (replicateToMyBucket _ _ _ _ _ _ _ _) as [m []].
Qed.

Lemma pull_from_touches hosts j n :
  job_wf j -> only_target j n (pull_from sha256 url_parse ss w hosts j n).1.
Proof using.
  intros Hj. revert n. induction hosts as [|h hs IH]; intros n; cbn [pull_from fst]; [apply touches_refl|].
  destruct (String.eqb h _); [apply IH|].
  pose proof (pull_host_touches h j n Hj) as Hp.
  destruct (on_media _ n) as [n1 [[]|e]]; cbn [fst] in *.
  - case_match; cbn [fst n_media set_tracker]; by rewrite clear_failure_media, bump_if_media, bump_media.
  - destruct e; cbn [fst]; [done|..]; (eapply touches_trans; [exact Hp|exact (IH (bump "pull_mine_fail" n1))]).
Qed.

Lemma pull_mine_touches j n : job_wf j -> only_target j n (pull_mine sha256 url_parse ss w j n).1.
Proof using.
  intros Hj. unfold pull_mine. cbn zeta.
  match goal with |- context [pull_from _ _ _ _ ?hs j ?n0] =>
    pose proof (pull_from_touches hs j n0 Hj) as H; assert (n_media n0 = n_media n) as E
      by (by rewrite !bump_if_media, bump_media);
    destruct (pull_from _ _ _ _ hs j n0) as [n1 [[]|]]; rewrite E in H end; cbn [fst] in *; [done| |done].
  by rewrite record_failure_media, bump_media.
Qed.

(** ** Copies *)

(** Bytes that may stand for a CID: those it is computed from; for a legacy CID
    nothing is known. *)
Definition good (cid bytes : string) : Prop := IsLegacyCID cid = true \/ compute_cid bytes = cid.

(** A good copy in bucket [b]. *)
Definition copy_in (cid key : string) (b : bucket) (bl : gmap (bucket * string) blob) : Prop :=
  (b = Archive -> archiveBucket ss = true) /\ exists x, bl !! (b, key) = Some x /\ good cid (content x).
Definition has_copy (cid key : string) (bl : gmap (bucket * string) blob) : Prop := exists b, copy_in cid key b bl.

(** Only blobs of [key] have changed. *)
Definition only_key (key : string) (bl bl' : gmap (bucket * string) blob) : Prop :=
  forall bk, bk.2 <> key -> bl' !! bk = bl !! bk.

Lemma only_key_refl key bl : only_key key bl bl.
Proof using. by intros bk. Qed.
Lemma only_key_trans key m1 m2 m3 : only_key key m1 m2 -> only_key key m2 m3 -> only_key key m1 m3.
Proof using. intros H1 H2 bk Hk. by rewrite H2, H1. Qed.
Lemma touches_only_key b key bl bl' : touches b key bl bl' -> only_key key bl bl'.
Proof using. intros H bk Hk. apply H. by intros ->. Qed.
Lemma only_key_delete b key bl : only_key key bl (delete (b, key) bl).
Proof using. eapply touches_only_key, touches_delete. Qed.

Lemma copy_touched cid key b b' bl bl' : b <> b' -> touches b' key bl bl' -> copy_in cid key b bl -> copy_in cid key b bl'.
Proof using. intros Hb Ht [Ha (x & Hx & Hg)]. split; [done|]. exists x. rewrite Ht by congruence. done. Qed.

Lemma bucketForCID_archive cid placement : bucketForCID sha256 ss cid placement = Archive -> archiveBucket ss = true.
Proof using. unfold bucketForCID. by destruct (archiveBucket ss). Qed.

Lemma job_archive j : job_wf j -> j_bucket j = Archive -> archiveBucket ss = true.
Proof using. intros [_ Hb]. rewrite Hb. apply bucketForCID_archive. Qed.

Lemma other_bucket_is b b' : otherBucket ss b = Some b' -> b' <> b /\ (forall c, c <> b -> c = b').
Proof using. unfold otherBucket. destruct (archiveBucket ss), b; cbn; intros; simplify_eq; split; try done; by intros []. Qed.

(** ** Getting a blob that is missing *)

Lemma get_missing_only_key idx j n :
  job_wf j -> only_key (j_key j) (held_blobs n) (held_blobs (get_missing sha256 url_parse ss w idx j n).1).
Proof using.
  intros Hj. unfold get_missing. cbn zeta.
  pose proof (touches_only_key _ _ _ _ (pull_mine_touches j n Hj)) as Hp.
  destruct (blobPresentIn _ _ _ _ _); [|done]. destruct (otherBucket ss (j_bucket j)) as [src|] eqn:Eo; [|done].
  unfold on_media. destruct (relocateBetweenBuckets _ _ _ _ _) as [m [k|e]] eqn:E; cbn [fst].
  - apply relocate_ok in E as (x & _ & _ & Hf); [done|]. apply other_bucket_is in Eo as [Hne _]. congruence.
  - apply relocate_err in E. eapply only_key_trans; [by eapply touches_only_key|].
    by eapply touches_only_key, (pull_mine_touches j (bump "relocate_between_buckets_fail" (set_media m n))).
Qed.

Lemma get_missing_keeps idx j n b :
  job_wf j -> b <> j_bucket j ->
  copy_in (j_cid j) (j_key j) b (held_blobs n) ->
  has_copy (j_cid j) (j_key j) (held_blobs (get_missing sha256 url_parse ss w idx j n).1).
Proof using.
  intros Hj Hb Hc. unfold get_missing. cbn zeta.
  assert (has_copy (j_cid j) (j_key j) (held_blobs (pull_mine sha256 url_parse ss w j n).1)) as Hp.
  { exists b. eapply copy_touched; [done|by apply pull_mine_touches|done]. }
  destruct (blobPresentIn _ _ _ _ _); [|done]. destruct (otherBucket ss (j_bucket j)) as [src|] eqn:Eo; [|done].
  unfold on_media. destruct (relocateBetweenBuckets _ _ _ _ _) as [m [k|e]] eqn:E; cbn [fst].
  - apply other_bucket_is in Eo as [Hne Hall]. apply Hall in Hb as ->. destruct Hc as [_ (x & Hx & Hg)].
    apply relocate_ok in E as (x' & Hx' & Hd & _); [|congruence]. simplify_eq.
    exists (j_bucket j). split; [by apply job_archive|]. by exists (mkBlob (content x) (now w)).
  - apply relocate_err in E. exists b.
    eapply copy_touched; [done|apply (pull_mine_touches j (bump "relocate_between_buckets_fail" (set_media m n))); done|].
    by eapply copy_touched.
Qed.

(** ** Removing a blob *)

Lemma drop_duplicate_only_key idx have j n :
  only_key (j_key j) (held_blobs n) (held_blobs (drop_duplicate ss w idx have j n)).
Proof using.
  unfold drop_duplicate. case_match; [|apply only_key_refl]. cbn zeta.
  pose proof (dropFromBucket_blobs w Primary (j_key j) (n_media n)) as Hd. rewrite bump_media.
  destruct (dropFromBucket _ _ _ _) as [m []]; node_step; cbn in Hd; rewrite Hd;
    case_match; auto using only_key_refl, only_key_delete.
Qed.

(** With a copy in the target bucket the duplicate may go. *)
Lemma drop_duplicate_target idx have j n :
  copy_in (j_cid j) (j_key j) (j_bucket j) (held_blobs n) ->
  copy_in (j_cid j) (j_key j) (j_bucket j) (held_blobs (drop_duplicate ss w idx have j n)).
Proof using.
  intros [Ha (x & Hx & Hg)]. split; [done|]. exists x. split; [|done].
  unfold drop_duplicate. case_match eqn:E; [|done]. cbn zeta.
  assert (j_bucket j = Archive) as Hj.
  { apply andb_prop in E as [E _]. apply andb_prop in E as [_ E]. unfold isArchive in E.
    apply andb_prop in E as [_ E]. by apply bool_decide_eq_true in E. }
  pose proof (dropFromBucket_blobs w Primary (j_key j) (n_media n)) as Hd. rewrite bump_media.
  rewrite Hj in *.
  destruct (dropFromBucket _ _ _ _) as [m []]; node_step; cbn in Hd; rewrite Hd; case_match; try done;
    by rewrite lookup_delete_ne.
Qed.

Lemma drop_duplicate_absent idx j n :
  held_blobs (drop_duplicate ss w idx false j n) = held_blobs n.
Proof using. unfold drop_duplicate. by rewrite andb_false_r. Qed.

Lemma dropFromMyBucket_only_key cid key m :
  ShardCID cid = Some key -> only_key key (blobs m) (blobs (dropFromMyBucket url_parse ss w cid m).1).
Proof using.
  intros Hk. unfold dropFromMyBucket. rewrite Hk. cbn.
  assert (forall b m0, only_key key (blobs m0) (blobs (deleteFrom url_parse ss w key b m0))) as Hd.
  { intros b m0. rewrite deleteFrom_blobs. case_match; auto using only_key_refl, only_key_delete. }
  case_match; [eapply only_key_trans; apply Hd|apply Hd].
Qed.

Lemma drop_over_replicated_only_key e j n :
  job_wf j -> only_key (j_key j) (held_blobs n) (held_blobs (drop_over_replicated url_parse ss w e j n).1).
Proof using.
  intros [Hk _]. unfold drop_over_replicated. cbn zeta. destruct e as [e|]; [|apply only_key_refl].
  case_match; [|apply only_key_refl]. unfold on_media. rewrite bump_media.
  pose proof (dropFromMyBucket_only_key _ _ (n_media n) Hk) as Hd.
  by destruct (dropFromMyBucket _ _ _ _ _) as [m []].
Qed.

Lemma drop_variant_only_key have j n :
  only_key (j_key j) (held_blobs n) (held_blobs (drop_variant url_parse ss w have j n)).
Proof using.
  unfold drop_variant. case_match; [apply only_key_refl|].
  pose proof (bucket_delete_blobs w Primary (j_key j) (n_media n)) as Hd.
  destruct (bucket_delete _ _ _ _) as [m [[]|[]]]; unfold forget_blob; node_step; cbn in Hd;
    rewrite ?forget_blobs; node_step; rewrite Hd; case_match; auto using only_key_refl, only_key_delete.
Qed.

(** A node keeps a blob that was placed on it, that it stores in any case, that is
    recent, or for which it ranks high enough. *)
Definition retained (j : cid_job) : Prop :=
  j_placement j <> [] \/ StoreAll (Config ss) = true \/ j_recent j = true \/
  slices_Index (j_preferred j) (Self_Host (Config ss)) < ReplicationFactor (Config ss).

Lemma retained_not_dropped e j n :
  retained j -> drop_over_replicated url_parse ss w e j n = (n, Ok tt).
Proof using.
  intros Hr. unfold drop_over_replicated. destruct e as [e|]; [|done]. cbn zeta.
  case_match eqn:E; [exfalso|done]. repeat (apply andb_prop in E as [E ?]).
  apply bool_decide_eq_true in E. destruct Hr as [Hr|[Hr|[Hr|Hr]]]; [done| | |].
  - by rewrite Hr in *.
  - by rewrite Hr in *.
  - match goal with H : (_ <=? _) = true |- _ => apply Z.leb_le in H; lia end.
Qed.

(** ** Validation *)

Lemma validate_touches have j n :
  touches (j_bucket j) (j_key j) (held_blobs n) (held_blobs (validate_blob url_parse compute_cid ss w have j n).1).
Proof using.
  unfold validate_blob. case_match; [apply touches_refl|].
  destruct (NewReader _ _ _ _) as [x|]; [|apply touches_refl].
  do 2 (case_match; [apply touches_refl|]). cbn zeta. rewrite bump_media.
  pose proof (bucket_delete_blobs w (j_bucket j) (j_key j) (n_media n)) as Hd.
  destruct (bucket_delete _ _ _ _) as [m [[]|e]]; unfold forget_blob; cbn [fst] in *; node_step;
    rewrite ?forget_blobs; node_step; rewrite Hd; case_match; auto using touches_refl, touches_delete.
Qed.

(** What validation removes is not a good copy. *)
Lemma validate_keeps have j n b :
  copy_in (j_cid j) (j_key j) b (held_blobs n) ->
  copy_in (j_cid j) (j_key j) b (held_blobs (validate_blob url_parse compute_cid ss w have j n).1).
Proof using.
  intros Hc. destruct (decide (b = j_bucket j)) as [->|Hb]; [|by eapply copy_touched, Hc; [|apply validate_touches]].
  unfold validate_blob. case_match eqn:E; [done|]. apply negb_false_iff in E.
  apply andb_prop in E as [_ E]. apply negb_true_iff in E.
  destruct Hc as [Ha (x & Hx & Hg)]. unfold NewReader. rewrite Hx. destruct (io_fault w (IoNewReader _ _)); [by split; eauto|].
  cbn. destruct (io_fault w (IoBody _ _)); [by split; eauto|].
  destruct Hg as [Hg|Hg]; [congruence|]. rewrite Hg, String.eqb_refl. split; [done|]. exists x. split; [done|by right].
Qed.

Lemma validate_true have j n n' :
  validate_blob url_parse compute_cid ss w have j n = (n', Ok true) ->
  held_blobs n' = held_blobs n /\ CleanupMode (tracker n') = CleanupMode (tracker n) /\
  (CleanupMode (tracker n) = true -> have = true -> io_fault w (IoBody (j_bucket j) (j_key j)) = false ->
   exists x, held_blobs n !! (j_bucket j, j_key j) = Some x /\ good (j_cid j) (content x) \/ IsLegacyCID (j_cid j) = true).
Proof using.
  unfold validate_blob, NewReader. intros H. case_match eqn:E.
  { simplify_eq. split; [done|]. split; [done|]. intros H1 H2 _. rewrite H1, H2 in E. cbn in E.
    rewrite negb_involutive in E. exists (mkBlob "" 0). by right. }
  destruct (io_fault w (IoNewReader _ _)); [done|].
  destruct (held_blobs n !! (j_bucket j, j_key j)) as [x|] eqn:Ex; cbn in H; [|done].
  destruct (io_fault w (IoBody _ _)); [by simplify_eq|].
  destruct (String.eqb _ _) eqn:Ec.
  - simplify_eq. split; [done|]. split; [done|]. intros _ _ _. exists x. left. split; [done|].
    right. by apply String.eqb_eq.
  - destruct (bucket_delete _ _ _ _) as [m []]; by simplify_eq.
Qed.
End Stages.

(** ** A repair keeps what it must *)

Section Keeps.
Context (sha256 : string -> string) (url_parse : string -> option (string * string)).
Context (compute_cid : string -> string) (ss : MediorumServer) (w : world).

Notation copies cid key n := (has_copy compute_cid ss cid key (held_blobs n)).

(** The presence check of a repair says what is in the bucket. *)
Definition accurate (idx : option repairPresenceIndex) (b : bucket) (key : string) (m : media) : Prop :=
  match idx with
  | Some idx => is_Some (Lookup idx key b) <-> is_Some (blobs m !! (b, key))
  | None => io_fault w (IoAttributes b key) = false
  end.

Lemma resolve_accurate idx j n :
  accurate idx (j_bucket j) (j_key j) (n_media n) ->
  is_Some (resolve_presence ss w idx j n).2 <-> is_Some (held_blobs n !! (j_bucket j, j_key j)).
Proof using.
  unfold accurate, resolve_presence, Attributes. destruct idx as [idx|].
  - intros <-. by destruct (Lookup _ _ _).
  - intros ->. destruct (held_blobs n !! _); cbn; [split; eauto|split; by intros []].
Qed.

Lemma resolve_cleanup idx j n : CleanupMode (tracker (resolve_presence ss w idx j n).1) = CleanupMode (tracker n).
Proof using. unfold resolve_presence, bump_if. by repeat case_match. Qed.

Lemma repair_blob_only_key idx j n :
  job_wf sha256 ss j -> only_key (j_key j) (held_blobs n) (held_blobs (repair_blob sha256 url_parse compute_cid ss w idx j n).1).
Proof using.
  intros Hj. unfold repair_blob. pose proof (resolve_media ss w idx j n) as Hr.
  destruct (resolve_presence _ _ _ _ _) as [n0 e]. cbn in Hr. cbn zeta.
  match goal with |- context [validate_blob _ _ _ _ ?h j ?n1] =>
    pose proof (validate_touches url_parse compute_cid ss w h j n1) as Hv; destruct (validate_blob _ _ _ _ h j n1) as [n2 [go|er]] end;
    cbn [fst] in Hv; node_step; rewrite Hr in Hv; apply touches_only_key in Hv; [|done].
  destruct go; [|done]. eapply only_key_trans; [exact Hv|]. clear Hv.
  destruct (is_variant _); [apply drop_variant_only_key|].
  set (n3 := match e with Some e => mark_present e j n2 | None => n2 end).
  assert (held_blobs n3 = held_blobs n2) as E3 by (by destruct e). rewrite <- E3.
  eapply only_key_trans; [apply (drop_duplicate_only_key ss w idx (bool_decide (is_Some e)) j n3)|].
  case_match; [by eapply get_missing_only_key|by apply (drop_over_replicated_only_key sha256)].
Qed.

Lemma repair_blob_keeps idx j n :
  job_wf sha256 ss j -> retained ss j -> is_variant (j_cid j) = false ->
  accurate idx (j_bucket j) (j_key j) (n_media n) -> io_fault w (IoBody (j_bucket j) (j_key j)) = false ->
  copies (j_cid j) (j_key j) n ->
  copies (j_cid j) (j_key j) (repair_blob sha256 url_parse compute_cid ss w idx j n).1.
Proof using.
  intros Hj Hr Hv Ha Hb [b Hc]. unfold repair_blob.
  pose proof (resolve_accurate idx j n Ha) as He. pose proof (resolve_media ss w idx j n) as Hm.
  destruct (resolve_presence _ _ _ _ _) as [n0 e]. cbn [fst snd] in He, Hm. cbn zeta.
  set (n1 := set_tracker _ n0). assert (held_blobs n1 = held_blobs n) as E1 by (cbn; by rewrite Hm).
  rewrite <- E1 in *. clearbody n1. clear n0 Hm E1 Ha.
  pose proof (validate_keeps url_parse compute_cid ss w (bool_decide (is_Some e)) j n1 b Hc) as Hk.
  destruct (validate_blob _ _ _ _ _ _ n1) as [n2 [go|er]] eqn:Ev; cbn [fst] in Hk |- *; [|by exists b].
  destruct go; [|by exists b]. rewrite Hv. apply validate_true in Ev as (E2 & Ec & Eg). rewrite <- E2 in *.
  destruct e as [e|].
  - (* the target bucket has the blob *)
    replace (bool_decide (is_Some (Some e))) with true in * by done. rewrite andb_false_r. cbn [andb].
    rewrite (retained_not_dropped url_parse ss w (Some e) j _ Hr). cbn [fst].
    destruct (CleanupMode (tracker n2)) eqn:Em.
    + exists (j_bucket j). apply drop_duplicate_target. node_step.
      destruct (proj1 He ltac:(done)) as [x Hx]. split; [by eapply job_archive|]. exists x. split; [done|].
      destruct (Eg ltac:(congruence) eq_refl Hb) as [x' [[Hx' Hg]|Hl]]; [by simplify_eq|by left].
    + exists b. unfold drop_duplicate, mark_present. node_step. cbn [CleanupMode set_counters add_size] in *.
      unfold set_counters. cbn [CleanupMode]. by rewrite Em.
  - (* it does not *)
    replace (bool_decide (is_Some (@None presenceEntry))) with false in * by done.
    assert (b <> j_bucket j) as Hne.
    { intros ->. destruct Hk as [_ (x & Hx & _)]. by destruct (proj2 He ltac:(by eexists)). }
    assert (copies (j_cid j) (j_key j) (drop_duplicate ss w idx false j n2)) as Hd.
    { exists b. by rewrite drop_duplicate_absent. }
    case_match; [|by rewrite retained_not_dropped].
    eapply get_missing_keeps; [done|done|]. by rewrite drop_duplicate_absent.
Qed.

(** What a node is required to hold. *)
Definition required (cid : string) (placement : list string) (pol : repairRetentionPolicy) (createdAt : option Z) : bool :=
  bool_decide (placement <> []) || (rendezvousAllHosts sha256 ss cid).2 || shouldStoreRecent pol createdAt.

Lemma repair_known_cases idx j n :
  let r := repair_known sha256 url_parse compute_cid ss w idx j n in
  held_blobs r.1 = held_blobs n \/ r = repair_blob sha256 url_parse compute_cid ss w idx j n.
Proof using. unfold repair_known. repeat case_match; cbn; auto. Qed.

(** C14 -- A repair does not cost a node a good copy of a blob it is required to hold: one
    with placement hosts, one kept by StoreAll, a recent one, or one for which the node
    ranks within the replication factor.  The CID is not that of a derived image.  Two
    answers of the storage have to be right: the presence check of the CID's bucket, and
    the body of the copy in it, which must be readable.  Whatever else the storage, the
    database and the peers answer, a copy whose bytes hash to the CID (any copy, for a
    legacy CID) in one of the buckets is still in one of them afterwards, and blobs of
    other keys are not touched.  Without either condition a good copy can be lost
    ([hidden_blob_is_overwritten], [unread_archive_costs_the_good_copy]). *)
Theorem repair_keeps_required_blobs cid key placement idx pol createdAt n :
  ShardCID cid = Some key -> is_variant cid = false -> required cid placement pol createdAt = true ->
  accurate idx (bucketForCID sha256 ss cid placement) key (n_media n) ->
  io_fault w (IoBody (bucketForCID sha256 ss cid placement) key) = false ->
  let n' := (repairCidWithPolicy sha256 url_parse compute_cid ss w cid placement idx pol createdAt n).1 in
  (copies cid key n -> copies cid key n') /\ only_key key (held_blobs n) (held_blobs n').
Proof using.
  intros Hk Hv Hr Ha Hb. cbn zeta. unfold repairCidWithPolicy. case_match; [done|].
  destruct (rendezvousAllHosts sha256 ss cid) as [ranked mine] eqn:Er. case_match; [done|].
  case_match; [done|]. case_match; [done|]. rewrite Hk. cbn zeta.
  match goal with |- context [repair_known _ _ _ _ _ _ ?j0 ?n0] => set (j := j0); set (n1 := n0) end.
  assert (job_wf sha256 ss j) as Hj by (by split).
  destruct (repair_known_cases idx j n1) as [E| ->]; [by rewrite E|].
  split; [|by apply (repair_blob_only_key idx j n1)].
  apply (repair_blob_keeps idx j n1); [done| |done..].
  unfold required in Hr. rewrite Er in Hr. unfold retained. subst j. cbn.
  destruct (decide (placement <> [])) as [Hp|Hp]; [by left|]. rewrite !bool_decide_eq_false_2 in * by done. cbn in Hr.
  right. apply orb_prop in Hr as [Hr|Hr]; [|by auto].
  unfold rendezvousAllHosts in Er. injection Er as <- Em. rewrite <- Em in Hr.
  apply orb_prop in Hr as [Hr|Hr]; [|by auto].
  apply andb_prop in Hr as [_ Hr]. apply Z.ltb_lt in Hr. by auto.
Qed.
End Keeps.
