(* ===== verification/MediaCycle.v ===== *)
(** * A repair cycle leaves nothing missing

    A cycle that is not a cleanup only adds blobs; when the peers still have what the
    node is required to hold, the scan of the uploads ends with all of it on the
    node. *)

From stdpp Require Import base gmap strings list sorting fin_maps.
From Stdlib Require Import ZArith Lia Ascii.
From S2P Require Import Prelude Crypto Rendezvous Snapshots MediaStore MediaPresence MediaRepair MediaProps.

Open Scope string_scope.
Open Scope Z_scope.

Section Cycles.
Context (sha256 : string -> string) (url_parse : string -> option (string * string)).
Context (compute_cid : string -> string) (ss : MediorumServer).

(** ** What a node holds *)

(** A blob of this key is in one of the buckets. *)
Definition held (key : string) (m : media) : Prop :=
  exists b, (b = Archive -> archiveBucket ss = true) /\ is_Some (blobs m !! (b, key)).

(** Cached presence is true. *)
Definition known_sound (m : media) : Prop :=
  forall key b, is_Some (knownPresent m !! presenceCacheKey key b) -> held key m.

Definition keeps_held (m m' : media) : Prop := forall k, held k m -> held k m'.

Lemma cache_key_inj k b k' b' : presenceCacheKey k b = presenceCacheKey k' b' -> k = k'.
Proof using. destruct b, b'; cbn; intros; by simplify_eq. Qed.

(** The cache of [m'] is that of [m] but for records of a blob that is held. *)
Lemma known_sound_step key m m' :
  held key m' -> keeps_held m m' ->
  (forall k b, k <> key -> is_Some (knownPresent m' !! presenceCacheKey k b) -> is_Some (knownPresent m !! presenceCacheKey k b)) ->
  known_sound m -> known_sound m'.
Proof using.
  intros Hh Hk Hc Hs k b Hkb. destruct (decide (k = key)) as [->|Hne]; [done|]. eapply Hk, Hs, Hc; done.
Qed.

Lemma known_insert key b v (t : gmap string Z) k b' :
  k <> key -> is_Some (<[presenceCacheKey key b := v]> t !! presenceCacheKey k b') -> is_Some (t !! presenceCacheKey k b').
Proof using.
  intros Hne. rewrite lookup_insert_ne; [done|]. intros E. by apply cache_key_inj in E.
Qed.

Lemma known_delete key b (t : gmap string Z) k b' :
  is_Some (delete (presenceCacheKey key b) t !! presenceCacheKey k b') -> is_Some (t !! presenceCacheKey k b').
Proof using. intros [v Hv]. apply lookup_delete_Some in Hv as [_ Hv]. by eexists. Qed.

(** ** Steps *)

(** [mild key n n'] : nothing held is lost, the cache stays true, the tracker's mode,
    skips and cursors are the same, and [key] at most is newly seen. *)
Record mild (key : string) (n n' : node) : Prop := {
  mild_held : keeps_held (n_media n) (n_media n');
  mild_known : known_sound (n_media n) -> known_sound (n_media n');
  mild_mode : CleanupMode (tracker n') = CleanupMode (tracker n);
  mild_skips : PruneSkips (tracker n') = PruneSkips (tracker n);
  mild_cursor : forall tb, cursor tb (tracker n') = cursor tb (tracker n);
  mild_seen : forall k, is_Some (SeenKeys (tracker n') !! k) -> k = key \/ is_Some (SeenKeys (tracker n) !! k)
}.

Lemma mild_refl key n : mild key n n.
Proof using. split; try done; try (by intros ?); intros; by right. Qed.

Lemma mild_trans key n1 n2 n3 : mild key n1 n2 -> mild key n2 n3 -> mild key n1 n3.
Proof using.
  intros [H1 H2 H3 H4 H5 H6] [K1 K2 K3 K4 K5 K6]. split.
  - intros k Hk. by apply K1, H1.
  - by auto.
  - congruence.
  - congruence.
  - intros tb. by rewrite K5.
  - intros k Hk. destruct (K6 k Hk); auto.
Qed.

(** The tracker's counters and sizes do not matter. *)
Lemma mild_same key n n1 n2 :
  n_media n2 = n_media n1 -> CleanupMode (tracker n2) = CleanupMode (tracker n1) -> PruneSkips (tracker n2) = PruneSkips (tracker n1) ->
  (forall tb, cursor tb (tracker n2) = cursor tb (tracker n1)) -> SeenKeys (tracker n2) = SeenKeys (tracker n1) ->
  mild key n n1 -> mild key n n2.
Proof using.
  intros E1 E2 E3 E4 E5 Hm. eapply mild_trans; [done|]. split; rewrite ?E1, ?E5; try done; try (by intros ?).
  intros; by right.
Qed.
Lemma mild_bump key k n n' : mild key n n' -> mild key n (bump k n').
Proof using. by apply (mild_same _ _ n'). Qed.
Lemma mild_bump_if key c k n n' : mild key n n' -> mild key n (bump_if c k n').
Proof using. destruct c; [apply mild_bump|done]. Qed.
Lemma mild_add_size key k n n' : mild key n n' -> mild key n (set_tracker (add_size k) n').
Proof using. by apply (mild_same _ _ n'). Qed.
Lemma mild_set_seen key r n n' : mild key n n' -> mild key n (set_tracker (set_seen key r) n').
Proof using.
  intros Hm. eapply mild_trans; [done|]. split; try done; try (by intros ?).
  intros k. cbn. destruct (decide (k = key)) as [->|]; [by auto|]. rewrite lookup_insert_ne; auto.
Qed.
Lemma mild_clear w key cid n n' : mild key n n' -> mild key n (clearRepairFailure w cid n').
Proof using.
  intros. unfold clearRepairFailure. repeat case_match; try done.
  apply mild_bump_if. by apply (mild_same _ _ n').
Qed.

(** A step of the media that keeps what is held and records [key]. *)
Lemma mild_media key n m :
  keeps_held (n_media n) m -> (known_sound (n_media n) -> known_sound m) -> mild key n (set_media m n).
Proof using. intros H1 H2. split; try done. intros k Hk. by right. Qed.

Ltac mild_chain :=
  repeat first [assumption | apply mild_bump | apply mild_bump_if | apply mild_add_size | apply mild_set_seen
               | apply mild_clear | apply mild_refl].

(** ** A healthy world *)

(** Storage, disk and database work. *)
Record healthy (w : world) : Prop := {
  no_fault : forall io, io_fault w io = false;
  no_short : forall b key, io_short w b key = None;
  closes : forall b key, io_close w b key true = Closed;
  not_done : ctx_done w = false;
  has_space : diskHasSpace ss w = true;
  has_space_for : forall cid placement, diskHasSpaceForCID sha256 ss w cid placement = true
}.

Lemma healthy_writable w b key : healthy w -> writable w b key.
Proof using. intros []. by repeat split. Qed.

Lemma writes_keep w b key bytes m : (b = Archive -> archiveBucket ss = true) -> keeps_held m (store_blob w b key bytes m).
Proof using.
  intros Ha k (b' & Ha' & x & Hx). destruct (decide ((b', k) = (b, key))) as [E|E].
  - simplify_eq. exists b. split; [done|]. cbn. rewrite lookup_insert_eq. by eexists.
  - exists b'. split; [done|]. cbn. rewrite lookup_insert_ne by done. by eexists.
Qed.

Lemma cleanup_known w b key m : knownPresent (cleanupStaleTempsNearKey ss w b key m) = knownPresent m.
Proof using. unfold cleanupStaleTempsNearKey. by repeat case_match. Qed.
Lemma record_known w b key k m : knownPresent (recordBlobPresent url_parse ss w b key k m) = knownPresent m.
Proof using. unfold recordBlobPresent. by repeat case_match. Qed.

Lemma keeps_held_blobs m m' : (forall bk, is_Some (blobs m !! bk) -> is_Some (blobs m' !! bk)) -> keeps_held m m'.
Proof using. intros H k (b & Ha & Hb). exists b. auto. Qed.

(** A pull of a whole body lands. *)
Lemma replicate_lands w cid key bytes placement m :
  healthy w -> ShardCID cid = Some key ->
  exists m', replicateToMyBucket sha256 url_parse ss w cid (bytes, true) placement m = (m', Ok tt) /\
    held key m' /\ keeps_held m m' /\ (known_sound m -> known_sound m').
Proof using.
  intros Hw Hk. set (b := bucketForCID sha256 ss cid placement).
  assert (b = Archive -> archiveBucket ss = true) as Ha by apply bucketForCID_archive.
  unfold replicateToMyBucket. rewrite Hk. cbn. unfold pbind.
  rewrite write_blob_writable by (by apply healthy_writable). eexists. split; [done|].
  match goal with |- held key ?m' /\ _ => assert (held key m') as Hh; [|assert (keeps_held m m') as Hkeep] end.
  - exists b. split; [done|]. rewrite cleanup_blobs, record_blobs. cbn. rewrite lookup_insert_eq. by eexists.
  - intros k Hk'. apply (writes_keep w b key bytes m Ha) in Hk'. destruct Hk' as (b' & ? & ?). exists b'.
    by rewrite cleanup_blobs, record_blobs.
  - split; [done|]. split; [done|]. eapply known_sound_step; [done..|].
    intros k b' Hne. rewrite cleanup_known, record_known. by apply known_insert.
Qed.

(** A pull that fails loses nothing. *)
Lemma replicate_fails w cid key body placement m m' e :
  ShardCID cid = Some key ->
  replicateToMyBucket sha256 url_parse ss w cid body placement m = (m', Err e) ->
  e <> MPanic /\ keeps_held m m' /\ (known_sound m -> known_sound m').
Proof using.
  intros Hk. set (b := bucketForCID sha256 ss cid placement).
  assert (b = Archive -> archiveBucket ss = true) as Ha by apply bucketForCID_archive.
  unfold replicateToMyBucket. rewrite Hk. cbn. unfold pbind, write_blob. fold b. intros H.
  assert (forall bytes, keeps_held m (store_blob w b key bytes m)) as Hs by (intros; by apply writes_keep).
  assert (forall m0, keeps_held m m0 -> knownPresent m0 = knownPresent m -> known_sound m -> known_sound m0) as Hc.
  { intros m0 H0 E Hs0 k b'. rewrite E. intros. by eapply H0, Hs0. }
  assert (keeps_held m m) as Hm by (by intros k).
  repeat case_match; simplify_eq; (split; [done|split; [|apply Hc]]); try done; apply Hs.
Qed.

(** ** Pulling *)

Section Job.
Context (w : world) (j : cid_job).
Hypothesis (Hw : healthy w) (Hj : job_wf sha256 ss j).
Notation key := (j_key j).

Lemma pull_host_outcome host n :
  exists m r, on_media (pullFileFromHost sha256 url_parse ss w host (j_cid j) (j_placement j)) n = (set_media m n, r) /\
    mild key n (set_media m n) /\ r <> Err MPanic /\ (r = Ok tt -> held key m) /\
    (host <> Self_Host (Config ss) -> (exists bytes, fetch w host (j_cid j) = Some (bytes, true)) -> r = Ok tt).
Proof using Hw Hj.
  destruct Hj as [Hk _]. unfold on_media, pullFileFromHost.
  assert (mild key n (set_media (n_media n) n)) as Hsame by (apply mild_media; [by intros k|done]).
  destruct (String.eqb_spec host (Self_Host (Config ss))) as [Eh|Eh].
  { by exists (n_media n), (Err (MErr "should not pull blob from self")). }
  destruct (fetch w host (j_cid j)) as [[bytes c]|].
  2: { exists (n_media n), (Err (MErr "fetch")). split; [done|]. split; [done|]. split; [done|]. split; [done|].
       by intros _ [? ?]. }
  destruct (replicateToMyBucket _ _ _ _ _ _ _ _) as [m [[]|e]] eqn:E.
  - pose proof (replicate_ok _ _ _ _ _ _ _ _ _ _ Hk E) as [Hc _]. cbn in Hc. subst c.
    destruct (replicate_lands w (j_cid j) key bytes (j_placement j) (n_media n) Hw Hk) as (m' & E' & Hh & H1 & H2).
    rewrite E in E'. injection E' as <-. exists m, (Ok tt). split; [done|]. split; [by apply mild_media|done].
  - destruct (replicate_fails w _ _ _ _ _ _ _ Hk E) as (He & H1 & H2). exists m, (Err e).
    split; [done|]. split; [by apply mild_media|]. split; [congruence|]. split; [done|].
    intros _ [bytes' Hb]. injection Hb as <- ->.
    destruct (replicate_lands w (j_cid j) key bytes (j_placement j) (n_media n) Hw Hk) as (m' & E' & _). congruence.
Qed.

Lemma pull_from_serves hosts h bytes n :
  h ∈ hosts -> h <> Self_Host (Config ss) -> fetch w h (j_cid j) = Some (bytes, true) ->
  exists n', pull_from sha256 url_parse ss w hosts j n = (n', Ok true) /\ mild key n n' /\ held key (n_media n').
Proof using Hw Hj.
  intros Hin Hself Hf. revert n. induction hosts as [|x xs IH]; intros n; [by apply elem_of_nil in Hin|].
  cbn [pull_from]. destruct (String.eqb_spec x (Self_Host (Config ss))) as [Hx|Hx].
  { apply IH. apply elem_of_cons in Hin as [->|]; done. }
  destruct (pull_host_outcome x n) as (m & r & -> & Hmild & Hp & Hok & Hserved).
  assert (forall n1, mild key n n1 -> h ∈ xs -> exists n',
    pull_from sha256 url_parse ss w xs j n1 = (n', Ok true) /\ mild key n n' /\ held key (n_media n')) as Hrec.
  { intros n1 Hm Hxs. destruct (IH Hxs n1) as (n' & E & Hm' & Hh). exists n'. split; [done|].
    split; [by eapply mild_trans|done]. }
  destruct r as [[]|e].
  - eexists. split; [done|]. set (n1 := clearRepairFailure _ _ _).
    assert (mild key n n1) as H1.
    { unfold n1. mild_chain. }
    assert (n_media n1 = m) as E1 by (unfold n1; by rewrite clear_failure_media, bump_if_media).
    rewrite <- E1 in Hok. destruct (Attributes _ _ _ _); (split; [by mild_chain|by apply Hok]).
  - apply elem_of_cons in Hin as [->|Hin]; [by discriminate Hserved; eauto|].
    destruct e; [done|..]; (apply Hrec; [by apply mild_bump|done]).
Qed.

Lemma candidates_include ex h : h ∈ take (Z.to_nat (maxPullAttempts ss)) (j_preferred j) -> h ∈ pull_candidates ss w ex j.
Proof using.
  intros Hin. unfold pull_candidates. cbn zeta.
  assert (h ∈ (if ex then j_preferred j else take (Z.to_nat (maxPullAttempts ss)) (j_preferred j))) as H.
  { destruct ex; [|done]. by eapply elem_of_take in Hin as (i & Hi & _); eapply list_elem_of_lookup_2. }
  revert H. generalize (if ex then j_preferred j else take (Z.to_nat (maxPullAttempts ss)) (j_preferred j)).
  generalize (findStoreAllPeers ss w (j_cid j) media_hour storeAllFallbackHosts).
  intros l. induction l as [|x l IH]; intros c Hc; [done|]. cbn. apply IH.
  case_bool_decide; [done|]. apply elem_of_app. by left.
Qed.

(** One of the hosts that are asked has the blob. *)
Definition served : Prop :=
  exists h bytes, h ∈ take (Z.to_nat (maxPullAttempts ss)) (j_preferred j) /\ h <> Self_Host (Config ss) /\
    fetch w h (j_cid j) = Some (bytes, true).

Lemma pull_mine_serves n :
  served -> exists n', pull_mine sha256 url_parse ss w j n = (n', Ok tt) /\ mild key n n' /\ held key (n_media n').
Proof using Hw Hj.
  intros (h & bytes & Hin & Hself & Hf). unfold pull_mine. cbn zeta.
  match goal with |- context [pull_from _ _ _ _ ?hs j ?n0] =>
    destruct (pull_from_serves hs h bytes n0) as (n' & -> & Hm & Hh); [by apply candidates_include|done..|] end.
  exists n'. split; [done|]. split; [|done]. eapply mild_trans; [|exact Hm]. mild_chain.
Qed.

(** Moving between buckets keeps the blob; a stale source is reported. *)
Lemma relocate_outcome src m :
  src <> j_bucket j ->
  (exists m' k, relocateBetweenBuckets w key (j_bucket j) src m = (m', Ok k) /\
     held key m' /\ keeps_held m m' /\ (known_sound m -> known_sound m')) \/
  exists e, relocateBetweenBuckets w key (j_bucket j) src m = (m, Err e).
Proof using Hw Hj.
  intros Hne. destruct (relocateBetweenBuckets w key (j_bucket j) src m) as [m' [k|e]] eqn:E.
  - left. exists m', k. split; [done|]. pose proof E as E0.
    apply relocate_ok in E as (x & Hx & Hd & Ho); [|congruence].
    assert (held key m') as Hh. { exists (j_bucket j). split; [by eapply job_archive|by eexists]. }
    assert (keeps_held m m') as Hk.
    { intros k0 (b & Ha & Hb). destruct (decide (k0 = key)) as [->|Hk0]; [done|]. exists b. by rewrite Ho. }
    split; [done|]. split; [done|]. eapply known_sound_step; [done..|]. intros k0 b Hk0.
    unfold relocateBetweenBuckets, pbind, query, NewReader, write_blob in E0. repeat case_match; simplify_eq; cbn;
    (unfold dropFromBucket, bucket_delete; repeat case_match; simplify_eq; cbn; intros Hb;
     try (apply known_delete in Hb); by apply known_insert in Hb).
  - right. exists e. destruct Hw as [Hf Hs Hc _ _ _]. unfold relocateBetweenBuckets, pbind, query, NewReader in E.
    rewrite Hf in E. destruct (blobs m !! (src, key)) as [x|]; [|by simplify_eq]. rewrite Hf in E. cbn in E.
    rewrite write_blob_writable in E by (by apply healthy_writable). done.
Qed.

Lemma get_missing_serves idx n :
  served -> exists n', get_missing sha256 url_parse ss w idx j n = (n', Ok tt) /\ mild key n n' /\ held key (n_media n').
Proof using Hw Hj.
  intros Hs. unfold get_missing. cbn zeta. destruct (blobPresentIn _ _ _ _ _); [|by apply pull_mine_serves].
  destruct (otherBucket ss (j_bucket j)) as [src|] eqn:Eo; [|by apply pull_mine_serves].
  apply other_bucket_is in Eo as [Hne _]. unfold on_media.
  destruct (relocate_outcome src (n_media n) Hne) as [(m & k & -> & Hh & H1 & H2)|[e ->]].
  - eexists. split; [done|]. split; [|done]. pose proof (mild_media key n m H1 H2). mild_chain.
  - destruct (pull_mine_serves (bump "relocate_between_buckets_fail" (set_media (n_media n) n)) Hs) as (n' & -> & Hm & Hh).
    exists n'. split; [done|]. split; [|done]. eapply mild_trans; [|exact Hm]. apply mild_bump, mild_media; [by intros k|done].
Qed.

(** ** A job outside cleanup *)

(** What the index lists is held. *)
Definition index_sound (idx : repairPresenceIndex) (m : media) : Prop :=
  forall k b, is_Some (Lookup idx k b) -> held k m.

Lemma repair_blob_serves idx n :
  CleanupMode (tracker n) = false -> j_mine j = true -> is_variant (j_cid j) = false ->
  index_sound idx (n_media n) -> served ->
  exists n', repair_blob sha256 url_parse compute_cid ss w (Some idx) j n = (n', Ok tt) /\ mild key n n' /\ held key (n_media n').
Proof using Hw Hj.
  intros Hc Hmine Hv Hi Hs. unfold repair_blob.
  assert (mild key n (resolve_presence ss w (Some idx) j n).1) as Hr.
  { unfold resolve_presence. case_match; mild_chain. }
  pose proof (resolve_cleanup ss w (Some idx) j n) as Hm. pose proof (resolve_media ss w (Some idx) j n) as Hn.
  assert ((resolve_presence ss w (Some idx) j n).2 = Lookup idx key (j_bucket j)) as He
    by (unfold resolve_presence; by case_match).
  destruct (resolve_presence _ _ _ _ _) as [n0 e]. cbn [fst snd] in *. subst e. cbn zeta.
  remember (Lookup idx key (j_bucket j)) as pe eqn:Ee. set (n1 := set_tracker _ n0).
  assert (mild key n n1) as H1 by (by apply mild_set_seen).
  assert (CleanupMode (tracker n1) = false) as Hc1 by (cbn; congruence).
  unfold validate_blob. rewrite Hc1. cbn [andb negb]. rewrite Hv.
  assert (forall n2, CleanupMode (tracker n2) = false -> drop_duplicate ss w (Some idx) (bool_decide (is_Some pe)) j n2 = n2) as Hd.
  { intros n2 E. unfold drop_duplicate. by rewrite E. }
  destruct pe as [e|].
  - assert (held key (n_media n)) as Hh by (eapply Hi; by rewrite <- Ee).
    rewrite Hd by done. replace (bool_decide (is_Some (Some e))) with true by done. rewrite andb_false_r. cbn [andb].
    eexists. split.
    { unfold drop_over_replicated. cbn zeta.
      match goal with |- context [mark_present e j n1] =>
        assert (CleanupMode (tracker (mark_present e j n1)) = false) as -> by done end.
      by rewrite andb_false_r, !andb_false_l. }
    assert (mild key n (mark_present e j n1)) as Hmp.
    { unfold mark_present. apply mild_add_size, mild_bump. eapply mild_trans; [exact H1|]. apply mild_media; [by intros k|].
      intros Hks. eapply (known_sound_step key (n_media n1)); [by apply (mild_held _ _ _ H1)|by intros k| |done].
      intros k b Hne. exact (known_insert key (j_bucket j) _ _ k b Hne). }
    split; [done|]. by apply (mild_held _ _ _ Hmp).
  - rewrite Hd by done. replace (bool_decide (is_Some (@None presenceEntry))) with false by done.
    rewrite Hmine, (has_space_for w Hw). cbn [andb negb].
    destruct (get_missing_serves (Some idx) n1 Hs) as (n' & -> & Hm' & Hh).
    exists n'. split; [done|]. split; [by eapply mild_trans|done].
Qed.
End Job.

(** ** One CID *)

(** Outside cleanup: what is cached or seen is held. *)
Record cycle_inv (n : node) : Prop := {
  inv_mode : CleanupMode (tracker n) = false;
  inv_known : known_sound (n_media n);
  inv_seen : forall k, is_Some (SeenKeys (tracker n) !! k) -> held k (n_media n)
}.

(** From [n] to [n'] nothing held is lost, and the skips and the cursors are the same. *)
Record advances (n n' : node) : Prop := {
  adv_held : keeps_held (n_media n) (n_media n');
  adv_skips : PruneSkips (tracker n') = PruneSkips (tracker n);
  adv_cursor : forall tb, cursor tb (tracker n') = cursor tb (tracker n)
}.

Lemma advances_refl n : advances n n.
Proof using. by split; try intros ?. Qed.
Lemma advances_trans n1 n2 n3 : advances n1 n2 -> advances n2 n3 -> advances n1 n3.
Proof using.
  intros [H1 H2 H3] [K1 K2 K3]. split; [intros k Hk; by apply K1, H1|congruence|intros tb; by rewrite K3].
Qed.
Lemma mild_advances key n n' : mild key n n' -> advances n n'.
Proof using. intros []. by split. Qed.

Lemma mild_inv key n n' : mild key n n' -> held key (n_media n') -> cycle_inv n -> cycle_inv n'.
Proof using.
  intros [H1 H2 H3 H4 H5 H6] Hh [I1 I2 I3]. split; [congruence|by auto|].
  intros k Hk. destruct (H6 k Hk) as [->|Hs]; [done|]. by apply H1, I3.
Qed.

(** A counter more or less. *)
Lemma bump_inv k n : cycle_inv n -> cycle_inv (bump k n).
Proof using. by intros []. Qed.
Lemma bump_advances k n : advances n (bump k n).
Proof using. by split; try intros ?. Qed.

Section Policy.
Context (pol : repairRetentionPolicy).

(** The hosts a blob is expected on, and whether this node should hold it. *)
Definition preferred (cid : string) (placement : list string) : list string :=
  if bool_decide (placement <> []) then placement else (rendezvousAllHosts sha256 ss cid).1.
Definition wanted (cid : string) (placement : list string) (createdAt : option Z) : bool :=
  if bool_decide (placement <> []) then bool_decide (Self_Host (Config ss) ∈ placement)
  else (rendezvousAllHosts sha256 ss cid).2 || shouldStoreRecent pol createdAt.

(** The CID has a key, is not that of a derived image, and when it is wanted one of
    the hosts a pull asks first still serves it. *)
Definition repairable (w : world) (cid : string) (placement : list string) (createdAt : option Z) : Prop :=
  cid = "" \/
  is_Some (ShardCID cid) /\ is_variant cid = false /\
  (wanted cid placement createdAt = true ->
   exists h bytes, h ∈ take (Z.to_nat (maxPullAttempts ss)) (preferred cid placement) /\ h <> Self_Host (Config ss) /\
     fetch w h cid = Some (bytes, true)).

(** The CID is on the node unless it is not wanted or to be skipped. *)
Definition secured (cid : string) (placement : list string) (createdAt : option Z) (n : node) : Prop :=
  forall key, cid <> "" -> wanted cid placement createdAt = true -> cid ∉ PruneSkips (tracker n) ->
    ShardCID cid = Some key -> held key (n_media n).

Lemma secured_advances cid placement createdAt n n' :
  advances n n' -> secured cid placement createdAt n -> secured cid placement createdAt n'.
Proof using. intros [H1 H2 _] Hs key Hc Hw Hp Hk. rewrite H2 in Hp. by eapply H1, Hs. Qed.

Lemma repair_known_serves w idx j n :
  healthy w -> job_wf sha256 ss j -> cycle_inv n -> j_mine j = true -> is_variant (j_cid j) = false ->
  index_sound idx (n_media n) -> served w j ->
  exists n', repair_known sha256 url_parse compute_cid ss w (Some idx) j n = (n', Ok tt) /\
    cycle_inv n' /\ advances n n' /\ held (j_key j) (n_media n').
Proof using.
  intros Hw Hj Hinv Hmine Hv Hi Hs. unfold repair_known.
  destruct (if j_recent j then None else SeenKeys (tracker n) !! j_key j) as [prev|] eqn:Ep.
  { assert (held (j_key j) (n_media n)) as Hh.
    { apply (inv_seen n Hinv). destruct (j_recent j); [done|]. by eexists. }
    eexists. split; [done|]. set (n1 := if alreadyHave prev then _ else _).
    assert (mild (j_key j) n n1) as Hm by (unfold n1; destruct (alreadyHave prev); mild_chain).
    assert (held (j_key j) (n_media n1)) as H1 by (by apply (mild_held _ _ _ Hm)).
    split; [by eapply mild_inv|]. split; [by eapply mild_advances|done]. }
  rewrite (inv_mode n Hinv). destruct (knownPresent (n_media n) !! presenceKey j) as [v|] eqn:Ek.
  { assert (held (j_key j) (n_media n)) as Hh by (eapply (inv_known n Hinv); by eexists).
    eexists. split; [done|]. match goal with |- cycle_inv ?n1 /\ _ => assert (mild (j_key j) n n1) as Hm by mild_chain end.
    split; [by eapply mild_inv|]. split; [by eapply mild_advances|done]. }
  destruct (repair_blob_serves w j Hw Hj idx n (inv_mode n Hinv) Hmine Hv Hi Hs) as (n' & E & Hm & Hh).
  exists n'. split; [done|]. split; [by eapply mild_inv|]. split; [by eapply mild_advances|done].
Qed.

Lemma repair_cid_serves w idx cid placement createdAt n :
  healthy w -> cycle_inv n -> index_sound idx (n_media n) -> repairable w cid placement createdAt ->
  exists n', repairCidWithPolicy sha256 url_parse compute_cid ss w cid placement (Some idx) pol createdAt n = (n', Ok tt) /\
    cycle_inv n' /\ advances n n' /\ secured cid placement createdAt n'.
Proof using.
  intros Hw Hinv Hi Hr. unfold repairCidWithPolicy. destruct (String.eqb_spec cid "") as [->|Hne].
  { exists n. split; [done|]. split; [done|]. split; [apply advances_refl|by intros k]. }
  destruct Hr as [|([key Hk] & Hv & Hserve)]; [done|]. unfold preferred, wanted in *.
  destruct (rendezvousAllHosts sha256 ss cid) as [ranked mine] eqn:Er. cbn [fst snd] in *.
  assert (forall n0, (if bool_decide (placement <> []) then bool_decide (Self_Host (Config ss) ∈ placement) else mine || shouldStoreRecent pol createdAt) = false ->
    secured cid placement createdAt n0) as Hun.
  { intros n0 E k _ E'. unfold wanted in E'. rewrite Er in E'. cbn in E'. congruence. }
  destruct (bool_decide (placement <> [])) eqn:Ep; cbn [andb orb negb].
  - destruct (decide (Self_Host (Config ss) ∈ placement)) as [Hin|Hin].
    2: { rewrite bool_decide_eq_true_2 by done. exists n. split; [done|]. split; [done|]. split; [apply advances_refl|].
         apply Hun. by rewrite bool_decide_eq_false_2. }
    rewrite bool_decide_eq_false_2 by tauto. rewrite andb_false_r.
    destruct (bool_decide (cid ∈ PruneSkips (tracker n))) eqn:Hs.
    { apply bool_decide_eq_true in Hs. eexists. split; [done|]. split; [by apply bump_inv|]. split; [apply bump_advances|]. intros k _ _ Hns. by destruct Hns. }
    rewrite Hk. match goal with |- context [repair_known _ _ _ _ _ _ ?j0 ?n0] =>
      destruct (repair_known_serves w idx j0 n0) as (n' & -> & H1 & H2 & H3);
        [done|done|by apply bump_inv|done|done|done|apply Hserve; by rewrite bool_decide_eq_true_2|] end.
    exists n'. split; [done|]. split; [done|]. split; [eapply advances_trans; [apply bump_advances|done]|].
    intros k _ _ _ Hk'. assert (k = key) as -> by congruence. exact H3.
  - destruct (mine || shouldStoreRecent pol createdAt) eqn:Em.
    2: { rewrite (inv_mode n Hinv). cbn [negb andb]. exists n. split; [done|]. split; [done|]. split; [apply advances_refl|]. by apply Hun. }
    cbn [negb]. rewrite andb_false_r. destruct (bool_decide (cid ∈ PruneSkips (tracker n))) eqn:Hs.
    { apply bool_decide_eq_true in Hs. eexists. split; [done|]. split; [by apply bump_inv|]. split; [apply bump_advances|]. intros k _ _ Hns. by destruct Hns. }
    rewrite Hk. match goal with |- context [repair_known _ _ _ _ _ _ ?j0 ?n0] =>
      destruct (repair_known_serves w idx j0 n0) as (n' & -> & H1 & H2 & H3); [done|done|by apply bump_inv|done|done|done|by apply Hserve|] end.
    exists n'. split; [done|]. split; [done|]. split; [eapply advances_trans; [apply bump_advances|done]|].
    intros k _ _ _ Hk'. assert (k = key) as -> by congruence. exact H3.
Qed.

(** ** Rows *)

Notation worker idx w := (repair_worker sha256 url_parse compute_cid ss (Some idx) pol w).

Lemma repair_worker_serves w idx cid placement createdAt n :
  healthy w -> cycle_inv n -> index_sound idx (n_media n) -> repairable w cid placement createdAt ->
  exists n', worker idx w cid placement createdAt n = (n', Ok tt) /\
    cycle_inv n' /\ advances n n' /\ secured cid placement createdAt n'.
Proof using.
  intros Hw Hinv Hi Hr. unfold repair_worker.
  destruct (repair_cid_serves w idx cid placement createdAt n Hw Hinv Hi Hr) as (n' & -> & H). by exists n'.
Qed.

Lemma index_sound_advances idx n n' : advances n n' -> index_sound idx (n_media n) -> index_sound idx (n_media n').
Proof using. intros [H _ _] Hi k b Hk. by eapply H, Hi. Qed.

Lemma repair_cids_serve w idx cids placement createdAt n :
  healthy w -> cycle_inv n -> index_sound idx (n_media n) ->
  (forall cid, cid ∈ cids -> repairable w cid placement createdAt) ->
  exists n', repair_cids sha256 url_parse compute_cid ss pol idx w cids placement createdAt n = (n', Ok tt) /\
    cycle_inv n' /\ advances n n' /\ (forall cid, cid ∈ cids -> secured cid placement createdAt n').
Proof using.
  intros Hw. revert n. induction cids as [|cid cids IH]; intros n Hinv Hi Hr; cbn [repair_cids].
  { exists n. split; [done|]. split; [done|]. split; [apply advances_refl|]. by intros cid ?%elem_of_nil. }
  rewrite (not_done w Hw). unfold pbind.
  destruct (repair_worker_serves w idx cid placement createdAt n) as (n1 & -> & I1 & A1 & S1); [done..|apply Hr; set_solver|].
  destruct (IH n1) as (n2 & -> & I2 & A2 & S2); [done|by eapply index_sound_advances|intros; apply Hr; set_solver|].
  exists n2. split; [done|]. split; [done|]. split; [by eapply advances_trans|].
  intros c [->|Hc]%elem_of_cons; [by eapply secured_advances|by apply S2].
Qed.

Definition upload_cids (u : Upload) : list string := OrigFileCID u :: transcoded_cids u.
Definition upload_repairable (w : world) (u : Upload) : Prop :=
  forall cid, cid ∈ upload_cids u -> repairable w cid (PlacementHosts u) (CreatedAt u).
Definition upload_secured (u : Upload) (n : node) : Prop :=
  forall cid, cid ∈ upload_cids u -> secured cid (PlacementHosts u) (CreatedAt u) n.

Lemma upload_secured_advances u n n' : advances n n' -> upload_secured u n -> upload_secured u n'.
Proof using. intros Ha Hs cid Hc. eapply secured_advances; [done|by apply Hs]. Qed.

Lemma repair_upload_serves w idx u n :
  healthy w -> cycle_inv n -> index_sound idx (n_media n) -> upload_repairable w u ->
  exists n', repair_upload sha256 url_parse compute_cid ss pol idx w u n = (n', Ok tt) /\
    cycle_inv n' /\ advances n n' /\ upload_secured u n'.
Proof using.
  intros Hw Hinv Hi Hr. unfold repair_upload, pbind.
  destruct (repair_worker_serves w idx (OrigFileCID u) (PlacementHosts u) (CreatedAt u) n) as (n1 & -> & I1 & A1 & S1);
    [done..|apply Hr; set_solver|].
  destruct (repair_cids_serve w idx (transcoded_cids u) (PlacementHosts u) (CreatedAt u) n1) as (n2 & -> & I2 & A2 & S2);
    [done|done|by eapply index_sound_advances|intros; apply Hr; set_solver|].
  exists n2. split; [done|]. split; [done|]. split; [by eapply advances_trans|].
  intros c [->|Hc]%elem_of_cons; [by eapply secured_advances|by apply S2].
Qed.

Notation table := (scroll_uploads sha256 url_parse compute_cid ss pol).

Lemma repair_rows_serve idx ws k rows n :
  (forall i, healthy (ws i)) -> cycle_inv n -> index_sound idx (n_media n) ->
  (forall i u, u ∈ rows -> upload_repairable (ws i) u) ->
  exists n', repair_rows table idx ws k rows n = (n', Ok tt) /\
    cycle_inv n' /\ advances n n' /\ (forall u, u ∈ rows -> upload_secured u n').
Proof using.
  intros Hw. revert k n. induction rows as [|u rows IH]; intros k n Hinv Hi Hr; cbn [repair_rows].
  { exists n. split; [done|]. split; [done|]. split; [apply advances_refl|]. by intros u ?%elem_of_nil. }
  rewrite (not_done _ (Hw k)). unfold pbind. cbn [st_repair scroll_uploads].
  destruct (repair_upload_serves (ws k) idx u n) as (n1 & -> & I1 & A1 & S1); [done..|apply Hr; set_solver|].
  destruct (IH (S k) n1) as (n2 & -> & I2 & A2 & S2); [done|by eapply index_sound_advances|intros; apply Hr; set_solver|].
  exists n2. split; [done|]. split; [done|]. split; [by eapply advances_trans|].
  intros v [->|Hv]%elem_of_cons; [by eapply upload_secured_advances|by apply S2].
Qed.
End Policy.
End Cycles.

(** ** Keyset pagination *)

Lemma string_lt_spec a b : String.ltb a b = true <-> String.le a b /\ a <> b.
Proof.
  unfold String.ltb, String.le. rewrite compare_leb. destruct (String.compare a b) eqn:E; cbn.
  - apply String.compare_eq_iff in E. naive_solver.
  - split; [|done]. intros _. split; [done|]. intros ->. by rewrite compare_refl in E.
  - naive_solver.
Qed.

Lemma filter_length_lt {A} (p q : A -> bool) (l : list A) x :
  (forall y, p y = true -> q y = true) -> x ∈ l -> q x = true -> p x = false ->
  (length (List.filter p l) < length (List.filter q l))%nat.
Proof.
  intros Hpq. assert (forall l', (length (List.filter p l') <= length (List.filter q l'))%nat) as Hle.
  { induction l' as [|y l' IH]; cbn; [lia|]. pose proof (Hpq y). destruct (p y), (q y); cbn; try lia; naive_solver. }
  induction l as [|y l IH]; [by intros ?%elem_of_nil|]. intros [->|Hx]%elem_of_cons Hq Hp; cbn.
  - rewrite Hq, Hp. cbn. specialize (Hle l). lia.
  - specialize (IH Hx Hq Hp). pose proof (Hpq y). destruct (p y), (q y); cbn; try lia; naive_solver.
Qed.

Section Pages.
Context {A : Type} (key : A -> string).

#[local] Instance row_le_decision x y : Decision (row_le key x y).
Proof using. apply row_le_dec. Defined.
#[local] Instance row_le_trans : Transitive (row_le key).
Proof using. intros x y z. unfold row_le. intros. by etrans. Qed.
#[local] Instance row_le_total : base.Total (row_le key).
Proof using. intros x y. unfold row_le. apply (total String.le). Qed.

(** The rows still to come. *)
Definition pending (cur : string) (rows : list A) : list A := List.filter (fun r => String.ltb cur (key r)) rows.

Lemma elem_of_pending cur rows r : r ∈ pending cur rows <-> r ∈ rows /\ String.ltb cur (key r) = true.
Proof using. unfold pending. rewrite list_elem_of_In, filter_In, <- list_elem_of_In. done. Qed.

Lemma NoDup_pending cur rows : NoDup (key <$> rows) -> NoDup (key <$> pending cur rows).
Proof using.
  unfold pending. induction rows as [|r rows IH]; [done|]. rewrite fmap_cons. intros [Hr Hn]%NoDup_cons. cbn [List.filter].
  destruct (String.ltb cur (key r)); [|by apply IH]. rewrite fmap_cons. apply NoDup_cons. split; [|by apply IH].
  intros (x & E & Hx)%list_elem_of_fmap. apply Hr. rewrite E. apply list_elem_of_fmap. exists x. split; [done|].
  by apply elem_of_pending in Hx as [? _].
Qed.

(** After a page that ends with [x], what is left comes after [x]. *)
Lemma page_cover cur limit rows x :
  NoDup (key <$> rows) -> last (next_batch key cur limit rows) = Some x ->
  x ∈ pending cur rows /\
  forall r, r ∈ pending cur rows -> r ∈ next_batch key cur limit rows \/ String.ltb (key x) (key r) = true.
Proof using.
  intros Hn Hx. unfold next_batch in *. fold (pending cur rows) in *.
  set (l := merge_sort (row_le key) (pending cur rows)) in *.
  assert (l ≡ₚ pending cur rows) as Hp by apply merge_sort_Permutation.
  apply last_Some in Hx as [l' Hl]. assert (x ∈ take limit l) as Hx by (rewrite Hl; set_solver).
  assert (x ∈ l) as Hxl by (rewrite <- (take_drop limit l); set_solver).
  split; [by rewrite <- Hp|]. intros r Hr. rewrite <- Hp in Hr. rewrite <- (take_drop limit l) in Hr.
  apply elem_of_app in Hr as [Hr|Hr]; [by left|right]. apply string_lt_spec. split.
  - assert (StronglySorted (row_le key) l) as Hs by (apply StronglySorted_merge_sort; apply _).
    rewrite <- (take_drop limit l) in Hs. by eapply (StronglySorted_app_1_elem_of (row_le key)).
  - apply (NoDup_pending cur) in Hn. rewrite <- Hp in Hn. rewrite <- (take_drop limit l), fmap_app in Hn.
    apply NoDup_app in Hn as (_ & Hd & _). intros E. apply (Hd (key x)); [by apply list_elem_of_fmap_2|].
    rewrite E. by apply list_elem_of_fmap_2.
Qed.

Lemma page_empty cur limit rows :
  (0 < limit)%nat -> last (next_batch key cur limit rows) = None -> pending cur rows = [].
Proof using.
  intros Hl Hn. apply last_None in Hn. unfold next_batch in Hn. fold (pending cur rows) in Hn.
  pose proof (merge_sort_Permutation (row_le key) (pending cur rows)) as Hp.
  destruct (merge_sort _ _) as [|y l]; [by apply Permutation_nil in Hp|]. destruct limit; [lia|done].
Qed.

Lemma page_progress cur limit rows x :
  NoDup (key <$> rows) -> last (next_batch key cur limit rows) = Some x ->
  (length (pending (key x) rows) < length (pending cur rows))%nat.
Proof using.
  intros Hn Hx. apply page_cover in Hx as [Hx _]; [|done]. apply elem_of_pending in Hx as [Hx Hlt].
  apply filter_length_lt with x; [|done|done|].
  - intros y Hy. apply string_lt_spec in Hlt as [H1 H2]. apply string_lt_spec in Hy as [H3 H4].
    apply string_lt_spec. split; [by etrans|]. intros ->. apply H4. by apply (anti_symm String.le).
  - apply not_true_is_false. intros [_ H]%string_lt_spec. done.
Qed.
End Pages.

(** ** The scan of the uploads *)

Section Scan.
Context (sha256 : string -> string) (url_parse : string -> option (string * string)).
Context (compute_cid : string -> string) (ss : MediorumServer).
Context (pol : repairRetentionPolicy) (idx : repairPresenceIndex) (us : list Upload) (W : nat -> nat -> world).
Hypothesis (unique_ids : NoDup (ID <$> us)).
Hypothesis (healthy_run : forall i j, healthy sha256 ss (W i j)).
Hypothesis (same_uploads : forall i, uploads (W i 0) = us).
Hypothesis (still_served : forall i j u, u ∈ us -> upload_repairable sha256 ss pol (W i j) u).

Notation table := (scroll_uploads sha256 url_parse compute_cid ss pol).
Notation cur n := (CursorUploadID (tracker n)).
Notation u_secured := (upload_secured sha256 ss pol).

Lemma save_same w n :
  n_media (saveTracker w n) = n_media n /\ PruneSkips (tracker (saveTracker w n)) = PruneSkips (tracker n) /\
  (cycle_inv ss n -> cycle_inv ss (saveTracker w n)) /\ forall tb, cursor tb (tracker (saveTracker w n)) = cursor tb (tracker n).
Proof using. unfold saveTracker. case_match; split; try done; (split; [done|]); (split; [|by intros []]); by intros []. Qed.

(** One turn of the loop: it leaves when nothing is pending; otherwise the rows of a
    page are secured and the cursor moves past them. *)
Lemma scan_turn i n :
  cycle_inv ss n -> index_sound ss idx (n_media n) ->
  exists n' st, scroll_batch ss (Some idx) table (W i) n = (n', Ok st) /\
    cycle_inv ss n' /\ keeps_held ss (n_media n) (n_media n') /\ PruneSkips (tracker n') = PruneSkips (tracker n) /\
    match st with
    | Break => pending ID (cur n) us = []
    | More => (length (pending ID (cur n') us) < length (pending ID (cur n) us))%nat /\
              forall u, u ∈ pending ID (cur n) us -> u_secured u n' \/ u ∈ pending ID (cur n') us
    end.
Proof using unique_ids healthy_run same_uploads still_served.
  intros Hinv Hi. unfold scroll_batch. cbn zeta. pose proof (healthy_run i 0) as H0.
  rewrite (not_done _ _ _ H0), (has_space _ _ _ H0), (no_fault _ _ _ H0). cbn [negb andb st_rows st_key st_table scroll_uploads cursor].
  rewrite same_uploads. set (rows := next_batch ID (cur n) uploadScanBatchSize us).
  destruct (last rows) as [x|] eqn:Ex.
  2: { exists n, Break. split; [done|]. split; [done|]. split; [by intros k|]. split; [done|].
       by apply (page_empty ID _ uploadScanBatchSize); [unfold uploadScanBatchSize; lia|]. }
  cbn [presenceForBatch].
  assert (forall u, u ∈ rows -> u ∈ us) as Hrows.
  { intros u Hu. unfold rows, next_batch in Hu. apply subseteq_take in Hu. rewrite merge_sort_Permutation in Hu.
    by apply elem_of_pending in Hu as [? _]. }
  destruct (repair_rows_serve sha256 url_parse compute_cid ss pol idx (fun j => W i (S j)) 0 rows n)
    as (n1 & -> & I1 & A1 & S1); [by intros|done|done|intros k u Hu; by apply still_served, Hrows|].
  rewrite (not_done _ _ _ (healthy_run i (S (length rows)))).
  set (n2 := set_tracker (set_cursor TUploads (ID x)) n1).
  destruct (save_same (W i (S (length rows))) n2) as (Em & Es & Ei & Ec).
  exists (saveTracker (W i (S (length rows))) n2), More. split; [done|].
  split; [apply Ei; by destruct I1|]. split; [rewrite Em; apply (adv_held _ _ _ A1)|].
  split; [rewrite Es; apply (adv_skips _ _ _ A1)|].
  assert (cur (saveTracker (W i (S (length rows))) n2) = ID x) as -> by apply (Ec TUploads). split; [by apply page_progress with uploadScanBatchSize|].
  intros u Hu. destruct (page_cover ID _ _ us x unique_ids Ex) as [_ Hcover]. destruct (Hcover u Hu) as [Hin|Hlt].
  - left. intros cid Hc key Hne Hw Hp Hk. rewrite Em. rewrite Es in Hp. by apply (S1 u Hin cid Hc).
  - right. apply elem_of_pending in Hu as [Hu _]. by apply elem_of_pending.
Qed.

Lemma scan_ends fuel i n :
  cycle_inv ss n -> index_sound ss idx (n_media n) -> (length (pending ID (cur n) us) < fuel)%nat ->
  exists n', scroll ss (Some idx) fuel table W i n = (n', Ok true) /\ keeps_held ss (n_media n) (n_media n') /\
    PruneSkips (tracker n') = PruneSkips (tracker n) /\ forall u, u ∈ pending ID (cur n) us -> u_secured u n'.
Proof using unique_ids healthy_run same_uploads still_served.
  revert i n. induction fuel as [|fuel IH]; intros i n Hinv Hi Hf; [lia|]. cbn [scroll]. unfold pbind.
  destruct (scan_turn i n Hinv Hi) as (n1 & st & -> & I1 & K1 & P1 & Hst). destruct st.
  - destruct Hst as [Hlt Hcover].
    destruct (IH (S i) n1) as (n2 & -> & K2 & P2 & S2); [done|by intros k b Hk; apply K1, (Hi k b)|lia|].
    exists n2. split; [done|]. split; [by intros k Hk; apply K2, K1|]. split; [congruence|].
    intros u Hu. destruct (Hcover u Hu) as [Hs|Hp]; [|by apply S2].
    intros cid Hc key Hne Hw Hp Hk. apply K2. rewrite P2 in Hp. by apply (Hs cid Hc).
  - exists n1. split; [done|]. split; [done|]. split; [done|]. rewrite Hst. by intros u ?%elem_of_nil.
Qed.

(** C13 -- A scan of the uploads leaves nothing missing, under these conditions on the
    whole scan.  The cycle is not a cleanup.  The known-present cache, the keys already
    seen this cycle and the presence index only name blobs the node holds.  The storage and
    the database of the node do not fail, the disk has space and the context does not end;
    the table of uploads, with unique ids, does not change.  Every CID of every upload in
    the table has a storage key and is not a derived image, and for each one the node
    should hold, one of the hosts a pull asks within its limit of attempts serves the whole
    blob throughout.  Then the scan ends, with any fuel above the number of uploads, and
    every original and transcoded file of an upload past the cursor that the node should
    hold, and whose CID is not on the skip list, is in one of its buckets; nothing it held
    is lost. *)
Theorem scan_leaves_nothing_missing fuel n :
  cycle_inv ss n -> index_sound ss idx (n_media n) -> (length us < fuel)%nat ->
  exists n', scroll ss (Some idx) fuel table W 0 n = (n', Ok true) /\
    keeps_held ss (n_media n) (n_media n') /\
    forall u cid key, u ∈ us -> String.ltb (cur n) (ID u) = true -> cid ∈ upload_cids u -> cid <> "" ->
      wanted sha256 ss pol cid (PlacementHosts u) (CreatedAt u) = true -> cid ∉ PruneSkips (tracker n) ->
      ShardCID cid = Some key -> held ss key (n_media n').
Proof using unique_ids healthy_run same_uploads still_served.
  intros Hinv Hi Hf. destruct (scan_ends fuel 0 n Hinv Hi) as (n' & E & K & P & S).
  { pose proof (List.filter_length_le (fun r => String.ltb (cur n) (ID r)) us). unfold pending. lia. }
  exists n'. split; [done|]. split; [done|]. intros u cid key Hu Hlt Hc Hne Hw Hp Hk. rewrite <- P in Hp.
  eapply (S u); [by apply elem_of_pending|done..].
Qed.
End Scan.
