(* ===== verification/MediaLoss.v ===== *)
(** * Declared data loss

    A loss is declared on the evidence of many failed repairs, the last of which asked
    every host; a declaration is permanent.  What a later success does not undo. *)

From stdpp Require Import base gmap strings list sorting fin_maps.
From Stdlib Require Import ZArith Lia Ascii.
From S2P Require Import Prelude Crypto Rendezvous Snapshots MediaStore MediaPresence MediaRepair MediaProps.

Open Scope string_scope.
Open Scope Z_scope.

(** ** Rows of evidence *)

Definition declared_in (n : node) (cid : string) : option Z := repair_data_loss n !! cid ≫= declared_at.

(** What a row says of the failures. *)
Definition evidence_of (r : loss_row) : Z * Z * option Z := (failed_cycles r, first_failed_at r, declared_at r).
Definition evidence_row (n : node) (cid : string) : option (Z * Z * option Z) := evidence_of <$> repair_data_loss n !! cid.

Lemma declared_evidence n cid : declared_in n cid = evidence_row n cid ≫= snd.
Proof. unfold declared_in, evidence_row. by destruct (_ !! cid). Qed.

Lemma clear_rows w cid n c : evidence_row (clearRepairFailure w cid n) c = evidence_row n c.
Proof.
  unfold clearRepairFailure, evidence_row. destruct (io_fault w (SqlLoss cid)); [done|].
  destruct (repair_data_loss n !! cid) as [r|] eqn:E; [|done]. destruct (recovered_at r); [done|].
  destruct (decide (c = cid)) as [->|Hne].
  - unfold bump_if. rewrite E. case_match; cbn; rewrite lookup_insert_eq; done.
  - unfold bump_if. case_match; cbn; by rewrite lookup_insert_ne.
Qed.

(** When the loss of a row is declared. *)
Definition declares (w : world) (exhaustive : bool) (r : loss_row) : bool :=
  negb ((failed_cycles r <? dataLossMinCycles) || (now w - first_failed_at r <? dataLossMinElapsed)) && exhaustive.

(** The row of a failed repair. *)
Definition banked (w : world) (ex : bool) (old : option loss_row) (r' : loss_row) : Prop :=
  let r := bank_failure (now w) ex old in
  failed_cycles r' = failed_cycles r /\ first_failed_at r' = first_failed_at r /\
  (declared_at r' = declared_at r \/ declared_at r = None /\ declared_at r' = Some (now w) /\ declares w ex r = true).

Lemma record_rows w cid ex n cid' :
  repair_data_loss (recordRepairFailure w cid ex n) !! cid' = repair_data_loss n !! cid' \/
  cid' = cid /\ dataLossMinHealthyPeers <= HealthyPeerCount (tracker n) /\
  exists r', repair_data_loss (recordRepairFailure w cid ex n) !! cid = Some r' /\ banked w ex (repair_data_loss n !! cid) r'.
Proof.
  unfold recordRepairFailure, banked. destruct (_ <? _) eqn:Ep; [by left|]. apply Z.ltb_ge in Ep.
  destruct (io_fault w (SqlLoss cid)); [by left|]. set (r := bank_failure _ _ _). cbn zeta.
  destruct (decide (cid' = cid)) as [->|Hne].
  2: { left. repeat case_match; cbn; by rewrite ?lookup_insert_ne. }
  right. split; [done|]. split; [done|]. unfold declares.
  destruct (declared_at r) as [t|] eqn:Ed.
  { destruct (io_fault w (SqlReschedule cid)); cbn; rewrite lookup_insert_eq; eexists; (split; [done|]); cbn; auto. }
  destruct (_ || _) eqn:Eo; [cbn; rewrite lookup_insert_eq; eexists; (split; [done|]); auto|].
  destruct ex; cbn [negb andb];
    [|cbn; rewrite lookup_insert_eq; eexists; (split; [done|]); auto].
  destruct (io_fault w (SqlDeclare cid)); [cbn; rewrite lookup_insert_eq; eexists; (split; [done|]); auto|].
  cbn. rewrite lookup_insert_eq. eexists. split; [done|]. unfold declare_loss. rewrite Ed. cbn. auto 6.
Qed.

(** ** What one repair does to the rows *)

Section Asked.
Context (sha256 : string -> string) (url_parse : string -> option (string * string)).
Context (compute_cid : string -> string) (ss : MediorumServer) (w : world).

(** [quiet n n'] : the evidence is the same. *)
Record quiet (n n' : node) : Prop := {
  q_rows : repair_data_loss n' = repair_data_loss n;
  q_peers : HealthyPeerCount (tracker n') = HealthyPeerCount (tracker n);
  q_failing : FailingCIDs (tracker n') = FailingCIDs (tracker n)
}.
Lemma quiet_refl n : quiet n n.
Proof using. done. Qed.
Lemma quiet_trans n1 n2 n3 : quiet n1 n2 -> quiet n2 n3 -> quiet n1 n3.
Proof using. intros [] []. split; congruence. Qed.
Lemma quiet_bump_if c k n : quiet n (bump_if c k n).
Proof using. by destruct c. Qed.
Lemma quiet_bump_if_trans c k n n' : quiet n n' -> quiet n (bump_if c k n').
Proof using. intros. eapply quiet_trans; [done|]. by destruct c. Qed.
Lemma quiet_on_media {A} (f : proc media media_error A) n : quiet n (on_media f n).1.
Proof using. unfold on_media. by destruct (f (n_media n)). Qed.

Lemma quiet_resolve idx j n : quiet n (resolve_presence ss w idx j n).1.
Proof using. unfold resolve_presence. repeat case_match; cbn; try done; by apply quiet_bump_if_trans. Qed.
Lemma quiet_validate have j n : quiet n (validate_blob url_parse compute_cid ss w have j n).1.
Proof using. unfold validate_blob. repeat case_match; by cbn. Qed.
Lemma quiet_variant have j n : quiet n (drop_variant url_parse ss w have j n).
Proof using. unfold drop_variant. by repeat case_match. Qed.
Lemma quiet_duplicate idx have j n : quiet n (drop_duplicate ss w idx have j n).
Proof using. unfold drop_duplicate. by repeat case_match. Qed.
Lemma quiet_over_replicated e j n : quiet n (drop_over_replicated url_parse ss w e j n).1.
Proof using.
  unfold drop_over_replicated. cbn zeta. destruct e as [e|]; [|done]. case_match; [|done].
  match goal with |- context [on_media ?f ?n0] => pose proof (quiet_on_media f n0) as Hq; destruct (on_media f n0) as [n1 []] end;
    by destruct Hq.
Qed.

(** No host among them could serve the blob and have it stored. *)
Definition nobody_serves (hosts : list string) (j : cid_job) : Prop :=
  forall h bytes, h ∈ hosts -> h <> Self_Host (Config ss) -> fetch w h (j_cid j) = Some (bytes, true) ->
    ~ writable w (j_bucket j) (j_key j).

Lemma pull_from_outcome hosts j n n' r :
  job_wf sha256 ss j -> pull_from sha256 url_parse ss w hosts j n = (n', r) ->
  (forall c, evidence_row n' c = evidence_row n c) /\
  (r = Ok false -> quiet n n' /\ nobody_serves hosts j).
Proof using.
  intros Hj. revert n. induction hosts as [|h hs IH]; intros n H; cbn [pull_from] in H.
  { simplify_eq. split; [done|]. intros _. split; [done|]. by intros h bytes ?%elem_of_nil. }
  destruct (String.eqb_spec h (Self_Host (Config ss))) as [Eh|Eh].
  { apply IH in H as [H1 H2]. split; [done|]. intros Hr. destruct (H2 Hr) as [H3 H4]. split; [done|].
    intros h' bytes [->|Hin]%elem_of_cons Hs; [done|by apply H4]. }
  match type of H with context [on_media ?f n] => pose proof (quiet_on_media f n) as Hq;
    destruct (on_media f n) as [n1 [[]|e]] eqn:E end; cbn [fst] in Hq.
  - assert (forall c, evidence_row n1 c = evidence_row n c) as Hd by (intros c; unfold evidence_row; by rewrite (q_rows _ _ Hq)).
    split; [|intros ->; congruence]. intros c. rewrite <- Hd.
    set (n2 := bump_if _ _ _) in H. assert (forall c, evidence_row n2 c = evidence_row n1 c) as H2
      by (intros c'; unfold n2, bump_if; by destruct (isArchive ss j)).
    rewrite <- H2, <- (clear_rows w (j_cid j) n2 c). injection H as <- <-. by destruct (Attributes _ _ _ _).
  - assert (e <> MPanic -> fetch w h (j_cid j) = None \/ exists bytes c, fetch w h (j_cid j) = Some (bytes, c) /\
      (c = true -> ~ writable w (j_bucket j) (j_key j))) as Hfail.
    { intros _. unfold on_media, pullFileFromHost in E. apply String.eqb_neq in Eh. rewrite Eh in E.
      destruct (fetch w h (j_cid j)) as [[bytes c]|]; [|by left]. right. exists bytes, c. split; [done|]. intros ->.
      destruct Hj as [Hk Hb]. rewrite Hb. intros Hw.
      destruct (replicate_writable sha256 url_parse ss w (j_cid j) (j_key j) bytes (j_placement j) (n_media n) Hk Hw)
        as (m & Em & _). by rewrite Em in E. }
    assert (e = MPanic /\ r = Err MPanic /\ n' = n1 \/ e <> MPanic /\
      pull_from sha256 url_parse ss w hs j (bump "pull_mine_fail" n1) = (n', r)) as [(_ & -> & ->)|[He H']]
      by (destruct e; [left; by simplify_eq|right..]; done).
    { split; [|done]. intros c. unfold evidence_row. by rewrite (q_rows _ _ Hq). }
    apply IH in H' as [H1 H2]. split.
    { intros c. rewrite H1. unfold evidence_row. cbn. by rewrite (q_rows _ _ Hq). }
    intros Hr. destruct (H2 Hr) as [H3 H4]. split; [eapply quiet_trans; [exact Hq|by destruct H3]|].
    intros h' bytes [->|Hin]%elem_of_cons Hs Hf; [|by eapply H4].
    destruct (Hfail He) as [Hn|(b' & c' & Hn & Hw)]; [congruence|]. apply Hw. congruence.
Qed.

(** Whether the pull of a CID asks every host, and the hosts it asks. *)
Definition escalated (n : node) (cid : string) : bool := dataLossEscalateAfter <=? failedCycles (tracker n) cid.

(** The repair gave up on its CID: enough peers were healthy, none of the hosts it asked
    could serve the blob, and the failure is in the row. *)
Definition gave_up (j : cid_job) (n n' : node) : Prop :=
  dataLossMinHealthyPeers <= HealthyPeerCount (tracker n) /\
  nobody_serves (pull_candidates ss w (escalated n (j_cid j)) j) j /\
  exists r', repair_data_loss n' !! j_cid j = Some r' /\
    banked w (escalated n (j_cid j)) (repair_data_loss n !! j_cid j) r'.

(** The evidence on every CID is the same, or that on the repaired one has one more failure. *)
Definition fate (j : cid_job) (n n' : node) : Prop :=
  forall c, evidence_row n' c = evidence_row n c \/ c = j_cid j /\ gave_up j n n'.

Lemma fate_same j n n' : (forall c, evidence_row n' c = evidence_row n c) -> fate j n n'.
Proof using. intros H c. left. apply H. Qed.

Lemma fate_rows j n n' : repair_data_loss n' = repair_data_loss n -> fate j n n'.
Proof using. intros H. apply fate_same. intros c. unfold evidence_row. by rewrite H. Qed.

Lemma fate_quiet j n n0 n' : quiet n n0 -> fate j n0 n' -> fate j n n'.
Proof using.
  intros [Q1 Q2 Q3] H c. destruct (H c) as [E|[-> (Hp & Hs & Hr)]].
  - left. rewrite E. unfold evidence_row. by rewrite Q1.
  - right. split; [done|]. unfold gave_up, escalated, failedCycles in *. rewrite Q1, Q2, Q3 in *. done.
Qed.

Lemma pull_mine_fate j n n' r :
  job_wf sha256 ss j -> pull_mine sha256 url_parse ss w j n = (n', r) -> fate j n n'.
Proof using.
  intros Hj H. unfold pull_mine in H. cbn zeta in H.
  match type of H with context [pull_from _ _ _ _ ?hs j ?n0] => set (n1 := n0) in H; set (hosts := hs) in H;
    assert (quiet n n1) as Q1 by (unfold n1; apply quiet_bump_if_trans, quiet_bump_if_trans; done) end.
  apply (fate_quiet j n n1); [done|].
  destruct (pull_from _ _ _ _ hosts j n1) as [n2 r2] eqn:E. apply pull_from_outcome in E as [H1 H2]; [|done].
  destruct r2 as [[]|]; [simplify_eq; by apply fate_same| |simplify_eq; by apply fate_same].
  destruct (H2 eq_refl) as [Q2 Hs]. injection H as <- _. apply (fate_quiet j n1 (bump "pull_mine_gave_up" n2)).
  { by eapply quiet_trans; [exact Q2|]. }
  set (n3 := bump "pull_mine_gave_up" n2). set (ex := dataLossEscalateAfter <=? _).
  assert (escalated n3 (j_cid j) = ex) as Hex.
  { unfold escalated, ex, failedCycles. change (tracker n3) with (tracker (bump "pull_mine_gave_up" n2)). cbn.
    rewrite (q_failing _ _ Q2), (q_failing _ _ Q1). done. }
  intros c. destruct (record_rows w (j_cid j) ex n3 c) as [Er|(-> & Hp & r' & Er & Hb)].
  { left. unfold evidence_row. by rewrite Er. }
  right. split; [done|]. split; [done|]. rewrite Hex. split; [exact Hs|]. by exists r'.
Qed.

Lemma get_missing_fate idx j n n' r :
  job_wf sha256 ss j -> get_missing sha256 url_parse ss w idx j n = (n', r) -> fate j n n'.
Proof using.
  intros Hj H. unfold get_missing in H. cbn zeta in H.
  destruct (blobPresentIn _ _ _ _ _); [|by eapply pull_mine_fate].
  destruct (otherBucket ss (j_bucket j)) as [src|]; [|by eapply pull_mine_fate].
  match type of H with context [on_media ?f n] => pose proof (quiet_on_media f n) as Q;
    destruct (on_media f n) as [n1 [k|e]] end; cbn [fst] in Q.
  - injection H as <- <-. apply fate_rows. cbn. by rewrite (q_rows _ _ Q).
  - apply pull_mine_fate in H; [|done]. eapply fate_quiet; [|exact H]. by eapply quiet_trans; [exact Q|].
Qed.

Lemma repair_blob_fate idx j n n' r :
  job_wf sha256 ss j -> repair_blob sha256 url_parse compute_cid ss w idx j n = (n', r) -> fate j n n'.
Proof using.
  intros Hj H. unfold repair_blob in H. pose proof (quiet_resolve idx j n) as Q0.
  destruct (resolve_presence _ _ _ _ _) as [n0 e]. cbn [fst] in Q0. cbn zeta in H.
  match type of H with context [validate_blob _ _ _ _ ?h j ?x] => pose proof (quiet_validate h j x) as Q1;
    destruct (validate_blob _ _ _ _ h j x) as [n1 v] end. cbn [fst] in Q1.
  assert (quiet n n1) as Q by (eapply quiet_trans; [exact Q0|]; eapply quiet_trans; [|exact Q1]; done). clear Q0 Q1.
  assert (forall n2, quiet n n2 -> fate j n n2) as Hq by (intros n2 Q2; apply fate_rows, (q_rows _ _ Q2)).
  destruct v as [[]|]; [|injection H as <- _; by apply Hq..].
  destruct (is_variant (j_cid j)).
  { injection H as <- _. apply Hq. eapply quiet_trans; [exact Q|apply quiet_variant]. }
  match type of H with context [drop_duplicate ss w idx ?h j ?x] =>
    assert (quiet n (drop_duplicate ss w idx h j x)) as Q2; [|set (n2 := drop_duplicate ss w idx h j x) in *] end.
  { eapply quiet_trans; [exact Q|]. eapply quiet_trans; [|apply quiet_duplicate]. by destruct e. }
  destruct (j_mine j && _ && _).
  - apply get_missing_fate in H; [|done]. by eapply fate_quiet.
  - pose proof (quiet_over_replicated e j n2) as Q3. rewrite H in Q3. cbn in Q3. apply Hq. by eapply quiet_trans.
Qed.
End Asked.

(** ** Histories of repairs *)

(** A repair of a CID, and anything else the node does, which leaves the table alone. *)
Inductive loss_event :=
| Repair (w : world) (cid : string) (placement : list string) (idx : option repairPresenceIndex)
    (pol : repairRetentionPolicy) (createdAt : option Z)
| Elsewhere (m : media) (skips : gmap string string) (trackers : gmap Z RepairTracker) (t : RepairTracker).

Definition event_time (e : loss_event) : option Z :=
  match e with Repair w _ _ _ _ _ => Some (now w) | Elsewhere _ _ _ _ => None end.

Section Histories.
Context (sha256 : string -> string) (url_parse : string -> option (string * string)).
Context (compute_cid : string -> string) (ss : MediorumServer).

Definition loss_step (n : node) (e : loss_event) : node :=
  match e with
  | Repair w cid placement idx pol createdAt =>
      (repairCidWithPolicy sha256 url_parse compute_cid ss w cid placement idx pol createdAt n).1
  | Elsewhere m skips trackers t => mkNode m (repair_data_loss n) skips trackers t
  end.
Definition loss_run (n : node) (es : list loss_event) : node := foldl loss_step n es.

(** Each event with the node it happened on. *)
Fixpoint trace (n : node) (es : list loss_event) : list (node * loss_event) :=
  match es with
  | [] => []
  | e :: es' => (n, e) :: trace (loss_step n e) es'
  end.

(** The hosts a CID is expected on: its placement, or every live host by rendezvous. *)
Definition expected (cid : string) (placement : list string) : list string :=
  if bool_decide (placement <> []) then placement else (rendezvousAllHosts sha256 ss cid).1.

(** None of the hosts serves a body of the CID that this node could store. *)
Definition nobody_served (w : world) (cid : string) (placement hosts : list string) : Prop :=
  forall key h bytes, ShardCID cid = Some key -> h ∈ hosts -> h <> Self_Host (Config ss) ->
    fetch w h cid = Some (bytes, true) -> ~ writable w (bucketForCID sha256 ss cid placement) key.

(** A repair of [cid], while enough peers were healthy, that none of [hosts] served. *)
Definition unserved_by (hosts : list string -> list string) (cid : string) (p : node * loss_event) : Prop :=
  match p.2 with
  | Repair w c placement _ _ _ =>
      c = cid /\ dataLossMinHealthyPeers <= HealthyPeerCount (tracker p.1) /\
      nobody_served w cid placement (hosts (expected cid placement))
  | Elsewhere _ _ _ _ => False
  end.

(** The hosts a pull tries first were asked, or all of them. *)
Definition failed_repair : string -> node * loss_event -> Prop := unserved_by (take (Z.to_nat (maxPullAttempts ss))).
Definition exhausted_repair : string -> node * loss_event -> Prop := unserved_by (fun hosts => hosts).

(** At time [t] a repair asked everyone in vain, at least the fifth that failed, and one
    of these failures lay a week back. *)
Definition evidence (cid : string) (h : list (node * loss_event)) (t : Z) : Prop :=
  exists h1 p h2 fs, h = app h1 (p :: h2) /\ event_time p.2 = Some t /\ exhausted_repair cid p /\
    fs `sublist_of` app h1 [p] /\ Forall (failed_repair cid) fs /\ dataLossMinCycles <= Z.of_nat (length fs) /\
    exists q t0, q ∈ fs /\ event_time q.2 = Some t0 /\ t0 + dataLossMinElapsed <= t.

Lemma trace_app n es e : trace n (app es [e]) = app (trace n es) [(loss_run n es, e)].
Proof using. revert n. induction es as [|x es IH]; intros n; [done|]. cbn. by rewrite IH. Qed.

Lemma candidates_cover w ex j h :
  h ∈ take (Z.to_nat (maxPullAttempts ss)) (j_preferred j) \/ ex = true /\ h ∈ j_preferred j ->
  h ∈ pull_candidates ss w ex j.
Proof using.
  clear url_parse compute_cid sha256. intros H. unfold pull_candidates. generalize (findStoreAllPeers ss w (j_cid j) media_hour storeAllFallbackHosts).
  assert (h ∈ if ex then j_preferred j else take (Z.to_nat (maxPullAttempts ss)) (j_preferred j)) as Hin.
  { destruct H as [H|[-> H]]; [|done]. destruct ex; [by apply subseteq_take in H|done]. }
  revert Hin. generalize (if ex then j_preferred j else take (Z.to_nat (maxPullAttempts ss)) (j_preferred j)).
  intros cs Hin l. revert cs Hin. induction l as [|x l IH]; intros cs Hin; [done|]. cbn. apply IH.
  case_bool_decide; [done|]. set_solver.
Qed.

(** A step keeps the evidence, or is a repair of a CID that failed and was banked. *)
Lemma step_rows n e c :
  evidence_row (loss_step n e) c = evidence_row n c \/
  exists w ex r', event_time e = Some (now w) /\ failed_repair c (n, e) /\ (ex = true -> exhausted_repair c (n, e)) /\
    repair_data_loss (loss_step n e) !! c = Some r' /\ banked w ex (repair_data_loss n !! c) r'.
Proof using.
  destruct e as [w cid placement idx pol createdAt|]; [|by left]. cbn [loss_step event_time].
  unfold repairCidWithPolicy. destruct (String.eqb cid ""); [by left|].
  destruct (rendezvousAllHosts sha256 ss cid) as [ranked mine] eqn:Er.
  case_match; [by left|]. case_match; [by left|]. case_match; [by left|].
  destruct (ShardCID cid) as [key|] eqn:Ek; [|by left]. cbn zeta.
  match goal with |- context [repair_known _ _ _ _ _ _ ?j0 ?n0] => set (j := j0); set (n1 := n0) end.
  assert (job_wf sha256 ss j) as Hj by (by split).
  assert (fate ss w j n (repair_known sha256 url_parse compute_cid ss w idx j n1).1) as Hf.
  { apply (fate_quiet ss w j n n1); [done|].
    unfold repair_known. repeat case_match; try (by apply fate_rows).
    all: match goal with |- fate _ _ _ _ (?r).1 => destruct r as [n2 o] eqn:E end; cbn; by eapply repair_blob_fate. }
  destruct (Hf c) as [?|[-> (Hp & Hs & r' & Hr & Hb)]]; [by left|right].
  exists w, (escalated n cid), r'. split; [done|].
  assert (j_preferred j = expected cid placement) as Epref by (unfold expected; by rewrite Er).
  assert (forall hosts, (forall h, h ∈ hosts -> h ∈ pull_candidates ss w (escalated n cid) j) ->
    nobody_served w cid placement hosts) as Hserve.
  { intros hosts Hsub key' h bytes Hk Hin Hself Hfetch. rewrite Ek in Hk. injection Hk as <-.
    by apply (Hs h bytes (Hsub h Hin)). }
  split_and!; [| |done|done].
  - split; [done|]. split; [done|]. apply Hserve. intros h Hin. apply candidates_cover. left. by rewrite Epref.
  - intros Hex. split; [done|]. split; [done|]. apply Hserve. intros h Hin. apply candidates_cover. right. by rewrite Epref.
Qed.

Record history_inv (h : list (node * loss_event)) (n : node) : Prop := {
  hi_failures : forall cid r, repair_data_loss n !! cid = Some r -> exists fs, fs `sublist_of` h /\
    Forall (failed_repair cid) fs /\ failed_cycles r <= Z.of_nat (length fs) /\
    exists q, q ∈ fs /\ event_time q.2 = Some (first_failed_at r);
  hi_declared : forall cid t, declared_in n cid = Some t -> evidence cid h t
}.

Lemma evidence_more cid h p t : evidence cid h t -> evidence cid (app h [p]) t.
Proof using.
  intros (h1 & q & h2 & fs & -> & H). exists h1, q, (app h2 [p]), fs. split; [|done]. by rewrite <- app_assoc.
Qed.

(** The row of a failed repair is within what the longer history shows. *)
Lemma history_bank h n e cid w ex r' :
  history_inv h n -> failed_repair cid (n, e) -> event_time e = Some (now w) -> banked w ex (repair_data_loss n !! cid) r' ->
  exists fs, fs `sublist_of` app h [(n, e)] /\ Forall (failed_repair cid) fs /\ failed_cycles r' <= Z.of_nat (length fs) /\
    exists q, q ∈ fs /\ event_time q.2 = Some (first_failed_at r').
Proof using.
  clear url_parse compute_cid. intros [H1 _] Hf Ht (Hc & Hfirst & _). rewrite Hc, Hfirst. unfold bank_failure.
  destruct (repair_data_loss n !! cid) as [r|] eqn:Er; cbn.
  - destruct (H1 cid r Er) as (fs & Hsub & Hall & Hle & q & Hq & Hqt). exists (app fs [(n, e)]). split_and!.
    + by apply sublist_app.
    + apply Forall_app. split; [done|]. by constructor.
    + rewrite length_app. cbn. lia.
    + exists q. split; [set_solver|done].
  - exists [(n, e)]. split_and!; [by apply sublist_inserts_l|by constructor|cbn; lia|]. exists (n, e). split; [set_solver|done].
Qed.

Lemma history_step h n e : history_inv h n -> history_inv (app h [(n, e)]) (loss_step n e).
Proof using.
  intros H. pose proof H as [H1 H2]. split.
  - intros cid r Hr. destruct (step_rows n e cid) as [E|(w & ex & r' & Ht & Hf & _ & Hr' & Hb)].
    + unfold evidence_row in E. rewrite Hr in E. destruct (repair_data_loss n !! cid) as [r0|] eqn:Er0; [|done].
      injection E as E1 E2 E3. destruct (H1 cid r0 Er0) as (fs & Hsub & Hall & Hle & q & Hq & Hqt).
      exists fs. rewrite E1, E2. split_and!; [by apply sublist_inserts_r|done|done|by exists q].
    + rewrite Hr in Hr'. injection Hr' as <-. by eapply history_bank.
  - intros cid t Hd. destruct (step_rows n e cid) as [E|(w & ex & r' & Ht & Hf & Hex & Hr' & Hb)].
    { rewrite declared_evidence, E, <- declared_evidence in Hd. by apply evidence_more, H2. }
    unfold declared_in in Hd. rewrite Hr' in Hd. cbn in Hd.
    destruct (history_bank h n e cid w ex r' H Hf Ht Hb) as (fs & Hsub & Hall & Hle & q & Hq & Hqt).
    destruct Hb as (Hc & Hfirst & [Hsame|(_ & Hnow & Hdec)]).
    + apply evidence_more, H2. unfold declared_in. rewrite Hsame in Hd. by destruct (repair_data_loss n !! cid).
    + rewrite Hnow in Hd. injection Hd as <-. unfold declares in Hdec. apply andb_prop in Hdec as [Hdec Hx].
      apply negb_true_iff, orb_false_iff in Hdec as [D1 D2]. apply Z.ltb_ge in D1, D2.
      exists h, (n, e), [], fs. split_and!; [done|done|by apply Hex|done|done|lia|].
      exists q, (first_failed_at r'). split_and!; [done|done|lia].
Qed.

Lemma history_run n es : repair_data_loss n = ∅ -> history_inv (trace n es) (loss_run n es).
Proof using.
  intros Hn. induction es as [|e es IH] using rev_ind.
  - split; unfold declared_in; cbn; rewrite Hn; by intros.
  - rewrite trace_app. unfold loss_run. rewrite foldl_app. cbn. by apply history_step.
Qed.

(** Once declared, the time of the declaration stays. *)
Lemma declared_step n e cid t : declared_in n cid = Some t -> declared_in (loss_step n e) cid = Some t.
Proof using.
  intros Ht. destruct (step_rows n e cid) as [E|(w & ex & r' & _ & _ & _ & Hr' & Hc & _ & Hd)].
  - by rewrite declared_evidence, E, <- declared_evidence.
  - unfold declared_in in *. rewrite Hr'. cbn. destruct (repair_data_loss n !! cid) as [r|]; [|done]. cbn in Ht, Hd.
    destruct Hd as [Hd|(Hn & _)]; congruence.
Qed.

(** C28 -- Data loss is declared on evidence and for good.  The history is any sequence of
    repairs of CIDs (calls of repairCidWithPolicy, of which one cycle may make several for
    a CID) on a node whose table of losses starts empty, between which everything but that
    table may change, with whatever storage, statements and peers that fail.  If a CID is
    declared lost at some time, a repair at that time, while five peers or more were
    healthy, found none of the hosts the CID is expected on serving a body the node could
    store (its placement hosts, or without any every live host).  With it, at least five
    repairs of the CID in the history found none of the first of these hosts serving it,
    each while five peers or more were healthy, and one of the five lies at least seven
    days back.  No later event changes the time of the declaration. *)
Theorem losses_are_declared_on_evidence n es es' cid t :
  repair_data_loss n = ∅ -> declared_in (loss_run n es) cid = Some t ->
  evidence cid (trace n es) t /\ declared_in (loss_run n (app es es')) cid = Some t.
Proof using.
  intros Hn Ht. split; [by eapply hi_declared; [apply history_run|]|].
  unfold loss_run. rewrite foldl_app. fold (loss_run n es). revert Ht. generalize (loss_run n es).
  induction es' as [|e es' IH]; intros n0 Ht; [done|]. cbn. by apply IH, declared_step.
Qed.
End Histories.

(** ** A recovery keeps the evidence *)

(** After a recovery one failed pull, however few hosts it asked, puts the CID back on
    the list of declared losses for a month. *)
Lemma recovered_loss_returns_at_once w cid n r t rec :
  repair_data_loss n !! cid = Some r -> declared_at r = Some t -> recovered_at r = Some rec ->
  dataLossMinHealthyPeers <= HealthyPeerCount (tracker n) -> (forall io, io_fault w io = false) ->
  exists skips, loadRepairSkips w (recordRepairFailure w cid false n) = Ok skips /\ cid ∈ skips.
Proof.
  intros Hr Hd Hrec Hp Hf. unfold loadRepairSkips. rewrite Hf. eexists. split; [done|].
  apply elem_of_union_r, elem_of_dom. unfold recordRepairFailure. rewrite !Hf.
  rewrite (proj2 (Z.ltb_ge _ _) Hp), Hr. cbn [bank_failure declared_at]. rewrite Hd.
  cbn [bump set_tracker set_loss repair_data_loss].
  eexists. apply map_lookup_filter_Some. split; [by rewrite lookup_insert_eq|].
  unfold skipped_loss. cbn. apply Z.ltb_lt. unfold dataLossRecheckAfter, media_day, media_hour, media_second. lia.
Qed.
