(* ===== verification/MediaPrune.v ===== *)
(** * Prune

    Models pkg/mediorum/server/prune.go: an operator asks a node to delete orphaned
    temporary files and the blobs of uploads that the indexer's tables do not
    reference.  The tables are those of the indexer's database (EtlDb); the rows of
    prune_runs, which only report progress, are left out. *)

From stdpp Require Import base gmap strings list sorting fin_maps.
From Stdlib Require Import ZArith Lia Ascii.
From S2P Require Import Prelude Crypto Rendezvous Snapshots EtlBase EtlDb MediaStore MediaPresence MediaRepair MediaProps.

Open Scope string_scope.
Open Scope Z_scope.

Inductive pruneTask := pruneTaskTmp | pruneTaskUnpublished | pruneTaskOther (name : string).

Definition unpublishedUploadAge : Z := 30 * media_day.
Definition prunePageSize : Z := 1000.
Definition JobTemplateImgSquare : string := "img_square".
Definition JobTemplateImgBackdrop : string := "img_backdrop".

Definition validateJobTemplate (t : string) : bool :=
  String.eqb t JobTemplateAudio || String.eqb t JobTemplateImgSquare || String.eqb t JobTemplateImgBackdrop.

Record pruneRequest := mkPruneRequest {
  Tasks : list pruneTask;
  Templates : list string;
  Commit : bool;
  Limit : Z
}.

Definition pruneTemplates (req : pruneRequest) : list string :=
  match Templates req with [] => [JobTemplateAudio] | ts => ts end.

(** [pr_Error] is empty when the task has not failed. *)
Record pruneResult := mkPruneResult {
  pr_Task : pruneTask;
  DryRun : bool;
  Scanned : Z;
  Matched : Z;
  Removed : Z;
  SkipsAdd : Z;
  pr_Error : string
}.
Definition add_scanned k (r : pruneResult) := mkPruneResult (pr_Task r) (DryRun r) (Scanned r + k) (Matched r) (Removed r) (SkipsAdd r) (pr_Error r).
Definition add_matched k (r : pruneResult) := mkPruneResult (pr_Task r) (DryRun r) (Scanned r) (Matched r + k) (Removed r) (SkipsAdd r) (pr_Error r).
Definition add_removed k (r : pruneResult) := mkPruneResult (pr_Task r) (DryRun r) (Scanned r) (Matched r) (Removed r + k) (SkipsAdd r) (pr_Error r).
Definition add_skips k (r : pruneResult) := mkPruneResult (pr_Task r) (DryRun r) (Scanned r) (Matched r) (Removed r) (SkipsAdd r + k) (pr_Error r).
Definition set_error e (r : pruneResult) := mkPruneResult (pr_Task r) (DryRun r) (Scanned r) (Matched r) (Removed r) (SkipsAdd r) e.

(** ** The index *)

Inductive prune_query := QPruneOpen | QPruneTracks | QPruneArt | QPruneBlocks | QPublished | QPublishedArt.

(** The database asked for publications (openPruneIndex): its tables, whether they
    exist, and which queries, the connection included, fail. *)
Record prune_index := mkPruneIndex { px_db : etl_db; px_tables : bool; px_fault : prune_query -> bool }.

Definition pruneIndexStaleAfter : Z := 24 * media_hour.
Definition minArtReferences : Z := 100000.

(** [coalesce(column, '') <> '']. *)
Definition has_text (text : gmap string string) (column : string) : bool :=
  match text !! column with Some v => negb (String.eqb v "") | None => false end.

Definition countb {A} (p : A -> bool) (l : list A) : Z := Z.of_nat (length (List.filter p l)).

(** The greatest block time. *)
Definition newest_block (d : etl_db) : option Z :=
  foldr (fun '(_, t) acc => Some (match acc with Some t' => Z.max t t' | None => t end)) None (etl_blocks (chain d)).

(** Coverage below 0.90. *)
Definition checkPruneIndex (w : world) (px : prune_index) : res media_error unit :=
  if px_fault px QPruneTracks || negb (px_tables px) then Err (MErr "no tracks table")
  else
    let current := List.filter t_is_current (tracks (em (px_db px))) in
    let total := Z.of_nat (length current) in
    let withCid := countb (fun t => has_text (t_text t) "track_cid") current in
    if total =? 0 then Err (MErr "tracks table is empty")
    else if 10 * withCid <? 9 * total then Err (MErr "too few tracks carry a track_cid")
    else if px_fault px QPruneBlocks then Ok tt
    else match newest_block (px_db px) with
         | Some newest => if pruneIndexStaleAfter <? now w - newest then Err (MErr "index is behind") else Ok tt
         | None => Ok tt
         end.

Definition checkArtPruneIndex (px : prune_index) : res media_error unit :=
  if px_fault px QPruneArt || negb (px_tables px) then Err (MErr "artwork reference tables unavailable")
  else
    let d := em (px_db px) in
    let refs := countb (fun t => t_is_current t && has_text (t_text t) "cover_art_sizes") (tracks d)
              + countb (fun u => u_is_current u && has_text (u_text u) "profile_picture_sizes") (users d)
              + countb (fun l => pl_is_current l && has_text (pl_text l) "playlist_image_sizes_multihash") (playlists d) in
    if refs <? minArtReferences then Err (MErr "too few artwork references indexed") else Ok tt.

Definition checkPruneIndexFor (w : world) (px : prune_index) (tmpl : string) : res media_error unit :=
  if String.eqb tmpl JobTemplateAudio then checkPruneIndex w px else checkArtPruneIndex px.

(** The values of a column among [refs], the empty one excepted. *)
Definition matching (column : string) (refs : list string) (texts : list (gmap string string)) : gset string :=
  list_to_set (omap (fun text =>
    match text !! column with
    | Some v => if bool_decide (v ∈ refs) && negb (String.eqb v "") then Some v else None
    | None => None
    end) texts).

Definition publishedCIDs (px : prune_index) (cids : list string) : res media_error (gset string) :=
  if bool_decide (cids = []) then Ok ∅
  else if px_fault px QPublished then Err (MErr "query")
  else
    let texts := t_text <$> tracks (em (px_db px)) in
    Ok (matching "track_cid" cids texts ∪ matching "orig_file_cid" cids texts ∪ matching "preview_cid" cids texts).

(** A table's text columns. *)
Definition table_texts (table : string) (d : em_db) : list (gmap string string) :=
  if String.eqb table "tracks" then t_text <$> tracks d
  else if String.eqb table "users" then u_text <$> users d
  else pl_text <$> playlists d.

Definition artReferenceColumns : list (string * string) :=
  [ ("tracks", "cover_art_sizes"); ("tracks", "cover_art");
    ("users", "profile_picture_sizes"); ("users", "profile_picture");
    ("users", "cover_photo_sizes"); ("users", "cover_photo");
    ("playlists", "playlist_image_sizes_multihash"); ("playlists", "playlist_image_multihash") ].

Definition publishedArtRefs (px : prune_index) (refs : list string) : res media_error (gset string) :=
  if bool_decide (refs = []) then Ok ∅
  else if px_fault px QPublishedArt then Err (MErr "query")
  else Ok (⋃ ((fun '(table, column) => matching column refs (table_texts table (em (px_db px)))) <$> artReferenceColumns)).

(** ** Uploads *)

Definition nonempty (s : string) : bool := negb (String.eqb s "").

Definition uploadCIDs (u : Upload) : list string :=
  List.filter nonempty (OrigFileCID u :: (map_to_list (TranscodeResults u)).*2).

Definition uploadRefs (u : Upload) : list string :=
  app (uploadCIDs u) (if nonempty (ID u) then [ID u] else []).

(** Order by created_at; the zero time comes first. *)
Definition created_le (u v : Upload) : Prop :=
  match CreatedAt u, CreatedAt v with
  | None, _ => True
  | Some _, None => False
  | Some t, Some t' => t <= t'
  end.
#[export] Instance created_le_dec u v : Decision (created_le u v).
Proof. unfold created_le. repeat case_match; apply _. Defined.

Definition created_before (cutoff : Z) (u : Upload) : bool :=
  match CreatedAt u with None => true | Some t => t <? cutoff end.

Definition prune_page (w : world) (tmpl : string) (limit : Z) : list Upload :=
  let cutoff := now w - unpublishedUploadAge in
  take (Z.to_nat limit)
    (merge_sort created_le (List.filter (fun u => String.eqb (Template u) tmpl && created_before cutoff u) (uploads w))).

Definition refsFor (tmpl : string) (u : Upload) : list string :=
  if String.eqb tmpl JobTemplateAudio then uploadCIDs u else uploadRefs u.

Definition published_refs (px : prune_index) (tmpl : string) (refs : list string) : res media_error (gset string) :=
  if String.eqb tmpl JobTemplateAudio then publishedCIDs px refs else publishedArtRefs px refs.

(** ** Deleting *)

(** The node and the result of the task that runs. *)
Definition prune_state : Type := node * pruneResult.

Definition addPruneSkip (w : world) (cid reason : string) (n : node) : res media_error (node * Z) :=
  if io_fault w (SqlPrune cid) then Err (MErr "insert")
  else match prune_skips n !! cid with
       | Some _ => Ok (n, 0)
       | None => Ok (set_skips <[cid := reason]> n, 1)
       end.

(** The rows inserted before a failure stay. *)
Fixpoint addPruneSkips (w : world) (cids : list string) (reason : string) (added : Z) (n : node) : node * res media_error Z :=
  match cids with
  | [] => (n, Ok added)
  | cid :: cids' =>
      if String.eqb cid "" then addPruneSkips w cids' reason added n
      else match addPruneSkip w cid reason n with
           | Err e => (n, Err e)
           | Ok (n', k) => addPruneSkips w cids' reason (added + k) n'
           end
  end.

Section Prune.
Context (url_parse : string -> option (string * string)).
Context (ss : MediorumServer).
Context (px : prune_index).

Section Page.
Context (w : world).

(** The blobs of one upload. *)
Fixpoint drop_cids (cids : list string) : proc prune_state media_error unit :=
  fun s =>
    match cids with
    | [] => (s, Ok tt)
    | cid :: cids' =>
        match haveInMyBucket ss w cid (n_media s.1) with
        | Err e => (s, Err e)
        | Ok false => drop_cids cids' s
        | Ok true =>
            match on_media (dropFromMyBucket url_parse ss w cid) s.1 with
            | (n, Ok _) => drop_cids cids' (n, add_removed 1 s.2)
            | (n, Err MPanic) => ((n, s.2), Err MPanic)
            | (n, Err _) => drop_cids cids' (n, s.2)
            end
        end
    end.

Definition prune_upload (commit : bool) (published : gset string) (tmpl : string) (u : Upload) : proc prune_state media_error unit :=
  fun s =>
    let cids := uploadCIDs u in
    if bool_decide (cids = []) then (s, Ok tt)
    else if existsb (fun ref => bool_decide (ref ∈ published)) (refsFor tmpl u) then (s, Ok tt)
    else
      let s := (s.1, add_matched 1 s.2) in
      if negb commit then (s, Ok tt)
      else match drop_cids cids s with
           | (s, Err e) => (s, Err e)
           | (s, Ok _) =>
               match addPruneSkips w cids "unpublished" 0 s.1 with
               | (n, Ok k) => ((n, add_skips k s.2), Ok tt)
               | (n, Err _) => ((n, s.2), Ok tt)
               end
           end.

(** [done] is whether the context is cancelled when the [i]-th upload is reached. *)
Fixpoint prune_uploads (done : nat -> bool) (commit : bool) (published : gset string) (tmpl : string) (us : list Upload) : proc prune_state media_error unit :=
  match us with
  | [] => pret tt
  | u :: us' =>
      if done 0%nat then pfail MCanceled
      else prune_upload commit published tmpl u ;;! prune_uploads (fun i => done (S i)) commit published tmpl us'
  end.

Definition pruneUnpublishedTemplate (done : nat -> bool) (commit : bool) (limit : Z) (tmpl : string) : proc prune_state media_error unit :=
  fun s =>
    if io_fault w SqlUploads then (s, Err (MErr "query"))
    else
      let us := prune_page w tmpl limit in
      let s := (s.1, add_scanned (Z.of_nat (length us)) s.2) in
      if bool_decide (us = []) then (s, Ok tt)
      else match published_refs px tmpl (us ≫= refsFor tmpl) with
           | Err e => (s, Err e)
           | Ok published => prune_uploads done commit published tmpl us s
           end.

(** A failure ends the task and is reported in its result. *)
Fixpoint prune_templates (done : nat -> bool) (commit : bool) (limit : Z) (tmpls : list string) : proc prune_state media_error unit :=
  match tmpls with
  | [] => pret tt
  | tmpl :: tmpls' =>
      fun s =>
        if ctx_done w then (s, Ok tt)
        else match checkPruneIndexFor w px tmpl with
             | Err e => (s, Err e)
             | Ok _ => (pruneUnpublishedTemplate done commit limit tmpl ;;! prune_templates done commit limit tmpls') s
             end
  end.

Definition error_text (e : media_error) : string :=
  match e with MErr msg => msg | MCanceled => "context canceled" | MNotFound => "not found" | MPanic => "panic" end.

Definition pruneUnpublishedUploads (done : nat -> bool) (commit : bool) (limit : Z) (tmpls : list string) : proc prune_state media_error unit :=
  fun s =>
    if px_fault px QPruneOpen then ((s.1, set_error "prune index" s.2), Ok tt)
    else match prune_templates done commit limit tmpls s with
    | (s, Ok _) => (s, Ok tt)
    | (s, Err MPanic) => (s, Err MPanic)
    | (s, Err e) => ((s.1, set_error (error_text e) s.2), Ok tt)
    end.

(** persistence.SweepStaleTempFiles over one bucket: the files it matches and, unless
    it is a dry run, removes. *)
Definition sweep_matches (dryRun : bool) (b : bucket) (e : (bucket * string) * blob) : Prop :=
  let '((b', path), f) := e in
  b' = b /\ stale_temp w b path (ModTime f) = true /\ (dryRun = true \/ io_fault w (IoRemove b path) = false).
#[local] Instance sweep_matches_dec dryRun b e : Decision (sweep_matches dryRun b e).
Proof. destruct e as [[b' path] f]. unfold sweep_matches. apply _. Defined.

Definition SweepStaleTempFiles (dryRun : bool) (b : bucket) (m : media) : media * res media_error Z :=
  if io_fault w (IoRoot b) then (m, Err (MErr "blob dir is not readable"))
  else if ctx_done w then (m, Err MCanceled)
  else
    let matched := filter (sweep_matches dryRun b) (files m) in
    (if dryRun then m else set_files (filter (fun e => ~ sweep_matches dryRun b e)) m, Ok (Z.of_nat (size matched))).

(** The directory entries met are not counted. *)
Fixpoint sweep_buckets (commit : bool) (bs : list bucket) : proc prune_state media_error unit :=
  fun s =>
    match bs with
    | [] => (s, Ok tt)
    | b :: bs' =>
        if ctx_done w then (s, Ok tt)
        else if bool_decide (FileDirFromDSN (bucketDSN ss b) = None) then sweep_buckets commit bs' s
        else match SweepStaleTempFiles (negb commit) b (n_media s.1) with
             | (m, Err e) => ((set_media m s.1, set_error (error_text e) s.2), Ok tt)
             | (m, Ok k) =>
                 sweep_buckets commit bs'
                   (set_media m s.1, (if commit then add_removed k else id) (add_matched k s.2))
             end
    end.

(** An archive DSN without an open archive bucket is swept as well. *)
Definition pruneTmpFiles (commit : bool) : proc prune_state media_error unit :=
  sweep_buckets commit (if String.eqb (ArchiveBlobStoreDSN (Config ss)) "" then [Primary] else [Primary; Archive]).

Definition prune_task (done : nat -> bool) (req : pruneRequest) (limit : Z) (task : pruneTask) : proc prune_state media_error unit :=
  match task with
  | pruneTaskTmp => pruneTmpFiles (Commit req)
  | pruneTaskUnpublished => pruneUnpublishedUploads done (Commit req) limit (pruneTemplates req)
  | pruneTaskOther _ => fun s => ((s.1, set_error "unknown prune task" s.2), Ok tt)
  end.
End Page.

(** [ws i] is the world of the [i]-th task. *)
Fixpoint run_tasks (ws : nat -> world) (done : nat -> bool) (req : pruneRequest) (limit : Z) (tasks : list pruneTask) (n : node) : node * list pruneResult * res media_error unit :=
  match tasks with
  | [] => (n, [], Ok tt)
  | task :: tasks' =>
      if ctx_done (ws 0%nat) then (n, [], Ok tt)
      else match prune_task (ws 0%nat) done req limit task (n, mkPruneResult task (negb (Commit req)) 0 0 0 0 "") with
           | ((n, r), Err e) => (n, [r], Err e)
           | ((n, r), Ok _) =>
               match run_tasks (fun i => ws (S i)) done req limit tasks' n with
               | (n, rs, e) => (n, r :: rs, e)
               end
           end
  end.

Definition runPrune (ws : nat -> world) (done : nat -> bool) (req : pruneRequest) (n : node) : node * list pruneResult * res media_error unit :=
  let limit := if Limit req <=? 0 then prunePageSize else Limit req in
  run_tasks ws done req limit (Tasks req) n.

(** ** Requests *)

Definition known_task (t : pruneTask) : bool :=
  match t with pruneTaskTmp | pruneTaskUnpublished => true | pruneTaskOther _ => false end.

(** The answer to a request whose body was read, and what waits in the channel
    afterwards; it holds one request. *)
Definition servePrune (waiting : option pruneRequest) (req : pruneRequest) : Z * option pruneRequest :=
  if bool_decide (Tasks req = []) then (400, waiting)
  else if negb (forallb known_task (Tasks req)) then (400, waiting)
  else if negb (forallb validateJobTemplate (Templates req)) then (400, waiting)
  else match waiting with
       | None => (202, Some req)
       | Some _ => (409, waiting)
       end.

(** startPruner takes a request from the channel, then runs it. *)
Definition startPruner (ws : nat -> world) (done : nat -> bool) (waiting : option pruneRequest) (n : node) : option pruneRequest * node :=
  match waiting with
  | None => (None, n)
  | Some req => (None, (runPrune ws done req n).1.1)
  end.
End Prune.

(** ** What prune removes

    A prune of audio removes only blobs of old uploads no track references, and a dry
    run nothing; repair does not bring back what was pruned. *)

(** ** Removals *)

(** [prunes P n n'] : a blob is as it was, or gone and that of a CID in [P]; CIDs
    newly skipped are in [P]. *)
Record prunes (P : string -> Prop) (n n' : node) : Prop := {
  pr_blobs : forall b key, held_blobs n' !! (b, key) = held_blobs n !! (b, key) \/
    held_blobs n' !! (b, key) = None /\ exists c, P c /\ ShardCID c = Some key;
  pr_skips : forall c, c ∈ dom (prune_skips n') -> c ∈ dom (prune_skips n) \/ P c
}.

Lemma prunes_refl P n : prunes P n n.
Proof. split; auto. Qed.

Lemma prunes_trans P n1 n2 n3 : prunes P n1 n2 -> prunes P n2 n3 -> prunes P n1 n3.
Proof.
  intros [H1 H2] [K1 K2]. split.
  - intros b key. destruct (K1 b key) as [->|[-> Hc]]; [apply H1|by right].
  - intros c Hc. destruct (K2 c Hc); auto.
Qed.

(** The blobs and the skips are all that matters. *)
Lemma prunes_same P n n1 n2 :
  held_blobs n2 = held_blobs n1 -> prune_skips n2 = prune_skips n1 -> prunes P n n1 -> prunes P n n2.
Proof. intros E1 E2 [H1 H2]. split; [by rewrite E1|by rewrite E2]. Qed.

Section Removing.
Context (url_parse : string -> option (string * string)) (ss : MediorumServer) (px : prune_index) (w : world).
Context (P : string -> Prop).

Lemma drop_prunes cid n :
  P cid -> prunes P n (on_media (dropFromMyBucket url_parse ss w cid) n).1.
Proof using.
  intros Hc. unfold on_media, dropFromMyBucket. destruct (ShardCID cid) as [key|] eqn:Ek; cbn.
  2: { by apply (prunes_same _ _ n); [| |apply prunes_refl]. }
  split; [|by left]. intros b k. cbn [n_media set_media].
  assert (forall b0 m, blobs (deleteFrom url_parse ss w key b0 m) !! (b, k) = blobs m !! (b, k) \/
    blobs (deleteFrom url_parse ss w key b0 m) !! (b, k) = None /\ k = key) as Hd.
  { intros b0 m. rewrite deleteFrom_blobs. destruct (io_fault w _); [by left|].
    destruct (decide ((b, k) = (b0, key))) as [[= -> ->]|Hne]; [right; by rewrite lookup_delete_eq|].
    left. by rewrite lookup_delete_ne. }
  destruct (archiveBucket ss).
  - destruct (Hd Archive (deleteFrom url_parse ss w key Primary (n_media n))) as [->|[-> ->]]; [|by eauto].
    destruct (Hd Primary (n_media n)) as [->|[-> ->]]; eauto.
  - destruct (Hd Primary (n_media n)) as [->|[-> ->]]; eauto.
Qed.

Lemma drop_cids_prunes cids s :
  (forall c, c ∈ cids -> P c) -> prunes P s.1 (drop_cids url_parse ss w cids s).1.1.
Proof using.
  revert s. induction cids as [|c cids IH]; intros s Hc; cbn [drop_cids]; [apply prunes_refl|].
  destruct (haveInMyBucket ss w c (n_media s.1)) as [[]|]; [|by apply IH; set_solver|apply prunes_refl].
  pose proof (drop_prunes c s.1 ltac:(apply Hc; set_solver)) as Hd.
  destruct (on_media _ s.1) as [n1 [[]|e]]; cbn [fst] in Hd.
  - eapply prunes_trans; [exact Hd|]. apply (IH (n1, add_removed 1 s.2)). set_solver.
  - destruct e; cbn [fst]; [done|..]; (eapply prunes_trans; [exact Hd|]; apply (IH (n1, s.2)); set_solver).
Qed.

Lemma addPruneSkips_prunes cids reason k n :
  (forall c, c ∈ cids -> P c) -> prunes P n (addPruneSkips w cids reason k n).1.
Proof using.
  revert k n. induction cids as [|c cids IH]; intros k n Hc; cbn [addPruneSkips]; [apply prunes_refl|].
  assert (forall c', c' ∈ cids -> P c') as Hcs by (intros c' Hc'; apply Hc, elem_of_cons; by right).
  destruct (String.eqb c ""); [by apply IH|]. unfold addPruneSkip.
  destruct (io_fault w (SqlPrune c)); [apply prunes_refl|].
  destruct (prune_skips n !! c); (eapply prunes_trans; [|by apply IH]); [apply prunes_refl|].
  split; [by left|]. intros c'. cbn. rewrite dom_insert, elem_of_union, elem_of_singleton.
  intros [->|]; [right; apply Hc, elem_of_cons; by left|by left].
Qed.

Lemma prune_upload_prunes commit published tmpl u s :
  (forall c, c ∈ uploadCIDs u -> (forall ref, ref ∈ refsFor tmpl u -> ref ∉ published) -> P c) ->
  prunes P s.1 (prune_upload url_parse ss w commit published tmpl u s).1.1.
Proof using.
  intros Hc. unfold prune_upload. cbn zeta. case_bool_decide; [apply prunes_refl|].
  destruct (existsb _ _) eqn:E; [apply prunes_refl|].
  assert (forall ref, ref ∈ refsFor tmpl u -> ref ∉ published) as Href.
  { intros ref Hr Hp. apply not_true_iff_false in E. apply E, existsb_exists. exists ref.
    split; [by apply list_elem_of_In|by apply bool_decide_eq_true]. }
  destruct commit; cbn [negb]; [|apply prunes_refl].
  pose proof (drop_cids_prunes (uploadCIDs u) (s.1, add_matched 1 s.2) ltac:(auto)) as Hd.
  destruct (drop_cids _ _ _ _ _) as [s1 [[]|]]; cbn [fst] in *; [|done].
  pose proof (addPruneSkips_prunes (uploadCIDs u) "unpublished" 0 s1.1 ltac:(auto)) as Ha.
  destruct (addPruneSkips _ _ _ _ _) as [n1 []]; cbn [fst] in *; by eapply prunes_trans.
Qed.

Lemma prune_uploads_prunes done commit published tmpl us s :
  (forall u c, u ∈ us -> c ∈ uploadCIDs u -> (forall ref, ref ∈ refsFor tmpl u -> ref ∉ published) -> P c) ->
  prunes P s.1 (prune_uploads url_parse ss w done commit published tmpl us s).1.1.
Proof using.
  revert done s. induction us as [|u us IH]; intros dn s Hc; cbn [prune_uploads]; [apply prunes_refl|].
  destruct (dn 0%nat); [apply prunes_refl|]. unfold pbind.
  pose proof (prune_upload_prunes commit published tmpl u s ltac:(set_solver)) as Hu.
  destruct (prune_upload _ _ _ _ _ _ _ _) as [s1 [[]|]]; cbn [fst] in *; [|done].
  eapply prunes_trans; [exact Hu|]. apply IH. set_solver.
Qed.

Lemma sweep_prunes commit bs s : prunes P s.1 (sweep_buckets ss w commit bs s).1.1.
Proof using.
  revert s. induction bs as [|b bs IH]; intros s; cbn [sweep_buckets]; [apply prunes_refl|].
  destruct (ctx_done w); [apply prunes_refl|]. case_bool_decide; [apply IH|].
  assert (blobs (SweepStaleTempFiles w (negb commit) b (n_media s.1)).1 = held_blobs s.1) as Hb.
  { unfold SweepStaleTempFiles. repeat case_match; done. }
  destruct (SweepStaleTempFiles _ _ _ _) as [m []]; cbn [fst] in *.
  - eapply prunes_trans; [|apply IH]. by apply (prunes_same _ _ s.1); [| |apply prunes_refl].
  - by apply (prunes_same _ _ s.1); [| |apply prunes_refl].
Qed.
End Removing.

(** ** References *)

(** No track names the CID. *)
Definition unreferenced (px : prune_index) (c : string) : Prop :=
  forall t, t ∈ tracks (em (px_db px)) ->
    t_text t !! "track_cid" <> Some c /\ t_text t !! "orig_file_cid" <> Some c /\ t_text t !! "preview_cid" <> Some c.

Lemma elem_of_matching column refs texts v :
  v ∈ matching column refs texts <-> v ∈ refs /\ v <> "" /\ exists text, text ∈ texts /\ text !! column = Some v.
Proof.
  unfold matching. rewrite elem_of_list_to_set, list_elem_of_omap. split.
  - intros (text & Hin & Hv). destruct (text !! column) as [v'|] eqn:E; [|done].
    destruct (bool_decide_reflect (v' ∈ refs)) as [Hr|]; [|done]. cbn in Hv.
    destruct (String.eqb_spec v' "") as [|Hne]; [done|]. cbn in Hv. injection Hv as ->. eauto.
  - intros (Hr & Hne & text & Hin & E). exists text. split; [done|]. rewrite E.
    rewrite bool_decide_eq_true_2 by done. destruct (String.eqb_spec v ""); done.
Qed.

Lemma elem_of_uploadCIDs c u : c ∈ uploadCIDs u -> c <> "".
Proof.
  unfold uploadCIDs. intros Hc. apply list_elem_of_In, filter_In in Hc as [_ Hc]. unfold nonempty in Hc.
  by destruct (String.eqb_spec c "").
Qed.

(** A CID of an audio upload that is not among the published ones is referenced by no
    track. *)
Lemma not_published px refs published c :
  publishedCIDs px refs = Ok published -> c ∈ refs -> c <> "" -> c ∉ published -> unreferenced px c.
Proof.
  unfold publishedCIDs. intros H Hr Hne Hp. case_bool_decide; [by subst; apply elem_of_nil in Hr|].
  destruct (px_fault px QPublished); [done|]. injection H as <-. intros t Ht.
  assert (t_text t ∈ t_text <$> tracks (em (px_db px))) as Hin by (by apply list_elem_of_fmap_2).
  rewrite !elem_of_union, !elem_of_matching in Hp. split; [|split]; intros E; apply Hp; eauto 8.
Qed.

Section Runs.
Context (url_parse : string -> option (string * string)) (ss : MediorumServer) (px : prune_index).
Context (ws : nat -> world).

(** An audio upload, older than thirty days, none of whose CIDs a track references. *)
Definition abandoned_upload (i : nat) (u : Upload) : Prop :=
  u ∈ uploads (ws i) /\ Template u = JobTemplateAudio /\
  created_before (now (ws i) - unpublishedUploadAge) u = true /\
  forall c, c ∈ uploadCIDs u -> unreferenced px c.

(** A CID of such an upload. *)
Definition abandoned (c : string) : Prop := exists i u, abandoned_upload i u /\ c ∈ uploadCIDs u.

Lemma template_prunes i done commit limit s :
  prunes abandoned s.1 (pruneUnpublishedTemplate url_parse ss px (ws i) done commit limit JobTemplateAudio s).1.1.
Proof using.
  unfold pruneUnpublishedTemplate. destruct (io_fault _ _); [apply prunes_refl|]. cbn zeta.
  set (us := prune_page (ws i) JobTemplateAudio limit). case_bool_decide; [apply prunes_refl|].
  destruct (published_refs _ _ _) as [published|] eqn:Ep; [|apply prunes_refl].
  apply (prune_uploads_prunes url_parse ss (ws i) abandoned done commit published JobTemplateAudio us
           (s.1, add_scanned (Z.of_nat (length us)) s.2)).
  intros u c Hu Hc Href. exists i, u. split; [|done].
  assert (forall c', c' ∈ uploadCIDs u -> unreferenced px c') as Hall.
  { intros c' Hc'. apply (not_published px _ published c' Ep); [|by eapply elem_of_uploadCIDs|by apply Href].
    apply list_elem_of_bind. by exists u. }
  unfold us, prune_page in Hu. apply subseteq_take in Hu. rewrite merge_sort_Permutation in Hu.
  apply list_elem_of_In, filter_In in Hu as [Hu E]. apply andb_prop in E as [E1 E2]. apply String.eqb_eq in E1.
  split_and!; [by apply list_elem_of_In|done..].
Qed.

Lemma templates_prunes i done commit limit tmpls s :
  Forall (eq JobTemplateAudio) tmpls ->
  prunes abandoned s.1 (prune_templates url_parse ss px (ws i) done commit limit tmpls s).1.1.
Proof using.
  intros Ht. revert s. induction Ht as [|tmpl tmpls <- _ IH]; intros s; cbn [prune_templates]; [apply prunes_refl|].
  destruct (ctx_done _); [apply prunes_refl|]. destruct (checkPruneIndexFor _ _ _); [|apply prunes_refl]. unfold pbind.
  pose proof (template_prunes i done commit limit s) as Hd.
  destruct (pruneUnpublishedTemplate _ _ _ _ _ _ _ _ _) as [s1 [[]|]]; cbn [fst] in *; [|done].
  eapply prunes_trans; [exact Hd|apply IH].
Qed.

Lemma task_prunes i done req limit task s :
  Forall (eq JobTemplateAudio) (Templates req) ->
  prunes abandoned s.1 (prune_task url_parse ss px (ws i) done req limit task s).1.1.
Proof using.
  intros Ht. destruct task; cbn [prune_task].
  - apply sweep_prunes.
  - unfold pruneUnpublishedUploads. destruct (px_fault px QPruneOpen); [apply prunes_refl|].
    assert (Forall (eq JobTemplateAudio) (pruneTemplates req)) as Hp.
    { unfold pruneTemplates. destruct (Templates req); [by repeat constructor|done]. }
    pose proof (templates_prunes i done (Commit req) limit (pruneTemplates req) s Hp) as Hd.
    destruct (prune_templates _ _ _ _ _ _ _ _ _) as [s1 [[]|e]]; cbn [fst] in *; [done|]. by destruct e.
  - apply prunes_refl.
Qed.
End Runs.

Lemma abandoned_shift px ws c : abandoned px (fun i => ws (S i)) c -> abandoned px ws c.
Proof. intros (i & u & Hu & Hc). by exists (S i), u. Qed.

Lemma prunes_weaken (P Q : string -> Prop) n n' : (forall c, P c -> Q c) -> prunes P n n' -> prunes Q n n'.
Proof.
  intros HPQ [H1 H2]. split.
  - intros b key. destruct (H1 b key) as [|[? (c & ? & ?)]]; [by left|right; eauto].
  - intros c Hc. destruct (H2 c Hc); auto.
Qed.

Lemma run_tasks_prunes url_parse ss px ws done req limit tasks n :
  Forall (eq JobTemplateAudio) (Templates req) ->
  prunes (abandoned px ws) n (run_tasks url_parse ss px ws done req limit tasks n).1.1.
Proof.
  intros Ht. revert ws n. induction tasks as [|task tasks IH]; intros ws n; cbn [run_tasks]; [apply prunes_refl|].
  destruct (ctx_done _); [apply prunes_refl|].
  match goal with |- context [prune_task _ _ _ _ _ _ _ _ ?s0] =>
    pose proof (task_prunes url_parse ss px ws 0 done req limit task s0 Ht) as Hd;
    destruct (prune_task _ _ _ _ _ _ _ _ s0) as [[n1 r] [[]|]] end; cbn [fst] in *; [|done].
  specialize (IH (fun i => ws (S i)) n1). destruct (run_tasks _ _ _ _ _ _ _ tasks n1) as [[n2 rs] e]. cbn [fst] in *.
  eapply prunes_trans; [exact Hd|]. eapply prunes_weaken; [apply abandoned_shift|done].
Qed.

(** ** Dry runs *)

Lemma set_media_same n : set_media (n_media n) n = n.
Proof. by destruct n. Qed.

Section DryRun.
Context (url_parse : string -> option (string * string)) (ss : MediorumServer) (px : prune_index).

Lemma dry_uploads w done published tmpl us s :
  (prune_uploads url_parse ss w done false published tmpl us s).1.1 = s.1.
Proof using.
  revert done s. induction us as [|u us IH]; intros dn s; cbn [prune_uploads]; [done|].
  destruct (dn 0%nat); [done|]. unfold pbind, prune_upload. cbn zeta.
  destruct (bool_decide _); [apply IH|]. destruct (existsb _ _); [apply IH|]. cbn [negb]. by rewrite IH.
Qed.

Lemma dry_templates w done limit tmpls s :
  (prune_templates url_parse ss px w done false limit tmpls s).1.1 = s.1.
Proof using.
  revert s. induction tmpls as [|tmpl tmpls IH]; intros s; cbn [prune_templates]; [done|].
  destruct (ctx_done w); [done|]. destruct (checkPruneIndexFor _ _ _); [|done]. unfold pbind, pruneUnpublishedTemplate.
  destruct (io_fault _ _); [done|]. cbn zeta. case_bool_decide; [by rewrite IH|].
  destruct (published_refs _ _ _) as [published|]; [|done].
  match goal with |- context [prune_uploads _ _ _ ?d false ?p ?t ?us ?s0] =>
    pose proof (dry_uploads w d p t us s0) as Hu; destruct (prune_uploads _ _ _ d false p t us s0) as [s1 [[]|]] end;
    cbn [fst] in *; [by rewrite IH|done].
Qed.

Lemma dry_sweep w bs s : (sweep_buckets ss w false bs s).1.1 = s.1.
Proof using.
  revert s. induction bs as [|b bs IH]; intros s; cbn [sweep_buckets]; [done|].
  destruct (ctx_done w) eqn:Ed; [done|]. case_bool_decide; [apply IH|]. unfold SweepStaleTempFiles. rewrite Ed.
  destruct (io_fault w (IoRoot b)); cbn [negb fst]; [by rewrite set_media_same|]. rewrite IH. cbn. by rewrite set_media_same.
Qed.

Lemma dry_task w done req limit task s :
  Commit req = false -> (prune_task url_parse ss px w done req limit task s).1.1 = s.1.
Proof using.
  intros Hc. destruct task; cbn [prune_task]; rewrite ?Hc; [apply dry_sweep| |done].
  unfold pruneUnpublishedUploads. destruct (px_fault px QPruneOpen); [done|]. pose proof (dry_templates w done limit (pruneTemplates req) s) as Hd.
  destruct (prune_templates _ _ _ _ _ _ _ _ _) as [s1 [[]|e]]; cbn [fst] in *; [done|]. by destruct e.
Qed.

Lemma dry_run_tasks ws done req limit tasks n :
  Commit req = false -> (run_tasks url_parse ss px ws done req limit tasks n).1.1 = n.
Proof using.
  intros Hc. revert ws n. induction tasks as [|task tasks IH]; intros ws n; cbn [run_tasks]; [done|].
  destruct (ctx_done _); [done|].
  match goal with |- context [prune_task _ _ _ ?w ?d _ _ _ ?s0] => pose proof (dry_task w d req limit task s0 Hc) as Hd;
    destruct (prune_task _ _ _ w d _ _ _ s0) as [[n1 r] [[]|]] end; cbn [fst] in *; subst n1; [|done].
  specialize (IH (fun i => ws (S i)) n). by destruct (run_tasks _ _ _ _ _ _ _ tasks n) as [[n2 rs] e].
Qed.
End DryRun.

(** C29 -- A prune of audio touches only abandoned uploads, and these as a whole.  Whatever
    fails and whenever it is cancelled, a prune whose templates are audio (the default)
    leaves every blob as it was, or removes it because its key is that of a CID of an
    audio upload more than thirty days old none of whose CIDs (the original and every
    transcoded file) any track of the index names as its file, its original or its
    preview.  Only CIDs of such uploads are put on the list repair skips, and a request
    that does not say commit changes nothing at all. *)
Theorem prune_keeps_published_audio url_parse ss px ws done req n :
  Forall (eq JobTemplateAudio) (Templates req) ->
  let n' := (runPrune url_parse ss px ws done req n).1.1 in
  (forall b key, held_blobs n' !! (b, key) = held_blobs n !! (b, key) \/
     held_blobs n' !! (b, key) = None /\ exists c, abandoned px ws c /\ ShardCID c = Some key) /\
  (forall c, c ∈ dom (prune_skips n') -> c ∈ dom (prune_skips n) \/ abandoned px ws c) /\
  (Commit req = false -> n' = n).
Proof.
  intros Ht. cbn zeta. unfold runPrune. cbn zeta.
  match goal with |- context [run_tasks _ _ _ _ _ _ ?l ?ts n] =>
    destruct (run_tasks_prunes url_parse ss px ws done req l ts n Ht) as [H1 H2] end.
  split; [done|]. split; [done|]. intros Hc. by apply dry_run_tasks.
Qed.

(** ** Repair after a prune *)

(** Repair leaves a CID it is told to skip alone. *)
Lemma skipped_cid_is_not_repaired sha256 url_parse compute_cid ss w cid placement idx pol createdAt n :
  cid ∈ PruneSkips (tracker n) ->
  n_media (repairCidWithPolicy sha256 url_parse compute_cid ss w cid placement idx pol createdAt n).1 = n_media n.
Proof.
  intros Hs. unfold repairCidWithPolicy. destruct (String.eqb cid ""); [done|].
  destruct (rendezvousAllHosts sha256 ss cid). case_match; [done|]. case_match; [done|].
  by rewrite bool_decide_eq_true_2.
Qed.
