(* ===== verification/MediaFetch.v ===== *)
(** * Reading a blob from a peer

    Models pkg/mediorum/server/blob_fetch.go: a blob is read as a series of ranged
    requests, each retried a few times, against the peer itself or a presigned URL it
    redirects to.  It is what the field [fetch] of a world stands for. *)

From stdpp Require Import base strings list.
From Stdlib Require Import ZArith Lia Ascii.
From S2P Require Import Prelude Crypto Rendezvous Encoding.

Open Scope string_scope.
Open Scope Z_scope.

Definition blobFetchChunkAttempts : nat := 3.

(** A GET with a range of bytes, both ends included, signed or not. *)
Record range_request := mkRangeRequest { rq_url : string; rq_signed : bool; rq_first : Z; rq_last : Z }.

(** A body: the bytes that arrive, and whether it then ends or breaks off. *)
Definition http_body : Type := string * bool.

(** [final_url] is the URL the response came from, after redirects. *)
Record http_response := mkHttpResponse {
  StatusCode : Z;
  Content_Range : string;
  final_url : string;
  Body : http_body
}.

(** The client: the answer to the [i]-th request, [None] when there is none, and which
    URLs no request can be made for. *)
Record http_client := mkHttpClient {
  Do : nat -> range_request -> option http_response;
  bad_url : string -> bool
}.

Inductive fetch_error :=
| FetchRequest
| FetchTransport
| FetchStatus (code : Z)
| FetchRange
| FetchExhausted
| FetchBroken.

(** [sent] counts the requests made so far. *)
Record chunkedBlobReader := mkReader {
  origin : string;
  target : string;
  signTarget : bool;
  total : Z;
  offset : Z;
  cur : option http_body;
  singleStream : bool;
  sent : nat
}.

Definition set_cur (b : option http_body) (r : chunkedBlobReader) : chunkedBlobReader :=
  mkReader (origin r) (target r) (signTarget r) (total r) (offset r) b (singleStream r) (sent r).
Definition set_target (url : string) (r : chunkedBlobReader) : chunkedBlobReader :=
  mkReader (origin r) url (String.eqb url (origin r)) (total r) (offset r) (cur r) (singleStream r) (sent r).
Definition set_total (n : Z) (r : chunkedBlobReader) : chunkedBlobReader :=
  mkReader (origin r) (target r) (signTarget r) n (offset r) (cur r) (singleStream r) (sent r).
Definition add_offset (n : Z) (r : chunkedBlobReader) : chunkedBlobReader :=
  mkReader (origin r) (target r) (signTarget r) (total r) (offset r + n) (cur r) (singleStream r) (sent r).
Definition set_single (r : chunkedBlobReader) : chunkedBlobReader :=
  mkReader (origin r) (target r) (signTarget r) (total r) (offset r) (cur r) true (sent r).
Definition count_request (r : chunkedBlobReader) : chunkedBlobReader :=
  mkReader (origin r) (target r) (signTarget r) (total r) (offset r) (cur r) (singleStream r) (S (sent r)).

(** What follows the last "/". *)
Fixpoint after_slash (s : string) : option string :=
  match s with
  | EmptyString => None
  | String c s' =>
      match after_slash s' with
      | Some t => Some t
      | None => if Ascii.eqb c "/" then Some s' else None
      end
  end.

Definition parseContentRange (v : string) : option Z :=
  match after_slash v with
  | None => None
  | Some sizePart => if String.eqb sizePart "*" then None else ParseInt sizePart
  end.

Section Fetch.
Context (client : http_client).
(** 256 MB; a variable of the source, so that it can be shrunk. *)
Context (blobFetchChunkSize : Z).

Definition rangeRequest (rawURL : string) (sign : bool) (start : Z) : option range_request :=
  if bad_url client rawURL then None
  else Some (mkRangeRequest rawURL sign start (start + blobFetchChunkSize - 1)).

Definition send (req : range_request) (r : chunkedBlobReader) : chunkedBlobReader * option http_response :=
  (count_request r, Do client (sent r) req).

Definition start : proc chunkedBlobReader fetch_error unit :=
  fun r =>
    match rangeRequest (origin r) true 0 with
    | None => (r, Err FetchRequest)
    | Some req =>
        match send req r with
        | (r, None) => (r, Err FetchTransport)
        | (r, Some resp) =>
            if StatusCode resp =? 206 then
              match parseContentRange (Content_Range resp) with
              | None => (r, Err FetchRange)
              | Some n => (set_cur (Some (Body resp)) (set_target (final_url resp) (set_total n r)), Ok tt)
              end
            else if StatusCode resp =? 200 then (set_cur (Some (Body resp)) (set_single r), Ok tt)
            else (r, Err (FetchStatus (StatusCode resp)))
        end
    end.

(** Ask the peer for one byte to learn where it redirects now. *)
Definition refreshTarget : proc chunkedBlobReader fetch_error unit :=
  fun r =>
    if bad_url client (origin r) then (r, Err FetchRequest)
    else match send (mkRangeRequest (origin r) true 0 0) r with
         | (r, None) => (r, Err FetchTransport)
         | (r, Some resp) =>
             if negb (StatusCode resp =? 206) && negb (StatusCode resp =? 200)
             then (r, Err (FetchStatus (StatusCode resp)))
             else (set_target (final_url resp) r, Ok tt)
         end.

(** The attempts at one chunk; [lastErr] is the error of the last that set one. *)
Fixpoint chunk_attempts (attempts : nat) (lastErr : option fetch_error) : proc chunkedBlobReader fetch_error unit :=
  fun r =>
    match attempts with
    | O => (r, Err (default FetchExhausted lastErr))
    | S attempts' =>
        match rangeRequest (target r) (signTarget r) (offset r) with
        | None => (r, Err FetchRequest)
        | Some req =>
            match send req r with
            | (r, None) => chunk_attempts attempts' (Some FetchTransport) r
            | (r, Some resp) =>
                if StatusCode resp =? 206 then (set_cur (Some (Body resp)) r, Ok tt)
                else if negb (signTarget r) && ((StatusCode resp =? 403) || (StatusCode resp =? 401)) then
                  match refreshTarget r with
                  | (r, Err e) => (r, Err e)
                  | (r, Ok _) => chunk_attempts attempts' lastErr r
                  end
                else chunk_attempts attempts' (Some (FetchStatus (StatusCode resp))) r
            end
        end
    end.

Definition nextChunk : proc chunkedBlobReader fetch_error unit := chunk_attempts blobFetchChunkAttempts None.

(** What a Read returns: bytes, the end, or that the fuel of its loop ran out. *)
Inductive read_result := ReadBytes (s : string) | ReadEOF | ReadFuel.

(** A Read for which [S k] bytes fit into the buffer and have arrived. *)
Fixpoint Read (fuel k : nat) : proc chunkedBlobReader fetch_error read_result :=
  fun r =>
    match fuel with
    | O => (r, Ok ReadFuel)
    | S fuel' =>
        match cur r with
        | None => (r, Ok ReadEOF)
        | Some (EmptyString, false) => (r, Err FetchBroken)
        | Some (EmptyString, true) =>
            let r := set_cur None r in
            if singleStream r || (total r <=? offset r) then (r, Ok ReadEOF)
            else match nextChunk r with
                 | (r, Err e) => (r, Err e)
                 | (r, Ok _) => Read fuel' k r
                 end
        | Some (s, ended) =>
            let got := str_take (S k) s in
            (add_offset (Z.of_nat (String.length got)) (set_cur (Some (str_drop (S k) s, ended)) r), Ok (ReadBytes got))
        end
    end.

(** io.Copy of the reader, at most [fuel] reads of [inner] rounds, the [i]-th of
    [ks i + 1] bytes: what was copied and how it ended, [None] when the fuel ran out. *)
Fixpoint copy_reader (fuel inner : nat) (ks : nat -> nat) (r : chunkedBlobReader) : string * option (res fetch_error unit) :=
  match fuel with
  | O => ("", None)
  | S fuel' =>
      match Read inner (ks 0%nat) r with
      | (_, Err e) => ("", Some (Err e))
      | (_, Ok ReadFuel) => ("", None)
      | (_, Ok ReadEOF) => ("", Some (Ok tt))
      | (r, Ok (ReadBytes s)) =>
          let '(rest, e) := copy_reader fuel' inner (fun i => ks (S i)) r in (s +:+ rest, e)
      end
  end.

(** openBlobFromHost, of another host, and a copy of what it reads. *)
Definition openBlobFromHost (url : string) : chunkedBlobReader * res fetch_error unit :=
  start (mkReader url "" false 0 0 None false 0).

Definition fetch_blob (fuel inner : nat) (ks : nat -> nat) (url : string) : option (string * option (res fetch_error unit)) :=
  match openBlobFromHost url with
  | (_, Err _) => None
  | (r, Ok _) => Some (copy_reader fuel inner ks r)
  end.
End Fetch.

(** ** Properties *)

(** The bytes [first, last] of a blob. *)
Definition byte_range (data : string) (first last : Z) : string :=
  str_take (Z.to_nat (last + 1 - first)) (str_drop (Z.to_nat first) data).

(** A body that carries [s], or breaks off within it. *)
Definition carries (s : string) (b : http_body) : Prop :=
  exists k, b.1 = str_take k s /\ (b.2 = true -> b.1 = s).

(** Every URL the client is sent to serves the blob, and the answers that succeed are
    true to it. *)
Definition serves_blob (client : http_client) (data : string) : Prop :=
  forall i req resp, Do client i req = Some resp ->
    (StatusCode resp = 206 ->
       parseContentRange (Content_Range resp) = Some (Z.of_nat (String.length data)) /\
       carries (byte_range data (rq_first req) (rq_last req)) (Body resp)) /\
    (StatusCode resp = 200 -> carries data (Body resp)).

(** The first request is answered, no three requests in a row fail, none is refused
    and no body breaks off. *)
Definition reliable (client : http_client) : Prop :=
  (forall url, bad_url client url = false) /\
  (forall req, exists resp, Do client 0 req = Some resp /\ (StatusCode resp = 206 \/ StatusCode resp = 200)) /\
  (forall i req, (0 < i)%nat -> exists j resp, (j < 3)%nat /\ Do client (i + j) req = Some resp /\ StatusCode resp = 206) /\
  (forall i req resp, Do client i req = Some resp -> (Body resp).2 = true /\ StatusCode resp <> 403 /\ StatusCode resp <> 401).

Lemma fetched_cons c s t : String c s +:+ t = String c (s +:+ t).
Proof. done. Qed.

Lemma str_take_drop n s : str_take n s +:+ str_drop n s = s.
Proof.
  revert s. induction n as [|n IH]; intros [|c s]; try done.
  cbn [str_take str_drop]. rewrite fetched_cons. f_equal. apply IH.
Qed.

Lemma str_drop_drop n m s : str_drop n (str_drop m s) = str_drop (m + n) s.
Proof. revert s. induction m as [|m IH]; intros [|c s]; cbn; try done; try apply IH; by destruct n. Qed.

Lemma str_drop_length n s : String.length (str_drop n s) = (String.length s - n)%nat.
Proof. revert s. induction n as [|n IH]; intros [|c s]; cbn; auto. Qed.

Lemma str_take_nil k : str_take k "" = "".
Proof. by destruct k. Qed.

Lemma str_drop_nil n : str_drop n "" = "".
Proof. by destruct n. Qed.

Lemma str_drop_take k n s : str_drop n (str_take k s) = str_take (k - n) (str_drop n s).
Proof.
  revert k s. induction n as [|n IH]; intros k s; [by rewrite Nat.sub_0_r|].
  destruct s as [|c s]; [by rewrite str_drop_nil, !str_take_nil, str_drop_nil|].
  destruct k as [|k]; [done|]. apply IH.
Qed.

Lemma take_empty k s : str_take k s = "" -> k = 0%nat \/ s = "".
Proof. destruct k, s; cbn; auto; discriminate. Qed.

Lemma empty_length s : String.length s = 0%nat -> s = "".
Proof. by destruct s. Qed.

Section FetchProps.
Context (client : http_client) (chunk : Z) (data : string).
Hypothesis Hserves : serves_blob client data.
Hypothesis Hchunk : 0 < chunk.

(** What is left of the blob. *)
Definition left_of (r : chunkedBlobReader) : string := str_drop (Z.to_nat (offset r)) data.

(** The open body is where the reader is in the blob. *)
Definition aligned (r : chunkedBlobReader) : Prop :=
  0 <= offset r /\ (singleStream r = false -> total r = Z.of_nat (String.length data)) /\
  forall b, cur r = Some b -> exists k, b.1 = str_take k (left_of r) /\ (singleStream r = true -> b.2 = true -> b.1 = left_of r).

(** What a request leaves as it was. *)
Definition same_place (r r' : chunkedBlobReader) : Prop :=
  offset r' = offset r /\ total r' = total r /\ singleStream r' = singleStream r.

Lemma refresh_place r : same_place r (refreshTarget client r).1.
Proof using.
  unfold refreshTarget, send. destruct (bad_url _ _); [done|]. destruct (Do _ _ _) as [resp|]; [|done].
  by destruct (negb _ && negb _).
Qed.

Lemma attempts_place n e r :
  let '(r', res) := chunk_attempts client chunk n e r in
  same_place r r' /\
  (res = Ok tt -> exists b, cur r' = Some b /\ carries (byte_range data (offset r) (offset r + chunk - 1)) b).
Proof using Hserves.
  revert e r. induction n as [|n IH]; intros e r; cbn [chunk_attempts]; [done|].
  unfold rangeRequest. destruct (bad_url client (target r)); [done|]. unfold send.
  destruct (Do client (sent r) _) as [resp|] eqn:ED; cbn [fst snd].
  - destruct (StatusCode resp =? 206) eqn:E206.
    { split; [done|]. intros _. exists (Body resp). split; [done|].
      apply Z.eqb_eq in E206. by destruct (Hserves _ _ _ ED) as [H _]; destruct (H E206). }
    destruct (negb _ && _).
    + pose proof (refresh_place (count_request r)) as (P1 & P2 & P3).
      destruct (refreshTarget client (count_request r)) as [r1 [[]|e1]]; cbn [fst] in *; [|done].
      specialize (IH e r1). destruct (chunk_attempts _ _ n e r1) as [r2 res]. destruct IH as [(Q1 & Q2 & Q3) H].
      split; [unfold same_place; cbn in *; split_and!; congruence|]. by rewrite P1 in H.
    + specialize (IH (Some (FetchStatus (StatusCode resp))) (count_request r)).
      by destruct (chunk_attempts _ _ n _ (count_request r)) as [r2 res].
  - specialize (IH (Some FetchTransport) (count_request r)).
    by destruct (chunk_attempts _ _ n _ (count_request r)) as [r2 res].
Qed.

Lemma byte_range_chunk o : 0 <= o -> byte_range data o (o + chunk - 1) = str_take (Z.to_nat chunk) (str_drop (Z.to_nat o) data).
Proof using. intros. unfold byte_range. repeat f_equal. lia. Qed.

Lemma next_aligned r r' :
  aligned r -> singleStream r = false -> nextChunk client chunk r = (r', Ok tt) ->
  aligned r' /\ same_place r r' /\ exists b, cur r' = Some b /\ carries (str_take (Z.to_nat chunk) (left_of r)) b.
Proof using Hserves.
  intros (H0 & Ht & _) Hs Hn. pose proof (attempts_place blobFetchChunkAttempts None r) as Hp.
  unfold nextChunk in Hn. rewrite Hn in Hp. destruct Hp as [(P1 & P2 & P3) Hb]. destruct (Hb eq_refl) as (b & Eb & Hc).
  rewrite byte_range_chunk in Hc by done. fold (left_of r) in Hc. split; [|split; [done|by exists b]].
  split; [lia|]. split; [rewrite P3, P2; auto|]. intros b' Eb'. rewrite Eb in Eb'. injection Eb' as <-.
  destruct Hc as (k & Hk & _). exists (Nat.min k (Z.to_nat chunk)). unfold left_of. rewrite P1. split; [|rewrite P3, Hs; done].
  rewrite Hk. unfold left_of. clear. generalize (str_drop (Z.to_nat (offset r)) data). intros s.
  destruct (Nat.le_ge_cases k (Z.to_nat chunk)).
  - rewrite str_take_take by done. by rewrite Nat.min_l.
  - rewrite Nat.min_r by done. apply str_take_ge. rewrite str_take_length. lia.
Qed.

(** A read of a body that is not exhausted. *)
Lemma read_some k r s ended :
  aligned r -> cur r = Some (s, ended) -> s <> "" ->
  exists r' got, (forall fuel, Read client chunk (S fuel) k r = (r', Ok (ReadBytes got))) /\ aligned r' /\
    got +:+ left_of r' = left_of r /\ (String.length (left_of r') < String.length (left_of r))%nat /\
    exists s', cur r' = Some (s', ended) /\ sent r' = sent r.
Proof using.
  intros (H0 & Ht & Hb) Ec Hs. set (got := str_take (S k) s).
  exists (add_offset (Z.of_nat (String.length got)) (set_cur (Some (str_drop (S k) s, ended)) r)), got.
  destruct (Hb _ Ec) as (j & Hj & Hsingle). cbn [fst snd] in *.
  assert (0 < String.length got)%nat as Hg.
  { unfold got. rewrite str_take_length. destruct s; [done|]. cbn. lia. }
  assert (got = str_take (String.length got) (left_of r)) as Hgot.
  { unfold got at 1. rewrite Hj. destruct (Nat.le_ge_cases (S k) j).
    - rewrite str_take_take by done. unfold got. rewrite str_take_length, Hj, str_take_length.
      destruct (Nat.le_ge_cases (S k) (String.length (left_of r))); [by rewrite !Nat.min_l by lia|].
      rewrite !str_take_ge; [done|lia..].
    - unfold got. rewrite str_take_length, Hj, str_take_length. rewrite (str_take_ge (S k)) by (rewrite str_take_length; lia).
      destruct (Nat.le_ge_cases j (String.length (left_of r))); [by rewrite !Nat.min_r, ?Nat.min_l by lia|].
      rewrite !str_take_ge; [done|lia..]. }
  assert (left_of (add_offset (Z.of_nat (String.length got)) (set_cur (Some (str_drop (S k) s, ended)) r))
          = str_drop (String.length got) (left_of r)) as El.
  { unfold left_of. cbn. rewrite str_drop_drop. f_equal. lia. }
  assert (str_drop (S k) s = str_drop (String.length got) s) as Ed.
  { unfold got. rewrite str_take_length. destruct (Nat.le_ge_cases (S k) (String.length s)); [by rewrite Nat.min_l|].
    rewrite Nat.min_r by done. etransitivity; [apply empty_length|symmetry; apply empty_length]; rewrite str_drop_length; lia. }
  split_and!.
  - intros fuel. cbn [Read]. rewrite Ec. by destruct s.
  - split; [cbn; lia|]. split; [done|]. intros b Eb. assert (b = (str_drop (S k) s, ended)) as -> by (cbn [cur add_offset set_cur] in Eb; congruence). cbn [fst snd]. rewrite El, Ed.
    exists (j - String.length got)%nat. split; [by rewrite <- str_drop_take, <- Hj|].
    intros Hss He. cbn in Hss. by rewrite (Hsingle Hss He).
  - rewrite El. rewrite Hgot at 1. apply str_take_drop.
  - rewrite El, str_drop_length. apply (f_equal String.length) in Hgot. rewrite str_take_length in Hgot. lia.
  - eexists. done.
Qed.
(** The client is reliable from here on. *)
Definition steady (r : chunkedBlobReader) : Prop :=
  (0 < sent r)%nat /\ forall b, cur r = Some b -> b.2 = true.

Lemma next_steady r : reliable client -> (0 < sent r)%nat -> exists r', nextChunk client chunk r = (r', Ok tt) /\ steady r'.
Proof using.
  intros (Hu & _ & H3 & Hok) Hr. unfold nextChunk, blobFetchChunkAttempts.
  assert (forall n e r1 j resp, (0 < sent r1)%nat -> (j < n)%nat ->
    Do client (sent r1 + j) (mkRangeRequest (target r1) (signTarget r1) (offset r1) (offset r1 + chunk - 1)) = Some resp ->
    StatusCode resp = 206 -> exists r', chunk_attempts client chunk n e r1 = (r', Ok tt) /\ steady r') as H.
  { induction n as [|n IH]; intros e r1 j resp Hs Hj Hd H206; [lia|]. cbn [chunk_attempts].
    unfold rangeRequest. rewrite Hu. unfold send.
    destruct j as [|j].
    - rewrite Nat.add_0_r in Hd. rewrite Hd, H206. cbn [Z.eqb]. eexists; split; [done|]. split; [cbn; lia|].
      intros b [= <-]. by destruct (Hok _ _ _ Hd).
    - replace (sent r1 + S j)%nat with (sent (count_request r1) + j)%nat in Hd by (cbn; lia).
      destruct (Do client (sent r1) _) as [resp1|] eqn:E1; [|eapply IH; [cbn; lia| |exact Hd|done]; lia].
      destruct (Hok _ _ _ E1) as (Hb & N3 & N1). destruct (StatusCode resp1 =? 206) eqn:E206.
      { eexists; split; [done|]. split; [cbn; lia|]. by intros b [= <-]. }
      apply Z.eqb_neq in N3, N1. rewrite N3, N1. cbn [orb]. rewrite andb_false_r.
      eapply IH; [cbn; lia| |exact Hd|done]. lia. }
  destruct (H3 (sent r) (mkRangeRequest (target r) (signTarget r) (offset r) (offset r + chunk - 1)) Hr) as (j & resp & Hj & Hd & Hs).
  by eapply H.
Qed.

(** A round of Read at the end of a body. *)
Lemma read_ended fuel k r :
  cur r = Some ("", true) ->
  Read client chunk (S fuel) k r =
    if singleStream r || (total r <=? offset r) then (set_cur None r, Ok ReadEOF)
    else match nextChunk client chunk (set_cur None r) with
         | (r, Err e) => (r, Err e)
         | (r, Ok _) => Read client chunk fuel k r
         end.
Proof using. intros Ec. cbn [Read]. by rewrite Ec. Qed.

(** Two rounds of Read suffice, and what it returns is the next piece of the blob. *)
Lemma read_two k r :
  aligned r -> cur r <> None ->
  match Read client chunk 2 k r with
  | (r', Ok (ReadBytes got)) => aligned r' /\ cur r' <> None /\ got +:+ left_of r' = left_of r /\
      (String.length (left_of r') < String.length (left_of r))%nat /\ (reliable client -> steady r -> steady r')
  | (_, Ok ReadEOF) => left_of r = ""
  | (_, Ok ReadFuel) => False
  | (_, Err _) => ~ (reliable client /\ steady r)
  end.
Proof using Hserves Hchunk.
  intros Ha Hc. destruct (cur r) as [[s ended]|] eqn:Ec; [|done].
  destruct (decide (s = "")) as [->|Hs].
  2: { destruct (read_some k r s ended Ha Ec Hs) as (r' & got & HR & Ha' & Hg & Hl & s' & Ec' & Es'). rewrite HR.
       split_and!; [done|by rewrite Ec'|done|done|]. intros _ [Hs1 Hs2]. split; [lia|]. rewrite Ec'.
       intros b [= <-]. by apply (Hs2 (s, ended)). }
  destruct ended; [|cbn [Read]; rewrite Ec; intros [_ [_ Hb]]; by specialize (Hb _ Ec)].
  rewrite read_ended by done. pose proof Ha as (H0 & Ht & Hb).
  destruct (singleStream r) eqn:Es.
  { cbn [orb]. destruct (Hb _ Ec) as (j & _ & Hl). symmetry. by apply Hl. }
  cbn [orb]. rewrite (Ht eq_refl). destruct (Z.leb_spec (Z.of_nat (String.length data)) (offset r)).
  { apply empty_length. unfold left_of. rewrite str_drop_length. lia. }
  assert (aligned (set_cur None r)) as Ha0 by (split; [done|split; [intros _; by apply Ht|done]]).
  assert (left_of (set_cur None r) = left_of r) as El by done.
  destruct (nextChunk client chunk (set_cur None r)) as [r' [[]|e]] eqn:En.
  2: { intros [Hr [Hs1 _]]. destruct (next_steady (set_cur None r) Hr Hs1) as (r1 & H1 & _). congruence. }
  destruct (next_aligned _ _ Ha0 Es En) as (Ha' & (P1 & _) & [s ended] & Ec' & Hcar).
  assert (left_of r' = left_of r) as El' by (unfold left_of; by rewrite P1).
  assert (reliable client -> steady r -> steady r') as Hst.
  { intros Hr [Hs1 _]. destruct (next_steady (set_cur None r) Hr Hs1) as (r1 & H1 & H2). congruence. }
  destruct (decide (s = "")) as [->|Hs].
  - cbn [Read]. rewrite Ec'. destruct ended.
    + destruct Hcar as (j & _ & Hf). specialize (Hf eq_refl). cbn in Hf. symmetry in Hf. apply take_empty in Hf as [Hf|Hf]; [lia|].
      rewrite El in Hf. apply (f_equal String.length) in Hf. unfold left_of in Hf. rewrite str_drop_length in Hf. cbn in Hf. lia.
    + intros [Hr Hr']. destruct (Hst Hr Hr') as [_ Hb']. by specialize (Hb' _ Ec').
  - destruct (read_some k r' s ended Ha' Ec' Hs) as (r2 & got & HR & Ha2 & Hg & Hl & s' & Ec2 & Es2).
    rewrite HR, <- El'. split_and!; [done|by rewrite Ec2|done|done|].
    intros Hr Hr'. destruct (Hst Hr Hr') as [Hs1 Hs2]. split; [lia|]. rewrite Ec2. intros b [= <-]. by apply (Hs2 (s, ended)).
Qed.

Lemma append_assoc s t u : (s +:+ t) +:+ u = s +:+ (t +:+ u).
Proof using. induction s as [|c s IH]; [done|]. rewrite !fetched_cons. by rewrite IH. Qed.

Lemma copy_is_rest fuel ks r :
  aligned r -> cur r <> None -> (String.length (left_of r) < fuel)%nat ->
  let '(bytes, e) := copy_reader client chunk fuel 2 ks r in
  (exists rest, left_of r = bytes +:+ rest /\ (e = Some (Ok tt) -> rest = "")) /\ e <> None /\
  (reliable client -> steady r -> e = Some (Ok tt)).
Proof using Hserves Hchunk.
  revert ks r. induction fuel as [|fuel IH]; intros ks r Ha Hc Hf; [lia|]. cbn [copy_reader].
  pose proof (read_two (ks 0%nat) r Ha Hc) as H.
  destruct (Read client chunk 2 (ks 0%nat) r) as [r' [[got| |]|e]]; [| |done|].
  - destruct H as (Ha' & Hc' & Hg & Hl & Hst). specialize (IH (fun i => ks (S i)) r' Ha' Hc' ltac:(lia)).
    destruct (copy_reader client chunk fuel 2 _ r') as [rest e]. destruct IH as ((t & Ht & Ht') & He & Hr).
    split_and!; [|done|auto]. exists t. split; [|done]. by rewrite <- Hg, Ht, append_assoc.
  - split_and!; [by exists ""; rewrite H|done|done].
  - split_and!; [by exists (left_of r)|done|]. intros. by destruct H.
Qed.
End FetchProps.

(** C26 -- A blob read in ranges is the blob, from servers that serve it truthfully
    ([serves_blob]): every 206 states the length of the blob and its body is a prefix of
    the range that was asked for, every body of a 200 is a prefix of the blob, and a body
    that ends without an error is the whole of it.  Once the blob could be opened, with a
    positive chunk size and more fuel than bytes, copying the reader ends, whatever the
    sizes of its reads, requests that fail, redirects and bodies that break off.  It ends
    without an error only with all the bytes of the blob, and with an error after a
    prefix of them.  If moreover every request for the first chunk is answered, no three
    later requests in a row fail, none is refused and no body breaks off, it ends with the
    blob.  A server whose empty bodies end cleanly keeps the reader asking for ever
    ([empty_chunks_never_end]). *)
Theorem chunked_read_is_the_blob (client : http_client) (chunk : Z) (data url : string) (ks : nat -> nat) (fuel : nat) :
  serves_blob client data -> 0 < chunk -> (String.length data < fuel)%nat ->
  match fetch_blob client chunk fuel 2 ks url with
  | None => True
  | Some (bytes, Some (Ok _)) => bytes = data
  | Some (bytes, Some (Err _)) => exists rest, data = bytes +:+ rest
  | Some (_, None) => False
  end /\
  (reliable client -> fetch_blob client chunk fuel 2 ks url = Some (data, Some (Ok tt))).
Proof.
  intros Hserves Hchunk Hf. unfold fetch_blob, openBlobFromHost.
  assert (match start client chunk (mkReader url "" false 0 0 None false 0) with
          | (r, Ok _) => aligned data r /\ cur r <> None /\ left_of data r = data /\ (reliable client -> steady r)
          | (_, Err _) => ~ reliable client
          end) as Hs.
  { unfold start, rangeRequest, send. cbn [origin sent]. destruct (bad_url client url) eqn:Eu; [intros [Hu _]; congruence|].
    destruct (Do client 0 _) as [resp|] eqn:Ed.
    2: { intros (_ & Hd & _). destruct (Hd (mkRangeRequest url true 0 (0 + chunk - 1))) as (x & Hx & _). congruence. }
    destruct (Hserves _ _ _ Ed) as [H206 H200]. cbn [rq_first rq_last] in H206.
    destruct (StatusCode resp =? 206) eqn:E206; [|destruct (StatusCode resp =? 200) eqn:E200].
    - apply Z.eqb_eq in E206. destruct (H206 E206) as [Hp Hc]. rewrite Hp.
      split_and!; [|done|done|intros (_ & _ & _ & Hb); split; [cbn; lia|]; intros b [= <-]; by destruct (Hb _ _ _ Ed)].
      split; [done|]. split; [done|]. intros b [= <-]. rewrite byte_range_chunk in Hc by done.
      destruct Hc as (k & Hk & _). exists (Nat.min k (Z.to_nat chunk)). split; [|done]. rewrite Hk. cbn.
      destruct (Nat.le_ge_cases k (Z.to_nat chunk)); [by rewrite Nat.min_l, str_take_take|].
      rewrite Nat.min_r by done. apply str_take_ge. rewrite str_take_length. lia.
    - apply Z.eqb_eq in E200. destruct (H200 E200) as (k & Hk & Hw).
      split_and!; [|done|done|intros (_ & _ & _ & Hb); split; [cbn; lia|]; intros b [= <-]; by destruct (Hb _ _ _ Ed)].
      split; [done|]. split; [done|]. intros b [= <-]. exists k. done.
    - intros (_ & Hd & _). destruct (Hd (mkRangeRequest url true 0 (0 + chunk - 1))) as (x & Hx & Hy).
      apply Z.eqb_neq in E206, E200. rewrite Ed in Hx. injection Hx as <-. tauto. }
  destruct (start client chunk _) as [r [[]|e]]; [|split; [done|intros Hr; by destruct Hs]].
  destruct Hs as (Ha & Hc & Hl & Hr). pose proof (copy_is_rest client chunk data Hserves Hchunk fuel ks r Ha Hc) as H.
  rewrite Hl in H. specialize (H Hf). destruct (copy_reader client chunk fuel 2 ks r) as [bytes e].
  destruct H as ((rest & Hrest & Hfull) & He & Hok). split.
  - destruct e as [[[]|e]|]; [|by exists rest|done]. rewrite Hrest, (Hfull eq_refl). symmetry. apply append_empty_r.
  - intros H. rewrite (Hok H (Hr H)) in *. rewrite Hrest, (Hfull eq_refl), append_empty_r. done.
Qed.

(** A peer that serves eight bytes and does not answer the second request. *)
Definition flaky_client : http_client :=
  mkHttpClient (fun i req => if (i =? 1)%nat then None
                             else Some (mkHttpResponse 206 "bytes 0-2/8" "https://bucket" (byte_range "abcdefgh" (rq_first req) (rq_last req), true)))
    (fun _ => false).

Lemma flaky_serves : serves_blob flaky_client "abcdefgh".
Proof.
  intros i req resp H. cbn in H. destruct (i =? 1)%nat; [done|]. injection H as <-. cbn [StatusCode Content_Range Body].
  split; [|done]. intros _. split; [reflexivity|].
  exists (String.length (byte_range "abcdefgh" (rq_first req) (rq_last req))). cbn [fst snd]. by rewrite str_take_ge.
Qed.

Lemma flaky_reliable : reliable flaky_client.
Proof.
  split_and!; [done| | |].
  - intros req. eexists. split; [reflexivity|]. by left.
  - intros i req Hi. destruct i as [|[|i]]; [lia| |].
    + exists 1%nat. eexists. split; [lia|]. by split; [reflexivity|].
    + exists 0%nat. eexists. split; [lia|]. by split; [reflexivity|].
  - intros i req resp H. cbn in H. destruct (i =? 1)%nat; [done|]. injection H as <-. done.
Qed.

Lemma chunked_read_is_the_blob_witness :
  serves_blob flaky_client "abcdefgh" /\ reliable flaky_client /\
  fetch_blob flaky_client 3 9 2 (fun _ => 1%nat) "https://peer" = Some ("abcdefgh", Some (Ok tt)).
Proof.
  split; [apply flaky_serves|]. split; [apply flaky_reliable|].
  apply (chunked_read_is_the_blob flaky_client 3 "abcdefgh" "https://peer" (fun _ => 1%nat) 9);
    [apply flaky_serves|lia|cbn; lia|apply flaky_reliable].
Defined.

(** A peer that answers every chunk after the first with an empty body keeps a reader
    asking for as long as it is read. *)
Definition stalling_client : http_client :=
  mkHttpClient (fun i _ => Some (mkHttpResponse 206 "bytes 0-2/8" "https://bucket" (if (i =? 0)%nat then "abc" else "", true)))
    (fun _ => false).

Lemma empty_chunks_never_end fuel k :
  match openBlobFromHost stalling_client 3 "https://peer" with
  | (r, Ok _) => (Read stalling_client 3 fuel k (add_offset 3 (set_cur (Some ("", true)) r))).2 = Ok ReadFuel
  | (_, Err _) => False
  end.
Proof.
  cbn -[Read].
  assert (forall n, (Read stalling_client 3 fuel k (mkReader "https://peer" "https://bucket" false 8 3 (Some ("", true)) false (S n))).2 = Ok ReadFuel) as H.
  { induction fuel as [|fuel IH]; intros n; [done|]. rewrite read_ended by done. apply (IH (S n)). }
  apply H.
Qed.
