(* ===== verification/MediaPull.v ===== *)
(** * Inbound replication

    Models the side of replication that receives a blob: the pull endpoint and the push
    endpoint (server/serve_blob.go), the queue of transfers and its workers
    (blob_pull_async.go), the validated pull (replicate.go), room for staging
    (local_disk.go), and the intake of nodes that store everything
    (store_all_intake.go).  Handing a pulled blob to the waveform workers is left out. *)

From stdpp Require Import base gmap strings list fin_maps fin_sets.
From Stdlib Require Import ZArith Lia Ascii.
From S2P Require Import Prelude Crypto Rendezvous Snapshots MediaStore MediaPresence MediaRepair MediaProps.

Open Scope string_scope.
Open Scope Z_scope.

(** ** Rows of uploads *)

(** The part of an uploads row replication reads besides that of [Upload]. *)
Record mirrored_upload := mkMirrored {
  mu_upload : Upload;
  Mirrors : list string;
  TranscodedMirrors : list string;
  mu_Status : string;
  CreatedBy : string;
  TranscodedBy : string
}.

(** [upload.TranscodeResults["320"]]: the empty string when there is none. *)
Definition result_320 (u : mirrored_upload) : string := default "" (TranscodeResults (mu_upload u) !! "320").

(** ** Admission *)

(** The part of the configuration read here only. *)
Record pull_config := mkPullConfig {
  AsyncPullWorkers : Z;
  PeerHosts : list string;
  PullStagingDir : string;
  TempDir : string
}.

Definition pullStagingDir (pc : pull_config) : string :=
  if String.eqb (PullStagingDir pc) "" then TempDir pc else PullStagingDir pc.

Definition DefaultAsyncPullWorkers : Z := 6.
Definition maxAsyncPullWorkers : Z := 64.
Definition asyncPullQueueDepth : nat := 32.
Definition localDiskReserveBytes : Z := 2 ^ 30.

Definition asyncPullWorkers (pc : pull_config) : Z :=
  if AsyncPullWorkers pc <=? 0 then DefaultAsyncPullWorkers else Z.min (AsyncPullWorkers pc) maxAsyncPullWorkers.

Inductive asyncPullAdmission := asyncPullQueued | asyncPullRunning.

Definition admission_status (a : asyncPullAdmission) : string :=
  match a with asyncPullRunning => "in_progress" | asyncPullQueued => "accepted" end.

Record asyncPullJob := mkPullJob {
  sourceHost : string;
  job_cid : string;
  job_placement : list string;
  job_uploadID : string;
  job_transcoded : bool
}.

(** A node as the receiver of transfers: its blobs, the channel, the set of CIDs in
    flight, and the jobs its workers have taken. *)
Record puller := mkPuller {
  pu_media : media;
  asyncPullQueue : list asyncPullJob;
  asyncPullInFlight : gset string;
  running : list asyncPullJob
}.
Definition set_pu_media (m : media) (p : puller) : puller := mkPuller m (asyncPullQueue p) (asyncPullInFlight p) (running p).

Definition enqueueAsyncPull (job : asyncPullJob) (p : puller) : puller * res media_error asyncPullAdmission :=
  if bool_decide (job_cid job ∈ asyncPullInFlight p) then (p, Ok asyncPullRunning)
  else if (length (asyncPullQueue p) <? asyncPullQueueDepth)%nat then
    (mkPuller (pu_media p) (app (asyncPullQueue p) [job]) ({[job_cid job]} ∪ asyncPullInFlight p) (running p), Ok asyncPullQueued)
  else (p, Err (MErr "pull queue is full")).

Definition releaseAsyncPull (cid : string) (p : puller) : puller :=
  mkPuller (pu_media p) (asyncPullQueue p) (asyncPullInFlight p ∖ {[cid]}) (running p).

(** A worker receives the next job from the channel. *)
Definition asyncPullWorker (pc : pull_config) (p : puller) : option (asyncPullJob * puller) :=
  match asyncPullQueue p with
  | [] => None
  | job :: queue =>
      if Z.of_nat (length (running p)) <? asyncPullWorkers pc
      then Some (job, mkPuller (pu_media p) queue (asyncPullInFlight p) (job :: running p)) else None
  end.

(** The worker that held [job] goes back to the channel. *)
Fixpoint remove_job (cid : string) (jobs : list asyncPullJob) : list asyncPullJob :=
  match jobs with
  | [] => []
  | j :: jobs' => if String.eqb (job_cid j) cid then jobs' else j :: remove_job cid jobs'
  end.
Definition worker_done (job : asyncPullJob) (p : puller) : puller :=
  mkPuller (pu_media p) (asyncPullQueue p) (asyncPullInFlight p) (remove_job (job_cid job) (running p)).

(** [uint64] arithmetic: the subtraction is made only when it does not underflow. *)
Definition localDirHasSpaceFor (ss : MediorumServer) (w : world) (dir : string) (needBytes : Z) : bool :=
  if negb (String.eqb (Env (Config ss)) "prod") then true
  else match statfs w dir with
       | None => true
       | Some free => negb ((free <? needBytes) || (uwrap64 (free - needBytes) <=? localDiskReserveBytes))
       end.

Definition validatePlacementHosts (ss : MediorumServer) (pc : pull_config) (placementHosts : list string) : res media_error unit :=
  if bool_decide (placementHosts = []) then Ok tt
  else if bool_decide (Self_Host (Config ss) ∉ placementHosts) then Err (MErr "must upload to placement hosts")
  else if forallb (fun host => bool_decide (host ∈ PeerHosts pc)) placementHosts then Ok tt
  else Err (MErr "all placement hosts must be registered signers").

Record internalBlobPullRequest := mkPullRequest {
  pq_CID : string;
  pq_PlacementHosts : list string;
  pq_UploadID : string;
  pq_Transcoded : bool;
  pq_Size : Z;
  Async : bool
}.

Section Pull.
Context (sha256 : string -> string).
Context (url_parse : string -> option (string * string)).
(** cidutil.ComputeFileCID on bytes that can be read. *)
Context (compute_cid : string -> string).
Context (ss : MediorumServer) (pc : pull_config).

(** ** Transfers *)

(** The blob is staged on local disk, checked against its CID and then stored. *)
Definition pullFileFromHostValidated (w : world) (host cid : string) (placementHosts : list string) : proc media media_error unit :=
  if String.eqb host (Self_Host (Config ss)) then pfail (MErr "should not pull blob from self")
  else match fetch w host cid with
       | None => pfail (MErr "fetch")
       | Some (bytes, complete) =>
           if io_fault w (IoStaging cid) || negb complete then pfail (MErr "staging")
           else if negb (String.eqb (compute_cid bytes) cid) then pfail (MErr "pulled blob CID mismatch")
           else replicateToMyBucket sha256 url_parse ss w cid (bytes, true) placementHosts
       end.

(** A panic ends the process. *)
Definition runAsyncPull (w : world) (job : asyncPullJob) (p : puller) : puller * res media_error unit :=
  match haveInMyBucket ss w (job_cid job) (pu_media p) with
  | Err e => (p, Err e)
  | Ok true => (releaseAsyncPull (job_cid job) p, Ok tt)
  | Ok false =>
      let (m, r) := pullFileFromHostValidated w (sourceHost job) (job_cid job) (job_placement job) (pu_media p) in
      match r with
      | Err MPanic => (set_pu_media m p, Err MPanic)
      | _ => (releaseAsyncPull (job_cid job) (set_pu_media m p), Ok tt)
      end
  end.

(** ** Endpoints *)

(** The status and the word of the answer; a panic of a handler is answered with 500.
    [source] is the peer that signed the request. *)
Definition serveInternalBlobPull (w : world) (source : string) (request : internalBlobPullRequest) (p : puller) : puller * (Z * string) :=
  if String.eqb (pq_CID request) "" then (p, (400, "cid is required"))
  else match validatePlacementHosts ss pc (pq_PlacementHosts request) with
  | Err _ => (p, (400, "placement hosts"))
  | Ok _ =>
      if String.eqb source "" then (p, (401, "authenticated peer host unavailable"))
      else if String.eqb source (Self_Host (Config ss)) then (p, (400, "cannot pull blob from self"))
      else match haveInMyBucket ss w (pq_CID request) (pu_media p) with
      | Err _ => (p, (500, "panic"))
      | Ok true => (p, (200, "already_present"))
      | Ok false =>
          if negb (diskHasSpaceForCID sha256 ss w (pq_CID request) (pq_PlacementHosts request)) then (p, (507, "disk is too full"))
          else if negb (localDirHasSpaceFor ss w (pullStagingDir pc) (Z.max 0 (pq_Size request))) then (p, (507, "not enough local disk"))
          else if Async request then
            match enqueueAsyncPull (mkPullJob source (pq_CID request) (pq_PlacementHosts request) (pq_UploadID request) (pq_Transcoded request)) p with
            | (p, Err _) => (p, (503, "pull queue is full"))
            | (p, Ok admission) => (p, (202, admission_status admission))
            end
          else
            match pullFileFromHostValidated w source (pq_CID request) (pq_PlacementHosts request) (pu_media p) with
            | (m, Ok _) => (set_pu_media m p, (200, "pulled"))
            | (m, Err MPanic) => (set_pu_media m p, (500, "panic"))
            | (m, Err (MErr e)) =>
                (set_pu_media m p, if String.eqb e "pulled blob CID mismatch" then (422, e) else (502, e))
            | (m, Err _) => (set_pu_media m p, (502, "error"))
            end
      end
  end.

(** A push of one file; [body] is its part of the form, complete or broken off. *)
Definition serveInternalBlobPOST (w : world) (cid : string) (placementHosts : list string) (body : string * bool) (p : puller) : puller * Z :=
  let placementHosts := match validatePlacementHosts ss pc placementHosts with Ok _ => placementHosts | Err _ => [] end in
  if negb body.2 then (p, 500)
  else if negb (diskHasSpaceForCID sha256 ss w cid placementHosts) then (p, 507)
  else if negb (String.eqb (compute_cid body.1) cid) then (p, 400)
  else match replicateToMyBucket sha256 url_parse ss w cid body placementHosts (pu_media p) with
       | (m, Ok _) => (set_pu_media m p, 200)
       | (m, Err _) => (set_pu_media m p, 500)
       end.

(** ** Intake of nodes that store everything *)

Definition storeAllIntakeUnmirrored (mirrors : list string) (producer : string) : bool :=
  match mirrors with
  | [] => true
  | [m] => String.eqb m producer
  | _ => false
  end.

Definition add_cid (cids : list string) (cid : string) : list string :=
  if negb (String.eqb cid "") && negb (bool_decide (cid ∈ cids)) then app cids [cid] else cids.

(** Ranging over the results in the order of the map. *)
Definition storeAllIntakeCIDs (u : mirrored_upload) : list string :=
  let orig := OrigFileCID (mu_upload u) in
  let cids := if String.eqb (TranscodedBy u) "" && storeAllIntakeUnmirrored (Mirrors u) (CreatedBy u) then add_cid [] orig else [] in
  if storeAllIntakeUnmirrored (TranscodedMirrors u) (TranscodedBy u) then
    foldl (fun cids cid => if String.eqb cid orig then cids else add_cid cids cid) cids
      (map_to_list (TranscodeResults (mu_upload u))).*2
  else cids.

(** The first host that is another node, the empty string when there is none. *)
Definition storeAllIntakeSource (u : mirrored_upload) (transcoded : bool) : string :=
  let candidates :=
    if transcoded then app (TranscodedMirrors u) (TranscodedBy u :: Mirrors u)
    else app (Mirrors u) (CreatedBy u :: TranscodedMirrors u) in
  default "" (head (List.filter (fun host => negb (String.eqb host "") && negb (String.eqb host (Self_Host (Config ss)))) candidates)).

Definition enqueueStoreAllIntake (u : mirrored_upload) (cid : string) (transcoded : bool) (p : puller) : puller :=
  let sourceHost := storeAllIntakeSource u transcoded in
  if String.eqb sourceHost "" then p
  else (enqueueAsyncPull (mkPullJob sourceHost cid (PlacementHosts (mu_upload u)) (ID (mu_upload u)) transcoded) p).1.

(** The records of an operation on uploads that is not a deletion. *)
Definition storeAllIntakeFromOp (uploads : list mirrored_upload) (p : puller) : puller :=
  if negb (StoreAll (Config ss)) then p
  else foldl (fun p u => foldl (fun p cid => enqueueStoreAllIntake u cid (String.eqb cid (result_320 u)) p) p (storeAllIntakeCIDs u)) p uploads.

(** ** Runs of a node *)

(** What happens to the receiving side of a node: requests, operations of the chain, a
    worker that takes a job or is done with it, and whatever else stores or deletes
    blobs. *)
Inductive pull_event :=
| EvPull (w : world) (source : string) (request : internalBlobPullRequest)
| EvPush (w : world) (cid : string) (placementHosts : list string) (body : string * bool)
| EvIntake (uploads : list mirrored_upload)
| EvTake
| EvDone (w : world) (job : asyncPullJob)
| EvBlobs (m : media).

Inductive pull_step : puller -> pull_event -> puller -> Prop :=
| step_pull p w source request :
    pull_step p (EvPull w source request) (serveInternalBlobPull w source request p).1
| step_push p w cid placement body :
    pull_step p (EvPush w cid placement body) (serveInternalBlobPOST w cid placement body p).1
| step_intake p uploads : pull_step p (EvIntake uploads) (storeAllIntakeFromOp uploads p)
| step_take p job p' : asyncPullWorker pc p = Some (job, p') -> pull_step p EvTake p'
| step_done p w job p' :
    job ∈ running p -> runAsyncPull w job p = (p', Ok tt) -> pull_step p (EvDone w job) (worker_done job p')
| step_blobs p m : pull_step p (EvBlobs m) (set_pu_media m p).

Inductive pull_run : puller -> list pull_event -> puller -> Prop :=
| run_nil p : pull_run p [] p
| run_cons p e p' es p'' : pull_step p e p' -> pull_run p' es p'' -> pull_run p (e :: es) p''.

(** A node that has just started. *)
Definition fresh (m : media) : puller := mkPuller m [] ∅ [].
End Pull.

(** ** Properties of inbound replication

    Every blob has at most one transfer queued or running, the answers of the pull
    endpoint say what the node is doing about a blob, and a blob that was accepted twice
    was given up in between. *)

Section PullProps.
Context (sha256 : string -> string).
Context (url_parse : string -> option (string * string)).
Context (compute_cid : string -> string).
Context (ss : MediorumServer) (pc : pull_config).

Notation step := (pull_step sha256 url_parse compute_cid ss pc).
Notation run := (pull_run sha256 url_parse compute_cid ss pc).
Notation serve := (serveInternalBlobPull sha256 url_parse compute_cid ss pc).

(** The transfers a node has taken on. *)
Definition transfers (p : puller) : list asyncPullJob := app (asyncPullQueue p) (running p).

Record pull_inv (p : puller) : Prop := {
  inv_flight : asyncPullInFlight p = list_to_set (job_cid <$> transfers p);
  inv_nodup : NoDup (job_cid <$> transfers p);
  inv_queue : (length (asyncPullQueue p) <= asyncPullQueueDepth)%nat;
  inv_running : Z.of_nat (length (running p)) <= asyncPullWorkers pc
}.

Lemma inv_in_flight p cid : pull_inv p -> cid ∈ asyncPullInFlight p <-> exists job, job ∈ transfers p /\ job_cid job = cid.
Proof using.
  intros Hi. rewrite (inv_flight p Hi), elem_of_list_to_set, list_elem_of_fmap.
  split; intros (j & H1 & H2); by exists j.
Qed.

(** Operations that leave the transfers alone. *)
Lemma inv_media m p : pull_inv p -> pull_inv (set_pu_media m p).
Proof using. by intros []. Qed.

Lemma enqueue_inv job p : pull_inv p -> pull_inv (enqueueAsyncPull job p).1.
Proof using.
  intros Hi. unfold enqueueAsyncPull. case_bool_decide as Hf; [done|]. destruct (Nat.ltb_spec (length (asyncPullQueue p)) asyncPullQueueDepth); [|done].
  rewrite inv_in_flight in Hf by done.
  assert (job_cid <$> app (app (asyncPullQueue p) [job]) (running p) ≡ₚ job_cid job :: (job_cid <$> transfers p)) as HP.
  { unfold transfers. rewrite !fmap_app. cbn. rewrite <- app_assoc. cbn. by rewrite <- Permutation_middle. }
  destruct Hi as [H1 H2 H3 H4]. split; unfold transfers; cbn [fst asyncPullQueue asyncPullInFlight running].
  - apply set_eq. intros c. rewrite elem_of_list_to_set, HP, elem_of_union, elem_of_singleton, elem_of_cons, H1, elem_of_list_to_set. done.
  - rewrite HP. constructor; [|done]. rewrite list_elem_of_fmap. intros (j & Ej & Hj). apply Hf. by exists j.
  - rewrite length_app. cbn. lia.
  - done.
Qed.

(** A step changes the transfers only by adding one or removing one that is done. *)
Lemma serve_cases w source req p :
  (exists m, (serve w source req p).1 = set_pu_media m p) \/
  (exists job, (serve w source req p).1 = (enqueueAsyncPull job p).1).
Proof using.
  unfold serveInternalBlobPull. assert (set_pu_media (pu_media p) p = p) as E by by destruct p.
  repeat (case_match; cbn [fst]; try (left; exists (pu_media p); by rewrite E)); try (left; by eexists);
    right; eexists; match goal with H : enqueueAsyncPull _ _ = _ |- _ => by rewrite H end.
Qed.

Lemma push_cases w cid placement body p :
  exists m, (serveInternalBlobPOST sha256 url_parse compute_cid ss pc w cid placement body p).1 = set_pu_media m p.
Proof using.
  unfold serveInternalBlobPOST. assert (set_pu_media (pu_media p) p = p) as E by by destruct p.
  destruct (negb body.2); [by exists (pu_media p); rewrite E|].
  destruct (negb (diskHasSpaceForCID _ _ _ _ _)); [by exists (pu_media p); rewrite E|].
  destruct (negb (String.eqb _ _)); [by exists (pu_media p); rewrite E|].
  destruct (replicateToMyBucket _ _ _ _ _ _ _ _) as [m []]; by exists m.
Qed.

(** A property of pullers that enqueueing keeps is kept by the intake. *)
Lemma intake_ind (P : puller -> Prop) uploads p :
  (forall job q, P q -> P (enqueueAsyncPull job q).1) -> P p -> P (storeAllIntakeFromOp ss uploads p).
Proof using.
  intros He Hp. unfold storeAllIntakeFromOp. destruct (negb _); [done|].
  revert p Hp. induction uploads as [|u us IH]; intros p Hp; cbn; [done|]. apply IH.
  generalize (storeAllIntakeCIDs u). intros cids. revert p Hp. induction cids as [|c cids IHc]; intros p Hp; cbn; [done|].
  apply IHc. unfold enqueueStoreAllIntake. destruct (String.eqb _ ""); [done|]. by apply He.
Qed.

(** What a finished transfer leaves. *)
Lemma run_done w job p p' :
  runAsyncPull sha256 url_parse compute_cid ss w job p = (p', Ok tt) ->
  asyncPullQueue p' = asyncPullQueue p /\ running p' = running p /\ asyncPullInFlight p' = asyncPullInFlight p ∖ {[job_cid job]}.
Proof using.
  unfold runAsyncPull. intros H. repeat case_match; simplify_eq; done.
Qed.

Lemma remove_job_perm job jobs :
  NoDup (job_cid <$> jobs) -> job ∈ jobs -> jobs ≡ₚ job :: remove_job (job_cid job) jobs.
Proof using.
  induction jobs as [|j jobs IH]; intros Hn Hj; [by apply not_elem_of_nil in Hj|]. cbn in *. apply NoDup_cons in Hn as [Hn1 Hn].
  apply elem_of_cons in Hj as [->|Hj]; [by rewrite String.eqb_refl|].
  destruct (String.eqb_spec (job_cid j) (job_cid job)) as [E|E].
  - destruct Hn1. rewrite E. apply list_elem_of_fmap. by exists job.
  - rewrite Permutation_swap, <- IH by done. done.
Qed.

Lemma done_transfers job p p' w :
  pull_inv p -> job ∈ running p -> runAsyncPull sha256 url_parse compute_cid ss w job p = (p', Ok tt) ->
  transfers p ≡ₚ job :: transfers (worker_done job p').
Proof using.
  intros Hi Hj Hr. apply run_done in Hr as (E1 & E2 & E3). unfold transfers. cbn. rewrite E1, E2.
  rewrite (remove_job_perm job (running p)) at 1; [by rewrite Permutation_middle| |done].
  pose proof (inv_nodup p Hi) as Hn. unfold transfers in Hn. rewrite fmap_app in Hn. by apply NoDup_app in Hn as (_ & _ & Hn).
Qed.

Lemma step_inv p e p' : pull_inv p -> step p e p' -> pull_inv p'.
Proof using.
  intros Hi. destruct 1 as [p w source req|p w cid placement body|p us|p job p' Ht|p w job p' Hj Hr|p m].
  - destruct (serve_cases w source req p) as [[m ->]|[job ->]]; [by apply inv_media|by apply enqueue_inv].
  - destruct (push_cases w cid placement body p) as [m ->]. by apply inv_media.
  - apply intake_ind; [apply enqueue_inv|done].
  - unfold asyncPullWorker in Ht. destruct (asyncPullQueue p) as [|j q] eqn:Eq; [done|].
    destruct (Z.ltb_spec (Z.of_nat (length (running p))) (asyncPullWorkers pc)); [|done]. simplify_eq.
    destruct Hi as [H1 H2 H3 H4]. unfold transfers in *. rewrite Eq in *.
    assert (app q (job :: running p) ≡ₚ app (job :: q) (running p)) as HP by (symmetry; apply (Permutation_middle q)).
    split; unfold transfers; cbn [asyncPullQueue asyncPullInFlight running].
    + rewrite H1. apply set_eq. intros c. rewrite !elem_of_list_to_set. by rewrite HP.
    + by rewrite HP.
    + cbn in H3. lia.
    + cbn. lia.
  - pose proof (done_transfers job p p' w Hi Hj Hr) as HP. apply run_done in Hr as (E1 & E2 & E3).
    destruct Hi as [H1 H2 H3 H4]. rewrite HP in H2. cbn in H2. apply NoDup_cons in H2 as [Hn H2]. split; [|done|by cbn; rewrite E1|].
    + cbn [worker_done asyncPullInFlight]. rewrite E3, H1. apply set_eq. intros c.
      rewrite elem_of_difference, elem_of_singleton, !elem_of_list_to_set, HP. cbn. rewrite elem_of_cons.
      split; [by intros [[|] ?]|]. intros Hc. split; [by right|]. by intros ->.
    + cbn. rewrite E2. assert (length (remove_job (job_cid job) (running p)) <= length (running p))%nat; [|lia].
      clear. induction (running p) as [|j l IH]; cbn; [done|]. destruct (String.eqb _ _); cbn; lia.
  - by apply inv_media.
Qed.

Lemma run_inv p es p' : pull_inv p -> run p es p' -> pull_inv p'.
Proof using. intros Hi Hr. induction Hr; [done|]. apply IHHr. by eapply step_inv. Qed.

Lemma workers_bound : 1 <= asyncPullWorkers pc <= maxAsyncPullWorkers.
Proof using. unfold asyncPullWorkers, DefaultAsyncPullWorkers, maxAsyncPullWorkers. destruct (Z.leb_spec (AsyncPullWorkers pc) 0); lia. Qed.

Lemma fresh_inv m : pull_inv (fresh m).
Proof using. pose proof workers_bound. split; cbn; [done|constructor|lia|lia]. Qed.

(** A transfer stays until its worker is done with it. *)
Lemma transfer_stays p es p' job :
  pull_inv p -> run p es p' -> job ∈ transfers p -> job ∈ transfers p' \/ exists w, EvDone w job ∈ es.
Proof using.
  intros Hi Hr. revert Hi. induction Hr as [|p e p1 es p' Hs Hr IH]; intros Hi Hj; [by left|].
  assert (job ∈ transfers p1 \/ exists w, e = EvDone w job) as [H1|[w ->]].
  { pose proof Hi as Hi'. destruct Hs as [p w source req|p w cid placement body|p us|p j p1 Ht|p w j p1 Hjr Hrun|p m].
    - left. destruct (serve_cases w source req p) as [[m ->]|[j ->]]; [done|]. unfold enqueueAsyncPull, transfers in *.
      repeat case_match; cbn; try done. rewrite !elem_of_app in *. destruct Hj; auto.
    - left. by destruct (push_cases w cid placement body p) as [m ->].
    - left. apply (intake_ind (fun q => job ∈ transfers q)); [|done]. intros j q Hq. unfold enqueueAsyncPull, transfers in *.
      repeat case_match; cbn; try done. rewrite !elem_of_app in *. destruct Hq; auto.
    - left. unfold asyncPullWorker, transfers in *. destruct (asyncPullQueue p); [done|]. case_match; [|done]. simplify_eq. cbn.
      rewrite !elem_of_app, ?elem_of_cons in *. tauto.
    - rewrite (done_transfers j p p1 w Hi Hjr Hrun), elem_of_cons in Hj. destruct Hj as [->|Hj]; [|by left]. right. by exists w.
    - by left. }
  - destruct (IH (step_inv _ _ _ Hi Hs) H1) as [|[w Hw]]; [by left|]. right. exists w. by right.
  - right. exists w. by left.
Qed.
(** A blob of this CID is in one of the buckets. *)
Definition holds (cid : string) (m : media) : Prop :=
  exists key b, ShardCID cid = Some key /\ (b = Archive -> archiveBucket ss = true) /\ is_Some (blobs m !! (b, key)).

Lemma have_holds w cid m : haveInMyBucket ss w cid m = Ok true -> holds cid m.
Proof using.
  unfold haveInMyBucket, blobExists, Exists. destruct (ShardCID cid) as [key|] eqn:Ek; [|done].
  intros [= H]. apply orb_prop in H as [H|H].
  - apply andb_prop in H as [_ H]. apply bool_decide_eq_true in H. by exists key, Primary.
  - apply andb_prop in H as [Ha H]. apply andb_prop in H as [_ H]. apply bool_decide_eq_true in H. by exists key, Archive.
Qed.

Lemma holds_have w cid key m :
  ShardCID cid = Some key -> (forall b, io_fault w (IoExists b key) = false) -> holds cid m -> haveInMyBucket ss w cid m = Ok true.
Proof using.
  intros Hk Hf (key' & b & Hk' & Ha & Hb). rewrite Hk in Hk'. injection Hk' as <-. unfold haveInMyBucket, blobExists, Exists.
  rewrite Hk, !Hf. cbn [negb andb]. destruct b.
  - by rewrite bool_decide_true.
  - rewrite (Ha eq_refl), (bool_decide_true (is_Some (blobs m !! (Archive, key)))), orb_true_r by done. done.
Qed.

Lemma validated_ok w host cid placement m m' :
  pullFileFromHostValidated sha256 url_parse compute_cid ss w host cid placement m = (m', Ok tt) ->
  exists key b x, ShardCID cid = Some key /\ (b = Archive -> archiveBucket ss = true) /\
    blobs m' !! (b, key) = Some x /\ compute_cid (content x) = cid.
Proof using.
  unfold pullFileFromHostValidated. repeat case_match; try done. intros Hr.
  destruct (ShardCID cid) as [key|] eqn:Ek; [|by unfold replicateToMyBucket in Hr; rewrite Ek in Hr].
  destruct (replicate_ok sha256 url_parse ss w cid key _ _ _ _ Ek Hr) as [_ E].
  exists key, (bucketForCID sha256 ss cid placement). eexists. rewrite E, lookup_insert_eq. split; [done|]. split; [apply bucketForCID_archive|]. split; [done|].
  cbn. match goal with H : negb (String.eqb _ _) = false |- _ => apply negb_false_iff, String.eqb_eq in H end. done.
Qed.

(** The branches of the endpoint whose answer promises something. *)
Lemma serve_answer w source req p p' code word :
  serve w source req p = (p', (code, word)) ->
  (code = 200 -> p' = p /\ haveInMyBucket ss w (pq_CID req) (pu_media p) = Ok true /\ word = "already_present" \/
     pullFileFromHostValidated sha256 url_parse compute_cid ss w source (pq_CID req) (pq_PlacementHosts req) (pu_media p) = (pu_media p', Ok tt)) /\
  (code = 202 -> haveInMyBucket ss w (pq_CID req) (pu_media p) = Ok false /\ exists job a,
     sourceHost job = source /\ job_cid job = pq_CID req /\ enqueueAsyncPull job p = (p', Ok a) /\ word = admission_status a).
Proof using.
  unfold serveInternalBlobPull. intros H. repeat case_match; simplify_eq; split; intros ?; try done; try lia.
  - by left.
  - split; [done|]. by eexists (mkPullJob _ _ _ _ _), _.
  - right. cbn. by repeat match goal with u : unit |- _ => destruct u end.
Qed.

Lemma enqueue_answer job p p' a :
  enqueueAsyncPull job p = (p', Ok a) ->
  match a with
  | asyncPullRunning => p' = p /\ job_cid job ∈ asyncPullInFlight p
  | asyncPullQueued => job_cid job ∉ asyncPullInFlight p /\ job ∈ transfers p'
  end.
Proof using.
  unfold enqueueAsyncPull, transfers. intros H. repeat case_match; simplify_eq.
  - by match goal with H : bool_decide _ = true |- _ => apply bool_decide_eq_true in H end.
  - split; [by match goal with H : bool_decide _ = false |- _ => apply bool_decide_eq_false in H end|].
    cbn. rewrite !elem_of_app. left. right. by left.
Qed.
End PullProps.

Section PullTheorems.
Context (sha256 : string -> string) (url_parse : string -> option (string * string)) (compute_cid : string -> string).

(** C34 -- One transfer per blob.  In every state a node can come to after it has started,
    whatever requests, operations of the chain and workers do in whatever order, the set
    of CIDs in flight is exactly that of the transfers queued or running, no two of them
    are of the same CID, the queue holds at most 32 and at most the configured number of
    workers, between 1 and 64, are at work. *)
Theorem one_transfer_per_blob (ss : MediorumServer) (pc : pull_config) (m : media) (es : list pull_event) (p : puller) :
  pull_run sha256 url_parse compute_cid ss pc (fresh m) es p ->
  (forall cid, cid ∈ asyncPullInFlight p <-> exists job, job ∈ transfers p /\ job_cid job = cid) /\
  NoDup (job_cid <$> transfers p) /\
  (length (asyncPullQueue p) <= asyncPullQueueDepth)%nat /\
  Z.of_nat (length (running p)) <= asyncPullWorkers pc <= maxAsyncPullWorkers /\ 1 <= asyncPullWorkers pc.
Proof.
  intros Hr. pose proof (run_inv _ _ _ _ _ _ _ _ (fresh_inv pc m) Hr) as Hi. pose proof (workers_bound pc).
  split; [intros cid; by apply (inv_in_flight pc)|]. split; [apply (inv_nodup pc p Hi)|].
  split; [apply (inv_queue pc p Hi)|]. split; [split; [apply (inv_running pc p Hi)|lia]|lia].
Qed.

(** C25 -- The answers to a pull request tell the truth.  At any time after the start of a
    node, the answer 200 means that the blob is in one of its buckets, and with
    "pulled" that it holds bytes with that CID; the answer 202 means that a transfer of
    the blob is queued or running, taken on by this request if the word is "accepted".
    A blob that is accepted a second time was given up in between: the first transfer
    has ended and the blob is not there. *)
Theorem pull_answers_tell_the_truth (ss : MediorumServer) (pc : pull_config) (m : media) (es : list pull_event) (p p' : puller)
    (w : world) (source : string) (req : internalBlobPullRequest) (code : Z) (word : string) :
  pull_run sha256 url_parse compute_cid ss pc (fresh m) es p ->
  serveInternalBlobPull sha256 url_parse compute_cid ss pc w source req p = (p', (code, word)) ->
  (code = 200 -> holds ss (pq_CID req) (pu_media p')) /\
  (code = 200 -> word = "pulled" -> exists key b x,
     ShardCID (pq_CID req) = Some key /\ blobs (pu_media p') !! (b, key) = Some x /\ compute_cid (content x) = pq_CID req) /\
  (code = 202 -> exists job, job ∈ transfers p' /\ job_cid job = pq_CID req /\
     (word = "accepted" -> sourceHost job = source /\ forall j, j ∈ transfers p -> job_cid j <> pq_CID req)) /\
  (code = 202 -> word = "accepted" -> forall es' p2 w2 source2 req2,
     pull_run sha256 url_parse compute_cid ss pc p' es' p2 -> pq_CID req2 = pq_CID req ->
     (serveInternalBlobPull sha256 url_parse compute_cid ss pc w2 source2 req2 p2).2 = (202, "accepted") ->
     (exists w' job, EvDone w' job ∈ es' /\ job_cid job = pq_CID req /\ sourceHost job = source) /\
     haveInMyBucket ss w2 (pq_CID req) (pu_media p2) = Ok false).
Proof.
  intros Hr Hs. pose proof (run_inv _ _ _ _ _ _ _ _ (fresh_inv pc m) Hr) as Hi.
  assert (pull_inv pc p') as Hi'.
  { apply (step_inv sha256 url_parse compute_cid ss pc p (EvPull w source req)); [done|].
    change p' with (p', (code, word)).1. rewrite <- Hs. constructor. }
  pose proof (serve_answer _ _ _ _ _ _ _ _ _ _ _ _ Hs) as [H200 H202]. split_and!.
  - intros Hc. destruct (H200 Hc) as [(-> & Hh & _)|Hv]; [by eapply have_holds|].
    apply validated_ok in Hv as (key & b & x & Hk & Ha & Hb & _). by exists key, b.
  - intros Hc ->. destruct (H200 Hc) as [(_ & _ & Hw)|Hv]; [done|].
    apply validated_ok in Hv as (key & b & x & Hk & _ & Hb & Hx). by exists key, b, x.
  - intros Hc. destruct (H202 Hc) as (_ & job & a & <- & <- & He & ->). pose proof (enqueue_answer _ _ _ _ He) as Ha. destruct a.
    + destruct Ha as [Hf Hj]. exists job. split; [done|]. split; [done|]. intros _. split; [done|].
      intros j Hj' E. apply Hf. apply (inv_in_flight pc p); [done|]. by exists j.
    + destruct Ha as [-> Hf]. apply (inv_in_flight pc p) in Hf as (j & Hj & E); [|done]. by exists j.
  - intros Hc -> es' p2 w2 source2 req2 Hr2 E2 Hs2.
    destruct (H202 Hc) as (_ & job & a & <- & Ej & He & Ew). destruct a; [|discriminate Ew].
    pose proof (enqueue_answer _ _ _ _ He) as [_ Hj].
    destruct (serveInternalBlobPull sha256 url_parse compute_cid ss pc w2 source2 req2 p2) as [p3 ans] eqn:Es2. cbn in Hs2. subst ans.
    pose proof (serve_answer _ _ _ _ _ _ _ _ _ _ _ _ Es2) as [_ H]. destruct (H eq_refl) as (Hn & job2 & a2 & _ & Ec2 & He2 & Ew2).
    rewrite E2 in Hn, Ec2. split; [|exact Hn]. destruct a2; [|discriminate Ew2]. pose proof (enqueue_answer _ _ _ _ He2) as [Hf _].
    destruct (transfer_stays sha256 url_parse compute_cid ss pc p' es' p2 job Hi' Hr2 Hj) as [Hin|[w' Hd]]; [|by exists w', job].
    destruct Hf. rewrite Ec2. apply (inv_in_flight pc p2); [by eapply run_inv|]. by exists job.
Qed.
End PullTheorems.
