(* ===== verification/MediaReplicate.v ===== *)
(** * Outbound replication

    Models the side of replication that hands blobs out: pushing a file to a set of
    hosts and asking peers to pull (server/replicate.go), the workers and the sweep that
    finds uploads short of copies (replicate_worker.go), and the update of an uploads row
    (upload_row.go).  What the peers do is the interface [PeerNet]; MediaNetwork.v
    implements it with nodes of MediaPull.v.  The transfers to several hosts run one after
    another, and their results arrive in any order.  The caches are taken to be large
    enough for their entries. *)

From stdpp Require Import base gmap strings list fin_maps.
From Stdlib Require Import ZArith Lia Ascii.
From S2P Require Import Prelude Crypto Rendezvous Snapshots MediaStore MediaPull.

Open Scope string_scope.
Open Scope Z_scope.

(** ** The placement header *)

Definition encodePlacementHosts (hosts : list string) : string := String.concat "," hosts.

(** strings.Split(s, ","). *)
Fixpoint split_commas (s : string) : list string :=
  match s with
  | EmptyString => [""]
  | String c s' =>
      if Ascii.eqb c "," then "" :: split_commas s'
      else match split_commas s' with
           | seg :: rest => String c seg :: rest
           | [] => [String c ""]
           end
  end.
Definition decodePlacementHosts (v : string) : list string := if String.eqb v "" then [] else split_commas v.

(** The placement a peer reads from a push: the header is set when there is one. *)
Definition sent_placement (placementHosts : list string) : list string :=
  if bool_decide (placementHosts = []) then [] else decodePlacementHosts (encodePlacementHosts placementHosts).

(** ** Peers *)

(** What a node asks of its peers: the status and word of the answer to a pull request,
    the status of the answer to a push, [None] when there is no answer; and whether a
    peer holds a blob. *)
Class PeerNet (N : Type) := {
  peer_pull : string -> internalBlobPullRequest -> N -> N * option (Z * string);
  peer_push : string -> string -> list string -> string * bool -> N -> N * option Z;
  peer_holds : string -> string -> N -> Prop
}.

(** Success means that the peer holds the blob, and no request makes a peer lose one. *)
Class PeerNetLaws (N : Type) {P : PeerNet N} : Prop := {
  pull_holds : forall host req (n n' : N) word, peer_pull host req n = (n', Some (200, word)) -> peer_holds host (pq_CID req) n';
  push_holds : forall host cid placement body (n n' : N), peer_push host cid placement body n = (n', Some 200) -> peer_holds host cid n';
  pull_keeps : forall host req (n : N) h c, peer_holds h c n -> peer_holds h c (peer_pull host req n).1;
  push_keeps : forall host cid placement body (n : N) h c, peer_holds h c n -> peer_holds h c (peer_push host cid placement body n).1
}.

(** The errors of a transfer that are told apart. *)
Inductive peer_error :=
| errPeerPullUnsupported
| errPeerPullFailed
| errPeerPullAccepted
| errPeerPullInProgress
| errPeerPullBusy
| errPeerPullNoRoom
| errPeerOther.
#[export] Instance peer_error_eq_dec : EqDecision peer_error.
Proof. solve_decision. Defined.

(** The reading of an answer, [None] for no error. *)
Definition read_answer (answer : option (Z * string)) : option peer_error :=
  match answer with
  | None => Some errPeerOther
  | Some (code, word) =>
      if code =? 200 then None
      else if code =? 202 then Some (if String.eqb word "in_progress" then errPeerPullInProgress else errPeerPullAccepted)
      else if code =? 503 then Some errPeerPullBusy
      else if code =? 507 then Some errPeerPullNoRoom
      else if (code =? 404) || (code =? 405) || (code =? 501) then Some errPeerPullUnsupported
      else if (code =? 502) || (code =? 504) then Some errPeerPullFailed
      else Some errPeerOther
  end.

Definition isPullFallbackWorthy (e : peer_error) : bool :=
  match e with errPeerPullUnsupported | errPeerPullFailed => true | _ => false end.

(** ** State *)

(** A node as the sender of transfers: its blobs, the uploads table, the caches of
    handoffs and attempts by the time they expire, the channel to its workers, and the
    network. *)
Record sender (N : Type) := mkSender {
  sn_media : media;
  uploads_table : gmap string mirrored_upload;
  pullHandoffs : gmap string Z;
  replicationAttempts : gmap string Z;
  replicationWork : list mirrored_upload;
  sn_net : N
}.
Arguments mkSender {N}. Arguments sn_media {N}. Arguments uploads_table {N}. Arguments pullHandoffs {N}.
Arguments replicationAttempts {N}. Arguments replicationWork {N}. Arguments sn_net {N}.

Definition set_sn_media {N} (m : media) (s : sender N) : sender N :=
  mkSender m (uploads_table s) (pullHandoffs s) (replicationAttempts s) (replicationWork s) (sn_net s).
Definition set_table {N} f (s : sender N) : sender N :=
  mkSender (sn_media s) (f (uploads_table s)) (pullHandoffs s) (replicationAttempts s) (replicationWork s) (sn_net s).
Definition set_handoffs {N} f (s : sender N) : sender N :=
  mkSender (sn_media s) (uploads_table s) (f (pullHandoffs s)) (replicationAttempts s) (replicationWork s) (sn_net s).
Definition set_attempts {N} f (s : sender N) : sender N :=
  mkSender (sn_media s) (uploads_table s) (pullHandoffs s) (f (replicationAttempts s)) (replicationWork s) (sn_net s).
Definition set_work {N} f (s : sender N) : sender N :=
  mkSender (sn_media s) (uploads_table s) (pullHandoffs s) (replicationAttempts s) (f (replicationWork s)) (sn_net s).
Definition set_net {N} (n : N) (s : sender N) : sender N :=
  mkSender (sn_media s) (uploads_table s) (pullHandoffs s) (replicationAttempts s) (replicationWork s) n.

(** Both caches keep an entry for an hour by default. *)
Definition attemptTTL : Z := media_hour.
Definition peerBusyBackoff : Z := 15 * 60 * media_second.
Definition replicationWorkDepth : nat := 100.
Definition JobStatusBusy : string := "busy".

Definition cached (now : Z) (key : string) (cache : gmap string Z) : bool :=
  match cache !! key with Some expires => now <=? expires | None => false end.

(** ** Counting copies *)

Definition replicationTargetFor (u : mirrored_upload) (replicationFactor : Z) : Z :=
  let placed := Z.of_nat (length (PlacementHosts (mu_upload u))) in
  if 0 <? placed then placed else replicationFactor.

Definition uploadNeedsReplication (u : mirrored_upload) (replicationFactor : Z) : bool :=
  let target := replicationTargetFor u replicationFactor in
  if Z.of_nat (length (Mirrors u)) <? target then true
  else negb (String.eqb (result_320 u) "") && (Z.of_nat (length (TranscodedMirrors u)) <? target).

(** The condition of underReplicatedUploadsSQL on a row whose lists are not null. *)
Definition under_replicated (self : string) (replicationFactor : Z) (u : mirrored_upload) : bool :=
  let target := match Z.of_nat (length (PlacementHosts (mu_upload u))) with 0 => replicationFactor | n => n end in
  String.eqb (CreatedBy u) self && negb (String.eqb (OrigFileCID (mu_upload u)) "") && negb (String.eqb (mu_Status u) JobStatusBusy) &&
  ((Z.of_nat (length (Mirrors u)) <? target) ||
   (negb (String.eqb (result_320 u) "") && (Z.of_nat (length (TranscodedMirrors u)) <? target))).

Definition mirror_list (isTranscoded : bool) (u : mirrored_upload) : list string :=
  if isTranscoded then TranscodedMirrors u else Mirrors u.

Definition merge_host (acc : list string * bool) (host : string) : list string * bool :=
  if bool_decide (host ∈ acc.1) then acc else (app acc.1 [host], true).
Definition mergeReplicationMirrors (isTranscoded : bool) (u : mirrored_upload) (newSuccessHosts : list string) : list string * bool :=
  foldl merge_host (mirror_list isTranscoded u, false) newSuccessHosts.

Definition set_mirrors (isTranscoded : bool) (l : list string) (u : mirrored_upload) : mirrored_upload :=
  mkMirrored (mu_upload u) (if isTranscoded then Mirrors u else l) (if isTranscoded then l else TranscodedMirrors u)
    (mu_Status u) (CreatedBy u) (TranscodedBy u).

(** ** Handoffs *)

Inductive pullHandoffOutcome := pullHandoffNone | pullHandoffFresh | pullHandoffRunning | pullHandoffRepeat.

Definition pullHandoffKey (host cid : string) : string := host +:+ "|" +:+ cid.

Section Replicate.
Context {N : Type} {P : PeerNet N}.
Context (sha256 : string -> string) (url_parse : string -> option (string * string)).
Context (ss : MediorumServer).
(** The order in which the results of parallel transfers arrive. *)
Context (arrive : list (string * option peer_error) -> list (string * option peer_error)).
Notation self := (Self_Host (Config ss)).

Definition notePullHandoff (now : Z) (host cid : string) (err : option peer_error) (s : sender N) : sender N * pullHandoffOutcome :=
  let key := pullHandoffKey host cid in
  match err with
  | Some errPeerPullInProgress => (s, pullHandoffRunning)
  | Some errPeerPullAccepted =>
      if cached now key (pullHandoffs s) then (set_handoffs (delete key) s, pullHandoffRepeat)
      else (set_handoffs <[key := now + attemptTTL]> s, pullHandoffFresh)
  | None => (set_handoffs (delete key) s, pullHandoffNone)
  | Some _ => (s, pullHandoffNone)
  end.

Section OneMoment.
Context (w : world).

(** ** One transfer *)

(** A push; after an answer other than 200 the body is abandoned. *)
Definition replicateFileToHost (peer cid : string) (file : string * bool) (placementHosts : list string) (s : sender N) : sender N * option peer_error :=
  if String.eqb peer self then
    let (m, r) := replicateToMyBucket sha256 url_parse ss w cid file placementHosts (sn_media s) in
    (set_sn_media m s, match r with Ok _ => None | Err _ => Some errPeerOther end)
  else
    let (n, answer) := peer_push peer cid (sent_placement placementHosts) file (sn_net s) in
    (set_net n s, match answer with
                  | Some 200 => if file.2 then None else Some errPeerOther
                  | _ => Some errPeerOther
                  end).

Definition requestPeerPull (peer cid : string) (placementHosts : list string) (uploadID : string) (transcoded : bool) (size : Z)
    (s : sender N) : sender N * option peer_error :=
  let (n, answer) := peer_pull peer (mkPullRequest cid placementHosts uploadID transcoded size true) (sn_net s) in
  (set_net n s, read_answer answer).

Definition replicateStoredFileToHost (peer cid : string) (sourceBucket : bucket) (sourceKey : string) (placementHosts : list string)
    (uploadID : string) (transcoded : bool) (size : Z) (s : sender N) : sender N * option peer_error :=
  if String.eqb peer self then (s, None)
  else match requestPeerPull peer cid placementHosts uploadID transcoded size s with
       | (s, None) => (s, None)
       | (s, Some e) =>
           if negb (isPullFallbackWorthy e) then (s, Some e)
           else match NewReader w sourceBucket sourceKey (sn_media s) with
                | Err _ => (s, Some errPeerOther)
                | Ok x =>
                    replicateFileToHost peer cid (content x, negb (io_fault w (IoBody sourceBucket sourceKey))) placementHosts s
                end
       end.

(** The hosts in turn until [want] have taken the file. *)
Fixpoint replicate_until (want : nat) (hosts : list string) (cid : string) (file : string * bool) (placementHosts : list string)
    (s : sender N) : sender N * list string :=
  match want, hosts with
  | S want', peer :: hosts' =>
      match replicateFileToHost peer cid file placementHosts s with
      | (s, None) => let (s, success) := replicate_until want' hosts' cid file placementHosts s in (s, peer :: success)
      | (s, Some _) => replicate_until want hosts' cid file placementHosts s
      end
  | _, _ => (s, [])
  end.

(** The workers take the hosts from one queue, each until one has taken the file. *)
Definition replicateFileParallel (cid : string) (file : string * bool) (placementHosts : list string) (s : sender N) : sender N * list string :=
  if bool_decide (placementHosts = [])
  then replicate_until (Z.to_nat (ReplicationFactor (Config ss))) (rendezvousAllHosts sha256 ss cid).1 cid file [] s
  else replicate_until (length placementHosts) placementHosts cid file placementHosts s.

(** ** All hosts of an upload *)

Fixpoint transfer_all (hosts : list string) (u : mirrored_upload) (cid : string) (isTranscoded : bool) (b : bucket) (key : string) (size : Z)
    (s : sender N) : sender N * list (string * option peer_error) :=
  match hosts with
  | [] => (s, [])
  | host :: hosts' =>
      let (s, e) := replicateStoredFileToHost host cid b key (PlacementHosts (mu_upload u)) (ID (mu_upload u)) isTranscoded size s in
      let (s, results) := transfer_all hosts' u cid isTranscoded b key size s in
      (s, (host, e) :: results)
  end.

(** What the results amount to. *)
Record sweep_tally := mkTally { newSuccessHosts : list string; handoffProgressing : bool; anyPeerBusy : bool }.

Definition collect_result (cid : string) (acc : sender N * sweep_tally) (result : string * option peer_error) : sender N * sweep_tally :=
  let '(s, t) := acc in
  let '(host, err) := result in
  match err with
  | Some errPeerPullBusy => (s, mkTally (newSuccessHosts t) (handoffProgressing t) true)
  | _ =>
      match notePullHandoff (now w) host cid err s with
      | (s, pullHandoffFresh) | (s, pullHandoffRunning) => (s, mkTally (newSuccessHosts t) true (anyPeerBusy t))
      | (s, pullHandoffRepeat) => (s, t)
      | (s, pullHandoffNone) =>
          match err with
          | None => (s, mkTally (app (newSuccessHosts t) [host]) (handoffProgressing t) (anyPeerBusy t))
          | Some _ => (s, t)
          end
      end
  end.

(** The row is read, changed and written; [Ok None] when it needs no write. *)
Definition updateUploadRow (id : string) (mutate : mirrored_upload -> option mirrored_upload) : proc (sender N) media_error unit :=
  fun s =>
    if io_fault w (SqlRow id) then (s, Err (MErr "failed to get upload from DB"))
    else match uploads_table s !! id with
         | None => (s, Err (MErr "failed to get upload from DB"))
         | Some u =>
             match mutate u with
             | None => (s, Ok tt)
             | Some u' => if io_fault w (SqlUpdateRow id) then (s, Err (MErr "update")) else (set_table <[id := u']> s, Ok tt)
             end
         end.

Definition target_hosts (u : mirrored_upload) (cid : string) (existingMirrors : list string) : list string :=
  let placementHosts :=
    match PlacementHosts (mu_upload u) with
    | [] => take (Z.to_nat (ReplicationFactor (Config ss))) (rendezvousAllHosts sha256 ss cid).1
    | hosts => hosts
    end in
  List.filter (fun host => negb (String.eqb host self) && negb (bool_decide (host ∈ existingMirrors))) placementHosts.

(** The backoff of an upload after its transfers. *)
Definition set_backoff (id : string) (t : sweep_tally) (s : sender N) : sender N :=
  if handoffProgressing t then set_attempts (delete id) s
  else if anyPeerBusy t then set_attempts <[id := now w + peerBusyBackoff]> s
  else s.

Definition replicateToHosts (u : mirrored_upload) (cid : string) (existingMirrors : list string) (isTranscoded : bool) : proc (sender N) media_error unit :=
  fun s =>
    match ShardCID cid with
    | None => (s, Err MPanic)
    | Some key =>
        match blobAttrs ss w key (sn_media s) with
        | Err _ => (s, Err (MErr "failed to get file attributes"))
        | Ok (attrs, srcBucket) =>
            let targetHosts := target_hosts u cid existingMirrors in
            if bool_decide (targetHosts = []) then (s, Ok tt)
            else
              let (s, results) := transfer_all targetHosts u cid isTranscoded srcBucket key (blob_size attrs) s in
              let (s, t) := foldl (collect_result cid) (s, mkTally [] false false) (arrive results) in
              let s := set_backoff (ID (mu_upload u)) t s in
              if bool_decide (newSuccessHosts t = []) then (s, Ok tt)
              else updateUploadRow (ID (mu_upload u)) (fun row =>
                     let (merged, changed) := mergeReplicationMirrors isTranscoded row (newSuccessHosts t) in
                     if changed then Some (set_mirrors isTranscoded merged row) else None) s
        end
    end.

Definition replicateOriginal (u : mirrored_upload) : proc (sender N) media_error unit :=
  if String.eqb (OrigFileCID (mu_upload u)) "" then pret tt
  else replicateToHosts u (OrigFileCID (mu_upload u)) (Mirrors u) false.

Definition replicateTranscode (u : mirrored_upload) : proc (sender N) media_error unit :=
  if String.eqb (result_320 u) "" then pret tt
  else replicateToHosts u (result_320 u) (TranscodedMirrors u) true.

(** Errors are logged; a panic ends the process. *)
Definition logged (f : proc (sender N) media_error unit) : proc (sender N) media_error unit :=
  fun s => match f s with
           | (s, Err MPanic) => (s, Err MPanic)
           | (s, _) => (s, Ok tt)
           end.

(** What replicationWorker does with an upload. *)
Definition replication_work (u : mirrored_upload) : proc (sender N) media_error unit :=
  let target := replicationTargetFor u (ReplicationFactor (Config ss)) in
  (if bool_decide (is_Some (TranscodeResults (mu_upload u) !! "320")) && (Z.of_nat (length (TranscodedMirrors u)) <? target)
   then logged (replicateTranscode u) else pret tt) ;;!
  (if Z.of_nat (length (Mirrors u)) <? target then logged (replicateOriginal u) else pret tt).

(** One of the workers takes the next upload. *)
Definition replicationWorker : proc (sender N) media_error unit :=
  fun s => match replicationWork s with
           | [] => (s, Ok tt)
           | u :: us => replication_work u (set_work (fun _ => us) s)
           end.

(** ** The sweep *)

Definition queue_upload (s : sender N) (u : mirrored_upload) : sender N :=
  if negb (uploadNeedsReplication u (ReplicationFactor (Config ss))) then s
  else if cached (now w) (ID (mu_upload u)) (replicationAttempts s) then s
  else if (length (replicationWork s) <? replicationWorkDepth)%nat then
    set_attempts <[ID (mu_upload u) := now w + attemptTTL]> (set_work (fun us => app us [u]) s)
  else s.

Definition findMissedReplications (s : sender N) : sender N :=
  if io_fault w SqlMissed then s
  else foldl queue_upload s
         (List.filter (under_replicated self (ReplicationFactor (Config ss))) (map_to_list (uploads_table s)).*2).
End OneMoment.
End Replicate.

(** ** Properties of outbound replication

    A mirror is recorded only for a host that holds the blob, and the sweep, its query
    and the worker agree on which uploads are short of copies. *)

(** ** The placement header *)

Fixpoint no_comma (s : string) : bool :=
  match s with EmptyString => true | String c s' => negb (Ascii.eqb c ",") && no_comma s' end.

Lemma split_commas_cons h rest : no_comma h = true -> split_commas (h +:+ "," +:+ rest) = h :: split_commas rest.
Proof.
  induction h as [|c h IH]; cbn [no_comma]; intros H; [done|]. apply andb_prop in H as [Hc Hh]. apply negb_true_iff in Hc.
  change (String c h +:+ "," +:+ rest) with (String c (h +:+ "," +:+ rest)). cbn [split_commas]. rewrite Hc, IH by done. done.
Qed.

Lemma split_commas_last h : no_comma h = true -> split_commas h = [h].
Proof.
  induction h as [|c h IH]; cbn [no_comma]; intros H; [done|]. apply andb_prop in H as [Hc Hh]. apply negb_true_iff in Hc.
  cbn [split_commas]. by rewrite Hc, IH.
Qed.

(** Host names without commas survive the header. *)
Lemma placement_header_roundtrip hosts :
  Forall (fun h => no_comma h = true /\ h <> "") hosts -> sent_placement hosts = hosts.
Proof.
  unfold sent_placement, decodePlacementHosts, encodePlacementHosts. intros Hall. case_bool_decide as Hn; [done|].
  assert (split_commas (String.concat "," hosts) = hosts) as Hs.
  { induction Hall as [|h hosts [Hh Hne] Hall IH]; [done|]. destruct hosts as [|h' hosts].
    - cbn. by apply split_commas_last.
    - change (String.concat "," (h :: h' :: hosts)) with (h +:+ "," +:+ String.concat "," (h' :: hosts)).
      by rewrite split_commas_cons, IH. }
  destruct (String.eqb_spec (String.concat "," hosts) "") as [E|E]; [|done].
  rewrite E in Hs. cbn in Hs. subst hosts. apply Forall_inv in Hall as [_ Hne]. done.
Qed.

(** ** Merging *)

Lemma merge_spec hosts acc changed :
  exists added, foldl merge_host (acc, changed) hosts = (app acc added, changed || negb (bool_decide (added = []))) /\
    NoDup added /\ (forall h, h ∈ added <-> h ∈ hosts /\ h ∉ acc).
Proof.
  revert acc changed. induction hosts as [|h hosts IH]; intros acc changed; cbn [foldl].
  { exists []. rewrite app_nil_r, orb_false_r. split; [done|]. split; [constructor|]. set_solver. }
  unfold merge_host at 2. cbn [fst]. case_bool_decide as Hh.
  - destruct (IH acc changed) as (added & -> & Hn & Hin). exists added. split; [done|]. split; [done|]. set_solver.
  - destruct (IH (app acc [h]) true) as (added & -> & Hn & Hin). exists (h :: added). rewrite <- app_assoc. cbn.
    split; [by rewrite orb_true_r|]. split; [constructor; [set_solver|done]|]. intros x. specialize (Hin x).
    rewrite elem_of_app, list_elem_of_singleton in Hin. rewrite !elem_of_cons. split; [set_solver|].
    intros [[->|Hx] Hnx]; [by left|]. destruct (decide (x = h)); [by left|]. right. apply Hin. set_solver.
Qed.

(** ** Transfers *)

Section Props.
Context {N : Type} {P : PeerNet N} {L : PeerNetLaws N}.
Context (sha256 : string -> string) (url_parse : string -> option (string * string)).
Context (ss : MediorumServer).
Context (arrive : list (string * option peer_error) -> list (string * option peer_error)).
Context (w : world).

(** What transfers leave alone, and that no peer loses a blob. *)
Record transfers_only (s s' : sender N) : Prop := {
  to_media : sn_media s' = sn_media s;
  to_table : uploads_table s' = uploads_table s;
  to_handoffs : pullHandoffs s' = pullHandoffs s;
  to_attempts : replicationAttempts s' = replicationAttempts s;
  to_work : replicationWork s' = replicationWork s;
  to_holds : forall h c, peer_holds h c (sn_net s) -> peer_holds h c (sn_net s')
}.

Lemma transfers_refl s : transfers_only s s.
Proof using. by split. Qed.
Lemma transfers_trans s1 s2 s3 : transfers_only s1 s2 -> transfers_only s2 s3 -> transfers_only s1 s3.
Proof using. intros [] []. split; try congruence. auto. Qed.

Lemma push_transfers peer cid file placement s :
  peer <> Self_Host (Config ss) ->
  let '(s', e) := replicateFileToHost sha256 url_parse ss w peer cid file placement s in
  transfers_only s s' /\ (e = None -> peer_holds peer cid (sn_net s')).
Proof using L.
  intros Hne. unfold replicateFileToHost. apply String.eqb_neq in Hne. rewrite Hne.
  destruct (peer_push peer cid (sent_placement placement) file (sn_net s)) as [n answer] eqn:E. split.
  - split; try done. intros h c Hh. cbn. pose proof (push_keeps peer cid (sent_placement placement) file (sn_net s) h c Hh) as H. by rewrite E in H.
  - intros H. destruct answer as [z|]; [|done]. destruct (Z.eq_dec z 200) as [->|Hz].
    + by apply push_holds in E.
    + destruct z as [|z|z]; try done. repeat (destruct z as [z|z|]; try done).
Qed.

Lemma stored_transfers peer cid b key placement id tr size s :
  peer <> Self_Host (Config ss) ->
  let '(s', e) := replicateStoredFileToHost sha256 url_parse ss w peer cid b key placement id tr size s in
  transfers_only s s' /\ (e = None -> peer_holds peer cid (sn_net s')).
Proof using L.
  intros Hne. unfold replicateStoredFileToHost, requestPeerPull. pose proof Hne as Hne'. apply String.eqb_neq in Hne'. rewrite Hne'.
  set (req := mkPullRequest cid placement id tr size true).
  destruct (peer_pull peer req (sn_net s)) as [n answer] eqn:E.
  assert (transfers_only s (set_net n s)) as Ht.
  { split; try done. intros h c Hh. cbn. pose proof (pull_keeps peer req (sn_net s) h c Hh) as H. by rewrite E in H. }
  destruct (read_answer answer) as [e|] eqn:Er.
  - destruct (negb (isPullFallbackWorthy e)); [done|].
    destruct (NewReader w b key (sn_media (set_net n s))) as [x|]; [|done].
    pose proof (push_transfers peer cid (content x, negb (io_fault w (IoBody b key))) placement (set_net n s) Hne) as H.
    destruct (replicateFileToHost sha256 url_parse ss w peer cid _ placement (set_net n s)) as [s' e'].
    destruct H as [H1 H2]. split; [by eapply transfers_trans|done].
  - split; [done|]. intros _. destruct answer as [[code word]|]; [|done]. cbn in Er.
    destruct (Z.eqb_spec code 200) as [->|]; [by apply (pull_holds peer req _ _ word) in E|].
    by repeat case_match.
Qed.

Lemma all_transfers hosts u cid tr b key size s :
  Self_Host (Config ss) ∉ hosts ->
  let '(s', results) := transfer_all sha256 url_parse ss w hosts u cid tr b key size s in
  transfers_only s s' /\ results.*1 = hosts /\ (forall h, (h, None) ∈ results -> peer_holds h cid (sn_net s')).
Proof using L.
  revert s. induction hosts as [|host hosts IH]; intros s Hn; cbn [transfer_all].
  { split; [apply transfers_refl|]. split; [done|]. intros h Hh. by apply not_elem_of_nil in Hh. }
  apply not_elem_of_cons in Hn as [Hn1 Hn2].
  pose proof (stored_transfers host cid b key (PlacementHosts (mu_upload u)) (ID (mu_upload u)) tr size s (not_eq_sym Hn1)) as Hs.
  destruct (replicateStoredFileToHost _ _ _ _ _ _ _ _ _ _ _ _ _) as [s1 e]. destruct Hs as [Ht1 He].
  specialize (IH s1 Hn2). destruct (transfer_all _ _ _ _ hosts _ _ _ _ _ _ s1) as [s2 results]. destruct IH as (Ht2 & Hr & Hh).
  split; [by eapply transfers_trans|]. split; [cbn; by rewrite Hr|].
  intros h Hin. apply elem_of_cons in Hin as [Hin|Hin]; [|auto]. injection Hin as -> <-. apply (to_holds _ _ Ht2). auto.
Qed.

(** Collecting results touches the handoffs only, and counts those without an error. *)
Lemma note_frame t host cid e (s : sender N) :
  let '(s', o) := notePullHandoff t host cid e s in
  sn_net s' = sn_net s /\ uploads_table s' = uploads_table s /\ sn_media s' = sn_media s /\
  replicationAttempts s' = replicationAttempts s /\ replicationWork s' = replicationWork s /\
  (e = None -> o = pullHandoffNone).
Proof using.
  unfold notePullHandoff. destruct e as [[]|]; [| |destruct (cached t _ (pullHandoffs s))| | | | |]; cbn; split_and!; done.
Qed.

Lemma collect_frame cid results (s : sender N) (t : sweep_tally) :
  let '(s', t') := foldl (collect_result w cid) (s, t) results in
  sn_net s' = sn_net s /\ uploads_table s' = uploads_table s /\ sn_media s' = sn_media s /\
  replicationAttempts s' = replicationAttempts s /\ replicationWork s' = replicationWork s /\
  newSuccessHosts t' = app (newSuccessHosts t) (omap (fun '(h, e) => match e with None => Some h | Some _ => None end) results).
Proof using.
  revert s t. induction results as [|[host e] results IH]; intros s t; cbn [foldl]; [by rewrite app_nil_r|].
  pose proof (note_frame (now w) host cid e s) as Hn.
  destruct (notePullHandoff (now w) host cid e s) as [s1 o] eqn:En. destruct Hn as (N1 & N2 & N3 & N4 & N5 & N6).
  assert (exists s2 t2, collect_result w cid (s, t) (host, e) = (s2, t2) /\ sn_net s2 = sn_net s /\ uploads_table s2 = uploads_table s /\
    sn_media s2 = sn_media s /\ replicationAttempts s2 = replicationAttempts s /\ replicationWork s2 = replicationWork s /\
    newSuccessHosts t2 = app (newSuccessHosts t) (match e with None => [host] | Some _ => [] end)) as (s2 & t2 & -> & H1 & H2 & H3 & H4 & H5 & H6).
  { unfold collect_result. rewrite En. destruct e as [[]|]; [..|rewrite (N6 eq_refl)]; try destruct o; eexists _, _; split_and!; try done; by rewrite ?app_nil_r. }
  specialize (IH s2 t2). destruct (foldl _ (s2, t2) results) as [s3 t3]. destruct IH as (K1 & K2 & K3 & K4 & K5 & K6).
  split_and!; try congruence. rewrite K6, H6, <- app_assoc. by destruct e.
Qed.

Lemma target_host_is u cid existing h :
  h ∈ target_hosts sha256 ss u cid existing ->
  h <> Self_Host (Config ss) /\ h ∉ existing /\
  (h ∈ PlacementHosts (mu_upload u) \/ PlacementHosts (mu_upload u) = [] /\
   h ∈ take (Z.to_nat (ReplicationFactor (Config ss))) (rendezvousAllHosts sha256 ss cid).1).
Proof using.
  unfold target_hosts. intros H. apply list_elem_of_In, filter_In in H as [Hin Hc].
  apply andb_prop in Hc as [H1 H2]. apply negb_true_iff, String.eqb_neq in H1. apply negb_true_iff, bool_decide_eq_false in H2.
  split; [done|]. split; [done|]. apply list_elem_of_In in Hin. destruct (PlacementHosts (mu_upload u)); [right|left]; done.
Qed.

(** A row after some hosts were added to one of its lists. *)
Definition gained (isTranscoded : bool) (added : list string) (row row' : mirrored_upload) : Prop :=
  row' = set_mirrors isTranscoded (app (mirror_list isTranscoded row) added) row.

Lemma update_frame id mutate (s : sender N) :
  let '(s', _) := updateUploadRow w id mutate s in
  sn_net s' = sn_net s /\ sn_media s' = sn_media s /\ replicationAttempts s' = replicationAttempts s /\ pullHandoffs s' = pullHandoffs s.
Proof using.
  unfold updateUploadRow. destruct (io_fault w (SqlRow id)); [done|]. destruct (uploads_table s !! id) as [u|]; [|done].
  destruct (mutate u); [|done]. by destruct (io_fault w (SqlUpdateRow id)).
Qed.

(** What a merge makes of a row. *)
Lemma merge_gained tr row hosts :
  exists added, mergeReplicationMirrors tr row hosts = (app (mirror_list tr row) added, negb (bool_decide (added = []))) /\
    NoDup added /\ (forall h, h ∈ added <-> h ∈ hosts /\ h ∉ mirror_list tr row).
Proof using. apply (merge_spec hosts (mirror_list tr row) false). Qed.

Lemma set_mirrors_same tr row : set_mirrors tr (mirror_list tr row) row = row.
Proof using. destruct row, tr; done. Qed.

(** The last step of a replication, for hosts of which [Q] is known. *)
Lemma update_gained id tr hosts (s : sender N) row :
  uploads_table s !! id = Some row ->
  let '(s', _) := updateUploadRow w id (fun row =>
      let (merged, changed) := mergeReplicationMirrors tr row hosts in
      if changed then Some (set_mirrors tr merged row) else None) s in
  exists added, uploads_table s' = <[id := set_mirrors tr (app (mirror_list tr row) added) row]> (uploads_table s) /\
    NoDup added /\ (forall h, h ∈ added -> h ∈ hosts /\ h ∉ mirror_list tr row) /\
    (io_fault w (SqlRow id) = false -> io_fault w (SqlUpdateRow id) = false -> forall h, h ∈ hosts -> h ∈ app (mirror_list tr row) added).
Proof using.
  intros Hrow. destruct (merge_gained tr row hosts) as (added & Hm & Hn & Hin).
  assert (forall s1 : sender N, uploads_table s1 = uploads_table s -> (added <> [] -> io_fault w (SqlRow id) = false -> io_fault w (SqlUpdateRow id) = false -> False) ->
    exists added', uploads_table s1 = <[id := set_mirrors tr (app (mirror_list tr row) added') row]> (uploads_table s) /\
    NoDup added' /\ (forall h, h ∈ added' -> h ∈ hosts /\ h ∉ mirror_list tr row) /\
    (io_fault w (SqlRow id) = false -> io_fault w (SqlUpdateRow id) = false -> forall h, h ∈ hosts -> h ∈ app (mirror_list tr row) added')) as Hsame.
  { intros s1 E Hf. exists []. rewrite app_nil_r, set_mirrors_same, insert_id by done. split; [done|]. split; [constructor|].
    split; [intros h Hh; by apply not_elem_of_nil in Hh|]. intros F1 F2 h Hh. destruct (decide (h ∈ mirror_list tr row)) as [|Hno]; [done|].
    destruct (Hf ltac:(intros ->; by apply (not_elem_of_nil h), Hin) F1 F2). }
  unfold updateUploadRow. destruct (io_fault w (SqlRow id)) eqn:F1; [apply Hsame; [done|intros; congruence]|]. rewrite Hrow, Hm.
  case_bool_decide as Ha; cbn [negb]; [by apply Hsame|]. destruct (io_fault w (SqlUpdateRow id)) eqn:F2; [apply Hsame; [done|intros; congruence]|].
  exists added. split; [done|]. split; [done|]. split; [intros h Hh; by apply Hin|].
  intros _ _ h Hh. apply elem_of_app. destruct (decide (h ∈ mirror_list tr row)); [by left|]. right. by apply Hin.
Qed.

(** Progress of one transfer clears the backoff. *)
Lemma progress_stays cid results (s : sender N) t :
  handoffProgressing t = true -> handoffProgressing (foldl (collect_result w cid) (s, t) results).2 = true.
Proof using.
  revert s t. induction results as [|[h e] results IH]; intros s t Ht; cbn [foldl]; [done|].
  destruct (collect_result w cid (s, t) (h, e)) as [s1 t1] eqn:E. apply IH.
  unfold collect_result in E. repeat case_match; by simplify_eq.
Qed.

Definition no_handoffs (cid : string) (s : sender N) : Prop :=
  forall h, cached (now w) (pullHandoffKey h cid) (pullHandoffs s) = false.

Lemma collect_progress cid results (s : sender N) t h e :
  no_handoffs cid s -> (h, Some e) ∈ results -> (e = errPeerPullAccepted \/ e = errPeerPullInProgress) ->
  handoffProgressing (foldl (collect_result w cid) (s, t) results).2 = true.
Proof using.
  revert s t. induction results as [|[h0 e0] results IH]; intros s t Hno Hin He; [by apply not_elem_of_nil in Hin|]. cbn [foldl].
  destruct (decide (e0 = Some errPeerPullAccepted \/ e0 = Some errPeerPullInProgress)) as [H0|H0].
  { assert (exists s1 t1, collect_result w cid (s, t) (h0, e0) = (s1, t1) /\ handoffProgressing t1 = true) as (s1 & t1 & -> & H1).
    { unfold collect_result, notePullHandoff. destruct H0 as [->| ->]; [rewrite Hno|]; by eexists _, _. }
    by apply progress_stays. }
  assert (no_handoffs cid (collect_result w cid (s, t) (h0, e0)).1) as Hno1.
  { unfold collect_result, notePullHandoff. destruct e0 as [[]|]; cbn; try done; try (destruct H0; by auto).
    intros h'. unfold cached. cbn. specialize (Hno h'). unfold cached in Hno. destruct (decide (pullHandoffKey h' cid = pullHandoffKey h0 cid)) as [E|E].
    - by rewrite E, lookup_delete_eq.
    - by rewrite lookup_delete_ne. }
  destruct (collect_result w cid (s, t) (h0, e0)) as [s1 t1]. apply IH; [done| |done].
  apply elem_of_cons in Hin as [Hin|Hin]; [|done]. injection Hin as <- <-. destruct H0. destruct He as [->| ->]; auto.
Qed.

(** What a replication does, in terms of the transfers it makes. *)
Lemma replicate_effect (u row : mirrored_upload) cid key existing tr attrs b (s : sender N) :
  (forall l, arrive l ≡ₚ l) -> ShardCID cid = Some key -> blobAttrs ss w key (sn_media s) = Ok (attrs, b) ->
  uploads_table s !! ID (mu_upload u) = Some row ->
  let T := target_hosts sha256 ss u cid existing in
  let '(s1, results) := transfer_all sha256 url_parse ss w T u cid tr b key (blob_size attrs) s in
  let s' := (replicateToHosts sha256 url_parse ss arrive w u cid existing tr s).1 in
  sn_net s' = sn_net s1 /\ sn_media s' = sn_media s /\
  (exists added, uploads_table s' = <[ID (mu_upload u) := set_mirrors tr (app (mirror_list tr row) added) row]> (uploads_table s) /\
     NoDup added /\ (forall h, h ∈ added -> (h, None) ∈ results /\ h ∉ mirror_list tr row) /\
     (io_fault w (SqlRow (ID (mu_upload u))) = false -> io_fault w (SqlUpdateRow (ID (mu_upload u))) = false ->
      forall h, (h, None) ∈ results -> h ∈ app (mirror_list tr row) added)) /\
  (forall h e, (h, Some e) ∈ results -> e = errPeerPullAccepted \/ e = errPeerPullInProgress -> no_handoffs cid s ->
     replicationAttempts s' !! ID (mu_upload u) = None).
Proof using L.
  intros Harr Hk Hattrs Hrow T. unfold replicateToHosts. rewrite Hk, Hattrs. fold T.
  assert (Self_Host (Config ss) ∉ T) as Hself by (intros Hin; by apply target_host_is in Hin as [? _]).
  pose proof (all_transfers T u cid tr b key (blob_size attrs) s Hself) as Htr.
  case_bool_decide as HT.
  { rewrite HT in *. cbn [transfer_all]. cbn [fst]. split; [done|]. split; [done|]. split.
    - exists []. rewrite app_nil_r, set_mirrors_same, insert_id by done.
      split_and!; [done|constructor|intros h Hh; by apply not_elem_of_nil in Hh|intros _ _ h Hh; by apply not_elem_of_nil in Hh].
    - intros h e Hh. by apply not_elem_of_nil in Hh. }
  destruct (transfer_all _ _ _ _ _ _ _ _ _ _ _ s) as [s1 results]. destruct Htr as (Ht1 & _ & _).
  pose proof (collect_frame cid (arrive results) s1 (mkTally [] false false)) as Hc.
  pose proof (fun h e => collect_progress cid (arrive results) s1 (mkTally [] false false) h e) as Hpr.
  destruct (foldl _ (s1, mkTally [] false false) (arrive results)) as [s2 t]. destruct Hc as (C1 & C2 & C3 & C4 & C5 & C6).
  cbn [newSuccessHosts app snd] in C6, Hpr. destruct Ht1 as [T1 T2 T3 T4 T5 _].
  assert (forall h, h ∈ newSuccessHosts t <-> (h, None) ∈ results) as Hnew.
  { intros h. rewrite C6, list_elem_of_omap, <- (Harr results). split.
    - intros ([h' e] & Hin & He). destruct e; [done|]. by injection He as ->.
    - intros Hin. by exists (h, None). }
  set (s3 := set_backoff w (ID (mu_upload u)) t s2).
  assert (sn_net s3 = sn_net s1 /\ uploads_table s3 = uploads_table s /\ sn_media s3 = sn_media s) as (B1 & B2 & B3).
  { unfold s3, set_backoff. repeat case_match; cbn; split_and!; congruence. }
  assert (forall h e, (h, Some e) ∈ results -> e = errPeerPullAccepted \/ e = errPeerPullInProgress -> no_handoffs cid s ->
     replicationAttempts s3 !! ID (mu_upload u) = None) as Hback.
  { intros h e Hin He Hno. unfold s3, set_backoff. rewrite (Hpr h e); [apply lookup_delete_eq| |by rewrite Harr|done].
    intros h'. rewrite T3. apply Hno. }
  case_bool_decide as Hns; cbn [fst].
  { split; [done|]. split; [done|]. split; [|done]. exists []. rewrite app_nil_r, set_mirrors_same, insert_id by done.
    split_and!; [done|constructor|intros h Hh; by apply not_elem_of_nil in Hh|].
    intros _ _ h Hh. apply Hnew in Hh. rewrite Hns in Hh. by apply not_elem_of_nil in Hh. }
  pose proof (update_gained (ID (mu_upload u)) tr (newSuccessHosts t) s3 row) as Hup.
  pose proof (update_frame (ID (mu_upload u)) (fun row =>
     let (merged, changed) := mergeReplicationMirrors tr row (newSuccessHosts t) in
     if changed then Some (set_mirrors tr merged row) else None) s3) as Hfr.
  destruct (updateUploadRow _ _ _ s3) as [s4 r]. cbn [fst]. destruct Hfr as (F1 & F2 & F3 & _).
  rewrite B2 in Hup. specialize (Hup Hrow) as (added & U1 & U2 & U3 & U4).
  split; [congruence|]. split; [congruence|]. split; [|intros h e; rewrite F3; apply Hback].
  exists added. split; [done|]. split; [done|]. split.
  - intros h Hh. destruct (U3 h Hh) as [H1 H2]. split; [by apply Hnew|done].
  - intros f1 f2 h Hh. apply U4; [done|done|]. by apply Hnew.
Qed.
End Props.

Section ReplicateTheorems.
Context {N : Type} {P : PeerNet N} {L : PeerNetLaws N}.
Context (sha256 : string -> string) (url_parse : string -> option (string * string)).

(** C15 -- A recorded mirror holds the blob.  Whatever fails, a replication of a blob of an
    upload changes nothing in the table of uploads but one of the two mirror lists of
    that upload, to which it appends hosts that were not in it, each once; each of them
    is another node that the upload is placed on, or that ranks for the blob, and holds
    the blob when the replication is over. *)
Theorem recorded_mirrors_hold_the_blob (ss : MediorumServer)
    (arrive : list (string * option peer_error) -> list (string * option peer_error)) (w : world)
    (u row : mirrored_upload) (cid : string) (existing : list string) (tr : bool) (s : sender N) :
  (forall l, arrive l ≡ₚ l) ->
  uploads_table s !! ID (mu_upload u) = Some row ->
  let s' := (replicateToHosts sha256 url_parse ss arrive w u cid existing tr s).1 in
  sn_media s' = sn_media s /\
  exists added,
    uploads_table s' = <[ID (mu_upload u) := set_mirrors tr (app (mirror_list tr row) added) row]> (uploads_table s) /\
    NoDup added /\
    forall h, h ∈ added ->
      h ∉ mirror_list tr row /\ h <> Self_Host (Config ss) /\ peer_holds h cid (sn_net s') /\
      (h ∈ PlacementHosts (mu_upload u) \/ PlacementHosts (mu_upload u) = [] /\
       h ∈ take (Z.to_nat (ReplicationFactor (Config ss))) (rendezvousAllHosts sha256 ss cid).1).
Proof.
  intros Harr Hrow s'. subst s'.
  assert (forall s1 : sender N, sn_media s1 = sn_media s -> uploads_table s1 = uploads_table s ->
    sn_media s1 = sn_media s /\ exists added,
    uploads_table s1 = <[ID (mu_upload u) := set_mirrors tr (app (mirror_list tr row) added) row]> (uploads_table s) /\
    NoDup added /\ (forall h, h ∈ added ->
      h ∉ mirror_list tr row /\ h <> Self_Host (Config ss) /\ peer_holds h cid (sn_net s1) /\
      (h ∈ PlacementHosts (mu_upload u) \/ PlacementHosts (mu_upload u) = [] /\
       h ∈ take (Z.to_nat (ReplicationFactor (Config ss))) (rendezvousAllHosts sha256 ss cid).1))) as Hsame.
  { intros s1 E1 E2. split; [done|]. exists []. rewrite app_nil_r, set_mirrors_same, insert_id by done.
    split; [done|]. split; [constructor|]. intros h Hh. by apply not_elem_of_nil in Hh. }
  destruct (ShardCID cid) as [key|] eqn:Hk; [|by unfold replicateToHosts; rewrite Hk; apply Hsame].
  destruct (blobAttrs ss w key (sn_media s)) as [[attrs b]|] eqn:Ha; [|by unfold replicateToHosts; rewrite Hk, Ha; apply Hsame].
  assert (Self_Host (Config ss) ∉ target_hosts sha256 ss u cid existing) as Hself by (intros Hin; by apply target_host_is in Hin as [? _]).
  pose proof (replicate_effect sha256 url_parse ss arrive w u row cid key existing tr attrs b s Harr Hk Ha Hrow) as He. cbv zeta in He.
  pose proof (all_transfers sha256 url_parse ss w (target_hosts sha256 ss u cid existing) u cid tr b key (blob_size attrs) s Hself) as Ht.
  destruct (transfer_all _ _ _ _ _ _ _ _ _ _ _ s) as [s1 results]. destruct Ht as (_ & Hhosts & Hholds).
  destruct He as (E1 & E2 & (added & E3 & E4 & E5 & _) & _). split; [done|]. exists added. split; [done|]. split; [done|].
  intros h Hh. destruct (E5 h Hh) as [Hres Hno]. rewrite E1. split; [done|].
  assert (h ∈ target_hosts sha256 ss u cid existing) as Hin by (rewrite <- Hhosts; apply list_elem_of_fmap; by exists (h, None)).
  apply target_host_is in Hin as (T1 & _ & T3). split; [done|]. split; [auto|done].
Qed.

(** The query of the sweep, the check it repeats in process and what a worker goes on to
    attempt agree: a row the query selects passes the check, and one that passes the
    check and is this node's, with an original and not busy, is selected. *)
Lemma sweep_conditions_agree self rf u :
  under_replicated self rf u =
    String.eqb (CreatedBy u) self && negb (String.eqb (OrigFileCID (mu_upload u)) "") &&
    negb (String.eqb (mu_Status u) JobStatusBusy) && uploadNeedsReplication u rf.
Proof using.
  unfold under_replicated, uploadNeedsReplication, replicationTargetFor.
  destruct (PlacementHosts (mu_upload u)) as [|h hs]; cbn [length Z.of_nat]; [|rewrite (proj2 (Z.ltb_lt 0 _)) by lia];
    cbn [Z.ltb Z.compare]; f_equal; by destruct (Z.of_nat (length (Mirrors u)) <? _).
Qed.
End ReplicateTheorems.
