(* ===== verification/MediaNetwork.v ===== *)
(** * Replication across nodes

    The peers of MediaReplicate.v as nodes of MediaPull.v: a request reaches a node or is
    lost, and so is its answer.  Two rounds of requests with time for the transfers in between bring
    a blob to every host it is due at. *)

From stdpp Require Import base gmap strings list fin_maps.
From Stdlib Require Import ZArith Lia Ascii.
From S2P Require Import Prelude Crypto Rendezvous Snapshots MediaStore MediaPresence MediaRepair MediaProps MediaPull MediaReplicate.

Open Scope string_scope.
Open Scope Z_scope.

(** A peer: its configuration, its world while it answers, whether requests get to it
    and whether its answers come back. *)
Record peer_env := mkPeerEnv {
  pn_server : MediorumServer;
  pn_pull : pull_config;
  pn_world : world;
  reached : bool;
  answered : bool
}.

Notation network := (gmap string puller).

Section Network.
Context (sha256 : string -> string) (url_parse : string -> option (string * string)) (compute_cid : string -> string).

Section Peers.
(** The node that asks, and its peers. *)
Context (self : string) (env : string -> option peer_env).

Definition network_pull (host : string) (req : internalBlobPullRequest) (n : network) : network * option (Z * string) :=
  match env host, n !! host with
  | Some e, Some p =>
      if negb (reached e) then (n, None)
      else let (p', answer) := serveInternalBlobPull sha256 url_parse compute_cid (pn_server e) (pn_pull e) (pn_world e) self req p in
           (<[host := p']> n, if answered e then Some answer else None)
  | _, _ => (n, None)
  end.

Definition network_push (host cid : string) (placementHosts : list string) (body : string * bool) (n : network) : network * option Z :=
  match env host, n !! host with
  | Some e, Some p =>
      if negb (reached e) then (n, None)
      else let (p', answer) := serveInternalBlobPOST sha256 url_parse compute_cid (pn_server e) (pn_pull e) (pn_world e) cid placementHosts body p in
           (<[host := p']> n, if answered e then Some answer else None)
  | _, _ => (n, None)
  end.

Definition network_holds (host cid : string) (n : network) : Prop :=
  exists e p, env host = Some e /\ n !! host = Some p /\ holds (pn_server e) cid (pu_media p).

#[export] Instance network_peers : PeerNet network :=
  {| peer_pull := network_pull; peer_push := network_push; peer_holds := network_holds |}.

(** ** Storing never loses a blob *)

Lemma replicate_adds ss w cid file placement m bk :
  is_Some (blobs m !! bk) -> is_Some (blobs (replicateToMyBucket sha256 url_parse ss w cid file placement m).1 !! bk).
Proof using.
  intros Hb. unfold replicateToMyBucket. destruct (ShardCID cid) as [key|]; [|done]. cbn. unfold pbind.
  assert (is_Some (blobs (write_blob w (bucketForCID sha256 ss cid placement) key file m).1 !! bk)) as H.
  { unfold write_blob, store_blob. repeat case_match; cbn; try done; apply lookup_insert_is_Some'; by right. }
  destruct (write_blob _ _ _ _ m) as [m' []]; cbn in *; by rewrite ?cleanup_blobs, ?record_blobs.
Qed.

Lemma holds_adds ss cid m m' :
  (forall bk, is_Some (blobs m !! bk) -> is_Some (blobs m' !! bk)) -> holds ss cid m -> holds ss cid m'.
Proof using. intros H (key & b & Hk & Ha & Hb). exists key, b. auto. Qed.

Lemma validated_adds ss w host cid placement m bk :
  is_Some (blobs m !! bk) -> is_Some (blobs (pullFileFromHostValidated sha256 url_parse compute_cid ss w host cid placement m).1 !! bk).
Proof using.
  intros Hb. unfold pullFileFromHostValidated. repeat case_match; cbn; try done. by apply replicate_adds.
Qed.

Lemma enqueue_media job p : pu_media (enqueueAsyncPull job p).1 = pu_media p.
Proof using. unfold enqueueAsyncPull. by repeat case_match. Qed.

Lemma serve_adds ss pc w source req p bk :
  is_Some (blobs (pu_media p) !! bk) ->
  is_Some (blobs (pu_media (serveInternalBlobPull sha256 url_parse compute_cid ss pc w source req p).1) !! bk).
Proof using.
  intros Hb. unfold serveInternalBlobPull.
  pose proof (validated_adds ss w source (pq_CID req) (pq_PlacementHosts req) (pu_media p) bk Hb) as Hv.
  pose proof (enqueue_media (mkPullJob source (pq_CID req) (pq_PlacementHosts req) (pq_UploadID req) (pq_Transcoded req)) p) as He.
  repeat case_match; simplify_eq; cbn [fst pu_media set_pu_media] in *; try done; by rewrite He.
Qed.

Lemma push_adds ss pc w cid placement body p bk :
  is_Some (blobs (pu_media p) !! bk) ->
  is_Some (blobs (pu_media (serveInternalBlobPOST sha256 url_parse compute_cid ss pc w cid placement body p).1) !! bk).
Proof using.
  intros Hb. unfold serveInternalBlobPOST. set (pl := match validatePlacementHosts _ _ _ with Ok _ => _ | Err _ => _ end).
  pose proof (replicate_adds ss w cid body pl (pu_media p) bk Hb) as Hv.
  destruct (negb body.2); [done|]. destruct (negb (diskHasSpaceForCID _ _ _ _ _)); [done|]. destruct (negb (String.eqb _ _)); [done|].
  by destruct (replicateToMyBucket _ _ _ _ _ _ pl _) as [m []].
Qed.

Lemma network_holds_insert h c host p p' (n : network) :
  n !! host = Some p -> (forall bk, is_Some (blobs (pu_media p) !! bk) -> is_Some (blobs (pu_media p') !! bk)) ->
  network_holds h c n -> network_holds h c (<[host := p']> n).
Proof using.
  intros Hp Hadd (e & q & He & Hq & Hh). destruct (decide (h = host)) as [->|Hne].
  - rewrite Hp in Hq. injection Hq as <-. exists e, p'. rewrite lookup_insert_eq. split; [done|]. split; [done|]. by eapply holds_adds.
  - exists e, q. by rewrite lookup_insert_ne.
Qed.

Lemma push_ok ss pc w cid placement body p p' :
  serveInternalBlobPOST sha256 url_parse compute_cid ss pc w cid placement body p = (p', 200) -> holds ss cid (pu_media p').
Proof using.
  unfold serveInternalBlobPOST. set (pl := match validatePlacementHosts _ _ _ with Ok _ => _ | Err _ => _ end).
  destruct (negb body.2); [done|]. destruct (negb (diskHasSpaceForCID _ _ _ _ _)); [done|]. destruct (negb (String.eqb _ _)); [done|].
  destruct (replicateToMyBucket _ _ _ _ _ _ pl _) as [m [[]|]] eqn:E; [|done]. intros [= <-].
  destruct (ShardCID cid) as [key|] eqn:Ek; [|by unfold replicateToMyBucket in E; rewrite Ek in E].
  destruct (replicate_ok sha256 url_parse ss w cid key _ _ _ _ Ek E) as [_ Eb].
  exists key, (bucketForCID sha256 ss cid pl). split; [done|]. split; [apply bucketForCID_archive|]. cbn. by rewrite Eb, lookup_insert_eq.
Qed.

(** The nodes keep what the interface promises. *)
#[export] Instance network_laws : PeerNetLaws network.
Proof using.
  split; cbn [peer_pull peer_push peer_holds network_peers]; unfold network_pull, network_push.
  - intros host req n n' word H. destruct (env host) as [e|] eqn:Ee; [|done]. destruct (n !! host) as [p|]; [|done].
    destruct (negb (reached e)); [done|]. destruct (serveInternalBlobPull _ _ _ _ _ _ _ _ p) as [p' ans] eqn:Es.
    destruct (answered e); [|done]. injection H as <- ->. exists e, p'. rewrite lookup_insert_eq. split; [done|]. split; [done|].
    destruct (serve_answer _ _ _ _ _ _ _ _ _ _ _ _ Es) as [H200 _]. destruct (H200 eq_refl) as [(-> & Hh & _)|Hv]; [by eapply have_holds|].
    apply validated_ok in Hv as (key & b & x & Hk & Ha & Hb & _). by exists key, b.
  - intros host cid placement body n n' H. destruct (env host) as [e|] eqn:Ee; [|done]. destruct (n !! host) as [p|]; [|done].
    destruct (negb (reached e)); [done|]. destruct (serveInternalBlobPOST _ _ _ _ _ _ _ _ _ p) as [p' ans] eqn:Es.
    destruct (answered e); [|done]. injection H as <- ->. exists e, p'. rewrite lookup_insert_eq. split; [done|]. split; [done|].
    by eapply push_ok.
  - intros host req n h c Hh. destruct (env host) as [e|]; [|done]. destruct (n !! host) as [p|] eqn:Ep; [|done].
    destruct (negb (reached e)); [done|].
    pose proof (fun bk => serve_adds (pn_server e) (pn_pull e) (pn_world e) self req p bk) as Hadd.
    destruct (serveInternalBlobPull _ _ _ _ _ _ _ _ p) as [p' ans]. by eapply network_holds_insert.
  - intros host cid placement body n h c Hh. destruct (env host) as [e|]; [|done]. destruct (n !! host) as [p|] eqn:Ep; [|done].
    destruct (negb (reached e)); [done|].
    pose proof (fun bk => push_adds (pn_server e) (pn_pull e) (pn_world e) cid placement body p bk) as Hadd.
    destruct (serveInternalBlobPOST _ _ _ _ _ _ _ _ _ p) as [p' ans]. by eapply network_holds_insert.
Qed.
End Peers.

(** ** Sweeps *)

(** The node that replicates, the blob and the upload it belongs to. *)
Section Sweeps.
Context (ss : MediorumServer) (u0 : Upload) (cid key : string).
Notation self := (Self_Host (Config ss)).
Notation placement := (PlacementHosts u0).
Hypothesis Hkey : ShardCID cid = Some key.

(** A peer hears a request about the blob and can tell whether it has it. *)
Definition hears (e : peer_env) : Prop :=
  reached e = true /\ answered e = true /\ self <> "" /\ self <> Self_Host (Config (pn_server e)) /\ cid <> "" /\
  validatePlacementHosts (pn_server e) (pn_pull e) placement = Ok tt /\
  (forall b, io_fault (pn_world e) (IoExists b key) = false).

Definition has_room (size : Z) (e : peer_env) : Prop :=
  diskHasSpaceForCID sha256 (pn_server e) (pn_world e) cid placement = true /\
  localDirHasSpaceFor (pn_server e) (pn_world e) (pullStagingDir (pn_pull e)) (Z.max 0 size) = true.

(** A transfer of the blob is queued or running. *)
Definition moving (p : puller) : Prop := exists job, job ∈ transfers p /\ job_cid job = cid.
Definition under_way (e : peer_env) (p : puller) : Prop := holds (pn_server e) cid (pu_media p) \/ moving p.

(** A request finds the blob, joins its transfer or starts one. *)
Definition askable (size : Z) (e : peer_env) (p : puller) : Prop :=
  hears e /\ (holds (pn_server e) cid (pu_media p) \/
    has_room size e /\ pull_inv (pn_pull e) p /\ (moving p \/ (length (asyncPullQueue p) < asyncPullQueueDepth)%nat)).

Lemma serve_askable size e p id tr :
  askable size e p ->
  let '(p', (code, word)) := serveInternalBlobPull sha256 url_parse compute_cid (pn_server e) (pn_pull e) (pn_world e) self
                               (mkPullRequest cid placement id tr size true) p in
  pu_media p' = pu_media p /\ under_way e p' /\ (pull_inv (pn_pull e) p -> pull_inv (pn_pull e) p') /\
  (code = 200 /\ holds (pn_server e) cid (pu_media p) \/
   code = 202 /\ ~ holds (pn_server e) cid (pu_media p)).
Proof using Hkey.
  intros [(_ & _ & H1 & H2 & H3 & H4 & H5) Hp]. unfold serveInternalBlobPull. cbn [pq_CID pq_PlacementHosts pq_Size Async pq_UploadID pq_Transcoded].
  apply String.eqb_neq in H1, H2, H3. rewrite H1, H2, H3, H4.
  destruct (haveInMyBucket (pn_server e) (pn_world e) cid (pu_media p)) as [[]|er] eqn:Eh.
  - pose proof (have_holds _ _ _ _ Eh). split; [done|]. split; [by left|]. split; [done|]. by left.
  - destruct Hp as [Hh|([R1 R2] & Hi & Hq)]; [by rewrite (holds_have _ _ _ _ _ Hkey H5 Hh) in Eh|].
    rewrite R1, R2. cbn [negb]. set (job := mkPullJob _ _ _ _ _).
    assert (~ holds (pn_server e) cid (pu_media p)) as Hnh by (intros Hh; by rewrite (holds_have _ _ _ _ _ Hkey H5 Hh) in Eh).
    pose proof (enqueue_inv (pn_pull e) job p Hi) as Hi'. pose proof (enqueue_media job p) as Hm.
    destruct (enqueueAsyncPull job p) as [p' [a|e']] eqn:Ee; cbn [fst] in *.
    + pose proof (enqueue_answer _ _ _ _ Ee) as Ha. split; [done|]. split; [|split; [done|by right]]. right. destruct a.
      * destruct Ha as [_ Ha]. by exists job.
      * destruct Ha as [-> Ha]. by apply (inv_in_flight (pn_pull e)) in Ha.
    + exfalso. unfold enqueueAsyncPull in Ee. case_bool_decide as Hf; [done|].
      destruct Hq as [Hq|Hq]; [by apply Hf, (inv_in_flight (pn_pull e))|].
      apply Nat.ltb_lt in Hq. by rewrite Hq in Ee.
  - unfold haveInMyBucket in Eh. by rewrite Hkey in Eh.
Qed.

Section OneSweep.
Context (env : string -> option peer_env) (w : world) (u : mirrored_upload) (tr : bool) (b : bucket) (size : Z).
Hypothesis Hu : mu_upload u = u0.
#[local] Existing Instance network_peers.
#[local] Existing Instance network_laws.
Notation Net := (network_peers self env).

Definition asked (h : string) (n : network) : Prop := exists e p, env h = Some e /\ n !! h = Some p /\ askable size e p.
Definition due (h : string) (n : network) : Prop := exists e p, env h = Some e /\ n !! h = Some p /\ under_way e p /\ (holds (pn_server e) cid (pu_media p) \/ pull_inv (pn_pull e) p).

(** How a request to a host ends. *)
Definition ends (h : string) (n : network) (err : option peer_error) : Prop :=
  (err = None /\ network_holds env h cid n) \/
  ((err = Some errPeerPullAccepted \/ err = Some errPeerPullInProgress) /\ ~ network_holds env h cid n).

(** The nodes hold the same blobs. *)
Definition same_blobs (n n' : network) : Prop := forall h, pu_media <$> n' !! h = pu_media <$> n !! h.

Lemma same_blobs_holds n n' h : same_blobs n n' -> network_holds env h cid n' <-> network_holds env h cid n.
Proof using.
  intros Hs. specialize (Hs h). unfold network_holds.
  split; intros (e & p & He & Hp & Hh); rewrite Hp in Hs; cbn in Hs.
  - destruct (n !! h) as [q|] eqn:Eq; [|done]. injection Hs as Hs. exists e, q. by rewrite <- Hs.
  - destruct (n' !! h) as [q|] eqn:Eq; [|done]. injection Hs as Hs. exists e, q. by rewrite Hs.
Qed.

Lemma ask_one h s :
  h <> self -> asked h (sn_net s) ->
  let '(s', err) := replicateStoredFileToHost (P := Net) sha256 url_parse ss w h cid b key placement (ID u0) tr size s in
  ends h (sn_net s) err /\ same_blobs (sn_net s) (sn_net s') /\ due h (sn_net s') /\
  (forall h', asked h' (sn_net s) -> asked h' (sn_net s')) /\ (forall h', due h' (sn_net s) -> due h' (sn_net s')).
Proof using Hkey.
  intros Hne (e & p & He & Hp & Ha). unfold replicateStoredFileToHost, requestPeerPull.
  apply String.eqb_neq in Hne. rewrite Hne. cbn [peer_pull network_peers]. unfold network_pull. rewrite He, Hp.
  pose proof Ha as [(Hr & Hans & _) _]. rewrite Hr, Hans. cbn [negb].
  pose proof (serve_askable size e p (ID u0) tr Ha) as Hs.
  destruct (serveInternalBlobPull _ _ _ _ _ _ _ _ p) as [p' [code word]]. destruct Hs as (Hm & Hw & Hi & Hc).
  assert (same_blobs (sn_net s) (<[h := p']> (sn_net s))) as Hsame.
  { intros h'. destruct (decide (h' = h)) as [->|]; [by rewrite lookup_insert_eq, Hp; cbn; rewrite Hm|by rewrite lookup_insert_ne]. }
  assert (due h (<[h := p']> (sn_net s))) as Hdue.
  { exists e, p'. rewrite lookup_insert_eq. split_and!; try done. destruct Ha as [_ [Hh|(_ & Hpi & _)]]; [left; by rewrite Hm|right; auto]. }
  assert (forall h', asked h' (sn_net s) -> asked h' (<[h := p']> (sn_net s))) as Hasked.
  { intros h' Hh'. destruct (decide (h' = h)) as [->|]; [|by unfold asked in *; setoid_rewrite lookup_insert_ne].
    exists e, p'. rewrite lookup_insert_eq. split; [done|]. split; [done|]. destruct Ha as [H1 H2]. split; [done|]. rewrite Hm.
    destruct H2 as [H2|(H2 & H3 & _)]; [by left|]. destruct Hw as [Hw|Hw]; [left; by rewrite <- Hm|right; split_and!; auto]. }
  assert (forall h', due h' (sn_net s) -> due h' (<[h := p']> (sn_net s))) as Hdues.
  { intros h' Hh'. destruct (decide (h' = h)) as [->|]; [done|]. by unfold due in *; setoid_rewrite lookup_insert_ne. }
  assert (network_holds env h cid (sn_net s) <-> holds (pn_server e) cid (pu_media p)) as Hiff.
  { unfold network_holds. split; [intros (e' & q & He' & Hq & Hh)|intros Hh; by exists e, p].
    rewrite He in He'. rewrite Hp in Hq. by simplify_eq. }
  destruct Hc as [[-> Hh]|[-> Hh]]; cbn [read_answer Z.eqb Pos.eqb].
  - split; [left; split; [done|by apply Hiff]|done].
  - destruct (String.eqb word "in_progress"); cbn [isPullFallbackWorthy negb]; (split; [right; split; [auto|by rewrite Hiff]|done]).
Qed.

Lemma ask_all hosts s :
  self ∉ hosts -> (forall h, h ∈ hosts -> asked h (sn_net s)) ->
  let '(s', results) := transfer_all (P := Net) sha256 url_parse ss w hosts u cid tr b key size s in
  results.*1 = hosts /\ (forall h err, (h, err) ∈ results -> ends h (sn_net s) err) /\ same_blobs (sn_net s) (sn_net s') /\
  (forall h, h ∈ hosts -> due h (sn_net s')) /\ (forall h, due h (sn_net s) -> due h (sn_net s')).
Proof using Hkey Hu.
  revert s. induction hosts as [|h hosts IH]; intros s Hn Hall; cbn [transfer_all].
  { split_and!; try done; intros; by match goal with H : _ ∈ [] |- _ => apply not_elem_of_nil in H end. }
  apply not_elem_of_cons in Hn as [Hn1 Hn2]. rewrite Hu.
  pose proof (ask_one h s (not_eq_sym Hn1) (Hall h ltac:(by left))) as H1.
  destruct (replicateStoredFileToHost _ _ _ _ _ _ _ _ _ _ _ _ _) as [s1 err]. destruct H1 as (E1 & B1 & D1 & K1 & M1).
  specialize (IH s1 Hn2). destruct (transfer_all _ _ _ _ hosts _ _ _ _ _ _ s1) as [s2 results].
  destruct IH as (I1 & I2 & I3 & I4 & I5); [intros h' Hh'; apply K1, Hall; by right|].
  split_and!.
  - cbn. by rewrite I1.
  - intros h' e Hin. apply elem_of_cons in Hin as [[= -> ->]|Hin]; [done|]. specialize (I2 h' e Hin). unfold ends in *.
    by rewrite (same_blobs_holds _ _ h' B1) in I2.
  - intros h'. by rewrite I3, B1.
  - intros h' Hh'. apply elem_of_cons in Hh' as [->|Hh']; auto.
  - auto.
Qed.
End OneSweep.

(** ** Between the rounds *)

(** A transfer of the blob that finds it at its source and room to store it. *)
Definition delivers (sp : MediorumServer) (w : world) (job : asyncPullJob) : Prop :=
  sourceHost job <> Self_Host (Config sp) /\ io_fault w (IoStaging cid) = false /\
  writable w (bucketForCID sha256 sp cid (job_placement job)) key /\
  exists bytes, fetch w (sourceHost job) cid = Some (bytes, true) /\ compute_cid bytes = cid.

(** Nothing deletes blobs, and transfers of the blob deliver it. *)
Definition calm (sp : MediorumServer) (ev : pull_event) : Prop :=
  match ev with
  | EvBlobs _ => False
  | EvDone w job => job_cid job = cid -> delivers sp w job
  | _ => True
  end.

Lemma done_adds sp w job p p' bk :
  runAsyncPull sha256 url_parse compute_cid sp w job p = (p', Ok tt) ->
  is_Some (blobs (pu_media p) !! bk) -> is_Some (blobs (pu_media p') !! bk).
Proof using.
  unfold runAsyncPull. intros H Hb.
  pose proof (validated_adds sp w (sourceHost job) (job_cid job) (job_placement job) (pu_media p) bk Hb) as Hv.
  destruct (haveInMyBucket _ _ _ _) as [[]|]; [by simplify_eq| |done].
  destruct (pullFileFromHostValidated _ _ _ _ _ _ _ _ _) as [m [|[]]]; by simplify_eq.
Qed.

Lemma done_delivers sp w job p p' :
  job_cid job = cid -> delivers sp w job -> runAsyncPull sha256 url_parse compute_cid sp w job p = (p', Ok tt) ->
  holds sp cid (pu_media p').
Proof using Hkey.
  intros Hc (Hne & Hst & Hw & bytes & Hf & Hb). unfold runAsyncPull. rewrite Hc.
  destruct (haveInMyBucket sp w cid (pu_media p)) as [[]|] eqn:Eh; [intros [= <-]; by apply (have_holds sp w)| |done].
  unfold pullFileFromHostValidated. apply String.eqb_neq in Hne. rewrite Hne, Hf, Hst, Hb, String.eqb_refl. cbn [orb negb].
  destruct (replicate_writable sha256 url_parse sp w cid key bytes (job_placement job) (pu_media p) Hkey Hw) as (m & -> & Em).
  intros [= <-]. exists key, (bucketForCID sha256 sp cid (job_placement job)). split; [done|]. split; [apply bucketForCID_archive|].
  cbn. by rewrite Em, lookup_insert_eq.
Qed.

Lemma intake_media sp us p : pu_media (storeAllIntakeFromOp sp us p) = pu_media p.
Proof using. apply (intake_ind sp (fun q => pu_media q = pu_media p)); [|done]. intros job q Hq. by rewrite enqueue_media. Qed.

Lemma calm_step sp pc p ev p' :
  pull_inv pc p -> pull_step sha256 url_parse compute_cid sp pc p ev p' -> calm sp ev ->
  (holds sp cid (pu_media p) -> holds sp cid (pu_media p')) /\ (moving p -> moving p' \/ holds sp cid (pu_media p')).
Proof using Hkey.
  intros Hi Hs Hc. split.
  - apply holds_adds. intros bk Hb. destruct Hs as [p w source req|p w c pl body|p us|p job p' Ht|p w job p' Hj Hr|p m].
    + by apply serve_adds.
    + by apply push_adds.
    + by rewrite intake_media.
    + unfold asyncPullWorker in Ht. repeat case_match; by simplify_eq.
    + by apply (done_adds sp w job p p' bk Hr).
    + done.
  - intros (job & Hj & Ej).
    destruct (transfer_stays sha256 url_parse compute_cid sp pc p [ev] p' job Hi) as [Hin|[w Hev]]; [by eapply run_cons, run_nil|done|left; by exists job|].
    apply list_elem_of_singleton in Hev. subst ev. right. inversion Hs as [| | | |? ? ? pd Hjr Hrun|]; subst. apply (done_delivers sp w job p pd); [done|by apply Hc|done].
Qed.

Lemma calm_run sp pc p es p' :
  pull_inv pc p -> pull_run sha256 url_parse compute_cid sp pc p es p' -> Forall (calm sp) es ->
  holds sp cid (pu_media p) \/ moving p -> holds sp cid (pu_media p') \/ moving p'.
Proof using Hkey.
  intros Hi Hr. revert Hi. induction Hr as [|p ev p1 es p' Hs Hr IH]; intros Hi Hall Hh; [done|].
  apply Forall_cons in Hall as [Hc Hall]. destruct (calm_step sp pc p ev p1 Hi Hs Hc) as [H1 H2].
  apply IH; [by eapply step_inv|done|]. destruct Hh as [Hh|Hh]; [left; auto|]. destruct (H2 Hh); auto.
Qed.

(** The same when the node holds the blob already, whatever its queue. *)
Lemma calm_run_holds sp pc p es p' :
  pull_run sha256 url_parse compute_cid sp pc p es p' -> Forall (calm sp) es ->
  holds sp cid (pu_media p) -> holds sp cid (pu_media p').
Proof using.
  intros Hr. induction Hr as [|p ev p1 es p' Hs Hr IH]; intros Hall Hh; [done|].
  apply Forall_cons in Hall as [Hc Hall]. apply IH; [done|]. revert Hh.
  apply holds_adds. intros bk Hb. destruct Hs as [p w source req|p w c pl body|p us|p job p1 Ht|p w job p1 Hj Hr1|p m].
  - by apply serve_adds.
  - by apply push_adds.
  - by rewrite intake_media.
  - unfold asyncPullWorker in Ht. repeat case_match; by simplify_eq.
  - by apply (done_adds sp w job p p1 bk Hr1).
  - done.
Qed.
End Sweeps.

(** C12 -- Two rounds replicate a blob, where a round is one call of replicateToHosts for
    the blob; the worker's decision to make the call (its mirror-count gate and backoff)
    is not part of the statement.  Suppose that in both rounds the sender finds the blob
    in a bucket, its upload has a row, and in the second the row is read and written
    without a failure.  Suppose every host that is due a copy hears the requests of both
    rounds and, at the first, holds the blob, or has room for it and either has a transfer
    of it under way or can queue one more.  Let the peers run between the rounds in any
    order, as long as nothing deletes blobs, every transfer of this blob that ends
    delivers it, and none is under way when the second round starts.  Then the second
    round records every host that was due a copy before the first. *)
Theorem two_rounds_replicate (ss : MediorumServer)
    (arrive : list (string * option peer_error) -> list (string * option peer_error))
    (w1 w2 : world) (env1 env2 : string -> option peer_env) (u : mirrored_upload) (cid key : string) (tr : bool)
    (attrs1 attrs2 : blob) (b1 b2 : bucket) (s : sender network) (net2 : network) :
  (forall l, arrive l ≡ₚ l) -> ShardCID cid = Some key ->
  uploads_table s !! ID (mu_upload u) = Some u ->
  blobAttrs ss w1 key (sn_media s) = Ok (attrs1, b1) -> blobAttrs ss w2 key (sn_media s) = Ok (attrs2, b2) ->
  io_fault w2 (SqlRow (ID (mu_upload u))) = false -> io_fault w2 (SqlUpdateRow (ID (mu_upload u))) = false ->
  let self := Self_Host (Config ss) in
  let T := target_hosts sha256 ss u cid (mirror_list tr u) in
  (forall h, h ∈ T -> exists e1 e2 p, env1 h = Some e1 /\ env2 h = Some e2 /\ pn_server e2 = pn_server e1 /\ sn_net s !! h = Some p /\
     askable ss (mu_upload u) cid key (blob_size attrs1) e1 p /\ hears ss (mu_upload u) cid key e2) ->
  let s1 := (replicateToHosts (P := network_peers self env1) sha256 url_parse ss arrive w1 u cid (mirror_list tr u) tr s).1 in
  (forall h e1 p1, h ∈ T -> env1 h = Some e1 -> sn_net s1 !! h = Some p1 -> exists es p2,
     pull_run sha256 url_parse compute_cid (pn_server e1) (pn_pull e1) p1 es p2 /\ Forall (calm cid key (pn_server e1)) es /\
     ~ moving cid p2 /\ net2 !! h = Some p2) ->
  exists u1, uploads_table s1 !! ID (mu_upload u) = Some u1 /\
    let s2 := (replicateToHosts (P := network_peers self env2) sha256 url_parse ss arrive w2 u1 cid (mirror_list tr u1) tr (set_net net2 s1)).1 in
    exists u2, uploads_table s2 !! ID (mu_upload u) = Some u2 /\ forall h, h ∈ T -> h ∈ mirror_list tr u2.
Proof.
  intros Harr Hkey Hrow Ha1 Ha2 Hf1 Hf2 self T Hready s1 Hsettle.
  assert (self ∉ T) as Hself by (intros Hin; by apply target_host_is in Hin as [? _]).
  (* the first round *)
  pose proof (replicate_effect (L := network_laws self env1) sha256 url_parse ss arrive w1 u u cid key (mirror_list tr u) tr attrs1 b1 s
                Harr Hkey Ha1 Hrow) as He1. cbv zeta in He1. fold T s1 in He1.
  pose proof (ask_all ss (mu_upload u) cid key Hkey env1 w1 u tr b1 (blob_size attrs1) eq_refl T s Hself) as Hk1.
  destruct (transfer_all _ _ _ _ _ _ _ _ _ _ _ s) as [s1' results]. destruct He1 as (N1 & M1 & (added1 & R1 & _ & _ & _) & B1).
  destruct Hk1 as (Hhosts1 & Hends1 & _ & Hdue1 & _).
  { intros h Hh. destruct (Hready h Hh) as (e1 & e2 & p & E1 & _ & _ & Ep & Hask & _). by exists e1, p. }
  set (u1 := set_mirrors tr (app (mirror_list tr u) added1) u) in *.
  assert (mirror_list tr u1 = app (mirror_list tr u) added1 /\ mu_upload u1 = mu_upload u) as [Hl1 Hu1] by (by destruct tr).
  assert (uploads_table s1 !! ID (mu_upload u) = Some u1) as Hrow1 by (rewrite R1; apply lookup_insert_eq).
  exists u1. split; [done|]. intros s2.
  (* the second round *)
  assert (forall h, h ∈ T -> exists e2 p2, env2 h = Some e2 /\ net2 !! h = Some p2 /\ hears ss (mu_upload u) cid key e2 /\ holds (pn_server e2) cid (pu_media p2)) as Hnow.
  { intros h Hh. destruct (Hready h Hh) as (e1 & e2 & p & E1 & E2 & Es & Ep & _ & Hears). destruct (Hdue1 h Hh) as (e1' & p1 & E1' & Ep1 & Hw & Hor).
    rewrite E1 in E1'. injection E1' as <-. rewrite <- N1 in Ep1.
    destruct (Hsettle h e1 p1 Hh E1 Ep1) as (es & p2 & Hrun & Hcalm & Hno & Ep2). exists e2, p2. split_and!; try done. rewrite Es.
    destruct Hor as [Hh1|Hi]; [by eapply calm_run_holds|].
    by destruct (calm_run cid key Hkey (pn_server e1) (pn_pull e1) p1 es p2 Hi Hrun Hcalm Hw). }
  set (T2 := target_hosts sha256 ss u1 cid (mirror_list tr u1)) in *.
  assert (forall h, h ∈ T2 <-> h ∈ T /\ h ∉ added1) as HT2.
  { intros h. unfold T2, T, target_hosts. rewrite Hu1, Hl1, !list_elem_of_In, !filter_In, !andb_true_iff, !negb_true_iff, !bool_decide_eq_false, elem_of_app.
    rewrite <- !list_elem_of_In. tauto. }
  assert (self ∉ T2) as Hself2 by (intros Hin; by apply HT2 in Hin as [? _]).
  pose proof (replicate_effect (L := network_laws self env2) sha256 url_parse ss arrive w2 u1 u1 cid key (mirror_list tr u1) tr attrs2 b2 (set_net net2 s1)
                Harr Hkey) as He2. cbv zeta in He2. rewrite Hu1 in He2. cbn [sn_media set_net uploads_table] in He2. rewrite M1 in He2.
  specialize (He2 Ha2 Hrow1). fold T2 s2 in He2.
  pose proof (ask_all ss (mu_upload u) cid key Hkey env2 w2 u1 tr b2 (blob_size attrs2) Hu1 T2 (set_net net2 s1) Hself2) as Hk2.
  destruct (transfer_all _ _ _ _ _ _ _ _ _ _ _ (set_net net2 s1)) as [s2' results2].
  destruct He2 as (_ & _ & (added2 & R2 & _ & _ & Hall2) & _). destruct Hk2 as (Hhosts2 & Hends2 & _).
  { intros h Hh. apply HT2 in Hh as [Hh _]. destruct (Hnow h Hh) as (e2 & p2 & E2 & Ep2 & Hears & Hholds).
    exists e2, p2. split; [done|]. split; [done|]. split; [done|by left]. }
  exists (set_mirrors tr (app (mirror_list tr u1) added2) u1). split; [rewrite R2; apply lookup_insert_eq|].
  intros h Hh. assert (forall l v, mirror_list tr (set_mirrors tr l v) = l) as -> by (by destruct tr).
  destruct (decide (h ∈ added1)) as [Hin|Hin]; [rewrite Hl1, !elem_of_app; auto|].
  apply Hall2; [done..|]. assert (h ∈ T2) as Hh2 by by apply HT2. rewrite <- Hhosts2 in Hh2.
  apply list_elem_of_fmap in Hh2 as ([h' err] & -> & Hres).
  destruct (Hends2 _ _ Hres) as [[-> _]|[_ Hlack]]; [done|]. destruct Hlack.
  destruct (Hnow h' Hh) as (e2 & p2 & E2 & Ep2 & _ & Hholds). by exists e2, p2.
Qed.
End Network.
