(* ===== verification/MediaExamples.v ===== *)
(** * Storage nodes at work

    Concrete nodes for the theorems about repair, data loss and prune, and runs that
    show where the code loses what it means to keep. *)

From stdpp Require Import base gmap strings list sorting fin_maps.
From Stdlib Require Import ZArith Lia Ascii.
From S2P Require Import Prelude Crypto Rendezvous Snapshots EtlBase EtlDb MediaStore MediaPresence MediaRepair MediaProps MediaCycle MediaLoss MediaPrune MediaPull MediaReplicate MediaNetwork.

Open Scope string_scope.
Open Scope Z_scope.

(** ** A failed listing *)

(** When the buckets cannot be listed, a cycle does not fall back to looking
    blobs up one by one: it reads the presence store, and where that is empty (it is
    off by default) the index of every batch says that the node holds nothing. *)
Theorem failed_listing_hides_every_blob url_parse ss w n :
  CleanupMode (tracker n) = true -> blob_presence (n_media n) = ∅ -> io_fault w SqlBatch = false ->
  (exists m e, buildRepairPresenceIndex url_parse ss w (n_media n) = (m, Err e) /\ blob_presence m = ∅) ->
  exists n1, cycle_index url_parse ss w n = (n1, Ok None) /\
    forall cids keys, batch_keys cids [] = Some keys ->
      exists n2 idx, presenceForBatch ss None w cids n1 = (n2, Ok idx) /\ forall key b, Lookup idx key b = None.
Proof.
  intros Hc Hp Hb (m & e & E & Em). unfold cycle_index. rewrite Hc. cbn [negb andb]. unfold on_media. rewrite E.
  eexists. split; [done|]. intros cids keys Hk. unfold presenceForBatch, presenceForCIDs. rewrite Hk, Hb. cbn.
  assert (presence_rows ss keys m = ∅) as Hr by (unfold presence_rows; by rewrite Em, map_to_list_empty).
  destruct keys as [|k ks]; (eexists _, _; split; [done|]); intros key b; unfold Lookup; rewrite ?Hr; apply lookup_empty.
Qed.

(** ** A small network *)

Definition ex_hash (s : string) : string := s.
Definition ex_url (_ : string) : option (string * string) := None.
(** A CID is "ba" followed by the bytes. *)
Definition ex_cid (bytes : string) : string := "ba" +:+ bytes.

Definition ex_config (store_all : bool) : MediorumConfig :=
  mkMediorumConfig "a" 2 store_all false 0 "dev" "s3://primary" "" false.
Definition ex_server (store_all archive : bool) (hosts : list string) : MediorumServer :=
  mkMediorumServer (ex_config store_all) archive true (mkRendezvousHasher hosts).

Definition ex_world (t : Z) (answer : string -> string -> option (string * bool)) (us : list Upload) : world :=
  mkWorld t false (fun _ => false) (fun _ _ => None) (fun _ _ _ => Closed) (fun _ => None) (0, 0) answer ∅ us [] [].
(** The same, with some failures. *)
Definition with_faults (f : media_io -> bool) (w : world) : world :=
  mkWorld (now w) (ctx_done w) f (io_short w) (io_close w) (statfs w) (diskFree w) (fetch w) (peerHealths w)
    (uploads w) (audio_previews w) (qm_cids w).

Definition ex_media (l : list ((bucket * string) * blob)) : media := mkMedia (list_to_map l) ∅ ∅ ∅ ∅.
Definition ex_node (m : media) (t : RepairTracker) : node := mkNode m ∅ ∅ ∅ t.

Definition silent (_ _ : string) : option (string * bool) := None.
Definition bytes0 : string := "eaaaiq".
Definition cid0 : string := ex_cid bytes0.
Definition key0 : string := "aaaiq/baeaaaiq".
(** Only "b" has the blob. *)
Definition b_has (host cid : string) : option (string * bool) :=
  if String.eqb host "b" && String.eqb cid cid0 then Some (bytes0, true) else None.
Definition upload0 : Upload := mkUpload "u1" "audio" cid0 [] ∅ (Some 5).

Definition ex_policy : repairRetentionPolicy := newRepairRetentionPolicy (ex_config false) 0.

(** ** The theorems at work *)

Definition full_node : node := ex_node (ex_media [((Primary, key0), mkBlob bytes0 7)]) (new_tracker 0 true 1).

Lemma repair_keeps_required_blobs_witness :
  has_copy ex_cid (ex_server false false ["a"; "b"]) cid0 key0 (held_blobs full_node) /\
  has_copy ex_cid (ex_server false false ["a"; "b"]) cid0 key0
    (held_blobs (repairCidWithPolicy ex_hash ex_url ex_cid (ex_server false false ["a"; "b"]) (ex_world 9 silent []) cid0 []
       None ex_policy None full_node).1).
Proof.
  assert (has_copy ex_cid (ex_server false false ["a"; "b"]) cid0 key0 (held_blobs full_node)) as H.
  { exists Primary. split; [done|]. eexists. split; [reflexivity|]. right. reflexivity. }
  split; [exact H|].
  apply (repair_keeps_required_blobs ex_hash ex_url ex_cid (ex_server false false ["a"; "b"]) (ex_world 9 silent []) cid0 key0 []
           None ex_policy None full_node); [reflexivity|reflexivity|vm_compute; reflexivity|reflexivity|reflexivity|exact H].
Defined.

Definition empty_node : node := ex_node (ex_media []) (new_tracker 0 false 2).

Lemma scan_leaves_nothing_missing_witness :
  exists n', scroll (ex_server false false ["a"; "b"]) (Some ∅) 2
      (scroll_uploads ex_hash ex_url ex_cid (ex_server false false ["a"; "b"]) ex_policy)
      (fun _ _ => ex_world 9 b_has [upload0]) 0 empty_node = (n', Ok true) /\
    held (ex_server false false ["a"; "b"]) key0 (n_media n').
Proof.
  destruct (scan_leaves_nothing_missing ex_hash ex_url ex_cid (ex_server false false ["a"; "b"]) ex_policy ∅ [upload0]
              (fun _ _ => ex_world 9 b_has [upload0])) with (fuel := 2%nat) (n := empty_node) as (n' & E & _ & H).
  - apply NoDup_singleton.
  - intros i j. split; try reflexivity; intros; reflexivity.
  - reflexivity.
  - intros i j u ->%list_elem_of_singleton cid Hc.
    assert (cid = cid0) as -> by (by apply list_elem_of_singleton in Hc).
    right. split; [by eexists|]. split; [reflexivity|]. intros _. exists "b", bytes0.
    split; [|split; [done|reflexivity]]. apply list_elem_of_In. vm_compute. auto.
  - split; [reflexivity|intros key b [v Hv]|intros k [v Hv]]; cbn in Hv; by rewrite lookup_empty in Hv.
  - intros k b [v Hv]. discriminate Hv.
  - cbn. lia.
  - exists n'. split; [exact E|]. apply (H upload0 cid0 key0); [by apply list_elem_of_singleton|reflexivity| |done| | |].
    + by apply list_elem_of_singleton.
    + vm_compute. reflexivity.
    + apply not_elem_of_empty.
    + reflexivity.
Defined.

(** Five repairs on a network that is silent, the last two of which ask everyone, the
    last a week after the first. *)
Definition in_cycle (failing : Z) : loss_event :=
  Elsewhere (ex_media []) ∅ ∅ (set_peers 5 (set_evidence ∅ {[ cid0 := failing ]} (new_tracker 0 false 2))).
Definition repair_on (d : Z) : loss_event :=
  Repair (ex_world (d * media_day) silent []) cid0 [] (Some ∅) ex_policy None.
Definition ex_history : list loss_event :=
  [in_cycle 0; repair_on 0; in_cycle 1; repair_on 1; in_cycle 2; repair_on 2; in_cycle 3; repair_on 3; in_cycle 4; repair_on 7].
Notation ex_losses := (loss_run ex_hash ex_url ex_cid (ex_server false false ["a"; "b"]) empty_node).

Lemma losses_are_declared_on_evidence_witness :
  declared_in (ex_losses (take 8 ex_history)) cid0 = None /\
  declared_in (ex_losses ex_history) cid0 = Some (7 * media_day) /\
  evidence ex_hash (ex_server false false ["a"; "b"]) cid0
    (trace ex_hash ex_url ex_cid (ex_server false false ["a"; "b"]) empty_node ex_history) (7 * media_day).
Proof.
  assert (declared_in (ex_losses ex_history) cid0 = Some (7 * media_day)) as H by (vm_compute; reflexivity).
  split; [vm_compute; reflexivity|]. split; [exact H|].
  apply (losses_are_declared_on_evidence ex_hash ex_url ex_cid (ex_server false false ["a"; "b"]) empty_node ex_history [] cid0
           (7 * media_day)); [reflexivity|exact H].
Defined.

(** A node whose evidence on the CID is four failures. *)
Definition failing_node : node :=
  mkNode (ex_media []) {[ cid0 := mkLossRow 0 (3 * media_day) 4 true None None None ]} ∅ ∅
    (set_peers 5 (set_evidence ∅ {[ cid0 := 4 ]} (new_tracker 0 false 2))).

Definition prune_world : world := ex_world (60 * media_day) silent [upload0].
Definition prune_audio : pruneRequest := mkPruneRequest [pruneTaskUnpublished] [] true 10.

(** A listing that fails on a node that holds a blob. *)
Definition no_list (io : media_io) : bool := match io with IoList _ => true | _ => false end.
Definition unlisted_world (answer : string -> string -> option (string * bool)) (us : list Upload) : world :=
  with_faults no_list (ex_world 9 answer us).

Lemma failed_listing_hides_every_blob_witness :
  exists n1, cycle_index ex_url (ex_server false false ["a"; "b"]) (unlisted_world silent []) full_node = (n1, Ok None) /\
    forall cids keys, batch_keys cids [] = Some keys ->
      exists n2 idx, presenceForBatch (ex_server false false ["a"; "b"]) None (unlisted_world silent []) cids n1 = (n2, Ok idx) /\
        forall key b, Lookup idx key b = None.
Proof.
  apply (failed_listing_hides_every_blob ex_url (ex_server false false ["a"; "b"]) (unlisted_world silent []) full_node);
    [reflexivity|reflexivity|reflexivity|]. eexists _, _. split; reflexivity.
Defined.

(** ** Prune at work *)

Definition text_track (id : Z) (text : gmap string string) : track_row :=
  mkTrackRow id 1 true false None text ∅ ∅ ∅ 0 None None None None None [] ∅ None 0 0 "tx" 1.
Definition index_of (ts : list track_row) : prune_index :=
  mkPruneIndex
    (mkEtlDb
       (mkEmDb [] [] [] [] [] [] [] [] [] [] ts [] [] (mkTalkDb [] [] [] [] [] [])
          (mkDeskDb [] [] [] [] [] [] [] [] None) (mkShelfDb [] [] [] [] [] [] [] []))
       (mkChainDb [] [] [] ∅ [] [] [] [] [] [] [] [] [] [] []))
    true (fun _ => false).

(** One track, of another file. *)
Definition other_track : prune_index := index_of [text_track 1 {[ "track_cid" := "baother" ]}].
Definition pruned : node :=
  (runPrune ex_url (ex_server false false ["a"; "b"]) other_track (fun _ => prune_world) (fun _ => false) prune_audio full_node).1.1.

Lemma prune_keeps_published_audio_witness :
  held_blobs full_node !! (Primary, key0) = Some (mkBlob bytes0 7) /\ held_blobs pruned !! (Primary, key0) = None /\
  exists c, abandoned other_track (fun _ => prune_world) c /\ ShardCID c = Some key0.
Proof.
  assert (held_blobs full_node !! (Primary, key0) = Some (mkBlob bytes0 7)) as H1 by reflexivity.
  assert (held_blobs pruned !! (Primary, key0) = None) as H2 by (vm_compute; reflexivity).
  split; [exact H1|]. split; [exact H2|].
  destruct (prune_keeps_published_audio ex_url (ex_server false false ["a"; "b"]) other_track (fun _ => prune_world)
              (fun _ => false) prune_audio full_node (List.Forall_nil _)) as (H & _ & _).
  destruct (H Primary key0) as [E|[_ Hc]]; [|exact Hc].
  exfalso. unfold pruned in H2. rewrite E, H1 in H2. discriminate H2.
Defined.

(** A second upload of the same picture, which no row references by its own ID: the
    picture of the first upload, which a track references by the upload's ID, goes. *)
Definition picture (id : string) : Upload := mkUpload id "img_square" cid0 [] ∅ (Some 5).
Definition cover_track : prune_index := index_of [text_track 1 {[ "cover_art_sizes" := "first" ]}].
Example shared_picture_is_pruned :
  held_blobs (pruneUnpublishedTemplate ex_url (ex_server false false ["a"; "b"]) cover_track
    (ex_world (60 * media_day) silent [picture "first"; picture "second"]) (fun _ => false) true 10 "img_square"
    (full_node, mkPruneResult pruneTaskUnpublished false 0 0 0 0 "")).1.1 !! (Primary, key0) = None.
Proof. vm_compute. reflexivity. Qed.

(** A page of one: the second of two abandoned uploads is never reached. *)
Definition upload1 : Upload := mkUpload "u2" "audio" "babbbbb" [] ∅ (Some 6).
Definition two_uploads : world := ex_world (60 * media_day) silent [upload0; upload1].
Definition prune_one (n : node) : node :=
  (runPrune ex_url (ex_server false false ["a"; "b"]) other_track (fun _ => two_uploads) (fun _ => false)
     (mkPruneRequest [pruneTaskUnpublished] [] true 1) n).1.1.
Definition two_blobs : node :=
  ex_node (ex_media [((Primary, key0), mkBlob bytes0 7); ((Primary, "bbbbb/babbbbb"), mkBlob "bbbbb" 7)]) (new_tracker 0 true 1).
Example prune_does_not_move_on :
  held_blobs (prune_one two_blobs) !! (Primary, key0) = None /\
  held_blobs (prune_one (prune_one two_blobs)) !! (Primary, "bbbbb/babbbbb") = Some (mkBlob "bbbbb" 7).
Proof. vm_compute. split; reflexivity. Qed.

(** ** Repairs that go wrong *)

(** A CID that starts with "ba" and is shorter than five characters has no key. *)
Example short_cid_panics :
  (repairCidWithPolicy ex_hash ex_url ex_cid (ex_server false false ["a"; "b"]) (ex_world 9 silent []) "bab" [] (Some ∅)
     ex_policy None empty_node).2 = Err MPanic.
Proof. vm_compute. reflexivity. Qed.

(** After a failed listing a good copy is pulled anew; when the body breaks off, what
    came of it replaces the copy. *)
Definition cut_short (host cid : string) : option (string * bool) :=
  if String.eqb host "b" then Some ("ea", false) else None.
Example hidden_blob_is_overwritten :
  (scroll_batch (ex_server false false ["a"; "b"]) None
     (scroll_uploads ex_hash ex_url ex_cid (ex_server false false ["a"; "b"]) ex_policy)
     (fun _ => unlisted_world cut_short [upload0]) full_node).2 = Ok More /\
  held_blobs (scroll_batch (ex_server false false ["a"; "b"]) None
     (scroll_uploads ex_hash ex_url ex_cid (ex_server false false ["a"; "b"]) ex_policy)
     (fun _ => unlisted_world cut_short [upload0]) full_node).1 !! (Primary, key0) = Some (mkBlob "ea" 9).
Proof. vm_compute. split; reflexivity. Qed.

(** An archive copy that cannot be read to its end is not validated, and the good copy
    in the primary bucket is dropped as its duplicate. *)
Definition two_copies : node :=
  ex_node (ex_media [((Primary, key0), mkBlob bytes0 7); ((Archive, key0), mkBlob "junk" 7)]) (new_tracker 0 true 1).
Definition listed : repairPresenceIndex :=
  {[ (key0, Primary) := mkPresenceEntry 6 7 ]} ∪ {[ (key0, Archive) := mkPresenceEntry 4 7 ]}.
Definition unreadable (io : media_io) : bool := match io with IoBody Archive _ => true | _ => false end.
Definition archive_server : MediorumServer := ex_server true true ["A"; "B"; "a"].
Example unread_archive_costs_the_good_copy :
  let n' := (repairCidWithPolicy ex_hash ex_url ex_cid archive_server (with_faults unreadable (ex_world 9 silent [])) cid0 []
               (Some listed) ex_policy None two_copies).1 in
  held_blobs n' !! (Primary, key0) = None /\ held_blobs n' !! (Archive, key0) = Some (mkBlob "junk" 7).
Proof. vm_compute. split; reflexivity. Qed.

(** A placed CID is declared lost although a host outside its placement serves it. *)
Example placed_loss_is_not_asked_everywhere :
  declared_in (repairCidWithPolicy ex_hash ex_url ex_cid (ex_server false false ["a"; "b"; "d"])
    (ex_world (8 * media_day) b_has []) cid0 ["a"; "d"] (Some ∅) ex_policy None failing_node).1 cid0 = Some (8 * media_day).
Proof. vm_compute. reflexivity. Qed.

(** Moving a blob leaves its row in the presence store. *)
Lemma dropFromBucket_keeps_row w b key m : blob_presence (dropFromBucket w b key m).1 = blob_presence m.
Proof. unfold dropFromBucket, bucket_delete. repeat case_match; simplify_eq; done. Qed.

(** A request is accepted while another one runs: its slot is already free. *)
Example prune_is_queued_while_one_runs :
  (servePrune (startPruner ex_url (ex_server false false ["a"; "b"]) other_track (fun _ => prune_world) (fun _ => false)
                 (Some prune_audio) full_node).1 prune_audio).1 = 202.
Proof. vm_compute. reflexivity. Qed.

(** ** Concrete runs of replication *)

(** Two nodes, "a" with a blob and "b" without. *)
Definition ex_host (h : string) : MediorumServer :=
  mkMediorumServer (mkMediorumConfig h 2 false false 0 "dev" "s3://primary" "" false) false true (mkRendezvousHasher ["a"; "b"]).
Definition ex_pull : pull_config := mkPullConfig 0 ["a"; "b"] "" "/tmp".
Definition a_serves (host cid : string) : option (string * bool) :=
  if String.eqb host "a" && String.eqb cid cid0 then Some (bytes0, true) else None.
Definition pull_world : world := ex_world 100 a_serves [].
Definition with_blob : media := ex_media [((Primary, key0), mkBlob bytes0 0)].
Definition ex_request : internalBlobPullRequest := mkPullRequest cid0 [] "u1" false 6 true.
Definition ex_job : asyncPullJob := mkPullJob "a" cid0 [] "u1" false.

Notation ex_run := (pull_run ex_hash ex_url ex_cid (ex_host "b") ex_pull).
Notation ex_serve := (serveInternalBlobPull ex_hash ex_url ex_cid (ex_host "b") ex_pull).

Definition b_start : puller := fresh (ex_media []).
Definition b_accepted : puller := (ex_serve pull_world "a" ex_request b_start).1.
Definition b_taken : puller := mkPuller (ex_media []) [] {[cid0]} [ex_job].
Definition b_done : puller := worker_done ex_job (runAsyncPull ex_hash ex_url ex_cid (ex_host "b") pull_world ex_job b_taken).1.

Lemma accepted_run : ex_run b_accepted [EvTake; EvDone pull_world ex_job] b_done.
Proof.
  apply run_cons with b_taken; [by apply step_take with ex_job|].
  apply run_cons with b_done; [|apply run_nil]. apply step_done; [by left|by vm_compute].
Qed.

Lemma one_transfer_per_blob_witness :
  ex_run b_start [EvPull pull_world "a" ex_request] b_accepted /\ transfers b_accepted = [ex_job] /\
  (cid0 ∈ asyncPullInFlight b_accepted <-> exists job, job ∈ transfers b_accepted /\ job_cid job = cid0).
Proof.
  assert (ex_run b_start [EvPull pull_world "a" ex_request] b_accepted) as H by (eapply run_cons, run_nil; constructor).
  split; [exact H|]. split; [reflexivity|].
  exact (proj1 (one_transfer_per_blob ex_hash ex_url ex_cid (ex_host "b") ex_pull (ex_media []) _ _ H) cid0).
Defined.

(** A transfer that fails: "a" does not serve the blob. *)
Definition deaf_world : world := ex_world 100 silent [].
Definition b_failed : puller := worker_done ex_job (runAsyncPull ex_hash ex_url ex_cid (ex_host "b") deaf_world ex_job b_taken).1.

Lemma pull_answers_tell_the_truth_witness :
  ex_serve pull_world "a" ex_request b_start = (b_accepted, (202, "accepted")) /\
  (ex_serve pull_world "a" ex_request b_failed).2 = (202, "accepted") /\
  haveInMyBucket (ex_host "b") pull_world cid0 (pu_media b_failed) = Ok false.
Proof.
  split; [reflexivity|]. split; [vm_compute; reflexivity|].
  apply (pull_answers_tell_the_truth ex_hash ex_url ex_cid (ex_host "b") ex_pull (ex_media []) [] b_start b_accepted
           pull_world "a" ex_request 202 "accepted" (run_nil _ _ _ _ _ b_start) eq_refl)
    with (es' := [EvTake; EvDone deaf_world ex_job]) (source2 := "a") (req2 := ex_request);
    [reflexivity|reflexivity| |reflexivity|vm_compute; reflexivity].
  apply run_cons with b_taken; [by apply step_take with ex_job|].
  apply run_cons with b_failed; [|apply run_nil]. apply step_done; [by left|by vm_compute].
Defined.

(** ** Sending *)

Definition ex_env (h : string) : option peer_env :=
  if String.eqb h "b" then Some (mkPeerEnv (ex_host "b") ex_pull pull_world true true) else None.
Definition ex_upload : mirrored_upload := mkMirrored upload0 ["a"] [] "" "a" "".
Definition ex_sender (n : gmap string puller) : sender (gmap string puller) :=
  mkSender with_blob {["u1" := ex_upload]} ∅ ∅ [] n.
Notation ex_peers := (network_peers ex_hash ex_url ex_cid "a" ex_env).
Notation ex_replicate := (replicateToHosts (P := ex_peers) ex_hash ex_url (ex_host "a") id pull_world).

Lemma recorded_mirrors_hold_the_blob_witness :
  uploads_table (ex_sender {["b" := fresh with_blob]}) !! ID (mu_upload ex_upload) = Some ex_upload /\
  (exists added, uploads_table (ex_replicate ex_upload cid0 ["a"] false (ex_sender {["b" := fresh with_blob]})).1 =
     <["u1" := set_mirrors false (app ["a"] added) ex_upload]> {["u1" := ex_upload]} /\ NoDup added).
Proof.
  split; [reflexivity|].
  destruct (recorded_mirrors_hold_the_blob (L := network_laws ex_hash ex_url ex_cid "a" ex_env) ex_hash ex_url (ex_host "a") id pull_world ex_upload ex_upload cid0 ["a"] false (ex_sender {["b" := fresh with_blob]})
    (fun l => reflexivity l) eq_refl) as (_ & added & H1 & H2 & _).
  exists added. split; [exact H1|exact H2].
Defined.

Lemma mirror_is_recorded :
  Mirrors <$> uploads_table (ex_replicate ex_upload cid0 ["a"] false (ex_sender {["b" := fresh with_blob]})).1 !! "u1" = Some ["a"; "b"].
Proof. vm_compute. reflexivity. Qed.

Lemma b_hears : hears (ex_host "a") upload0 cid0 key0 (mkPeerEnv (ex_host "b") ex_pull pull_world true true).
Proof. by split_and!. Qed.

Lemma job_delivers : delivers ex_hash ex_cid cid0 key0 (ex_host "b") pull_world ex_job.
Proof. split; [done|]. split; [reflexivity|]. split; [by split_and!|]. by exists bytes0. Qed.

Lemma two_rounds_replicate_witness :
  let s := ex_sender {["b" := b_start]} in
  let s1 := (ex_replicate ex_upload cid0 ["a"] false s).1 in
  sn_net s1 !! "b" = Some b_accepted /\
  exists u1, uploads_table s1 !! "u1" = Some u1 /\
    exists u2, uploads_table (ex_replicate u1 cid0 (Mirrors u1) false (set_net {["b" := b_done]} s1)).1 !! "u1" = Some u2 /\ "b" ∈ Mirrors u2.
Proof.
  intros s s1. assert (sn_net s1 !! "b" = Some b_accepted) as Hb by (vm_compute; reflexivity). split; [exact Hb|].
  destruct (two_rounds_replicate ex_hash ex_url ex_cid (ex_host "a") id pull_world pull_world ex_env ex_env ex_upload cid0 key0 false
    (mkBlob bytes0 0) (mkBlob bytes0 0) Primary Primary s {["b" := b_done]} (fun l => reflexivity l)
    eq_refl eq_refl eq_refl eq_refl eq_refl eq_refl) as (u1 & H1 & u2 & H2 & H3).
  - intros h Hh. assert (h = "b") as -> by (apply list_elem_of_singleton; exact Hh).
    exists (mkPeerEnv (ex_host "b") ex_pull pull_world true true), (mkPeerEnv (ex_host "b") ex_pull pull_world true true), b_start.
    split_and!; try reflexivity; [|apply b_hears]. split; [apply b_hears|]. right. split; [split; reflexivity|]. split; [apply fresh_inv|].
    right. apply Nat.ltb_lt. reflexivity.
  - intros h e1 p1 Hh He Hp. assert (h = "b") as -> by (apply list_elem_of_singleton; exact Hh). injection He as <-.
    assert (p1 = b_accepted) as ->.
    { change (sn_net s1 !! "b" = Some p1) in Hp. congruence. }
    exists [EvTake; EvDone pull_world ex_job], b_done. split; [apply accepted_run|]. split.
    + constructor; [exact I|]. constructor; [|constructor]. intros _. apply job_delivers.
    + split; [|reflexivity]. intros (job & Hj & _). vm_compute in Hj. by apply not_elem_of_nil in Hj.
  - exists u1. split; [exact H1|]. exists u2. split; [exact H2|]. apply H3. by apply list_elem_of_singleton.
Defined.

(** A CID too short to be sharded, in an upload of the chain, ends the process of a
    node that stores everything: the intake queues it unchecked and the worker panics. *)
Definition short_upload : mirrored_upload := mkMirrored (mkUpload "u9" "audio" "ba" [] ∅ (Some 5)) [] [] "" "a" "".
Definition b_storing : MediorumServer :=
  mkMediorumServer (mkMediorumConfig "b" 2 true false 0 "dev" "s3://primary" "" false) false true (mkRendezvousHasher ["a"; "b"]).

Lemma short_cid_ends_a_worker :
  match asyncPullWorker ex_pull (storeAllIntakeFromOp b_storing [short_upload] b_start) with
  | Some (job, p) => (runAsyncPull ex_hash ex_url ex_cid b_storing pull_world job p).2 = Err MPanic
  | None => False
  end.
Proof. vm_compute. reflexivity. Qed.

(** Answers 202 of a peer that does not say whether it is still at work are taken for
    acceptances in turn: the backoff of the upload is cleared by every other of them,
    though the transfer may never have ended. *)
Lemma bare_acceptances_alternate :
  let s := ex_sender ∅ in
  let '(s1, o1) := notePullHandoff 0 "b" cid0 (read_answer (Some (202, ""))) s in
  let '(s2, o2) := notePullHandoff 1 "b" cid0 (read_answer (Some (202, ""))) s1 in
  let '(_, o3) := notePullHandoff 2 "b" cid0 (read_answer (Some (202, ""))) s2 in
  (o1, o2, o3) = (pullHandoffFresh, pullHandoffRepeat, pullHandoffFresh).
Proof. reflexivity. Qed.
