(* ===== verification/MediaAccess.v ===== *)
(** * Who is served what

    Models the public read side of a storage node: the signature of a stream request
    (server/signature/signature.go), the delist table and the gating of tracks, the
    handlers that serve blobs and images (serve_blob.go, serve_image.go), the tagged
    stream (id3.go, tagged_stream.go), the queue of plays (play_event_queue.go) and
    the delist statuses a node polls (delist_statuses.go).

    The tables sound_recordings and management_keys are those the block finalizer of
    the core writes ([track_tables]).  Headers of responses, byte ranges, and the
    daily and monthly counters are left out; a body stands for what http.ServeContent
    is given. *)

From stdpp Require Import base gmap strings list fin_maps.
From Stdlib Require Import ZArith Lia Ascii SpecFloat.
From S2P Require Import Prelude Crypto AuthEnforcement Encoding Rendezvous Snapshots MediaStore MediaPresence MediaFetch MediaReplicate.

Open Scope string_scope.
Open Scope Z_scope.

(** ** Signatures of requests *)

Record SignatureData := mkSignatureData {
  sd_UploadID : string;
  sd_Cid : string;
  sd_ShouldCache : Z;
  sd_Timestamp : Z;
  sd_TrackId : Z;
  sd_UserID : Z
}.

Record RecoveredSignature := mkRecoveredSignature {
  DataHash : string;
  sig_Data : SignatureData;
  SignerWallet : string
}.

Section Signature.
Context {C : EthCrypto}.
(** json.Unmarshal of an envelope ([Some None] for null, else its Data and Signature)
    and of the data, and jcs.Transform. *)
Context (read_envelope : string -> option (option (string * string))).
Context (jcs_Transform : string -> option string).
Context (read_data : string -> option SignatureData).

(** accounts.TextHash. *)
Definition TextHash (data : string) : string :=
  keccak256 (String "025" ("Ethereum Signed Message:" +:+ String "010" (FormatInt (Z.of_nat (String.length data)) +:+ data))).

Definition normalize_v (sig : string) : string :=
  update_byte 64 (fun c => if (27 <=? N_of_ascii c)%N then byte_sub 27 c else c) sig.

Definition ParseFromQueryString (queryStringValue : string) : res media_error RecoveredSignature :=
  match read_envelope queryStringValue with
  | None => Err (MErr "envelope")
  | Some None => Err MPanic
  | Some (Some (data, signature)) =>
      match jcs_Transform data with
      | None => Err (MErr "jcs")
      | Some inner =>
          let hash := keccak256 inner in
          let hash2 := TextHash hash in
          if (String.length signature <? 2)%nat then Err MPanic
          else match hex_decode (str_drop 2 signature) with
               | None => Err (MErr "hex")
               | Some signatureBytes =>
                   if (String.length signatureBytes <? 65)%nat then Err (MErr "Invalid signature length")
                   else match SigToPub hash2 (normalize_v signatureBytes) with
                        | None => Err (MErr "recover")
                        | Some recoveredPubkey =>
                            match read_data data with
                            | None => Err (MErr "data")
                            | Some d => Ok (mkRecoveredSignature hash d (PubkeyToAddress recoveredPubkey))
                            end
                        end
               end
      end
  end.
End Signature.

(** ** Requests and responses *)

Inductive http_method := HEAD | GET.

Record request := mkRequest {
  rq_method : http_method;
  rq_path : string;
  Param : string -> string;
  QueryParam : string -> string
}.

Definition with_param (name value : string) (c : request) : request :=
  mkRequest (rq_method c) (rq_path c) (fun n => if String.eqb n name then value else Param c n) (QueryParam c).

(** strconv.ParseBool, false beside an error. *)
Definition ParseBool (s : string) : bool :=
  bool_decide (s ∈ ["1"; "t"; "T"; "true"; "TRUE"; "True"]).

(** A plain answer, a body without a response text, the bytes of a blob, and the two
    redirects: to a peer, and to a presigned URL of an object, which is good for a
    while. *)
Inductive response :=
| RText (status : Z) (text : string)
| RNoContent (status : Z)
| RContent (body : string)
| RRedirect (host : string)
| RSigned (b : bucket) (key : string) (expiry : Z).

(** ** The state of the serving side *)

Record trackAccessInfo := mkTrackAccessInfo {
  ta_TrackID : string;
  ManagementKeyCount : Z;
  DurationSeconds : spec_float
}.

Record delist_row := mkDelistRow {
  dl_createdAt : Z;
  dl_trackId : Z;
  dl_ownerId : Z;
  dl_trackCid : string;
  dl_delisted : bool;
  dl_reason : string
}.

Record PlayEvent := mkPlayEvent {
  pe_UserID : string;
  pe_TrackID : string;
  PlayTime : Z;
  pe_Signature : string;
  pe_City : string;
  pe_Country : string;
  pe_Region : string;
  RequestSignature : string
}.

(** The counters of reads. *)
Record read_metrics := mkReadMetrics {
  readMisses : Z;
  readRedirected : Z;
  readLocalHits : Z;
  readPullAttempts : Z;
  recentServed : list (string * string)
}.

(** A cached value carries the time it expires, a cache without expiration none.
    [pulls] lists the background pulls begun. *)
Record serving := mkServing {
  sv_media : media;
  sv_tables : track_tables;
  track_delist_statuses : list delist_row;
  trackAccessInfoCache : gmap string (trackAccessInfo * Z);
  redirectCache : gmap string string;
  bgPullBackoff : gmap string Z;
  imageCache : gmap string string;
  uploadOrigCidCache : gmap string string;
  metrics : read_metrics;
  plays : list PlayEvent;
  pulls : list string
}.

Definition upd_media m (s : serving) :=
  mkServing m (sv_tables s) (track_delist_statuses s) (trackAccessInfoCache s) (redirectCache s) (bgPullBackoff s)
    (imageCache s) (uploadOrigCidCache s) (metrics s) (plays s) (pulls s).
Definition upd_tables t (s : serving) :=
  mkServing (sv_media s) t (track_delist_statuses s) (trackAccessInfoCache s) (redirectCache s) (bgPullBackoff s)
    (imageCache s) (uploadOrigCidCache s) (metrics s) (plays s) (pulls s).
Definition upd_delists f (s : serving) :=
  mkServing (sv_media s) (sv_tables s) (f (track_delist_statuses s)) (trackAccessInfoCache s) (redirectCache s)
    (bgPullBackoff s) (imageCache s) (uploadOrigCidCache s) (metrics s) (plays s) (pulls s).
Definition upd_access f (s : serving) :=
  mkServing (sv_media s) (sv_tables s) (track_delist_statuses s) (f (trackAccessInfoCache s)) (redirectCache s)
    (bgPullBackoff s) (imageCache s) (uploadOrigCidCache s) (metrics s) (plays s) (pulls s).
Definition upd_redirects f (s : serving) :=
  mkServing (sv_media s) (sv_tables s) (track_delist_statuses s) (trackAccessInfoCache s) (f (redirectCache s))
    (bgPullBackoff s) (imageCache s) (uploadOrigCidCache s) (metrics s) (plays s) (pulls s).
Definition upd_pulls b f (s : serving) :=
  mkServing (sv_media s) (sv_tables s) (track_delist_statuses s) (trackAccessInfoCache s) (redirectCache s)
    (b (bgPullBackoff s)) (imageCache s) (uploadOrigCidCache s) (metrics s) (plays s) (f (pulls s)).
Definition upd_images f (s : serving) :=
  mkServing (sv_media s) (sv_tables s) (track_delist_statuses s) (trackAccessInfoCache s) (redirectCache s)
    (bgPullBackoff s) (f (imageCache s)) (uploadOrigCidCache s) (metrics s) (plays s) (pulls s).
Definition upd_origs f (s : serving) :=
  mkServing (sv_media s) (sv_tables s) (track_delist_statuses s) (trackAccessInfoCache s) (redirectCache s)
    (bgPullBackoff s) (imageCache s) (f (uploadOrigCidCache s)) (metrics s) (plays s) (pulls s).
Definition upd_metrics f (s : serving) :=
  mkServing (sv_media s) (sv_tables s) (track_delist_statuses s) (trackAccessInfoCache s) (redirectCache s)
    (bgPullBackoff s) (imageCache s) (uploadOrigCidCache s) (f (metrics s)) (plays s) (pulls s).
Definition upd_plays f (s : serving) :=
  mkServing (sv_media s) (sv_tables s) (track_delist_statuses s) (trackAccessInfoCache s) (redirectCache s)
    (bgPullBackoff s) (imageCache s) (uploadOrigCidCache s) (metrics s) (f (plays s)) (pulls s).

(** What the handlers ask the database. *)
Inductive access_query :=
| QDelist (cid : string)
| QRecording (cid : string)
| QKeyCount (track : string)
| QAuthority (track address : string)
| QCidsOfTrack (track : string)
| QInsertDelist (i : nat)
| QCommitDelists
| QDelistCursor.

(** The rest of MediorumConfig read here; peers and signers by their wallets. *)
Record serve_config := mkServeConfig {
  BlobStorageStreaming : bool;
  WalletIsRegistered : bool;
  Self_Wallet : string;
  Signers : list string;
  Peers : list string
}.

(** The rest of the world while a request is served: what a peer says of a blob, which
    queries fail, the row that is left when rows are scanned into one variable, the
    health of the database, the duration a probe of the upload found, whether a URL
    can be signed, the content type the driver recorded for bytes, where the client
    is, the signature of the listen, and for images which ids are ulids, the original
    of an upload as a peer knows it and the resized bytes. *)
Record web := mkWeb {
  hostHasBlob : string -> string -> bool;
  access_fault : access_query -> bool;
  scan : list string -> string;
  dbHealthy : bool;
  duration_row : string -> option spec_float;
  can_sign : bucket -> string -> bool;
  ContentType : string -> string;
  geo : option (string * string * string);
  listen_signature : option string;
  ulid_parses : string -> bool;
  peerGetUpload : string -> string -> option string;
  resize : string -> Z * Z -> string
}.

Definition five_minutes : Z := 300 * media_second.
Definition two_days : Z := 48 * media_hour.

(** ** Presigned URLs *)

(** float64(time.Second) and 1.1. *)
Definition f64_second : spec_float := S754_finite false 8388608000000000 (-23).
Definition presignedURLBufferRatio : spec_float := S754_finite false 4953959590107546 (-52).
Definition f64_mul : spec_float -> spec_float -> spec_float := SFmul 53 1024.

(** int64(f): towards zero; out of range, and not a number, the smallest on amd64. *)
Definition int64_of_f64 (f : spec_float) : Z :=
  match f with
  | S754_zero _ => 0
  | S754_finite s m e =>
      let z := Z.shiftl (Zpos m) e in
      let z := if s then - z else z in
      if (int64_min <=? z) && (z <=? int64_max) then z else int64_min
  | _ => int64_min
  end.

Definition presignedURLDefaultExpiry : Z := 2 * media_hour.
Definition presignedURLMinExpiry : Z := 300 * media_second.

Definition presignedURLExpiry (durationSeconds : spec_float) : Z :=
  if SFleb durationSeconds (S754_zero false) then presignedURLDefaultExpiry
  else
    let expiry := int64_of_f64 (f64_mul (f64_mul f64_second durationSeconds) presignedURLBufferRatio) in
    if expiry <? presignedURLMinExpiry then presignedURLMinExpiry else expiry.

(** ** Content types *)

Definition safeInlineMediaTypes : list string :=
  ["application/ogg"; "audio/aiff"; "audio/midi"; "audio/mpeg"; "audio/wave"; "image/bmp"; "image/gif"; "image/jpeg";
   "image/png"; "image/webp"; "image/x-icon"; "video/avi"; "video/mp4"; "video/webm"].

(** ** Tags *)

Definition syncSafe (size : Z) : string :=
  String (to_byte (Z.land (Z.shiftr size 21) 127))
   (String (to_byte (Z.land (Z.shiftr size 14) 127))
     (String (to_byte (Z.land (Z.shiftr size 7) 127))
       (String (to_byte (Z.land size 127)) ""))).

Definition be_uint32 (z : Z) : string :=
  String (to_byte (Z.shiftr z 24)) (String (to_byte (Z.shiftr z 16)) (String (to_byte (Z.shiftr z 8)) (String (to_byte z) ""))).

Definition createTextFrame (id value : string) : option string :=
  if String.eqb value "" then None
  else
    let content := String "000" value in
    Some (id +:+ be_uint32 (Z.of_nat (String.length content)) +:+ String "000" (String "000" content)).

Definition filterNilFrames (frames : list (option string)) : list string := omap id frames.

Definition buildID3v2Tag (title artist : string) : string :=
  let frames := filterNilFrames [createTextFrame "TIT2" title; createTextFrame "TPE1" artist] in
  let body := foldr String.append "" frames in
  "ID3" +:+ String "003" (String "000" (String "000" (syncSafe (Z.of_nat (String.length body)) +:+ body))).

(** The stream of a tag followed by a blob: the position in the whole, and the blob's
    own. *)
Record taggedStream := mkTaggedStream { ts_tag : string; ts_blob : string; ts_pos : Z; ts_blobPos : Z }.

(** io.Reader.Read of a blob into [n] bytes of buffer: what is left, up to [n]. *)
Definition blob_Read (n : nat) (t : taggedStream) : string := str_take n (str_drop (Z.to_nat (ts_blobPos t)) (ts_blob t)).

(** [None] is a panic: a position below zero. *)
Definition tagged_Read (n : nat) (t : taggedStream) : option (taggedStream * string) :=
  let tagLen := Z.of_nat (String.length (ts_tag t)) in
  if ts_pos t <? tagLen then
    if ts_pos t <? 0 then None
    else
      let got := str_take n (str_drop (Z.to_nat (ts_pos t)) (ts_tag t)) in
      Some (mkTaggedStream (ts_tag t) (ts_blob t) (ts_pos t + Z.of_nat (String.length got)) (ts_blobPos t), got)
  else
    let got := blob_Read n t in
    let k := Z.of_nat (String.length got) in
    Some (mkTaggedStream (ts_tag t) (ts_blob t) (ts_pos t + k) (ts_blobPos t + k), got).

Inductive whence := SeekStart | SeekCurrent | SeekEnd.

(** SeekEnd leaves the blob at its end before it is placed; where the blob is placed is
    never below zero. *)
Definition tagged_Seek (offset : Z) (wh : whence) (t : taggedStream) : taggedStream * option Z :=
  let tagLen := Z.of_nat (String.length (ts_tag t)) in
  let abs := match wh with
             | SeekStart => offset
             | SeekCurrent => ts_pos t + offset
             | SeekEnd => tagLen + Z.of_nat (String.length (ts_blob t)) + offset
             end in
  if abs <? tagLen then (mkTaggedStream (ts_tag t) (ts_blob t) abs 0, Some abs)
  else (mkTaggedStream (ts_tag t) (ts_blob t) abs (abs - tagLen), Some abs).

(** ** The handlers *)

Definition StreamTrack : string := "stream_track".
Definition ServeImage : string := "serve_image".
Definition recentServedCap : nat := 200.

Definition recordServed (cid action : string) (m : read_metrics) : read_metrics :=
  let l := recentServed m in
  let l := if (recentServedCap <=? length l)%nat then drop 1 l else l in
  mkReadMetrics (readMisses m) (readRedirected m) (readLocalHits m) (readPullAttempts m) (app l [(cid, action)]).
Definition count_miss (m : read_metrics) : read_metrics :=
  mkReadMetrics (readMisses m + 1) (readRedirected m) (readLocalHits m) (readPullAttempts m) (recentServed m).
Definition count_redirect (m : read_metrics) : read_metrics :=
  mkReadMetrics (readMisses m) (readRedirected m + 1) (readLocalHits m) (readPullAttempts m) (recentServed m).
Definition count_hit (m : read_metrics) : read_metrics :=
  mkReadMetrics (readMisses m) (readRedirected m) (readLocalHits m + 1) (readPullAttempts m) (recentServed m).
Definition count_pull (m : read_metrics) : read_metrics :=
  mkReadMetrics (readMisses m) (readRedirected m) (readLocalHits m) (readPullAttempts m + 1) (recentServed m).

(** The rows of the two tables. *)
Definition tracks_of_cid (cid : string) (t : track_tables) : list string :=
  map fst (List.filter (fun r => String.eqb (snd (snd r)) cid) (sound_recordings t)).
Definition cids_of_track (track : string) (t : track_tables) : list string :=
  map (fun r => snd (snd r)) (List.filter (fun r => String.eqb (fst r) track) (sound_recordings t)).
Definition count_keys (track : string) (t : track_tables) : Z :=
  Z.of_nat (length (List.filter (fun r => String.eqb (fst r) track) (management_keys t))).
Definition count_authority (track address : string) (t : track_tables) : Z :=
  Z.of_nat (length (List.filter (fun r => String.eqb (fst r) track && String.eqb (snd r) address) (management_keys t))).

(** The newest row of a cid; between rows of one time the first. *)
Fixpoint newest_status (cid : string) (rows : list delist_row) : option delist_row :=
  match rows with
  | [] => None
  | r :: rows' =>
      let rest := newest_status cid rows' in
      if negb (String.eqb (dl_trackCid r) cid) then rest
      else match rest with
           | Some r' => if dl_createdAt r <? dl_createdAt r' then rest else Some r
           | None => Some r
           end
  end.

Section Serve.
Context (sha256 : string -> string).
Context (url_parse : string -> option (string * string)).
(** mime.ParseMediaType: the type, [None] beside an error. *)
Context (ParseMediaType : string -> option string).
Context (parse_signature : string -> res media_error RecoveredSignature).
Context (ss : MediorumServer) (sc : serve_config) (w : world) (e : web).

Definition mediaResponseContentType (storedContentType : string) : string * bool :=
  match ParseMediaType storedContentType with
  | Some mediaType =>
      let mediaType := ToLower mediaType in
      if bool_decide (mediaType ∈ safeInlineMediaTypes) then (mediaType, true) else ("application/octet-stream", false)
  | None => ("application/octet-stream", false)
  end.

Definition ServeContent (c : request) (body : string) : response :=
  match rq_method c with HEAD => RNoContent 200 | GET => RContent body end.

(** *** Delisting *)

Definition isCidBlacklisted (cid : string) (s : serving) : res media_error bool :=
  if access_fault e (QDelist cid) then Err (MErr "delist status lookup")
  else Ok (default false (dl_delisted <$> newest_status cid (track_delist_statuses s))).

Notation handler := (request -> proc serving media_error response).
Definition answer (r : response) : proc serving media_error response := fun s => (s, Ok r).

Definition ensureNotDelisted (next : handler) : handler := fun c s =>
  match isCidBlacklisted (Param c "cid") s with
  | Err _ => (s, Ok (RText 503 "unable to verify delist status"))
  | Ok true => (s, Ok (RText 403 "cid is blacklisted by this node"))
  | Ok false => next c s
  end.

Definition requireHealthy (next : handler) : handler := fun c s =>
  if ParseBool (QueryParam c "allow_unhealthy") then next c s
  else if negb (WalletIsRegistered sc) then (s, Ok (RText 506 "wallet not registered for provided endpoint"))
  else if negb (dbHealthy e) then (s, Ok (RText 503 "database not healthy"))
  else next c s.

(** *** Gating *)

Definition lookupTrackAccessInfo (cid : string) (s : serving) : res media_error trackAccessInfo :=
  if access_fault e (QRecording cid) then Err (MErr "sound_recordings lookup")
  else
    let trackID := scan e (tracks_of_cid cid (sv_tables s)) in
    let? count :=
      if String.eqb trackID "" then Ok 0
      else if access_fault e (QKeyCount trackID) then Err (MErr "management_keys count")
      else Ok (count_keys trackID (sv_tables s)) in
    let duration := if BlobStorageStreaming sc then default (S754_zero false) (duration_row e cid) else S754_zero false in
    Ok (mkTrackAccessInfo trackID count duration).

Definition cache_get {A} (key : string) (cache : gmap string (A * Z)) : option A :=
  match cache !! key with Some (a, expires) => if now w <=? expires then Some a else None | None => None end.

Definition access_info (cid : string) : proc serving media_error trackAccessInfo := fun s =>
  match cache_get cid (trackAccessInfoCache s) with
  | Some info => (s, Ok info)
  | None =>
      match lookupTrackAccessInfo cid s with
      | Err err => (s, Err err)
      | Ok info => (upd_access <[cid := (info, now w + five_minutes)]> s, Ok info)
      end
  end.

Definition registered_wallet (wallet : string) : bool :=
  existsb (fun p => EqualFold p wallet) (Signers sc) || existsb (fun p => EqualFold p wallet) (Peers sc).

(** Whether the signer may authorize: [None] to go on, else the refusal. *)
Definition signer_refused (info : trackAccessInfo) (wallet : string) (s : serving) : option response :=
  let trackID := ta_TrackID info in
  if negb (String.eqb trackID "") && (0 <? ManagementKeyCount info) then
    let normalizedSignerWallet := ToLower wallet in
    if access_fault e (QAuthority trackID normalizedSignerWallet) then Some (RText 503 "access authority lookup failed")
    else if count_authority trackID normalizedSignerWallet (sv_tables s) =? 0
         then Some (RText 401 "signer not authorized for this track (access_authorities)")
         else None
  else if negb (registered_wallet wallet) then Some (RText 401 "signer not in list of registered nodes")
  else None.

(** What is set on the request's context besides: the duration, read by serveBlob. *)
Definition requireRegisteredSignature (next : spec_float -> handler) : handler := fun c s =>
  let cid := Param c "cid" in
  let uploadID := Param c "id" in
  match parse_signature (QueryParam c "signature") with
  | Err MPanic => (s, Err MPanic)
  | Err _ => (s, Ok (RText 401 "invalid signature"))
  | Ok sig =>
      match access_info cid s with
      | (s, Err _) => (s, Ok (RText 503 "track access lookup failed"))
      | (s, Ok info) =>
          match signer_refused info (SignerWallet sig) s with
          | Some r => (s, Ok r)
          | None =>
              let data := sig_Data sig in
              let age := now w - Z.quot (sd_Timestamp data) 1000 * media_second in
              if two_days <? age then (s, Ok (RText 401 "signature too old"))
              else if negb (String.eqb (sd_Cid data) cid) then (s, Ok (RText 401 "signature contains incorrect CID"))
              else if negb (String.eqb (sd_UploadID data) uploadID) then (s, Ok (RText 401 "signature contains incorrect upload ID"))
              else next (DurationSeconds info) c s
          end
      end
  end.

(** The committed rows are read, on a connection of the node's own. *)
Definition InvalidateTrackAccessCacheForTrack (trackID : string) (s : serving) : serving :=
  if access_fault e (QCidsOfTrack trackID) then s
  else
    fold_left (fun s cid => if String.eqb cid "" then s else upd_access (delete cid) s)
      (cids_of_track trackID (sv_tables s)) s.

(** *** Redirects and background pulls *)

Definition findNodeToServeBlob (key : string) (s : serving) : serving * option string :=
  let search s :=
    match List.find (fun h => hostHasBlob e h key) (rendezvousAllHosts sha256 ss key).1 with
    | Some h => (upd_redirects <[key := h]> s, Some h)
    | None => (s, None)
    end in
  match redirectCache s !! key with
  | Some host => if hostHasBlob e host key then (s, Some host) else search (upd_redirects (delete key) s)
  | None => search s
  end.

Definition maybeBackgroundPull (cid : string) (s : serving) : serving :=
  if negb (rendezvousAllHosts sha256 ss cid).2 then s
  else if cached (now w) cid (bgPullBackoff s) then s
  else if negb (diskHasSpaceForCID sha256 ss w cid []) then s
  else upd_metrics count_pull (upd_pulls <[cid := now w + media_hour]> (fun l => app l [cid]) s).

Fixpoint pull_any (hosts : list string) (key : string) (placementHosts : list string) : proc media media_error string :=
  match hosts with
  | [] => pfail (MErr "no host found")
  | host :: hosts' => fun m =>
      match pullFileFromHost sha256 url_parse ss w host key placementHosts m with
      | (m, Ok _) => (m, Ok host)
      | (m, Err _) => pull_any hosts' key placementHosts m
      end
  end.

Definition findAndPullBlob (key : string) (placementHosts : list string) : proc serving media_error string := fun s =>
  let (m, r) := pull_any (rendezvousAllHosts sha256 ss key).1 key placementHosts (sv_media s) in
  (upd_media m s, r).

(** *** Plays *)

Definition logTrackListen (c : request) (s : serving) : res media_error serving :=
  if ParseBool (QueryParam c "skip_play_count") then Ok s
  else match parse_signature (QueryParam c "signature") with
       | Err MPanic => Err MPanic
       | Err _ => Ok s
       | Ok sig =>
           let data := sig_Data sig in
           let userId := if sd_UserID data =? 0 then Self_Wallet sc else FormatInt (sd_UserID data) in
           match listen_signature e, geo e with
           | Some signature, Some (city, country, region) =>
               Ok (upd_plays (fun l => app l [mkPlayEvent userId (FormatInt (sd_TrackId data)) (now w / media_second * media_second)
                                          signature city country region (QueryParam c "signature")]) s)
           | _, _ => Ok s
           end
       end.

(** *** Blobs *)

(** The suffix some clients put on a bare cid. *)
Definition strip_jpg (cid : string) : string :=
  if HasSuffix ".jpg" cid && negb (Contains cid "/") then str_take (String.length cid - 4) cid else cid.

Definition serve_audio (duration : spec_float) (c : request) (cid key : string) (x : blob) (foundIn : bucket) :
    proc serving media_error response := fun s =>
  if negb (Contains (rq_path c) "cidstream") then (s, Ok (RText 401 "mp3 streaming is blocked"))
  else
    let s := upd_metrics (recordServed cid StreamTrack) s in
    match logTrackListen c s with
    | Err err => (s, Err err)
    | Ok s =>
        let id3 := ParseBool (QueryParam c "id3") in
        if BlobStorageStreaming sc && negb id3 && String.eqb (QueryParam c "filename") "" then
          if can_sign e foundIn key then (s, Ok (RSigned foundIn key (presignedURLExpiry duration)))
          else (s, Ok (RText 500 "blob storage streaming is enabled but presigned URL generation failed"))
        else if id3 then
          if io_fault w (IoBody foundIn key) then (s, Err (MErr "seek"))
          else (s, Ok (ServeContent c (buildID3v2Tag (QueryParam c "id3_title") (QueryParam c "id3_artist") +:+ content x)))
        else (s, Ok (ServeContent c (content x)))
    end.

Definition serve_other (cid key : string) (x : blob) (foundIn : bucket) : proc serving media_error response := fun s =>
  if io_fault w (IoBody foundIn key) then (s, Err (MErr "read"))
  else (upd_metrics (recordServed cid ServeImage) s, Ok (RContent (content x))).

Definition serveBlob (duration : spec_float) : handler := fun c s =>
  let cid := strip_jpg (Param c "cid") in
  match ShardCID cid with
  | None => (s, Err MPanic)
  | Some key =>
      match readBlob ss w key (sv_media s) with
      | Err MNotFound =>
          let s := upd_metrics count_miss s in
          if ParseBool (QueryParam c "localOnly") then (s, Ok (RText 404 "blob not found"))
          else match findNodeToServeBlob cid s with
               | (s, None) => (s, Ok (RText 404 "blob not found"))
               | (s, Some host) => (upd_metrics count_redirect (maybeBackgroundPull cid s), Ok (RRedirect host))
               end
      | Err err => (s, Err err)
      | Ok (x, foundIn) =>
          let s := upd_metrics count_hit s in
          match rq_method c with
          | HEAD => (s, Ok (RNoContent 200))
          | GET =>
              let (responseContentType, safeInline) := mediaResponseContentType (ContentType e (content x)) in
              if safeInline && HasPrefix "audio/" responseContentType
              then serve_audio duration c cid key x foundIn s
              else serve_other cid key x foundIn s
          end
      end
  end.

(** *** The routes of server.go *)

(** /tracks/cidstream/:cid. *)
Definition cidstream : handler :=
  requireHealthy (ensureNotDelisted (requireRegisteredSignature serveBlob)).
(** /content/:cid and /ipfs/:cid. *)
Definition content_route : handler := requireHealthy (ensureNotDelisted (serveBlob (S754_zero false))).

(** *** Tracks, for development only *)

Definition serveTrack : handler := fun c s =>
  if negb (String.eqb (Env (Config ss)) "dev") then (s, Ok (RText 404 "not found"))
  else
    let trackId := Param c "trackId" in
    match parse_signature (QueryParam c "signature") with
    | Err MPanic => (s, Err MPanic)
    | Err _ => (s, Ok (RText 401 "invalid signature"))
    | Ok sig =>
        if negb (String.eqb (FormatInt (sd_TrackId (sig_Data sig))) trackId)
        then (s, Ok (RText 401 "signature contains incorrect track ID"))
        else if access_fault e (QCidsOfTrack trackId) then (s, Ok (RText 503 "track lookup failed"))
        else
          let cid := scan e (cids_of_track trackId (sv_tables s)) in
          if String.eqb cid "" then (s, Ok (RText 404 "track not found"))
          else
            let normalizedSignerWallet := ToLower (SignerWallet sig) in
            if access_fault e (QAuthority trackId normalizedSignerWallet) then (s, Ok (RText 503 "access authority lookup failed"))
            else if count_authority trackId normalizedSignerWallet (sv_tables s) =? 0
            then (s, Ok (RText 401 "signer not authorized to access"))
            else match ShardCID cid with
                 | None => (s, Err MPanic)
                 | Some key =>
                     match readBlob ss w key (sv_media s) with
                     | Err MNotFound =>
                         match findNodeToServeBlob cid s with
                         | (s, None) => (s, Ok (RText 404 "blob not found"))
                         | (s, Some host) => (s, Ok (RRedirect host))
                         end
                     | Err err => (s, Err err)
                     | Ok (x, _) =>
                         match logTrackListen c s with
                         | Err err => (s, Err err)
                         | Ok s => (upd_metrics (recordServed cid StreamTrack) s, Ok (ServeContent c (content x)))
                         end
                     end
                 end
    end.

(** *** Images *)

Fixpoint replace_first (sub : string) (s : string) : string :=
  if HasPrefix sub s then str_drop (String.length sub) s
  else match s with EmptyString => "" | String ch s' => String ch (replace_first sub s') end.

Definition parseVariantSize (variant : string) : option (Z * Z) :=
  let variant := replace_first ".jpg" (ToLower variant) in
  if String.eqb variant "150x150" then Some (150, 150)
  else if String.eqb variant "480x480" then Some (480, 480)
  else if String.eqb variant "1000x1000" then Some (1000, 1000)
  else if String.eqb variant "640x" then Some (640, -1)
  else if String.eqb variant "2000x" then Some (2000, -1)
  else None.

Definition getUploadOrigCID (uploadId : string) (s : serving) : serving * option string :=
  if negb (ulid_parses e uploadId) then (s, None)
  else match uploadOrigCidCache s !! uploadId with
       | Some cid => (s, Some cid)
       | None =>
           let found := if io_fault w SqlUploads then None
                        else List.find (fun u => String.eqb (ID u) uploadId) (uploads w) in
           match found with
           | Some u => (upd_origs <[uploadId := OrigFileCID u]> s, Some (OrigFileCID u))
           | None =>
               match omap (fun h => peerGetUpload e h uploadId) (findHealthyPeers w media_hour) with
               | cid :: _ => (upd_origs <[uploadId := cid]> s, Some cid)
               | [] => (s, None)
               end
           end
       end.

Definition serve_bytes (c : request) (cacheKey body : string) : proc serving media_error response := fun s =>
  (upd_metrics (recordServed cacheKey ServeImage) s, Ok (ServeContent c body)).

Definition serve_reader (c : request) (cacheKey key : string) (x : blob) (b : bucket) : proc serving media_error response := fun s =>
  if io_fault w (IoBody b key) then (s, Err (MErr "read"))
  else serve_bytes c cacheKey (content x) (upd_images <[cacheKey := content x]> s).

(** Opens the original, pulled from the network when it is not here; the left is the
    answer when there is none. *)
Definition open_original (origImageCID key : string) (s : serving) : serving * res media_error (response + blob * bucket) :=
  match readBlob ss w key (sv_media s) with
  | Ok x => (s, Ok (inr x))
  | Err _ =>
      match findAndPullBlob origImageCID [] s with
      | (s, Err _) =>
          match findNodeToServeBlob origImageCID s with
          | (s, None) => (s, Ok (inl (RText 404 "blob not found")))
          | (s, Some host) => (s, Ok (inl (RRedirect host)))
          end
      | (s, Ok _) =>
          match readBlob ss w key (sv_media s) with
          | Ok x => (s, Ok (inr x))
          | Err err => (s, Err err)
          end
      end
  end.

(** The variant is written to the primary bucket; a failed write is not an error. *)
Definition cache_variant (path bytes : string) (m : media) : media := (write_blob w Primary path (bytes, true) m).1.

(** serveImage once the id is resolved and the path of the variant is known. *)
Definition serve_variant (c : request) (cacheKey origImageCID variantStoragePath : string) (size : option (Z * Z))
    (skipCache : bool) : proc serving media_error response := fun s =>
  let have := if skipCache then None
              else match NewReader w Primary variantStoragePath (sv_media s) with Ok x => Some x | Err _ => None end in
  match have with
  | Some x => serve_reader c cacheKey variantStoragePath x Primary s
  | None =>
      match ShardCID origImageCID with
      | None => (s, Err MPanic)
      | Some key =>
          match open_original origImageCID key s with
          | (s, Err err) => (s, Err err)
          | (s, Ok (inl r)) => (s, Ok r)
          | (s, Ok (inr (x, _))) =>
              let s := match size with
                       | Some wh => upd_media (cache_variant variantStoragePath (resize e (content x) wh) (sv_media s)) s
                       | None => s
                       end in
              match readBlob ss w variantStoragePath (sv_media s) with
              | Err err => (s, Err err)
              | Ok (v, b) => serve_reader c cacheKey variantStoragePath v b s
              end
          end
      end
  end.

Definition serveImage : handler := fun c s =>
  let jobID := Param c "jobID" in
  let variant := Param c "variant" in
  let skipCache := ParseBool (QueryParam c "skipCache") in
  let isOriginalJpg := String.eqb variant "original.jpg" in
  let cacheKey := jobID +:+ variant in
  match (if skipCache then None else imageCache s !! cacheKey) with
  | Some (String ch rest) => serve_bytes c cacheKey (String ch rest) s
  | _ =>
      let (s, found) := getUploadOrigCID jobID s in
      let containerCID := default jobID found in
      let origImageCID := if IsLegacyCID containerCID then containerCID +:+ "/original.jpg" else containerCID in
      match parseVariantSize variant with
      | Some size =>
          match ImageVariantPath containerCID variant with
          | None => (s, Err MPanic)
          | Some path => serve_variant c cacheKey origImageCID path (if isOriginalJpg then None else Some size) skipCache s
          end
      | None =>
          if isOriginalJpg then
            match (if IsLegacyCID containerCID then Some (containerCID +:+ "/original.jpg") else ShardCID containerCID) with
            | None => (s, Err MPanic)
            | Some path => serve_variant c cacheKey origImageCID path None skipCache s
            end
          else (s, Ok (RText 400 "invalid size"))
      end
  end.

(** /content/:jobID/:variant and /ipfs/:jobID/:variant. *)
Definition image_route : handler := requireHealthy serveImage.
End Serve.

(** ** Delist statuses *)

Inductive DelistEntity := Tracks | Users.
#[export] Instance DelistEntity_eq_dec : EqDecision DelistEntity.
Proof. solve_decision. Defined.
#[export] Instance DelistEntity_countable : Countable DelistEntity :=
  inj_countable' (fun x => match x with Tracks => true | Users => false end)
                 (fun b => if b then Tracks else Users) ltac:(by intros []).

(** A status as the notifier sends it; [None] is a createdAt that does not parse. *)
Record DelistStatus := mkDelistStatus {
  ds_createdAt : option Z;
  ds_Delisted : bool;
  ds_Reason : string;
  ds_TrackID : Z;
  ds_TrackCID : string;
  ds_OwnerID : Z;
  ds_UserID : Z
}.

Record user_delist_row := mkUserDelistRow {
  ud_createdAt : Z;
  ud_userId : Z;
  ud_delisted : bool;
  ud_reason : string
}.

(** The tables of delist statuses, and how far each notifier was read. *)
Record delists := mkDelists {
  dt_tracks : list delist_row;
  dt_users : list user_delist_row;
  delist_status_cursor : gmap (string * DelistEntity) Z
}.

Section Delist.
Context (now : Z) (fault : access_query -> bool).

(** UnmarshalJSON. *)
Definition status_time (ds : DelistStatus) : Z := default now (ds_createdAt ds).

Definition insert_status (entity : DelistEntity) (ds : DelistStatus) (d : delists) : delists :=
  match entity with
  | Tracks =>
      mkDelists (app (dt_tracks d) [mkDelistRow (status_time ds) (ds_TrackID ds) (ds_OwnerID ds) (ds_TrackCID ds) (ds_Delisted ds) (ds_Reason ds)])
        (dt_users d) (delist_status_cursor d)
  | Users =>
      mkDelists (dt_tracks d) (app (dt_users d) [mkUserDelistRow (status_time ds) (ds_UserID ds) (ds_Delisted ds) (ds_Reason ds)])
        (delist_status_cursor d)
  end.

(** Inside the transaction, the i-th statement first. *)
Fixpoint insert_statuses (i : nat) (entity : DelistEntity) (dss : list DelistStatus) (d : delists) : option delists :=
  match dss with
  | [] => Some d
  | ds :: dss' => if fault (QInsertDelist i) then None else insert_statuses (S i) entity dss' (insert_status entity ds d)
  end.

Definition insertDelistStatuses (dss : list DelistStatus) (entity : DelistEntity) : proc delists media_error unit := fun d =>
  match insert_statuses 0 entity dss d with
  | None => (d, Err (MErr "insert delist status"))
  | Some d' => if fault QCommitDelists then (d, Err (MErr "commit")) else (d', Ok tt)
  end.

(** The answer of a notifier, decoded, is stored and the cursor moved to its last
    status. *)
Definition processDelistStatuses (endpoint : string) (entity : DelistEntity) (entities : list DelistStatus) : proc delists media_error unit :=
  match last entities with
  | None => pret tt
  | Some final =>
      insertDelistStatuses entities entity ;;!
      fun d => if fault QDelistCursor then (d, Err (MErr "cursor"))
               else (mkDelists (dt_tracks d) (dt_users d) (<[(endpoint, entity) := status_time final]> (delist_status_cursor d)), Ok tt)
  end.
End Delist.
