(* ===== verification/MediaAccessProps.v ===== *)
(** * What the serving side of a storage node guarantees

    Streams of gated recordings, the caches in between, and the routes around them. *)

From stdpp Require Import base gmap strings list fin_maps relations pretty.
From Stdlib Require Import ZArith Lia Ascii SpecFloat.
From S2P Require Import Prelude Crypto AuthState AuthEnforcement Encoding Rendezvous Snapshots MediaStore MediaPresence MediaFetch MediaReplicate MediaExamples MediaAccess.

Open Scope string_scope.
Open Scope Z_scope.


(** ** Rows *)


Definition last_row (l : list string) : string := default "" (last l).


(** The recordings of [cid] are all of [track], which has access authorities. *)
Definition gated (cid track : string) (t : track_tables) : Prop :=
  tracks_of_cid cid t <> [] /\ Forall (eq track) (tracks_of_cid cid t) /\ 0 < count_keys track t /\ track <> "".

(** ** What the handlers leave alone *)

(** The tables and the cache of access infos are as they were. *)
Definition frame (s s' : serving) : Prop :=
  sv_tables s' = sv_tables s /\ track_delist_statuses s' = track_delist_statuses s /\
  trackAccessInfoCache s' = trackAccessInfoCache s.

#[export] Instance frame_preorder : PreOrder frame.
Proof. split; [done|]. intros a b c (?&?&?) (?&?&?). repeat split; congruence. Qed.

Create HintDb access.


Section Frames.
Context (sha256 : string -> string) (url_parse : string -> option (string * string)).
Context (ParseMediaType : string -> option string) (parse_signature : string -> res media_error RecoveredSignature).
Context (ss : MediorumServer) (sc : serve_config) (w : world) (e : web).











End Frames.

(** ** Streams *)

Section Streams.
Context (sha256 : string -> string) (url_parse : string -> option (string * string)).
Context (ParseMediaType : string -> option string) (parse_signature : string -> res media_error RecoveredSignature).
Context (ss : MediorumServer) (sc : serve_config).

Notation stream w e := (cidstream sha256 ParseMediaType parse_signature ss sc w e).



(** *** Runs *)






(** *** The cache *)

















End Streams.

(** ** Where the guarantees end *)

Section Gaps.
Context (sha256 : string -> string) (url_parse : string -> option (string * string)).
Context (ParseMediaType : string -> option string) (parse_signature : string -> res media_error RecoveredSignature).
Context (json_decode : string -> option json).
Context (ss : MediorumServer) (sc : serve_config).

(** A block with one track transaction: its statements run inside the transaction of
    the block, the cache is invalidated while that is open, and then it commits. *)
Definition gate_in_block (fault : track_query -> bool) (me : ManageEntityLegacy) (e : web) (s : serving) : serving :=
  let (tables, r) := processTrackManageEntity json_decode fault me (sv_tables s) in
  let s := match r with
           | Ok _ => InvalidateTrackAccessCacheForTrack e (pretty (me_EntityId me)) s
           | Err _ => s
           end in
  upd_tables tables s.

Lemma invalidate_nothing e track s : cids_of_track track (sv_tables s) = [] -> InvalidateTrackAccessCacheForTrack e track s = s.
Proof. intros H. unfold InvalidateTrackAccessCacheForTrack. rewrite H. by case_match. Qed.

Lemma gate_keeps_cache fault me e s : cids_of_track (pretty (me_EntityId me)) (sv_tables s) = [] ->
  trackAccessInfoCache (gate_in_block fault me e s) = trackAccessInfoCache s.
Proof.
  intros H. unfold gate_in_block. destruct (processTrackManageEntity _ _ _ _) as [tables [|]]; [|done].
  by rewrite invalidate_nothing.
Qed.

(** Gating a track for the first time does not reach the cache of access infos: the
    rows that name its cid are not committed when the cache is invalidated, and a
    track that was never gated has none.  What was cached while it was open goes on
    letting any registered node authorize a stream until it expires, whoever the
    access authorities now are. *)
Theorem first_gating_misses_the_cache fault me e e' w c s info expires sig next :
  cids_of_track (pretty (me_EntityId me)) (sv_tables s) = [] ->
  trackAccessInfoCache s !! Param c "cid" = Some (info, expires) -> ManagementKeyCount info = 0 -> now w <= expires ->
  parse_signature (QueryParam c "signature") = Ok sig -> registered_wallet sc (SignerWallet sig) = true ->
  now w - Z.quot (sd_Timestamp (sig_Data sig)) 1000 * media_second <= two_days ->
  sd_Cid (sig_Data sig) = Param c "cid" -> sd_UploadID (sig_Data sig) = Param c "id" ->
  let s' := gate_in_block fault me e s in
  requireRegisteredSignature parse_signature sc w e' next c s' = next (DurationSeconds info) c s'.
Proof.
  intros Hrows Hc Hk Hlive Hp Hreg Hage Hcid Hup s'. unfold requireRegisteredSignature. rewrite Hp.
  assert (access_info sc w e' (Param c "cid") s' = (s', Ok info)) as ->.
  { unfold access_info, cache_get. subst s'. rewrite gate_keeps_cache, Hc by done. by replace (now w <=? expires) with true by lia. }
  unfold signer_refused. rewrite Hk, andb_false_r, Hreg. cbn.
  replace (two_days <? _) with false by lia. by rewrite Hcid, Hup, !String.eqb_refl.
Qed.

(** The route of images hands out any blob the node holds: a request for the
    original.jpg of a cid answers with the bytes stored under that cid, without a
    signature, whatever access authorities the recording has and whether or not it is
    delisted. *)
Theorem any_blob_is_served_as_an_image w e c s cid key x :
  rq_method c = GET -> Param c "jobID" = cid -> Param c "variant" = "original.jpg" ->
  IsLegacyCID cid = false -> ShardCID cid = Some key -> blobs (sv_media s) !! (Primary, key) = Some x ->
  WalletIsRegistered sc = true -> dbHealthy e = true -> ulid_parses e cid = false ->
  imageCache s !! (cid +:+ "original.jpg") = None -> ParseBool (QueryParam c "skipCache") = false ->
  (forall q, io_fault w q = false) ->
  exists s', image_route sha256 url_parse ss sc w e c s = (s', Ok (RContent (content x))).
Proof.
  intros Hm Hj Hv Hl Hk Hx Hreg Hdb Hu Hi Hsk Hio.
  assert (serveImage sha256 url_parse ss w e c s
          = (upd_metrics (recordServed (cid +:+ "original.jpg") ServeImage)
               (upd_images <[cid +:+ "original.jpg" := content x]> s), Ok (RContent (content x)))) as E.
  { unfold serveImage. rewrite Hj, Hv, Hsk, Hi. unfold getUploadOrigCID. rewrite Hu. cbn [negb default].
    change (parseVariantSize "original.jpg") with (@None (Z * Z)). rewrite String.eqb_refl, Hl, Hk.
    unfold serve_variant. unfold NewReader. rewrite Hio, Hx. unfold serve_reader. rewrite Hio.
    unfold serve_bytes, ServeContent. by rewrite Hm. }
  eexists. unfold image_route, requireHealthy. rewrite Hreg, Hdb, E. cbn [negb]. by case_match.
Qed.
End Gaps.

(** ** Names with a suffix *)

Lemma string_length_app s t : String.length (s +:+ t) = (String.length s + String.length t)%nat.
Proof. induction s as [|ch s IH]; [done|]. rewrite fetched_cons. cbn. by rewrite IH. Qed.

Lemma substring_whole s : String.substring 0 (String.length s) s = s.
Proof. induction s as [|ch s IH]; [done|]. cbn. by rewrite IH. Qed.

Lemma substring_suffix s t : String.substring (String.length s) (String.length t) (s +:+ t) = t.
Proof. induction s as [|ch s IH]; [apply substring_whole|]. rewrite fetched_cons. exact IH. Qed.

Lemma HasSuffix_app s t : HasSuffix t (s +:+ t) = true.
Proof.
  unfold HasSuffix. rewrite string_length_app. rewrite Nat.add_sub, substring_suffix, String.eqb_refl, andb_true_r.
  apply Nat.leb_le. lia.
Qed.

Lemma strip_jpg_app cid : Contains (cid +:+ ".jpg") "/" = false -> strip_jpg (cid +:+ ".jpg") = cid.
Proof.
  intros H. unfold strip_jpg. rewrite HasSuffix_app, H. cbn [andb negb]. rewrite string_length_app, Nat.add_sub. apply str_take_app.
Qed.

Section Suffix.
Context (sha256 : string -> string).
Context (ParseMediaType : string -> option string) (parse_signature : string -> res media_error RecoveredSignature).
Context (ss : MediorumServer) (sc : serve_config).

Definition is_audio (e : web) (x : blob) : bool :=
  let (ct, safe) := mediaResponseContentType ParseMediaType (ContentType e (content x)) in
  safe && HasPrefix "audio/" ct.

(** A delisted blob is still handed out under its cid with .jpg appended: the
    delist status is looked up for the name with the suffix, the blob for the name
    without.  (For blobs that are not audio by their content type; audio goes the same
    way on the route of streams.) *)
Theorem suffix_slips_past_delisting w e c s cid key x :
  rq_method c = GET -> Param c "cid" = cid +:+ ".jpg" -> Contains (cid +:+ ".jpg") "/" = false ->
  newest_status (cid +:+ ".jpg") (track_delist_statuses s) = None ->
  ShardCID cid = Some key -> blobs (sv_media s) !! (Primary, key) = Some x -> is_audio e x = false ->
  WalletIsRegistered sc = true -> dbHealthy e = true ->
  (forall q, io_fault w q = false) -> (forall q, access_fault e q = false) ->
  exists s', content_route sha256 ParseMediaType parse_signature ss sc w e c s = (s', Ok (RContent (content x))).
Proof.
  intros Hm Hp Hsl Hn Hk Hx Ha Hreg Hdb Hio Hq.
  assert (exists s', ensureNotDelisted e (serveBlob sha256 ParseMediaType parse_signature ss sc w e (S754_zero false)) c s
                     = (s', Ok (RContent (content x)))) as [s' E].
  { unfold ensureNotDelisted, isCidBlacklisted. rewrite Hq, Hp, Hn. cbn [fmap option_fmap option_map default].
    unfold serveBlob. rewrite Hp, strip_jpg_app, Hk by done. unfold readBlob, hot_first, NewReader. rewrite Hio, Hx, Hm.
    unfold is_audio in Ha. destruct (mediaResponseContentType _ _) as [ct safe]. rewrite Ha.
    unfold serve_other. rewrite Hio. eauto. }
  exists s'. unfold content_route, requireHealthy. rewrite Hreg, Hdb, E. cbn [negb]. by case_match.
Qed.
End Suffix.

(** ** Tagged streams *)

Definition tagged_full (t : taggedStream) : string := ts_tag t +:+ ts_blob t.

(** What http.ServeContent does with a stream: it seeks, never below the start, and reads. *)
Inductive tagged_run (tag data : string) : taggedStream -> Prop :=
| tagged_new : tagged_run tag data (mkTaggedStream tag data 0 0)
| tagged_read t t' n got : tagged_run tag data t -> tagged_Read n t = Some (t', got) -> tagged_run tag data t'
| tagged_seek t t' off wh p : tagged_run tag data t -> tagged_Seek off wh t = (t', Some p) -> 0 <= p -> tagged_run tag data t'.

Definition tagged_aligned (tag data : string) (t : taggedStream) : Prop :=
  ts_tag t = tag /\ ts_blob t = data /\ 0 <= ts_pos t /\
  ts_blobPos t = Z.max 0 (ts_pos t - Z.of_nat (String.length tag)).

Lemma str_drop_app_l n s t : (n <= String.length s)%nat -> str_drop n (s +:+ t) = str_drop n s +:+ t.
Proof.
  revert s. induction n as [|n IH]; intros [|ch s] H; cbn in H; try done; try lia.
  rewrite fetched_cons. cbn [str_drop]. apply IH. lia.
Qed.

Lemma str_drop_app_r s t n : str_drop (String.length s + n) (s +:+ t) = str_drop n t.
Proof. induction s as [|ch s IH]; [done|]. rewrite fetched_cons. exact IH. Qed.

Lemma str_app_assoc s t u : (s +:+ t) +:+ u = s +:+ (t +:+ u).
Proof. induction s as [|ch s IH]; [done|]. rewrite !fetched_cons. by rewrite IH. Qed.

(** What is taken, and what is left after it. *)
Lemma taken_then_left n s : s = str_take n s +:+ str_drop (String.length (str_take n s)) s.
Proof.
  rewrite str_take_length. destruct (Nat.le_ge_cases n (String.length s)).
  - rewrite Nat.min_l by lia. by rewrite str_take_drop.
  - rewrite Nat.min_r, str_take_ge by lia. rewrite <- (str_take_drop (String.length s) s) at 1. by rewrite str_take_ge.
Qed.

Lemma tagged_Read_spec tag data t n : tagged_aligned tag data t ->
  exists t' got, tagged_Read n t = Some (t', got) /\ tagged_aligned tag data t' /\
    ts_pos t' = ts_pos t + Z.of_nat (String.length got) /\
    str_drop (Z.to_nat (ts_pos t)) (tag +:+ data) = got +:+ str_drop (Z.to_nat (ts_pos t')) (tag +:+ data) /\
    (String.length got <= n)%nat /\
    (got = "" -> n = 0%nat \/ Z.of_nat (String.length (tag +:+ data)) <= ts_pos t).
Proof.
  intros (Et & Eb & Hpos & Hb). unfold tagged_Read. rewrite Et, Eb.
  destruct (Z.ltb_spec (ts_pos t) (Z.of_nat (String.length tag))) as [Hlt|Hge].
  - replace (ts_pos t <? 0) with false by lia. set (got := str_take n (str_drop (Z.to_nat (ts_pos t)) tag)).
    assert (String.length got <= n /\ String.length got <= String.length tag - Z.to_nat (ts_pos t))%nat as [Hn Hl].
    { subst got. rewrite str_take_length, str_drop_length. lia. }
    exists (mkTaggedStream tag data (ts_pos t + Z.of_nat (String.length got)) (ts_blobPos t)), got. split; [done|].
    split; [repeat split; cbn; lia|]. split; [done|]. split; [|split; [done|]].
    + cbn [ts_pos]. rewrite !str_drop_app_l by lia. rewrite <- str_app_assoc. f_equal.
      replace (Z.to_nat (ts_pos t + Z.of_nat (String.length got))) with (Z.to_nat (ts_pos t) + String.length got)%nat by lia.
      rewrite <- str_drop_drop. apply taken_then_left.
    + intros E. destruct (take_empty _ _ E) as [?|E']; [auto|]. apply (f_equal String.length) in E'. rewrite str_drop_length in E'. cbn in E'. lia.
  - set (got := blob_Read n t). assert (got = str_take n (str_drop (Z.to_nat (ts_blobPos t)) data)) as Eg by (subst got; unfold blob_Read; by rewrite Eb).
    exists (mkTaggedStream tag data (ts_pos t + Z.of_nat (String.length got)) (ts_blobPos t + Z.of_nat (String.length got))), got.
    split; [done|]. split; [repeat split; cbn; lia|]. split; [done|]. cbn [ts_pos].
    replace (Z.to_nat (ts_pos t)) with (String.length tag + Z.to_nat (ts_blobPos t))%nat by lia.
    replace (Z.to_nat (ts_pos t + Z.of_nat (String.length got))) with (String.length tag + (Z.to_nat (ts_blobPos t) + String.length got))%nat by lia.
    rewrite !str_drop_app_r, <- str_drop_drop. rewrite Eg. split; [|split].
    + apply taken_then_left.
    + rewrite str_take_length. lia.
    + intros E. destruct (take_empty _ _ E) as [?|E']; [auto|]. apply (f_equal String.length) in E'. rewrite str_drop_length in E'. cbn in E'.
      right. rewrite string_length_app. lia.
Qed.

Lemma tagged_run_aligned tag data t : tagged_run tag data t -> tagged_aligned tag data t.
Proof.
  induction 1 as [|t t' n got _ IH Hr|t t' off wh p _ IH Hs Hp].
  - repeat split; cbn; lia.
  - destruct (tagged_Read_spec tag data t n IH) as (t1 & got1 & E & Ha & _). congruence.
  - destruct IH as (Et & Eb & _). unfold tagged_Seek in Hs. rewrite Et, Eb in Hs.
    case_match eqn:E; simplify_eq/=; apply Z.ltb_lt in E || apply Z.ltb_ge in E; repeat split; cbn; lia.
Qed.

(** A tagged stream is the tag followed by the blob: after any seeks, none below
    the start, and reads of any sizes, the next read gives a piece of the
    concatenation from the stream's position on, moves the position past it, and is
    empty only at the end or when nothing was asked for. *)
Theorem tagged_stream_is_the_concatenation tag data t n : tagged_run tag data t ->
  exists t' got, tagged_Read n t = Some (t', got) /\
    str_drop (Z.to_nat (ts_pos t)) (tag +:+ data) = got +:+ str_drop (Z.to_nat (ts_pos t')) (tag +:+ data) /\
    ts_pos t' = ts_pos t + Z.of_nat (String.length got) /\ (String.length got <= n)%nat /\
    (got = "" -> n = 0%nat \/ Z.of_nat (String.length (tag +:+ data)) <= ts_pos t).
Proof.
  intros H%tagged_run_aligned. destruct (tagged_Read_spec tag data t n H) as (t' & got & Hr & _ & Hp & Hd & Hl & He).
  exists t', got. done.
Qed.

Definition ex_tag : string := buildID3v2Tag "T" "A".
Lemma tagged_stream_is_the_concatenation_witness :
  exists t, tagged_run ex_tag "abcdef" t /\ exists t', tagged_Read 10 t = Some (t', "cdef").
Proof.
  pose (t1 := (tagged_Seek (-4) SeekEnd (mkTaggedStream ex_tag "abcdef" 0 0)).1).
  assert (tagged_run ex_tag "abcdef" t1) as Hrun.
  { eapply (tagged_seek _ _ (mkTaggedStream ex_tag "abcdef" 0 0) t1 (-4) SeekEnd); [apply tagged_new|vm_compute; reflexivity|vm_compute; discriminate]. }
  exists t1. split; [exact Hrun|]. destruct (tagged_stream_is_the_concatenation ex_tag "abcdef" t1 10 Hrun) as (t' & got & Hr & _).
  exists t'. rewrite Hr. vm_compute in Hr. by simplify_eq.
Defined.

(** ** Delist statuses *)

Lemma insert_statuses_tables now fault i entity dss d d' : insert_statuses now fault i entity dss d = Some d' ->
  delist_status_cursor d' = delist_status_cursor d /\
  exists rows users, dt_tracks d' = app (dt_tracks d) rows /\ dt_users d' = app (dt_users d) users /\
    match entity with
    | Tracks => rows = map (fun ds => mkDelistRow (status_time now ds) (ds_TrackID ds) (ds_OwnerID ds) (ds_TrackCID ds) (ds_Delisted ds) (ds_Reason ds)) dss
    | Users => users = map (fun ds => mkUserDelistRow (status_time now ds) (ds_UserID ds) (ds_Delisted ds) (ds_Reason ds)) dss
    end.
Proof.
  revert i d. induction dss as [|ds dss IH]; intros i d; cbn.
  - intros [= <-]. split; [done|]. exists [], []. rewrite !app_nil_r. by destruct entity.
  - destruct (fault (QInsertDelist i)); [done|]. intros [Hc (rows & users & Et & Eu & Hr)]%IH. split; [by rewrite Hc; destruct entity|].
    destruct entity; cbn in *.
    + eexists (_ :: rows), users. subst rows. rewrite Et, Eu, <- (assoc_L app). repeat split.
    + eexists rows, (_ :: users). subst users. rewrite Et, Eu, <- (assoc_L app). repeat split.
Qed.

(** A poll stores all of the statuses of an answer before the cursor moves past them;
    when it fails the cursor is where it was. *)
Lemma delist_cursor_follows_the_rows now fault endpoint entity entities d d' r :
  processDelistStatuses now fault endpoint entity entities d = (d', r) ->
  delist_status_cursor d' = delist_status_cursor d \/
  (r = Ok tt /\ (forall ds, ds ∈ entities -> entity = Tracks ->
     mkDelistRow (status_time now ds) (ds_TrackID ds) (ds_OwnerID ds) (ds_TrackCID ds) (ds_Delisted ds) (ds_Reason ds) ∈ dt_tracks d')).
Proof.
  unfold processDelistStatuses. destruct (last entities) as [final|]; [|intros [= <- _]; auto].
  unfold pbind, insertDelistStatuses. destruct (insert_statuses _ _ _ _ _ _) as [d1|] eqn:E; [|intros [= <- _]; auto].
  destruct (fault QCommitDelists); [intros [= <- _]; auto|]. apply insert_statuses_tables in E as [Ec (rows & users & Et & _ & Hr)].
  destruct (fault QDelistCursor); intros [= <- <-]; [left; done|]. right. split; [done|]. intros ds Hds ->. cbn. rewrite Et, Hr.
  apply elem_of_app. right. apply list_elem_of_fmap. eauto.
Qed.

(** ** A node at work *)

Module Booth.
(** A query string here is the key of the signer followed by the cid it signs. *)
Definition read_envelope (q : string) : option (option (string * string)) :=
  match q with
  | String k cid => Some (Some (cid, "0x" +:+ hex_encode (Toy.repeat_byte 64 k (String zero ""))))
  | EmptyString => None
  end.
Definition parse : string -> res media_error RecoveredSignature :=
  ParseFromQueryString (C := Toy.crypto) read_envelope Some (fun d => Some (mkSignatureData "" d 0 0 7 1)).

(** "b" is a registered node, "a" an access authority. *)
Definition config : serve_config := mkServeConfig false true "0x63" ["0x62"] [].
Definition server : MediorumServer := ex_server false false ["a"; "b"].
Definition at_time (t : Z) : world := ex_world t silent [].
Definition env : web :=
  mkWeb (fun _ _ => false) (fun _ => false) last_row true (fun _ => None) (fun _ _ => false) (fun s => s) None None (fun _ => false)
    (fun _ _ => None) (fun s _ => s).
(** Everything that starts with an M is an mp3. *)
Definition media_type (s : string) : option string := if HasPrefix "M" s then Some "audio/mpeg" else Some "image/png".

Definition ask (path cid q : string) : request :=
  mkRequest GET path (fun n => if String.eqb n "cid" then cid else "") (fun n => if String.eqb n "signature" then q else "").
Definition ask_image (cid : string) : request :=
  mkRequest GET "/content/:jobID/:variant"
    (fun n => if String.eqb n "jobID" then cid else if String.eqb n "variant" then "original.jpg" else "") (fun _ => "").

Definition open_tables : track_tables := mkTrackTables [] [].
Definition gated_tables : track_tables := mkTrackTables [("7", ("sr_7", "cidA"))] [("7", "0x61")].
Definition fresh (t : track_tables) (delists : list delist_row) : serving :=
  mkServing (ex_media [((Primary, "cidA"), mkBlob "MP3" 0); ((Primary, "cidB"), mkBlob "PNG" 0)]) t delists ∅ ∅ ∅ ∅ ∅
    (mkReadMetrics 0 0 0 0 []) [] [].

(** json.Unmarshal of the metadata that gates the track. *)
Definition decode (_ : string) : option json :=
  Some (JObj [("access_authorities", JArr [JStr "0x61"]); ("data", JObj [("track_cid", JStr "cidA")])]).
Definition gate_tx : ManageEntityLegacy := mkManageEntityLegacy 1 "Track" 7 "Update" "{}" "" "" "".

Definition url (_ : string) : option (string * string) := None.
Definition hash (s : string) : string := s.
Notation stream w := (cidstream hash media_type parse server config w env).
Definition streamed : serving := (stream (at_time 0) (ask "/tracks/cidstream/:cid" "cidA" "bcidA") (fresh open_tables [])).1.
Definition gated_later : serving := gate_in_block decode (fun _ => false) gate_tx env streamed.
End Booth.
Import Booth.


Lemma first_gating_misses_the_cache_witness :
  gated "cidA" "7" (sv_tables gated_later) /\
  (cidstream hash media_type parse server config (at_time (60 * media_second)) env
     (ask "/tracks/cidstream/:cid" "cidA" "bcidA") gated_later).2 = Ok (RContent "MP3") /\
  forall next : spec_float -> request -> proc serving media_error response,
  requireRegisteredSignature parse config (at_time (60 * media_second)) env next
    (ask "/tracks/cidstream/:cid" "cidA" "bcidA") gated_later
  = next (S754_zero false) (ask "/tracks/cidstream/:cid" "cidA" "bcidA") gated_later.
Proof.
  split; [split; [discriminate|]; split; [vm_compute; by repeat constructor|]; split; [reflexivity|discriminate]|].
  split; [vm_compute; reflexivity|]. intros next.
  exact (first_gating_misses_the_cache parse decode config (fun _ => false) gate_tx env env (at_time (60 * media_second))
           (ask "/tracks/cidstream/:cid" "cidA" "bcidA") streamed (mkTrackAccessInfo "" 0 (S754_zero false)) five_minutes
           (mkRecoveredSignature "cidA" (mkSignatureData "" "cidA" 0 0 7 1) "0x62") next
           eq_refl eq_refl eq_refl ltac:(vm_compute; discriminate) eq_refl eq_refl ltac:(vm_compute; discriminate) eq_refl eq_refl).
Defined.

(** The recording is gated and delisted. *)
Lemma any_blob_is_served_as_an_image_witness :
  let s := fresh gated_tables [mkDelistRow 5 7 1 "cidA" true "dmca"] in
  isCidBlacklisted env "cidA" s = Ok true /\
  exists s', image_route hash url server config (at_time 9) env (ask_image "cidA") s = (s', Ok (RContent "MP3")).
Proof.
  intros s. split; [reflexivity|].
  apply (any_blob_is_served_as_an_image hash url server config (at_time 9) env (ask_image "cidA") s "cidA" "cidA" (mkBlob "MP3" 0));
    try reflexivity; intros; reflexivity.
Defined.

Lemma suffix_slips_past_delisting_witness :
  let s := fresh open_tables [mkDelistRow 5 7 1 "cidB" true "dmca"] in
  (content_route hash media_type parse server config (at_time 9) env (ask "/content/:cid" "cidB" "") s).2
    = Ok (RText 403 "cid is blacklisted by this node") /\
  exists s', content_route hash media_type parse server config (at_time 9) env (ask "/content/:cid" "cidB.jpg" "") s
    = (s', Ok (RContent "PNG")).
Proof.
  intros s. split; [vm_compute; reflexivity|].
  apply (suffix_slips_past_delisting hash media_type parse server config (at_time 9) env (ask "/content/:cid" "cidB.jpg" "") s
           "cidB" "cidB" (mkBlob "PNG" 0)); try reflexivity; intros; reflexivity.
Defined.
