(* ===== verification/MediaAttest.v ===== *)
(** * What a storage node tells the chain

    Models the attribution of uploads and the attestations that follow
    (server/upload_auth.go), previews of a bare cid (preview_auth.go and generatePreview
    in serve_upload.go) and the batches of plays (play_event_queue.go).  The core on
    the other side is its own model: the claims are the table core_auth_cids, written
    by finalizeContentAttestation when a block includes the transaction. *)

From stdpp Require Import base gmap strings list fin_maps.
From Stdlib Require Import ZArith Lia Ascii.
From S2P Require Import Prelude Upgrades AuthState AuthStores Crypto AuthEnforcement Encoding MediaAccess.

Open Scope string_scope.
Open Scope Z_scope.

Inductive attest_error :=
| Unverifiable
| Refused (msg : string)
| Failed (msg : string).

(** The core as a storage node reaches it: whether it is wired, the answers of
    NextBlockRules from now until the context ends ([None] while the core is not
    ready), and for a transaction sent the hash and the height of the block that
    includes it ([None] when SendTransaction returns an error). *)
Record core_link := mkCoreLink {
  core_wired : bool;
  rule_polls : list (option Rules);
  included : ContentAttestation -> option (string * Z)
}.

Section Attest.
Context {C : EthCrypto}.
Context (marshal_payload : Z -> list string -> option string).
Context (upgrades : option UpgradeSchedule) (registered : string -> option bool).
Context (ContentAuthEnabled : bool) (Self_Wallet : string) (privateKey : privkey).
Context (core : core_link).

(** ** Rules *)

Fixpoint first_rules (polls : list (option Rules)) : option Rules :=
  match polls with
  | [] => None
  | Some rules :: _ => Some rules
  | None :: polls' => first_rules polls'
  end.

Definition chainRules : res attest_error Rules :=
  if negb (core_wired core) then Ok (mkRules false false ContentAuthEnabled false false)
  else match first_rules (rule_polls core) with
       | Some rules => Ok rules
       | None => Err (Failed "waiting for core")
       end.

Definition contentAuthEnabled : res attest_error bool :=
  let? rules := chainRules in Ok (ContentAuthEnforced rules).

(** ** The user of an upload *)

Definition AudioTemplate : string := "audio".

Definition usable_user (raw : string) : res attest_error Z :=
  match ParseInt raw with
  | Some userID => if userID <=? 0 then Err (Refused "unusable user id") else Ok userID
  | None => Err (Refused "unusable user id")
  end.

Definition resolveUploadUserID (template : string) (metadata : gmap string string) : res attest_error Z :=
  if negb (String.eqb template AudioTemplate) then Ok 0
  else
    let raw := default "" (metadata !! "userId") in
    if String.eqb raw "" then
      let? enforced := contentAuthEnabled in
      if enforced then Err (Refused "audio uploads must carry the uploading user's id") else Ok 0
    else usable_user raw.

Definition resolveOptionalUploadUserID (template raw : string) : res attest_error Z :=
  if negb (String.eqb template AudioTemplate) || String.eqb raw "" then Ok 0 else usable_user raw.

Definition nullInt64 (v : Z) : option Z := if v =? 0 then None else Some v.

(** ** Attestations *)

Definition contentAttestationFor (userID : option Z) (cids : list string) : res attest_error (option ContentAttestation) :=
  let? enforced := contentAuthEnabled in
  if negb enforced then Ok None
  else
    let present := List.filter (fun cid => negb (String.eqb cid "")) cids in
    match present, userID with
    | [], _ | _, None => Ok None
    | _, Some u => if u =? 0 then Ok None else Ok (Some (mkContentAttestation u present Self_Wallet ""))
    end.

Definition with_signature (ca : ContentAttestation) (sig : string) : ContentAttestation :=
  mkContentAttestation (ca_UserId ca) (ca_Cids ca) (ca_ValidatorAddress ca) sig.

(** A transaction counts as sent once a block includes it, whatever its result there. *)
Definition sendContentAttestation (ca : ContentAttestation) : proc dbAuthStore attest_error unit := fun st =>
  if negb (core_wired core) then (st, Ok tt)
  else match ContentAttestationBytes marshal_payload ca with
       | None => (st, Err (Failed "marshal"))
       | Some payload =>
           match EthSign privateKey payload with
           | None => (st, Err (Failed "sign"))
           | Some sig =>
               let ca := with_signature ca sig in
               match included core ca with
               | None => (st, Err (Failed "send"))
               | Some (txHash, height) =>
                   ((finalizeContentAttestation marshal_payload upgrades registered (Some ca) txHash height st).1, Ok tt)
               end
           end
       end.

Definition attestUploadCids (userID : option Z) (cids : list string) : proc dbAuthStore attest_error unit :=
  let! ca := query (fun _ => contentAttestationFor userID cids) in
  match ca with
  | None => pret tt
  | Some ca => sendContentAttestation ca
  end.

Definition contentAttestation (userID : Z) (cid validatorAddress : string) : ContentAttestation :=
  mkContentAttestation userID [cid] validatorAddress "".

(** ** Previews *)

Definition previewClaimant (sourceCID : string) (userID : Z) (st : dbAuthStore) : res attest_error Z :=
  match contentAuthEnabled with
  | Err _ => Err Unverifiable
  | Ok false => Ok 0
  | Ok true =>
      if userID =? 0 then Err (Refused "preview requests must carry the requesting user's id")
      else if negb (core_wired core) then Err Unverifiable
      else match IsCidClaimedByUser st sourceCID userID with
           | Err _ => Err Unverifiable
           | Ok false => Err (Refused "may not claim")
           | Ok true => Ok userID
           end
  end.

Definition attestPreviewCid (userID : Z) (previewCID : string) : proc dbAuthStore attest_error unit :=
  if (userID =? 0) || String.eqb previewCID "" || negb (core_wired core) then pret tt
  else sendContentAttestation (contentAttestation userID previewCID Self_Wallet).

(** The asserted user in the query string. *)
Definition previewRequestUserID (raw : string) : res attest_error Z := if String.eqb raw "" then Ok 0 else usable_user raw.

Inductive preview_answer := PreviewOk (cid : string) | PreviewStatus (status : Z).

(** [produce] is generateAudioPreview: the cid of the slice, [None] beside an error. *)
Definition generatePreview (produce : string -> string -> option string) (fileHash start rawUser : string) :
    proc dbAuthStore attest_error preview_answer := fun st =>
  match previewRequestUserID rawUser with
  | Err _ => (st, Ok (PreviewStatus 400))
  | Ok userID =>
      match previewClaimant fileHash userID st with
      | Err Unverifiable => (st, Ok (PreviewStatus 503))
      | Err _ => (st, Ok (PreviewStatus 401))
      | Ok claimant =>
          match produce fileHash start with
          | None => (st, Err (Failed "preview"))
          | Some cid =>
              match attestPreviewCid claimant cid st with
              | (st, Err err) => (st, Err err)
              | (st, Ok _) => (st, Ok (PreviewOk cid))
              end
          end
      end
  end.
End Attest.

(** ** Plays *)

Definition playBatch : nat := 500.

Definition popPlayEventBatch (l : list PlayEvent) : list PlayEvent * list PlayEvent :=
  let batchSize := Nat.min (length l) playBatch in
  (take batchSize l, drop batchSize l).

(** The last play of each request signature; the tables of a Go map in no particular
    order. *)
Definition uniquePlays (batch : list PlayEvent) : gmap string PlayEvent :=
  fold_left (fun m p => <[RequestSignature p := p]> m) batch ∅.

(** [sent] says whether the plays, signed, were submitted: an error or a panic of the
    core, or no core, is [false].  The batch is off the queue either way. *)
Definition processPlayRecordBatch (sent : list PlayEvent -> bool) (queue : list PlayEvent) : list PlayEvent * res unit (list PlayEvent) :=
  let (batch, queue) := popPlayEventBatch queue in
  match batch with
  | [] => (queue, Ok [])
  | _ =>
      let corePlays := snd <$> map_to_list (uniquePlays batch) in
      (queue, if sent corePlays then Ok corePlays else Err tt)
  end.

(** ** Claims *)

Definition claimed (st : dbAuthStore) (cid : string) (u : Z) : Prop := is_Some (core_auth_cids st !! (cid, u)).

(** The claims of [st'] that [st] has not are in [new]. *)
Definition claims_within (new : string -> Z -> Prop) (st st' : dbAuthStore) : Prop :=
  forall cid u, claimed st' cid u -> claimed st cid u \/ new cid u.

Lemma claims_within_refl new st : claims_within new st st.
Proof. intros ??; auto. Qed.

Lemma claimed_insert_new cid u v st k w :
  claimed (set_cids (insert_new (cid, u) v) st) k w <-> claimed st k w \/ (k = cid /\ w = u).
Proof.
  unfold claimed, insert_new. cbn. destruct (core_auth_cids st !! (cid, u)) eqn:E; cbn.
  - split; [auto|]. intros [?|[-> ->]]; [done|]. eauto.
  - rewrite lookup_insert_is_Some. split.
    + intros [[= -> ->]|[_ ?]]; auto.
    + intros [?|[-> ->]]; [|auto]. destruct (decide ((cid, u) = (k, w))); auto.
Qed.

Lemma insert_cids_within u h l st :
  claims_within (fun cid w => cid ∈ l /\ w = u) st
    (for_each (fun cid => if String.eqb cid "" then pret tt else InsertCid cid u h) l st).1.
Proof.
  revert st. induction l as [|cid l IH]; intros st; [apply claims_within_refl|]. cbn [for_each]. unfold pbind.
  destruct (String.eqb_spec cid "") as [->|Hne].
  - cbn. intros k w H. destruct (IH st k w H) as [?|[? ?]]; [auto|]. right. split; [by apply list_elem_of_further|done].
  - cbn [InsertCid dbAuthStore_store authStore_writer dbAuthStore_writer]. unfold db_exec.
    destruct (db_fault st _); [apply claims_within_refl|]. intros k w H.
    destruct (IH (set_cids (insert_new (cid, u) h) st) k w H) as [[?|[-> ->]]%claimed_insert_new|[? ?]]; [auto|right..].
    + split; [by apply list_elem_of_here|done].
    + split; [by apply list_elem_of_further|done].
Qed.

Lemma insert_cids_claims u h l st :
  (forall q, db_fault st q = false) ->
  let st' := (for_each (fun cid => if String.eqb cid "" then pret tt else InsertCid cid u h) l st).1 in
  (for_each (fun cid => if String.eqb cid "" then pret tt else InsertCid cid u h) l st).2 = Ok tt /\
  (forall k w, claimed st k w -> claimed st' k w) /\ (forall cid, cid ∈ l -> cid <> "" -> claimed st' cid u).
Proof.
  revert st. induction l as [|cid l IH]; intros st Hf; cbn [for_each].
  { split; [done|]. split; [done|]. intros cid Hin. by apply elem_of_nil in Hin. }
  unfold pbind. destruct (String.eqb_spec cid "") as [->|Hne].
  - cbn. destruct (IH st Hf) as (H1 & H2 & H3). split; [done|]. split; [done|].
    intros k [->|Hin]%elem_of_cons Hk; [done|]. by apply H3.
  - cbn [InsertCid dbAuthStore_store authStore_writer dbAuthStore_writer]. unfold db_exec. rewrite Hf.
    destruct (IH (set_cids (insert_new (cid, u) h) st) Hf) as (H1 & H2 & H3). split; [done|]. split.
    + intros k w Hk. apply H2, claimed_insert_new. auto.
    + intros k [->|Hin]%elem_of_cons Hk; [|by apply H3]. apply H2, claimed_insert_new. auto.
Qed.

Section Claims.
Context {C : EthCrypto}.
Context (marshal_payload : Z -> list string -> option string).
Context (upgrades : option UpgradeSchedule) (registered : string -> option bool).
Context (ContentAuthEnabled : bool) (Self_Wallet : string) (privateKey : privkey).

Lemma finalize_within ca h height st :
  claims_within (fun cid w => cid ∈ ca_Cids ca /\ w = ca_UserId ca) st
    (finalizeContentAttestation marshal_payload upgrades registered (Some ca) h height st).1.
Proof.
  unfold finalizeContentAttestation. case_match; [apply claims_within_refl|]. case_match; [|apply claims_within_refl].
  unfold projectContentAttestationCids, reject_if, pbind. destruct (ca_UserId ca =? 0); [apply claims_within_refl|]. cbn [pret].
  pose proof (insert_cids_within (ca_UserId ca) h (ca_Cids ca) st) as Hw.
  destruct (for_each _ _ _) as [st' r]. exact Hw.
Qed.

Lemma send_within core ca st :
  claims_within (fun cid w => cid ∈ ca_Cids ca /\ w = ca_UserId ca) st
    (sendContentAttestation marshal_payload upgrades registered privateKey core ca st).1.
Proof.
  unfold sendContentAttestation. case_match; [apply claims_within_refl|]. do 2 (case_match; [|apply claims_within_refl]).
  destruct (included _ _) as [[h height]|]; [|apply claims_within_refl]. exact (finalize_within (with_signature ca _) h height st).
Qed.

Lemma attest_within core user cids st :
  claims_within (fun cid w => user = Some w /\ cid ∈ cids) st
    (attestUploadCids marshal_payload upgrades registered ContentAuthEnabled Self_Wallet privateKey core user cids st).1.
Proof.
  unfold attestUploadCids, pbind, query. destruct (contentAttestationFor _ _ _ _ _) as [[ca|]|] eqn:E; try apply claims_within_refl.
  unfold contentAttestationFor in E. destruct (contentAuthEnabled _ _) as [[]|]; cbn in E; try done.
  set (present := List.filter _ _) in E. assert (ca_Cids ca = present /\ user = Some (ca_UserId ca)) as [Ec Eu].
  { destruct present, user as [u|]; try done. destruct (u =? 0); [done|]. by injection E as <-. }
  intros k w H. destruct (send_within core ca st k w H) as [?|[Hin ->]]; [auto|]. right. split; [done|].
  rewrite Ec in Hin. apply list_elem_of_In, List.filter_In in Hin as [Hin _]. by apply list_elem_of_In.
Qed.

Lemma claimant_claims core src u st w : previewClaimant ContentAuthEnabled core src u st = Ok w -> w = 0 \/ (w = u /\ claimed st src u).
Proof.
  unfold previewClaimant. destruct (contentAuthEnabled _ _) as [[]|]; [|intros [= <-]; auto|done]. do 2 (case_match; [done|]).
  cbn. unfold db_ask. destruct (db_fault _ _); [done|]. case_bool_decide; [|done]. intros [= <-]. auto.
Qed.

Lemma preview_within core produce src start raw st :
  claims_within (fun cid w => ParseInt raw = Some w /\ produce src start = Some cid /\ claimed st src w) st
    (generatePreview marshal_payload upgrades registered ContentAuthEnabled Self_Wallet privateKey core produce src start raw st).1.
Proof.
  unfold generatePreview. destruct (previewRequestUserID raw) as [u|] eqn:Eu; [|apply claims_within_refl].
  destruct (previewClaimant _ _ _ _ _) as [w|[]] eqn:Ec; try apply claims_within_refl.
  destruct (produce src start) as [cid|] eqn:Ep; [|apply claims_within_refl].
  unfold attestPreviewCid. destruct (_ || _) eqn:Eg; [apply claims_within_refl|].
  apply orb_false_iff in Eg as [Eg _]. apply orb_false_iff in Eg as [Hw _]. apply Z.eqb_neq in Hw.
  pose proof (send_within core (contentAttestation w cid Self_Wallet) st) as Hs.
  destruct (sendContentAttestation _ _ _ _ _ _ _) as [st' [[]|]]; cbn [fst] in *.
  all: intros k x H; destruct (Hs k x H) as [?|[Hin ->]]; [auto|]; right; cbn in Hin; apply list_elem_of_singleton in Hin as ->.
  all: destruct (claimant_claims _ _ _ _ _ Ec) as [?|[-> Hcl]]; [done|]; cbn; split; [|done].
  all: unfold previewRequestUserID, usable_user in Eu; repeat case_match; simplify_eq; done.
Qed.

(** *** What a node does, over time *)

Context (produce : string -> string -> option string).

(** Each operation with the core as it is at the time. *)
Inductive node_op :=
| OpUpload (core : core_link) (user : option Z) (cids : list string)
| OpPreview (core : core_link) (source start rawUser : string).

Definition node_step (st : dbAuthStore) (op : node_op) : dbAuthStore :=
  match op with
  | OpUpload core user cids =>
      (attestUploadCids marshal_payload upgrades registered ContentAuthEnabled Self_Wallet privateKey core user cids st).1
  | OpPreview core source start rawUser =>
      (generatePreview marshal_payload upgrades registered ContentAuthEnabled Self_Wallet privateKey core produce source start rawUser st).1
  end.

(** Where a claim may come from: bytes uploaded for the user, or a preview of a cid
    that is, in turn, of such an origin. *)
Inductive origin (ops : list node_op) : string -> Z -> Prop :=
| origin_upload core u cids cid : OpUpload core (Some u) cids ∈ ops -> cid ∈ cids -> origin ops cid u
| origin_preview core source start rawUser cid u :
    OpPreview core source start rawUser ∈ ops -> ParseInt rawUser = Some u ->
    produce source start = Some cid -> origin ops source u -> origin ops cid u.

Lemma origin_mono ops ops' cid u : ops ⊆ ops' -> origin ops cid u -> origin ops' cid u.
Proof. intros Hs. induction 1; [eapply origin_upload|eapply origin_preview]; eauto. Qed.

Lemma step_origins ops op st : op ∈ ops -> (forall cid u, claimed st cid u -> origin ops cid u) ->
  forall cid u, claimed (node_step st op) cid u -> origin ops cid u.
Proof.
  intros Hop Hst cid u H. destruct op as [core user cids|core source start rawUser]; cbn in H.
  - destruct (attest_within core user cids st cid u H) as [?|[-> Hin]]; [auto|]. by eapply origin_upload.
  - destruct (preview_within core produce source start rawUser st cid u H) as [?|(Hu & Hp & Hc)]; [auto|].
    eapply origin_preview; eauto.
Qed.

(** C17 -- A node mints no claim out of nothing: after any uploads and previews, with the
    core in any state while they run, every claim is of a cid that was uploaded for
    that user, or of a preview whose source that user claimed through such a chain.
    The asserted user of a preview earns nothing over a source he does not claim. *)
Theorem every_claim_has_an_origin ops st : core_auth_cids st = ∅ ->
  forall cid u, claimed (fold_left node_step ops st) cid u -> origin ops cid u.
Proof.
  intros Hst. assert (forall done todo st1, (forall cid u, claimed st1 cid u -> origin (app done todo) cid u) ->
    forall cid u, claimed (fold_left node_step todo st1) cid u -> origin (app done todo) cid u) as Hgen.
  { intros done todo. revert done. induction todo as [|op todo IH]; intros done st1 H1; [exact H1|]. cbn [fold_left].
    intros cid u H. replace (app done (op :: todo)) with (app (app done [op]) todo) in * by by rewrite <- (assoc_L app).
    refine (IH (app done [op]) (node_step st1 op) _ cid u H).
    apply step_origins; [|exact H1]. set_solver. }
  apply (Hgen [] ops). intros cid u [x Hx]. by rewrite Hst, lookup_empty in Hx.
Qed.
End Claims.

(** ** Uploads earn their claims *)

Lemma hex_encode_nil s : hex_encode s = "" -> s = "".
Proof. by destruct s. Qed.

Section Earned.
Context {C : EthCrypto} {L : EthCryptoLaws C}.
Context (marshal_payload : Z -> list string -> option string).
Context (upgrades : option UpgradeSchedule) (registered : string -> option bool).
Context (ContentAuthEnabled : bool) (Self_Wallet : string) (privateKey : privkey).
Context (core : core_link).

(** What the node signs is what the core verifies. *)
Lemma signed_attestation_is_valid ca payload sig :
  ca_UserId ca <> 0 -> ca_Cids ca <> [] -> Forall (fun cid => cid <> "") (ca_Cids ca) -> ca_ValidatorAddress ca <> "" ->
  EqualFold (PrivKeyToAddress privateKey) (ca_ValidatorAddress ca) = true -> registered (ca_ValidatorAddress ca) = Some true ->
  ContentAttestationBytes marshal_payload ca = Some payload -> EthSign privateKey payload = Some sig ->
  isValidContentAttestation marshal_payload registered (Some (with_signature ca sig)) = Ok tt.
Proof using L.
  intros Hu Hc Hne Hv Hw Hr Hb Hs. unfold isValidContentAttestation. cbn.
  destruct (Z.eqb_spec (ca_UserId ca) 0); [done|]. rewrite bool_decide_false by done.
  replace (existsb _ _) with false; [|symmetry; apply not_true_is_false; rewrite List.existsb_exists;
    intros (cid & Hin & E%String.eqb_eq); rewrite Forall_forall in Hne; by apply (Hne cid); [apply list_elem_of_In|]].
  destruct (String.eqb_spec (ca_ValidatorAddress ca) ""); [done|].
  destruct (String.eqb_spec sig "") as [->|_].
  { exfalso. unfold EthSign in Hs. destruct (crypto_Sign _ _) as [raw|] eqn:E; [|done].
    injection Hs as Hs. apply hex_encode_nil in Hs as ->. by destruct (Sign_format _ _ _ E) as [? _]. }
  unfold ContentAttestationBytes in *. cbn. rewrite Hb.
  rewrite (EthRecover_EthSign privateKey payload sig Hs), Hw. cbn. by rewrite Hr.
Qed.

(** C27 -- An upload made for a user earns its claims: with content auth enforced and a
    registered node whose wallet is its key's, once a block includes the attestation
    the node sent, attestUploadCids returns without an error and the user claims
    every cid of the upload. *)
Theorem uploads_earn_their_claims u cids st rules :
  core_wired core = true -> first_rules (rule_polls core) = Some rules -> ContentAuthEnforced rules = true ->
  u <> 0 -> Self_Wallet <> "" -> EqualFold (PrivKeyToAddress privateKey) Self_Wallet = true -> registered Self_Wallet = Some true ->
  (forall ids, exists payload sig, marshal_payload u ids = Some payload /\ EthSign privateKey payload = Some sig) ->
  (forall ca, exists h height, included core ca = Some (h, height) /\ ContentAuthEnforced (RulesetAt upgrades height) = true) ->
  (forall q, db_fault st q = false) ->
  let run := attestUploadCids marshal_payload upgrades registered ContentAuthEnabled Self_Wallet privateKey core (Some u) cids st in
  run.2 = Ok tt /\ forall cid, cid ∈ cids -> cid <> "" -> claimed run.1 cid u.
Proof using L.
  intros Hw Hp Hr Hu Hs Hk Hreg Hsig Hinc Hf run. subst run. unfold attestUploadCids, pbind, query, contentAttestationFor.
  unfold contentAuthEnabled, chainRules. rewrite Hw, Hp. cbn [negb rbind]. rewrite Hr. cbn [negb].
  set (present := List.filter _ _). assert (forall cid, cid ∈ present <-> cid ∈ cids /\ cid <> "") as Hpres.
  { intros cid. unfold present. rewrite !list_elem_of_In, List.filter_In, negb_true_iff, String.eqb_neq. done. }
  destruct present as [|p ps] eqn:Epres.
  { split; [done|]. intros cid Hin Hne. by assert (cid ∈ @nil string) as ?%elem_of_nil by (apply Hpres; done). }
  destruct (Z.eqb_spec u 0); [done|]. unfold sendContentAttestation. rewrite Hw. cbn [negb].
  destruct (Hsig (p :: ps)) as (payload & sig & Hm & Hsg). unfold ContentAttestationBytes. cbn [ca_UserId ca_Cids]. rewrite Hm, Hsg.
  set (ca := mkContentAttestation u (p :: ps) Self_Wallet "").
  destruct (Hinc (with_signature ca sig)) as (h & height & -> & Henf). split; [done|].
  unfold finalizeContentAttestation. rewrite Henf. cbn [negb].
  rewrite (signed_attestation_is_valid ca payload sig); try done; [|by apply Forall_forall; intros cid []%Hpres].
  unfold projectContentAttestationCids, reject_if, pbind. cbn [with_signature ca ca_UserId ca_Cids].
  destruct (Z.eqb_spec u 0); [done|]. cbn [pret].
  destruct (insert_cids_claims u h (p :: ps) st Hf) as (_ & _ & Hcl).
  destruct (for_each _ _ _) as [st' r]. cbn [fst] in *. intros cid Hin Hne. apply Hcl; [|done]. by apply Hpres.
Qed.
End Earned.

(** ** A node at work *)

Module Desk.
Definition wallet : string := "0x6b".
Definition upgrades : option UpgradeSchedule := Some (mkUpgradeSchedule 1 1 1 1 1).
Definition strict : Rules := RulesetAt upgrades 5.
Definition link : core_link := mkCoreLink true [None; Some strict] (fun _ => Some ("h", 9)).
Definition marshal (_ : Z) (_ : list string) : option string := Some "payload".
Definition registered (w : string) : option bool := Some (String.eqb w wallet).
Definition produce (src start : string) : option string := Some ("preview-" +:+ src).
Definition db : dbAuthStore := mkDbAuthStore ∅ ∅ ∅ ∅ ∅ (fun _ => false).
(** User 7 uploads; 7 and 8 ask for a preview. *)
Definition ops : list node_op :=
  [OpUpload link (Some 7) ["cidA"; ""]; OpPreview link "cidA" "30" "7"; OpPreview link "cidA" "30" "8"].
Definition final : dbAuthStore :=
  fold_left (node_step (C := Toy.crypto) marshal upgrades registered false wallet "k"%char produce) ops db.
End Desk.

Lemma every_claim_has_an_origin_witness :
  claimed Desk.final "cidA" 7 /\ claimed Desk.final "preview-cidA" 7 /\ ~ claimed Desk.final "preview-cidA" 8 /\
  origin Desk.produce Desk.ops "preview-cidA" 7.
Proof.
  split; [vm_compute; eauto|]. split; [vm_compute; eauto|].
  split; [intros [x Hx]; vm_compute in Hx; discriminate|].
  apply (every_claim_has_an_origin (C := Toy.crypto) Desk.marshal Desk.upgrades Desk.registered false Desk.wallet "k"%char Desk.produce Desk.ops Desk.db eq_refl).
  vm_compute. eauto.
Defined.

Lemma uploads_earn_their_claims_witness :
  let run := attestUploadCids (C := Toy.crypto) Desk.marshal Desk.upgrades Desk.registered false Desk.wallet "k"%char Desk.link
               (Some 7) ["cidA"; "cidB"] Desk.db in
  run.2 = Ok tt /\ claimed run.1 "cidB" 7.
Proof.
  destruct (uploads_earn_their_claims (C := Toy.crypto) (L := Toy.laws) Desk.marshal Desk.upgrades Desk.registered false Desk.wallet "k"%char
              Desk.link 7 ["cidA"; "cidB"] Desk.db Desk.strict eq_refl eq_refl eq_refl ltac:(done) ltac:(done) eq_refl eq_refl) as [H1 H2].
  - intros ids. eexists _, _. split; [reflexivity|vm_compute; reflexivity].
  - intros ca. exists "h", 9. split; reflexivity.
  - reflexivity.
  - split; [exact H1|]. apply H2; [set_solver|done].
Defined.
