(* ===== verification/MediaWaveform.v ===== *)
(** * Waveforms

    Models the analysis of audio on a storage node (server/waveform_worker.go): the
    table of waveforms and its statuses, the queue and its workers, and the sweeps that
    fill it (retries, uploads newest first, legacy blobs).  The envelope itself is a
    parameter; the rollup and the progress shown to operators are left out. *)

From stdpp Require Import base gmap strings list sorting fin_maps.
From Stdlib Require Import ZArith Lia Ascii.
From S2P Require Import Prelude Crypto Rendezvous Snapshots MediaStore MediaPresence MediaExamples MediaAccess MediaAttest.

Open Scope string_scope.
Open Scope Z_scope.

(** ** Data *)

Definition waveformStatusDone : string := "done".
Definition waveformStatusError : string := "error".
Definition waveformStatusNotLocal : string := "not_local".
Definition waveformStatusUnavailable : string := "unavailable".
Definition waveformStatusArchiveSkipped : string := "archive_skipped".
Definition waveformStatusNotAudio : string := "not_audio".

Definition waveformMaxTries : Z := 3.
Definition waveformRetryBackoffError : Z := 6 * media_hour.
Definition waveformRetryBackoffNotLocal : Z := 24 * media_hour.
Definition waveformRetryBackoffUnavailable : Z := 30 * 60 * media_second.
Definition waveformMinAnalyzableBytes : Z := 64 * 1024.
Definition waveformSweepBatchLimit : nat := 50.
Definition waveformDiscoveryLimit : nat := 100.
Definition waveformMaxBatchesPerSweep : nat := 20.
Definition waveformRewalkInterval : Z := 6 * media_hour.
Definition waveformQueueDepth : nat := 256.
Definition waveformRedirectMaxProbes : nat := 3.

Record waveformJob := mkWaveformJob {
  wj_cid : string;
  wj_uploadID : string;
  wj_placementHosts : list string;
  wj_localPath : string
}.

(** A row of waveforms. *)
Record waveformRow := mkWaveformRow {
  wf_peaks : string;
  wf_version : Z;
  wf_status : string;
  wf_error_count : Z;
  wf_upload_id : option string;
  wf_last_attempted_at : Z
}.

(** The row of waveform_cursor; [wc_position] is null while a walk has not passed an
    upload. *)
Record waveformCursor := mkWaveformCursor {
  wc_position : option (Z * string);
  wc_exhausted : bool;
  wc_version : Z;
  wc_queued : Z;
  wc_skipped : Z;
  wc_updated_at : Z;
  wc_qm_key : string
}.

(** The part of an uploads row read here. *)
Record audio_upload := mkAudioUpload {
  au_ID : string;
  au_Template : string;
  au_CreatedAt : Z;
  au_TranscodeResults : gmap string string;
  au_SelectedPreview : option string;
  au_PlacementHosts : list string
}.

Record waver := mkWaver {
  wv_media : media;
  waveforms : gmap string waveformRow;
  waveformWork : list waveformJob;
  waveform_cursor : option waveformCursor
}.
Definition set_rows f (s : waver) : waver := mkWaver (wv_media s) (f (waveforms s)) (waveformWork s) (waveform_cursor s).
Definition set_work f (s : waver) : waver := mkWaver (wv_media s) (waveforms s) (f (waveformWork s)) (waveform_cursor s).
Definition set_cursor c (s : waver) : waver := mkWaver (wv_media s) (waveforms s) (waveformWork s) c.

(** The statements that may fail, those of a sweep with the number of the batch. *)
Inductive wave_sql :=
| WStamp (cid : string)
| WMark (cid : string)
| WError (cid : string)
| WUpsert (cid : string)
| WRetries
| WGetCursor
| WResetCursor
| WExhausted
| WBatch (b : nat)
| WSetCursor (b : nat)
| WLegacy (b : nat)
| WLegacyCursor (b : nat)
| WLink
| WLinkPreviews
| WLookup (cid : string).

(** The calls of a job that take its context, in their order. *)
Inductive job_call := CAttrs | CRead | CCompute | CRecord.
Definition call_no (c : job_call) : nat := match c with CAttrs => 0 | CRead => 1 | CCompute => 2 | CRecord => 3 end.

(** What a walk goes by: newest first, ids compared byte by byte. *)
Definition position (u : audio_upload) : Z * string := (au_CreatedAt u, au_ID u).
Definition pos_ltb (p q : Z * string) : bool := (p.1 <? q.1) || ((p.1 =? q.1) && String.ltb p.2 q.2).
Definition newer (u v : audio_upload) : Prop := pos_ltb (position u) (position v) = false.
#[export] Instance newer_dec u v : Decision (newer u v).
Proof. unfold newer. apply _. Defined.

Definition result_of (u : audio_upload) (k : string) : string := default "" (au_TranscodeResults u !! k).

Definition waveformTargets (u : audio_upload) : list waveformJob :=
  let cid320 := result_of u "320" in
  app (if String.eqb cid320 "" then [] else [mkWaveformJob cid320 (au_ID u) (au_PlacementHosts u) ""])
      (match au_SelectedPreview u with
       | Some sel =>
           let cid := result_of u sel in
           if negb (String.eqb cid "") && negb (String.eqb cid cid320) then [mkWaveformJob cid (au_ID u) [] ""] else []
       | None => []
       end).

Section Waveform.
Context (sha256 : string -> string).
Context (ss : MediorumServer).
(** WaveformArchiveEnabled, WaveformBackfillEnabled and WaveformEnabled. *)
Context (archive_on backfill_on enabled : bool).
Context (waveformVersion : Z).
(** computeWaveform: the peaks, [None] beside an error. *)
Context (computeWaveform : string -> option string).
Context (contentType : string -> string).
(** The bytes of a local file, [None] when it cannot be opened. *)
Context (local_file : string -> option string).
Context (w : world) (fault : wave_sql -> bool).
(** The first call of a job that finds its timeout over, [None] for a job that ends
    in time. *)
Context (deadline : waveformJob -> option job_call).

(** ** The table

    The first argument of a write says that its context is over: the statement fails. *)

Definition nullableUploadID (id : string) : option string := if String.eqb id "" then None else Some id.

Definition coalesce (x y : option string) : option string := match x with Some _ => x | None => y end.

(** The upload a row ends up with: a known one is never cleared. *)
Definition owner_of (cid uploadID : string) (rows : gmap string waveformRow) : option string :=
  coalesce (nullableUploadID uploadID) (rows !! cid ≫= wf_upload_id).

Definition upsertWaveform (over : bool) (cid uploadID peaks : string) (s : waver) : waver * bool :=
  if over || fault (WUpsert cid) then (s, false)
  else (set_rows (fun rows => <[cid := mkWaveformRow peaks waveformVersion waveformStatusDone 0 (owner_of cid uploadID rows) (now w)]> rows) s, true).

Definition markWaveformStatus (over : bool) (cid uploadID status : string) (s : waver) : waver * bool :=
  if over || fault (WMark cid) then (s, false)
  else
    (set_rows (fun rows =>
       <[cid := mkWaveformRow (default "" (wf_peaks <$> rows !! cid)) waveformVersion status
                  (default 0 (wf_error_count <$> rows !! cid)) (owner_of cid uploadID rows) (now w)]> rows) s, true).

Definition markWaveformError (over : bool) (cid uploadID : string) (s : waver) : waver * bool :=
  if over || fault (WError cid) then (s, false)
  else
    (set_rows (fun rows =>
       <[cid := mkWaveformRow (default "" (wf_peaks <$> rows !! cid)) waveformVersion waveformStatusError
                  (default 0 (wf_error_count <$> rows !! cid) + 1) (owner_of cid uploadID rows) (now w)]> rows) s, true).

Definition stampWaveformAttempt (cid : string) (s : waver) : waver :=
  if fault (WStamp cid) then s
  else set_rows (alter (fun r => mkWaveformRow (wf_peaks r) (wf_version r) (wf_status r) (wf_error_count r) (wf_upload_id r) (now w)) cid) s.

(** ** Workers *)

(** The timeout of a job is over at call [c], and at every later one. *)
Definition over (job : waveformJob) (c : job_call) : bool :=
  match deadline job with Some d => (call_no d <=? call_no c)%nat | None => false end.
Definition until {A} (job : waveformJob) (c : job_call) (r : res media_error A) : res media_error A :=
  if over job c then Err MCanceled else r.
Definition compute_in_time (job : waveformJob) (bytes : string) : option string :=
  if over job CCompute then None else computeWaveform bytes.

Definition analyzeWaveformFromFile (job : waveformJob) (s : waver) : waver :=
  match local_file (wj_localPath job) with
  | None => s
  | Some bytes =>
      match compute_in_time job bytes with
      | None => (markWaveformError (over job CRecord) (wj_cid job) (wj_uploadID job) s).1
      | Some peaks => (upsertWaveform (over job CRecord) (wj_cid job) (wj_uploadID job) peaks s).1
      end
  end.

Definition blobNotAnalyzable (x : blob) : bool :=
  let ct := contentType (content x) in
  HasPrefix "image/" ct || HasPrefix "video/" ct || ((0 <? blob_size x) && (blob_size x <? waveformMinAnalyzableBytes)).

Definition recordWaveformReadFailure (job : waveformJob) (err : media_error) (s : waver) : waver :=
  let status := match err with MNotFound => waveformStatusNotLocal | _ => waveformStatusUnavailable end in
  (markWaveformStatus (over job CRecord) (wj_cid job) (wj_uploadID job) status s).1.

(** [None] is a panic. *)
Definition analyzeWaveform (job : waveformJob) (s : waver) : option waver :=
  if negb (String.eqb (wj_localPath job) "") then Some (analyzeWaveformFromFile job s)
  else if negb archive_on && isArchiveCID sha256 ss (wj_cid job) (wj_placementHosts job) then
    Some (markWaveformStatus (over job CRecord) (wj_cid job) (wj_uploadID job) waveformStatusArchiveSkipped s).1
  else
    key ← ShardCID (wj_cid job);
    Some match until job CAttrs (blobAttrs ss w key (wv_media s)) with
         | Err err => recordWaveformReadFailure job err s
         | Ok (attrs, _) =>
             if blobNotAnalyzable attrs then (markWaveformStatus (over job CRecord) (wj_cid job) (wj_uploadID job) waveformStatusNotAudio s).1
             else match until job CRead (readBlob ss w key (wv_media s)) with
                  | Err err => recordWaveformReadFailure job err s
                  | Ok (x, _) =>
                      match compute_in_time job (content x) with
                      | None => (markWaveformError (over job CRecord) (wj_cid job) (wj_uploadID job) s).1
                      | Some peaks => (upsertWaveform (over job CRecord) (wj_cid job) (wj_uploadID job) peaks s).1
                      end
                  end
         end.

(** The attempt is stamped with the context of the worker, before the timeout starts. *)
Definition processWaveformJob (job : waveformJob) (s : waver) : option waver :=
  analyzeWaveform job (stampWaveformAttempt (wj_cid job) s).

(** The workers empty the queue. *)
Fixpoint drain (jobs : list waveformJob) (s : waver) : option waver :=
  match jobs with
  | [] => Some s
  | job :: jobs' => s' ← processWaveformJob job s; drain jobs' s'
  end.
Definition drain_queue (s : waver) : option waver := drain (waveformWork s) (set_work (fun _ => []) s).

Definition enqueueWaveformJob (job : waveformJob) (s : waver) : option waver :=
  if (length (waveformWork s) <? waveformQueueDepth)%nat then Some (set_work (fun l => app l [job]) s) else None.

(** ** Retries *)

Definition due (r : waveformRow) : bool :=
  let waited d := wf_last_attempted_at r <=? now w - d in
  (String.eqb (wf_status r) waveformStatusError && (wf_error_count r <? waveformMaxTries) && waited waveformRetryBackoffError)
  || (String.eqb (wf_status r) waveformStatusNotLocal && waited waveformRetryBackoffNotLocal)
  || (String.eqb (wf_status r) waveformStatusUnavailable && waited waveformRetryBackoffUnavailable)
  || (archive_on && String.eqb (wf_status r) waveformStatusArchiveSkipped && waited waveformRetryBackoffNotLocal).

(** A row whose cid is its upload's 320 gets the placement of the upload. *)
Definition retry_job (us : list audio_upload) (cid : string) (r : waveformRow) : waveformJob :=
  let id := default "" (wf_upload_id r) in
  let hosts := match List.find (fun u => String.eqb (au_ID u) id) us with
               | Some u => if negb (String.eqb cid "") && String.eqb (result_of u "320") cid then au_PlacementHosts u else []
               | None => []
               end in
  mkWaveformJob cid id hosts "".

Fixpoint offer_jobs (jobs : list waveformJob) (s : waver) (queued : Z) : waver * Z :=
  match jobs with
  | [] => (s, queued)
  | job :: jobs' => match enqueueWaveformJob job s with Some s' => offer_jobs jobs' s' (queued + 1) | None => (s, queued) end
  end.

(** The rows come in no particular order. *)
Definition sweepWaveformRetries (us : list audio_upload) (s : waver) : waver * bool :=
  if fault WRetries || ctx_done w then (s, false)
  else
    let rows := take waveformSweepBatchLimit (List.filter (fun kr => due kr.2) (map_to_list (waveforms s))) in
    let '(s, queued) := offer_jobs (map (fun kr => retry_job us kr.1 kr.2) rows) s 0 in
    (s, 0 <? queued).

(** ** The walk over uploads *)

Definition counted (id : string) (kr : string * waveformRow) : Prop := wf_upload_id kr.2 = Some id /\ wf_version kr.2 = waveformVersion.
#[local] Instance counted_dec id kr : Decision (counted id kr).
Proof. unfold counted. apply _. Defined.
Definition rows_of_upload (id : string) (rows : gmap string waveformRow) : nat := size (filter (counted id) rows).

(** How many rows the query expects of an upload. *)
Definition expected_rows (u : audio_upload) : nat :=
  ((if String.eqb (result_of u "320") "" then 0 else 1) +
   match au_SelectedPreview u with
   | Some sel =>
       if negb (String.eqb sel "") && negb (String.eqb (result_of u sel) "") && negb (String.eqb (result_of u sel) (result_of u "320"))
       then 1 else 0
   | None => 0
   end)%nat.

Definition outstanding (rows : gmap string waveformRow) (u : audio_upload) : bool :=
  String.eqb (au_Template u) AudioTemplate && negb (String.eqb (result_of u "320") "") &&
  (rows_of_upload (au_ID u) rows <? expected_rows u)%nat.

Definition below (cur : option (Z * string)) (u : audio_upload) : bool :=
  match cur with Some p => pos_ltb (position u) p | None => true end.

Definition nextWaveformUploadBatch (us : list audio_upload) (cur : option (Z * string)) (s : waver) : list audio_upload :=
  take waveformDiscoveryLimit
    (merge_sort newer (List.filter (fun u => outstanding (waveforms s) u && below cur u) us)).

(** No row yet is the start of a walk. *)
Definition getWaveformCursor (s : waver) : waveformCursor :=
  default (mkWaveformCursor None false waveformVersion 0 0 0 "") (waveform_cursor s).

Definition resetWaveformCursor (s : waver) : waver :=
  set_cursor (Some (mkWaveformCursor None false waveformVersion 0 0 (now w) "")) s.

(** A conflicting row keeps its version and its exhausted mark. *)
Definition setWaveformCursor (p : Z * string) (queued skipped : Z) (s : waver) : waver :=
  set_cursor (Some match waveform_cursor s with
                   | None => mkWaveformCursor (Some p) false waveformVersion queued skipped (now w) ""
                   | Some c => mkWaveformCursor (Some p) (wc_exhausted c) (wc_version c) (wc_queued c + queued) (wc_skipped c + skipped) (now w) (wc_qm_key c)
                   end) s.

Definition setWaveformCursorExhausted (s : waver) : waver :=
  set_cursor (Some match waveform_cursor s with
                   | None => mkWaveformCursor None true waveformVersion 0 0 (now w) ""
                   | Some c => mkWaveformCursor (wc_position c) true waveformVersion (wc_queued c) (wc_skipped c) (now w) (wc_qm_key c)
                   end) s.

(** The blobs of one upload: queued and held back, and whether the queue was full. *)
Fixpoint offer_targets (targets : list waveformJob) (s : waver) (queued skipped : Z) : waver * (Z * Z) * bool :=
  match targets with
  | [] => (s, (queued, skipped), false)
  | t :: ts =>
      if negb archive_on && isArchiveCID sha256 ss (wj_cid t) (wj_placementHosts t)
      then offer_targets ts (markWaveformStatus false (wj_cid t) (wj_uploadID t) waveformStatusArchiveSkipped s).1 queued (skipped + 1)
      else match enqueueWaveformJob t s with
           | Some s' => offer_targets ts s' (queued + 1) skipped
           | None => (s, (queued, skipped), true)
           end
  end.

(** The uploads of one batch, up to the first that finds the queue full or the context
    done; [adv] is the last one dealt with. *)
Fixpoint offer_uploads (expired : nat -> bool) (i : nat) (us : list audio_upload) (adv : option audio_upload) (s : waver) (qk : Z * Z) :
    waver * option audio_upload * (Z * Z) * bool :=
  match us with
  | [] => (s, adv, qk, false)
  | u :: us' =>
      if expired i then (s, adv, qk, false)
      else match offer_targets (waveformTargets u) s qk.1 qk.2 with
           | (s', qk', true) => (s', adv, qk', true)
           | (s', qk', false) => offer_uploads expired (S i) us' (Some u) s' qk'
           end
  end.

(** [expired b None] and [expired b (Some i)]: the context is done before the b-th
    batch, before its i-th upload. *)
Fixpoint discovery_loop (expired : nat -> option nat -> bool) (us : list audio_upload) (n b : nat) (cur : option (Z * string)) (queued : Z) (s : waver) :
    waver * bool :=
  match n with
  | O => (s, true)
  | S n' =>
      if expired b None then (s, true)
      else if fault (WBatch b) then (s, 0 <? queued)
      else match nextWaveformUploadBatch us cur s with
           | [] => (if fault WExhausted then s else setWaveformCursorExhausted s, 0 <? queued)
           | batch =>
               let '(s, adv, (q, k), full) := offer_uploads (fun i => expired b (Some i)) 0 batch None s (0, 0) in
               match adv with
               | Some u =>
                   if fault (WSetCursor b) then (s, true)
                   else
                     let s := setWaveformCursor (position u) q k s in
                     if full then (s, true) else discovery_loop expired us n' (S b) (Some (position u)) (queued + q) s
               | None => if full then (s, true) else discovery_loop expired us n' (S b) cur (queued + q) s
               end
           end
  end.

(** Where a sweep starts: [None] when it ends at once. *)
Definition discovery_start (s : waver) : waver * option (option (Z * string)) :=
  if fault WGetCursor then (s, None)
  else
    let cur := getWaveformCursor s in
    let restart s := if fault WResetCursor then (s, None) else (resetWaveformCursor s, Some None) in
    if negb (wc_version cur =? waveformVersion) then restart s
    else if wc_exhausted cur then (if now w - wc_updated_at cur <? waveformRewalkInterval then (s, None) else restart s)
    else (s, Some (wc_position cur)).

Definition sweepWaveformDiscovery (expired : nat -> option nat -> bool) (us : list audio_upload) (s : waver) : waver * bool :=
  match discovery_start s with
  | (s, None) => (s, false)
  | (s, Some cur) => discovery_loop expired us waveformMaxBatchesPerSweep 0 cur 0 s
  end.

(** ** Legacy blobs *)

Definition has_row (cid : string) (rows : gmap string waveformRow) : bool :=
  match rows !! cid with Some r => wf_version r =? waveformVersion | None => false end.

Definition next_legacy (keys : list string) (cur : string) (s : waver) : list string :=
  take waveformDiscoveryLimit
    (merge_sort String.le
       (List.filter (fun k => String.ltb cur k && negb (Contains k "/") && negb (has_row k (waveforms s))) keys)).

Definition setWaveformLegacyCursor (key : string) (s : waver) : waver :=
  set_cursor (Some match waveform_cursor s with
                   | None => mkWaveformCursor None false waveformVersion 0 0 (now w) key
                   | Some c => mkWaveformCursor (wc_position c) (wc_exhausted c) waveformVersion (wc_queued c) (wc_skipped c) (now w) key
                   end) s.

(** Queues keys until the queue is full: the last one queued, and whether it was. *)
Fixpoint offer_keys (keys : list string) (adv : option string) (s : waver) (queued : Z) : waver * option string * Z * bool :=
  match keys with
  | [] => (s, adv, queued, false)
  | k :: ks =>
      match enqueueWaveformJob (mkWaveformJob k "" [] "") s with
      | Some s' => offer_keys ks (Some k) s' (queued + 1)
      | None => (s, adv, queued, true)
      end
  end.

Fixpoint legacy_loop (expired : nat -> bool) (keys : list string) (n b : nat) (cur : string) (queued : Z) (s : waver) : waver * bool :=
  match n with
  | O => (s, 0 <? queued)
  | S n' =>
      if expired b then (s, true)
      else if fault (WLegacy b) then (s, 0 <? queued)
      else match next_legacy keys cur s with
           | [] => (s, 0 <? queued)
           | batch =>
               let '(s, adv, queued, full) := offer_keys batch None s queued in
               match adv with
               | Some k =>
                   if fault (WLegacyCursor b) then (s, true)
                   else
                     let s := setWaveformLegacyCursor k s in
                     if full then (s, 0 <? queued) else legacy_loop expired keys n' (S b) k queued s
               | None => if full then (s, 0 <? queued) else legacy_loop expired keys n' (S b) cur queued s
               end
           end
  end.

Definition sweepWaveformLegacy (expired : nat -> bool) (keys : list string) (s : waver) : waver * bool :=
  if fault WGetCursor then (s, false)
  else legacy_loop expired keys waveformMaxBatchesPerSweep 0 (wc_qm_key (getWaveformCursor s)) 0 s.

(** ** Orphans *)

(** [previews] are the rows of audio_previews, each with its source; between uploads
    that fit, the first. *)
Definition upload_of_320 (us : list audio_upload) (cid : string) : option string :=
  au_ID <$> List.find (fun u => bool_decide (au_TranscodeResults u !! "320" = Some cid)) us.

Definition link_row (find_upload : string -> option string) (cid : string) (r : waveformRow) : waveformRow :=
  match wf_upload_id r with
  | Some _ => r
  | None =>
      if HasPrefix "Qm" cid then r
      else mkWaveformRow (wf_peaks r) (wf_version r) (wf_status r) (wf_error_count r) (find_upload cid) (wf_last_attempted_at r)
  end.

(** Two statements, the second only after the first. *)
Definition linkOrphanWaveforms (us : list audio_upload) (previews : list (string * string)) (s : waver) : waver :=
  let link find_upload := set_rows (map_imap (fun cid r => Some (link_row find_upload cid r))) in
  if negb enabled || fault WLink then s
  else
    let s := link (upload_of_320 us) s in
    if fault WLinkPreviews then s
    else link (fun cid => List.find (fun p => String.eqb p.1 cid) previews ≫= fun p => upload_of_320 us p.2) s.

Definition resolveWaveformUploadID (us : list audio_upload) (previews : list (string * string)) (cid : string) : string :=
  match upload_of_320 us cid with
  | Some id => id
  | None => default "" (List.find (fun p => String.eqb p.1 cid) previews ≫= fun p => upload_of_320 us p.2)
  end.

(** One pass of the sweeps, and whether work remains. *)
Definition runWaveformSweeps (expired : nat -> option nat -> bool) (us : list audio_upload) (keys : list string)
    (previews : list (string * string)) (s : waver) : waver * bool :=
  let '(s, busy) := sweepWaveformRetries us s in
  let '(s, busy) :=
    if backfill_on then
      let '(s, b1) := sweepWaveformDiscovery expired us s in
      let '(s, b2) := sweepWaveformLegacy (fun b => expired b None) keys s in
      (s, b2 || (b1 || busy))
    else (s, busy) in
  (linkOrphanWaveforms us previews s, busy).

(** ** Serving *)

(** [probe] is the answer of a peer to a request that it must not pass on, [cached] the
    peer that answered last. *)
Definition findNodeToServeWaveform (probe : string -> bool) (cached : option string) (cid : string) : option string :=
  let search :=
    List.find probe
      (take waveformRedirectMaxProbes
         (List.filter (fun h => negb (String.eqb h (Self_Host (Config ss)))) (rendezvousAllHosts sha256 ss cid).1)) in
  match cached with
  | Some host => if probe host then Some host else search
  | None => search
  end.

Definition serveWaveform (probe : string -> bool) (cached : option string) (c : request) (s : waver) : response :=
  let cid := Param c "cid" in
  let elsewhere :=
    if ParseBool (QueryParam c "localOnly") then RText 404 "waveform not found"
    else match findNodeToServeWaveform probe cached cid with
         | Some host => RRedirect host
         | None => RText 404 "waveform not found"
         end in
  if fault (WLookup cid) then RText 500 "waveform lookup failed"
  else match waveforms s !! cid with
       | Some r =>
           if String.eqb (wf_status r) waveformStatusDone && negb (String.eqb (wf_peaks r) "")
           then match rq_method c with HEAD => RNoContent 200 | GET => RContent (wf_peaks r) end
           else elsewhere
       | None => elsewhere
       end.
End Waveform.

(** ** Order *)

Lemma string_ltb_le a b : String.ltb a b = negb (String.leb b a).
Proof. unfold String.ltb, String.leb. rewrite (String.compare_antisym b a). by destruct (String.compare a b). Qed.

Lemma newer_spec u v : newer u v <->
  au_CreatedAt v < au_CreatedAt u \/ (au_CreatedAt v = au_CreatedAt u /\ String.le (au_ID v) (au_ID u)).
Proof.
  unfold newer, pos_ltb, position. cbn. rewrite string_ltb_le. unfold String.le. rewrite Is_true_true.
  destruct (Z.ltb_spec (au_CreatedAt u) (au_CreatedAt v)); cbn [orb].
  { split; [discriminate|lia]. }
  destruct (Z.eqb_spec (au_CreatedAt u) (au_CreatedAt v)) as [E|E]; cbn [andb].
  - rewrite negb_false_iff. split; [auto|]. intros [?|[_ ?]]; [lia|done].
  - split; [intros _; lia|done].
Qed.

#[export] Instance newer_total : Total newer.
Proof.
  intros u v. rewrite !newer_spec. destruct (Z.lt_trichotomy (au_CreatedAt u) (au_CreatedAt v)) as [?|[?|?]]; [auto| |auto].
  destruct (String.le_total (au_ID u) (au_ID v)) as [Hle|Hle]; [right|left]; right; split; [congruence|exact Hle|congruence|exact Hle].
Qed.

#[export] Instance newer_trans : Transitive newer.
Proof.
  intros u v x. rewrite !newer_spec. intros [?|[E1 H1]] [?|[E2 H2]]; [left; lia..|]. right. split; [congruence|].
  by transitivity (au_ID v).
Qed.

Lemma newer_antisym u v : newer u v -> newer v u -> au_ID u = au_ID v.
Proof.
  rewrite !newer_spec. intros [?|[? H1]] [?|[? H2]]; try lia. by apply (anti_symm String.le).
Qed.

(** ** The walk *)

Section Walk.
Context (sha256 : string -> string) (ss : MediorumServer) (archive_on : bool) (waveformVersion : Z).
Context (computeWaveform : string -> option string) (contentType : string -> string) (local_file : string -> option string).
Context (w : world) (fault : wave_sql -> bool).
Context (us : list audio_upload).

Notation has_row := (has_row waveformVersion).
Notation rows_of_upload := (rows_of_upload waveformVersion).
Notation outstanding := (outstanding waveformVersion).
Notation mark := (markWaveformStatus waveformVersion w fault false).
Notation targets_loop := (offer_targets sha256 ss archive_on waveformVersion w fault).
Notation uploads_loop := (offer_uploads sha256 ss archive_on waveformVersion w fault).
Notation walk := (discovery_loop sha256 ss archive_on waveformVersion w fault).

(** A blob that has been dealt with: queued, or in the table at this version, unless
    the statement that records it failed. *)
Definition target_dealt (s : waver) (t : waveformJob) : Prop :=
  t ∈ waveformWork s \/ has_row (wj_cid t) (waveforms s) = true \/ fault (WMark (wj_cid t)) = true.
Definition dealt (s : waver) (u : audio_upload) : Prop := Forall (target_dealt s) (waveformTargets u).

(** The queue and the table only grow, and the cursor stays. *)
Definition grows (s s' : waver) : Prop :=
  (forall t, t ∈ waveformWork s -> t ∈ waveformWork s') /\
  (forall cid, has_row cid (waveforms s) = true -> has_row cid (waveforms s') = true).

#[local] Instance grows_preorder : PreOrder grows.
Proof. split; [split; auto|]. intros a b c [H1 H2] [H3 H4]. split; auto. Qed.

Lemma dealt_grows s s' u : grows s s' -> dealt s u -> dealt s' u.
Proof.
  intros [H1 H2] H. eapply Forall_impl; [exact H|]. intros t [?|[?|?]]; [left|right; left|right; right]; auto.
Qed.

(** A row of an upload counts for no other. *)
Lemma count_insert_other id cid r rows : wf_upload_id r <> Some id -> (rows_of_upload id (<[cid := r]> rows) <= rows_of_upload id rows)%nat.
Proof.
  intros Hr. unfold MediaWaveform.rows_of_upload. rewrite map_filter_insert_False by (intros [? _]; cbn in *; done).
  apply map_subseteq_size, map_filter_strong_subseteq_ext. intros k x.
  rewrite lookup_delete_Some. intros (? & _ & ?). done.
Qed.

Lemma mark_spec cid id status s s' ok : id <> "" -> mark cid id status s = (s', ok) ->
  grows s s' /\ waveform_cursor s' = waveform_cursor s /\ wv_media s' = wv_media s /\
  (forall id', id' <> id -> (rows_of_upload id' (waveforms s') <= rows_of_upload id' (waveforms s))%nat) /\
  (has_row cid (waveforms s') = true \/ fault (WMark cid) = true).
Proof.
  intros Hid. unfold markWaveformStatus. destruct (fault (WMark cid)); intros [= <- <-].
  - split; [done|]. repeat split; auto.
  - split; [split; [done|]|].
    + intros k. unfold MediaWaveform.has_row. cbn. destruct (decide (cid = k)) as [->|].
      * rewrite lookup_insert_eq. intros _. apply Z.eqb_refl.
      * by rewrite lookup_insert_ne.
    + split; [done|]. split; [done|]. split.
      * intros id' Hne. cbn. apply count_insert_other. cbn. unfold owner_of, nullableUploadID.
        destruct (String.eqb_spec id ""); [done|]. cbn. congruence.
      * left. unfold MediaWaveform.has_row. cbn. rewrite lookup_insert_eq. apply Z.eqb_refl.
Qed.

Lemma enqueue_spec t s s' : enqueueWaveformJob t s = Some s' ->
  grows s s' /\ waveform_cursor s' = waveform_cursor s /\ waveforms s' = waveforms s /\ t ∈ waveformWork s'.
Proof.
  unfold enqueueWaveformJob. case_match; [|done]. intros [= <-]. split; [|split; [done|split; [done|]]].
  - split; [|done]. intros x Hx. cbn. apply elem_of_app. auto.
  - cbn. apply elem_of_app. right. by apply list_elem_of_singleton.
Qed.

(** What a loop over the blobs of one upload, or of several, leaves behind. *)
Definition loop_spec (ids : list string) (s s' : waver) : Prop :=
  grows s s' /\ waveform_cursor s' = waveform_cursor s /\
  forall id', id' ∉ ids -> (rows_of_upload id' (waveforms s') <= rows_of_upload id' (waveforms s))%nat.

Lemma loop_spec_trans ids s1 s2 s3 : loop_spec ids s1 s2 -> loop_spec ids s2 s3 -> loop_spec ids s1 s3.
Proof.
  intros (G1 & C1 & N1) (G2 & C2 & N2). split; [by transitivity s2|]. split; [congruence|].
  intros id' Hid. specialize (N1 id' Hid). specialize (N2 id' Hid). lia.
Qed.

Lemma loop_spec_mono ids ids' s s' : ids ⊆ ids' -> loop_spec ids s s' -> loop_spec ids' s s'.
Proof. intros Hsub (G & E & N). split; [done|]. split; [done|]. intros id' Hid. apply N. auto. Qed.

Lemma loop_spec_refl ids s : loop_spec ids s s.
Proof. split; [done|]. split; [done|]. auto. Qed.

Lemma offer_targets_spec id ts s q k s' qk full : id <> "" -> Forall (fun t => wj_uploadID t = id) ts ->
  targets_loop ts s q k = (s', qk, full) ->
  loop_spec [id] s s' /\ (full = false -> Forall (target_dealt s') ts).
Proof.
  intros Hid. revert s q k. induction ts as [|t ts IH]; intros s q k Hts; cbn [offer_targets].
  { intros [= <- <- <-]. split; [apply loop_spec_refl|auto]. }
  apply Forall_cons in Hts as [Ht Hts]. destruct (negb archive_on && _).
  - destruct (mark (wj_cid t) (wj_uploadID t) waveformStatusArchiveSkipped s) as [s1 ok] eqn:Em. cbn [fst]. intros Hloop.
    rewrite Ht in Em. destruct (mark_spec _ _ _ _ _ _ Hid Em) as (G & Ec & _ & Hn & Hd).
    assert (loop_spec [id] s s1) as H1 by (split; [done|]; split; [done|]; intros id' Hne; apply Hn; set_solver).
    destruct (IH _ _ _ Hts Hloop) as [H2 Hdealt]. split; [by eapply loop_spec_trans|].
    intros Hf. constructor; [|auto]. destruct Hd as [Hd|Hd]; [|right; right; done]. right; left. by apply H2.
  - destruct (enqueueWaveformJob t s) as [s1|] eqn:Ee; [|intros [= <- <- <-]; split; [apply loop_spec_refl|done]].
    destruct (enqueue_spec _ _ _ Ee) as (G & Ec & Er & Hin). intros Hloop.
    assert (loop_spec [id] s s1) as H1 by (split; [done|]; split; [done|]; by rewrite Er).
    destruct (IH _ _ _ Hts Hloop) as [H2 Hdealt]. split; [by eapply loop_spec_trans|].
    intros Hf. constructor; [|auto]. left. by apply H2.
Qed.

Lemma targets_upload u : Forall (fun t => wj_uploadID t = au_ID u) (waveformTargets u).
Proof. unfold waveformTargets. apply Forall_app. split; repeat case_match; repeat constructor. Qed.

(** The last of [pre], or what there was before. *)
Definition last_or (adv : option audio_upload) (pre : list audio_upload) : option audio_upload :=
  match last pre with Some u => Some u | None => adv end.

Lemma last_or_cons adv u pre : last_or (Some u) pre = last_or adv (u :: pre).
Proof. unfold last_or. rewrite last_cons. by destruct (last pre). Qed.

Lemma offer_uploads_spec expired i l adv s qk s' adv' qk' full : Forall (fun u => au_ID u <> "") l ->
  uploads_loop expired i l adv s qk = (s', adv', qk', full) ->
  exists pre post, l = app pre post /\ adv' = last_or adv pre /\ Forall (dealt s') pre /\
    loop_spec (map au_ID l) s s' /\ (full = false -> loop_spec (map au_ID pre) s s').
Proof.
  revert i adv s qk. induction l as [|u l IH]; intros i adv s qk Hl; cbn [offer_uploads].
  { intros [= <- <- <- <-]. exists [], []. repeat split; auto. }
  apply Forall_cons in Hl as [Hu Hl]. destruct (expired i).
  { intros [= <- <- <- <-]. exists [], (u :: l). repeat split; auto. }
  destruct (targets_loop (waveformTargets u) s qk.1 qk.2) as [[s1 qk1] f] eqn:Et.
  destruct (offer_targets_spec (au_ID u) _ _ _ _ _ _ _ Hu (targets_upload u) Et) as [H1 Hd1]. destruct f.
  { intros [= <- <- <- <-]. exists [], (u :: l). split; [done|]. split; [done|]. split; [constructor|].
    split; [|done]. apply (loop_spec_mono [au_ID u]); [set_solver|exact H1]. }
  intros Hloop. destruct (IH _ _ _ _ Hl Hloop) as (pre & post & -> & -> & Hpre & H2 & Hf).
  exists (u :: pre), post. split; [done|]. split; [apply last_or_cons|]. split.
  { constructor; [|done]. apply (dealt_grows s1); [apply H2|]. by apply Hd1. }
  split.
  - apply (loop_spec_trans _ s s1 s').
    + apply (loop_spec_mono [au_ID u]); [set_solver|exact H1].
    + apply (loop_spec_mono (map au_ID (app pre post))); [set_solver|exact H2].
  - intros Hff. apply (loop_spec_trans _ s s1 s').
    + apply (loop_spec_mono [au_ID u]); [set_solver|exact H1].
    + apply (loop_spec_mono (map au_ID pre)); [set_solver|by apply Hf].
Qed.

(** The walk is past [u]: at its end, or at an upload that is not newer. *)
Definition passed (s : waver) (u : audio_upload) : Prop :=
  match waveform_cursor s with
  | Some c => wc_exhausted c = true \/ exists p, wc_position c = Some p /\ pos_ltb (position u) p = false
  | None => False
  end.

Hypothesis ids_unique : NoDup (map au_ID us).
Hypothesis ids_present : Forall (fun u => au_ID u <> "") us.

Lemma same_upload u v : u ∈ us -> v ∈ us -> au_ID u = au_ID v -> u = v.
Proof.
  intros [i Hi]%list_elem_of_lookup [j Hj]%list_elem_of_lookup E.
  assert (i = j) as -> by (eapply (NoDup_lookup (map au_ID us)); [done|rewrite list_lookup_fmap, Hi; done|rewrite list_lookup_fmap, Hj; cbn; by rewrite E]).
  congruence.
Qed.

Definition candidates (cur : option (Z * string)) (s : waver) : list audio_upload :=
  merge_sort newer (List.filter (fun u => outstanding (waveforms s) u && below cur u) us).

Lemma elem_of_candidates cur s u : u ∈ candidates cur s <-> u ∈ us /\ outstanding (waveforms s) u = true /\ below cur u = true.
Proof.
  unfold candidates. rewrite (merge_sort_Permutation newer), !list_elem_of_In, List.filter_In, andb_true_iff. done.
Qed.

(** A candidate that is not below the last upload dealt with is among those. *)
Lemma candidate_dealt cur s pre rest a u : candidates cur s = app (app pre [a]) rest -> u ∈ candidates cur s ->
  pos_ltb (position u) (position a) = false -> u ∈ app pre [a].
Proof.
  intros E Hu Hp. pose proof Hu as Hu0. rewrite E in Hu. apply elem_of_app in Hu as [?|Hr]; [done|].
  assert (StronglySorted newer (candidates cur s)) as Hs by (apply (StronglySorted_merge_sort newer)).
  rewrite E, <- (assoc_L app) in Hs. apply StronglySorted_app in Hs as (_ & _ & Hs).
  cbn [app] in Hs. apply StronglySorted_cons in Hs as [Ha _]. rewrite Forall_forall in Ha.
  assert (a = u) as <-; [|set_solver].
  assert (a ∈ candidates cur s) as Hain by (rewrite E; set_solver).
  apply elem_of_candidates in Hain as [Hain _]. apply elem_of_candidates in Hu0 as [Huin _].
  apply same_upload; [done..|]. apply newer_antisym; [by apply Ha|exact Hp].
Qed.

Lemma dealt_are_newer cur s pre rest a x : candidates cur s = app (app pre [a]) rest -> x ∈ app pre [a] -> newer x a.
Proof.
  intros E. assert (StronglySorted newer (candidates cur s)) as Hs by (apply (StronglySorted_merge_sort newer)).
  rewrite E, <- (assoc_L app) in Hs. apply StronglySorted_app in Hs as (Hx & _ & _).
  intros Hin. apply elem_of_app in Hin as [Hin|Hin]; [apply Hx; [done|set_solver]|].
  apply list_elem_of_singleton in Hin as ->. destruct (newer_total a a); done.
Qed.

Lemma outstanding_kept ids s s' u : loop_spec ids s s' -> au_ID u ∉ ids -> outstanding (waveforms s) u = true ->
  outstanding (waveforms s') u = true.
Proof.
  intros (_ & _ & Hn) Hid. unfold MediaWaveform.outstanding. rewrite !andb_true_iff, !Nat.ltb_lt.
  specialize (Hn _ Hid). intros [? ?]. split; [done|lia].
Qed.

(** The walk is where it started. *)
Lemma not_passed s s' cur u : wc_position (getWaveformCursor waveformVersion s) = cur ->
  wc_exhausted (getWaveformCursor waveformVersion s) = false -> waveform_cursor s' = waveform_cursor s ->
  below cur u = true -> ~ passed s' u.
Proof.
  intros Hp He Ec Hb. unfold passed. rewrite Ec. unfold getWaveformCursor in *. destruct (waveform_cursor s) as [c|]; [|auto].
  cbn in *. intros [?|(p & E & Hlt)]; [congruence|]. subst cur. rewrite E in Hb. cbn in Hb. congruence.
Qed.

(** What a walk from [cur] owes. *)
Definition walk_spec (cur : option (Z * string)) (s s' : waver) : Prop :=
  grows s s' /\
  forall u, u ∈ us -> outstanding (waveforms s) u = true -> below cur u = true -> passed s' u -> dealt s' u.

Lemma walk_stays cur s s' : wc_position (getWaveformCursor waveformVersion s) = cur ->
  wc_exhausted (getWaveformCursor waveformVersion s) = false -> waveform_cursor s' = waveform_cursor s -> grows s s' ->
  walk_spec cur s s'.
Proof. intros Hp He Ec Hg. split; [done|]. intros u _ _ Hb Hpass. by destruct (not_passed s s' cur u Hp He Ec Hb). Qed.

Lemma checkpoint_fields a q k s : wc_position (getWaveformCursor waveformVersion (setWaveformCursor waveformVersion w (position a) q k s)) = Some (position a) /\
  wc_exhausted (getWaveformCursor waveformVersion (setWaveformCursor waveformVersion w (position a) q k s)) = wc_exhausted (getWaveformCursor waveformVersion s) /\
  waveforms (setWaveformCursor waveformVersion w (position a) q k s) = waveforms s /\
  waveformWork (setWaveformCursor waveformVersion w (position a) q k s) = waveformWork s.
Proof. unfold setWaveformCursor, getWaveformCursor. cbn. by destruct (waveform_cursor s). Qed.

(** One batch: what is not below the last upload dealt with is dealt with, and what is
    below is as outstanding as before. *)
Lemma batch_spec expired cur s s1 adv qk full :
  uploads_loop expired 0 (take waveformDiscoveryLimit (candidates cur s)) None s (0, 0) = (s1, adv, qk, full) ->
  grows s s1 /\ waveform_cursor s1 = waveform_cursor s /\
  match adv with
  | Some a =>
      (forall u, u ∈ us -> outstanding (waveforms s) u = true -> below cur u = true ->
         pos_ltb (position u) (position a) = false -> dealt s1 u) /\
      (full = false -> forall u, u ∈ us -> outstanding (waveforms s) u = true ->
         pos_ltb (position u) (position a) = true -> outstanding (waveforms s1) u = true)
  | None => full = false -> forall u, outstanding (waveforms s) u = true -> outstanding (waveforms s1) u = true
  end.
Proof.
  intros El. assert (forall x, x ∈ take waveformDiscoveryLimit (candidates cur s) -> x ∈ us) as Hus.
  { intros x Hx. assert (x ∈ candidates cur s) as [? _]%elem_of_candidates; [|done].
    rewrite <- (take_drop waveformDiscoveryLimit (candidates cur s)). set_solver. }
  assert (Forall (fun u => au_ID u <> "") (take waveformDiscoveryLimit (candidates cur s))) as Hids.
  { apply Forall_forall. intros x Hx. rewrite Forall_forall in ids_present. by apply ids_present, Hus. }
  destruct (offer_uploads_spec _ _ _ _ _ _ _ _ _ _ Hids El) as (pre & post & Epp & -> & Hdealt & (Hg1 & Ec1 & _) & Hpre).
  split; [done|]. split; [done|].
  assert (candidates cur s = app pre (app post (drop waveformDiscoveryLimit (candidates cur s)))) as Ecand.
  { rewrite (assoc_L app), <- Epp. symmetry. apply take_drop. }
  unfold last_or. destruct (last pre) as [a|] eqn:Elast.
  - apply last_Some in Elast as [pre' ->]. split.
    + intros u Hu Ho Hb Hpu. rewrite Forall_forall in Hdealt. apply Hdealt.
      eapply candidate_dealt; [exact Ecand|by apply elem_of_candidates|done].
    + intros Hf u Hu Ho Hpu. eapply outstanding_kept; [by apply Hpre| |done].
      intros Hin. apply list_elem_of_fmap in Hin as (x & Eid & Hx).
      rewrite (same_upload u x Hu) in Hpu; [|apply Hus; rewrite Epp; set_solver|done].
      pose proof (dealt_are_newer _ _ _ _ _ _ Ecand Hx) as Hnew. unfold newer in Hnew. congruence.
  - intros Hf u Ho. eapply outstanding_kept; [by apply Hpre| |done]. apply last_None in Elast as ->. set_solver.
Qed.

Lemma discovery_loop_spec expired n b cur q s s' busy :
  walk expired us n b cur q s = (s', busy) -> wc_position (getWaveformCursor waveformVersion s) = cur ->
  wc_exhausted (getWaveformCursor waveformVersion s) = false -> walk_spec cur s s'.
Proof.
  revert b cur q s. induction n as [|n IH]; intros b cur q s Hloop Hp He; cbn [discovery_loop] in Hloop.
  { injection Hloop as <- _. by apply walk_stays. }
  destruct (expired b None); [injection Hloop as <- _; by apply walk_stays|].
  destruct (fault (WBatch b)); [injection Hloop as <- _; by apply walk_stays|].
  change (nextWaveformUploadBatch waveformVersion us cur s) with (take waveformDiscoveryLimit (candidates cur s)) in Hloop.
  pose proof (batch_spec (fun i => expired b (Some i)) cur s) as Hbatch.
  destruct (take waveformDiscoveryLimit (candidates cur s)) as [|u0 l0] eqn:Eb.
  { assert (candidates cur s = []) as Enil by (destruct (candidates cur s); done).
    injection Hloop as <- _. split; [by destruct (fault WExhausted)|]. intros u Hu Ho Hb.
    assert (u ∈ candidates cur s) as Hin by (apply elem_of_candidates; done). rewrite Enil in Hin. by apply elem_of_nil in Hin. }
  destruct (uploads_loop _ 0 (u0 :: l0) None s (0, 0)) as [[[s1 adv] [q1 k1]] full].
  destruct (Hbatch _ _ _ _ eq_refl) as (Hg1 & Ec1 & Hadv). clear Hbatch. destruct adv as [a|].
  - destruct Hadv as [Hdone Hkeep]. destruct (fault (WSetCursor b)); [injection Hloop as <- _; by apply walk_stays|].
    destruct (checkpoint_fields a q1 k1 s1) as (F1 & F2 & F3 & F4).
    set (s2 := setWaveformCursor waveformVersion w (position a) q1 k1 s1) in *.
    assert (grows s1 s2) as Hg2 by (split; [by rewrite F4|by rewrite F3]).
    assert (wc_exhausted (getWaveformCursor waveformVersion s2) = false) as He2.
    { rewrite F2. unfold getWaveformCursor. by rewrite Ec1. }
    destruct full.
    + injection Hloop as <- _. split; [by transitivity s1|]. intros u Hu Ho Hb Hpass. apply (dealt_grows s1); [done|]. apply Hdone; [done..|].
      unfold passed in Hpass. unfold getWaveformCursor in F1, He2. destruct (waveform_cursor s2) as [c|]; [|done]. cbn in F1, He2.
      destruct Hpass as [?|(p & Ep & Hlt)]; congruence.
    + destruct (IH _ _ _ _ Hloop F1 He2) as [Hg3 Hrest]. split; [by transitivity s1; [|transitivity s2]|].
      intros u Hu Ho Hb Hpass. destruct (pos_ltb (position u) (position a)) eqn:Epu.
      * apply Hrest; [done| |done|done]. rewrite F3. by apply Hkeep.
      * apply (dealt_grows s1); [by transitivity s2|]. by apply Hdone.
  - destruct full; [injection Hloop as <- _; by apply walk_stays|].
    assert (wc_position (getWaveformCursor waveformVersion s1) = cur /\ wc_exhausted (getWaveformCursor waveformVersion s1) = false) as [Hp1 He1].
    { unfold getWaveformCursor in *. by rewrite Ec1. }
    destruct (IH _ _ _ _ Hloop Hp1 He1) as [Hg3 Hrest]. split; [by transitivity s1|].
    intros u Hu Ho Hb Hpass. apply Hrest; auto.
Qed.

(** ** Workers *)

Context (deadline : waveformJob -> option job_call).
Notation process := (processWaveformJob sha256 ss archive_on waveformVersion computeWaveform contentType local_file w fault deadline).
Notation drain := (drain sha256 ss archive_on waveformVersion computeWaveform contentType local_file w fault deadline).

(** Rows at this version stay at it, whatever happens to them. *)
Definition keeps_rows (s s' : waver) : Prop := forall cid, has_row cid (waveforms s) = true -> has_row cid (waveforms s') = true.

Lemma insert_keeps_rows cid r s : wf_version r = waveformVersion ->
  keeps_rows s (set_rows <[cid := r]> s) /\ has_row cid (waveforms (set_rows <[cid := r]> s)) = true.
Proof.
  intros Hv. split.
  - intros k. unfold MediaWaveform.has_row. cbn. destruct (decide (cid = k)) as [->|].
    + rewrite lookup_insert_eq, Hv. intros _. apply Z.eqb_refl.
    + by rewrite lookup_insert_ne.
  - unfold MediaWaveform.has_row. cbn. rewrite lookup_insert_eq, Hv. apply Z.eqb_refl.
Qed.

Lemma stamp_keeps_rows cid s : keeps_rows s (stampWaveformAttempt w fault cid s).
Proof.
  unfold stampWaveformAttempt. case_match; [by intros ?|]. intros k. unfold MediaWaveform.has_row. cbn.
  destruct (decide (cid = k)) as [->|]; [|by rewrite lookup_alter_ne]. rewrite lookup_alter_eq. by destruct (waveforms s !! k).
Qed.

(** Each way an attempt ends is recorded, when the statement works. *)
Lemma recorded_keeps_rows s s' cid : (forall q, fault q = false) ->
  (exists id peaks, s' = (upsertWaveform waveformVersion w fault false cid id peaks s).1) \/
  (exists id status, s' = (mark cid id status s).1) \/ (exists id, s' = (markWaveformError waveformVersion w fault false cid id s).1) ->
  keeps_rows s s' /\ has_row cid (waveforms s') = true.
Proof.
  intros Hf [(id & peaks & ->)|[(id & status & ->)|(id & ->)]].
  - unfold upsertWaveform. rewrite Hf. cbn [fst]. by apply insert_keeps_rows.
  - unfold markWaveformStatus. rewrite Hf. cbn [fst]. by apply insert_keeps_rows.
  - unfold markWaveformError. rewrite Hf. cbn [fst]. by apply insert_keeps_rows.
Qed.

(** Where an attempt may leave the table: as one of the three writes does. *)
Lemma process_records job s s' : process job s = Some s' ->
  let late := over deadline job CRecord in
  let s1 := stampWaveformAttempt w fault (wj_cid job) s in
  (s' = s1 /\ wj_localPath job <> "") \/
  (exists id peaks, s' = (upsertWaveform waveformVersion w fault late (wj_cid job) id peaks s1).1) \/
  (exists id status, s' = (markWaveformStatus waveformVersion w fault late (wj_cid job) id status s1).1) \/
  (exists id, s' = (markWaveformError waveformVersion w fault late (wj_cid job) id s1).1).
Proof.
  unfold processWaveformJob. cbn zeta. set (s1 := stampWaveformAttempt _ _ _ _).
  unfold analyzeWaveform, analyzeWaveformFromFile, recordWaveformReadFailure.
  destruct (String.eqb_spec (wj_localPath job) "") as [El|El]; cbn [negb].
  2: { intros [= <-]. destruct (local_file _); [|auto]. case_match; eauto 10. }
  destruct (negb archive_on && _); [intros [= <-]; eauto 10|].
  destruct (ShardCID _) as [key|]; [|done]. intros [= <-].
  destruct (until _ _ CAttrs _) as [[attrs b]|err]; [|eauto 10].
  destruct (blobNotAnalyzable _ _); [eauto 10|].
  destruct (until _ _ CRead _) as [[x b']|err]; [|eauto 10].
  case_match; eauto 10.
Qed.

Lemma process_leaves_row job s s' : (forall q, fault q = false) -> deadline job = None -> process job s = Some s' ->
  keeps_rows s s' /\ (wj_localPath job = "" -> has_row (wj_cid job) (waveforms s') = true).
Proof.
  intros Hf Hd Hp. pose proof (stamp_keeps_rows (wj_cid job) s) as Hst.
  assert (over deadline job CRecord = false) as Hl by (unfold over; by rewrite Hd).
  pose proof (process_records _ _ _ Hp) as Hr. cbn zeta in Hr. rewrite Hl in Hr. destruct Hr as [[-> ?]|Hr]; [done|].
  destruct (recorded_keeps_rows _ s' (wj_cid job) Hf Hr) as [Hk Hrow]. split; [|done]. intros cid Hc. by apply Hk, Hst.
Qed.

(** A job that runs into its timeout records nothing, whichever call it was at: the
    statements that record the outcome run in the same context. *)
Theorem timed_out_job_leaves_no_row job s s' : deadline job <> None -> process job s = Some s' ->
  s' = stampWaveformAttempt w fault (wj_cid job) s.
Proof.
  intros Hd Hp. assert (over deadline job CRecord = true) as Hl.
  { unfold over. destruct (deadline job) as [[]|]; done. }
  pose proof (process_records _ _ _ Hp) as Hr. cbn zeta in Hr. rewrite Hl in Hr.
  by destruct Hr as [[-> _]|[(? & ? & ->)|[(? & ? & ->)|(? & ->)]]].
Qed.

Lemma drain_leaves_rows jobs s s' : (forall q, fault q = false) -> Forall (fun job => deadline job = None) jobs ->
  drain jobs s = Some s' ->
  keeps_rows s s' /\ forall job, job ∈ jobs -> wj_localPath job = "" -> has_row (wj_cid job) (waveforms s') = true.
Proof.
  intros Hf Hj. revert s. induction Hj as [|job jobs Hj _ IH]; intros s; cbn [MediaWaveform.drain].
  { intros [= <-]. split; [by intros ?|]. intros job Hin. by apply elem_of_nil in Hin. }
  destruct (process job s) as [s1|] eqn:Ep; cbn [mbind option_bind]; [|done]. intros Hd.
  destruct (process_leaves_row _ _ _ Hf Hj Ep) as [Hk1 Hr1]. destruct (IH _ Hd) as [Hk2 Hr2].
  split; [intros cid Hc; by apply Hk2, Hk1|]. intros j Hin Hl. apply elem_of_cons in Hin as [->|Hin]; [|by apply Hr2].
  by apply Hk2, Hr1.
Qed.

Lemma targets_have_no_path u : Forall (fun t => wj_localPath t = "") (waveformTargets u).
Proof. unfold waveformTargets. apply Forall_app. split; repeat case_match; repeat constructor. Qed.

(** C30 -- The walk over uploads passes nothing over.  Upload ids are distinct and not
    empty, no SQL statement fails, neither of the sweep nor of the workers, and no job
    of the queue runs into its timeout.  Then, wherever the queue filled up or the loop
    found the context of the sweep over, once the workers have emptied the queue every
    upload below the cursor the sweep started from that was outstanding then and that
    the cursor has passed since has a row of this version, of whatever status, for its
    320 and for its preview. *)
Theorem waveform_walk_passes_nothing_over expired s s1 cur s2 busy s3 :
  (forall q, fault q = false) ->
  discovery_start waveformVersion w fault s = (s1, Some cur) ->
  sweepWaveformDiscovery sha256 ss archive_on waveformVersion w fault expired us s = (s2, busy) ->
  Forall (fun job => deadline job = None) (waveformWork s2) ->
  drain_queue sha256 ss archive_on waveformVersion computeWaveform contentType local_file w fault deadline s2 = Some s3 ->
  forall u, u ∈ us -> outstanding (waveforms s) u = true -> below cur u = true -> passed s2 u ->
    forall t, t ∈ waveformTargets u -> has_row (wj_cid t) (waveforms s3) = true.
Proof.
  intros Hf Hstart Hsweep Hj Hdrain u Hu Ho Hb Hpass t Ht.
  unfold sweepWaveformDiscovery in Hsweep. rewrite Hstart in Hsweep.
  assert (waveforms s1 = waveforms s /\ wc_position (getWaveformCursor waveformVersion s1) = cur /\
          wc_exhausted (getWaveformCursor waveformVersion s1) = false) as (Er & Hp & He).
  { unfold discovery_start in Hstart. rewrite !Hf in Hstart. repeat case_match; simplify_eq; done. }
  destruct (discovery_loop_spec _ _ _ _ _ _ _ _ Hsweep Hp He) as [_ Hwalk].
  rewrite <- Er in Ho. specialize (Hwalk u Hu Ho Hb Hpass). unfold dealt in Hwalk. rewrite Forall_forall in Hwalk.
  destruct (drain_leaves_rows _ _ _ Hf Hj Hdrain) as [Hk Hjobs].
  pose proof (targets_have_no_path u) as Hnp. rewrite Forall_forall in Hnp.
  destruct (Hwalk t Ht) as [Hq|[Hr|Hq]]; [by apply Hjobs; [|apply Hnp]|by apply Hk|]. by rewrite Hf in Hq.
Qed.
End Walk.

(** ** A node at work *)

Module Studio.
Definition version : Z := 2.
Definition peaks (s : string) : option string := if HasPrefix "M" s then Some "peaks" else None.
Definition no_type (_ : string) : string := "".
Definition no_file (_ : string) : option string := None.
Definition server (archive : bool) : MediorumServer := ex_server archive archive ["a"; "b"].
Definition at_time (t : Z) : world := ex_world t silent [].
Definition calm (_ : wave_sql) : bool := false.
Definition patient (_ : nat) (_ : option nat) : bool := false.
Definition in_time (_ : waveformJob) : option job_call := None.
Definition hash (s : string) : string := s.

Definition results (cid320 preview : string) : gmap string string := {[ "320" := cid320; "320_preview|30" := preview ]}.
Definition song (id : string) (t : Z) (cid320 preview : string) : audio_upload :=
  mkAudioUpload id "audio" t (results cid320 preview) (Some "320_preview|30") [].
Definition node (rows : gmap string waveformRow) : waver :=
  mkWaver (ex_media [((Primary, "cid1"), mkBlob "MP3" 0); ((Primary, "cid2"), mkBlob "???" 0)]) rows [] None.

Notation sweep us t s := (sweepWaveformDiscovery hash (server false) false version (at_time t) calm patient us s).
Notation emptied t s := (drain_queue hash (server false) false version peaks no_type no_file (at_time t) calm in_time s).
Notation retry t s := (sweepWaveformRetries false (at_time t) calm [] s).

Definition songs : list audio_upload := [song "u1" 10 "cid1" "cid1p"; song "u2" 20 "cid2" "cid2"].
Definition swept : waver := (sweep songs 100 (node ∅)).1.
End Studio.

Lemma waveform_walk_passes_nothing_over_witness :
  exists s3, drain_queue Studio.hash (Studio.server false) false Studio.version Studio.peaks Studio.no_type Studio.no_file (Studio.at_time 100) Studio.calm Studio.in_time Studio.swept = Some s3 /\
    has_row Studio.version "cid1" (waveforms s3) = true /\ has_row Studio.version "cid1p" (waveforms s3) = true.
Proof.
  eexists. split; [vm_compute; reflexivity|].
  assert (forall t, t ∈ waveformTargets (Studio.song "u1" 10 "cid1" "cid1p") ->
    has_row Studio.version (wj_cid t) (waveforms (default Studio.swept (drain_queue Studio.hash (Studio.server false) false Studio.version
      Studio.peaks Studio.no_type Studio.no_file (Studio.at_time 100) Studio.calm Studio.in_time Studio.swept))) = true) as H.
  { eapply (waveform_walk_passes_nothing_over Studio.hash (Studio.server false) false Studio.version Studio.peaks Studio.no_type Studio.no_file
              (Studio.at_time 100) Studio.calm Studio.songs) with (deadline := Studio.in_time) (s := Studio.node ∅) (expired := Studio.patient) (s2 := Studio.swept) (cur := None).
    - apply (bool_decide_unpack _). vm_compute. exact I.
    - repeat constructor; discriminate.
    - reflexivity.
    - reflexivity.
    - vm_compute. reflexivity.
    - vm_compute. repeat constructor.
    - vm_compute. reflexivity.
    - apply list_elem_of_here.
    - vm_compute. reflexivity.
    - reflexivity.
    - vm_compute. left. reflexivity. }
  split; [apply (H (mkWaveformJob "cid1" "u1" [] ""))|apply (H (mkWaveformJob "cid1p" "u1" [] ""))]; vm_compute; repeat constructor.
Defined.

(** A row that waits in the queue is queued again by the next sweep: it is tried more
    often than the cap allows. *)
Lemma retries_exceed_the_cap :
  let row := mkWaveformRow "" Studio.version waveformStatusError 2 None 0 in
  let s := Studio.node {[ "cid2" := row ]} in
  let late := 7 * media_hour in
  let s2 := (sweepWaveformRetries false (Studio.at_time (late + 5)) Studio.calm [] (sweepWaveformRetries false (Studio.at_time late) Studio.calm [] s).1).1 in
  exists s3, drain_queue Studio.hash (Studio.server false) false Studio.version (fun _ => None) (fun _ => "audio/mpeg") Studio.no_file
      (Studio.at_time late) Studio.calm Studio.in_time (mkWaver (ex_media [((Primary, "cid2"), mkBlob "" 0)]) (waveforms s2) (waveformWork s2) None) = Some s3 /\
    exists r, waveforms s3 !! "cid2" = Some r /\ waveformMaxTries < wf_error_count r.
Proof. cbn zeta. eexists. split; [vm_compute; reflexivity|]. eexists. split; [vm_compute; reflexivity|vm_compute; reflexivity]. Qed.

(** The row of a preview that was replaced counts for its upload: with it in the table,
    an upload whose new preview has no row is not outstanding. *)
Lemma replaced_preview_hides_the_new_one :
  let old cid := mkWaveformRow "peaks" Studio.version waveformStatusDone 0 (Some "u1") 0 in
  let rows := <["cid1" := old "cid1"]> {[ "old-preview" := old "old-preview" ]} in
  let u := Studio.song "u1" 10 "cid1" "new-preview" in
  outstanding Studio.version rows u = false /\ has_row Studio.version "new-preview" rows = false.
Proof. split; vm_compute; reflexivity. Qed.

(** Two uploads with the same 320 share one row, which counts for one of them. *)
Lemma shared_blob_leaves_one_outstanding :
  let us := [Studio.song "u1" 10 "cid1" "cid1"; Studio.song "u2" 20 "cid1" "cid1"] in
  exists s, drain_queue Studio.hash (Studio.server false) false Studio.version Studio.peaks Studio.no_type Studio.no_file (Studio.at_time 100) Studio.calm Studio.in_time
      (sweepWaveformDiscovery Studio.hash (Studio.server false) false Studio.version (Studio.at_time 100) Studio.calm Studio.patient us (Studio.node ∅)).1 = Some s /\
    existsb (outstanding Studio.version (waveforms s)) us = true /\ has_row Studio.version "cid1" (waveforms s) = true.
Proof. cbn zeta. eexists. split; [vm_compute; reflexivity|]. split; vm_compute; reflexivity. Qed.

(** With the archive switched off, a blob that is due in the primary bucket and lies in
    the archive is read from there all the same. *)
Lemma archive_is_read_with_the_flag_off :
  let audio := mkBlob "" 0 in
  let job := mkWaveformJob "cid3" "u3" ["a"] "" in
  exists s, processWaveformJob Studio.hash (Studio.server true) false Studio.version (fun _ => Some "peaks") Studio.no_type Studio.no_file
      (Studio.at_time 5) Studio.calm Studio.in_time job (mkWaver (ex_media [((Archive, "cid3"), audio)]) ∅ [] None) = Some s /\
    wf_status <$> waveforms s !! "cid3" = Some waveformStatusDone.
Proof. cbn zeta. eexists. split; vm_compute; reflexivity. Qed.
